(* ===== verification/_CoqProject ===== *)
-Q . S2P
Prelude.v
JsString.v
JsRegExp.v
Json.v
Codec.v
MeasurementTypes.v
Host.v
Samples.v
Helpers.v
Comparison.v
Cargo.v
Uri.v
Url.v
CloseoutTypes.v
Closeout.v
CloseoutJson.v
Storage.v
CloseoutStore.v
CloseoutInvariants.v
CloseoutSaved.v
OfflineQueue.v
Endpoints.v
AuthEpoch.v
ApiClient.v
JsNumber.v
Sentry.v
AppTypes.v
SystemAdmin.v
UserManagement.v
Dues.v
AuthContext.v
AuthInvariants.v
Uploads.v
Store.v
StoreInvariants.v
VoyageStatus.v
ReadingsModel.v
Tariffs.v
InvoiceDraft.v
LocalDirectory.v
AgencyDirectory.v
GuestPortal.v
Voyages.v
ReadingsWorkspace.v
PlanForm.v
GuestForm.v
AgencyTracker.v
WorkflowForms.v
InvoiceEditor.v
Routing.v
VesselCalls.v
Settings.v
AccountSecurity.v
Capture.v
Invoices.v
OrganizationAccess.v
SignIn.v
Recovery.v
VoyageScreens.v
ActivityDashboard.v
Vessels.v
PortAnalytics.v
Ui.v
PlatformPages.v
ServiceWorker.v
StagingProxy.v
Demo.v
