(* ===== verification/Prelude.v ===== *)
(** * Vessel Caller: a verification development

    Vessel Caller records ship calls at a port, the cargo quantities the ship's owner declares
    and the agencies measure, the reconciliation of the two and the invoice for the difference.
    This library models the web client, frontend/src, file by file, with the service worker and
    the proxy it is deployed behind, and proves what makes it correct.  Definitions keep the names of the code; a comment at the top of each file names
    the sources it models.

    ** How the program is put together

    A browser tab runs one React application.  [AuthContext] holds the session; every request
    goes through [request] of lib/api.ts, which serializes the requests that change cookies and
    drops the answers of an older session; [StoreProvider] polls the server, keeps what the
    screens read and flushes the captures saved while offline.  A voyage has measurement sheets
    (plans) on the server.  Its closeout - the reconciliation report, its review and the
    variation invoice - is kept by closeoutPreview.ts in the browser's storage.  Agencies report
    through links that carry a secret and see only their own form.

    ** Files

    - Foundations.  This file: tactics, hints, list, option and association-list lemmas (an
      association list in insertion order is a JavaScript object or Map, [mget]/[mset]).
      JsString: strings as UTF-16 code units, numerals, [trim], [split].  JsNumber: binary64.
      Json, Codec: values, [JSON.stringify] and [JSON.parse], and the class of records that
      read back as written.  Host: the class of what ECMAScript leaves to Unicode, ICU and the
      calendar.  Uri: [encodeURIComponent] and [decodeURIComponent].  Url: the path of an
      address as the platform's parser resolves it.  Storage: localStorage with failing reads
      and writes.  Samples: the fixture of the witnesses.
    - Data.  MeasurementTypes, CloseoutTypes, AppTypes: measurements/types.ts, the records of
      closeoutPreview.ts, types.ts.
    - Quantities.  Helpers, Comparison, Cargo, Tariffs, ReadingsModel, VoyageStatus, Voyages.
    - The closeout.  Closeout: fingerprints, the calculation, the validators of typed records.
      CloseoutJson: the validators as the code runs them, on parsed JSON, and what it reads of
      a value they accept.  CloseoutStore: the operations on a voyage's record.  CloseoutInvariants: the record's transition system
      and its invariants.  CloseoutSaved: the saved document.  InvoiceDraft, ReadingsWorkspace,
      InvoiceEditor: the screens that drive it.
    - The network.  Endpoints: every call as data.  ApiClient: [request] as a machine.
      AuthEpoch: the session epoch over the tabs of a browser.  AuthContext, AuthInvariants: the
      session.  OfflineQueue: the IndexedDB queue.  Uploads: programs of several requests.
      Store, StoreInvariants: the application store, and the browser: its tabs, each with a
      store, over one queue, and the sign-outs that clear their owner's part of it.
    - Agencies.  LocalDirectory, AgencyDirectory: the two directories.  GuestPortal: the client
      of an agency link.  GuestForm: the agency's form and page.  AgencyTracker: the links the
      office gives out.
    - Forms.  PlanForm: voyage setup.  WorkflowForms: returns, proposals, acknowledgements and
      assessments, and the workspace that sends them.
    - Operations.  VesselCalls: the list of calls, registration, the drawer of a call.  Capture:
      the inspection wizard and the quayside capture.  Invoices: rows, tracking, the drawer of
      an invoice.
    - Administration.  UserManagement: users and invitations.  SystemAdmin: the platform's
      organizations.  Settings: ports, rates, notifications, the order of invoice stages.
      AccountSecurity: profile, password and authenticator.  JsRegExp, Sentry: the patterns and
      the redaction of error reports.
    - Access.  OrganizationAccess: sign-up links and the review of requests.  SignIn: sign-in,
      second factor, organization choice, temporary passwords.  Recovery: the pages behind
      emailed links, instances of one interface.  VoyageScreens: the list of voyages, the
      comparison, the declaration's sheet, the tariff and directory forms.
    - The office's overview.  ActivityDashboard: a member's work, the tiles, what a voyage needs.
      Vessels: the vessels that the calls add up to, and their history.  PortAnalytics: key
      figures, the split of the revenue and the coordinates of the charts.  Ui: sorted tables,
      guards of drawers and dialogs, the trail of the top bar.  PlatformPages: the filters in
      the address, the audit, step-up verification, signed-in devices.
    - Around the client.  ServiceWorker: the caches of frontend/public/sw.js.  StagingProxy: the
      function of deploy/ before the staging server.  Demo: the offline engine of calabar/.
    - Routing: routes, guards, redirections, navigation.

    ** How state and effects are modelled

    A pure function is a function; one that throws returns [result].  A component with state is
    a record and one function per handler; where handlers, answers and other tabs interleave,
    an inductive step relation says what may happen next and the invariants are by induction on
    reachability.  A handler suspended at an [await] is part of the state, so answers arrive in
    any order.  An operation that makes several requests in turn is a program: a tree that asks
    one request and goes on with its answer, whatever that is.  React state set by a handler is
    visible at the next render; refs at once.  Random ids, clocks, files and answers of the
    server are arguments.  Currency and quantities of the closeout are scaled integers, as in
    the code ([bigint]); dues are binary64.

    ** What the theorems show

    - The money: every line is priced exactly (half a cent rounds up), invoices rest on an
      approved report, the approver is not the preparer, versions and invoice numbers never
      repeat, an amendment keeps the terms of the invoice before it.
    - The documents: what is saved reads back; a failing write changes nothing; one voyage's
      save leaves the others alone; a reachable record passes the validators that read it
      exactly when its readings are well formed.
    - The comparison: two readings print alike exactly when they are equal; a row agrees
      exactly when all required readings equal the declaration; what a stage means.
    - The session: a request left behind by a sign-out never signs anyone in; at most one
      cookie-bearing request at a time; stale answers never expire a newer session.
    - The queue: a capture is removed only when the server has accepted it or its owner has
      signed out, and only by its owner.
    - The forms: a form without open issues is accepted by the operation it calls, and what is
      submitted is complete for the sheet as it is; the version a request carries is one on
      which its action was allowed.
    - The agencies: a lost submission is recovered, never confused with another agency's; the
      link's secret leaves the address; the link that is offered works.
    - The routes: a page is shown only to a session that may see it, redirections end, and a
      sign-in never leads to another host.
    - Operations: a call is registered after the text of its rotation number was checked and
      found free, and the suggested one is; a capture is submitted with the tonnage its
      measurements give and a rate for it, and never twice at a time.
    - Administration: an error report is redacted for every object graph, cycles included; a
      retried request carries the key of its attempt and no other; a pending invitation is
      replaced only after a confirmation; recovery codes stay on the screen until the user
      finishes, disables the authenticator or leaves, or an answer replaces or clears them;
      notifications are never set on settings nobody saw.
    - Access: nobody is let in but by a review of the request shown, and as an administrator
      only after a confirmation; a second factor and a choice of organization belong to the
      sign-in that asked for them; a password chosen behind a link is sent once, as typed twice.
    - The voyages: the comparison has every line of the sheet exactly once; the vessels share
      out the calls and each has its own history, which the link of a vessel with a letter or
      a number in its name or flag opens; the button of a member's work opens the page of the
      next step, but for members who may only look.
    - Outside the client: the service worker keeps and answers only what it may; the staging
      proxy cannot be led away from the staging API; the demo's numbers never repeat and its
      invoices stand for inspections.

    ** Bounds and fuel

    Most recursion is structural.  Elsewhere a function has fuel: the loop that lengthens a
    sheet's reference (Voyages), proved to end within the length of the ids; printing an integer
    (JsString), whose fuel is its bit length, proved enough by the round trip; [JSON.parse] and
    [decodeURIComponent], for which the length of the text is enough because each call consumes
    a character; the shortest decimal of a binary64 (JsNumber), seventeen digits; and following
    redirections (Routing), with the theorem that says how many there can be.  The closeout's
    [decimal] accepts fifteen whole digits, as the code does; no other width is assumed.

    ** Not modelled

    The layout of the pages, icons and animations, and the static public pages; locale formatting
    of dates and numbers, which is the [Host]'s; the Django service under backend/, another
    language, whose answers are arguments; React, TanStack Query and wouter themselves, which
    are parameters or appear as the order of the steps; the screens of the demo under calabar/
    and mobile/, of which only the engine is modelled; deployment. *)
From Stdlib Require Export String.
From Stdlib Require Export ZArith Lia.
From stdpp Require Export base tactics option list sorting numbers gmap.
From Stdlib Require List.

#[global] Open Scope Z_scope.
#[global] Set Default Goal Selector "!".

(** ** Hint databases and tactics *)

(** [lia] on division and remainder. *)
Ltac Zify.zify_post_hook ::= Z.to_euclidean_division_equations.

Create HintDb vessel discriminated.
Create Rewrite HintDb vessel_rw.

(** Split boolean guards of the code into propositions and back. *)
Ltac bool_hyps :=
  repeat match goal with
  | H : andb _ _ = true |- _ => apply andb_true_iff in H; destruct H
  | H : orb _ _ = false |- _ => apply orb_false_iff in H; destruct H
  | H : negb _ = true |- _ => apply negb_true_iff in H
  | H : negb _ = false |- _ => apply negb_false_iff in H
  | H : Z.eqb _ _ = true |- _ => apply Z.eqb_eq in H
  | H : Z.eqb _ _ = false |- _ => apply Z.eqb_neq in H
  | H : Z.ltb _ _ = true |- _ => apply Z.ltb_lt in H
  | H : Z.ltb _ _ = false |- _ => apply Z.ltb_ge in H
  | H : Z.leb _ _ = true |- _ => apply Z.leb_le in H
  | H : Z.leb _ _ = false |- _ => apply Z.leb_gt in H
  | H : N.eqb _ _ = true |- _ => apply N.eqb_eq in H
  | H : N.eqb _ _ = false |- _ => apply N.eqb_neq in H
  | H : N.ltb _ _ = true |- _ => apply N.ltb_lt in H
  | H : N.ltb _ _ = false |- _ => apply N.ltb_ge in H
  | H : N.leb _ _ = true |- _ => apply N.leb_le in H
  | H : N.leb _ _ = false |- _ => apply N.leb_gt in H
  | H : bool_decide _ = true |- _ => apply bool_decide_eq_true in H
  | H : bool_decide _ = false |- _ => apply bool_decide_eq_false in H
  end.

(** Case analysis on the innermost guard of a translated body. *)
Ltac break_guard :=
  match goal with
  | |- context [if ?c then _ else _] => destruct c eqn:?
  | H : context [if ?c then _ else _] |- _ => destruct c eqn:?
  | |- context [match ?c with _ => _ end] => destruct c eqn:?
  | H : context [match ?c with _ => _ end] |- _ => destruct c eqn:?
  end.

Ltac break_guards := repeat (break_guard; simplify_eq/=).

(** ** Thrown errors

    A body that throws is a [result]; the message is the code's. *)

Inductive result (E A : Type) : Type :=
| Ok (a : A)
| Err (e : E).
Arguments Ok {E A} a.
Arguments Err {E A} e.

Definition rbind {E A B} (m : result E A) (k : A → result E B) : result E B :=
  match m with Ok a => k a | Err e => Err e end.

Definition throw_if {E} (c : bool) (e : E) : result E unit := if c then Err e else Ok tt.

Declare Scope vessel_scope.
Delimit Scope vessel_scope with vessel.
Notation "'let!' x ':=' m 'in' k" := (rbind m (λ x, k))
  (at level 10, x pattern, m at level 100, k at level 200) : vessel_scope.
Notation "'guard!' c 'else' e 'in' k" := (rbind (throw_if c e) (λ _, k))
  (at level 10, c at level 100, e at level 100, k at level 200) : vessel_scope.
#[global] Open Scope vessel_scope.

Section Result.
Context {E A B : Type}.

Lemma rbind_Ok (m : result E A) (k : A → result E B) b :
  rbind m k = Ok b ↔ ∃ a, m = Ok a ∧ k a = Ok b.
Proof.
  destruct m; simpl; split; [eauto| |done|].
  - intros (? & ? & ?). congruence.
  - intros (? & ? & ?). congruence.
Qed.

Lemma throw_if_Ok c (e : E) u : throw_if c e = Ok u ↔ c = false.
Proof. destruct c, u; simpl; split; congruence. Qed.

Lemma guard_Ok c (e : E) (k : unit → result E B) b :
  rbind (throw_if c e) k = Ok b ↔ c = false ∧ k tt = Ok b.
Proof. destruct c; simpl; split; [congruence|intros [? ?]; congruence|done|tauto]. Qed.
End Result.

(** Read a successful run of a [result] body guard by guard. *)
Ltac run_ok H :=
  repeat match type of H with
  | rbind (throw_if _ _) _ = Ok _ =>
      let G := fresh "G" in apply guard_Ok in H; destruct H as [G H]
  | rbind _ _ = Ok _ =>
      let x := fresh "x" in let G := fresh "G" in
      apply rbind_Ok in H; destruct H as (x & G & H)
  end.

(** ** Lists as the code uses them *)

Abbreviation filterb := List.filter.
Abbreviation findb := List.find.

Section Lists.
Context {A : Type}.

(** [Array.prototype.find] over [bool] tests. *)
Lemma findb_Some (f : A → bool) l x : findb f l = Some x → x ∈ l ∧ f x = true.
Proof. intros H%List.find_some. by rewrite list_elem_of_In. Qed.

Lemma findb_None (f : A → bool) l : findb f l = None ↔ ∀ x, x ∈ l → f x = false.
Proof.
  split.
  - intros H x Hx. eapply List.find_none; [done|]. by apply list_elem_of_In.
  - induction l as [|y l IH]; intros H; simpl; [done|].
    rewrite (H y) by set_solver. apply IH. set_solver.
Qed.

Lemma elem_of_filterb (f : A → bool) l x : x ∈ filterb f l ↔ x ∈ l ∧ f x = true.
Proof. by rewrite !list_elem_of_In, List.filter_In. Qed.

Lemma filterb_all (f : A → bool) l : (∀ x, x ∈ l → f x = true) → filterb f l = l.
Proof.
  induction l as [|y l IH]; intros H; simpl; [done|].
  rewrite (H y) by set_solver. f_equal. apply IH. set_solver.
Qed.

Lemma filterb_app (f : A → bool) l1 l2 : filterb f (l1 ++ l2) = filterb f l1 ++ filterb f l2.
Proof. induction l1 as [|x l1 IH]; [done|]. cbn [app filterb]. rewrite IH. by destruct (f x). Qed.
Lemma filterb_none (f : A → bool) l : (∀ x, x ∈ l → f x = false) → filterb f l = [].
Proof.
  induction l as [|x l IH]; intros Hf; [done|]. cbn [filterb]. rewrite Hf by left. apply IH. intros y Hy. apply Hf. by right.
Qed.

Lemma NoDup_filterb (f : A → bool) l : NoDup l → NoDup (filterb f l).
Proof.
  induction 1 as [|x l Hx _ IH]; simpl; [constructor|]. destruct (f x); [|done].
  constructor; [|done]. by intros [Hin _]%elem_of_filterb.
Qed.
Lemma NoDup_map_filterb {B} (key : A → B) (f : A → bool) l : NoDup (map key l) → NoDup (map key (filterb f l)).
Proof.
  induction l as [|x l IH]; [done|]. cbn [map filterb]. rewrite NoDup_cons. intros [Hx Hl]. destruct (f x); [|by apply IH].
  cbn [map]. apply NoDup_cons. split; [|by apply IH]. intros (y & Hy & [Hin _]%elem_of_filterb)%list_elem_of_fmap.
  apply Hx, list_elem_of_fmap. eauto.
Qed.

Lemma existsb_true (f : A → bool) l : existsb f l = true ↔ ∃ x, x ∈ l ∧ f x = true.
Proof. rewrite List.existsb_exists. by setoid_rewrite list_elem_of_In. Qed.

Lemma existsb_false (f : A → bool) l : existsb f l = false ↔ ∀ x, x ∈ l → f x = false.
Proof.
  rewrite <- not_true_iff_false, existsb_true. split.
  - intros H x Hx. apply not_true_iff_false. naive_solver.
  - intros H (x & Hx & Hf). specialize (H x Hx). congruence.
Qed.

Lemma forallb_true (f : A → bool) l : forallb f l = true ↔ ∀ x, x ∈ l → f x = true.
Proof. rewrite List.forallb_forall. by setoid_rewrite list_elem_of_In. Qed.

Lemma last_snoc' (l : list A) x : last (l ++ [x]) = Some x.
Proof. apply last_snoc. Qed.
End Lists.
#[export] Hint Rewrite @last_snoc' : vessel_rw.

(** ** JS [Map] and [Set]: insertion-ordered, keys replaced in place *)

Section OrderedMap.
Context {K V : Type} `{EqDecision K}.

Fixpoint mget (k : K) (m : list (K * V)) : option V :=
  match m with
  | [] => None
  | (k', v) :: m' => if decide (k = k') then Some v else mget k m'
  end.

Fixpoint mset (k : K) (v : V) (m : list (K * V)) : list (K * V) :=
  match m with
  | [] => [(k, v)]
  | (k', v') :: m' => if decide (k = k') then (k', v) :: m' else (k', v') :: mset k v m'
  end.

Lemma mget_mset_eq k v m : mget k (mset k v m) = Some v.
Proof. induction m as [|[k' v'] m IH]; simpl; repeat (case_decide; simpl); done. Qed.

Lemma mget_mset_ne k k' v m : k ≠ k' → mget k' (mset k v m) = mget k' m.
Proof.
  intros Hne. induction m as [|[k1 v1] m IH]; simpl; [by case_decide|].
  repeat (case_decide; simplify_eq/=); done.
Qed.

Lemma mset_keys k v m :
  (mset k v m).*1 = if decide (k ∈ m.*1) then m.*1 else m.*1 ++ [k].
Proof.
  induction m as [|[k1 v1] m IH]; csimpl; [done|].
  destruct (decide (k = k1)) as [->|Hne]; csimpl.
  - rewrite decide_True by (apply elem_of_cons; by left). done.
  - rewrite IH. destruct (decide (k ∈ m.*1)) as [Hi|Hi].
    + rewrite decide_True by (apply elem_of_cons; by right). done.
    + rewrite decide_False; [done|]. by intros [?|?]%elem_of_cons.
Qed.

Lemma mset_fresh k v m : k ∉ m.*1 → mset k v m = m ++ [(k, v)].
Proof.
  induction m as [|[k1 v1] m IH]; csimpl; [done|]. intros [Hk Hm]%not_elem_of_cons.
  rewrite decide_False by done. by rewrite IH.
Qed.

Lemma mset_NoDup k v m : NoDup m.*1 → NoDup (mset k v m).*1.
Proof.
  intros Hd. rewrite mset_keys. case_decide as Hk; [done|].
  apply NoDup_app; repeat split; [done| |apply NoDup_singleton].
  intros x Hx ->%list_elem_of_singleton. done.
Qed.

Lemma elem_of_mget k v m : NoDup m.*1 → (k, v) ∈ m ↔ mget k m = Some v.
Proof.
  induction m as [|[k1 v1] m IH]; csimpl; intros Hd.
  - split; [by intros ?%elem_of_nil|done].
  - apply NoDup_cons in Hd as [Hk Hd]. rewrite elem_of_cons. case_decide as He.
    + subst. split; [|naive_solver]. intros [?|Hin]; [naive_solver|].
      destruct Hk. apply list_elem_of_fmap. by exists (k1, v).
    + rewrite <- IH by done. naive_solver.
Qed.

Lemma mget_Some_elem k v m : mget k m = Some v → (k, v) ∈ m.
Proof.
  induction m as [|[k1 v1] m IH]; simpl; [done|].
  case_decide; intros ?; simplify_eq; apply elem_of_cons; [by left|right; auto].
Qed.
End OrderedMap.

Section OrderedSet.
Context {A : Type} `{EqDecision A}.

(** [[...new Set(l)]]: first occurrences, in order. *)
Fixpoint uniq_from (seen : list A) (l : list A) : list A :=
  match l with
  | [] => []
  | x :: l' => if decide (x ∈ seen) then uniq_from seen l' else x :: uniq_from (x :: seen) l'
  end.
Definition uniq (l : list A) : list A := uniq_from [] l.

Lemma elem_of_uniq_from seen l x : x ∈ uniq_from seen l ↔ x ∈ l ∧ x ∉ seen.
Proof.
  revert seen. induction l as [|y l IH]; intros seen; simpl; [set_solver|].
  case_decide as Hy; rewrite ?elem_of_cons, IH; [set_solver|].
  rewrite elem_of_cons. destruct (decide (x = y)); set_solver.
Qed.

Lemma elem_of_uniq l x : x ∈ uniq l ↔ x ∈ l.
Proof. unfold uniq. rewrite elem_of_uniq_from. set_solver. Qed.

Lemma NoDup_uniq_from seen l : NoDup (uniq_from seen l).
Proof.
  revert seen. induction l as [|y l IH]; intros seen; simpl; [constructor|].
  case_decide; [done|]. apply NoDup_cons. split; [|done].
  rewrite elem_of_uniq_from. set_solver.
Qed.
Lemma NoDup_uniq l : NoDup (uniq l).
Proof. apply NoDup_uniq_from. Qed.

Lemma uniq_from_id seen l : NoDup l → (∀ x, x ∈ l → x ∉ seen) → uniq_from seen l = l.
Proof.
  revert seen. induction l as [|y l IH]; intros seen Hd Hs; simpl; [done|].
  apply NoDup_cons in Hd as [Hy Hd]. rewrite decide_False by set_solver.
  f_equal. apply IH; [done|]. set_solver.
Qed.

Lemma length_uniq_from_le seen l : (length (uniq_from seen l) ≤ length l)%nat.
Proof.
  revert seen. induction l as [|y l IH]; intros seen; simpl; [lia|].
  case_decide; simpl; [specialize (IH seen)|specialize (IH (y :: seen))]; lia.
Qed.

Lemma uniq_from_snoc (seen l : list A) x :
  uniq_from seen (l ++ [x]) = uniq_from seen l ++ (if decide (x ∈ seen ∨ x ∈ l) then [] else [x]).
Proof.
  revert seen. induction l as [|y l IH]; intros seen; cbn [app uniq_from].
  - destruct (decide (x ∈ seen)) as [Hx|Hx]; [rewrite decide_True by auto; done|].
    rewrite decide_False; [done|]. intros [?|?%elem_of_nil]; done.
  - destruct (decide (y ∈ seen)) as [Hy|Hy]; rewrite IH; [|cbn [app]; f_equal]; f_equal; apply decide_ext; set_solver.
Qed.
Lemma uniq_snoc (l : list A) x : uniq (l ++ [x]) = uniq l ++ (if decide (x ∈ l) then [] else [x]).
Proof. unfold uniq. rewrite uniq_from_snoc. f_equal. apply decide_ext. set_solver. Qed.

(** The code tests [new Set(l).size !== l.length] for a repeated key. *)
Definition hasRepeats (l : list A) : bool := negb (Nat.eqb (length (uniq l)) (length l)).

Lemma hasRepeats_false l : hasRepeats l = false ↔ NoDup l.
Proof.
  unfold hasRepeats, uniq. rewrite negb_false_iff, Nat.eqb_eq. split.
  - intros He. assert (Hg : ∀ seen, length (uniq_from seen l) = length l → uniq_from seen l = l).
    { clear He. induction l as [|y l IH]; intros seen; simpl; [done|].
      case_decide; simpl; intros He.
      - pose proof (length_uniq_from_le seen l). lia.
      - f_equal. apply IH. lia. }
    rewrite <- (Hg [] He). apply NoDup_uniq_from.
  - intros Hd. rewrite uniq_from_id; [done|done|set_solver].
Qed.
End OrderedSet.

(** Lists under a function. *)
Lemma flat_map_nil {A B} (f : A → list B) l : flat_map f l = [] ↔ ∀ x, x ∈ l → f x = [].
Proof.
  induction l as [|x l IH]; simpl; [split; [intros _ x Hx; by apply elem_of_nil in Hx|done]|].
  split.
  - intros [Hx Hl]%app_nil y [->|Hy]%elem_of_cons; [done|]. by apply IH.
  - intros H. rewrite (H x) by (apply elem_of_cons; by left). apply IH. intros y Hy.
    apply H, elem_of_cons. by right.
Qed.
Lemma NoDup_map_inj {A B} (f : A → B) l x y : NoDup (map f l) → x ∈ l → y ∈ l → f x = f y → x = y.
Proof.
  intros Hnd [i Hi]%list_elem_of_lookup [j Hj]%list_elem_of_lookup Hf.
  assert (i = j) as ->; [|congruence].
  eapply (NoDup_lookup _ i j (f x)); [exact Hnd|by apply list_lookup_fmap_Some_2|].
  rewrite Hf. by apply list_lookup_fmap_Some_2.
Qed.
Lemma findb_map {A B} (f : B → bool) (g : A → B) l : findb f (map g l) = g <$> findb (λ x, f (g x)) l.
Proof. induction l as [|x l IH]; simpl; [done|]. by destruct (f (g x)). Qed.

(** Every pair of an ordered map after [mset]. *)
Lemma elem_of_mset {K A} `{EqDecision K} k v (m : list (K * A)) e : e ∈ mset k v m → e = (k, v) ∨ e ∈ m.
Proof.
  induction m as [|[k' v'] m IH]; simpl; [intros ?%list_elem_of_singleton; by left|].
  case_decide; rewrite !elem_of_cons; [naive_solver|]. intros [->|Hin]; [naive_solver|]. destruct (IH Hin); naive_solver.
Qed.

(** ** Grouping into a Map

    [m.set(key(x), update(m.get(key(x)), x))] for each [x] in turn: the keys in the order they
    first appear, each with the update of its own elements in their order. *)

Section Grouping.
Context {K A B : Type} `{EqDecision K} (key : A → K) (update : option B → A → B).

Definition group_into (m : list (K * B)) (l : list A) : list (K * B) :=
  foldl (λ m x, mset (key x) (update (mget (key x) m) x) m) m l.
Definition keyed (k : K) (l : list A) : list A := filterb (λ x, bool_decide (key x = k)) l.

Lemma elem_of_keyed k l x : x ∈ keyed k l ↔ x ∈ l ∧ key x = k.
Proof. unfold keyed. by rewrite elem_of_filterb, bool_decide_eq_true. Qed.
Lemma group_keys l : (group_into [] l).*1 = uniq (map key l).
Proof.
  induction l as [|x l IH] using rev_ind; [done|]. unfold group_into in *. rewrite foldl_app, map_app. cbn [map foldl]. rewrite uniq_snoc, <- IH.
  set (m := foldl _ [] l) in *. rewrite mset_keys. assert (Hk : key x ∈ map key l ↔ key x ∈ m.*1) by (rewrite IH; symmetry; apply elem_of_uniq).
  destruct (decide (key x ∈ m.*1)) as [Hin|Hin]; [rewrite decide_True by tauto|rewrite decide_False by tauto; done]. by rewrite app_nil_r.
Qed.
Lemma group_get k l : mget k (group_into [] l) = foldl (λ o x, Some (update o x)) None (keyed k l).
Proof.
  induction l as [|x l IH] using rev_ind; [done|]. unfold group_into, keyed in *. rewrite filterb_app, !foldl_app. cbn [foldl filterb].
  case_bool_decide as Hk; cbn [foldl].
  - subst k. by rewrite mget_mset_eq, IH.
  - by rewrite mget_mset_ne.
Qed.
Lemma group_NoDup l : NoDup (group_into [] l).*1.
Proof. rewrite group_keys. apply NoDup_uniq. Qed.
Lemma elem_of_group k v l : (k, v) ∈ group_into [] l ↔ foldl (λ o x, Some (update o x)) None (keyed k l) = Some v.
Proof. by rewrite elem_of_mget, group_get by apply group_NoDup. Qed.
End Grouping.

(** Lists of the elements of each key. *)
Section GroupBy.
Context {K A : Type} `{EqDecision K} (key : A → K).

Definition group_by (l : list A) : list (K * list A) := group_into key (λ o x, default [] o ++ [x]) [] l.
Lemma collected (o : option (list A)) l : foldl (λ o x, Some (default [] o ++ [x])) o l =
  match l with [] => o | _ => Some (default [] o ++ l) end.
Proof.
  revert o. induction l as [|x l IH]; intros o; [done|]. cbn [foldl]. rewrite IH. destruct l; [done|]. simpl. by rewrite <- app_assoc.
Qed.
Lemma elem_of_group_by k xs l : (k, xs) ∈ group_by l ↔ xs = keyed key k l ∧ xs ≠ [].
Proof.
  unfold group_by. rewrite elem_of_group, collected. destruct (keyed key k l) as [|y ys]; cbn [default app]; split; try naive_solver.
Qed.
Lemma group_by_spec l : group_by l = map (λ k, (k, keyed key k l)) (uniq (map key l)).
Proof.
  rewrite <- (group_keys key (λ o x, default [] o ++ [x])). fold (group_by l).
  assert (Hall : ∀ e, e ∈ group_by l → e.2 = keyed key e.1 l) by (intros [k xs] Hin; by apply elem_of_group_by in Hin as [-> _]).
  induction (group_by l) as [|[k xs] m IH]; [done|]. cbn [map fmap list_fmap fst]. f_equal.
  - f_equal. apply (Hall (k, xs)). left.
  - apply IH. intros e He. apply Hall. by right.
Qed.
Lemma keyed_perm l keys : NoDup keys → (∀ x, x ∈ l → key x ∈ keys) → flat_map (λ k, keyed key k l) keys ≡ₚ l.
Proof.
  intros Hn. revert l. induction Hn as [|k keys Hk Hn IH]; intros l Hl.
  - destruct l as [|x l]; [done|]. specialize (Hl x ltac:(left)). by apply elem_of_nil in Hl.
  - cbn [flat_map]. set (rest := filterb (λ x, negb (bool_decide (key x = k))) l).
    assert (Hs : l ≡ₚ keyed key k l ++ rest).
    { unfold rest, keyed. clear. induction l as [|x l IHl]; [done|]. cbn [filterb]. case_bool_decide; cbn [negb app];
        [by constructor|]. rewrite IHl at 1. by rewrite Permutation_middle. }
    rewrite Hs at 2. apply Permutation_app_head. rewrite <- (IH rest).
    + assert (He : ∀ ks, (∀ x, x ∈ ks → x ≠ k) → flat_map (λ k, keyed key k l) ks = flat_map (λ k, keyed key k rest) ks); [|by rewrite He by naive_solver].
      intros ks Hks. induction ks as [|x ks IHk]; [done|]. cbn [flat_map]. rewrite IHk by (intros; apply Hks; by right). f_equal.
      assert (Hx : x ≠ k) by (apply Hks; left). unfold rest, keyed. clear - Hx. induction l as [|y l IHl]; [done|]. cbn [filterb].
      do 2 case_bool_decide; cbn [negb filterb]; [congruence|..]; rewrite IHl; try done.
      * by rewrite bool_decide_eq_true_2.
      * by rewrite bool_decide_eq_false_2.
    + intros x [Hin Hne%negb_true_iff%bool_decide_eq_false]%elem_of_filterb. apply Hl in Hin. by apply elem_of_cons in Hin as [?|?].
Qed.
(** Grouping loses nothing and repeats nothing. *)
Lemma group_by_perm l : flat_map snd (group_by l) ≡ₚ l.
Proof.
  rewrite group_by_spec. assert (Hf : ∀ ks, flat_map snd (map (λ k, (k, keyed key k l)) ks) = flat_map (λ k, keyed key k l) ks).
  { induction ks as [|k ks IH]; [done|]. cbn [map flat_map snd]. by rewrite IH. }
  rewrite Hf. apply keyed_perm; [apply NoDup_uniq|]. intros x Hx. apply elem_of_uniq, list_elem_of_fmap. eauto.
Qed.
End GroupBy.

(** ** [Array.prototype.sort] with a comparator: stable *)

Section Sort.
Context {A : Type} (cmp : A → A → Z).

Fixpoint sort_insert (x : A) (l : list A) : list A :=
  match l with
  | [] => [x]
  | y :: l' => if cmp x y <=? 0 then x :: y :: l' else y :: sort_insert x l'
  end.
Definition sort_by (l : list A) : list A := foldr sort_insert [] l.

Lemma sort_insert_perm x l : sort_insert x l ≡ₚ x :: l.
Proof.
  induction l as [|y l IH]; simpl; [done|]. destruct (cmp x y <=? 0); [done|].
  rewrite IH. apply Permutation_swap.
Qed.

Lemma sort_by_perm l : sort_by l ≡ₚ l.
Proof. induction l as [|x l IH]; simpl; [done|]. by rewrite sort_insert_perm, IH. Qed.

Lemma elem_of_sort_by l x : x ∈ sort_by l ↔ x ∈ l.
Proof. by rewrite sort_by_perm. Qed.

Lemma length_sort_by l : length (sort_by l) = length l.
Proof. by rewrite sort_by_perm. Qed.

Lemma sort_by_sorted l :
  (∀ x y, 0 < cmp x y → cmp y x <= 0) → Sorted (λ x y, cmp x y <= 0) (sort_by l).
Proof.
  intros Htot. induction l as [|x l IH]; simpl; [constructor|].
  induction IH as [|y l' IH' IH2 Hhd]; simpl; [repeat constructor|].
  destruct (Z.leb_spec (cmp x y) 0); [repeat constructor; done|].
  constructor; [done|]. destruct l' as [|z l'']; simpl in *.
  - constructor. apply Htot. lia.
  - inversion Hhd; subst. destruct (cmp x z <=? 0); constructor; [|done]. apply Htot. lia.
Qed.

Lemma sort_by_id l : Sorted (λ x y, cmp x y <= 0) l → sort_by l = l.
Proof.
  induction 1 as [|x l Hs IH Hhd]; simpl; [done|]. rewrite IH.
  destruct Hhd as [|y l' Hle]; simpl; [done|]. by rewrite (proj2 (Z.leb_le _ _) Hle).
Qed.
End Sort.

(** ** What happened, and has not been undone since *)

Section Since.
Context {E : Type}.
Implicit Types (start keeps : E → Prop) (evs : list E).
(** Some event was a [start], and all events after it are ones that [keep] it. *)
Definition since start keeps evs : Prop := ∃ a e b, evs = a ++ e :: b ∧ start e ∧ Forall keeps b.
Lemma since_now start keeps evs e : start e → since start keeps (evs ++ [e]).
Proof. intros He. exists evs, e, []. auto. Qed.
Lemma since_keep start keeps evs e : keeps e → since start keeps evs → since start keeps (evs ++ [e]).
Proof.
  intros He (a & e' & b & -> & Hs & Hb). exists a, e', (b ++ [e]). split_and!; [by rewrite <- app_assoc|done|].
  apply Forall_app. split; [done|by constructor].
Qed.
End Since.
#[export] Hint Resolve since_now since_keep : vessel.
