(* ===== verification/JsString.v ===== *)
(** * JavaScript strings, numerals and decimal text

    A string is the list of its UTF-16 code units, as ECMAScript defines it, so
    length, slicing, [trim] and the default sort order are the code's own.
    [js] turns a Rocq literal (UTF-8) into code units.  The numeral routines are
    [BigInt(text)] and [bigint.toString()] on decimal digits. *)
From S2P Require Import Prelude.
From Stdlib Require Import Ascii.

Abbreviation str := (list N).

(** ** Literals *)

Fixpoint bytes_of (s : string) : list N :=
  match s with
  | EmptyString => []
  | String c s' => N_of_ascii c :: bytes_of s'
  end.

Fixpoint utf16_of (bs : list N) : str :=
  match bs with
  | [] => []
  | b :: r =>
    if (b <? 128)%N then b :: utf16_of r else
    match r with
    | [] => []
    | c :: r1 =>
      if (b <? 224)%N then ((b - 192) * 64 + (c - 128))%N :: utf16_of r1 else
      match r1 with
      | [] => []
      | d :: r2 => ((b - 224) * 4096 + (c - 128) * 64 + (d - 128))%N :: utf16_of r2
      end
    end
  end.

Definition js (s : string) : str := utf16_of (bytes_of s).
Arguments js s%_string_scope.

(** ** Characters *)

Definition cDot : N := 46%N.
Definition cMinus : N := 45%N.
Definition cPlus : N := 43%N.
Definition cZero : N := 48%N.
Definition cComma : N := 44%N.
Definition cSpace : N := 32%N.
Definition cQuote : N := 34%N.
Definition cSlash : N := 47%N.
Definition cBackslash : N := 92%N.

Definition isDigit (c : N) : bool := ((48 <=? c) && (c <=? 57))%N.
Definition isAlphaAscii (c : N) : bool :=
  (((65 <=? c) && (c <=? 90)) || ((97 <=? c) && (c <=? 122)))%N.
(** [\w] of a regular expression without the [u] and [i] flags. *)
Definition isWord (c : N) : bool := isDigit c || isAlphaAscii c || N.eqb c 95.

(** WhiteSpace and LineTerminator: what [trim] strips and [\s] matches. *)
Definition isWs (c : N) : bool :=
  (((9 <=? c) && (c <=? 13)) || (c =? 32) || (c =? 160) || (c =? 5760)
   || ((8192 <=? c) && (c <=? 8202)) || (c =? 8232) || (c =? 8233)
   || (c =? 8239) || (c =? 8287) || (c =? 12288) || (c =? 65279))%N.

(** ** Operations of [String.prototype] *)

(** A string is falsy exactly when it is empty. *)
Definition isEmpty (s : str) : bool := match s with [] => true | _ => false end.
Definition truthy (s : str) : bool := negb (isEmpty s).

Definition streq (s t : str) : bool := bool_decide (s = t).

Fixpoint trimStart (s : str) : str :=
  match s with
  | c :: r => if isWs c then trimStart r else s
  | [] => []
  end.
Definition trimEnd (s : str) : str := rev (trimStart (rev s)).
Definition trim (s : str) : str := trimEnd (trimStart s).

(** [.replace(/\s+/g, " ")] *)
Fixpoint collapseWs (prev : bool) (s : str) : str :=
  match s with
  | [] => []
  | c :: r => if isWs c then (if prev then collapseWs true r else cSpace :: collapseWs true r)
              else c :: collapseWs false r
  end.

Fixpoint startsWith (p s : str) : bool :=
  match p, s with
  | [], _ => true
  | x :: p', y :: s' => N.eqb x y && startsWith p' s'
  | _ :: _, [] => false
  end.

(** [.split(c)] for a one-character separator: never the empty list. *)
Fixpoint split (c : N) (s : str) : list str :=
  match s with
  | [] => [[]]
  | x :: r =>
    if N.eqb x c then [] :: split c r
    else match split c r with
         | w :: ws => (x :: w) :: ws
         | [] => [[x]]
         end
  end.

Fixpoint join (sep : str) (l : list str) : str :=
  match l with
  | [] => []
  | [s] => s
  | s :: l' => s ++ sep ++ join sep l'
  end.

Definition padStart (n : nat) (c : N) (s : str) : str := replicate (n - length s) c ++ s.
Definition padEnd (n : nat) (c : N) (s : str) : str := s ++ replicate (n - length s) c.

(** [.slice(-n)] and [.slice(0, -n)] for [n > 0]. *)
Definition sliceLast (n : nat) (s : str) : str := drop (length s - n) s.
Definition sliceInit (n : nat) (s : str) : str := take (length s - n) s.

(** The default order of [sort()]: by code unit. *)
Fixpoint cmpUnits (s t : str) : Z :=
  match s, t with
  | [], [] => 0
  | [], _ :: _ => -1
  | _ :: _, [] => 1
  | x :: s', y :: t' => if N.ltb x y then -1 else if N.ltb y x then 1 else cmpUnits s' t'
  end.

(** ** Numerals *)

Definition allDigits (s : str) : bool := forallb isDigit s.
(** [/^\d+$/] *)
Definition digits1 (s : str) : bool := truthy s && allDigits s.

Definition digitVal (c : N) : Z := Z.of_N c - 48.

(** [BigInt(s)] for a string of digits; [BigInt("")] is [0n]. *)
Definition bigOfDigits (s : str) : Z := foldl (λ acc c, acc * 10 + digitVal c) 0 s.

(** Decimal digits of a non-negative integer; the fuel covers the bit length. *)
Fixpoint printDigits (fuel : nat) (n : Z) (acc : str) : str :=
  match fuel with
  | O => acc
  | S f => let acc' := Z.to_N (n mod 10 + 48) :: acc in
           if n / 10 =? 0 then acc' else printDigits f (n / 10) acc'
  end.
Definition printNat (n : Z) : str := printDigits (S (Z.to_nat (Z.log2 n))) n [].
(** [n.toString()] for a bigint or a safe integer. *)
Definition printZ (n : Z) : str := if n <? 0 then cMinus :: printNat (- n) else printNat n.

(** A numeral without a superfluous leading zero. *)
Definition plainNumeral (ds : str) : bool :=
  match ds with [] => false | [_] => true | c :: _ => negb (N.eqb c cZero) end.

(** The position weight of a digit string. *)
Fixpoint pow10 (n : nat) : Z := match n with O => 1 | S n' => 10 * pow10 n' end.

(** [/0+$/] removed: the code always strips at the end of the text. *)
Fixpoint allZeros (s : str) : bool :=
  match s with [] => true | c :: r => N.eqb c cZero && allZeros r end.
Definition zeros1 (s : str) : bool := truthy s && allZeros s.
Fixpoint stripZeros (s : str) : str :=
  if zeros1 s then [] else match s with [] => [] | c :: r => c :: stripZeros r end.

(** [/\.?0+$/] removed: the leftmost match is a dot with zeros, or zeros, to the end. *)
Definition dotZeros (s : str) : bool :=
  zeros1 s || match s with c :: r => N.eqb c cDot && zeros1 r | [] => false end.
Fixpoint stripDotZeros (s : str) : str :=
  if dotZeros s then [] else match s with [] => [] | c :: r => c :: stripDotZeros r end.

(** The regular expression [\B(?=(\d{3})+(?!\d))] replaced by a comma: before a
    position that is not a word boundary and is followed by a positive multiple of
    three digits, counted to the end of the run of digits. *)
Fixpoint digitRun (s : str) : nat :=
  match s with c :: r => if isDigit c then S (digitRun r) else O | [] => O end.
Definition groupHere (prev : option N) (s : str) : bool :=
  match prev, s with
  | Some p, c :: _ =>
      Bool.eqb (isWord p) (isWord c) && (0 <? digitRun s)%nat && Nat.eqb (digitRun s mod 3) 0
  | _, _ => false
  end.
Fixpoint groupFrom (prev : option N) (s : str) : str :=
  match s with
  | [] => []
  | c :: r => (if groupHere prev s then [cComma; c] else [c]) ++ groupFrom (Some c) r
  end.
Definition groupThousands (s : str) : str := groupFrom None s.

Example js_utf8 : js "m³ · —" = [109; 179; 32; 183; 32; 8212]%N.
Proof. reflexivity. Qed.
Example printZ_ex : printZ (-1204) = js "-1204".
Proof. reflexivity. Qed.
Example group_ex : groupThousands (js "1234567") = js "1,234,567".
Proof. reflexivity. Qed.

(** ** Lemmas: numerals *)

Lemma pow10_spec n : pow10 n = 10 ^ Z.of_nat n.
Proof.
  induction n as [|n IH]; [done|]. rewrite Nat2Z.inj_succ, Z.pow_succ_r by lia.
  simpl. lia.
Qed.
Lemma pow10_pos n : 0 < pow10 n.
Proof. induction n; simpl; lia. Qed.
Lemma pow10_add m n : pow10 (m + n) = pow10 m * pow10 n.
Proof. induction m; simpl; lia. Qed.
Lemma pow10_le m n : (m ≤ n)%nat → pow10 m <= pow10 n.
Proof.
  intros H. replace n with (m + (n - m))%nat by lia. rewrite pow10_add.
  pose proof (pow10_pos m). pose proof (pow10_pos (n - m)). nia.
Qed.

Lemma digits1_split w : digits1 w = true ↔ w ≠ [] ∧ allDigits w = true.
Proof. unfold digits1, truthy. rewrite andb_true_iff. destruct w; simpl; naive_solver. Qed.

Lemma isDigit_val c : isDigit c = true → 0 <= digitVal c <= 9.
Proof. unfold isDigit, digitVal. intros H. bool_hyps. lia. Qed.

Lemma allDigits_app s t : allDigits (s ++ t) = allDigits s && allDigits t.
Proof. apply forallb_app. Qed.
Lemma allDigits_cons c s : allDigits (c :: s) = isDigit c && allDigits s.
Proof. done. Qed.

Lemma bigOfDigits_foldl s acc :
  foldl (λ acc c, acc * 10 + digitVal c) acc s = acc * pow10 (length s) + bigOfDigits s.
Proof.
  unfold bigOfDigits. revert acc.
  induction s as [|c s IH]; intros acc; simpl; [ring|].
  rewrite IH, (IH (0 * 10 + _)). ring.
Qed.

Lemma bigOfDigits_cons c s : bigOfDigits (c :: s) = digitVal c * pow10 (length s) + bigOfDigits s.
Proof. unfold bigOfDigits at 1. simpl. rewrite bigOfDigits_foldl. ring. Qed.

Lemma bigOfDigits_app s t :
  bigOfDigits (s ++ t) = bigOfDigits s * pow10 (length t) + bigOfDigits t.
Proof. unfold bigOfDigits at 1. rewrite foldl_app. by rewrite bigOfDigits_foldl. Qed.

Lemma bigOfDigits_bound s : allDigits s = true → 0 <= bigOfDigits s < pow10 (length s).
Proof.
  induction s as [|c s IH]; simpl; [unfold bigOfDigits; simpl; lia|].
  intros [Hc Hs]%andb_true_iff. rewrite bigOfDigits_cons.
  apply isDigit_val in Hc. specialize (IH Hs). nia.
Qed.

Lemma bigOfDigits_zeros n : bigOfDigits (replicate n cZero) = 0.
Proof.
  induction n as [|n IH]; [done|]. simpl. rewrite bigOfDigits_cons, IH.
  unfold digitVal, cZero. lia.
Qed.
Lemma allDigits_zeros n : allDigits (replicate n cZero) = true.
Proof. induction n; done. Qed.

Lemma bigOfDigits_padStart n s : bigOfDigits (padStart n cZero s) = bigOfDigits s.
Proof. unfold padStart. rewrite bigOfDigits_app, bigOfDigits_zeros. lia. Qed.
Lemma bigOfDigits_padEnd n s :
  bigOfDigits (padEnd n cZero s) = bigOfDigits s * pow10 (n - length s).
Proof. unfold padEnd. rewrite bigOfDigits_app, bigOfDigits_zeros, length_replicate. lia. Qed.
Lemma length_padStart n c s : length (padStart n c s) = Nat.max n (length s).
Proof. unfold padStart. rewrite length_app, length_replicate. lia. Qed.
Lemma allDigits_padStart n s : allDigits (padStart n cZero s) = allDigits s.
Proof. unfold padStart. by rewrite allDigits_app, allDigits_zeros. Qed.

Lemma digitOf_spec d : 0 <= d <= 9 →
  isDigit (Z.to_N (d + 48)) = true ∧ digitVal (Z.to_N (d + 48)) = d.
Proof. unfold isDigit, digitVal. intros H. split; [|lia]. apply andb_true_iff. rewrite !N.leb_le. lia. Qed.

Lemma printDigits_val fuel n acc : 0 <= n < 2 ^ Z.of_nat fuel →
  bigOfDigits (printDigits fuel n acc) = n * pow10 (length acc) + bigOfDigits acc.
Proof.
  revert n acc. induction fuel as [|f IH]; intros n acc Hn.
  { simpl in *. replace n with 0 by lia. lia. }
  rewrite Nat2Z.inj_succ, Z.pow_succ_r in Hn by lia. simpl.
  pose proof (Z.mod_pos_bound n 10 ltac:(lia)) as Hm.
  destruct (digitOf_spec (n mod 10) ltac:(lia)) as [_ Hd].
  pose proof (Z.div_mod n 10 ltac:(lia)) as Hdm.
  destruct (Z.eqb_spec (n / 10) 0) as [Hz|Hz].
  - rewrite bigOfDigits_cons, Hd. nia.
  - rewrite IH by lia. rewrite bigOfDigits_cons, Hd. simpl length.
    cbn [pow10]. nia.
Qed.

Lemma printDigits_digits fuel n acc : 0 <= n → allDigits acc = true →
  allDigits (printDigits fuel n acc) = true.
Proof.
  revert n acc. induction fuel as [|f IH]; intros n acc Hn Ha; simpl; [done|].
  destruct (digitOf_spec (n mod 10)) as [Hd _];
    [pose proof (Z.mod_pos_bound n 10 ltac:(lia)); lia|].
  destruct (n / 10 =? 0); [|apply IH; [lia|]]; by rewrite allDigits_cons, Hd.
Qed.

(** The printed text has no leading zero, so its length is the decimal length. *)
Lemma printDigits_length fuel n acc k : 0 <= n < 2 ^ Z.of_nat fuel → (0 < k)%nat →
  n < pow10 k → (length (printDigits fuel n acc) ≤ k + length acc)%nat.
Proof.
  revert n acc k. induction fuel as [|f IH]; intros n acc k Hn Hk Hb; simpl; [lia|].
  rewrite Nat2Z.inj_succ, Z.pow_succ_r in Hn by lia.
  destruct (Z.eqb_spec (n / 10) 0) as [Hz|Hz]; simpl; [lia|].
  destruct k as [|[|k]]; [lia|simpl in Hb; lia|].
  etransitivity; [apply (IH _ _ (S k)); [lia|lia|]|simpl; lia].
  cbn [pow10] in *. lia.
Qed.

Lemma printDigits_nonempty fuel n acc : fuel ≠ O → printDigits fuel n acc ≠ [].
Proof.
  revert n acc. induction fuel as [|f IH]; intros n acc Hf; simpl; [done|].
  destruct (n / 10 =? 0); [done|]. destruct f; [done|]. by apply IH.
Qed.

Lemma printNat_fuel n : 0 <= n → n < 2 ^ Z.of_nat (S (Z.to_nat (Z.log2 n))).
Proof.
  intros Hn. rewrite Nat2Z.inj_succ, Z2Nat.id by apply Z.log2_nonneg.
  destruct (Z.eq_dec n 0) as [->|Hz]; [done|]. apply Z.log2_spec. lia.
Qed.

Lemma printNat_val n : 0 <= n → bigOfDigits (printNat n) = n.
Proof.
  intros Hn. unfold printNat. rewrite printDigits_val by (auto using printNat_fuel).
  unfold bigOfDigits. simpl. lia.
Qed.
Lemma printNat_digits n : 0 <= n → allDigits (printNat n) = true.
Proof. intros Hn. by apply printDigits_digits. Qed.
Lemma printNat_digits1 n : 0 <= n → digits1 (printNat n) = true.
Proof.
  intros Hn. unfold digits1. rewrite printNat_digits by done. rewrite andb_true_r.
  unfold truthy. pose proof (printDigits_nonempty (S (Z.to_nat (Z.log2 n))) n [] ltac:(done)).
  unfold printNat. by destruct (printDigits _ _ _).
Qed.
Lemma printNat_length n k : 0 <= n < pow10 k → (0 < k)%nat → (length (printNat n) ≤ k)%nat.
Proof.
  intros Hn Hk. unfold printNat.
  pose proof (printDigits_length (S (Z.to_nat (Z.log2 n))) n [] k) as Hl. simpl length in Hl.
  rewrite Nat.add_0_r in Hl. apply Hl; [|done|lia]. split; [lia|]. apply printNat_fuel. lia.
Qed.
Lemma printNat_inj m n : 0 <= m → 0 <= n → printNat m = printNat n → m = n.
Proof. intros Hm Hn H. rewrite <- (printNat_val m), <- (printNat_val n) by done. by rewrite H. Qed.

Lemma printDigits_plain fuel n acc : (n / 10 =? 0) = false → 0 <= n →
  n < 2 ^ Z.of_nat fuel → ∃ c r, printDigits fuel n acc = c :: r ∧ c ≠ cZero ∧ r ≠ [].
Proof.
  revert n acc. induction fuel as [|f IH]; intros n acc Hz Hn Hf.
  { simpl in Hf. bool_hyps. lia. }
  rewrite Nat2Z.inj_succ, Z.pow_succ_r in Hf by lia. simpl. rewrite Hz.
  destruct (n / 10 / 10 =? 0) eqn:Hz'.
  - bool_hyps. destruct f as [|f]; [simpl in Hf; lia|]. simpl.
    replace (n / 10 / 10 =? 0) with true by (symmetry; apply Z.eqb_eq; lia).
    eexists _, _. split; [done|]. split; [unfold cZero; lia|done].
  - apply IH; [done|lia|lia].
Qed.

Lemma printNat_plain n : 0 <= n → plainNumeral (printNat n) = true.
Proof.
  intros Hn. destruct (n / 10 =? 0) eqn:Hz.
  - unfold printNat. simpl. rewrite Hz. done.
  - destruct (printDigits_plain (S (Z.to_nat (Z.log2 n))) n [] Hz Hn (printNat_fuel n Hn))
      as (c & r & He & Hc & Hr). unfold printNat. rewrite He. simpl. destruct r; [done|].
    by rewrite (proj2 (N.eqb_neq _ _) Hc).
Qed.

(** Numerals without leading zeros are canonical. *)
Lemma plainNumeral_bound s : allDigits s = true → plainNumeral s = true → (1 < length s)%nat →
  pow10 (length s - 1) <= bigOfDigits s.
Proof.
  destruct s as [|c [|d s]]; [done|simpl; lia|]. intros Hd Hp _.
  rewrite allDigits_cons in Hd. apply andb_true_iff in Hd as [Hc Hd]. simpl in Hp.
  apply negb_true_iff, N.eqb_neq in Hp.
  rewrite bigOfDigits_cons. pose proof (bigOfDigits_bound _ Hd).
  assert (1 <= digitVal c) by (unfold isDigit, cZero, digitVal in *; bool_hyps; lia).
  replace (length (c :: d :: s) - 1)%nat with (length (d :: s)) by (simpl; lia).
  pose proof (pow10_pos (length (d :: s))). nia.
Qed.

Lemma bigOfDigits_inj s t : allDigits s = true → allDigits t = true → length s = length t →
  bigOfDigits s = bigOfDigits t → s = t.
Proof.
  revert t. induction s as [|c s IH]; intros [|d t]; simpl; try done.
  intros [Hc Hs]%andb_true_iff [Hd Ht]%andb_true_iff [= Hl]. rewrite !bigOfDigits_cons, Hl.
  pose proof (bigOfDigits_bound s Hs) as Bs. pose proof (bigOfDigits_bound t Ht) as Bt.
  rewrite Hl in Bs. apply isDigit_val in Hc as Vc. apply isDigit_val in Hd as Vd. intros He.
  assert (digitVal c = digitVal d) as Hcd by nia. f_equal.
  - unfold digitVal in Hcd. lia.
  - apply IH; try done. rewrite Hcd in He. lia.
Qed.

Lemma plainNumeral_unique s t : allDigits s = true → allDigits t = true →
  plainNumeral s = true → plainNumeral t = true → bigOfDigits s = bigOfDigits t → s = t.
Proof.
  assert (Hlen : ∀ s t, allDigits s = true → allDigits t = true → plainNumeral t = true →
    plainNumeral s = true → bigOfDigits s = bigOfDigits t → ¬ (length s < length t)%nat).
  { intros s' t' Hs Ht Hp Hps He Hlt. pose proof (bigOfDigits_bound s' Hs).
    destruct s' as [|c s']; [done|]. simpl length in *.
    pose proof (plainNumeral_bound t' Ht Hp ltac:(lia)).
    pose proof (pow10_le (S (length s')) (length t' - 1) ltac:(lia)). lia. }
  intros Hs Ht Hps Hpt He. apply bigOfDigits_inj; try done.
  pose proof (Hlen s t Hs Ht Hpt Hps He). pose proof (Hlen t s Ht Hs Hps Hpt (eq_sym He)). lia.
Qed.

Lemma printNat_10 n : 0 < n → printNat (10 * n) = printNat n ++ [cZero].
Proof.
  intros Hn. pose proof (printNat_digits1 n ltac:(lia)) as Hd. apply digits1_split in Hd as [Hne Hd].
  apply plainNumeral_unique.
  - apply printNat_digits. lia.
  - by rewrite allDigits_app, Hd.
  - apply printNat_plain. lia.
  - pose proof (printNat_plain n ltac:(lia)) as Hp. pose proof (printNat_val n ltac:(lia)) as Hv.
    destruct (printNat n) as [|c [|d s]]; [done| |done]. simpl.
    unfold bigOfDigits in Hv. simpl in Hv. apply negb_true_iff, N.eqb_neq. intros ->.
    unfold digitVal, cZero in Hv. lia.
  - rewrite bigOfDigits_app, !printNat_val by lia. unfold bigOfDigits. simpl.
    unfold digitVal, cZero. lia.
Qed.

(** ** Lemmas: text *)

Definition noWs (s : str) : Prop := ∀ c, c ∈ s → isWs c = false.

Lemma trimStart_noWs s : noWs s → trimStart s = s.
Proof. destruct s as [|c s]; [done|]. intros H. simpl. rewrite H; [done|set_solver]. Qed.
Lemma trim_noWs s : noWs s → trim s = s.
Proof.
  intros H. unfold trim, trimEnd. rewrite (trimStart_noWs s) by done.
  rewrite trimStart_noWs; [apply List.rev_involutive|].
  intros c Hc. apply H. by rewrite list_elem_of_In, List.in_rev, <- list_elem_of_In.
Qed.

Lemma trimStart_idem s : trimStart (trimStart s) = trimStart s.
Proof.
  induction s as [|c s IH]; simpl; [done|]. destruct (isWs c) eqn:E; [done|]. simpl. by rewrite E.
Qed.

Lemma trimStart_suffix s : ∃ w, s = w ++ trimStart s.
Proof.
  induction s as [|c s [w Hw]]; simpl; [by exists []|]. destruct (isWs c); [|by exists []].
  exists (c :: w). simpl. by f_equal.
Qed.

Lemma trimStart_prefix s w : trimStart (s ++ w) = s ++ w → trimStart s = s.
Proof.
  destruct s as [|c s]; simpl; [done|]. destruct (isWs c); [|done]. intros Hs.
  destruct (trimStart_suffix (s ++ w)) as [v Hv]. rewrite Hs in Hv.
  apply (f_equal length) in Hv. revert Hv. rewrite !length_app. simpl. rewrite length_app. lia.
Qed.

Lemma trim_trim s : trim (trim s) = trim s.
Proof.
  unfold trim, trimEnd. set (t := trimStart s). destruct (trimStart_suffix (rev t)) as [w Hw].
  assert (Ht : t = rev (trimStart (rev t)) ++ rev w)
    by (by rewrite <- rev_app_distr, <- Hw, rev_involutive).
  rewrite (trimStart_prefix (rev (trimStart (rev t))) (rev w)).
  - by rewrite rev_involutive, trimStart_idem.
  - rewrite <- Ht. apply trimStart_idem.
Qed.

Lemma isDigit_notWs c : isDigit c = true → isWs c = false.
Proof.
  unfold isDigit, isWs. intros H. bool_hyps.
  rewrite !orb_false_iff, !andb_false_iff, !N.eqb_neq, !N.leb_gt. lia.
Qed.
Lemma allDigits_elem s c : allDigits s = true → c ∈ s → isDigit c = true.
Proof. unfold allDigits. rewrite forallb_true. auto. Qed.
Lemma noWs_digits s : allDigits s = true → noWs s.
Proof. intros H c Hc. by apply isDigit_notWs, (allDigits_elem s). Qed.
Lemma noWs_app s t : noWs s → noWs t → noWs (s ++ t).
Proof. intros Hs Ht c [?|?]%elem_of_app; auto. Qed.
Lemma noWs_cons c s : isWs c = false → noWs s → noWs (c :: s).
Proof. intros Hc Hs x [->|?]%elem_of_cons; auto. Qed.
Lemma noWs_nil : noWs [].
Proof. intros c Hc. by apply elem_of_nil in Hc. Qed.

Lemma allDigits_not_in s c : allDigits s = true → isDigit c = false → c ∉ s.
Proof. intros H Hc Hin. rewrite (allDigits_elem s c H Hin) in Hc. done. Qed.

Lemma split_none c s : c ∉ s → split c s = [s].
Proof.
  induction s as [|x s IH]; simpl; [done|]. intros H.
  destruct (N.eqb_spec x c); [set_solver|]. rewrite IH by set_solver. done.
Qed.
Lemma split_app c s t : c ∉ s → split c (s ++ c :: t) = s :: split c t.
Proof.
  induction s as [|x s IH]; simpl; [by rewrite N.eqb_refl|]. intros H.
  destruct (N.eqb_spec x c); [set_solver|]. rewrite IH by set_solver. done.
Qed.
Lemma split_nonempty c s : split c s ≠ [].
Proof. destruct s as [|x s]; simpl; [done|]. destruct (N.eqb x c), (split c s); done. Qed.
Lemma join_split c s : join [c] (split c s) = s.
Proof.
  induction s as [|x s IH]; simpl; [done|]. pose proof (split_nonempty c s) as Hne.
  destruct (split c s) as [|w ws]; [done|].
  destruct (N.eqb_spec x c) as [->|]; [by rewrite <- IH|].
  rewrite <- IH. by destruct ws.
Qed.
Lemma split_notin c s w : w ∈ split c s → c ∉ w.
Proof.
  revert w. induction s as [|x s IH]; intros w; simpl.
  - intros ->%list_elem_of_singleton. apply not_elem_of_nil.
  - destruct (N.eqb_spec x c) as [He|Hne].
    + intros [->|?]%elem_of_cons; [apply not_elem_of_nil|auto].
    + destruct (split c s) as [|w' ws] eqn:Es; intros [->|Hw]%elem_of_cons.
      * by intros [?|?%elem_of_nil]%elem_of_cons.
      * by apply elem_of_nil in Hw.
      * intros [?|Hc]%elem_of_cons; [done|]. apply (IH w'); [set_solver|done].
      * apply IH. set_solver.
Qed.


Lemma allZeros_replicate s : allZeros s = true ↔ s = replicate (length s) cZero.
Proof.
  induction s as [|c s IH]; simpl; [done|]. rewrite andb_true_iff, IH, N.eqb_eq.
  split; [intros [-> <-]; done|intros [= -> ->]; by rewrite length_replicate].
Qed.
Lemma allZeros_elem s c : c ∈ s → c ≠ cZero → allZeros s = false.
Proof.
  intros Hc Hne. apply not_true_iff_false. intros He%allZeros_replicate.
  rewrite He in Hc. by apply elem_of_replicate in Hc as [? ?].
Qed.

(** Every text is a stem without a final zero followed by zeros. *)
Lemma strip_decompose s : ∃ t k, s = t ++ replicate k cZero ∧
  (t = [] ∨ ∃ t' c, t = t' ++ [c] ∧ c ≠ cZero).
Proof.
  induction s as [|c s IH] using rev_ind; [exists [], O; eauto|].
  destruct (decide (c = cZero)) as [->|Hc].
  - destruct IH as (t & k & -> & Ht). exists t, (S k). split; [|done].
    rewrite replicate_S_end. by rewrite app_assoc.
  - exists (s ++ [c]), O. simpl. rewrite app_nil_r. eauto 6.
Qed.

Lemma dotZeros_elem s c : s ≠ [] → c ∈ tail s → c ≠ cZero → dotZeros s = false.
Proof.
  destruct s as [|x s]; [done|]. simpl. intros _ Hc Hne.
  unfold dotZeros, zeros1. rewrite (allZeros_elem (x :: s) c), (allZeros_elem s c) by set_solver.
  by rewrite !andb_false_r.
Qed.

Lemma stripDotZeros_app a t c : c ∈ t → c ≠ cZero →
  stripDotZeros (a ++ t) = a ++ stripDotZeros t.
Proof.
  intros Hc Hne. induction a as [|x a IH]; simpl; [done|].
  change (x :: a ++ t) with (x :: (a ++ t)).
  rewrite (dotZeros_elem (x :: (a ++ t)) c) by (simpl; set_solver). by rewrite IH.
Qed.
Lemma stripDotZeros_zeros k : stripDotZeros (replicate k cZero) = [].
Proof.
  destruct k as [|k]; [done|]. simpl. unfold dotZeros, zeros1. simpl.
  by rewrite (proj2 (allZeros_replicate (replicate k cZero))) by (by rewrite length_replicate).
Qed.
Lemma stripDotZeros_frac w t c k : c ≠ cZero → c ≠ cDot →
  stripDotZeros (w ++ t ++ c :: replicate k cZero) = w ++ t ++ [c].
Proof.
  intros Hz Hd. rewrite !(stripDotZeros_app _ _ c) by (done || set_solver).
  f_equal. f_equal. simpl. unfold dotZeros, zeros1. simpl.
  rewrite (proj2 (N.eqb_neq _ _) Hz), (proj2 (N.eqb_neq _ _) Hd). simpl.
  by rewrite stripDotZeros_zeros.
Qed.
Lemma stripDotZeros_whole w k :
  stripDotZeros (w ++ cDot :: replicate (S k) cZero) = w.
Proof.
  rewrite (stripDotZeros_app w _ cDot) by (done || set_solver).
  simpl. unfold dotZeros, zeros1. simpl.
  rewrite (proj2 (allZeros_replicate (replicate k cZero))) by (by rewrite length_replicate).
  simpl. by rewrite app_nil_r.
Qed.
Lemma stripDotZeros_id w c : c ≠ cZero → c ≠ cDot → stripDotZeros (w ++ [c]) = w ++ [c].
Proof. intros Hz Hd. apply (stripDotZeros_frac w [] c 0); done. Qed.

Lemma stripZeros_app a t c : c ∈ t → c ≠ cZero → stripZeros (a ++ t) = a ++ stripZeros t.
Proof.
  intros Hc Hne. induction a as [|x a IH]; simpl; [done|].
  unfold zeros1. rewrite (allZeros_elem (x :: a ++ t) c) by set_solver.
  by rewrite andb_false_r, IH.
Qed.
Lemma stripZeros_zeros k : stripZeros (replicate k cZero) = [].
Proof.
  destruct k as [|k]; [done|]. simpl. unfold zeros1. simpl.
  by rewrite (proj2 (allZeros_replicate (replicate k cZero))) by (by rewrite length_replicate).
Qed.
Lemma stripZeros_snoc t c k : c ≠ cZero → stripZeros (t ++ c :: replicate k cZero) = t ++ [c].
Proof.
  intros Hz. rewrite (stripZeros_app t _ c) by (done || set_solver). f_equal.
  simpl. unfold zeros1. simpl. rewrite (proj2 (N.eqb_neq _ _) Hz). simpl.
  by rewrite stripZeros_zeros.
Qed.

Lemma bigOfDigits_strip t k : bigOfDigits (t ++ replicate k cZero) = bigOfDigits t * pow10 k.
Proof. rewrite bigOfDigits_app, bigOfDigits_zeros, length_replicate. lia. Qed.

Lemma streq_true s t : streq s t = true ↔ s = t.
Proof. apply bool_decide_eq_true. Qed.
Lemma streq_refl s : streq s s = true.
Proof. by apply streq_true. Qed.
Lemma streq_false s t : streq s t = false ↔ s ≠ t.
Proof. apply bool_decide_eq_false. Qed.

#[export] Hint Resolve noWs_digits noWs_app noWs_cons noWs_nil streq_refl : vessel.
#[export] Hint Rewrite streq_true streq_refl : vessel_rw.

Lemma stripZeros_spec s : ∃ k, s = stripZeros s ++ replicate k cZero.
Proof.
  destruct (strip_decompose s) as (t & k & -> & [->|(t' & c & -> & Hc)]).
  - exists k. simpl. by rewrite stripZeros_zeros.
  - exists k. rewrite <- app_assoc. simpl. rewrite stripZeros_snoc by done. by rewrite <- app_assoc.
Qed.
Lemma stripZeros_digits s : allDigits s = true → allDigits (stripZeros s) = true.
Proof.
  intros H. destruct (stripZeros_spec s) as [k Hk]. rewrite Hk, allDigits_app in H.
  by apply andb_true_iff in H as [? _].
Qed.
Lemma stripZeros_snoc0 s : stripZeros (s ++ [cZero]) = stripZeros s.
Proof.
  destruct (strip_decompose s) as (t & k & -> & [->|(t' & c & -> & Hc)]).
  - simpl. rewrite <- replicate_S_end. by rewrite !stripZeros_zeros.
  - rewrite <- !app_assoc. simpl. rewrite <- replicate_S_end. by rewrite !stripZeros_snoc.
Qed.

(** Fraction text appended to whole digits; an empty fraction has no dot. *)
Definition withFraction (w f : str) : str := w ++ (if truthy f then cDot :: f else []).

Lemma withFraction_noWs w f : allDigits w = true → allDigits f = true → noWs (withFraction w f).
Proof.
  intros Hw Hf. unfold withFraction. destruct (truthy f); auto with vessel.
Qed.

(** [s.includes(needle)] *)
Fixpoint includes (needle s : str) : bool :=
  startsWith needle s || match s with [] => false | _ :: r => includes needle r end.
