(* ===== verification/JsRegExp.v ===== *)
(** * Regular expressions

    The part of ECMAScript's pattern language the redaction of error reports uses: classes of
    code units, greedy repetition of a class, alternation, [\b] and [$].  [rmatch] is the
    language's backtracking matcher in continuation-passing style; [mt] says what a pattern
    matches, and the two agree.  The second half is about [replace] with a global pattern: when
    nothing a word-delimited pattern matches is left, or comes into being, in its result. *)
From S2P Require Import Prelude JsString.

Inductive re :=
| rEps
| rChar (p : N → bool)
| rStar (p : N → bool)
| rWord
| rEnd
| rSeq (a b : re)
| rAlt (a b : re).

(** [prev] is the code unit before the position, [None] at the start of the input. *)
Definition wordAt (c : option N) : bool := match c with Some c => isWord c | None => false end.
Definition boundary (prev : option N) (s : str) : bool := xorb (wordAt prev) (wordAt (head s)).

Fixpoint rstar {A} (p : N → bool) (prev : option N) (s : str) (k : option N → str → option A) : option A :=
  match s with
  | c :: s' =>
      if p c then match rstar p (Some c) s' k with Some x => Some x | None => k prev s end else k prev s
  | [] => k prev s
  end.
Fixpoint rmatch {A} (r : re) (prev : option N) (s : str) (k : option N → str → option A) : option A :=
  match r with
  | rEps => k prev s
  | rChar p => match s with c :: s' => if p c then k (Some c) s' else None | [] => None end
  | rStar p => rstar p prev s k
  | rWord => if boundary prev s then k prev s else None
  | rEnd => match s with [] => k prev s | _ => None end
  | rSeq a b => rmatch a prev s (λ prev s, rmatch b prev s k)
  | rAlt a b => match rmatch a prev s k with Some x => Some x | None => rmatch b prev s k end
  end.
(** The match at a position: what precedes its end, and the rest of the input. *)
Definition exec (r : re) (prev : option N) (s : str) : option (option N * str) :=
  rmatch r prev s (λ prev rest, Some (prev, rest)).

(** [r.test(s)] *)
Fixpoint testFrom (r : re) (prev : option N) (s : str) : bool :=
  match exec r prev s, s with
  | Some _, _ => true
  | None, c :: s' => testFrom r (Some c) s'
  | None, [] => false
  end.
Definition test (r : re) (s : str) : bool := testFrom r None s.

(** [s.replace(r, text)] with the [g] flag; the patterns never match the empty string. *)
Fixpoint replaceGo (fuel : nat) (r : re) (text : str) (prev : option N) (s : str) : str :=
  match fuel, s with
  | S fuel, c :: s' =>
      match exec r prev s with
      | Some (prev', rest) => text ++ replaceGo fuel r text prev' rest
      | None => c :: replaceGo fuel r text (Some c) s'
      end
  | _, _ => s
  end.
Definition replaceAll (r : re) (text s : str) : str := replaceGo (length s) r text None s.
(** Without it. *)
Fixpoint replaceFirst (r : re) (text : str) (prev : option N) (s : str) : str :=
  match exec r prev s, s with
  | Some (_, rest), _ => text ++ rest
  | None, c :: s' => c :: replaceFirst r text (Some c) s'
  | None, [] => []
  end.

(** ** Ways to write patterns *)

Definition rPlus (p : N → bool) : re := rSeq (rChar p) (rStar p).
Fixpoint rText (p : N → N → bool) (s : str) : re :=
  match s with [] => rEps | c :: s' => rSeq (rChar (p c)) (rText p s') end.
(** The [i] flag, on letters of the Latin alphabet: a code unit outside ASCII never equals one
    inside it. *)
Definition lowerUnit (c : N) : N := if ((65 <=? c) && (c <=? 90))%N then (c + 32)%N else c.
Definition foldEq (c d : N) : bool := N.eqb (lowerUnit c) (lowerUnit d).
(** [\b] on both sides. *)
Definition delimited (body : re) : re := rSeq rWord (rSeq body rWord).

(** ** What a pattern matches *)

Definition after (prev : option N) (m : str) : option N := foldl (λ _ c, Some c) prev m.

(** [mt r prev m rest]: between [prev] and [rest] the pattern can match [m]. *)
Inductive mt : re → option N → str → str → Prop :=
| mt_eps prev rest : mt rEps prev [] rest
| mt_char p prev c rest : p c = true → mt (rChar p) prev [c] rest
| mt_star p prev m rest : (∀ c, c ∈ m → p c = true) → mt (rStar p) prev m rest
| mt_word prev rest : boundary prev rest = true → mt rWord prev [] rest
| mt_end prev : mt rEnd prev [] []
| mt_seq a b prev m1 m2 rest : mt a prev m1 (m2 ++ rest) → mt b (after prev m1) m2 rest →
    mt (rSeq a b) prev (m1 ++ m2) rest
| mt_left a b prev m rest : mt a prev m rest → mt (rAlt a b) prev m rest
| mt_right a b prev m rest : mt b prev m rest → mt (rAlt a b) prev m rest.

Lemma after_app prev m1 m2 : after prev (m1 ++ m2) = after (after prev m1) m2.
Proof. apply foldl_app. Qed.
Lemma after_nonempty prev prev' m : m ≠ [] → after prev m = after prev' m.
Proof. destruct m; done. Qed.

Lemma rstar_sound {A} p prev s (k : option N → str → option A) x : rstar p prev s k = Some x →
  ∃ m rest, s = m ++ rest ∧ (∀ c, c ∈ m → p c = true) ∧ k (after prev m) rest = Some x.
Proof.
  assert (Hnil : ∀ s prev, k prev s = Some x →
    ∃ m rest, s = m ++ rest ∧ (∀ c, c ∈ m → p c = true) ∧ k (after prev m) rest = Some x).
  { intros s' prev' Hk. exists [], s'. split; [done|]. split; [by intros ? ?%elem_of_nil|done]. }
  revert prev. induction s as [|c s IH]; intros prev; simpl; [by apply Hnil|].
  destruct (p c) eqn:Hc; [|by apply Hnil]. destruct (rstar p (Some c) s k) eqn:E; [|by apply Hnil].
  intros [= ->]. destruct (IH _ E) as (m & rest & -> & Hm & Hk). exists (c :: m), rest.
  split; [done|]. split; [|done]. by intros d [->|Hd]%elem_of_cons; [|apply Hm].
Qed.
Lemma rmatch_sound {A} r : ∀ prev s (k : option N → str → option A) x, rmatch r prev s k = Some x →
  ∃ m rest, s = m ++ rest ∧ mt r prev m rest ∧ k (after prev m) rest = Some x.
Proof.
  induction r as [|p|p| | |a IHa b IHb|a IHa b IHb]; intros prev s k x; simpl.
  - exists [], s. split_and!; [done|constructor|done].
  - destruct s as [|c s]; [done|]. destruct (p c) eqn:Hc; [|done]. exists [c], s. split_and!; [done|by constructor|done].
  - intros (m & rest & -> & Hm & Hk)%rstar_sound. exists m, rest. split_and!; [done|by constructor|done].
  - destruct (boundary prev s) eqn:Hb; [|done]. exists [], s. split_and!; [done|by constructor|done].
  - destruct s as [|c s]; [|done]. exists [], []. split_and!; [done|constructor|done].
  - intros (m1 & s1 & -> & H1 & (m2 & rest & -> & H2 & Hk)%IHb)%IHa. exists (m1 ++ m2), rest.
    split_and!; [by rewrite app_assoc|by constructor|by rewrite after_app].
  - destruct (rmatch a prev s k) as [y|] eqn:E.
    + intros [= ->]. apply IHa in E as (m & rest & -> & Hm & Hk). exists m, rest. split_and!; [done|by apply mt_left|done].
    + intros (m & rest & -> & Hm & Hk)%IHb. exists m, rest. split_and!; [done|by apply mt_right|done].
Qed.
Lemma rstar_complete {A} p prev m rest (k : option N → str → option A) : (∀ c, c ∈ m → p c = true) →
  is_Some (k (after prev m) rest) → is_Some (rstar p prev (m ++ rest) k).
Proof.
  revert prev. induction m as [|c m IH]; intros prev Hm Hk; simpl.
  - destruct rest as [|c rest]; simpl; [done|]. destruct (p c); [|done]. destruct (rstar _ _ _ _); [by eexists|done].
  - rewrite (Hm c) by apply list_elem_of_here.
    destruct (IH (Some c)) as [y ->]; [intros d Hd; by apply Hm, list_elem_of_further|done|by eexists].
Qed.
Lemma rmatch_complete {A} r prev m rest : mt r prev m rest → ∀ k : option N → str → option A,
  is_Some (k (after prev m) rest) → is_Some (rmatch r prev (m ++ rest) k).
Proof.
  induction 1 as [|p prev c rest Hc|p prev m rest Hm|prev rest Hb| |a b prev m1 m2 rest _ IH1 _ IH2|
    a b prev m rest _ IH|a b prev m rest _ IH]; intros k Hk; simpl; try done.
  - by rewrite Hc.
  - by apply rstar_complete.
  - by rewrite Hb.
  - rewrite <- app_assoc. apply IH1, IH2. by rewrite <- after_app.
  - destruct (IH k Hk) as [y ->]. by eexists.
  - destruct (rmatch a _ _ _); [by eexists|]. by apply IH.
Qed.

(** The matcher finds a match exactly when there is one. *)
Lemma exec_Some r prev s prev' rest : exec r prev s = Some (prev', rest) →
  ∃ m, s = m ++ rest ∧ mt r prev m rest ∧ prev' = after prev m.
Proof. intros (m & rest' & -> & Hm & [= <- <-])%rmatch_sound. by exists m. Qed.
Lemma exec_None r prev s : exec r prev s = None → ∀ m rest, s = m ++ rest → ¬ mt r prev m rest.
Proof.
  intros He m rest -> Hm. destruct (rmatch_complete r prev m rest Hm (λ prev rest, Some (prev, rest))) as [y Hy]; [by eexists|].
  unfold exec in He. congruence.
Qed.

(** ** Facts read off a pattern *)

(** No assertion, and no class that tells [same] code units apart: what it matches does not
    depend on the context. *)
Fixpoint pureFor (same : N → N → Prop) (r : re) : Prop :=
  match r with
  | rEps => True
  | rChar p | rStar p => ∀ c d, same c d → p c = p d
  | rWord | rEnd => False
  | rSeq a b | rAlt a b => pureFor same a ∧ pureFor same b
  end.
(** Every code unit of a match is in the class. *)
Fixpoint within (cls : N → bool) (r : re) : Prop :=
  match r with
  | rChar p | rStar p => ∀ c, p c = true → cls c = true
  | rSeq a b | rAlt a b => within cls a ∧ within cls b
  | _ => True
  end.
(** Some code unit of a match is in the class. *)
Fixpoint needs (cls : N → bool) (r : re) : Prop :=
  match r with
  | rChar p => ∀ c, p c = true → cls c = true
  | rSeq a b => needs cls a ∨ needs cls b
  | rAlt a b => needs cls a ∧ needs cls b
  | _ => False
  end.

Fixpoint assertionFree (r : re) : bool :=
  match r with rWord | rEnd => false | rSeq a b | rAlt a b => assertionFree a && assertionFree b | _ => true end.
Lemma pure_eq r : assertionFree r = true → pureFor eq r.
Proof. induction r; cbn; try done; try (by intros _ ? ? ->); intros []%andb_true_iff; auto. Qed.

Lemma mt_pure same r prev m rest : mt r prev m rest → pureFor same r →
  ∀ prev' m' rest', Forall2 same m' m → mt r prev' m' rest'.
Proof.
  induction 1 as [|p prev c rest Hc|p prev m rest Hm|prev rest Hb| |a b prev m1 m2 rest _ IH1 _ IH2|
    a b prev m rest _ IH|a b prev m rest _ IH]; simpl; intros Hp prev' m' rest' Hf; try done.
  - apply Forall2_nil_inv_r in Hf as ->. constructor.
  - apply Forall2_cons_inv_r in Hf as (d & l & Hd & ->%Forall2_nil_inv_r & ->). constructor. by rewrite (Hp d c Hd).
  - constructor. intros d Hd. apply list_elem_of_lookup in Hd as [i Hi].
    destruct (Forall2_lookup_l _ _ _ _ _ Hf Hi) as (c & Hc & Hs). rewrite (Hp d c Hs). by apply Hm, list_elem_of_lookup_2 with i.
  - apply Forall2_app_inv_r in Hf as (l1 & l2 & H1 & H2 & ->). destruct Hp. constructor; auto.
  - destruct Hp. apply mt_left; auto.
  - destruct Hp. apply mt_right; auto.
Qed.
Lemma mt_within cls r prev m rest : mt r prev m rest → within cls r → ∀ c, c ∈ m → cls c = true.
Proof.
  induction 1 as [|p prev c rest Hc|p prev m rest Hm|prev rest Hb| |a b prev m1 m2 rest _ IH1 _ IH2|
    a b prev m rest _ IH|a b prev m rest _ IH]; simpl; intros Hw d Hd.
  - by apply elem_of_nil in Hd.
  - apply list_elem_of_singleton in Hd as ->. auto.
  - auto.
  - by apply elem_of_nil in Hd.
  - by apply elem_of_nil in Hd.
  - destruct Hw. apply elem_of_app in Hd as [?|?]; auto.
  - destruct Hw. auto.
  - destruct Hw. auto.
Qed.
Lemma mt_needs cls r prev m rest : mt r prev m rest → needs cls r → ∃ c, c ∈ m ∧ cls c = true.
Proof.
  induction 1 as [|p prev c rest Hc|p prev m rest Hm|prev rest Hb| |a b prev m1 m2 rest _ IH1 _ IH2|
    a b prev m rest _ IH|a b prev m rest _ IH]; simpl; intros Hw; try done.
  - exists c. split; [apply list_elem_of_here|auto].
  - destruct Hw as [(c & Hc & ?)%IH1|(c & Hc & ?)%IH2]; exists c; split; try done; apply elem_of_app; auto.
  - destruct Hw. auto.
  - destruct Hw. auto.
Qed.
Lemma mt_delimited body prev m rest : mt (delimited body) prev m rest →
  boundary prev (m ++ rest) = true ∧ mt body prev m rest ∧ boundary (after prev m) rest = true.
Proof.
  intros H. inversion H as [| | | | |a b prev0 m1 m2 rest0 H1 H2| |]; subst.
  inversion H1; subst. inversion H2 as [| | | | |a b prev0 m3 m4 rest0 H3 H4| |]; subst.
  inversion H4; subst. simpl in *. by rewrite app_nil_r in *.
Qed.
Lemma delimited_mt body prev m rest : boundary prev (m ++ rest) = true → mt body prev m rest →
  boundary (after prev m) rest = true → mt (delimited body) prev m rest.
Proof.
  intros H1 H2 H3. apply (mt_seq rWord _ prev [] m rest); [by constructor|]. rewrite <- (app_nil_r m).
  constructor; [done|by constructor].
Qed.

(** ** What a replacement leaves *)

(** No match starts here; no match starts anywhere. *)
Definition noMatch (r : re) (prev : option N) (s : str) : Prop := ∀ m b, s = m ++ b → ¬ mt r prev m b.
Definition free (r : re) (prev : option N) (s : str) : Prop := ∀ a s', s = a ++ s' → noMatch r (after prev a) s'.

Lemma free_app r prev a s : free r prev (a ++ s) → free r (after prev a) s.
Proof. intros Hf a' s' ->. rewrite <- after_app. by apply Hf; rewrite app_assoc. Qed.
Lemma free_here r prev s : free r prev s → noMatch r prev s.
Proof. intros Hf. by apply (Hf []). Qed.

Section Replacement.
Context (same : N → N → Prop) (Hsame : ∀ c d, same c d → isWord c = isWord d).
(** The pattern, its class, a code unit it cannot do without, and the replacing text. *)
Context (body : re) (cls must : N → bool) (text : str).
Context (Hpure : pureFor same body) (Hwithin : within cls body) (Hneeds : needs must body).
Context (kFirst kLast : N) (Hfirst : head text = Some kFirst) (Hlast : last text = Some kLast).
Context (HclsFirst : cls kFirst = false) (HclsLast : cls kLast = false) (HwordFirst : isWord kFirst = false)
  (HwordLast : isWord kLast = false) (Hmust : ∀ c, c ∈ text → must c = false).

Definition edge (prev : option N) (s : str) : Prop := boundary prev s = true ∨ wordAt (head s) = false.

(** The result beside the source: code units are kept, up to [same], where the pattern does not
    match, and stretches between two edges are replaced by [text]. *)
Inductive splits : option N → str → str → Prop :=
| sp_nil prev : splits prev [] []
| sp_skip prev c d s out : noMatch (delimited body) prev (c :: s) → same c d → splits (Some c) s out →
    splits prev (c :: s) (d :: out)
| sp_hit prev m rest out : edge prev (m ++ rest) → edge (after prev m) rest → splits (after prev m) rest out →
    splits prev (m ++ rest) (text ++ out).

Lemma after_text prev : after prev text = Some kLast.
Proof.
  apply last_Some in Hlast as [l ->]. by rewrite after_app.
Qed.
Lemma Forall2_after prev prev' m m' : m ≠ [] → Forall2 same m' m → wordAt (after prev m') = wordAt (after prev' m).
Proof.
  intros Hm Hf. revert prev prev' Hm. induction Hf as [|c d m' m Hs Hf IH]; intros prev prev' Hm; [done|].
  destruct m as [|x m]; [apply Forall2_nil_inv_r in Hf as ->; by apply Hsame|]. by apply (IH (Some c) (Some d)).
Qed.

Lemma splits_back prev s out : splits prev s out → ∀ m b, out = m ++ b → (∀ c, c ∈ m → cls c = true) →
  ∃ m' b', s = m' ++ b' ∧ Forall2 same m' m ∧
    (wordAt (head b) = wordAt (head b') ∨ boundary (after prev m') b' = true).
Proof.
  induction 1 as [prev|prev c d s out _ Hcd _ IH|prev m0 rest out He _ _ _]; intros m b Hout Hm.
  - symmetry in Hout. apply app_nil in Hout as [-> ->]. exists [], []. split_and!; [done|constructor|by left].
  - destruct m as [|x m].
    + simpl in Hout. subst b. exists [], (c :: s). split_and!; [done|constructor|]. left. simpl. symmetry. by apply Hsame.
    + injection Hout as <- ->. destruct (IH m b eq_refl) as (m' & b' & -> & Hf & Hb);
        [intros e He; by apply Hm, list_elem_of_further|].
      exists (c :: m'), b'. split_and!; [done|by constructor|done].
  - destruct m as [|x m].
    + simpl in Hout. subst b. exists [], (m0 ++ rest). split_and!; [done|constructor|].
      destruct He as [Hb|Hw]; [by right|]. left. rewrite Hw. destruct text as [|k text']; [done|]. simpl in *. congruence.
    + exfalso. destruct text as [|k text']; [done|]. simpl in Hfirst. injection Hout as <- _.
      injection Hfirst as ->. rewrite Hm in HclsFirst; [done|apply list_elem_of_here].
Qed.

Definition related (prev prev' : option N) (s : str) : Prop :=
  wordAt prev' = wordAt prev ∨ (wordAt prev' = false ∧ edge prev s).

(** A match that starts at the head of the result comes from one in the source. *)
Lemma splits_noMatch prev prev' s out : splits prev s out → related prev prev' s →
  noMatch (delimited body) prev s → noMatch (delimited body) prev' out.
Proof.
  intros Hs Hrel Hno m b Hout (Hleft & Hbody & Hright)%mt_delimited.
  destruct (splits_back prev s out Hs m b Hout) as (m' & b' & Hs' & Hf & Hb); [by eapply mt_within|].
  destruct (mt_needs _ _ _ _ _ Hbody Hneeds) as (z & Hz & _).
  assert (Hm : m ≠ []) by (by intros ->; apply elem_of_nil in Hz).
  assert (Hhead : wordAt (head (m' ++ b')) = wordAt (head (m ++ b))).
  { destruct Hf as [|c d m' m Hcd _]; [done|]. by apply Hsame. }
  apply (Hno m' b' Hs'). apply delimited_mt; [|by eapply mt_pure|].
  - subst s. unfold boundary, edge in *. destruct Hrel as [Hrel|[Hw [He|He]]]; [by rewrite Hhead, <- Hrel|done|].
    rewrite Hhead in He. by rewrite Hw, He in Hleft.
  - destruct Hb as [Hb|Hb]; [|done]. unfold boundary in *. by rewrite <- Hb, (Forall2_after prev prev' m m').
Qed.

Lemma noMatch_nil prev : noMatch (delimited body) prev [].
Proof.
  intros m b Hmb (_ & Hbody & _)%mt_delimited. symmetry in Hmb. apply app_nil in Hmb as [-> ->].
  destruct (mt_needs _ _ _ _ _ Hbody Hneeds) as (z & Hz & _). by apply elem_of_nil in Hz.
Qed.
(** Nothing the pattern matches begins inside [text]: a match lacks [text]'s last code unit, and
    has one that [text] lacks. *)
Lemma noMatch_text prev x y out : text = x ++ y → y ≠ [] → noMatch (delimited body) prev (y ++ out).
Proof.
  intros Ht Hy m b Hmb (_ & Hbody & _)%mt_delimited.
  assert (Hin : kLast ∈ y ∧ ∀ c, c ∈ y → c ∈ text).
  { split; [|intros c Hc; rewrite Ht; apply elem_of_app; by right].
    destruct (exists_last Hy) as (l & k & ->). rewrite Ht, app_assoc, last_snoc in Hlast. injection Hlast as ->.
    apply elem_of_app. right. apply list_elem_of_here. }
  apply app_eq_inv in Hmb as [(k & -> & ->)|(k & -> & ->)].
  - destruct (mt_needs _ _ _ _ _ Hbody Hneeds) as (z & Hz & Hmz). rewrite Hmust in Hmz; [done|].
    apply Hin, elem_of_app. by left.
  - assert (cls kLast = true); [|congruence]. eapply mt_within; [done..|]. apply elem_of_app. by left; apply Hin.
Qed.

Lemma splits_free prev prev' s out : splits prev s out → related prev prev' s → free (delimited body) prev' out.
Proof.
  intros Hs. revert prev'.
  induction Hs as [prev|prev c d s out Hno Hcd Hs IH|prev m rest out He1 He2 Hs IH]; intros prev' Hrel a s' Hout.
  - symmetry in Hout. apply app_nil in Hout as [-> ->]. apply noMatch_nil.
  - destruct a as [|x a].
    + simpl in Hout. subst s'. by eapply splits_noMatch; [by apply sp_skip|..].
    + injection Hout as <- ->. apply (IH (Some d)); [left; simpl; symmetry; by apply Hsame|done].
  - assert (Hnext : free (delimited body) (after prev' text) out).
    { apply IH. right. split; [by rewrite after_text|done]. }
    apply app_eq_inv in Hout as [(k & Ht & ->)|(k & -> & ->)].
    + destruct k as [|x k]; [|by eapply noMatch_text].
      simpl. rewrite app_nil_r in Ht. subst a. by apply free_here.
    + rewrite after_app. by apply Hnext.
Qed.

(** [replace] as such a pair, for a pattern [r] and a replacing text of its own. *)
Lemma replaceGo_splits (r : re) (whole : str) (I : option N → str → Prop) fuel : ∀ prev s,
  (∀ prev m rest, mt r prev m rest → m ≠ []) →
  (∀ c, same c c) →
  (∀ prev m rest, I prev (m ++ rest) → I (after prev m) rest) →
  (∀ prev c s, I prev (c :: s) → exec r prev (c :: s) = None → noMatch (delimited body) prev (c :: s)) →
  (∀ prev s prev' rest out, I prev s → exec r prev s = Some (prev', rest) → splits prev' rest out →
     splits prev s (whole ++ out)) →
  (length s ≤ fuel)%nat → I prev s → splits prev s (replaceGo fuel r whole prev s).
Proof.
  induction fuel as [|fuel IH]; intros prev s Hne Hrefl HI Hskip Hhit Hlen Hs.
  - destruct s; [constructor|simpl in Hlen; lia].
  - destruct s as [|c s]; [constructor|]. cbn [replaceGo]. destruct (exec r prev (c :: s)) as [[prev' rest]|] eqn:E.
    + eapply Hhit; [done..|]. apply exec_Some in E as (m & Hm & Hmt & ->). rewrite Hm in Hs. apply Hne in Hmt.
      apply IH; auto. apply (f_equal length) in Hm. rewrite length_app in Hm. destruct m; [done|]. simpl in *. lia.
    + apply sp_skip; [by apply Hskip|done|]. apply IH; auto; [simpl in Hlen; lia|by apply (HI prev [c] s)].
Qed.

(** Kept text, up to [same]. *)
Lemma splits_skips prev m k s out : Forall2 same m k → free (delimited body) prev (m ++ s) →
  splits (after prev m) s out → splits prev (m ++ s) (k ++ out).
Proof.
  intros Hf. revert prev. induction Hf as [|c d m k Hcd Hf IH]; intros prev Hfree Hs; [done|].
  apply sp_skip; [by apply free_here|done|]. apply IH; [|done]. by apply (free_app _ _ [c]) in Hfree.
Qed.
End Replacement.

(** Cutting a text before a code unit that is no part of a word leaves what it was free of. *)
Lemma free_cut body prev u c v : isWord c = false → pureFor eq body → free (delimited body) prev (u ++ c :: v) →
  free (delimited body) prev u.
Proof.
  intros Hc Hpure Hf a s' -> m b -> (Hl & Hbody & Hr)%mt_delimited.
  apply (Hf a (m ++ b ++ c :: v)) with m (b ++ c :: v); [by rewrite <- !app_assoc|done|].
  assert (Hm : mt body (after prev a) m (b ++ c :: v)) by (eapply mt_pure; [done..|by apply Forall_Forall2_diag, Forall_true]).
  assert (Hhead : ∀ x, wordAt (head (x ++ c :: v)) = wordAt (head x)) by (by intros []).
  apply delimited_mt; [|done|].
  - unfold boundary in *. by rewrite app_assoc, Hhead.
  - unfold boundary in *. by rewrite Hhead.
Qed.

Lemma test_free r s : free r None s → test r s = false.
Proof.
  unfold test. generalize (@None N). induction s as [|c s IH]; intros prev Hf; simpl; destruct (exec r prev _) as [[]|] eqn:E; try done.
  - apply exec_Some in E as (m & Hm & Hmt & _). by destruct (Hf [] _ eq_refl m _ Hm).
  - apply exec_Some in E as (m & Hm & Hmt & _). by destruct (Hf [] _ eq_refl m _ Hm).
  - apply IH. by apply (free_app _ _ [c]) in Hf.
Qed.
