(* ===== verification/Json.v ===== *)
(** * JSON values, [JSON.stringify] and [JSON.parse]

    The code compares, stores and sends [JSON.stringify] text.  Numbers are the
    integers the stored records hold (revisions, versions, sizes); a numeral with a
    fraction or exponent is not parsed.  [parse_stringify] is the round trip every
    browser store and every fingerprint comparison relies on. *)
From S2P Require Import Prelude JsString.

Inductive json : Type :=
| JNull
| JBool (b : bool)
| JNum (n : Z)
| JStr (s : str)
| JArr (l : list json)
| JObj (kvs : list (str * json)).

Section JsonInd.
Variable P : json → Prop.
Hypothesis HNull : P JNull.
Hypothesis HBool : ∀ b, P (JBool b).
Hypothesis HNum : ∀ n, P (JNum n).
Hypothesis HStr : ∀ s, P (JStr s).
Hypothesis HArr : ∀ l, Forall P l → P (JArr l).
Hypothesis HObj : ∀ kvs, Forall (λ kv, P kv.2) kvs → P (JObj kvs).

Fixpoint json_nested_ind (j : json) : P j :=
  match j with
  | JNull => HNull
  | JBool b => HBool b
  | JNum n => HNum n
  | JStr s => HStr s
  | JArr l => HArr l ((fix go l := match l return Forall P l with
      | [] => Forall_nil_2 P
      | x :: l' => Forall_cons_2 P x l' (json_nested_ind x) (go l') end) l)
  | JObj kvs => HObj kvs ((fix go l := match l return Forall (λ kv, P kv.2) l with
      | [] => Forall_nil_2 _
      | x :: l' => Forall_cons_2 _ x l' (json_nested_ind x.2) (go l') end) kvs)
  end.
End JsonInd.

(** ** [JSON.stringify] *)

Definition hexDigit (n : N) : N := (if n <? 10 then n + 48 else n + 87)%N.
Definition escU (c : N) : str :=
  [92; 117; hexDigit (c / 4096); hexDigit ((c / 256) mod 16); hexDigit ((c / 16) mod 16);
   hexDigit (c mod 16)]%N.
Definition isLead (c : N) : bool := ((55296 <=? c) && (c <=? 56319))%N.
Definition isTrail (c : N) : bool := ((56320 <=? c) && (c <=? 57343))%N.

Definition escChar (c : N) : str :=
  (if c =? 34 then [92; 34] else if c =? 92 then [92; 92]
   else if c =? 8 then [92; 98] else if c =? 9 then [92; 116]
   else if c =? 10 then [92; 110] else if c =? 12 then [92; 102]
   else if c =? 13 then [92; 114] else if c <? 32 then escU c else [c])%N.

Fixpoint quoteBody (s : str) : str :=
  match s with
  | [] => []
  | c :: r =>
    if isLead c then
      match r with
      | d :: r' => if isTrail d then c :: d :: quoteBody r' else escU c ++ quoteBody r
      | [] => escU c
      end
    else if isTrail c then escU c ++ quoteBody r
    else escChar c ++ quoteBody r
  end.
Definition quote (s : str) : str := cQuote :: quoteBody s ++ [cQuote].

Fixpoint stringify (j : json) : str :=
  match j with
  | JNull => js "null"
  | JBool true => js "true"
  | JBool false => js "false"
  | JNum n => printZ n
  | JStr s => quote s
  | JArr l => [91%N] ++ join [cComma] (map stringify l) ++ [93%N]
  | JObj kvs =>
      [123%N] ++ join [cComma] (map (λ kv, quote kv.1 ++ [58%N] ++ stringify kv.2) kvs) ++ [125%N]
  end.

(** ** [JSON.parse] *)

Definition isJsonWs (c : N) : bool := ((c =? 9) || (c =? 10) || (c =? 13) || (c =? 32))%N.
Fixpoint skipWs (s : str) : str :=
  match s with c :: r => if isJsonWs c then skipWs r else s | [] => [] end.

Definition hexVal (c : N) : option N :=
  (if (48 <=? c) && (c <=? 57) then Some (c - 48)
   else if (97 <=? c) && (c <=? 102) then Some (c - 87)
   else if (65 <=? c) && (c <=? 70) then Some (c - 55) else None)%N.
Definition hex4 (a b c d : N) : option N :=
  a ← hexVal a; b ← hexVal b; c ← hexVal c; d ← hexVal d;
  Some (a * 4096 + b * 256 + c * 16 + d)%N.
Definition simpleEscape (e : N) : option N :=
  (if e =? 34 then Some 34 else if e =? 92 then Some 92 else if e =? 47 then Some 47
   else if e =? 98 then Some 8 else if e =? 116 then Some 9 else if e =? 110 then Some 10
   else if e =? 102 then Some 12 else if e =? 114 then Some 13 else None)%N.

Fixpoint parseString (s : str) : option (str * str) :=
  match s with
  | [] => None
  | c :: r =>
    if N.eqb c 34 then Some ([], r)
    else if N.eqb c 92 then
      match r with
      | [] => None
      | e :: r1 =>
        if N.eqb e 117 then
          match r1 with
          | h1 :: h2 :: h3 :: h4 :: r2 =>
              v ← hex4 h1 h2 h3 h4; p ← parseString r2; Some (v :: p.1, p.2)
          | _ => None
          end
        else v ← simpleEscape e; p ← parseString r1; Some (v :: p.1, p.2)
      end
    else if N.ltb c 32 then None
    else p ← parseString r; Some (c :: p.1, p.2)
  end.

Fixpoint spanDigits (s : str) : str * str :=
  match s with
  | c :: r => if isDigit c then let p := spanDigits r in (c :: p.1, p.2) else ([], s)
  | [] => ([], [])
  end.

(** What may follow an integer numeral: no fraction, no exponent. *)
Definition endsNumeral (rest : str) : bool :=
  match rest with
  | c :: _ => negb (isDigit c || N.eqb c 46 || N.eqb c 101 || N.eqb c 69)
  | [] => true
  end.
Definition parseNumber (s : str) : option (json * str) :=
  let '(neg, s1) := match s with c :: r => if N.eqb c cMinus then (true, r) else (false, s)
                    | [] => (false, s) end in
  let '(ds, rest) := spanDigits s1 in
  if plainNumeral ds && endsNumeral rest
  then Some (JNum (if neg then - bigOfDigits ds else bigOfDigits ds), rest) else None.

Fixpoint parseValue (fuel : nat) (s : str) : option (json * str) :=
  match fuel with
  | O => None
  | S f =>
    match skipWs s with
    | [] => None
    | c :: r =>
      if N.eqb c 34 then p ← parseString r; Some (JStr p.1, p.2)
      else if N.eqb c 91 then
        match skipWs r with
        | [] => None
        | d :: rest =>
          if N.eqb d 93 then Some (JArr [], rest)
          else p ← parseElems f r; Some (JArr p.1, p.2)
        end
      else if N.eqb c 123 then
        match skipWs r with
        | [] => None
        | d :: rest =>
          if N.eqb d 125 then Some (JObj [], rest)
          else p ← parseMembers f r; Some (JObj p.1, p.2)
        end
      else if startsWith (js "null") (c :: r) then Some (JNull, drop 4 (c :: r))
      else if startsWith (js "true") (c :: r) then Some (JBool true, drop 4 (c :: r))
      else if startsWith (js "false") (c :: r) then Some (JBool false, drop 5 (c :: r))
      else parseNumber (c :: r)
    end
  end
with parseElems (fuel : nat) (s : str) : option (list json * str) :=
  match fuel with
  | O => None
  | S f =>
    p ← parseValue f s;
    match skipWs p.2 with
    | 44%N :: r => q ← parseElems f r; Some (p.1 :: q.1, q.2)
    | 93%N :: r => Some ([p.1], r)
    | _ => None
    end
  end
with parseMembers (fuel : nat) (s : str) : option (list (str * json) * str) :=
  match fuel with
  | O => None
  | S f =>
    match skipWs s with
    | 34%N :: r0 =>
      k ← parseString r0;
      match skipWs k.2 with
      | 58%N :: r1 =>
        p ← parseValue f r1;
        match skipWs p.2 with
        | 44%N :: r => q ← parseMembers f r; Some ((k.1, p.1) :: q.1, q.2)
        | 125%N :: r => Some ([(k.1, p.1)], r)
        | _ => None
        end
      | _ => None
      end
    | _ => None
    end
  end.

(** The text is its own fuel: every nested call has consumed a character. *)
Definition parse (s : str) : option json :=
  p ← parseValue (S (length s)) s;
  match skipWs p.2 with [] => Some p.1 | _ => None end.

Example parse_ex :
  parse (js "{ }") = Some (JObj []) ∧ parse (js "[1, -20 ,[true,null]]") =
    Some (JArr [JNum 1; JNum (-20); JArr [JBool true; JNull]]).
Proof. split; reflexivity. Qed.

(** ** Round trip: [JSON.parse] inverts [JSON.stringify] *)

Lemma hexVal_hexDigit n : (n < 16)%N → hexVal (hexDigit n) = Some n.
Proof.
  intros Hn. unfold hexVal, hexDigit. destruct (N.ltb_spec n 10).
  - rewrite (proj2 (andb_true_iff _ _)) by (rewrite !N.leb_le; lia). f_equal. lia.
  - rewrite (proj2 (andb_false_iff _ _)) by (rewrite !N.leb_gt; lia).
    rewrite (proj2 (andb_true_iff _ _)) by (rewrite !N.leb_le; lia). f_equal. lia.
Qed.

Lemma hex4_escU c : (c < 65536)%N →
  hex4 (hexDigit (c / 4096)) (hexDigit ((c / 256) mod 16)) (hexDigit ((c / 16) mod 16))
       (hexDigit (c mod 16)) = Some c.
Proof.
  intros Hc. unfold hex4.
  rewrite !hexVal_hexDigit by (apply N.mod_lt || apply N.Div0.div_lt_upper_bound; lia).
  simpl. f_equal. lia.
Qed.

Definition consResult (c : N) (o : option (str * str)) : option (str * str) :=
  p ← o; Some (c :: p.1, p.2).

Lemma parseString_escU c t : (c < 65536)%N →
  parseString (escU c ++ t) = consResult c (parseString t).
Proof. intros Hc. unfold escU. simpl. by rewrite hex4_escU. Qed.

Lemma parseString_raw c t : (32 <= c)%N → c ≠ 34%N → c ≠ 92%N →
  parseString (c :: t) = consResult c (parseString t).
Proof.
  intros H1 H2 H3. simpl. rewrite (proj2 (N.eqb_neq _ _) H2), (proj2 (N.eqb_neq _ _) H3).
  by rewrite (proj2 (N.ltb_ge _ _) H1).
Qed.

Lemma parseString_escChar c t : parseString (escChar c ++ t) = consResult c (parseString t).
Proof.
  unfold escChar.
  repeat match goal with
  | |- context [N.eqb c ?n] => destruct (N.eqb_spec c n) as [->|?]; [reflexivity|]
  end.
  destruct (N.ltb_spec c 32); [apply parseString_escU; lia|by apply parseString_raw].
Qed.

Lemma isLead_range c : isLead c = true → (55296 <= c <= 56319)%N.
Proof. unfold isLead. intros. bool_hyps. lia. Qed.
Lemma isTrail_range c : isTrail c = true → (56320 <= c <= 57343)%N.
Proof. unfold isTrail. intros. bool_hyps. lia. Qed.

Lemma quoteBody_cons c s :
  quoteBody (c :: s) =
    if isLead c then
      match s with
      | d :: s' => if isTrail d then c :: d :: quoteBody s' else escU c ++ quoteBody s
      | [] => escU c
      end
    else if isTrail c then escU c ++ quoteBody s else escChar c ++ quoteBody s.
Proof. by destruct s. Qed.

Lemma parseString_quoteBody s rest :
  parseString (quoteBody s ++ cQuote :: rest) = Some (s, rest).
Proof.
  remember (length s) as n eqn:Hn. revert s Hn.
  induction n as [n IH] using lt_wf_ind; intros s ->.
  destruct s as [|c s]; [reflexivity|]. rewrite quoteBody_cons.
  assert (Hs : parseString (quoteBody s ++ cQuote :: rest) = Some (s, rest))
    by (eapply IH; [|reflexivity]; simpl; lia).
  destruct (isLead c) eqn:Hl; [|destruct (isTrail c) eqn:Ht].
  - apply isLead_range in Hl. destruct s as [|d s'].
    + by rewrite parseString_escU by lia.
    + destruct (isTrail d) eqn:Hd.
      * apply isTrail_range in Hd.
        rewrite <- !app_comm_cons, !parseString_raw by lia.
        rewrite (IH (length s')) by (simpl; lia || done). done.
      * rewrite <- app_assoc, parseString_escU by lia. by rewrite Hs.
  - apply isTrail_range in Ht. rewrite <- app_assoc, parseString_escU by lia. by rewrite Hs.
  - rewrite <- app_assoc, parseString_escChar. by rewrite Hs.
Qed.

Lemma spanDigits_app ds rest : allDigits ds = true →
  match rest with c :: _ => isDigit c = false | [] => True end →
  spanDigits (ds ++ rest) = (ds, rest).
Proof.
  intros Hd Hr. induction ds as [|c ds IH]; simpl in *.
  - destruct rest as [|c r]; simpl; [done|]. by rewrite Hr.
  - apply andb_true_iff in Hd as [Hc Hd]. rewrite Hc, IH by done. done.
Qed.

Lemma parseNumber_print n rest : endsNumeral rest = true →
  parseNumber (printZ n ++ rest) = Some (JNum n, rest).
Proof.
  intros Hr. unfold parseNumber, printZ.
  assert (Hstop : match rest with c :: _ => isDigit c = false | [] => True end).
  { destruct rest as [|c r]; [done|]. simpl in Hr. bool_hyps. done. }
  destruct (Z.ltb_spec n 0) as [Hneg|Hpos].
  - simpl. rewrite spanDigits_app by (done || (apply printNat_digits; lia)).
    rewrite printNat_plain, Hr by lia. simpl. rewrite printNat_val by lia. do 3 f_equal. lia.
  - pose proof (printNat_digits1 n Hpos) as Hd. apply digits1_split in Hd as [Hne Hd].
    destruct (printNat n ++ rest) as [|c r] eqn:He; [by destruct (printNat n)|].
    assert (Hc : N.eqb c cMinus = false).
    { destruct (printNat n) as [|c' r']; [done|]. injection He as -> _. apply N.eqb_neq. intros ->.
      by rewrite allDigits_cons in Hd. }
    rewrite Hc, <- He, spanDigits_app by done.
    rewrite printNat_plain, Hr by done. simpl. by rewrite printNat_val.
Qed.

(** The first character of a value's text: never blank, never a closing bracket. *)
Lemma stringify_head j : ∃ c r, stringify j = c :: r ∧ isJsonWs c = false ∧ c ≠ 93%N ∧ c ≠ 125%N.
Proof.
  destruct j as [|[]|n|s|l|kvs]; try (eexists _, _; repeat split; done).
  simpl. unfold printZ. destruct (Z.ltb_spec n 0); [eexists _, _; repeat split; done|].
  pose proof (printNat_digits1 n ltac:(done)) as Hd. apply digits1_split in Hd as [Hne Hd].
  destruct (printNat n) as [|c r]; [done|]. exists c, r. split; [done|].
  rewrite allDigits_cons in Hd. unfold isDigit in Hd. bool_hyps.
  unfold isJsonWs. rewrite !orb_false_iff, !N.eqb_neq. lia.
Qed.

Lemma skipWs_head c r : isJsonWs c = false → skipWs (c :: r) = c :: r.
Proof. intros H. simpl. by rewrite H. Qed.

Lemma parseValue_number f n rest : endsNumeral rest = true →
  parseValue (S f) (printZ n ++ rest) = Some (JNum n, rest).
Proof.
  intros Hr. rewrite <- (parseNumber_print n rest Hr).
  assert (∃ c r, printZ n ++ rest = c :: r ∧ isJsonWs c = false ∧
    c ≠ 34%N ∧ c ≠ 91%N ∧ c ≠ 123%N ∧ c ≠ 110%N ∧ c ≠ 116%N ∧ c ≠ 102%N)
    as (c & r & -> & Hw & ? & ? & ? & ? & ? & ?).
  { unfold printZ. destruct (Z.ltb_spec n 0); [eexists _, _; repeat split; done|].
    pose proof (printNat_digits1 n ltac:(done)) as Hd. apply digits1_split in Hd as [Hne Hd].
    destruct (printNat n) as [|c r]; [done|]. exists c, (r ++ rest). split; [done|].
    rewrite allDigits_cons in Hd. unfold isDigit in Hd. bool_hyps.
    unfold isJsonWs. rewrite !orb_false_iff, !N.eqb_neq. lia. }
  cbn [parseValue]. rewrite skipWs_head by done.
  repeat match goal with
  | |- context [N.eqb c ?k] => rewrite (proj2 (N.eqb_neq c k)) by done
  end.
  assert (Hs : ∀ k t, k ≠ c → startsWith (k :: t) (c :: r) = false).
  { intros k t Hk. simpl. by rewrite (proj2 (N.eqb_neq _ _) Hk). }
  change (js "null") with (110%N :: js "ull"). change (js "true") with (116%N :: js "rue").
  change (js "false") with (102%N :: js "alse"). rewrite !Hs by congruence. done.
Qed.

Definition elemsText (l : list json) : str := join [cComma] (map stringify l).
Definition memberText (kv : str * json) : str := quote kv.1 ++ [58%N] ++ stringify kv.2.
Definition membersText (kvs : list (str * json)) : str := join [cComma] (map memberText kvs).

Definition parsesValue (j : json) : Prop := ∀ f rest,
  (length (stringify j) ≤ f)%nat → endsNumeral rest = true →
  parseValue f (stringify j ++ rest) = Some (j, rest).

Lemma parseElems_ok l f rest : l ≠ [] → Forall parsesValue l →
  (S (length (elemsText l)) ≤ f)%nat →
  parseElems f (elemsText l ++ 93%N :: rest) = Some (l, rest).
Proof.
  intros Hne Hl. revert f. induction Hl as [|v l Hv Hl IH]; intros f Hf; [done|].
  destruct f as [|f]; [lia|]. cbn [parseElems].
  destruct (decide (l = [])) as [->|Hl'].
  - unfold elemsText in *. simpl in Hf |- *. rewrite Hv by (done || lia). done.
  - assert (He : elemsText (v :: l) = stringify v ++ cComma :: elemsText l)
      by (unfold elemsText; by destruct l).
    rewrite He in *. rewrite length_app in Hf. simpl length in Hf.
    rewrite <- app_assoc, Hv by (done || lia). simpl. rewrite IH by (done || lia). done.
Qed.

Lemma parseMembers_ok kvs f rest : kvs ≠ [] → Forall (λ kv, parsesValue kv.2) kvs →
  (S (length (membersText kvs)) ≤ f)%nat →
  parseMembers f (membersText kvs ++ 125%N :: rest) = Some (kvs, rest).
Proof.
  intros Hne Hl. revert f. induction Hl as [|[k v] l Hv Hl IH]; intros f Hf; [done|].
  destruct f as [|f]; [lia|]. cbn [parseMembers].
  assert (Hk : ∀ t, memberText (k, v) ++ t = 34%N :: quoteBody k ++ cQuote :: 58%N :: stringify v ++ t).
  { intros t. unfold memberText, quote. simpl. by rewrite <- !app_assoc. }
  assert (Hm : (length (stringify v) < length (memberText (k, v)))%nat).
  { unfold memberText. rewrite !length_app. simpl. lia. }
  simpl in Hv. destruct (decide (l = [])) as [->|Hl'].
  - unfold membersText in *. cbn [map join] in *. rewrite Hk. cbn.
    rewrite parseString_quoteBody. cbn. rewrite Hv by (done || lia). done.
  - assert (He : membersText ((k, v) :: l) = memberText (k, v) ++ cComma :: membersText l)
      by (unfold membersText; by destruct l).
    rewrite He in *. rewrite length_app, length_cons in Hf.
    rewrite <- app_assoc, Hk. cbn. rewrite parseString_quoteBody. cbn.
    rewrite Hv by (done || lia). cbn. rewrite IH by (done || lia). done.
Qed.

Lemma parseValue_ok j : parsesValue j.
Proof.
  induction j as [|b|n|s|l IH|kvs IH] using json_nested_ind; intros f rest Hf Hr.
  - destruct f; [simpl in Hf; lia|done].
  - destruct b, f; simpl in Hf; done || lia.
  - destruct (stringify_head (JNum n)) as (c & r & He & _).
    destruct f; [rewrite He in Hf; simpl in Hf; lia|]. by apply parseValue_number.
  - destruct f as [|f]; [simpl in Hf; lia|]. simpl.
    rewrite <- app_assoc. cbn [app]. by rewrite parseString_quoteBody.
  - destruct f as [|f]; [simpl in Hf; lia|].
    change (stringify (JArr l)) with ([91%N] ++ elemsText l ++ [93%N]) in *.
    destruct (decide (l = [])) as [->|Hne]; [done|].
    rewrite !length_app in Hf. simpl length in Hf.
    rewrite <- !app_assoc. cbn [parseValue app skipWs]. cbn.
    destruct l as [|v l]; [done|].
    destruct (stringify_head v) as (c & r & He & Hw & Hc & _).
    assert (∃ t, elemsText (v :: l) ++ 93%N :: rest = c :: t) as [t Ht].
    { unfold elemsText. simpl. rewrite He. destruct (map stringify l); eexists; done. }
    rewrite Ht, skipWs_head, (proj2 (N.eqb_neq _ _) Hc) by done. rewrite <- Ht.
    rewrite parseElems_ok by (done || lia). done.
  - destruct f as [|f]; [simpl in Hf; lia|].
    change (stringify (JObj kvs)) with ([123%N] ++ membersText kvs ++ [125%N]) in *.
    destruct (decide (kvs = [])) as [->|Hne]; [done|].
    rewrite !length_app in Hf. simpl length in Hf.
    rewrite <- !app_assoc. cbn [parseValue app skipWs]. cbn.
    destruct kvs as [|[k v] l]; [done|].
    assert (∃ t, membersText ((k, v) :: l) ++ 125%N :: rest = 34%N :: t) as [t Ht].
    { unfold membersText. simpl. destruct (map memberText l); eexists; done. }
    rewrite Ht. cbn. rewrite <- Ht. rewrite parseMembers_ok by (done || lia). done.
Qed.

Lemma parse_stringify j : parse (stringify j) = Some j.
Proof.
  unfold parse. pose proof (parseValue_ok j (S (length (stringify j))) []) as H.
  rewrite app_nil_r in H. by rewrite H by (done || lia).
Qed.

Lemma stringify_inj j1 j2 : stringify j1 = stringify j2 → j1 = j2.
Proof. intros H. apply (f_equal parse) in H. rewrite !parse_stringify in H. by injection H. Qed.
