(* ===== verification/Codec.v ===== *)
(** * Codecs: records as the JSON objects the code reads and writes

    [Codec A] is the interface between a typed record and its JSON text: [enc] is the
    object [JSON.stringify] prints, [dec] reads a parsed object at that type, and the
    law says that reading back what was written gives the same record.  An absent
    ([undefined]) member is not printed. *)
From S2P Require Import Prelude JsString Json.

Class Codec (A : Type) := {
  enc : A → json;
  dec : json → option A;
  dec_enc : ∀ a, dec (enc a) = Some a;
}.

Lemma enc_inj {A} `{Codec A} (a b : A) : enc a = enc b → a = b.
Proof. intros He. apply (f_equal dec) in He. rewrite !dec_enc in He. by injection He. Qed.

Lemma stringify_enc_inj {A} `{Codec A} (a b : A) : stringify (enc a) = stringify (enc b) → a = b.
Proof. intros He. by apply enc_inj, stringify_inj. Qed.

(** ** Scalars and containers *)

#[export] Instance Codec_str : Codec str := {|
  enc s := JStr s; dec j := match j with JStr s => Some s | _ => None end;
  dec_enc s := eq_refl |}.
#[export] Instance Codec_Z : Codec Z := {|
  enc n := JNum n; dec j := match j with JNum n => Some n | _ => None end;
  dec_enc n := eq_refl |}.
#[export] Instance Codec_bool : Codec bool := {|
  enc b := JBool b; dec j := match j with JBool b => Some b | _ => None end;
  dec_enc b := eq_refl |}.
#[export] Instance Codec_json : Codec json := {| enc j := j; dec j := Some j; dec_enc j := eq_refl |}.

Section Containers.
Context {A : Type} `{Codec A}.

Lemma mapM_dec_enc (l : list A) : mapM dec (map enc l) = Some l.
Proof.
  apply mapM_Some. induction l as [|x l IH]; simpl; constructor; [apply dec_enc|done].
Qed.

#[export] Instance Codec_list : Codec (list A) | 10 := {|
  enc l := JArr (map enc l);
  dec j := match j with JArr l => mapM dec l | _ => None end;
  dec_enc := mapM_dec_enc |}.

(** [T | null], for an encoding of [T] that is never [null]. *)
Definition encNullable (o : option A) : json := match o with Some a => enc a | None => JNull end.
Definition decNullable (j : json) : option (option A) :=
  match j with JNull => Some None | _ => a ← dec j; Some (Some a) end.
Definition neverNull : Prop := ∀ a : A, enc a ≠ JNull.

Lemma decNullable_enc (o : option A) : neverNull → decNullable (encNullable o) = Some o.
Proof.
  intros Hn. destruct o as [a|]; simpl; [|done].
  unfold decNullable. pose proof (dec_enc a) as He. specialize (Hn a).
  destruct (enc a); simpl in *; try done; by rewrite He.
Qed.
End Containers.

(** A [string | null] member. *)
Lemma neverNull_str : neverNull (A := str).
Proof. by intros s. Qed.
#[export] Instance Codec_nstr : Codec (option str) := {|
  enc := encNullable; dec := decNullable;
  dec_enc o := decNullable_enc o neverNull_str |}.

(** Unions of string literals: [lit] gives the literal of each constructor. *)
Fixpoint streqb (s t : str) : bool :=
  match s, t with
  | [], [] => true
  | x :: s', y :: t' => N.eqb x y && streqb s' t'
  | _, _ => false
  end.
Lemma streqb_spec s t : streqb s t = true ↔ s = t.
Proof.
  revert t. induction s as [|x s IH]; intros [|y t]; simpl; try done.
  rewrite andb_true_iff, N.eqb_eq, IH. naive_solver.
Qed.
Lemma streqb_refl s : streqb s s = true.
Proof. by apply streqb_spec. Qed.

Definition decLit {A} (lit : A → str) (all : list A) (j : json) : option A :=
  match j with JStr s => findb (λ a, streqb (lit a) s) all | _ => None end.

(** ** Objects *)

Abbreviation fields := (list (str * option json)).
Definition mkObj (fs : fields) : json := JObj (omap (λ f, (f.1,.) <$> f.2) fs).

(** Property access on a parsed object; [None] is [undefined], the last member wins. *)
Definition jget (k : str) (j : json) : option json :=
  match j with
  | JObj kvs => foldl (λ acc kv, if streqb k kv.1 then Some kv.2 else acc) None kvs
  | _ => None
  end.

Definition fget (k : str) (fs : fields) : option json :=
  foldl (λ acc f, if streqb k f.1 then match f.2 with Some v => Some v | None => acc end else acc)
    None fs.

Lemma jget_mkObj k fs : jget k (mkObj fs) = fget k fs.
Proof.
  unfold jget, mkObj, fget. generalize (@None json).
  induction fs as [|[k' [v|]] fs IH]; intros acc; simpl; [done|apply IH|].
  destruct (streqb k k'); apply IH.
Qed.

(** A required member and an optional one. *)
Definition req {A} `{Codec A} (k : str) (j : json) : option A := v ← jget k j; dec v.
Definition opt {A} `{Codec A} (k : str) (j : json) : option (option A) :=
  match jget k j with Some v => a ← dec v; Some (Some a) | None => Some None end.

Definition fld {A} `{Codec A} (k : string) (a : A) : str * option json := (js k, Some (enc a)).
Definition ofld {A} `{Codec A} (k : string) (o : option A) : str * option json :=
  (js k, enc <$> o).

Lemma req_mkObj {A} `{Codec A} k fs a :
  fget k fs = Some (enc a) → req k (mkObj fs) = Some a.
Proof. intros Hf. unfold req. rewrite jget_mkObj, Hf. apply dec_enc. Qed.
Lemma opt_mkObj {A} `{Codec A} k fs (o : option A) :
  fget k fs = enc <$> o → opt k (mkObj fs) = Some o.
Proof.
  intros Hf. unfold opt. rewrite jget_mkObj, Hf. destruct o as [a|]; simpl; [|done].
  by rewrite dec_enc.
Qed.

Lemma some_or_none {A} (o : option A) : match o with Some v => Some v | None => None end = o.
Proof. by destruct o. Qed.

(** Discharge [dec (enc r) = Some r] for a record written with [mkObj] and read with
    [req] and [opt]: the keys are literals, so each lookup is decided by computation. *)
Ltac decide_keys :=
  repeat match goal with
  | |- context [streqb (js ?a) (js ?b)] =>
      let v := eval vm_compute in (streqb (js a) (js b)) in
      change (streqb (js a) (js b)) with v; cbv iota
  end.
Ltac solve_lookup :=
  unfold fget; cbv [foldl fld ofld fst snd]; decide_keys;
  first [reflexivity | rewrite some_or_none; reflexivity].
Ltac solve_record_codec :=
  intros r;
  repeat first
    [ erewrite req_mkObj by solve_lookup
    | erewrite opt_mkObj by solve_lookup ];
  destruct r; first [reflexivity | match goal with x : _ |- _ => destruct x; reflexivity end].
