(* ===== verification/MeasurementTypes.v ===== *)
(** * The measurement data model (frontend/src/measurements/types.ts, guestTypes.ts)

    One record per interface, one inductive per union of literals, and the codec that
    gives each record the JSON object the API sends and the browser stores. *)
From S2P Require Import Prelude JsString Json Codec.

(** ** Unions of literals *)

Inductive QuantityUnit := tonnes | count | m3.
Definition unit_lit (u : QuantityUnit) : str :=
  match u with tonnes => js "tonnes" | count => js "count" | m3 => js "m3" end.
#[export] Instance QuantityUnit_eq : EqDecision QuantityUnit. Proof. solve_decision. Defined.

Inductive LineStatus := reported | not_applicable.
Definition lineStatus_lit (s : LineStatus) : str :=
  match s with reported => js "reported" | not_applicable => js "not-applicable" end.
#[export] Instance LineStatus_eq : EqDecision LineStatus. Proof. solve_decision. Defined.

Inductive Decision_ := agreed | disputed.
Definition decision_lit (d : Decision_) : str :=
  match d with agreed => js "agreed" | disputed => js "disputed" end.
#[export] Instance Decision__eq : EqDecision Decision_. Proof. solve_decision. Defined.

Inductive ReconStatus := recon_draft | recon_final | recon_superseded.
Definition reconStatus_lit (s : ReconStatus) : str :=
  match s with recon_draft => js "draft" | recon_final => js "final"
  | recon_superseded => js "superseded" end.
#[export] Instance ReconStatus_eq : EqDecision ReconStatus. Proof. solve_decision. Defined.

Inductive BillingPolicy := manifest_disparity | quantity_adjustment.
Definition policy_lit (p : BillingPolicy) : str :=
  match p with manifest_disparity => js "manifest-disparity"
  | quantity_adjustment => js "quantity-adjustment" end.
Inductive ToleranceMode := threshold | deductible.
Definition tolerance_lit (m : ToleranceMode) : str :=
  match m with threshold => js "threshold" | deductible => js "deductible" end.
Inductive AssessStatus := as_ready | as_no_charge | as_held | as_issued | as_superseded.
Definition assessStatus_lit (s : AssessStatus) : str :=
  match s with as_ready => js "ready" | as_no_charge => js "no-charge" | as_held => js "held"
  | as_issued => js "issued" | as_superseded => js "superseded" end.
Inductive PlanStatus := scheduled | in_progress | reconciled | plan_cancelled.
Definition planStatus_lit (s : PlanStatus) : str :=
  match s with scheduled => js "scheduled" | in_progress => js "in-progress"
  | reconciled => js "reconciled" | plan_cancelled => js "cancelled" end.
#[export] Instance PlanStatus_eq : EqDecision PlanStatus. Proof. solve_decision. Defined.

Inductive Currency := USD | NGN.
Definition currency_lit (c : Currency) : str := match c with USD => js "USD" | NGN => js "NGN" end.
#[export] Instance Currency_eq : EqDecision Currency. Proof. solve_decision. Defined.

Section LiteralCodecs.
#[export] Instance Codec_unit : Codec QuantityUnit := {|
  enc u := JStr (unit_lit u); dec := decLit unit_lit [tonnes; count; m3];
  dec_enc u := match u with tonnes => eq_refl | count => eq_refl | m3 => eq_refl end |}.
#[export] Instance Codec_lineStatus : Codec LineStatus := {|
  enc s := JStr (lineStatus_lit s); dec := decLit lineStatus_lit [reported; not_applicable];
  dec_enc s := match s with reported => eq_refl | not_applicable => eq_refl end |}.
#[export] Instance Codec_decision : Codec Decision_ := {|
  enc s := JStr (decision_lit s); dec := decLit decision_lit [agreed; disputed];
  dec_enc s := match s with agreed => eq_refl | disputed => eq_refl end |}.
#[export] Instance Codec_reconStatus : Codec ReconStatus := {|
  enc s := JStr (reconStatus_lit s);
  dec := decLit reconStatus_lit [recon_draft; recon_final; recon_superseded];
  dec_enc s := match s with recon_draft => eq_refl | recon_final => eq_refl
               | recon_superseded => eq_refl end |}.
#[export] Instance Codec_policy : Codec BillingPolicy := {|
  enc s := JStr (policy_lit s); dec := decLit policy_lit [manifest_disparity; quantity_adjustment];
  dec_enc s := match s with manifest_disparity => eq_refl | quantity_adjustment => eq_refl end |}.
#[export] Instance Codec_tolerance : Codec ToleranceMode := {|
  enc s := JStr (tolerance_lit s); dec := decLit tolerance_lit [threshold; deductible];
  dec_enc s := match s with threshold => eq_refl | deductible => eq_refl end |}.
#[export] Instance Codec_assessStatus : Codec AssessStatus := {|
  enc s := JStr (assessStatus_lit s);
  dec := decLit assessStatus_lit [as_ready; as_no_charge; as_held; as_issued; as_superseded];
  dec_enc s := match s with as_ready => eq_refl | as_no_charge => eq_refl | as_held => eq_refl
               | as_issued => eq_refl | as_superseded => eq_refl end |}.
#[export] Instance Codec_planStatus : Codec PlanStatus := {|
  enc s := JStr (planStatus_lit s);
  dec := decLit planStatus_lit [scheduled; in_progress; reconciled; plan_cancelled];
  dec_enc s := match s with scheduled => eq_refl | in_progress => eq_refl
               | reconciled => eq_refl | plan_cancelled => eq_refl end |}.
#[export] Instance Codec_currency : Codec Currency := {|
  enc s := JStr (currency_lit s); dec := decLit currency_lit [USD; NGN];
  dec_enc s := match s with USD => eq_refl | NGN => eq_refl end |}.
End LiteralCodecs.

(** ** Records *)

Record Actor := mkActor { actor_id : str; actor_name : str }.
#[export] Instance Actor_eq : EqDecision Actor. Proof. solve_decision. Defined.

(** [ParticipantInput & { id }]; [agencyId] may be absent, [null] or an id. *)
Record Participant := mkParticipant {
  party_agencyId : option (option str); party_name : str; party_role : str;
  party_representative : str; party_requiredSubmission : bool; party_requiredApproval : bool;
  party_id : str }.

Record CargoLineInput := mkCargoLineInput {
  description : str; category : str; direction : str; containerSize : str; loadStatus : str;
  unit_ : QuantityUnit; basis : str; manifestQuantity : option str; baselineReference : str }.
(** [CargoLine extends CargoLineInput] with the id the server assigns. *)
Record CargoLine := mkCargoLine { line_input :> CargoLineInput; line_id : str }.

Record Evidence := mkEvidence {
  ev_id : str; ev_fileName : str; ev_contentType : str; ev_size : Z; ev_checksum : str;
  ev_createdAt : str }.

Record SubmissionLine := mkSubmissionLine {
  sl_lineId : str; sl_status : LineStatus; sl_quantity : option str; sl_note : str }.
Record Submission := mkSubmission {
  sub_participantId : str; sub_observedAt : str; sub_sourceReference : str; sub_notes : str;
  sub_reason : str; sub_lines : list SubmissionLine; sub_evidenceIds : list str;
  sub_id : str; sub_revision : Z; sub_recordedBy : option Actor; sub_recordedAt : str }.

Record Approval := mkApproval {
  ap_participantId : str; ap_decision : Decision_; ap_representative : str; ap_reference : str;
  ap_evidenceIds : list str; ap_id : str; ap_recordedBy : Actor; ap_recordedAt : str }.
Record ReconLine := mkReconLine {
  rl_lineId : str; rl_quantity : str; rl_manifestQuantity : option str; rl_variance : option str;
  rl_reason : str }.
Record Reconciliation := mkReconciliation {
  rec_reason : str; rec_evidenceIds : list str; rec_id : str; rec_revision : Z;
  rec_status : ReconStatus; rec_createdBy : Actor; rec_createdAt : str;
  rec_finalizedBy : option Actor; rec_finalizedAt : option str; rec_submissionIds : list str;
  rec_approvals : list Approval; rec_lines : list ReconLine; rec_stale : option bool }.

Record AssessmentLine := mkAssessmentLine {
  al_lineId : str; al_rate : str; al_tolerance : str; al_toleranceMode : ToleranceMode;
  al_previouslyBilledQuantity : option str; al_openingBilledAmount : str;
  al_category : option str; al_direction : option str; al_containerSize : option str;
  al_loadStatus : option str; al_basis : option str; al_description : str;
  al_unit : QuantityUnit; al_baselineQuantity : str; al_finalQuantity : str; al_variance : str;
  al_chargeableQuantity : str; al_entitlement : str; al_priorInvoicedAmount : str;
  al_amount : str }.
Record Assessment := mkAssessment {
  as_reconciliationId : str; as_payer : str; as_currency : str; as_policy : BillingPolicy;
  as_tariffReference : str; as_reason : str; as_openingChargesReference : str; as_id : str;
  as_superseded_ : option bool; as_status : AssessStatus; as_total : str;
  as_lines : list AssessmentLine; as_invoiceId : option str; as_createdAt : str }.

Record MeasurementPlan := mkPlan {
  plan_callId : str; plan_title : str; plan_scheduledAt : str; plan_endsAt : option str;
  plan_location : str; plan_method : str; plan_stage : str; plan_scope : str;
  plan_leadSurveyor : str; plan_notes : str; plan_id : str; plan_vesselName : str;
  plan_callReference : str; plan_version : Z; plan_status : PlanStatus; plan_createdBy : Actor;
  plan_participants : list Participant; plan_lines : list CargoLine;
  plan_submissions : list Submission; plan_reconciliations : list Reconciliation;
  plan_assessments : list Assessment; plan_evidence : list Evidence }.

(** ** Codecs *)

Definition enc_Actor (a : Actor) : json :=
  mkObj [fld "id" (actor_id a); fld "name" (actor_name a)].
Definition dec_Actor (j : json) : option Actor :=
  i ← req (js "id") j; n ← req (js "name") j; Some (mkActor i n).
Lemma dec_enc_Actor a : dec_Actor (enc_Actor a) = Some a.
Proof. unfold dec_Actor, enc_Actor. revert a. solve_record_codec. Qed.
#[export] Instance Codec_Actor : Codec Actor :=
  {| enc := enc_Actor; dec := dec_Actor; dec_enc := dec_enc_Actor |}.
Lemma neverNull_Actor : neverNull (A := Actor). Proof. by intros a. Qed.
#[export] Instance Codec_nActor : Codec (option Actor) := {|
  enc := encNullable; dec := decNullable; dec_enc o := decNullable_enc o neverNull_Actor |}.

Definition enc_Participant (r : Participant) : json :=
  mkObj [
    ofld "agencyId" (party_agencyId r);
    fld "name" (party_name r);
    fld "role" (party_role r);
    fld "representative" (party_representative r);
    fld "requiredSubmission" (party_requiredSubmission r);
    fld "requiredApproval" (party_requiredApproval r);
    fld "id" (party_id r)].
Definition dec_Participant (j : json) : option Participant :=
  x0 ← opt (js "agencyId") j; x1 ← req (js "name") j; x2 ← req (js "role") j;
  x3 ← req (js "representative") j; x4 ← req (js "requiredSubmission") j; x5 ← req (js "requiredApproval") j;
  x6 ← req (js "id") j;
  Some (mkParticipant x0 x1 x2 x3 x4 x5 x6).
Lemma dec_enc_Participant r : dec_Participant (enc_Participant r) = Some r.
Proof. unfold dec_Participant, enc_Participant. revert r. solve_record_codec. Qed.
#[export] Instance Codec_Participant : Codec Participant :=
  {| enc := enc_Participant; dec := dec_Participant; dec_enc := dec_enc_Participant |}.

Definition enc_CargoLine (r : CargoLine) : json :=
  mkObj [
    fld "description" (description r);
    fld "category" (category r);
    fld "direction" (direction r);
    fld "containerSize" (containerSize r);
    fld "loadStatus" (loadStatus r);
    fld "unit" (unit_ r);
    fld "basis" (basis r);
    fld "manifestQuantity" (manifestQuantity r);
    fld "baselineReference" (baselineReference r);
    fld "id" (line_id r)].
Definition dec_CargoLine (j : json) : option CargoLine :=
  x0 ← req (js "description") j; x1 ← req (js "category") j; x2 ← req (js "direction") j;
  x3 ← req (js "containerSize") j; x4 ← req (js "loadStatus") j; x5 ← req (js "unit") j;
  x6 ← req (js "basis") j; x7 ← req (js "manifestQuantity") j; x8 ← req (js "baselineReference") j;
  x9 ← req (js "id") j;
  Some (mkCargoLine (mkCargoLineInput x0 x1 x2 x3 x4 x5 x6 x7 x8) x9).
Lemma dec_enc_CargoLine r : dec_CargoLine (enc_CargoLine r) = Some r.
Proof. unfold dec_CargoLine, enc_CargoLine. revert r. solve_record_codec. Qed.
#[export] Instance Codec_CargoLine : Codec CargoLine :=
  {| enc := enc_CargoLine; dec := dec_CargoLine; dec_enc := dec_enc_CargoLine |}.

Definition enc_Evidence (r : Evidence) : json :=
  mkObj [
    fld "id" (ev_id r);
    fld "fileName" (ev_fileName r);
    fld "contentType" (ev_contentType r);
    fld "size" (ev_size r);
    fld "checksum" (ev_checksum r);
    fld "createdAt" (ev_createdAt r)].
Definition dec_Evidence (j : json) : option Evidence :=
  x0 ← req (js "id") j; x1 ← req (js "fileName") j; x2 ← req (js "contentType") j;
  x3 ← req (js "size") j; x4 ← req (js "checksum") j; x5 ← req (js "createdAt") j;
 
  Some (mkEvidence x0 x1 x2 x3 x4 x5).
Lemma dec_enc_Evidence r : dec_Evidence (enc_Evidence r) = Some r.
Proof. unfold dec_Evidence, enc_Evidence. revert r. solve_record_codec. Qed.
#[export] Instance Codec_Evidence : Codec Evidence :=
  {| enc := enc_Evidence; dec := dec_Evidence; dec_enc := dec_enc_Evidence |}.

Definition enc_SubmissionLine (r : SubmissionLine) : json :=
  mkObj [
    fld "lineId" (sl_lineId r);
    fld "status" (sl_status r);
    fld "quantity" (sl_quantity r);
    fld "note" (sl_note r)].
Definition dec_SubmissionLine (j : json) : option SubmissionLine :=
  x0 ← req (js "lineId") j; x1 ← req (js "status") j; x2 ← req (js "quantity") j;
  x3 ← req (js "note") j;
  Some (mkSubmissionLine x0 x1 x2 x3).
Lemma dec_enc_SubmissionLine r : dec_SubmissionLine (enc_SubmissionLine r) = Some r.
Proof. unfold dec_SubmissionLine, enc_SubmissionLine. revert r. solve_record_codec. Qed.
#[export] Instance Codec_SubmissionLine : Codec SubmissionLine :=
  {| enc := enc_SubmissionLine; dec := dec_SubmissionLine; dec_enc := dec_enc_SubmissionLine |}.

Definition enc_Submission (r : Submission) : json :=
  mkObj [
    fld "participantId" (sub_participantId r);
    fld "observedAt" (sub_observedAt r);
    fld "sourceReference" (sub_sourceReference r);
    fld "notes" (sub_notes r);
    fld "reason" (sub_reason r);
    fld "lines" (sub_lines r);
    fld "evidenceIds" (sub_evidenceIds r);
    fld "id" (sub_id r);
    fld "revision" (sub_revision r);
    fld "recordedBy" (sub_recordedBy r);
    fld "recordedAt" (sub_recordedAt r)].
Definition dec_Submission (j : json) : option Submission :=
  x0 ← req (js "participantId") j; x1 ← req (js "observedAt") j; x2 ← req (js "sourceReference") j;
  x3 ← req (js "notes") j; x4 ← req (js "reason") j; x5 ← req (js "lines") j;
  x6 ← req (js "evidenceIds") j; x7 ← req (js "id") j; x8 ← req (js "revision") j;
  x9 ← req (js "recordedBy") j; x10 ← req (js "recordedAt") j;
  Some (mkSubmission x0 x1 x2 x3 x4 x5 x6 x7 x8 x9 x10).
Lemma dec_enc_Submission r : dec_Submission (enc_Submission r) = Some r.
Proof. unfold dec_Submission, enc_Submission. revert r. solve_record_codec. Qed.
#[export] Instance Codec_Submission : Codec Submission :=
  {| enc := enc_Submission; dec := dec_Submission; dec_enc := dec_enc_Submission |}.

Definition enc_Approval (r : Approval) : json :=
  mkObj [
    fld "participantId" (ap_participantId r);
    fld "decision" (ap_decision r);
    fld "representative" (ap_representative r);
    fld "reference" (ap_reference r);
    fld "evidenceIds" (ap_evidenceIds r);
    fld "id" (ap_id r);
    fld "recordedBy" (ap_recordedBy r);
    fld "recordedAt" (ap_recordedAt r)].
Definition dec_Approval (j : json) : option Approval :=
  x0 ← req (js "participantId") j; x1 ← req (js "decision") j; x2 ← req (js "representative") j;
  x3 ← req (js "reference") j; x4 ← req (js "evidenceIds") j; x5 ← req (js "id") j;
  x6 ← req (js "recordedBy") j; x7 ← req (js "recordedAt") j;
  Some (mkApproval x0 x1 x2 x3 x4 x5 x6 x7).
Lemma dec_enc_Approval r : dec_Approval (enc_Approval r) = Some r.
Proof. unfold dec_Approval, enc_Approval. revert r. solve_record_codec. Qed.
#[export] Instance Codec_Approval : Codec Approval :=
  {| enc := enc_Approval; dec := dec_Approval; dec_enc := dec_enc_Approval |}.

Definition enc_ReconLine (r : ReconLine) : json :=
  mkObj [
    fld "lineId" (rl_lineId r);
    fld "quantity" (rl_quantity r);
    fld "manifestQuantity" (rl_manifestQuantity r);
    fld "variance" (rl_variance r);
    fld "reason" (rl_reason r)].
Definition dec_ReconLine (j : json) : option ReconLine :=
  x0 ← req (js "lineId") j; x1 ← req (js "quantity") j; x2 ← req (js "manifestQuantity") j;
  x3 ← req (js "variance") j; x4 ← req (js "reason") j;
  Some (mkReconLine x0 x1 x2 x3 x4).
Lemma dec_enc_ReconLine r : dec_ReconLine (enc_ReconLine r) = Some r.
Proof. unfold dec_ReconLine, enc_ReconLine. revert r. solve_record_codec. Qed.
#[export] Instance Codec_ReconLine : Codec ReconLine :=
  {| enc := enc_ReconLine; dec := dec_ReconLine; dec_enc := dec_enc_ReconLine |}.

Definition enc_Reconciliation (r : Reconciliation) : json :=
  mkObj [
    fld "reason" (rec_reason r);
    fld "evidenceIds" (rec_evidenceIds r);
    fld "id" (rec_id r);
    fld "revision" (rec_revision r);
    fld "status" (rec_status r);
    fld "createdBy" (rec_createdBy r);
    fld "createdAt" (rec_createdAt r);
    fld "finalizedBy" (rec_finalizedBy r);
    fld "finalizedAt" (rec_finalizedAt r);
    fld "submissionIds" (rec_submissionIds r);
    fld "approvals" (rec_approvals r);
    fld "lines" (rec_lines r);
    ofld "stale" (rec_stale r)].
Definition dec_Reconciliation (j : json) : option Reconciliation :=
  x0 ← req (js "reason") j; x1 ← req (js "evidenceIds") j; x2 ← req (js "id") j;
  x3 ← req (js "revision") j; x4 ← req (js "status") j; x5 ← req (js "createdBy") j;
  x6 ← req (js "createdAt") j; x7 ← req (js "finalizedBy") j; x8 ← req (js "finalizedAt") j;
  x9 ← req (js "submissionIds") j; x10 ← req (js "approvals") j; x11 ← req (js "lines") j;
  x12 ← opt (js "stale") j;
  Some (mkReconciliation x0 x1 x2 x3 x4 x5 x6 x7 x8 x9 x10 x11 x12).
Lemma dec_enc_Reconciliation r : dec_Reconciliation (enc_Reconciliation r) = Some r.
Proof. unfold dec_Reconciliation, enc_Reconciliation. revert r. solve_record_codec. Qed.
#[export] Instance Codec_Reconciliation : Codec Reconciliation :=
  {| enc := enc_Reconciliation; dec := dec_Reconciliation; dec_enc := dec_enc_Reconciliation |}.

Definition enc_AssessmentLine (r : AssessmentLine) : json :=
  mkObj [
    fld "lineId" (al_lineId r);
    fld "rate" (al_rate r);
    fld "tolerance" (al_tolerance r);
    fld "toleranceMode" (al_toleranceMode r);
    fld "previouslyBilledQuantity" (al_previouslyBilledQuantity r);
    fld "openingBilledAmount" (al_openingBilledAmount r);
    ofld "category" (al_category r);
    ofld "direction" (al_direction r);
    ofld "containerSize" (al_containerSize r);
    ofld "loadStatus" (al_loadStatus r);
    ofld "basis" (al_basis r);
    fld "description" (al_description r);
    fld "unit" (al_unit r);
    fld "baselineQuantity" (al_baselineQuantity r);
    fld "finalQuantity" (al_finalQuantity r);
    fld "variance" (al_variance r);
    fld "chargeableQuantity" (al_chargeableQuantity r);
    fld "entitlement" (al_entitlement r);
    fld "priorInvoicedAmount" (al_priorInvoicedAmount r);
    fld "amount" (al_amount r)].
Definition dec_AssessmentLine (j : json) : option AssessmentLine :=
  x0 ← req (js "lineId") j; x1 ← req (js "rate") j; x2 ← req (js "tolerance") j;
  x3 ← req (js "toleranceMode") j; x4 ← req (js "previouslyBilledQuantity") j; x5 ← req (js "openingBilledAmount") j;
  x6 ← opt (js "category") j; x7 ← opt (js "direction") j; x8 ← opt (js "containerSize") j;
  x9 ← opt (js "loadStatus") j; x10 ← opt (js "basis") j; x11 ← req (js "description") j;
  x12 ← req (js "unit") j; x13 ← req (js "baselineQuantity") j; x14 ← req (js "finalQuantity") j;
  x15 ← req (js "variance") j; x16 ← req (js "chargeableQuantity") j; x17 ← req (js "entitlement") j;
  x18 ← req (js "priorInvoicedAmount") j; x19 ← req (js "amount") j;
  Some (mkAssessmentLine x0 x1 x2 x3 x4 x5 x6 x7 x8 x9 x10 x11 x12 x13 x14 x15 x16 x17 x18 x19).
Lemma dec_enc_AssessmentLine r : dec_AssessmentLine (enc_AssessmentLine r) = Some r.
Proof. unfold dec_AssessmentLine, enc_AssessmentLine. revert r. solve_record_codec. Qed.
#[export] Instance Codec_AssessmentLine : Codec AssessmentLine :=
  {| enc := enc_AssessmentLine; dec := dec_AssessmentLine; dec_enc := dec_enc_AssessmentLine |}.

Definition enc_Assessment (r : Assessment) : json :=
  mkObj [
    fld "reconciliationId" (as_reconciliationId r);
    fld "payer" (as_payer r);
    fld "currency" (as_currency r);
    fld "policy" (as_policy r);
    fld "tariffReference" (as_tariffReference r);
    fld "reason" (as_reason r);
    fld "openingChargesReference" (as_openingChargesReference r);
    fld "id" (as_id r);
    ofld "superseded" (as_superseded_ r);
    fld "status" (as_status r);
    fld "total" (as_total r);
    fld "lines" (as_lines r);
    fld "invoiceId" (as_invoiceId r);
    fld "createdAt" (as_createdAt r)].
Definition dec_Assessment (j : json) : option Assessment :=
  x0 ← req (js "reconciliationId") j; x1 ← req (js "payer") j; x2 ← req (js "currency") j;
  x3 ← req (js "policy") j; x4 ← req (js "tariffReference") j; x5 ← req (js "reason") j;
  x6 ← req (js "openingChargesReference") j; x7 ← req (js "id") j; x8 ← opt (js "superseded") j;
  x9 ← req (js "status") j; x10 ← req (js "total") j; x11 ← req (js "lines") j;
  x12 ← req (js "invoiceId") j; x13 ← req (js "createdAt") j;
  Some (mkAssessment x0 x1 x2 x3 x4 x5 x6 x7 x8 x9 x10 x11 x12 x13).
Lemma dec_enc_Assessment r : dec_Assessment (enc_Assessment r) = Some r.
Proof. unfold dec_Assessment, enc_Assessment. revert r. solve_record_codec. Qed.
#[export] Instance Codec_Assessment : Codec Assessment :=
  {| enc := enc_Assessment; dec := dec_Assessment; dec_enc := dec_enc_Assessment |}.

Definition enc_MeasurementPlan (r : MeasurementPlan) : json :=
  mkObj [
    fld "callId" (plan_callId r);
    fld "title" (plan_title r);
    fld "scheduledAt" (plan_scheduledAt r);
    fld "endsAt" (plan_endsAt r);
    fld "location" (plan_location r);
    fld "method" (plan_method r);
    fld "stage" (plan_stage r);
    fld "scope" (plan_scope r);
    fld "leadSurveyor" (plan_leadSurveyor r);
    fld "notes" (plan_notes r);
    fld "id" (plan_id r);
    fld "vesselName" (plan_vesselName r);
    fld "callReference" (plan_callReference r);
    fld "version" (plan_version r);
    fld "status" (plan_status r);
    fld "createdBy" (plan_createdBy r);
    fld "participants" (plan_participants r);
    fld "lines" (plan_lines r);
    fld "submissions" (plan_submissions r);
    fld "reconciliations" (plan_reconciliations r);
    fld "assessments" (plan_assessments r);
    fld "evidence" (plan_evidence r)].
Definition dec_MeasurementPlan (j : json) : option MeasurementPlan :=
  x0 ← req (js "callId") j; x1 ← req (js "title") j; x2 ← req (js "scheduledAt") j;
  x3 ← req (js "endsAt") j; x4 ← req (js "location") j; x5 ← req (js "method") j;
  x6 ← req (js "stage") j; x7 ← req (js "scope") j; x8 ← req (js "leadSurveyor") j;
  x9 ← req (js "notes") j; x10 ← req (js "id") j; x11 ← req (js "vesselName") j;
  x12 ← req (js "callReference") j; x13 ← req (js "version") j; x14 ← req (js "status") j;
  x15 ← req (js "createdBy") j; x16 ← req (js "participants") j; x17 ← req (js "lines") j;
  x18 ← req (js "submissions") j; x19 ← req (js "reconciliations") j; x20 ← req (js "assessments") j;
  x21 ← req (js "evidence") j;
  Some (mkPlan x0 x1 x2 x3 x4 x5 x6 x7 x8 x9 x10 x11 x12 x13 x14 x15 x16 x17 x18 x19 x20 x21).
Lemma dec_enc_MeasurementPlan r : dec_MeasurementPlan (enc_MeasurementPlan r) = Some r.
Proof. unfold dec_MeasurementPlan, enc_MeasurementPlan. revert r. solve_record_codec. Qed.
#[export] Instance Codec_MeasurementPlan : Codec MeasurementPlan :=
  {| enc := enc_MeasurementPlan; dec := dec_MeasurementPlan; dec_enc := dec_enc_MeasurementPlan |}.
