(* ===== verification/Host.v ===== *)
(** * The host environment

    Operations ECMAScript leaves to Unicode tables, ICU collation or the clock's
    calendar.  They are parameters of the development: a [Host] gives them, with the
    only laws the code relies on.  [asciiHost] is the instance the witnesses use. *)
From S2P Require Import Prelude JsString.

Class Host := {
  (** [a.localeCompare(b)] *)
  localeCompare : str → str → Z;
  localeCompare_refl : ∀ a, localeCompare a a = 0;
  localeCompare_flip : ∀ a b, 0 < localeCompare a b → localeCompare b a < 0;
  (** [s.toLowerCase()], [s.toLocaleLowerCase()], [s.toUpperCase()] *)
  toLowerCase : str → str;
  toLocaleLowerCase : str → str;
  toUpperCase : str → str;
  (** [s.normalize("NFKC")] *)
  normalizeNFKC : str → str;
  (** [Date.parse(s)]: milliseconds, [None] for [NaN] *)
  dateParse : str → option Z;
}.

(** ** Lemmas: the code-unit order *)

Lemma cmpUnits_refl s : cmpUnits s s = 0.
Proof. induction s as [|c s IH]; simpl; [done|]. by rewrite N.ltb_irrefl. Qed.

Lemma cmpUnits_flip s t : cmpUnits t s = - cmpUnits s t.
Proof.
  revert t. induction s as [|x s IH]; intros [|y t]; simpl; try done.
  destruct (N.ltb_spec x y), (N.ltb_spec y x); try done; lia.
Qed.

Lemma cmpUnits_eq s t : cmpUnits s t = 0 → s = t.
Proof.
  revert t. induction s as [|x s IH]; intros [|y t]; simpl; try done.
  destruct (N.ltb_spec x y), (N.ltb_spec y x); try done. intros H1.
  f_equal; [lia|auto].
Qed.

Lemma cmpUnits_trans s t u : cmpUnits s t <= 0 → cmpUnits t u <= 0 → cmpUnits s u <= 0.
Proof.
  revert t u. induction s as [|x s IH]; intros [|y t] [|z u]; simpl; try lia.
  destruct (N.ltb_spec x y), (N.ltb_spec y x), (N.ltb_spec y z), (N.ltb_spec z y),
    (N.ltb_spec x z), (N.ltb_spec z x); try lia. apply IH.
Qed.

(** Sorting by code unit is a canonical form of a list of keys up to permutation. *)
Lemma sort_units_perm (l1 l2 : list str) :
  sort_by cmpUnits l1 = sort_by cmpUnits l2 ↔ l1 ≡ₚ l2.
Proof.
  split.
  - intros H. by rewrite <- (sort_by_perm cmpUnits l1), H, sort_by_perm.
  - intros Hp. set (R := λ s t : str, cmpUnits s t <= 0).
    assert (Transitive R) by (intros s t u; apply cmpUnits_trans).
    assert (AntiSymm (=) R).
    { intros s t H1 H2. apply cmpUnits_eq. unfold R in *. rewrite cmpUnits_flip in H2. lia. }
    assert (Htot : ∀ x y, 0 < cmpUnits x y → cmpUnits y x <= 0)
      by (intros x y; rewrite (cmpUnits_flip x y); lia).
    apply (Sorted_unique R); [by apply sort_by_sorted..|].
    by rewrite !sort_by_perm.
Qed.

(** ** The ASCII instance *)

Definition asciiLower (c : N) : N := if ((65 <=? c) && (c <=? 90))%N then (c + 32)%N else c.
Definition asciiUpper (c : N) : N := if ((97 <=? c) && (c <=? 122))%N then (c - 32)%N else c.

(** Calendar days of an ISO date, and [yyyy-mm-dd[Thh:mm[:ss[.mmm]Z]]] in milliseconds. *)
Definition daysFromCivil (y m d : Z) : Z :=
  let y' := if m <=? 2 then y - 1 else y in
  let era := y' / 400 in
  let yoe := y' - era * 400 in
  let doy := (153 * (m + (if 2 <? m then -3 else 9)) + 2) / 5 + d - 1 in
  let doe := yoe * 365 + yoe / 4 - yoe / 100 + doy in
  era * 146097 + doe - 719468.
Definition isoDateParse (s : str) : option Z :=
  match split cMinus (take 10 s) with
  | [y; m; d] =>
    if digits1 y && digits1 m && digits1 d then
      let days := daysFromCivil (bigOfDigits y) (bigOfDigits m) (bigOfDigits d) in
      let hh := take 2 (drop 11 s) in let mm := take 2 (drop 14 s) in
      let ss := take 2 (drop 17 s) in
      Some (days * 86400000 + bigOfDigits hh * 3600000 + bigOfDigits mm * 60000
            + bigOfDigits ss * 1000)
    else None
  | _ => None
  end.

Lemma asciiCompare_flip a b : 0 < cmpUnits a b → cmpUnits b a < 0.
Proof. rewrite (cmpUnits_flip a b). lia. Qed.

Definition asciiHost : Host := {|
  localeCompare := cmpUnits;
  localeCompare_refl := cmpUnits_refl;
  localeCompare_flip := asciiCompare_flip;
  toLowerCase := map asciiLower;
  toLocaleLowerCase := map asciiLower;
  toUpperCase := map asciiUpper;
  normalizeNFKC := λ s, s;
  dateParse := isoDateParse;
|}.

Example isoDate_ex : isoDateParse (js "2026-07-26T10:30:00Z") = Some 1785061800000.
Proof. reflexivity. Qed.
