(* ===== verification/Samples.v ===== *)
(** * Fixtures: one small voyage the witnesses are evaluated on *)
From S2P Require Import Prelude JsString MeasurementTypes.

Definition surveyor : Actor := mkActor (js "u1") (js "Ada").
Definition reviewer : Actor := mkActor (js "u2") (js "Bode").

Definition sampleCargo : CargoLine :=
  mkCargoLine (mkCargoLineInput (js "Crude oil") (js "Liquid bulk") (js "Export") [] []
    tonnes (js "shore-tank") (Some (js "1000")) (js "BL-1")) (js "l1").
Definition sampleParty : Participant :=
  mkParticipant None (js "Customs") (js "Customs") (js "Chidi") true true (js "a1").
Definition sampleSubmission (id : str) (revision : Z) (q : str) : Submission :=
  mkSubmission (js "a1") (js "2026-07-01T08:00:00Z") (js "REF") [] []
    [mkSubmissionLine (js "l1") reported (Some q) []] [] id revision (Some surveyor)
    (js "2026-07-01T09:00:00Z").
Definition sampleApproval (d : Decision_) : Approval :=
  mkApproval (js "a1") d (js "Chidi") (js "REF") [] (js "ap1") surveyor (js "2026-07-02T09:00:00Z").
Definition sampleRecon (d : Decision_) : Reconciliation :=
  mkReconciliation (js "figures agreed") [] (js "rc1") 1 recon_draft surveyor
    (js "2026-07-02T08:00:00Z") None None [js "s2"] [sampleApproval d]
    [mkReconLine (js "l1") (js "1012.4") (Some (js "1000")) (Some (js "12.4")) []] None.
Definition samplePlan (subs : list Submission) (recs : list Reconciliation) : MeasurementPlan :=
  mkPlan (js "call-0001") (js "Crude export") (js "2026-07-01T06:00:00Z") None (js "Berth 4")
    (js "Shore tank") (js "loading") (js "full") (js "Ada") [] (js "p1") (js "MV Calabar")
    (js "VC-1") 3 in_progress surveyor [sampleParty] [sampleCargo] subs recs [] [].
Definition measuredPlan : MeasurementPlan :=
  samplePlan [sampleSubmission (js "s1") 1 (js "1010"); sampleSubmission (js "s2") 2 (js "1012.4")] [].
