(* ===== verification/Helpers.v ===== *)
(** * Measurement helpers (frontend/src/measurements/helpers.ts) *)
From S2P Require Import Prelude JsString Json Codec MeasurementTypes Host Samples.

(** ** Latest returns and reconciliations *)

(** One pass over the submissions: a participant's entry is replaced by a strictly
    later revision; a missing entry counts as revision 0. *)
Definition latestReturns_step (returns : list (str * Submission)) (submission : Submission)
  : list (str * Submission) :=
  let previous := match mget (sub_participantId submission) returns with
                  | Some s => sub_revision s | None => 0 end in
  if previous <? sub_revision submission
  then mset (sub_participantId submission) submission returns else returns.
Definition latestReturns (plan : MeasurementPlan) : list (str * Submission) :=
  foldl latestReturns_step [] (plan_submissions plan).

Definition latestReconciliation (plan : MeasurementPlan) (status : option ReconStatus)
  : option Reconciliation :=
  foldl (λ latest item,
      match latest with
      | None => Some item
      | Some l => if rec_revision l <? rec_revision item then Some item else Some l
      end) None
    (filterb (λ r, match status with
                   | None => true | Some s => bool_decide (rec_status r = s) end)
       (plan_reconciliations plan)).

Definition reconciliationStale (plan : MeasurementPlan) (recon : Reconciliation) : bool :=
  let latest := sort_by cmpUnits (map sub_id (latestReturns plan).*2) in
  bool_decide (rec_stale recon = Some true)
  || negb (streq (join [cComma] latest) (join [cComma] (sort_by cmpUnits (rec_submissionIds recon)))).

Definition decisionsOf (recon : Reconciliation) : list (str * Decision_) :=
  foldl (λ m a, mset (ap_participantId a) (ap_decision a) m) [] (rec_approvals recon).

Definition partyIssue (decisions : list (str * Decision_)) (party : Participant) : list str :=
  match mget (party_id party) decisions with
  | Some disputed => [party_name party ++ js " has disputed this version."]
  | d =>
    if party_requiredApproval party && bool_decide (d ≠ Some agreed)
    then [party_name party ++ js " agreement is still required."] else []
  end.

Definition finalizationIssues (plan : MeasurementPlan) (recon : Reconciliation)
    (userId : option str) : list str :=
  (if reconciliationStale plan recon
   then [js "Returns changed after this proposal. Create a refreshed proposal before approval."] else [])
  ++ (if bool_decide (Some (actor_id (rec_createdBy recon)) = userId)
      then [js "An independent Admin must finalize this proposal. You prepared this version."] else [])
  ++ flat_map (partyIssue (decisionsOf recon)) (plan_participants plan).

(** ** Cargo labels *)

(** [CargoContext]: the optional members of a partial cargo line. *)
Definition cargoScopeLabel (direction containerSize loadStatus : option str) : str :=
  let text (o : option str) := match o with Some s => s | None => [] end in
  join (js " · ") (filterb truthy
    [text direction;
     (if truthy (text containerSize) then text containerSize ++ js " ft" else []);
     text loadStatus]).
Definition scopeLabelOf (line : CargoLine) : str :=
  cargoScopeLabel (Some (direction line)) (Some (containerSize line)) (Some (loadStatus line)).

Fixpoint findIndexFrom {A} (f : A → bool) (i : Z) (l : list A) : Z :=
  match l with [] => -1 | x :: l' => if f x then i else findIndexFrom f (i + 1) l' end.
(** [l.findIndex(f)]: -1 when nothing matches. *)
Definition findIndex {A} (f : A → bool) (l : list A) : Z := findIndexFrom f 0 l.

Definition cargoInputLabel (line : CargoLine) (lines : list CargoLine) : str :=
  let sameDescription := filterb (λ item : CargoLine, streq (description item) (description line)) lines in
  if isEmpty (containerSize line) && isEmpty (loadStatus line)
     && Nat.eqb (length sameDescription) 1
  then description line else
  let scope := scopeLabelOf line in
  let repeatedScope :=
    (1 <? length (filterb (λ item, streq (scopeLabelOf item) scope) sameDescription))%nat in
  let label := join (js " · ") (filterb truthy [description line; scope]) in
  if repeatedScope
  then label ++ js " · item " ++ printZ (findIndex (λ item, streq (line_id item) (line_id line)) lines + 1)
  else label.

Definition cargoLabelForId (lines : list CargoLine) (lineId : str) : str :=
  match findb (λ item : CargoLine, streq (line_id item) lineId) lines with
  | Some line => cargoInputLabel line lines
  | None => js "Cargo item"
  end.

(** ** Lemmas: latest returns *)

Section LatestReturns.
Definition returnsOf (p : str) (l : list Submission) : list Submission :=
  filterb (λ s, streq (sub_participantId s) p) l.

(** What the map holds for a participant: the first return of the greatest positive revision. *)
Definition isLatest (p : str) (l : list Submission) (o : option Submission) : Prop :=
  match o with
  | Some s => s ∈ l ∧ sub_participantId s = p ∧ 0 < sub_revision s ∧
      ∀ s', s' ∈ l → sub_participantId s' = p → sub_revision s' <= sub_revision s
  | None => ∀ s', s' ∈ l → sub_participantId s' = p → sub_revision s' <= 0
  end.

Lemma latestReturns_step_other p m s : sub_participantId s ≠ p →
  mget p (latestReturns_step m s) = mget p m.
Proof. intros Hp. unfold latestReturns_step. destruct (_ <? _); [by rewrite mget_mset_ne|done]. Qed.

Lemma isLatest_other p l s o : sub_participantId s ≠ p → isLatest p l o → isLatest p (l ++ [s]) o.
Proof.
  intros Hp. destruct o as [old|]; simpl.
  - intros (H1 & H2 & H3 & H4). repeat split; [by apply elem_of_app; left|done|done|].
    intros s' [?| ->%list_elem_of_singleton]%elem_of_app ?; [auto|done].
  - intros H s' [?| ->%list_elem_of_singleton]%elem_of_app ?; [auto|done].
Qed.

Lemma latestReturns_step_spec p l m s :
  isLatest p l (mget p m) → isLatest p (l ++ [s]) (mget p (latestReturns_step m s)).
Proof.
  intros H. destruct (decide (sub_participantId s = p)) as [<-|Hp];
    [|rewrite latestReturns_step_other by done; by apply isLatest_other].
  assert (Hs : s ∈ l ++ [s]) by (apply elem_of_app; right; by apply list_elem_of_singleton).
  unfold latestReturns_step. destruct (mget (sub_participantId s) m) as [old|] eqn:E; simpl in H |- *.
  - destruct H as (Hin & Hpid & Hpos & Hmax).
    destruct (Z.ltb_spec (sub_revision old) (sub_revision s));
      [rewrite mget_mset_eq|rewrite E]; simpl; repeat split; try done; try lia;
      try (by apply elem_of_app; left);
      intros s' [Hl| ->%list_elem_of_singleton]%elem_of_app Hq; try lia;
      specialize (Hmax s' Hl Hq); lia.
  - destruct (Z.ltb_spec 0 (sub_revision s));
      [rewrite mget_mset_eq|rewrite E]; simpl; repeat split; try done; try lia;
      intros s' [Hl| ->%list_elem_of_singleton]%elem_of_app Hq; try lia;
      specialize (H s' Hl Hq); lia.
Qed.

Lemma latestReturns_spec p plan :
  isLatest p (plan_submissions plan) (mget p (latestReturns plan)).
Proof.
  unfold latestReturns. induction (plan_submissions plan) as [|s l IH] using rev_ind.
  - simpl. intros s' Hs. by apply elem_of_nil in Hs.
  - rewrite foldl_app. simpl. by apply latestReturns_step_spec.
Qed.

Lemma latestReturns_step_keys m s : NoDup m.*1 → NoDup (latestReturns_step m s).*1.
Proof. intros H. unfold latestReturns_step. destruct (_ <? _); [by apply mset_NoDup|done]. Qed.

Lemma latestReturns_NoDup plan : NoDup (latestReturns plan).*1.
Proof.
  unfold latestReturns. induction (plan_submissions plan) as [|s l IH] using rev_ind;
    [constructor|]. rewrite foldl_app. by apply latestReturns_step_keys.
Qed.

Lemma latestReturns_key plan p s : mget p (latestReturns plan) = Some s →
  s ∈ plan_submissions plan ∧ sub_participantId s = p.
Proof.
  intros H. pose proof (latestReturns_spec p plan) as Hs. rewrite H in Hs. simpl in Hs. tauto.
Qed.
End LatestReturns.

Lemma decisionsOf_NoDup recon : NoDup (decisionsOf recon).*1.
Proof.
  unfold decisionsOf. induction (rec_approvals recon) as [|a l IH] using rev_ind; [constructor|].
  rewrite foldl_app. by apply mset_NoDup.
Qed.

(** The decision that counts is the last one recorded for the party. *)
Lemma decisionsOf_last recon p :
  mget p (decisionsOf recon) =
  ap_decision <$> last (filterb (λ a, streq (ap_participantId a) p) (rec_approvals recon)).
Proof.
  unfold decisionsOf. induction (rec_approvals recon) as [|a l IH] using rev_ind; [done|].
  rewrite foldl_app, List.filter_app. simpl.
  destruct (streq (ap_participantId a) p) eqn:E.
  - apply streq_true in E as <-. by rewrite mget_mset_eq, last_snoc.
  - apply streq_false in E. by rewrite mget_mset_ne, app_nil_r.
Qed.

(** ** Lemmas: joined identifier lists *)

Lemma join_inj (c : N) (l1 l2 : list str) :
  (∀ s, s ∈ l1 → s ≠ [] ∧ c ∉ s) → (∀ s, s ∈ l2 → s ≠ [] ∧ c ∉ s) →
  join [c] l1 = join [c] l2 → l1 = l2.
Proof.
  assert (Hj : ∀ l, (∀ s, s ∈ l → s ≠ [] ∧ c ∉ s) → l ≠ [] → split c (join [c] l) = l).
  { intros l. induction l as [|s l IH]; intros H Hne; [done|].
    destruct (H s ltac:(set_solver)) as [_ Hc]. destruct l as [|s' l].
    - simpl. by apply split_none.
    - change (join [c] (s :: s' :: l)) with (s ++ c :: join [c] (s' :: l)).
      rewrite split_app by done. f_equal. apply IH; [set_solver|done]. }
  assert (He : ∀ l, (∀ s, s ∈ l → s ≠ [] ∧ c ∉ s) → join [c] l = [] → l = []).
  { intros [|s [|s' l]] H; simpl; [done|..].
    - intros ->. destruct (H []); set_solver.
    - by destruct s. }
  intros H1 H2 Heq. destruct (decide (l1 = [])) as [->|Hn1].
  - symmetry. apply He; [done|]. by rewrite <- Heq.
  - destruct (decide (l2 = [])) as [->|Hn2]; [by apply He|].
    rewrite <- (Hj l1), <- (Hj l2) by done. by rewrite Heq.
Qed.

Definition idText (s : str) : Prop := s ≠ [] ∧ cComma ∉ s.

(** ** Properties *)

(** The latest return of each participant does not depend on the order in which the
    submissions were received: over any reordering of a list in which no participant has
    two returns of one revision, [latestReturns] picks the same return for everyone. *)
Theorem latestReturns_order_independent (plan1 plan2 : MeasurementPlan) (p : str)
    (Hperm : plan_submissions plan1 ≡ₚ plan_submissions plan2)
    (Hrev : ∀ s s', s ∈ plan_submissions plan1 → s' ∈ plan_submissions plan1 →
       sub_participantId s = sub_participantId s' → sub_revision s = sub_revision s' → s = s') :
  mget p (latestReturns plan1) = mget p (latestReturns plan2).
Proof.
  pose proof (latestReturns_spec p plan1) as H1. pose proof (latestReturns_spec p plan2) as H2.
  assert (Hin : ∀ s, s ∈ plan_submissions plan1 ↔ s ∈ plan_submissions plan2)
    by (intros s; by rewrite Hperm).
  destruct (mget p (latestReturns plan1)) as [s1|], (mget p (latestReturns plan2)) as [s2|];
    simpl in *; [|exfalso..|done].
  - destruct H1 as (Hs1 & Hp1 & _ & Hm1), H2 as (Hs2 & Hp2 & _ & Hm2). f_equal.
    apply Hin in Hs2. apply Hrev; [done|done|congruence|].
    specialize (Hm1 s2 Hs2 Hp2). specialize (Hm2 s1 (proj1 (Hin s1) Hs1) Hp1). lia.
  - destruct H1 as (Hs1 & Hp1 & Hpos & _). apply Hin in Hs1. specialize (H2 s1 Hs1 Hp1). lia.
  - destruct H2 as (Hs2 & Hp2 & Hpos & _). apply Hin in Hs2. specialize (H1 s2 Hs2 Hp2). lia.
Qed.

Lemma latestReturns_order_independent_witness :
  let subs := [sampleSubmission (js "s1") 1 (js "1010"); sampleSubmission (js "s2") 2 (js "1012.4")] in
  mget (js "a1") (latestReturns (samplePlan subs [])) =
  mget (js "a1") (latestReturns (samplePlan (rev subs) [])).
Proof.
  apply latestReturns_order_independent.
  - simpl. apply Permutation_swap.
  - simpl. intros s s' Hs Hs'. rewrite !elem_of_cons, elem_of_nil in Hs, Hs'.
    destruct Hs as [->|[->|[]]], Hs' as [->|[->|[]]]; simpl; done.
Defined.

(** A proposal is stale exactly when the server marked it stale or the set of returns
    it was built from is no longer the set of latest returns; the comma-joined comparison
    of sorted identifiers the code makes loses nothing. *)
Theorem reconciliationStale_iff (plan : MeasurementPlan) (recon : Reconciliation)
    (Hplan : ∀ s, s ∈ plan_submissions plan → idText (sub_id s))
    (Hrecon : ∀ i, i ∈ rec_submissionIds recon → idText i) :
  reconciliationStale plan recon = false ↔
  rec_stale recon ≠ Some true ∧
  rec_submissionIds recon ≡ₚ map sub_id (latestReturns plan).*2.
Proof.
  unfold reconciliationStale. rewrite orb_false_iff, negb_false_iff, streq_true,
    bool_decide_eq_false.
  assert (Hids : ∀ i, i ∈ map sub_id (latestReturns plan).*2 → idText i).
  { intros i (s & -> & Hs)%list_elem_of_fmap. apply list_elem_of_fmap in Hs as ([q s'] & -> & Hs).
    apply elem_of_mget in Hs; [|apply latestReturns_NoDup].
    apply latestReturns_key in Hs as [Hs _]. by apply Hplan. }
  split; intros [Hst H]; (split; [done|]).
  - apply join_inj in H; [by apply sort_units_perm; symmetry|..]; intros s Hs;
      apply elem_of_sort_by in Hs; [by apply Hids|by apply Hrecon].
  - f_equal. by apply sort_units_perm.
Qed.

Lemma reconciliationStale_iff_witness :
  rec_stale (sampleRecon agreed) ≠ Some true ∧
  rec_submissionIds (sampleRecon agreed) ≡ₚ map sub_id (latestReturns measuredPlan).*2.
Proof.
  apply (reconciliationStale_iff measuredPlan (sampleRecon agreed)).
  - intros s Hs. simpl in Hs. rewrite !elem_of_cons, elem_of_nil in Hs.
    destruct Hs as [->|[->|[]]]; split; simpl; try done; vm_compute; set_solver.
  - intros i Hi. simpl in Hi. rewrite elem_of_cons, elem_of_nil in Hi.
    destruct Hi as [->|[]]; split; [done|]; vm_compute; set_solver.
  - vm_compute. reflexivity.
Defined.

Lemma partyIssue_nil decisions party :
  partyIssue decisions party = [] ↔
  mget (party_id party) decisions ≠ Some disputed ∧
  (party_requiredApproval party = true → mget (party_id party) decisions = Some agreed).
Proof.
  unfold partyIssue. destruct (mget (party_id party) decisions) as [[]|] eqn:E;
    destruct (party_requiredApproval party); simpl; naive_solver.
Qed.

(** A proposal can be finalized (no issue is reported) exactly when it is not stale,
    the finalizing user did not prepare it, no party's last decision disputes it and every
    party whose approval is required last agreed. *)
Theorem finalizationIssues_clear_iff (plan : MeasurementPlan) (recon : Reconciliation) (userId : str) :
  let lastDecision p :=
    ap_decision <$> last (filterb (λ a, streq (ap_participantId a) p) (rec_approvals recon)) in
  finalizationIssues plan recon (Some userId) = [] ↔
  reconciliationStale plan recon = false ∧ actor_id (rec_createdBy recon) ≠ userId ∧
  ∀ party, party ∈ plan_participants plan →
    lastDecision (party_id party) ≠ Some disputed ∧
    (party_requiredApproval party = true → lastDecision (party_id party) = Some agreed).
Proof.
  cbv zeta. unfold finalizationIssues.
  rewrite !app_nil, flat_map_nil. setoid_rewrite partyIssue_nil. setoid_rewrite decisionsOf_last.
  destruct (reconciliationStale plan recon); case_bool_decide; naive_solver.
Qed.
