(* ===== verification/Comparison.v ===== *)
(** * Exact comparison of readings (frontend/src/measurements/comparison.ts)

    Quantities are decimal strings; the code compares them as [bigint] digits with a
    number of decimal places, never as floating-point numbers. *)
From S2P Require Import Prelude JsString.

Record Decimal := mkDecimal { digits : Z; places : Z }.

(** ** The accepted numerals

    [/^([+-]?)(?:(\d+)(?:\.(\d+))?|\.(\d+))(?:[eE]([+-]?\d+))?$/] *)

Definition signOf (s : str) : N * str :=
  match s with
  | c :: r => if N.eqb c cPlus || N.eqb c cMinus then (c, r) else (0%N, s)
  | [] => (0%N, s)
  end.

(** The mantissa groups: match[2] (absent for a leading dot) and the fraction
    [match[3] ?? match[4] ?? ""]. *)
Definition mantissa (s : str) : option (option str * str) :=
  match split cDot s with
  | [w] => if digits1 w then Some (Some w, []) else None
  | [w; f] =>
      if digits1 w && digits1 f then Some (Some w, f)
      else if isEmpty w && digits1 f then Some (None, f) else None
  | _ => None
  end.

(** The exponent group as a number: [Number(match[5] ?? "0")]. *)
Definition exponentOf (s : str) : option Z :=
  let '(sg, ds) := signOf s in
  if digits1 ds then Some (if N.eqb sg cMinus then - bigOfDigits ds else bigOfDigits ds) else None.

Fixpoint splitExp (s : str) : str * option str :=
  match s with
  | [] => ([], None)
  | c :: r => if N.eqb c 101 || N.eqb c 69 then ([], Some r)
              else let p := splitExp r in (c :: p.1, p.2)
  end.

(** Sign character (0 for none), whole digits, fraction digits, exponent. *)
Definition matchNumeral (s : str) : option (N * option str * str * Z) :=
  let '(sg, body) := signOf s in
  let '(m, e) := splitExp body in
  '(w, f) ← mantissa m;
  x ← match e with None => Some 0 | Some e => exponentOf e end;
  Some (sg, w, f, x).

Definition decimal (value : option str) : option Decimal :=
  match value with
  | None => None
  | Some value =>
    if (200 <? length value)%nat then None else
    '(sg, w, f, x) ← matchNumeral (trim value);
    let ds := bigOfDigits (match w with Some w => w | None => [cZero] end ++ f) in
    if (100 <? Z.abs x) || (N.eqb sg cMinus && negb (ds =? 0)) then None else
    let pl := Z.of_nat (length f) - x in
    Some (if pl <? 0 then mkDecimal (ds * pow10 (Z.to_nat (- pl))) 0 else mkDecimal ds pl)
  end.

Definition decimalText (digits places : Z) : str :=
  let negative := digits <? 0 in
  let absolute := padStart (Z.to_nat (places + 1)) cZero (printZ (if negative then - digits else digits)) in
  let n := Z.to_nat places in
  let whole := if places =? 0 then absolute else sliceInit n absolute in
  let fraction := if places =? 0 then [] else stripZeros (sliceLast n absolute) in
  (if negative then [cMinus] else []) ++ whole ++ (if truthy fraction then cDot :: fraction else []).

Definition readingQuantity (value : option str) : str :=
  match decimal value with
  | None => js "Not provided"
  | Some parsed =>
    if digits parsed =? 0 then js "NIL (0)" else
    match split cDot (decimalText (digits parsed) (places parsed)) with
    | whole :: fraction :: _ =>
        groupThousands whole ++ (if truthy fraction then cDot :: fraction else [])
    | whole :: [] => groupThousands whole
    | [] => []
    end
  end.

Definition quantityDifference (measured declared : option str) : option str :=
  match decimal measured, decimal declared with
  | Some reading, Some baseline =>
    let pl := Z.max (places reading) (places baseline) in
    let difference := digits reading * pow10 (Z.to_nat (pl - places reading))
                      - digits baseline * pow10 (Z.to_nat (pl - places baseline)) in
    Some ((if 0 <? difference then [cPlus] else []) ++ decimalText difference pl)
  | _, _ => None
  end.

Inductive TallyStatus := tallies | above | below | unknown.
#[export] Instance TallyStatus_eq : EqDecision TallyStatus. Proof. solve_decision. Defined.
Record Tally := mkTally { tally_status : TallyStatus; tally_label : str; tally_difference : option str }.

Definition tallyResult (measured declared : option str) : Tally :=
  match quantityDifference measured declared with
  | None => mkTally unknown (js "Awaiting comparison") None
  | Some difference =>
    if streq difference (js "0") then mkTally tallies (js "Tallies") (Some difference)
    else if startsWith (js "-") difference
         then mkTally below (js "Below declaration") (Some difference)
         else mkTally above (js "Above declaration") (Some difference)
  end.

Example decimal_ex1 : decimal (Some (js " 1.50e1 ")) = Some (mkDecimal 150 1).
Proof. reflexivity. Qed.
Example decimal_ex2 : decimal (Some (js "-0.0")) = Some (mkDecimal 0 1)
  ∧ decimal (Some (js "-1")) = None ∧ decimal (Some (js ".5e-101")) = None
  ∧ decimal (Some (js "1e3")) = Some (mkDecimal 1000 0).
Proof. repeat split; reflexivity. Qed.
Example reading_ex : readingQuantity (Some (js "1234567.8900")) = js "1,234,567.89"
  ∧ readingQuantity (Some (js "0.00")) = js "NIL (0)".
Proof. split; reflexivity. Qed.
Example difference_ex : quantityDifference (Some (js "10.5")) (Some (js "12")) = Some (js "-1.5").
Proof. reflexivity. Qed.

(** ** Lemmas: what a numeral denotes *)

Lemma mantissa_digits m w f : mantissa m = Some (w, f) →
  allDigits (match w with Some w => w | None => [cZero] end ++ f) = true.
Proof.
  unfold mantissa. destruct (split cDot m) as [|w' [|f' [|]]]; [done|..|done].
  - destruct (digits1 w') eqn:Hw; [|done]. intros [= <- <-].
    apply digits1_split in Hw as [_ Hw]. by rewrite app_nil_r.
  - rewrite allDigits_app. destruct (digits1 w') eqn:Hw, (digits1 f') eqn:Hf; simpl;
      try (destruct (isEmpty w'); simpl; discriminate); [|destruct (isEmpty w'); simpl; [|done]];
      intros [= <- <-]; apply digits1_split in Hf as [_ ->]; [|done].
    by apply digits1_split in Hw as [_ ->].
Qed.

Lemma decimal_nonneg v d : decimal v = Some d → 0 <= digits d ∧ 0 <= places d.
Proof.
  unfold decimal. destruct v as [v|]; [|done]. destruct (200 <? length v)%nat; [done|].
  unfold matchNumeral. destruct (signOf (trim v)) as [sg body], (splitExp body) as [m e].
  destruct (mantissa m) as [[w f]|] eqn:Em; simpl; [|done].
  destruct (match e with None => Some 0 | Some e => exponentOf e end) as [x|]; simpl; [|done].
  destruct (_ || _); [done|]. pose proof (bigOfDigits_bound _ (mantissa_digits _ _ _ Em)).
  destruct (Z.ltb_spec (Z.of_nat (length f) - x) 0); intros [= <-]; simpl; [|lia].
  split; [|lia]. pose proof (pow10_pos (Z.to_nat (- (Z.of_nat (length f) - x)))). nia.
Qed.

Lemma splitExp_none s : (∀ c, c ∈ s → isDigit c = true ∨ c = cDot) → splitExp s = (s, None).
Proof.
  induction s as [|c s IH]; intros H; simpl; [done|].
  assert (Hc : N.eqb c 101 || N.eqb c 69 = false).
  { destruct (H c) as [Hd| ->]; [by apply elem_of_cons; left| |done].
    unfold isDigit in Hd. bool_hyps. rewrite orb_false_iff, !N.eqb_neq. lia. }
  rewrite Hc, IH; [done|]. intros c' Hc'. apply H, elem_of_cons. by right.
Qed.
Lemma mantissa_withFraction w f : w ≠ [] → allDigits w = true → allDigits f = true →
  mantissa (withFraction w f) = Some (Some w, f).
Proof.
  intros Hne Hw Hf. unfold withFraction, mantissa.
  assert (cDot ∉ w) by (by apply allDigits_not_in).
  assert (Hd : digits1 w = true) by (by apply digits1_split).
  destruct (truthy f) eqn:Ht.
  - rewrite split_app, (split_none cDot f) by (done || by apply allDigits_not_in).
    rewrite Hd. unfold digits1. by rewrite Ht, Hf.
  - destruct f; [|done]. rewrite app_nil_r, split_none by done. by rewrite Hd.
Qed.

Lemma decimal_withFraction (plus : bool) w f : w ≠ [] → allDigits w = true → allDigits f = true →
  (length ((if plus then [cPlus] else []) ++ withFraction w f) ≤ 200)%nat →
  decimal (Some ((if plus then [cPlus] else []) ++ withFraction w f)) =
  Some (mkDecimal (bigOfDigits (w ++ f)) (Z.of_nat (length f))).
Proof.
  intros Hne Hw Hf Hlen. unfold decimal. rewrite (proj2 (Nat.ltb_ge _ _) Hlen).
  rewrite trim_noWs by (destruct plus; simpl; auto using withFraction_noWs with vessel).
  unfold matchNumeral.
  assert (Hs : ∃ sg, N.eqb sg cMinus = false ∧
    signOf ((if plus then [cPlus] else []) ++ withFraction w f) = (sg, withFraction w f)).
  { destruct plus; [by exists cPlus|]. exists 0%N. split; [done|]. simpl.
    destruct w as [|c w]; [done|]. simpl. rewrite allDigits_cons in Hw.
    apply andb_true_iff in Hw as [Hc _]. unfold isDigit in Hc. bool_hyps.
    unfold cPlus, cMinus. by rewrite (proj2 (N.eqb_neq c 43)), (proj2 (N.eqb_neq c 45)) by lia. }
  destruct Hs as (sg & Hsg & ->). rewrite splitExp_none.
  2: { unfold withFraction. intros c [Hc|Hc]%elem_of_app; [left; by apply (allDigits_elem w)|].
       destruct (truthy f); [|by apply elem_of_nil in Hc].
       apply elem_of_cons in Hc as [->|Hc]; [by right|left; by apply (allDigits_elem f)]. }
  rewrite mantissa_withFraction by done. simpl. rewrite Hsg. simpl. rewrite Z.sub_0_r.
  by rewrite (proj2 (Z.ltb_ge _ _)) by lia.
Qed.

(** ** Lemmas: the printed text *)

Definition absText (n p : Z) : str := padStart (Z.to_nat (p + 1)) cZero (printNat n).
Definition fractionText (n p : Z) : str := stripZeros (sliceLast (Z.to_nat p) (absText n p)).
Definition wholeText (n p : Z) : str := sliceInit (Z.to_nat p) (absText n p).

Lemma sliceLast_0 s : sliceLast 0 s = [].
Proof. unfold sliceLast. rewrite Nat.sub_0_r. apply drop_all. Qed.
Lemma sliceInit_0 s : sliceInit 0 s = s.
Proof. unfold sliceInit. rewrite Nat.sub_0_r. apply firstn_all. Qed.

Lemma decimalText_nonneg n p : 0 <= n → 0 <= p →
  decimalText n p = withFraction (wholeText n p) (fractionText n p).
Proof.
  intros Hn Hp. unfold decimalText. rewrite (proj2 (Z.ltb_ge n 0)) by lia.
  unfold withFraction, wholeText, fractionText, absText, printZ.
  rewrite (proj2 (Z.ltb_ge n 0)) by lia.
  destruct (Z.eqb_spec p 0) as [->|Hz]; [|done]. by rewrite sliceLast_0, sliceInit_0.
Qed.
Lemma decimalText_neg n p : n < 0 → decimalText n p = cMinus :: decimalText (- n) p.
Proof.
  intros Hn. unfold decimalText. rewrite (proj2 (Z.ltb_lt n 0)) by lia.
  by rewrite (proj2 (Z.ltb_ge (- n) 0)) by lia.
Qed.

Lemma absText_length n p : 0 <= p → (Z.to_nat p < length (absText n p))%nat.
Proof. intros Hp. unfold absText. rewrite length_padStart. lia. Qed.
Lemma absText_digits n p : 0 <= n → allDigits (absText n p) = true.
Proof. intros Hn. unfold absText. rewrite allDigits_padStart. by apply printNat_digits. Qed.
Lemma absText_val n p : 0 <= n → bigOfDigits (absText n p) = n.
Proof. intros Hn. unfold absText. rewrite bigOfDigits_padStart. by apply printNat_val. Qed.
Lemma slices_app k s : sliceInit k s ++ sliceLast k s = s.
Proof. apply take_drop. Qed.

Lemma text_parts n p : 0 <= n → 0 <= p →
  wholeText n p ≠ [] ∧ allDigits (wholeText n p) = true ∧ allDigits (fractionText n p) = true ∧
  ∃ k, p = Z.of_nat (length (fractionText n p) + k) ∧
    bigOfDigits (wholeText n p ++ fractionText n p) * pow10 k = n.
Proof.
  intros Hn Hp. pose proof (absText_length n p Hp) as Hlen.
  pose proof (absText_digits n p Hn) as Hd. pose proof (absText_val n p Hn) as Hv.
  rewrite <- (slices_app (Z.to_nat p) (absText n p)), allDigits_app in Hd. apply andb_true_iff in Hd as [Hw Hf].
  split; [|split; [done|split; [by apply stripZeros_digits|]]].
  - unfold wholeText. intros He. apply (f_equal length) in He. unfold sliceInit in He.
    rewrite length_take in He. simpl in He. lia.
  - destruct (stripZeros_spec (sliceLast (Z.to_nat p) (absText n p))) as [k Hk].
    exists k. fold (fractionText n p) in Hk. split.
    + apply (f_equal length) in Hk. rewrite length_app, length_replicate in Hk.
      unfold sliceLast in Hk. rewrite length_drop in Hk. lia.
    + rewrite <- bigOfDigits_strip, <- app_assoc, <- Hk. unfold wholeText.
      by rewrite slices_app.
Qed.

Lemma decimal_decimalText (plus : bool) n p : 0 <= n → 0 <= p →
  (length ((if plus then [cPlus] else []) ++ decimalText n p) ≤ 200)%nat →
  ∃ d, decimal (Some ((if plus then [cPlus] else []) ++ decimalText n p)) = Some d ∧
    digits d * pow10 (Z.to_nat (p - places d)) = n ∧ places d <= p.
Proof.
  intros Hn Hp. rewrite decimalText_nonneg by done. intros Hlen.
  destruct (text_parts n p Hn Hp) as (Hne & Hw & Hf & k & Hk & Hv).
  eexists. split; [by apply decimal_withFraction|]. simpl. split; [|lia].
  by replace (Z.to_nat (p - Z.of_nat (length (fractionText n p)))) with k by lia.
Qed.

Lemma absText_scale n p : 0 <= n → 0 <= p → absText (10 * n) (p + 1) = absText n p ++ [cZero].
Proof.
  intros Hn Hp. unfold absText, padStart.
  replace (Z.to_nat (p + 1 + 1)) with (S (Z.to_nat (p + 1))) by lia.
  destruct (Z.eq_dec n 0) as [->|Hz].
  - change (10 * 0) with 0. change (printNat 0) with [cZero]. simpl length.
    replace (Z.to_nat (p + 1)) with (S (Z.to_nat p)) by lia.
    rewrite !Nat.sub_succ, !Nat.sub_0_r. by rewrite replicate_S_end.
  - rewrite printNat_10 by lia. rewrite length_app. simpl length.
    rewrite Nat.add_1_r, Nat.sub_succ. by rewrite app_assoc.
Qed.

Lemma decimalText_scale n p : 0 <= n → 0 <= p → decimalText (10 * n) (p + 1) = decimalText n p.
Proof.
  intros Hn Hp. rewrite !decimalText_nonneg by lia. pose proof (absText_length n p Hp) as Hl.
  unfold wholeText, fractionText, sliceInit, sliceLast. rewrite !absText_scale by done.
  rewrite length_app. simpl length.
  replace (length (absText n p) + 1 - Z.to_nat (p + 1))%nat
    with (length (absText n p) - Z.to_nat p)%nat by lia.
  rewrite take_app_le, drop_app_le by lia. by rewrite stripZeros_snoc0.
Qed.

Lemma decimalText_scaleBy n p k : 0 <= n → 0 <= p →
  decimalText (n * pow10 k) (p + Z.of_nat k) = decimalText n p.
Proof.
  intros Hn Hp. induction k as [|k IH]; [simpl; f_equal; lia|].
  rewrite <- IH. replace (n * pow10 (S k)) with (10 * (n * pow10 k)) by (simpl; lia).
  replace (p + Z.of_nat (S k)) with (p + Z.of_nat k + 1) by lia.
  apply decimalText_scale; [pose proof (pow10_pos k); nia|lia].
Qed.

(** The quantity at a common number of places. *)
Definition atScale (P : Z) (d : Decimal) : Z := digits d * pow10 (Z.to_nat (P - places d)).
Definition sameQuantity (a b : Decimal) : Prop :=
  atScale (Z.max (places a) (places b)) a = atScale (Z.max (places a) (places b)) b.

Lemma sameQuantity_text a b : 0 <= digits a → 0 <= places a → 0 <= digits b → 0 <= places b →
  sameQuantity a b → decimalText (digits a) (places a) = decimalText (digits b) (places b).
Proof.
  unfold sameQuantity, atScale. intros Ha Pa Hb Pb He.
  rewrite <- (decimalText_scaleBy (digits a) (places a) (Z.to_nat (Z.max (places a) (places b) - places a))),
    <- (decimalText_scaleBy (digits b) (places b) (Z.to_nat (Z.max (places a) (places b) - places b))) by done.
  rewrite He. f_equal. lia.
Qed.

Lemma withFraction_inj w f w' f' : w ≠ [] → w' ≠ [] → allDigits w = true → allDigits f = true →
  allDigits w' = true → allDigits f' = true → withFraction w f = withFraction w' f' → w = w' ∧ f = f'.
Proof.
  intros Hw Hw' Dw Df Dw' Df' He. apply (f_equal mantissa) in He.
  rewrite !mantissa_withFraction in He by done. naive_solver.
Qed.

Lemma text_sameQuantity a b : 0 <= digits a → 0 <= places a → 0 <= digits b → 0 <= places b →
  decimalText (digits a) (places a) = decimalText (digits b) (places b) → sameQuantity a b.
Proof.
  intros Ha Pa Hb Pb. rewrite !decimalText_nonneg by done.
  destruct (text_parts _ _ Ha Pa) as (W1 & W2 & W3 & k & Hk & Vk).
  destruct (text_parts _ _ Hb Pb) as (X1 & X2 & X3 & j & Hj & Vj).
  intros [Ew Ef]%withFraction_inj; try done. unfold sameQuantity, atScale.
  rewrite <- Ew, <- Ef in Vj. rewrite <- Ef in Hj.
  rewrite <- Vk, <- Vj, <- !Z.mul_assoc, <- !pow10_add. do 2 f_equal. lia.
Qed.

Lemma strip_groupFrom prev s :
  filterb (λ c, negb (N.eqb c cComma)) (groupFrom prev s) = filterb (λ c, negb (N.eqb c cComma)) s.
Proof.
  revert prev. induction s as [|c s IH]; intros prev; simpl; [done|].
  destruct (groupHere prev (c :: s)); simpl; by rewrite IH.
Qed.

Lemma filterb_nocomma s : cComma ∉ s → filterb (λ c, negb (N.eqb c cComma)) s = s.
Proof. intros H. apply filterb_all. intros c Hc. apply negb_true_iff, N.eqb_neq. by intros ->. Qed.

(** The grouped text is the decimal text with commas inserted. *)
Lemma reading_text d : 0 < digits d → 0 <= places d →
  ∃ w f, decimalText (digits d) (places d) = withFraction w f ∧ w ≠ [] ∧ allDigits w = true ∧
    allDigits f = true ∧
    match split cDot (decimalText (digits d) (places d)) with
    | whole :: fraction :: _ =>
        groupThousands whole ++ (if truthy fraction then cDot :: fraction else [])
    | whole :: [] => groupThousands whole
    | [] => []
    end = groupThousands w ++ (if truthy f then cDot :: f else []).
Proof.
  intros Hd Hp. rewrite decimalText_nonneg by lia.
  destruct (text_parts (digits d) (places d) ltac:(lia) Hp) as (Hw & Dw & Df & _).
  eexists _, _. split; [done|]. split; [done|]. split; [done|]. split; [done|].
  assert (cDot ∉ wholeText (digits d) (places d)) by (by apply allDigits_not_in).
  unfold withFraction. destruct (truthy (fractionText _ _)) eqn:Ht.
  - rewrite split_app, split_none by (done || by apply allDigits_not_in). by rewrite Ht.
  - rewrite app_nil_r, split_none by done. by rewrite app_nil_r.
Qed.

Lemma readingQuantity_nocomma v d : decimal v = Some d → digits d ≠ 0 →
  filterb (λ c, negb (N.eqb c cComma)) (readingQuantity v) = decimalText (digits d) (places d).
Proof.
  intros Hv Hz. destruct (decimal_nonneg _ _ Hv) as [Hd Hp].
  destruct (reading_text d ltac:(lia) Hp) as (w & f & He & Hw & Dw & Df & Hr).
  unfold readingQuantity. rewrite Hv, (proj2 (Z.eqb_neq _ _)), Hr by done.
  rewrite List.filter_app. unfold groupThousands. rewrite strip_groupFrom.
  rewrite filterb_nocomma by (by apply allDigits_not_in). rewrite He. unfold withFraction. f_equal.
  apply filterb_nocomma. destruct (truthy f); [|apply not_elem_of_nil].
  intros [?|Hc]%elem_of_cons; [done|]. revert Hc. by apply allDigits_not_in.
Qed.

Lemma readingQuantity_zero v d : decimal v = Some d → digits d = 0 → readingQuantity v = js "NIL (0)".
Proof. intros Hv Hz. unfold readingQuantity. by rewrite Hv, Hz. Qed.

Lemma decimalText_not_nil d : 0 <= digits d → 0 <= places d →
  decimalText (digits d) (places d) ≠ js "NIL (0)".
Proof.
  intros Hd Hp He. rewrite decimalText_nonneg in He by done.
  destruct (text_parts _ _ Hd Hp) as (Hw & Dw & _). unfold withFraction in He.
  destruct (wholeText _ _) as [|c w]; [done|]. injection He as -> _. by simpl in Dw.
Qed.

(** The first character of a printed non-negative number is a digit. *)
Lemma decimalText_head n p : 0 <= n → 0 <= p → ∃ c r, decimalText n p = c :: r ∧ isDigit c = true.
Proof.
  intros Hn Hp. rewrite decimalText_nonneg by done.
  destruct (text_parts n p Hn Hp) as (Hw & Dw & _). unfold withFraction.
  destruct (wholeText n p) as [|c w]; [done|]. exists c. eexists. split; [done|].
  rewrite allDigits_cons in Dw. by apply andb_true_iff in Dw as [? _].
Qed.

Lemma decimalText_0 n p : 0 <= n → 0 <= p → decimalText n p = js "0" ↔ n = 0.
Proof.
  intros Hn Hp. split; [|intros ->].
  - intros He. destruct (text_parts n p Hn Hp) as (Hw & Dw & Df & k & Hk & Hv).
    rewrite decimalText_nonneg in He by done.
    apply (withFraction_inj _ _ [cZero] []) in He as [Ew Ef]; try done.
    rewrite Ew, Ef in Hv. unfold bigOfDigits in Hv. simpl in Hv. unfold digitVal, cZero in Hv. lia.
  - replace p with (0 + Z.of_nat (Z.to_nat p)) by lia.
    change 0 with (0 * pow10 (Z.to_nat p)) at 1. by rewrite decimalText_scaleBy.
Qed.

(** ** Properties *)

(** C6. Two supplied readings are shown with the same text exactly when they denote the same
    quantity: trailing zeros, a plus sign, blanks and exponents never make equal readings
    look different, and different quantities are never shown alike. *)
Theorem readingQuantity_canonical v1 v2 d1 d2
    (H1 : decimal v1 = Some d1) (H2 : decimal v2 = Some d2) :
  readingQuantity v1 = readingQuantity v2 ↔ sameQuantity d1 d2.
Proof.
  destruct (decimal_nonneg _ _ H1) as [D1 P1], (decimal_nonneg _ _ H2) as [D2 P2].
  pose proof (pow10_pos (Z.to_nat (Z.max (places d1) (places d2) - places d1))) as Q1.
  pose proof (pow10_pos (Z.to_nat (Z.max (places d1) (places d2) - places d2))) as Q2.
  destruct (Z.eq_dec (digits d1) 0) as [Z1|Z1], (Z.eq_dec (digits d2) 0) as [Z2|Z2].
  - rewrite (readingQuantity_zero _ _ H1), (readingQuantity_zero _ _ H2) by done.
    unfold sameQuantity, atScale. rewrite Z1, Z2. done.
  - split; [|unfold sameQuantity, atScale; rewrite Z1; nia].
    intros He. rewrite (readingQuantity_zero _ _ H1) in He by done.
    apply (f_equal (filterb (λ c, negb (N.eqb c cComma)))) in He.
    rewrite (readingQuantity_nocomma v2 d2) in He by done. by destruct (decimalText_not_nil d2).
  - split; [|unfold sameQuantity, atScale; rewrite Z2; nia].
    intros He. rewrite (readingQuantity_zero _ _ H2) in He by done.
    apply (f_equal (filterb (λ c, negb (N.eqb c cComma)))) in He.
    rewrite (readingQuantity_nocomma v1 d1) in He by done. by destruct (decimalText_not_nil d1).
  - split; intros He.
    + apply (f_equal (filterb (λ c, negb (N.eqb c cComma)))) in He.
      rewrite (readingQuantity_nocomma v1 d1), (readingQuantity_nocomma v2 d2) in He by done.
      by apply text_sameQuantity.
    + unfold readingQuantity. rewrite H1, H2, !(proj2 (Z.eqb_neq _ 0)) by done.
      by rewrite (sameQuantity_text d1 d2).
Qed.
Lemma readingQuantity_canonical_witness :
  readingQuantity (Some (js "1500")) = readingQuantity (Some (js " +1.50e3 ")).
Proof.
  apply (readingQuantity_canonical _ _ (mkDecimal 1500 0) (mkDecimal 1500 0)); reflexivity.
Defined.

(** The tally compares exact quantities: with both readings supplied, the status is
    tallies, above or below exactly as the measured quantity equals, exceeds or falls short
    of the declared one, compared as integers at a common scale. *)
Theorem tallyResult_exact m d a b (Hm : decimal m = Some a) (Hd : decimal d = Some b) :
  let P := Z.max (places a) (places b) in
  tally_status (tallyResult m d) =
    match atScale P a ?= atScale P b with Eq => tallies | Gt => above | Lt => below end.
Proof.
  cbv zeta. destruct (decimal_nonneg _ _ Hm) as [Da Pa], (decimal_nonneg _ _ Hd) as [Db Pb].
  unfold tallyResult, quantityDifference. rewrite Hm, Hd. fold (atScale (Z.max (places a) (places b)) a).
  fold (atScale (Z.max (places a) (places b)) b).
  set (P := Z.max _ _). assert (0 <= P) by lia.
  destruct (Z.compare_spec (atScale P a) (atScale P b)) as [He|Hlt|Hgt].
  - rewrite He, Z.sub_diag. simpl app. rewrite (proj2 (decimalText_0 0 P ltac:(lia) ltac:(lia)) eq_refl).
    by rewrite streq_refl.
  - rewrite (proj2 (Z.ltb_ge _ _)) by lia. rewrite decimalText_neg by lia. done.
  - rewrite (proj2 (Z.ltb_lt _ _)) by lia. done.
Qed.
Lemma tallyResult_exact_witness :
  tally_status (tallyResult (Some (js "12450.500000000000000001")) (Some (js "12450.5"))) = above.
Proof.
  rewrite (tallyResult_exact _ _ (mkDecimal 12450500000000000000001 18) (mkDecimal 124505 1));
    reflexivity.
Defined.

(** The printed difference loses nothing: read back as a reading it is the exact
    distance between the measured and the declared quantity, and its sign says which way. *)
Theorem quantityDifference_exact m d a b t (Hm : decimal m = Some a) (Hd : decimal d = Some b)
    (Ht : quantityDifference m d = Some t) (Hlen : (length t ≤ 200)%nat) :
  let P := Z.max (places a) (places b) in
  (startsWith (js "-") t = false ∧
     ∃ r, decimal (Some t) = Some r ∧ places r <= P ∧ atScale P b + atScale P r = atScale P a)
  ∨ (∃ t' r, t = cMinus :: t' ∧ decimal (Some t') = Some r ∧ places r <= P ∧
       atScale P a + atScale P r = atScale P b ∧ 0 < atScale P r).
Proof.
  cbv zeta. destruct (decimal_nonneg _ _ Hm) as [Da Pa], (decimal_nonneg _ _ Hd) as [Db Pb].
  revert Ht. unfold quantityDifference. rewrite Hm, Hd.
  fold (atScale (Z.max (places a) (places b)) a). fold (atScale (Z.max (places a) (places b)) b).
  set (P := Z.max _ _). assert (0 <= P) by lia. set (D := atScale P a - atScale P b).
  intros [= <-]. destruct (Z.ltb_spec 0 D) as [Hpos|Hneg].
  - left. split; [done|].
    destruct (decimal_decimalText true D P ltac:(lia) ltac:(lia) Hlen) as (r & Hr & Hv & Hp).
    exists r. split; [done|]. split; [done|]. unfold atScale at 2. lia.
  - destruct (Z.eq_dec D 0) as [Hz|Hz].
    + left. rewrite Hz in *.
      destruct (decimalText_head 0 P ltac:(lia) ltac:(lia)) as (c & rest & Hc & Hdig).
      destruct (decimal_decimalText false 0 P ltac:(lia) ltac:(lia) Hlen) as (r & Hr & Hv & Hp).
      simpl app in *. split.
      * rewrite Hc. change (N.eqb 45 c && true = false). rewrite andb_true_r. apply N.eqb_neq.
        unfold isDigit in Hdig. bool_hyps. lia.
      * exists r. split; [done|]. split; [done|]. unfold atScale at 2. lia.
    + right. simpl app in *. rewrite decimalText_neg in * by lia.
      destruct (decimal_decimalText false (- D) P ltac:(lia) ltac:(lia)) as (r & Hr & Hv & Hp).
      { simpl in *. lia. }
      exists (decimalText (- D) P), r. repeat split; try done; unfold atScale at 2 || unfold atScale; lia.
Qed.
Lemma quantityDifference_exact_witness :
  ∃ r, decimal (Some (js "+0.25")) = Some r ∧ atScale 2 (mkDecimal 105 1) + atScale 2 r = 1075.
Proof.
  destruct (quantityDifference_exact (Some (js "10.75")) (Some (js "10.5")) (mkDecimal 1075 2)
    (mkDecimal 105 1) (js "+0.25") eq_refl eq_refl eq_refl) as [(_ & r & Hr & _ & He)|(t' & r & Ht & _)].
  - simpl. lia.
  - exists r. split; [exact Hr|exact He].
  - discriminate Ht.
Defined.
