(* ===== verification/Cargo.v ===== *)
(** * Cargo templates and variation tariffs

    frontend/src/measurements/cargoTemplates.ts and the pure part of tariffs.ts: the
    lines a new voyage starts from, and the tariff row each cargo line is charged by. *)
From S2P Require Import Prelude JsString Json Codec MeasurementTypes.

(** ** Cargo templates *)

Inductive CargoTemplateType := Containers | Bulk | Tanker | GeneralCargo | Vehicles | Mixed.
Definition CARGO_TYPES : list CargoTemplateType :=
  [Containers; Bulk; Tanker; GeneralCargo; Vehicles; Mixed].
Definition cargoType_lit (t : CargoTemplateType) : str :=
  match t with
  | Containers => js "Containers" | Bulk => js "Bulk" | Tanker => js "Tanker"
  | GeneralCargo => js "General cargo" | Vehicles => js "Vehicles" | Mixed => js "Mixed"
  end.
Definition CARGO_CATEGORIES : list str :=
  [js "Container"; js "Bulk"; js "Liquid"; js "General cargo"; js "Vehicle"].
Definition AGENCY_ROLES : list (str * str) :=
  [(js "Agent", js "Agent"); (js "Terminal operator", js "Ops / Terminal");
   (js "Master", js "Master"); (js "Surveyor", js "Surveyor"); (js "Tally clerk", js "Tally clerk")].
Definition UNIT_LABELS (u : QuantityUnit) : str :=
  match u with count => js "Count" | tonnes => js "Tonnes" | m3 => js "Cubic metres (m³)" end.

Definition categoryFor (type : CargoTemplateType) : str :=
  match type with
  | Containers => js "Container"
  | Tanker => js "Liquid"
  | Vehicles => js "Vehicle"
  | Mixed => js "Bulk"
  | t => cargoType_lit t
  end.

Definition unitsFor (category : str) : list QuantityUnit :=
  if streq category (js "Container") || streq category (js "Vehicle") then [count]
  else if streq category (js "Liquid") || streq category (js "Bulk") then [tonnes; m3]
  else [tonnes; count; m3].

Definition basisFor (category : str) (unit : QuantityUnit) : str :=
  match unit with
  | m3 => js "Volume in cubic metres"
  | tonnes => js "Net metric tonnes"
  | count => if streq category (js "Container") then js "Physical container count"
             else if streq category (js "Vehicle") then js "Physical vehicle count"
             else js "Physical item count"
  end.

(** [unitsFor(category)[0]]: the list is never empty. *)
Definition firstUnit (category : str) : QuantityUnit :=
  match unitsFor category with u :: _ => u | [] => tonnes end.

Definition cargoLine (category : str) : CargoLineInput :=
  let unit := firstUnit category in
  {| description := []; category := category; direction := js "import"; unit_ := unit;
     basis := basisFor category unit; containerSize := []; loadStatus := [];
     manifestQuantity := None; baselineReference := [] |}.

Definition withDescription (d : str) (l : CargoLineInput) : CargoLineInput :=
  {| description := d; category := category l; direction := direction l;
     containerSize := containerSize l; loadStatus := loadStatus l; unit_ := unit_ l;
     basis := basis l; manifestQuantity := manifestQuantity l;
     baselineReference := baselineReference l |}.
Definition containerLine (size load : str) : CargoLineInput :=
  let l := cargoLine (js "Container") in
  {| description := size ++ js " ft " ++ load ++ js " containers"; category := category l;
     direction := direction l; containerSize := size; loadStatus := load; unit_ := unit_ l;
     basis := basis l; manifestQuantity := manifestQuantity l;
     baselineReference := baselineReference l |}.

Definition templateLines (type : CargoTemplateType) : list CargoLineInput :=
  match type with
  | Containers =>
      flat_map (λ size, map (containerLine size) [js "laden"; js "empty"])
        [js "20"; js "40"; js "45"]
  | Vehicles =>
      map (λ d, withDescription d (cargoLine (js "Vehicle")))
        [js "Cars"; js "Buses"; js "Trucks"; js "Mafi Trailer / HDV"; js "Motorcycles";
         js "Other vehicles"]
  | t => [cargoLine (categoryFor t)]
  end.

Definition defaultMethod (type : CargoTemplateType) : str :=
  match type with
  | Containers => js "Physical container tally"
  | Tanker => js "Product measurement"
  | Vehicles => js "Vehicle tally"
  | Bulk => js "Draft survey"
  | Mixed => js "Cargo survey and tally"
  | GeneralCargo => js "Physical cargo tally"
  end.

(** ** Tariff rows *)

Record TariffRateDefinition := mkRate {
  rate_key : str; rate_group : str; rate_label : str; rate_unit : QuantityUnit; rate_per : str }.
Definition TARIFF_RATES : list TariffRateDefinition := [
  mkRate (js "container:20:laden") (js "Containers") (js "20 ft laden") count (js "Per container");
  mkRate (js "container:20:empty") (js "Containers") (js "20 ft empty") count (js "Per container");
  mkRate (js "container:40:laden") (js "Containers") (js "40 ft laden") count (js "Per container");
  mkRate (js "container:40:empty") (js "Containers") (js "40 ft empty") count (js "Per container");
  mkRate (js "container:45:laden") (js "Containers") (js "45 ft laden") count (js "Per container");
  mkRate (js "container:45:empty") (js "Containers") (js "45 ft empty") count (js "Per container");
  mkRate (js "liquid:tonnes") (js "Tanker / liquid") (js "By weight") tonnes (js "Per tonne");
  mkRate (js "liquid:m3") (js "Tanker / liquid") (js "By volume") m3 (js "Per m³");
  mkRate (js "bulk:tonnes") (js "Dry bulk") (js "By weight") tonnes (js "Per tonne");
  mkRate (js "bulk:m3") (js "Dry bulk") (js "By volume") m3 (js "Per m³");
  mkRate (js "general:tonnes") (js "General cargo") (js "By weight") tonnes (js "Per tonne");
  mkRate (js "general:count") (js "General cargo") (js "By item") count (js "Per item");
  mkRate (js "general:m3") (js "General cargo") (js "By volume") m3 (js "Per m³");
  mkRate (js "vehicle:count") (js "Vehicles") (js "Vehicles") count (js "Per vehicle")].

Definition tariffKeyFor (line : CargoLineInput) : option str :=
  let c := category line in
  if streq c (js "Container") then
    (if truthy (containerSize line) && truthy (loadStatus line)
     then Some (js "container:" ++ containerSize line ++ js ":" ++ loadStatus line) else None)
  else if streq c (js "Liquid") then Some (js "liquid:" ++ unit_lit (unit_ line))
  else if streq c (js "Bulk") then Some (js "bulk:" ++ unit_lit (unit_ line))
  else if streq c (js "General cargo") then Some (js "general:" ++ unit_lit (unit_ line))
  else if streq c (js "Vehicle") then Some (js "vehicle:count")
  else None.

(** [/word/i.test(s)] for an ASCII word: a case-insensitive substring. *)
Definition foldCase (c : N) : N := if ((65 <=? c) && (c <=? 90))%N then (c + 32)%N else c.
Fixpoint containsWord (word s : str) : bool :=
  startsWith word (map foldCase s) || match s with [] => false | _ :: r => containsWord word r end.

Definition perUnitLabel (unit : QuantityUnit) (description : str) : str :=
  match unit with
  | tonnes => js "per tonne"
  | m3 => js "per m³"
  | count => if containsWord (js "container") description then js "per container"
             else if containsWord (js "vehicle") description then js "per vehicle"
             else js "per item"
  end.

(** [/^\d{1,11}(?:\.\d{1,4})?$/] on the trimmed text. *)
Definition boundedDigits (n : nat) (s : str) : bool := digits1 s && (length s <=? n)%nat.
Definition validRate (value : str) : bool :=
  match split cDot (trim value) with
  | [w] => boundedDigits 11 w
  | [w; f] => boundedDigits 11 w && boundedDigits 4 f
  | _ => false
  end.

(** ** Properties *)

(** Every line a template starts with is consistent: its unit is one its category allows,
    its basis is the one for that category and unit, and the tariff has exactly one row for it,
    priced in that unit. *)
Theorem templateLines_consistent (type : CargoTemplateType) (line : CargoLineInput)
    (Hline : line ∈ templateLines type) :
  unit_ line ∈ unitsFor (category line) ∧
  basis line = basisFor (category line) (unit_ line) ∧
  category line ∈ CARGO_CATEGORIES ∧
  ∃ r, filterb (λ r, bool_decide (Some (rate_key r) = tariffKeyFor line)) TARIFF_RATES = [r] ∧
       rate_unit r = unit_ line.
Proof.
  destruct type; unfold templateLines in Hline; simpl in Hline;
    repeat (apply elem_of_cons in Hline as [->|Hline]); try (by apply elem_of_nil in Hline);
    (split; [vm_compute; set_solver|split; [vm_compute; reflexivity|split; [vm_compute; set_solver|]]]);
    eexists; (split; [vm_compute; reflexivity|reflexivity]).
Qed.
Lemma templateLines_consistent_witness :
  ∃ r, filterb (λ r, bool_decide (Some (rate_key r) = tariffKeyFor (containerLine (js "45") (js "empty"))))
    TARIFF_RATES = [r] ∧ rate_unit r = count.
Proof.
  destruct (templateLines_consistent Containers (containerLine (js "45") (js "empty")))
    as (_ & _ & _ & r & H1 & H2).
  - vm_compute. set_solver.
  - exists r. split; [exact H1|exact H2].
Defined.
