(* ===== verification/Uri.v ===== *)
(** * [encodeURIComponent] and [decodeURIComponent]

    Paths, query values and browser-storage keys are built with it.  A lone surrogate,
    on which the host function throws, is encoded by its own three bytes here, so the
    function stays total; no API identifier holds one. *)
From S2P Require Import Prelude JsString Json.

(** ** Code points and UTF-8 *)

Fixpoint codePoints (s : str) : list N :=
  match s with
  | [] => []
  | c :: r =>
    if isLead c then
      match r with
      | d :: r' => if isTrail d
                   then ((c - 55296) * 1024 + (d - 56320) + 65536)%N :: codePoints r'
                   else c :: codePoints r
      | [] => [c]
      end
    else c :: codePoints r
  end.

Definition utf8 (p : N) : list N :=
  (if p <? 128 then [p]
   else if p <? 2048 then [192 + p / 64; 128 + p mod 64]
   else if p <? 65536 then [224 + p / 4096; 128 + (p / 64) mod 64; 128 + p mod 64]
   else [240 + p / 262144; 128 + (p / 4096) mod 64; 128 + (p / 64) mod 64; 128 + p mod 64])%N.

(** Letters, digits and [- _ . ! ~ * ' ( )]. *)
Definition isUnreserved (c : N) : bool :=
  (isDigit c || isAlphaAscii c || (c =? 45) || (c =? 95) || (c =? 46) || (c =? 33)
   || (c =? 126) || (c =? 42) || (c =? 39) || (c =? 40) || (c =? 41))%N.
Definition hexUpper (n : N) : N := (if n <? 10 then n + 48 else n + 55)%N.
Definition encodeByte (b : N) : str :=
  if isUnreserved b then [b] else [37%N; hexUpper (b / 16); hexUpper (b mod 16)].
Definition encodeURIComponent (s : str) : str := flat_map encodeByte (flat_map utf8 (codePoints s)).

Example encode_ex : encodeURIComponent (js "a/b c&é") = js "a%2Fb%20c%26%C3%A9".
Proof. reflexivity. Qed.

(** ** Lemmas: only safe characters *)

Definition isSafe (c : N) : bool := isUnreserved c || N.eqb c 37.
Lemma encode_safe s c : c ∈ encodeURIComponent s → isUnreserved c = true ∨ c = 37%N ∨
  (48 <= c <= 57)%N ∨ (65 <= c)%N.
Proof.
  unfold encodeURIComponent. generalize (flat_map utf8 (codePoints s)) as bs.
  induction bs as [|b bs IH]; simpl; [by intros ?%elem_of_nil|].
  intros [Hc|Hc]%elem_of_app; [|auto]. unfold encodeByte in Hc.
  destruct (isUnreserved b) eqn:E; [left; apply list_elem_of_singleton in Hc; by subst|].
  right. assert (Hh : ∀ n, (48 <= hexUpper n <= 57)%N ∨ (65 <= hexUpper n)%N)
    by (intros n; unfold hexUpper; destruct (N.ltb_spec n 10); lia).
  repeat (apply elem_of_cons in Hc as [->|Hc]; [auto|]). by apply elem_of_nil in Hc.
Qed.

(** No character of an encoded value ends a path segment, a query or a key-value pair. *)
Lemma encode_no_delimiter s c : c ∈ js "/?#&=:% " → c ≠ 37%N → c ∉ encodeURIComponent s.
Proof.
  intros Hc Hp He. apply encode_safe in He as [He|[?|He]].
  - vm_compute in Hc. repeat (apply elem_of_cons in Hc as [->|Hc]; [done|]). by apply elem_of_nil in Hc.
  - done.
  - vm_compute in Hc. set_unfold in Hc. destruct_or?; subst; lia.
Qed.

(** ** Lemmas: decoding, as a left inverse *)

Fixpoint unpct (s : str) : list N :=
  match s with
  | [] => []
  | 37%N :: h :: l :: r => match hexVal h, hexVal l with
                           | Some a, Some b => (a * 16 + b)%N :: unpct r
                           | _, _ => []
                           end
  | c :: r => c :: unpct r
  end.

Lemma hexVal_hexUpper n : (n < 16)%N → hexVal (hexUpper n) = Some n.
Proof.
  intros Hn. unfold hexVal, hexUpper. destruct (N.ltb_spec n 10).
  - rewrite (proj2 (andb_true_iff _ _)) by (rewrite !N.leb_le; lia). f_equal. lia.
  - rewrite (proj2 (andb_false_iff _ _)) by (rewrite !N.leb_gt; lia).
    rewrite (proj2 (andb_false_iff _ _)) by (rewrite !N.leb_gt; lia).
    rewrite (proj2 (andb_true_iff _ _)) by (rewrite !N.leb_le; lia). f_equal. lia.
Qed.

Lemma unpct_encodeByte b s : (b < 256)%N → unpct (encodeByte b ++ s) = b :: unpct s.
Proof.
  intros Hb. unfold encodeByte. destruct (isUnreserved b) eqn:E.
  - simpl. destruct (decide (b = 37%N)) as [->|Hne]; [done|].
    destruct b as [|p]; [done|]. repeat (destruct p as [p|p|]; try done).
  - cbn [app unpct]. rewrite !hexVal_hexUpper
      by (apply N.mod_lt || apply N.Div0.div_lt_upper_bound; lia).
    f_equal. lia.
Qed.

Lemma unpct_encode bs : Forall (λ b, (b < 256)%N) bs → unpct (flat_map encodeByte bs) = bs.
Proof.
  induction 1 as [|b bs Hb _ IH]; [done|]. simpl. rewrite unpct_encodeByte by done. by rewrite IH.
Qed.

Definition utf8_head (bs : list N) : option (N * list N) :=
  match bs with
  | [] => None
  | a :: r =>
    if (a <? 128)%N then Some (a, r) else
    match r with
    | b :: r =>
      if (a <? 224)%N then Some (((a - 192) * 64 + (b - 128))%N, r) else
      match r with
      | c :: r =>
        if (a <? 240)%N then Some (((a - 224) * 4096 + (b - 128) * 64 + (c - 128))%N, r) else
        match r with
        | d :: r => Some (((a - 240) * 262144 + (b - 128) * 4096 + (c - 128) * 64 + (d - 128))%N, r)
        | [] => None
        end
      | [] => None
      end
    | [] => None
    end
  end.

Lemma utf8_head_spec p s : (p < 1114112)%N → utf8_head (utf8 p ++ s) = Some (p, s).
Proof.
  intros Hp. unfold utf8.
  destruct (N.ltb_spec p 128); [simpl; by rewrite (proj2 (N.ltb_lt _ _)) by lia|].
  destruct (N.ltb_spec p 2048); [|destruct (N.ltb_spec p 65536)]; cbn [app utf8_head];
    repeat (rewrite (proj2 (N.ltb_ge _ _)) by lia); repeat (rewrite (proj2 (N.ltb_lt _ _)) by lia);
    do 2 f_equal; lia.
Qed.

Lemma utf8_bytes p : (p < 1114112)%N → Forall (λ b, (b < 256)%N) (utf8 p).
Proof.
  intros Hp. unfold utf8. destruct (N.ltb_spec p 128); [repeat constructor; lia|].
  destruct (N.ltb_spec p 2048); [|destruct (N.ltb_spec p 65536)]; repeat constructor; lia.
Qed.

Lemma utf8_inj ps qs : Forall (λ p, (p < 1114112)%N) ps → Forall (λ p, (p < 1114112)%N) qs →
  flat_map utf8 ps = flat_map utf8 qs → ps = qs.
Proof.
  intros Hps. revert qs. induction Hps as [|p ps Hp _ IH]; intros qs Hqs He.
  - destruct Hqs as [|q qs Hq _]; [done|]. simpl in He. apply (f_equal utf8_head) in He.
    by rewrite utf8_head_spec in He.
  - destruct Hqs as [|q qs Hq Hqs]; simpl in He; apply (f_equal utf8_head) in He;
      rewrite !utf8_head_spec in He by done; [done|].
    injection He as -> He. f_equal. by apply IH.
Qed.

Definition units (s : str) : Prop := Forall (λ c, (c < 65536)%N) s.

Definition utf16 (p : N) : str :=
  if (p <? 65536)%N then [p] else [55296 + (p - 65536) / 1024; 56320 + (p - 65536) mod 1024]%N.

Lemma utf16_codePoints s : units s →
  flat_map utf16 (codePoints s) = s ∧ Forall (λ p, (p < 1114112)%N) (codePoints s).
Proof.
  remember (length s) as n eqn:Hn. revert s Hn.
  induction n as [n IH] using lt_wf_ind; intros s -> Hu.
  destruct s as [|c s]; [by split|]. apply Forall_cons in Hu as [Hc Hu].
  destruct (IH (length s) ltac:(simpl; lia) s eq_refl Hu) as [He Hf].
  assert (Hone : utf16 c = [c]) by (unfold utf16; by rewrite (proj2 (N.ltb_lt _ _)) by lia).
  assert (Hsingle : flat_map utf16 (c :: codePoints s) = c :: s ∧
    Forall (λ p, (p < 1114112)%N) (c :: codePoints s)).
  { split; [simpl; by rewrite Hone, He|]. constructor; [lia|done]. }
  cbn [codePoints]. destruct (isLead c) eqn:Hl; [|done].
  destruct s as [|d s]; [simpl in *; by rewrite Hone; split; [|constructor; [lia|]]|].
  destruct (isTrail d) eqn:Ht; [|done].
  apply isLead_range in Hl. apply isTrail_range in Ht. apply Forall_cons in Hu as [_ Hu].
  destruct (IH (length s) ltac:(simpl; lia) s eq_refl Hu) as [He' Hf'].
  set (p := ((c - 55296) * 1024 + (d - 56320) + 65536)%N).
  assert (Hp : utf16 p = [c; d]).
  { unfold utf16, p. rewrite (proj2 (N.ltb_ge _ _)) by lia. repeat f_equal; lia. }
  split; [cbn [flat_map]; by rewrite Hp, He'|]. constructor; [unfold p; lia|done].
Qed.

Lemma encodeURIComponent_inj s t : units s → units t →
  encodeURIComponent s = encodeURIComponent t → s = t.
Proof.
  intros Hs Ht He. destruct (utf16_codePoints s Hs) as [Es Fs], (utf16_codePoints t Ht) as [Et Ft].
  assert (Hb : ∀ ps, Forall (λ p, (p < 1114112)%N) ps → Forall (λ b, (b < 256)%N) (flat_map utf8 ps)).
  { induction 1 as [|p ps Hp _ IH]; simpl; [constructor|]. apply Forall_app. by split; [apply utf8_bytes|]. }
  apply (f_equal unpct) in He. unfold encodeURIComponent in He. rewrite !unpct_encode in He by auto.
  apply utf8_inj in He; [|done..]. by rewrite <- Es, <- Et, He.
Qed.

(** ** [decodeURIComponent]: [None] where it throws *)

Definition pctByte (s : str) : option (N * str) :=
  match s with
  | c :: h :: l :: r =>
    if N.eqb c 37 then a ← hexVal h; b ← hexVal l; Some ((a * 16 + b)%N, r) else None
  | _ => None
  end.
Fixpoint continuation (k : nat) (acc : N) (s : str) : option (N * str) :=
  match k with
  | O => Some (acc, s)
  | S k => '(b, r) ← pctByte s;
           if ((128 <=? b) && (b <? 192))%N then continuation k (acc * 64 + (b - 128))%N r else None
  end.
Definition decodeMulti (b : N) (r : str) : option (N * str) :=
  if ((192 <=? b) && (b <? 224))%N then
    '(p, r) ← continuation 1 (b - 192)%N r; if (p <? 128)%N then None else Some (p, r)
  else if ((224 <=? b) && (b <? 240))%N then
    '(p, r) ← continuation 2 (b - 224)%N r;
    if (p <? 2048)%N || isLead p || isTrail p then None else Some (p, r)
  else if ((240 <=? b) && (b <? 248))%N then
    '(p, r) ← continuation 3 (b - 240)%N r;
    if ((p <? 65536) || (1114112 <=? p))%N then None else Some (p, r)
  else None.
Fixpoint decodeGo (fuel : nat) (s : str) : option str :=
  match fuel, s with
  | _, [] => Some []
  | O, _ => None
  | S f, c :: r =>
    if negb (N.eqb c 37) then cons c <$> decodeGo f r else
    '(b, r) ← pctByte s;
    if (b <? 128)%N then cons b <$> decodeGo f r else
    '(p, r) ← decodeMulti b r; app (utf16 p) <$> decodeGo f r
  end.
Definition decodeURIComponent (s : str) : option str := decodeGo (length s) s.

Example decode_ex : decodeURIComponent (js "a%2Fb%20%C3%A9") = Some (js "a/b é")
  ∧ decodeURIComponent (js "%") = None ∧ decodeURIComponent (js "%FF") = None.
Proof. repeat split; reflexivity. Qed.

(** ** Lemmas: what is encoded decodes *)

Lemma unreserved_ascii b : isUnreserved b = true → (b < 128)%N ∧ b ≠ 37%N.
Proof.
  unfold isUnreserved, isDigit, isAlphaAscii. rewrite !orb_true_iff, !andb_true_iff, !N.leb_le, !N.eqb_eq. lia.
Qed.
Lemma pctByte_encode b s : (b < 256)%N → isUnreserved b = false → pctByte (encodeByte b ++ s) = Some (b, s).
Proof.
  intros Hb Hu. unfold encodeByte. rewrite Hu. cbn [app pctByte]. rewrite N.eqb_refl, !hexVal_hexUpper
    by (apply N.mod_lt || apply N.Div0.div_lt_upper_bound; lia). cbn. do 2 f_equal. lia.
Qed.
Lemma high_reserved b : (128 <= b)%N → isUnreserved b = false.
Proof. intros Hb. destruct (isUnreserved b) eqn:E; [apply unreserved_ascii in E; lia|done]. Qed.
Lemma continuation_encode k acc b s : (128 <= b < 192)%N →
  continuation (S k) acc (encodeByte b ++ s) = continuation k (acc * 64 + (b - 128))%N s.
Proof.
  intros Hb. cbn [continuation]. rewrite pctByte_encode by (lia || apply high_reserved; lia). cbn.
  by rewrite (proj2 (N.leb_le _ _)), (proj2 (N.ltb_lt _ _)) by lia.
Qed.

(** A code point that UTF-8 can write: no surrogate. *)
Definition scalar (p : N) : Prop := (p < 1114112)%N ∧ isLead p = false ∧ isTrail p = false.
(** The first byte and what follows it, of a code point beyond ASCII. *)
Lemma decodeMulti_utf8 p s : scalar p → (128 <= p)%N → ∃ b bs, utf8 p = b :: bs ∧ (128 <= b < 256)%N ∧
  decodeMulti b (flat_map encodeByte bs ++ s) = Some (p, s).
Proof.
  intros (Hp & Hl & Ht) H1. unfold utf8. rewrite (proj2 (N.ltb_ge _ _)) by lia. unfold decodeMulti.
  destruct (N.ltb_spec p 2048); [|destruct (N.ltb_spec p 65536)]; eexists _, _; (split; [reflexivity|]);
    (split; [lia|]); cbn [flat_map]; rewrite ?app_nil_r, <- ?app_assoc.
  - rewrite (proj2 (N.leb_le _ _)), (proj2 (N.ltb_lt _ _)) by lia. cbn [andb].
    rewrite continuation_encode by lia. cbn. rewrite (proj2 (N.ltb_ge _ _)) by lia. do 2 f_equal. lia.
  - rewrite (proj2 (N.leb_le 192 _)), (proj2 (N.ltb_ge _ 224)) by lia. cbn [andb].
    rewrite (proj2 (N.leb_le 224 _)), (proj2 (N.ltb_lt _ 240)) by lia. cbn [andb].
    rewrite !continuation_encode by lia. cbn [continuation mbind option_bind].
    assert (He : ((((224 + p / 4096 - 224) * 64 + (128 + (p / 64) mod 64 - 128)) * 64 + (128 + p mod 64 - 128)) = p)%N) by lia.
    rewrite He, Hl, Ht, (proj2 (N.ltb_ge p 2048)) by lia. done.
  - rewrite (proj2 (N.leb_le 192 _)), (proj2 (N.ltb_ge _ 224)) by lia. cbn [andb].
    rewrite (proj2 (N.leb_le 224 _)), (proj2 (N.ltb_ge _ 240)) by lia. cbn [andb].
    rewrite (proj2 (N.leb_le 240 _)), (proj2 (N.ltb_lt _ 248)) by lia. cbn [andb].
    rewrite !continuation_encode by lia. cbn [continuation mbind option_bind].
    assert (He : (((((240 + p / 262144 - 240) * 64 + (128 + (p / 4096) mod 64 - 128)) * 64 + (128 + (p / 64) mod 64 - 128)) * 64
      + (128 + p mod 64 - 128)) = p)%N) by lia.
    rewrite He, (proj2 (N.ltb_ge p 65536)), (proj2 (N.leb_gt 1114112 p)) by lia. done.
Qed.
Lemma encodeByte_length b : (1 ≤ length (encodeByte b))%nat.
Proof. unfold encodeByte. destruct (isUnreserved b); simpl; lia. Qed.
Lemma decodeGo_point fuel p s : scalar p → (length (flat_map encodeByte (utf8 p) ++ s) ≤ fuel)%nat →
  ∃ fuel', (length s ≤ fuel')%nat ∧ decodeGo fuel (flat_map encodeByte (utf8 p) ++ s) = app (utf16 p) <$> decodeGo fuel' s.
Proof.
  intros Hs Hf. destruct (N.ltb_spec p 128) as [Hp|Hp].
  - assert (Hu : utf8 p = [p]) by (unfold utf8; by rewrite (proj2 (N.ltb_lt _ _))).
    assert (H16 : utf16 p = [p]) by (unfold utf16; by rewrite (proj2 (N.ltb_lt _ _)) by lia).
    rewrite Hu, H16 in *. cbn [flat_map] in *. rewrite app_nil_r in *. rewrite length_app in Hf.
    pose proof (encodeByte_length p). destruct fuel as [|fuel]; [lia|]. exists fuel. split; [lia|].
    destruct (isUnreserved p) eqn:Eu.
    + unfold encodeByte. rewrite Eu. cbn [app decodeGo]. apply unreserved_ascii in Eu as [_ Hne]. by rewrite (proj2 (N.eqb_neq _ _)).
    + pose proof (pctByte_encode p s ltac:(lia) Eu) as Hb. unfold encodeByte in *. rewrite Eu in *. cbn [app decodeGo] in *.
      rewrite N.eqb_refl. cbn [negb]. rewrite Hb. cbn. by rewrite (proj2 (N.ltb_lt _ _)).
  - destruct (decodeMulti_utf8 p s Hs Hp) as (b & bs & Hu & Hb & Hd). rewrite Hu in *. cbn [flat_map] in *. rewrite <- app_assoc in *.
    rewrite !length_app in Hf. pose proof (encodeByte_length b). destruct fuel as [|fuel]; [lia|]. exists fuel. split; [lia|].
    pose proof (pctByte_encode b (flat_map encodeByte bs ++ s) ltac:(lia) (high_reserved b ltac:(lia))) as Hpc.
    unfold encodeByte at 1. unfold encodeByte at 1 in Hpc. rewrite (high_reserved b) in * by lia. cbn [app decodeGo].
    rewrite N.eqb_refl. cbn [negb]. cbn [app] in Hpc. rewrite Hpc. cbn [mbind option_bind].
    rewrite (proj2 (N.ltb_ge _ _)) by lia. rewrite Hd. done.
Qed.
(** Text without lone surrogates. *)
Definition wellFormedText (s : str) : Prop := units s ∧ Forall scalar (codePoints s).
(** What [encodeURIComponent] writes, [decodeURIComponent] reads back. *)
Lemma uri_round_trip s : wellFormedText s → decodeURIComponent (encodeURIComponent s) = Some s.
Proof.
  intros [Hu Hs]. destruct (utf16_codePoints s Hu) as [He _]. rewrite <- He at 2. clear He Hu.
  unfold encodeURIComponent, decodeURIComponent.
  assert (Hg : ∀ ps fuel, Forall scalar ps → (length (flat_map encodeByte (flat_map utf8 ps)) ≤ fuel)%nat →
    decodeGo fuel (flat_map encodeByte (flat_map utf8 ps)) = Some (flat_map utf16 ps)); [|by apply Hg].
  induction ps as [|p ps IH]; intros fuel Hf Hl; [by destruct fuel|]. apply Forall_cons in Hf as [Hp Hf].
  cbn [flat_map] in *. rewrite flat_map_app in *. destruct (decodeGo_point fuel p _ Hp Hl) as (fuel' & Hl' & ->).
  by rewrite IH.
Qed.
(** Text without a percent sign is read as it is. *)
Lemma decode_plain s : 37%N ∉ s → decodeURIComponent s = Some s.
Proof.
  intros Hs. unfold decodeURIComponent. induction s as [|c s IH]; [done|]. cbn [length decodeGo].
  apply not_elem_of_cons in Hs as [Hc Hs]. rewrite (proj2 (N.eqb_neq _ _)) by done. cbn [negb]. by rewrite IH.
Qed.
