(* ===== verification/Url.v ===== *)
(** * The path of an address, as the platform's URL parser resolves it

    What [new URL] and [fetch] make of the path of an address: the URL Standard's path state,
    with dot segments in every spelling removed, characters a path cannot show percent-encoded
    and nothing after a question mark or a number sign. *)
From S2P Require Import Prelude JsString Json Host Uri.

(** ** The parser *)

(** Tabs and line ends are dropped, control characters and blanks trimmed from the end. *)
Definition isTabOrNewline (c : N) : bool := (c =? 9)%N || (c =? 10)%N || (c =? 13)%N.
Fixpoint dropControls (s : str) : str := match s with c :: r => if (c <=? 32)%N then dropControls r else s | [] => [] end.
Definition cleanUrl (s : str) : str := filterb (λ c, negb (isTabOrNewline c)) (rev (dropControls (rev s))).
(** The code points that a path writes percent-encoded; a lone surrogate is U+FFFD. *)
Definition pathEncoded (p : N) : bool :=
  (p <=? 32)%N || (126 <? p)%N || bool_decide (p ∈ map N.of_nat [34; 35; 60; 62; 63; 94; 96; 123; 125]%nat).
Definition scalarValue (p : N) : N := if isLead p || isTrail p then 65533%N else p.
Definition percentByte (b : N) : str := [37%N; hexUpper (b / 16 mod 16); hexUpper (b mod 16)].
Definition encodePoint (p : N) : str := if pathEncoded p then flat_map percentByte (utf8 p) else [p].
Definition encodeSegment (buffer : str) : str := flat_map encodePoint (map scalarValue (codePoints buffer)).
Definition lowered (s : str) : str := map asciiLower s.
Definition singleDot (s : str) : bool := bool_decide (lowered s ∈ map js ["."; "%2e"]%string).
Definition doubleDot (s : str) : bool := bool_decide (lowered s ∈ map js [".."; ".%2e"; "%2e."; "%2e%2e"]%string).
(** The end of a segment; [final] at the end of the path. *)
Definition closeSegment (final : bool) (path : list str) (buffer : str) : list str :=
  let segment := encodeSegment buffer in
  if doubleDot segment then (if final then removelast path ++ [[]] else removelast path)
  else if singleDot segment then (if final then path ++ [[]] else path)
  else path ++ [segment].
Definition isSlash (c : N) : bool := (c =? cSlash)%N || (c =? cBackslash)%N.
Fixpoint parsePath (path : list str) (buffer : str) (s : str) : list str :=
  match s with
  | [] => closeSegment true path buffer
  | c :: r => if (c =? 63)%N || (c =? 35)%N then closeSegment true path buffer
              else if isSlash c then parsePath (closeSegment false path buffer) [] r
              else parsePath path (buffer ++ [c]) r
  end.
Definition printPath (path : list str) : str := flat_map (λ segment, cSlash :: segment) path.

(** ** Lemmas: what a parsed path holds *)

(** A segment of a parsed path: no dots in any spelling, and nothing that ends a segment. *)
Definition plainSegment (s : str) : Prop := singleDot s = false ∧ doubleDot s = false ∧ Forall (λ c, c ∉ [47; 92; 63; 35]%N) s.

Ltac notin := let H := fresh in intros H; repeat (apply elem_of_cons in H as [H|H]; [lia|]); by apply elem_of_nil in H.
Lemma hexUpper_plain n : hexUpper (n mod 16) ∉ [47; 92; 63; 35]%N.
Proof. unfold hexUpper. destruct (N.ltb_spec (n mod 16) 10); notin. Qed.
Lemma percentByte_plain b : Forall (λ c, c ∉ [47; 92; 63; 35]%N) (percentByte b).
Proof. unfold percentByte. repeat apply Forall_cons_2; [notin|apply hexUpper_plain..|apply Forall_nil_2]. Qed.
Lemma codePoints_units s p : p ∈ codePoints s → p ∈ s ∨ (65536 <= p)%N.
Proof.
  remember (length s) as n eqn:Hn. assert (Hl : (length s ≤ n)%nat) by lia. clear Hn. revert s Hl.
  induction n as [|n IH]; intros [|c r] Hl; cbn in Hl; [set_solver|lia|set_solver|]. cbn [codePoints].
  destruct (isLead c) eqn:Ec; [destruct r as [|d r]; [set_solver|destruct (isTrail d) eqn:Ed]|].
  - rewrite elem_of_cons. intros [->|Hp]; [right; unfold isLead, isTrail in *; lia|]. apply IH in Hp; [|cbn in Hl; lia]. set_solver.
  - rewrite elem_of_cons. intros [->|Hp]; [set_solver|]. apply IH in Hp; [|lia]. set_solver.
  - rewrite elem_of_cons. intros [->|Hp]; [set_solver|]. apply IH in Hp; [|lia]. set_solver.
Qed.
Lemma encodeSegment_plain buffer : Forall (λ c, isSlash c = false) buffer → Forall (λ c, c ∉ [47; 92; 63; 35]%N) (encodeSegment buffer).
Proof.
  intros Hb. unfold encodeSegment. apply Forall_forall. intros c Hc%list_elem_of_In.
  apply in_flat_map in Hc as (p & Hp%list_elem_of_In & Hc). unfold encodePoint in Hc. destruct (pathEncoded p) eqn:Ep.
  - apply in_flat_map in Hc as (b & _ & Hc%list_elem_of_In). pose proof (percentByte_plain b) as Hf. rewrite Forall_forall in Hf. by apply Hf.
  - destruct Hc as [<-|[]]. apply list_elem_of_fmap in Hp as (q & -> & Hq). unfold scalarValue in *.
    destruct (isLead q || isTrail q); [by vm_compute in Ep|]. intros Hin. apply codePoints_units in Hq as [Hq|Hq].
    + rewrite Forall_forall in Hb. specialize (Hb _ Hq). unfold isSlash, cSlash, cBackslash in Hb.
      repeat (apply elem_of_cons in Hin as [->|Hin]; [by vm_compute in Hb, Ep|]). by apply elem_of_nil in Hin.
    + revert Hin. notin.
Qed.
Lemma removelast_Forall {A} (P : A → Prop) l : Forall P l → Forall P (removelast l).
Proof. intros Hl. induction Hl as [|x l Hx Hl IH]; [apply Forall_nil_2|]. destruct l; [apply Forall_nil_2|by apply Forall_cons_2]. Qed.
Lemma closeSegment_plain final path buffer : Forall (λ c, isSlash c = false) buffer → Forall plainSegment path →
  Forall plainSegment (closeSegment final path buffer).
Proof.
  intros Hb Hp. assert (He : plainSegment []) by (repeat split; apply Forall_nil_2).
  unfold closeSegment. destruct (doubleDot _) eqn:Ed; [|destruct (singleDot _) eqn:Es].
  - destruct final; [apply Forall_app; split; [|by apply Forall_singleton]|]; by apply removelast_Forall.
  - destruct final; [apply Forall_app; split; [|by apply Forall_singleton]|]; done.
  - apply Forall_app. split; [done|]. apply Forall_singleton. split; [done|]. split; [done|]. by apply encodeSegment_plain.
Qed.
Lemma parsePath_plain s path buffer : Forall (λ c, isSlash c = false) buffer → Forall plainSegment path →
  Forall plainSegment (parsePath path buffer s).
Proof.
  revert path buffer. induction s as [|c s IH]; intros path buffer Hb Hp; cbn [parsePath]; [by apply closeSegment_plain|].
  destruct (_ || _); [by apply closeSegment_plain|]. destruct (isSlash c) eqn:Ec; apply IH; [apply Forall_nil_2|by apply closeSegment_plain| |done].
  apply Forall_app. split; [done|]. by apply Forall_singleton.
Qed.
(** ** Lemmas: ordinary paths *)

(** Text that a path shows as it is. *)
Definition keptSegment (s : str) : Prop :=
  Forall (λ c, pathEncoded c = false ∧ isSlash c = false) s ∧ singleDot s = false ∧ doubleDot s = false.
Lemma kept_range c : pathEncoded c = false → (32 < c < 127)%N ∧ c ≠ 63%N ∧ c ≠ 35%N.
Proof.
  unfold pathEncoded. intros [[H1%N.leb_gt H2%N.ltb_ge]%orb_false_iff H3]%orb_false_iff.
  split; [lia|]. split; intros ->; by vm_compute in H3.
Qed.
Lemma no_surrogate c : (c < 127)%N → isLead c = false ∧ isTrail c = false.
Proof. intros Hc. unfold isLead, isTrail. by rewrite !(proj2 (N.leb_gt _ c)) by lia. Qed.
Lemma encodeSegment_kept s : Forall (λ c, pathEncoded c = false ∧ isSlash c = false) s → encodeSegment s = s.
Proof.
  intros Hs. unfold encodeSegment. assert (Hc : codePoints s = s).
  { induction Hs as [|c s [Hc _] Hs IH]; [done|]. apply kept_range in Hc as [Hc _]. cbn [codePoints].
    destruct (no_surrogate c) as [El _]; [lia|]. by rewrite El, IH. }
  rewrite Hc. clear Hc. induction Hs as [|c s [Hc _] Hs IH]; [done|]. cbn [map flat_map]. rewrite IH.
  pose proof (kept_range c Hc) as [Hr _]. unfold scalarValue, encodePoint.
  destruct (no_surrogate c) as [El Et]; [lia|]. rewrite El, Et. cbn [orb]. by rewrite Hc.
Qed.
Lemma parsePath_chars path buffer s r : Forall (λ c, pathEncoded c = false ∧ isSlash c = false) s →
  parsePath path buffer (s ++ r) = parsePath path (buffer ++ s) r.
Proof.
  intros Hs. revert buffer. induction Hs as [|c s [Hc Hn] Hs IH]; intros buffer; [by rewrite app_nil_r|].
  apply kept_range in Hc as (_ & H1 & H2). cbn [app parsePath].
  rewrite (proj2 (N.eqb_neq c 63)), (proj2 (N.eqb_neq c 35)), Hn by done. cbn [orb]. by rewrite IH, <- app_assoc.
Qed.
Lemma closeSegment_kept final path s : keptSegment s → closeSegment final path s = path ++ [s].
Proof. intros (Hc & Hs & Hd). unfold closeSegment. by rewrite encodeSegment_kept, Hd, Hs. Qed.
(** The end of the path: nothing, or a query or fragment. *)
Definition endsPath (rest : str) : Prop := match rest with [] => True | c :: _ => c = 63%N ∨ c = 35%N end.
Lemma parsePath_kept_rest segments path rest : segments ≠ [] → Forall keptSegment segments → endsPath rest →
  parsePath path [] (join [cSlash] segments ++ rest) = path ++ segments.
Proof.
  intros Hne Hs Hrest. revert path. induction Hs as [|s segments H Hs IH]; intros path; [done|]. pose proof H as [Hc _].
  destruct segments as [|t segments].
  - cbn [join]. rewrite parsePath_chars by done. cbn [app].
    assert (Hend : parsePath path s rest = closeSegment true path s).
    { destruct rest as [|c rest]; [done|]. cbn [parsePath]. by destruct Hrest as [->| ->]. }
    rewrite Hend. by apply closeSegment_kept.
  - assert (Ej : join [cSlash] (s :: t :: segments) ++ rest = s ++ cSlash :: (join [cSlash] (t :: segments) ++ rest))
      by (rewrite app_comm_cons, app_assoc; done).
    rewrite Ej, parsePath_chars by done. cbn [parsePath app].
    change (isSlash cSlash) with true. change ((cSlash =? 63)%N || (cSlash =? 35)%N) with false. cbn match.
    by rewrite closeSegment_kept, IH, <- app_assoc.
Qed.
Lemma parsePath_kept segments path : segments ≠ [] → Forall keptSegment segments →
  parsePath path [] (join [cSlash] segments) = path ++ segments.
Proof. intros Hne Hs. rewrite <- (app_nil_r (join _ _)). by apply parsePath_kept_rest. Qed.
Lemma cleanUrl_kept s : Forall (λ c, (32 < c)%N) s → cleanUrl s = s.
Proof.
  intros Hs. unfold cleanUrl. assert (Hd : dropControls (rev s) = rev s).
  { apply Forall_rev in Hs. destruct Hs as [|c l Hc Hl]; [done|]. cbn. by rewrite (proj2 (N.leb_gt _ _)). }
  rewrite Hd, rev_involutive. apply filterb_all. intros c Hc. rewrite Forall_forall in Hs. specialize (Hs c Hc).
  unfold isTabOrNewline. rewrite !(proj2 (N.eqb_neq _ _)) by lia. done.
Qed.

(** ** Lemmas: an encoded identifier as a segment *)

Lemma encoded_char s c : units s → c ∈ encodeURIComponent s → isUnreserved c = true ∨ c = 37%N.
Proof.
  intros Hu. unfold encodeURIComponent. assert (Hb : Forall (λ b, (b < 256)%N) (flat_map utf8 (codePoints s))).
  { apply utf16_codePoints in Hu as [_ Hp]. apply Forall_flat_map. eapply Forall_impl; [exact Hp|]. apply utf8_bytes. }
  intros (b & Hin%list_elem_of_In & Hc%list_elem_of_In)%list_elem_of_In%in_flat_map.
  rewrite Forall_forall in Hb. specialize (Hb b Hin). unfold encodeByte in Hc.
  destruct (isUnreserved b) eqn:E; [apply list_elem_of_singleton in Hc as ->; by left|].
  assert (Hh : ∀ n, (n < 16)%N → isUnreserved (hexUpper n) = true).
  { intros n Hn. assert (Hall : forallb (λ n, isUnreserved (hexUpper n)) (map N.of_nat (seq 0 16)) = true) by done.
    rewrite forallb_true in Hall. apply Hall, list_elem_of_fmap. exists (N.to_nat n). split; [lia|].
    apply elem_of_seq. lia. }
  apply elem_of_cons in Hc as [->|Hc]; [by right|]. left.
  repeat (apply elem_of_cons in Hc as [->|Hc]; [apply Hh|]); [| |by apply elem_of_nil in Hc].
  - apply N.Div0.div_lt_upper_bound. lia.
  - by apply N.mod_lt.
Qed.

Lemma safe_kept c : isUnreserved c = true ∨ c = 37%N → pathEncoded c = false ∧ isSlash c = false.
Proof.
  intros Hc. assert (Hr : (c < 128)%N) by (destruct Hc as [[? _]%unreserved_ascii| ->]; [done|lia]).
  assert (Hall : forallb (λ c, negb (isUnreserved c || N.eqb c 37) || negb (pathEncoded c || isSlash c))
    (map N.of_nat (seq 0 128)) = true) by (vm_compute; done).
  rewrite forallb_true in Hall. apply orb_false_iff, negb_true_iff.
  assert (Hin : c ∈ map N.of_nat (seq 0 128))
    by (apply list_elem_of_fmap; exists (N.to_nat c); split; [lia|apply elem_of_seq; lia]).
  specialize (Hall c Hin). apply orb_true_iff in Hall as [Hn|]; [exfalso|done].
  apply negb_true_iff, orb_false_iff in Hn as [H1 H2%N.eqb_neq]. destruct Hc; congruence.
Qed.

(** A dot segment, in any spelling, unescapes to its dots. *)
Lemma asciiLower_is c d : asciiLower c = d → c = d ∨ (c + 32 = d ∧ 65 <= c <= 90)%N.
Proof.
  unfold asciiLower. destruct (_ && _) eqn:E; [|auto]. intros He. right.
  apply andb_true_iff in E as [?%N.leb_le ?%N.leb_le]. lia.
Qed.
Lemma lowered_cases s t : lowered s = t →
  Forall2 (λ c d, c = d ∨ (c + 32 = d ∧ 65 <= c <= 90)%N) s t.
Proof. intros <-. unfold lowered. induction s as [|c s IH]; constructor; [by apply asciiLower_is|done]. Qed.
Ltac spell H :=
  match type of H with _ = ?t => let v := eval vm_compute in t in change t with v in H end;
  apply lowered_cases in H;
  repeat match goal with
  | Hf : Forall2 _ ?l (_ :: _) |- _ =>
      let Hc := fresh in let Hr := fresh in let He := fresh in
      apply Forall2_cons_inv_r in Hf as (? & ? & Hc & Hr & He); subst l;
      destruct Hc as [Hc|[Hc ?]]; [subst|try lia]
  | Hf : Forall2 _ _ [] |- _ => apply Forall2_nil_inv_r in Hf; subst
  | Hx : (?x + 32)%N = 101%N |- _ => assert (x = 69%N) by lia; clear Hx; subst x
  end.
Lemma singleDot_unpct s : singleDot s = true → unpct s = [46%N].
Proof.
  intros Hs%bool_decide_eq_true. cbn [map] in Hs. set_unfold in Hs. destruct Hs as [H|[H|[]]]; by spell H.
Qed.
Lemma doubleDot_unpct s : doubleDot s = true → unpct s = [46%N; 46%N].
Proof.
  intros Hs%bool_decide_eq_true. cbn [map] in Hs. set_unfold in Hs. destruct Hs as [H|[H|[H|[H|[]]]]]; by spell H.
Qed.

(** What an encoded identifier looks like to the parser: a segment of its own, unless the
    identifier is one or two dots. *)
Lemma encoded_kept id : units id → id ≠ js "." → id ≠ js ".." → keptSegment (encodeURIComponent id).
Proof.
  intros Hu H1 H2. assert (Hdots : ∀ bs, unpct (encodeURIComponent id) = bs → ∀ t, units t →
    flat_map encodeByte bs = encodeURIComponent t → id = t).
  { intros bs Hbs t Ht He. apply encodeURIComponent_inj; [done..|]. rewrite <- He, <- Hbs.
    unfold encodeURIComponent at 1 2. rewrite unpct_encode; [done|].
    apply utf16_codePoints in Hu as [_ Hp]. apply Forall_flat_map. eapply Forall_impl; [exact Hp|]. apply utf8_bytes. }
  split; [|split].
  - apply Forall_forall. intros c Hc. by apply safe_kept, (encoded_char id).
  - apply not_true_iff_false. intros Hs%singleDot_unpct. apply H1, (Hdots _ Hs); [by repeat constructor|done].
  - apply not_true_iff_false. intros Hs%doubleDot_unpct. apply H2, (Hdots _ Hs); [by repeat constructor|done].
Qed.
