(* ===== verification/CloseoutTypes.v ===== *)
(** * The closeout preview's data (frontend/src/measurements/closeoutPreview.ts)

    The records the browser keeps for a voyage's closeout, with the JSON objects they
    are saved as.  Members are listed in the order the code creates them, since the
    code compares some of them by their JSON text. *)
From S2P Require Import Prelude JsString Json Codec MeasurementTypes.

(** ** Unions of literals *)

Inductive PreviewReportStatus := rs_submitted | rs_approved | rs_returned.
Definition reportStatus_lit (s : PreviewReportStatus) : str :=
  match s with rs_submitted => js "submitted" | rs_approved => js "approved"
  | rs_returned => js "returned" end.
#[export] Instance PreviewReportStatus_eq : EqDecision PreviewReportStatus.
Proof. solve_decision. Defined.

(** [PreviewInvoiceStatus]. *)
Inductive PreviewInvoiceStatus := is_draft | is_no_charge | is_overpayment | is_held.
Definition invoiceStatus_lit (s : PreviewInvoiceStatus) : str :=
  match s with is_draft => js "draft" | is_no_charge => js "no-charge"
  | is_overpayment => js "overpayment-review" | is_held => js "held" end.
#[export] Instance PreviewInvoiceStatus_eq : EqDecision PreviewInvoiceStatus.
Proof. solve_decision. Defined.

(** The status of one line of a [PreviewInvoiceLine]. *)
Inductive VariationLineStatus := ls_charge | ls_no_charge | ls_overpayment | ls_held.
Definition variationStatus_lit (s : VariationLineStatus) : str :=
  match s with ls_charge => js "charge" | ls_no_charge => js "no-charge"
  | ls_overpayment => js "overpayment-review" | ls_held => js "held" end.
#[export] Instance VariationLineStatus_eq : EqDecision VariationLineStatus.
Proof. solve_decision. Defined.

Inductive PaymentStatus := paid | unconfirmed.
Definition payment_lit (s : PaymentStatus) : str :=
  match s with paid => js "paid" | unconfirmed => js "unconfirmed" end.
#[export] Instance PaymentStatus_eq : EqDecision PaymentStatus. Proof. solve_decision. Defined.

Inductive PreviewEventAction :=
| report_submitted | report_returned | report_approved | invoice_drafted | no_charge_recorded
| overpayment_flagged | billing_held.
Definition eventAction_lit (a : PreviewEventAction) : str :=
  match a with
  | report_submitted => js "report-submitted" | report_returned => js "report-returned"
  | report_approved => js "report-approved" | invoice_drafted => js "invoice-drafted"
  | no_charge_recorded => js "no-charge-recorded" | overpayment_flagged => js "overpayment-flagged"
  | billing_held => js "billing-held"
  end.
Definition EVENT_ACTIONS : list PreviewEventAction :=
  [report_submitted; report_returned; report_approved; invoice_drafted; no_charge_recorded;
   overpayment_flagged; billing_held].
#[export] Instance PreviewEventAction_eq : EqDecision PreviewEventAction.
Proof. solve_decision. Defined.

#[export] Instance Codec_reportStatus : Codec PreviewReportStatus := {|
  enc s := JStr (reportStatus_lit s);
  dec := decLit reportStatus_lit [rs_submitted; rs_approved; rs_returned];
  dec_enc s := match s with rs_submitted => eq_refl | rs_approved => eq_refl
               | rs_returned => eq_refl end |}.
#[export] Instance Codec_invoiceStatus : Codec PreviewInvoiceStatus := {|
  enc s := JStr (invoiceStatus_lit s);
  dec := decLit invoiceStatus_lit [is_draft; is_no_charge; is_held; is_overpayment];
  dec_enc s := match s with is_draft => eq_refl | is_no_charge => eq_refl
               | is_overpayment => eq_refl | is_held => eq_refl end |}.
#[export] Instance Codec_variationStatus : Codec VariationLineStatus := {|
  enc s := JStr (variationStatus_lit s);
  dec := decLit variationStatus_lit [ls_charge; ls_no_charge; ls_overpayment; ls_held];
  dec_enc s := match s with ls_charge => eq_refl | ls_no_charge => eq_refl
               | ls_overpayment => eq_refl | ls_held => eq_refl end |}.
#[export] Instance Codec_payment : Codec PaymentStatus := {|
  enc s := JStr (payment_lit s); dec := decLit payment_lit [paid; unconfirmed];
  dec_enc s := match s with paid => eq_refl | unconfirmed => eq_refl end |}.
#[export] Instance Codec_eventAction : Codec PreviewEventAction := {|
  enc s := JStr (eventAction_lit s); dec := decLit eventAction_lit EVENT_ACTIONS;
  dec_enc s := match s with
    | report_submitted => eq_refl | report_returned => eq_refl | report_approved => eq_refl
    | invoice_drafted => eq_refl | no_charge_recorded => eq_refl
    | overpayment_flagged => eq_refl | billing_held => eq_refl end |}.

(** ** Records *)

Record PreviewReportLine := mkReportLine {
  prl_planId : str; prl_lineId : str; prl_quantity : str; prl_reason : str;
  prl_description : str; prl_unit : QuantityUnit; prl_declaredQuantity : option str }.

(** Reports saved before the review step have no status and were approved directly. *)
Record PreviewReport := mkReport {
  rep_id : str; rep_callId : str; rep_revision : Z; rep_status : option PreviewReportStatus;
  rep_sourceFingerprint : str; rep_preparedAt : option str; rep_preparedBy : option Actor;
  rep_reason : str; rep_lines : list PreviewReportLine; rep_sourcePlans : list MeasurementPlan;
  rep_approvedAt : option str; rep_approvedBy : option Actor; rep_returnedAt : option str;
  rep_returnedBy : option Actor; rep_returnComment : option str }.

Record PreviewInvoiceLineInput := mkInvoiceLineInput {
  ili_planId : str; ili_lineId : str; ili_rate : str; ili_previousVariationAmount : str }.

Record PreviewInvoiceInput := mkInvoiceInput {
  ii_payer : str; ii_currency : Currency; ii_tariffReference : str;
  ii_originalInvoiceReference : str; ii_paymentStatus : PaymentStatus;
  ii_originalPaidAmount : str; ii_previousVariationReference : str;
  ii_lines : list PreviewInvoiceLineInput }.

(** [PreviewInvoiceLine extends PreviewInvoiceLineInput]. *)
Record PreviewInvoiceLine := mkInvoiceLine {
  il_input :> PreviewInvoiceLineInput; il_description : str; il_unit : QuantityUnit;
  il_declaredQuantity : str; il_finalQuantity : str; il_variance : str; il_entitlement : str;
  il_amount : str; il_status : VariationLineStatus }.

Record PreviewInvoice := mkInvoice {
  inv_payer : str; inv_currency : Currency; inv_tariffReference : str;
  inv_originalInvoiceReference : str; inv_paymentStatus : PaymentStatus;
  inv_originalPaidAmount : str; inv_previousVariationReference : str;
  inv_lines : list PreviewInvoiceLine; inv_total : str; inv_status : PreviewInvoiceStatus;
  inv_reportId : str; inv_callId : str; inv_id : str; inv_number : str; inv_createdAt : str;
  inv_createdBy : Actor }.

Record PreviewEvent := mkEvent {
  pe_id : str; pe_callId : str; pe_at : str; pe_actor : Actor; pe_action : PreviewEventAction;
  pe_reference : str }.

(** What the vessel owner has already paid for this voyage's declaration. *)
Record PaidDeclarationInput := mkDeclarationInput {
  pd_payer : str; pd_agent : str; pd_invoiceReference : str; pd_amountPaid : str;
  pd_currency : Currency; pd_paidOn : str; pd_paymentStatus : PaymentStatus }.
Record PaidDeclaration := mkDeclaration {
  pd_input :> PaidDeclarationInput; pd_updatedAt : str; pd_updatedBy : Actor }.

Record CloseoutRecord := mkCloseout {
  cr_callId : str; cr_reports : list PreviewReport; cr_invoices : list PreviewInvoice;
  cr_events : list PreviewEvent; cr_declaration : option PaidDeclaration }.

(** One entry of an [ApprovalInput]. *)
Record ApprovalLine := mkApprovalLine {
  apl_planId : str; apl_lineId : str; apl_quantity : str; apl_reason : str }.
Record ApprovalInput := mkApprovalInput { api_reason : str; api_lines : list ApprovalLine }.

(** ** Codecs *)

Definition enc_PreviewReportLine (r : PreviewReportLine) : json :=
  mkObj [
    fld "planId" (prl_planId r);
    fld "lineId" (prl_lineId r);
    fld "quantity" (prl_quantity r);
    fld "reason" (prl_reason r);
    fld "description" (prl_description r);
    fld "unit" (prl_unit r);
    fld "declaredQuantity" (prl_declaredQuantity r)].
Definition dec_PreviewReportLine (j : json) : option PreviewReportLine :=
  x0 ← req (js "planId") j; x1 ← req (js "lineId") j; x2 ← req (js "quantity") j;
  x3 ← req (js "reason") j; x4 ← req (js "description") j; x5 ← req (js "unit") j;
  x6 ← req (js "declaredQuantity") j;
  Some (mkReportLine x0 x1 x2 x3 x4 x5 x6).
Lemma dec_enc_PreviewReportLine r : dec_PreviewReportLine (enc_PreviewReportLine r) = Some r.
Proof. unfold dec_PreviewReportLine, enc_PreviewReportLine. revert r. solve_record_codec. Qed.
#[export] Instance Codec_PreviewReportLine : Codec PreviewReportLine :=
  {| enc := enc_PreviewReportLine; dec := dec_PreviewReportLine; dec_enc := dec_enc_PreviewReportLine |}.

Definition enc_PreviewReport (r : PreviewReport) : json :=
  mkObj [
    fld "id" (rep_id r);
    fld "callId" (rep_callId r);
    fld "revision" (rep_revision r);
    ofld "status" (rep_status r);
    fld "sourceFingerprint" (rep_sourceFingerprint r);
    ofld "preparedAt" (rep_preparedAt r);
    ofld "preparedBy" (rep_preparedBy r);
    fld "reason" (rep_reason r);
    fld "lines" (rep_lines r);
    fld "sourcePlans" (rep_sourcePlans r);
    ofld "approvedAt" (rep_approvedAt r);
    ofld "approvedBy" (rep_approvedBy r);
    ofld "returnedAt" (rep_returnedAt r);
    ofld "returnedBy" (rep_returnedBy r);
    ofld "returnComment" (rep_returnComment r)].
Definition dec_PreviewReport (j : json) : option PreviewReport :=
  x0 ← req (js "id") j; x1 ← req (js "callId") j; x2 ← req (js "revision") j;
  x3 ← opt (js "status") j; x4 ← req (js "sourceFingerprint") j; x5 ← opt (js "preparedAt") j;
  x6 ← opt (js "preparedBy") j; x7 ← req (js "reason") j; x8 ← req (js "lines") j;
  x9 ← req (js "sourcePlans") j; x10 ← opt (js "approvedAt") j; x11 ← opt (js "approvedBy") j;
  x12 ← opt (js "returnedAt") j; x13 ← opt (js "returnedBy") j; x14 ← opt (js "returnComment") j;
 
  Some (mkReport x0 x1 x2 x3 x4 x5 x6 x7 x8 x9 x10 x11 x12 x13 x14).
Lemma dec_enc_PreviewReport r : dec_PreviewReport (enc_PreviewReport r) = Some r.
Proof. unfold dec_PreviewReport, enc_PreviewReport. revert r. solve_record_codec. Qed.
#[export] Instance Codec_PreviewReport : Codec PreviewReport :=
  {| enc := enc_PreviewReport; dec := dec_PreviewReport; dec_enc := dec_enc_PreviewReport |}.

Definition enc_PreviewInvoiceLine (r : PreviewInvoiceLine) : json :=
  mkObj [
    fld "planId" (ili_planId r);
    fld "lineId" (ili_lineId r);
    fld "rate" (ili_rate r);
    fld "previousVariationAmount" (ili_previousVariationAmount r);
    fld "description" (il_description r);
    fld "unit" (il_unit r);
    fld "declaredQuantity" (il_declaredQuantity r);
    fld "finalQuantity" (il_finalQuantity r);
    fld "variance" (il_variance r);
    fld "entitlement" (il_entitlement r);
    fld "amount" (il_amount r);
    fld "status" (il_status r)].
Definition dec_PreviewInvoiceLine (j : json) : option PreviewInvoiceLine :=
  x0 ← req (js "planId") j; x1 ← req (js "lineId") j; x2 ← req (js "rate") j;
  x3 ← req (js "previousVariationAmount") j; x4 ← req (js "description") j; x5 ← req (js "unit") j;
  x6 ← req (js "declaredQuantity") j; x7 ← req (js "finalQuantity") j; x8 ← req (js "variance") j;
  x9 ← req (js "entitlement") j; x10 ← req (js "amount") j; x11 ← req (js "status") j;
 
  Some (mkInvoiceLine (mkInvoiceLineInput x0 x1 x2 x3) x4 x5 x6 x7 x8 x9 x10 x11).
Lemma dec_enc_PreviewInvoiceLine r : dec_PreviewInvoiceLine (enc_PreviewInvoiceLine r) = Some r.
Proof. unfold dec_PreviewInvoiceLine, enc_PreviewInvoiceLine. revert r. solve_record_codec. Qed.
#[export] Instance Codec_PreviewInvoiceLine : Codec PreviewInvoiceLine :=
  {| enc := enc_PreviewInvoiceLine; dec := dec_PreviewInvoiceLine; dec_enc := dec_enc_PreviewInvoiceLine |}.

Definition enc_PreviewInvoice (r : PreviewInvoice) : json :=
  mkObj [
    fld "payer" (inv_payer r);
    fld "currency" (inv_currency r);
    fld "tariffReference" (inv_tariffReference r);
    fld "originalInvoiceReference" (inv_originalInvoiceReference r);
    fld "paymentStatus" (inv_paymentStatus r);
    fld "originalPaidAmount" (inv_originalPaidAmount r);
    fld "previousVariationReference" (inv_previousVariationReference r);
    fld "lines" (inv_lines r);
    fld "total" (inv_total r);
    fld "status" (inv_status r);
    fld "reportId" (inv_reportId r);
    fld "callId" (inv_callId r);
    fld "id" (inv_id r);
    fld "number" (inv_number r);
    fld "createdAt" (inv_createdAt r);
    fld "createdBy" (inv_createdBy r)].
Definition dec_PreviewInvoice (j : json) : option PreviewInvoice :=
  x0 ← req (js "payer") j; x1 ← req (js "currency") j; x2 ← req (js "tariffReference") j;
  x3 ← req (js "originalInvoiceReference") j; x4 ← req (js "paymentStatus") j; x5 ← req (js "originalPaidAmount") j;
  x6 ← req (js "previousVariationReference") j; x7 ← req (js "lines") j; x8 ← req (js "total") j;
  x9 ← req (js "status") j; x10 ← req (js "reportId") j; x11 ← req (js "callId") j;
  x12 ← req (js "id") j; x13 ← req (js "number") j; x14 ← req (js "createdAt") j;
  x15 ← req (js "createdBy") j;
  Some (mkInvoice x0 x1 x2 x3 x4 x5 x6 x7 x8 x9 x10 x11 x12 x13 x14 x15).
Lemma dec_enc_PreviewInvoice r : dec_PreviewInvoice (enc_PreviewInvoice r) = Some r.
Proof. unfold dec_PreviewInvoice, enc_PreviewInvoice. revert r. solve_record_codec. Qed.
#[export] Instance Codec_PreviewInvoice : Codec PreviewInvoice :=
  {| enc := enc_PreviewInvoice; dec := dec_PreviewInvoice; dec_enc := dec_enc_PreviewInvoice |}.

Definition enc_PreviewEvent (r : PreviewEvent) : json :=
  mkObj [
    fld "id" (pe_id r);
    fld "callId" (pe_callId r);
    fld "at" (pe_at r);
    fld "actor" (pe_actor r);
    fld "action" (pe_action r);
    fld "reference" (pe_reference r)].
Definition dec_PreviewEvent (j : json) : option PreviewEvent :=
  x0 ← req (js "id") j; x1 ← req (js "callId") j; x2 ← req (js "at") j;
  x3 ← req (js "actor") j; x4 ← req (js "action") j; x5 ← req (js "reference") j;
 
  Some (mkEvent x0 x1 x2 x3 x4 x5).
Lemma dec_enc_PreviewEvent r : dec_PreviewEvent (enc_PreviewEvent r) = Some r.
Proof. unfold dec_PreviewEvent, enc_PreviewEvent. revert r. solve_record_codec. Qed.
#[export] Instance Codec_PreviewEvent : Codec PreviewEvent :=
  {| enc := enc_PreviewEvent; dec := dec_PreviewEvent; dec_enc := dec_enc_PreviewEvent |}.

Definition enc_PaidDeclaration (r : PaidDeclaration) : json :=
  mkObj [
    fld "payer" (pd_payer r);
    fld "agent" (pd_agent r);
    fld "invoiceReference" (pd_invoiceReference r);
    fld "amountPaid" (pd_amountPaid r);
    fld "currency" (pd_currency r);
    fld "paidOn" (pd_paidOn r);
    fld "paymentStatus" (pd_paymentStatus r);
    fld "updatedAt" (pd_updatedAt r);
    fld "updatedBy" (pd_updatedBy r)].
Definition dec_PaidDeclaration (j : json) : option PaidDeclaration :=
  x0 ← req (js "payer") j; x1 ← req (js "agent") j; x2 ← req (js "invoiceReference") j;
  x3 ← req (js "amountPaid") j; x4 ← req (js "currency") j; x5 ← req (js "paidOn") j;
  x6 ← req (js "paymentStatus") j; x7 ← req (js "updatedAt") j; x8 ← req (js "updatedBy") j;
 
  Some (mkDeclaration (mkDeclarationInput x0 x1 x2 x3 x4 x5 x6) x7 x8).
Lemma dec_enc_PaidDeclaration r : dec_PaidDeclaration (enc_PaidDeclaration r) = Some r.
Proof. unfold dec_PaidDeclaration, enc_PaidDeclaration. revert r. solve_record_codec. Qed.
#[export] Instance Codec_PaidDeclaration : Codec PaidDeclaration :=
  {| enc := enc_PaidDeclaration; dec := dec_PaidDeclaration; dec_enc := dec_enc_PaidDeclaration |}.

Definition enc_CloseoutRecord (r : CloseoutRecord) : json :=
  mkObj [
    fld "callId" (cr_callId r);
    fld "reports" (cr_reports r);
    fld "invoices" (cr_invoices r);
    fld "events" (cr_events r);
    ofld "declaration" (cr_declaration r)].
Definition dec_CloseoutRecord (j : json) : option CloseoutRecord :=
  x0 ← req (js "callId") j; x1 ← req (js "reports") j; x2 ← req (js "invoices") j;
  x3 ← req (js "events") j; x4 ← opt (js "declaration") j;
  Some (mkCloseout x0 x1 x2 x3 x4).
Lemma dec_enc_CloseoutRecord r : dec_CloseoutRecord (enc_CloseoutRecord r) = Some r.
Proof. unfold dec_CloseoutRecord, enc_CloseoutRecord. revert r. solve_record_codec. Qed.
#[export] Instance Codec_CloseoutRecord : Codec CloseoutRecord :=
  {| enc := enc_CloseoutRecord; dec := dec_CloseoutRecord; dec_enc := dec_enc_CloseoutRecord |}.
