(* ===== verification/Closeout.v ===== *)
(** * Voyage closeout calculations (frontend/src/measurements/closeoutPreview.ts)

    The fingerprint of the inputs a report rests on, the decimal arithmetic of the
    additional-load calculation and the validators of saved previews. *)
From S2P Require Import Prelude JsString Json Codec MeasurementTypes Host Helpers CloseoutTypes.

(** ** Fingerprint and report selection *)

Section Fingerprint.
Context `{Host}.

Definition activePlans (plans : list MeasurementPlan) : list MeasurementPlan :=
  sort_by (λ a b, localeCompare (plan_id a) (plan_id b))
    (filterb (λ plan, negb (bool_decide (plan_status plan = plan_cancelled))) plans).

(** The latest returns of a plan, in participant order. *)
Definition sortedReturns (plan : MeasurementPlan) : list Submission :=
  sort_by (λ a b, localeCompare (sub_participantId a) (sub_participantId b)) (latestReturns plan).*2.

Definition planFingerprint (plan : MeasurementPlan) : json :=
  mkObj [
    fld "id" (plan_id plan); fld "callId" (plan_callId plan); fld "version" (plan_version plan);
    fld "title" (plan_title plan); fld "scope" (plan_scope plan); fld "lines" (plan_lines plan);
    fld "participants" (plan_participants plan); fld "returns" (sortedReturns plan);
    fld "reconciliations" (plan_reconciliations plan)].

(** Exact source identity: any declaration, latest reading or server decision changes it. *)
Definition voyageInputFingerprint (plans : list MeasurementPlan) : str :=
  stringify (enc (map planFingerprint (activePlans plans))).

Definition reportStatus (report : PreviewReport) : PreviewReportStatus :=
  default rs_approved (rep_status report).

Definition matchesInputs (report : PreviewReport) (plans : list MeasurementPlan) : bool :=
  streq (rep_sourceFingerprint report) (voyageInputFingerprint plans)
  && forallb (λ plan, streq (plan_callId plan) (rep_callId report)) (activePlans plans).

(** The latest approved report, while the inputs it was based on are unchanged. *)
Definition currentReport (plans : list MeasurementPlan) (record : option CloseoutRecord)
  : option PreviewReport :=
  let reports := match record with Some r => cr_reports r | None => [] end in
  report ← findb (λ item, bool_decide (reportStatus item = rs_approved)) (rev reports);
  if matchesInputs report plans then Some report else None.

(** A version waiting for a second reviewer, still based on the current inputs. *)
Definition pendingReport (plans : list MeasurementPlan) (record : option CloseoutRecord)
  : option PreviewReport :=
  record ← record; report ← last (cr_reports record);
  if bool_decide (reportStatus report = rs_submitted) && matchesInputs report plans
  then Some report else None.

(** The latest version sent back to its preparer, if nothing newer has been submitted. *)
Definition returnedReport (record : option CloseoutRecord) : option PreviewReport :=
  record ← record; report ← last (cr_reports record);
  if bool_decide (reportStatus report = rs_returned) then Some report else None.
End Fingerprint.

(** ** Decimal text as scaled integers *)

(** [/^\d+(?:\.\d+)?$/]: the whole part and the fraction ([""] without a dot). *)
Definition matchDecimal (s : str) : option (str * str) :=
  match split cDot s with
  | [w] => if digits1 w then Some (w, []) else None
  | [w; f] => if digits1 w && digits1 f then Some (w, f) else None
  | _ => None
  end.

(** The value in units of [10^-precision]; [undefined] and [null] are [None]. *)
Definition decimal (value : option str) (precision maxWhole : nat) : option Z :=
  value ← value;
  '(whole, fraction) ← matchDecimal (trim value);
  if (maxWhole <? length whole)%nat || (precision <? length fraction)%nat then None
  else Some (bigOfDigits whole * pow10 precision + bigOfDigits (padEnd precision cZero fraction)).

Definition fixed (value : Z) (precision : nat) : str :=
  let sign := if value <? 0 then [cMinus] else [] in
  let absolute := if value <? 0 then - value else value in
  let scale := pow10 precision in
  sign ++ printZ (absolute / scale) ++ cDot :: padStart precision cZero (printZ (absolute mod scale)).

Definition quantityText (value : Z) : str := stripDotZeros (fixed value 6).
Definition validDecimal (value : option str) (precision maxWhole : nat) : bool :=
  match decimal value precision maxWhole with Some _ => true | None => false end.
Definition validMoney (value : str) (decimals : nat) : bool := validDecimal (Some value) decimals 32.

Example decimal_ex : decimal (Some (js " 12.5 ")) 6 15 = Some 12500000
  ∧ decimal (Some (js "1.")) 6 15 = None ∧ decimal (Some (js ".5")) 6 15 = None
  ∧ decimal (Some (js "1.0000000")) 6 15 = None.
Proof. repeat split; reflexivity. Qed.
Example fixed_ex : fixed (-1234567) 2 = js "-12345.67" ∧ quantityText 1500000 = js "1.5"
  ∧ quantityText (-20000000) = js "-20" ∧ quantityText 0 = js "0".
Proof. repeat split; reflexivity. Qed.

(** ** Issues that block a reconciliation *)

Section Issues.
Context `{Host}.

Definition rowIncomplete (row : option SubmissionLine) : bool :=
  match row with
  | None => true
  | Some row =>
    match sl_status row with
    | reported => negb (validDecimal (sl_quantity row) 6 15)
    | not_applicable => isEmpty (trim (sl_note row))
    end
  end.

Definition partyReadingIssues (plan : MeasurementPlan) (party : Participant) : list str :=
  match mget (party_id party) (latestReturns plan) with
  | None => [party_name party ++ js ": reading not submitted for " ++ plan_title plan ++ js "."]
  | Some reading =>
    flat_map (λ line : CargoLine,
        if rowIncomplete (findb (λ item, streq (sl_lineId item) (line_id line)) (sub_lines reading))
        then [party_name party ++ js ": complete " ++ description line
              ++ js " or explain why it is not applicable."]
        else [])
      (plan_lines plan)
  end.

Definition sheetIssues (plan : MeasurementPlan) : list str :=
  (match plan_lines plan with
   | [] => [plan_title plan ++ js ": no cargo items recorded."] | _ => [] end)
  ++ flat_map (λ line : CargoLine,
       if validDecimal (manifestQuantity line) 6 15 then []
       else [description line ++ js ": owner declaration is missing or invalid."]) (plan_lines plan)
  ++ flat_map (partyReadingIssues plan) (filterb party_requiredSubmission (plan_participants plan)).

Definition reconciliationIssues (plans : list MeasurementPlan) : list str :=
  match activePlans plans with
  | [] => [js "Add an owner declaration and agency readings before reconciliation."]
  | sheets => flat_map sheetIssues sheets
  end.
End Issues.

(** ** Additional load *)

(** The key the code uses to test that no cargo item is repeated. *)
Definition itemKey (planId lineId : str) : str := planId ++ [58%N] ++ lineId.

(** One iteration over a report line: the line of the invoice, or the issue. *)
Definition variationLine (inputs : list PreviewInvoiceLineInput) (row : PreviewReportLine)
  : result str (PreviewInvoiceLine * Z) :=
  let issue := prl_description row
    ++ js ": enter valid declaration, final quantity, rate and previous variation amount." in
  match findb (λ item, streq (ili_planId item) (prl_planId row)
                       && streq (ili_lineId item) (prl_lineId row)) inputs,
        prl_declaredQuantity row with
  | Some input, Some declared =>
    match decimal (Some declared) 6 15, decimal (Some (prl_quantity row)) 6 15,
          decimal (Some (ili_rate input)) 4 15,
          decimal (Some (ili_previousVariationAmount input)) 2 15 with
    | Some baseline, Some final, Some rate, Some previous =>
      let variance := final - baseline in
      let entitlement := if 0 <? variance then (variance * rate + 50000000) / 100000000 else 0 in
      let amount := if previous <? entitlement then entitlement - previous else 0 in
      let status :=
        if variance <? 0 then ls_overpayment
        else if entitlement <? previous then ls_held
        else if 0 <? amount then ls_charge else ls_no_charge in
      Ok (mkInvoiceLine input (prl_description row) (prl_unit row) declared (prl_quantity row)
            (quantityText variance) (fixed entitlement 2) (fixed amount 2) status, amount)
    | _, _, _, _ => Err issue
    end
  | _, _ => Err issue
  end.

Record Calculation := mkCalculation {
  calc_lines : list PreviewInvoiceLine; calc_total : str; calc_status : PreviewInvoiceStatus;
  calc_issues : list str }.

Definition okOf {E A} (r : result E A) : list A := match r with Ok a => [a] | Err _ => [] end.
Definition errOf {E A} (r : result E A) : list E := match r with Ok _ => [] | Err e => [e] end.

(** [lines.some(line => line.status === s)] *)
Definition hasStatus (s : VariationLineStatus) (lines : list PreviewInvoiceLine) : bool :=
  existsb (λ line, bool_decide (il_status line = s)) lines.

Definition calculateVariation (report : PreviewReport) (inputs : list PreviewInvoiceLineInput)
  : Calculation :=
  let keys := map (λ row, itemKey (ili_planId row) (ili_lineId row)) inputs in
  let rows := map (variationLine inputs) (rep_lines report) in
  let issues :=
    (if hasRepeats keys || negb (Nat.eqb (length inputs) (length (rep_lines report)))
     then [js "Enter one rate and previous variation amount for every cargo item."] else [])
    ++ flat_map errOf rows in
  let lines := (flat_map okOf rows).*1 in
  let total := foldr Z.add 0 (flat_map okOf rows).*2 in
  let status :=
    if negb (match issues with [] => true | _ => false end)
       || hasStatus ls_held lines then is_held
    else if hasStatus ls_overpayment lines then is_overpayment
    else if 0 <? total then is_draft else is_no_charge in
  mkCalculation lines
    (match status with is_held | is_overpayment => js "0.00" | _ => fixed total 2 end)
    status issues.

(** The positive amount above the declaration before any review hold. *)
Definition additionalLoadAmount (lines : list PreviewInvoiceLine) : str :=
  fixed (foldl (λ sum line, sum +
    (if bool_decide (il_status line = ls_charge)
     then default 0 (decimal (Some (il_amount line)) 2 32) else 0)) 0 lines) 2.

(** ** Validators of saved previews

    The validators on a record of this model, whose types already answer the tests of type
    ([typeof], [Array.isArray], [Number.isInteger] and membership of a literal union).
    CloseoutJson.v has them as the code runs them, on the raw JSON value, and proves the
    two agree on every record the code writes. *)

Definition validSubmissionLine (line : SubmissionLine) : bool :=
  match sl_quantity line with None => true | Some q => validDecimal (Some q) 6 15 end.
Definition validSourcePlan (callId : str) (plan : MeasurementPlan) : bool :=
  streq (plan_callId plan) callId
  && forallb (λ line : CargoLine, validDecimal (manifestQuantity line) 6 15) (plan_lines plan)
  && forallb (λ submission, forallb validSubmissionLine (sub_lines submission)) (plan_submissions plan).

(** [s.replace(/^-/, "")] *)
Definition dropMinus (s : str) : str :=
  match s with c :: r => if N.eqb c cMinus then r else s | [] => [] end.

Definition validInvoiceLine (line : PreviewInvoiceLine) : bool :=
  validDecimal (Some (il_declaredQuantity line)) 6 15
  && validDecimal (Some (il_finalQuantity line)) 6 15
  && validDecimal (Some (dropMinus (il_variance line))) 6 15
  && validDecimal (Some (ili_rate line)) 4 15
  && validDecimal (Some (ili_previousVariationAmount line)) 2 15
  && validDecimal (Some (il_amount line)) 2 32
  && validDecimal (Some (il_entitlement line)) 2 32.

Definition isPresent {A} (o : option A) : bool := match o with Some _ => true | None => false end.

Definition validReport (callId : str) (report : PreviewReport) : bool :=
  let status := reportStatus report in
  let reviewed := negb (isPresent (rep_status report))
    || (isPresent (rep_preparedAt report) && isPresent (rep_preparedBy report)) in
  streq (rep_callId report) callId && reviewed
  && (negb (bool_decide (status = rs_approved))
      || (isPresent (rep_approvedAt report) && isPresent (rep_approvedBy report)))
  && (negb (bool_decide (status = rs_returned))
      || (isPresent (rep_returnedAt report) && isPresent (rep_returnedBy report)
          && isPresent (rep_returnComment report)))
  && forallb (λ line, validDecimal (Some (prl_quantity line)) 6 15
                      && validDecimal (prl_declaredQuantity line) 6 15) (rep_lines report)
  && forallb (validSourcePlan callId) (rep_sourcePlans report).

Definition validDeclaration (value : option PaidDeclaration) : bool :=
  match value with
  | None => true
  | Some value => isEmpty (pd_amountPaid value) || validDecimal (Some (pd_amountPaid value)) 2 32
  end.

Definition validInvoice (record : CloseoutRecord) (invoice : PreviewInvoice) : bool :=
  streq (inv_callId invoice) (cr_callId record)
  && existsb (λ report, streq (rep_id report) (inv_reportId invoice)) (cr_reports record)
  && validDecimal (Some (inv_total invoice)) 2 32
  && (isEmpty (inv_originalPaidAmount invoice)
      || validDecimal (Some (inv_originalPaidAmount invoice)) 2 15)
  && forallb validInvoiceLine (inv_lines invoice).

Definition validRecord (record : CloseoutRecord) : bool :=
  truthy (cr_callId record)
  && forallb (validReport (cr_callId record)) (cr_reports record)
  && forallb (validInvoice record) (cr_invoices record)
  && forallb (λ event, streq (pe_callId event) (cr_callId record)) (cr_events record)
  && validDeclaration (cr_declaration record).

(** ** Lemmas: decimal text *)

Lemma matchDecimal_digits s w f : matchDecimal s = Some (w, f) →
  w ≠ [] ∧ allDigits w = true ∧ allDigits f = true.
Proof.
  unfold matchDecimal. destruct (split cDot s) as [|w' [|f' [|]]]; [done|..|done].
  - destruct (digits1 w') eqn:E; [|done]. intros [= <- <-]. by apply digits1_split in E as [? ?].
  - destruct (digits1 w' && digits1 f') eqn:E; [|done]. intros [= <- <-].
    apply andb_true_iff in E as [[? ?]%digits1_split [_ ?]%digits1_split]. done.
Qed.

Lemma matchDecimal_text w f : w ≠ [] → allDigits w = true → allDigits f = true →
  matchDecimal (withFraction w f) = Some (w, f).
Proof.
  intros Hne Hw Hf. unfold withFraction, matchDecimal.
  assert (cDot ∉ w) by (by apply allDigits_not_in).
  assert (Hd : digits1 w = true) by (by apply digits1_split).
  destruct (truthy f) eqn:Ht.
  - rewrite split_app, (split_none cDot f) by (done || by apply allDigits_not_in).
    rewrite Hd. unfold digits1. by rewrite Ht, Hf.
  - destruct f; [|done]. rewrite app_nil_r, split_none by done. by rewrite Hd.
Qed.

Lemma decimal_bound v p m n : decimal v p m = Some n → 0 <= n < pow10 (m + p).
Proof.
  unfold decimal. destruct v as [v|]; [|done]. simpl.
  destruct (matchDecimal (trim v)) as [[w f]|] eqn:E; simpl; [|done].
  apply matchDecimal_digits in E as (_ & Hw & Hf). destruct (_ || _) eqn:G; [done|].
  apply orb_false_iff in G as [Gw%Nat.ltb_ge Gf%Nat.ltb_ge]. intros [= <-].
  rewrite bigOfDigits_padEnd. apply bigOfDigits_bound in Hw, Hf.
  assert (Hm := pow10_le _ _ Gw). pose proof (pow10_pos p).
  assert (bigOfDigits f * pow10 (p - length f) < pow10 p).
  { replace p with (length f + (p - length f))%nat at 2 by lia. rewrite pow10_add.
    pose proof (pow10_pos (p - length f)). nia. }
  rewrite pow10_add. pose proof (pow10_pos (p - length f)). nia.
Qed.

Lemma decimal_text w f p m : w ≠ [] → allDigits w = true → allDigits f = true →
  (length w ≤ m)%nat → (length f ≤ p)%nat →
  decimal (Some (withFraction w f)) p m = Some (bigOfDigits w * pow10 p + bigOfDigits f * pow10 (p - length f)).
Proof.
  intros Hne Hw Hf Hm Hp. unfold decimal. simpl.
  rewrite trim_noWs by (by apply withFraction_noWs). rewrite matchDecimal_text by done. simpl.
  rewrite (proj2 (Nat.ltb_ge _ _) Hm), (proj2 (Nat.ltb_ge _ _) Hp). simpl.
  by rewrite bigOfDigits_padEnd.
Qed.

(** The digits [fixed] prints. *)
Definition fixedWhole (n : Z) (p : nat) : str := printNat (n / pow10 p).
Definition fixedFraction (n : Z) (p : nat) : str := padStart p cZero (printNat (n mod pow10 p)).

Lemma fixed_nonneg n p : 0 <= n → fixed n p = fixedWhole n p ++ cDot :: fixedFraction n p.
Proof.
  intros Hn. unfold fixed, fixedWhole, fixedFraction, printZ. pose proof (pow10_pos p).
  rewrite (proj2 (Z.ltb_ge n 0)) by lia.
  rewrite (proj2 (Z.ltb_ge (n / _) 0)) by (apply Z.div_pos; lia).
  rewrite (proj2 (Z.ltb_ge (n mod _) 0)) by (apply Z.mod_pos_bound; lia). done.
Qed.
Lemma fixed_neg n p : n < 0 → fixed n p = cMinus :: fixed (- n) p.
Proof.
  intros Hn. unfold fixed. rewrite (proj2 (Z.ltb_lt n 0)) by lia.
  by rewrite (proj2 (Z.ltb_ge (- n) 0)) by lia.
Qed.

Lemma fixed_parts n p m : 0 <= n < pow10 (m + p) → (0 < m)%nat → (0 < p)%nat →
  fixedWhole n p ≠ [] ∧ allDigits (fixedWhole n p) = true ∧ allDigits (fixedFraction n p) = true ∧
  (length (fixedWhole n p) ≤ m)%nat ∧ length (fixedFraction n p) = p ∧
  bigOfDigits (fixedWhole n p) * pow10 p + bigOfDigits (fixedFraction n p) = n.
Proof.
  intros Hn Hm Hp. pose proof (pow10_pos p) as H10. rewrite pow10_add in Hn.
  assert (Hq : 0 <= n / pow10 p) by (apply Z.div_pos; lia).
  assert (Hlt : n / pow10 p < pow10 m) by (apply Z.div_lt_upper_bound; lia).
  assert (Hr : 0 <= n mod pow10 p < pow10 p) by (apply Z.mod_pos_bound; lia).
  unfold fixedWhole, fixedFraction.
  pose proof (printNat_digits1 _ Hq) as [Hne Hd]%digits1_split.
  rewrite allDigits_padStart, bigOfDigits_padStart, length_padStart.
  rewrite printNat_digits, !printNat_val by (exact Hq || exact (proj1 Hr)).
  pose proof (printNat_length _ p Hr Hp) as Hl. repeat split; try done.
  - apply printNat_digits, Hr.
  - by apply printNat_length.
  - by apply Nat.max_l.
  - rewrite Z.mul_comm. symmetry. apply Z.div_mod. lia.
Qed.

(** What [fixed] prints, [decimal] reads. *)
Lemma decimal_fixed n p m : 0 <= n < pow10 (m + p) → (0 < m)%nat → (0 < p)%nat →
  decimal (Some (fixed n p)) p m = Some n.
Proof.
  intros Hn Hm Hp. rewrite fixed_nonneg by lia.
  destruct (fixed_parts n p m Hn Hm Hp) as (Hne & Hw & Hf & Lw & Lf & Hv).
  assert (Ht : truthy (fixedFraction n p) = true) by (destruct (fixedFraction n p); simpl in *; [lia|done]).
  pose proof (decimal_text (fixedWhole n p) (fixedFraction n p) p m Hne Hw Hf Lw ltac:(lia)) as H.
  unfold withFraction in H. rewrite Ht in H. rewrite H, Lf, Nat.sub_diag. simpl. f_equal. lia.
Qed.

Lemma quantityText_nonneg n : 0 <= n →
  ∃ f k, quantityText n = withFraction (fixedWhole n 6) f ∧ fixedFraction n 6 = f ++ replicate k cZero.
Proof.
  intros Hn. unfold quantityText. rewrite fixed_nonneg by done.
  assert (Hr : 0 <= n mod pow10 6 < pow10 6) by (apply Z.mod_pos_bound; done).
  assert (Hf : allDigits (fixedFraction n 6) = true).
  { unfold fixedFraction. rewrite allDigits_padStart. apply printNat_digits. lia. }
  assert (Hl : (0 < length (fixedFraction n 6))%nat).
  { unfold fixedFraction. rewrite length_padStart. lia. }
  destruct (strip_decompose (fixedFraction n 6)) as (t & k & E & [->|(t' & c & -> & Hc)]).
  - exists [], k. split; [|done]. rewrite E. destruct k as [|k]; [rewrite E in Hl; simpl in Hl; lia|].
    rewrite app_nil_l, stripDotZeros_whole. unfold withFraction. simpl. by rewrite app_nil_r.
  - exists (t' ++ [c]), k. split; [|done]. rewrite E, <- app_assoc. simpl.
    change (cDot :: t' ++ c :: replicate k cZero) with ((cDot :: t') ++ c :: replicate k cZero).
    assert (Hd : isDigit c = true).
    { apply (allDigits_elem (fixedFraction n 6)); [done|]. rewrite E. set_solver. }
    rewrite stripDotZeros_frac by (done || intros ->; done).
    unfold withFraction. by destruct t'.
Qed.

Lemma decimal_quantityText n : 0 <= n < pow10 21 → decimal (Some (quantityText n)) 6 15 = Some n.
Proof.
  intros Hn. destruct (quantityText_nonneg n) as (f & k & -> & Hf); [lia|].
  destruct (fixed_parts n 6 15 Hn ltac:(lia) ltac:(lia)) as (Hne & Hw & Hff & Lw & Lf & Hv).
  rewrite Hf, allDigits_app in Hff. apply andb_true_iff in Hff as [Hff _].
  rewrite Hf, length_app, length_replicate in Lf.
  pose proof (decimal_text _ f 6 15 Hne Hw Hff Lw ltac:(lia)) as ->.
  rewrite Hf, bigOfDigits_strip in Hv.
  replace (6 - length f)%nat with k by lia. by rewrite Hv.
Qed.

Lemma quantityText_neg n : n < 0 → quantityText n = cMinus :: quantityText (- n).
Proof.
  intros Hn. unfold quantityText. rewrite fixed_neg by done. rewrite fixed_nonneg by lia.
  apply (stripDotZeros_app [cMinus] _ cDot); [set_solver|done].
Qed.

Lemma dropMinus_quantityText n : dropMinus (quantityText n) = quantityText (Z.abs n).
Proof.
  destruct (Z.ltb_spec n 0) as [Hn|Hn].
  - rewrite quantityText_neg by done. simpl. by rewrite Z.abs_neq by lia.
  - rewrite Z.abs_eq by done. destruct (quantityText_nonneg n Hn) as (f & k & -> & _).
    assert (Hd : digits1 (fixedWhole n 6) = true).
    { apply printNat_digits1. apply Z.div_pos; [done|apply pow10_pos]. }
    unfold withFraction. apply digits1_split in Hd as [Hne Hd].
    destruct (fixedWhole n 6) as [|c w]; [done|]. simpl.
    rewrite allDigits_cons in Hd. apply andb_true_iff in Hd as [Hc _]. unfold isDigit in Hc. bool_hyps.
    by rewrite (proj2 (N.eqb_neq c cMinus)) by (unfold cMinus; lia).
Qed.

(** ** Lemmas: the additional-load calculation *)

Definition amountOf (line : PreviewInvoiceLine) : Z := default 0 (decimal (Some (il_amount line)) 2 32).

(** The line status, from the variance, the entitlement and what was billed before. *)
Definition statusFor (variance entitlement previous : Z) (s : VariationLineStatus) : Prop :=
  match s with
  | ls_overpayment => variance < 0
  | ls_held => 0 <= variance ∧ entitlement < previous
  | ls_charge => 0 <= variance ∧ previous < entitlement
  | ls_no_charge => 0 <= variance ∧ entitlement = previous
  end.

(** A line priced exactly: quantities in millionths, the rate in ten-thousandths, money in
    cents.  The entitlement is [variance * rate] rounded to the nearest cent, halves up. *)
Definition exactLine (inputs : list PreviewInvoiceLineInput) (row : PreviewReportLine)
    (line : PreviewInvoiceLine) : Prop :=
  il_input line ∈ inputs ∧ ili_planId line = prl_planId row ∧ ili_lineId line = prl_lineId row ∧
  ∃ baseline final rate previous entitlement,
    decimal (prl_declaredQuantity row) 6 15 = Some baseline ∧
    decimal (Some (prl_quantity row)) 6 15 = Some final ∧
    decimal (Some (ili_rate line)) 4 15 = Some rate ∧
    decimal (Some (ili_previousVariationAmount line)) 2 15 = Some previous ∧
    decimal (Some (dropMinus (il_variance line))) 6 15 = Some (Z.abs (final - baseline)) ∧
    (startsWith (js "-") (il_variance line) = true ↔ final < baseline) ∧
    decimal (Some (il_entitlement line)) 2 32 = Some entitlement ∧
    decimal (Some (il_amount line)) 2 32 = Some (Z.max 0 (entitlement - previous)) ∧
    (baseline <= final → - 50000000 < entitlement * 100000000 - (final - baseline) * rate <= 50000000) ∧
    (final <= baseline → entitlement = 0) ∧
    statusFor (final - baseline) entitlement previous (il_status line).

Lemma startsWith_minus_quantityText n : startsWith (js "-") (quantityText n) = true ↔ n < 0.
Proof.
  destruct (Z.ltb_spec n 0) as [Hn|Hn].
  - rewrite quantityText_neg by done. done.
  - split; [|lia]. pose proof (dropMinus_quantityText n) as Hd. rewrite Z.abs_eq in Hd by done.
    destruct (quantityText n) as [|c s]; [done|].
    change (startsWith (js "-") (c :: s)) with (N.eqb cMinus c && true). rewrite andb_true_r.
    intros <-%N.eqb_eq. simpl in Hd. exfalso. apply (f_equal length) in Hd. simpl in Hd. lia.
Qed.

Definition entitlementOf (variance rate : Z) : Z :=
  if 0 <? variance then (variance * rate + 50000000) / 100000000 else 0.

Lemma entitlementOf_bound variance rate : variance < pow10 21 → 0 <= rate < pow10 19 →
  0 <= entitlementOf variance rate <= pow10 32.
Proof.
  intros Hv Hr. unfold entitlementOf. destruct (Z.ltb_spec 0 variance); [|done].
  change (pow10 21) with 1000000000000000000000 in Hv. change (pow10 19) with 10000000000000000000 in Hr.
  assert (0 <= variance * rate <= 1000000000000000000000 * 10000000000000000000) by nia.
  split; [apply Z.div_pos; lia|]. apply Z.lt_succ_r, Z.div_lt_upper_bound; [done|].
  change (pow10 32) with 100000000000000000000000000000000. lia.
Qed.

Lemma entitlementOf_nearest variance rate : 0 <= variance → 0 <= rate →
  - 50000000 < entitlementOf variance rate * 100000000 - variance * rate <= 50000000.
Proof.
  intros Hv Hr. unfold entitlementOf. destruct (Z.ltb_spec 0 variance).
  - pose proof (Z.div_mod (variance * rate + 50000000) 100000000 ltac:(done)).
    pose proof (Z.mod_pos_bound (variance * rate + 50000000) 100000000 ltac:(done)).
    generalize dependent (variance * rate). intros p. lia.
  - assert (variance = 0) as -> by lia. lia.
Qed.

Lemma variationLine_spec inputs row line a : variationLine inputs row = Ok (line, a) →
  exactLine inputs row line ∧ decimal (Some (il_amount line)) 2 32 = Some a ∧
  0 <= a <= pow10 32 ∧ (il_status line = ls_charge ↔ 0 < a) ∧ validInvoiceLine line = true.
Proof.
  unfold variationLine.
  destruct (findb _ inputs) as [input|] eqn:Ef; [|done].
  apply findb_Some in Ef as [Hin [Hp%streq_true Hl%streq_true]%andb_true_iff].
  destruct (prl_declaredQuantity row) as [declared|] eqn:Ed; [|done].
  destruct (decimal (Some declared) 6 15) as [b|] eqn:Eb; [|done].
  destruct (decimal (Some (prl_quantity row)) 6 15) as [f|] eqn:Ef'; [|done].
  destruct (decimal (Some (ili_rate input)) 4 15) as [r|] eqn:Er; [|done].
  destruct (decimal (Some (ili_previousVariationAmount input)) 2 15) as [p|] eqn:Ep; [|done].
  pose proof (decimal_bound _ _ _ _ Eb) as Bb. pose proof (decimal_bound _ _ _ _ Ef') as Bf.
  pose proof (decimal_bound _ _ _ _ Er) as Br. pose proof (decimal_bound _ _ _ _ Ep) as Bp.
  simpl Nat.add in *. fold (entitlementOf (f - b) r).
  pose proof (entitlementOf_bound (f - b) r ltac:(lia) Br) as Be.
  pose proof (entitlementOf_nearest (f - b) r) as Hnear.
  assert (Hz : f <= b → entitlementOf (f - b) r = 0)
    by (unfold entitlementOf; intros; by rewrite (proj2 (Z.ltb_ge _ _)) by lia).
  set (e := entitlementOf (f - b) r) in *. clearbody e.
  replace (if p <? e then e - p else 0) with (Z.max 0 (e - p)) by (destruct (Z.ltb_spec p e); lia).
  assert (Hlim : pow10 32 < pow10 (32 + 2)) by done.
  assert (De : decimal (Some (fixed e 2)) 2 32 = Some e) by (apply decimal_fixed; lia).
  assert (Da : decimal (Some (fixed (Z.max 0 (e - p)) 2)) 2 32 = Some (Z.max 0 (e - p)))
    by (apply decimal_fixed; lia).
  assert (Dv : decimal (Some (dropMinus (quantityText (f - b)))) 6 15 = Some (Z.abs (f - b)))
    by (rewrite dropMinus_quantityText; apply decimal_quantityText; lia).
  intros [= <- <-]. split; [|split; [exact Da|split; [lia|split]]].
  - split; [done|]. split; [done|]. split; [done|]. exists b, f, r, p, e. rewrite Ed.
    cbn [il_input il_variance il_entitlement il_amount il_status].
    do 5 (split; [done|]). rewrite startsWith_minus_quantityText. split; [lia|].
    do 2 (split; [done|]). split; [intros; apply Hnear; lia|]. split; [done|].
    repeat case_match; bool_hyps; simpl; lia.
  - cbn [il_status]. clear - Hz Bp Be.
    repeat case_match; bool_hyps; split; intros; first [discriminate|reflexivity|lia|exfalso; lia].
  - unfold validInvoiceLine, validDecimal.
    cbn [il_input il_declaredQuantity il_finalQuantity il_variance il_entitlement il_amount].
    by rewrite Eb, Ef', Dv, Er, Ep, Da, De.
Qed.

Lemma flat_map_errOf_nil {A B E} (f : A → result E B) l :
  flat_map errOf (map f l) = [] ↔ Forall2 (λ x y, f x = Ok y) l (flat_map okOf (map f l)).
Proof.
  induction l as [|x l IH]; simpl; [by split|].
  destruct (f x) as [y|e] eqn:E1; simpl.
  - rewrite IH. split; [by constructor|]. by intros [? ?]%Forall2_cons.
  - split; [done|]. intros H. exfalso. apply Forall2_length in H. simpl in H.
    assert (length (flat_map okOf (map f l)) ≤ length l)%nat; [|lia].
    clear. induction l as [|x l IH]; simpl; [done|]. destruct (f x); simpl; lia.
Qed.

(** The rows of a calculation: every computed line with its amount. *)
Lemma okRows_spec inputs rows : Forall
  (λ la, decimal (Some (il_amount la.1)) 2 32 = Some la.2 ∧ 0 <= la.2 <= pow10 32 ∧
         (il_status la.1 = ls_charge ↔ 0 < la.2) ∧ validInvoiceLine la.1 = true)
  (flat_map okOf (map (variationLine inputs) rows)).
Proof.
  induction rows as [|row rows IH]; simpl; [constructor|].
  destruct (variationLine inputs row) as [[line a]|] eqn:E; simpl; [|done].
  apply variationLine_spec in E as (_ & H). by constructor.
Qed.

Definition sumZ (l : list Z) : Z := foldr Z.add 0 l.

Lemma amountOf_Some line a : decimal (Some (il_amount line)) 2 32 = Some a → amountOf line = a.
Proof. unfold amountOf. by intros ->. Qed.

Lemma okRows_sum inputs rows :
  sumZ (flat_map okOf (map (variationLine inputs) rows)).*2 =
  sumZ (map amountOf (flat_map okOf (map (variationLine inputs) rows)).*1).
Proof.
  unfold sumZ.
  pose proof (okRows_spec inputs rows) as H. revert H. generalize (flat_map okOf (map (variationLine inputs) rows)).
  induction 1 as [|[l a] rs (Ha & _) _ IH]; csimpl; [done|].
  cbn [fst snd] in Ha. rewrite IH. by rewrite (amountOf_Some l a Ha).
Qed.

Lemma foldl_sum {A} (f : A → Z) l acc : foldl (λ s x, s + f x) acc l = acc + sumZ (map f l).
Proof. revert acc. induction l as [|x l IH]; intros acc; simpl; [lia|]. rewrite IH. simpl. lia. Qed.

Lemma okRows_charges inputs rows :
  sumZ (map (λ line, if bool_decide (il_status line = ls_charge) then amountOf line else 0)
         (flat_map okOf (map (variationLine inputs) rows)).*1) =
  sumZ (flat_map okOf (map (variationLine inputs) rows)).*2.
Proof.
  unfold sumZ.
  pose proof (okRows_spec inputs rows) as H. revert H. generalize (flat_map okOf (map (variationLine inputs) rows)).
  induction 1 as [|[l a] rs (Ha & Hb & Hc & _) _ IH]; csimpl; [done|].
  cbn [fst snd] in *. rewrite IH, (amountOf_Some l a Ha). case_bool_decide; [done|].
  assert (¬ 0 < a) by tauto. lia.
Qed.

Lemma okRows_sum_bound inputs rows :
  0 <= sumZ (flat_map okOf (map (variationLine inputs) rows)).*2 <= Z.of_nat (length rows) * pow10 32.
Proof.
  unfold sumZ. induction rows as [|row rows [IH1 IH2]]; [done|]. cbn [map flat_map length].
  rewrite Nat2Z.inj_succ, Z.mul_succ_l. pose proof (pow10_pos 32).
  destruct (variationLine inputs row) as [[line a]|] eqn:E; cbn [okOf app].
  - apply variationLine_spec in E as (_ & _ & Ha & _). csimpl. split; [apply Z.add_nonneg_nonneg; [apply Ha|exact IH1]|].
    rewrite Z.add_comm. apply Z.add_le_mono; [exact IH2|apply Ha].
  - split; [exact IH1|]. rewrite <- (Z.add_0_r (foldr _ _ _)). apply Z.add_le_mono; [exact IH2|by apply Z.lt_le_incl].
Qed.

(** The parts of a calculation by name. *)
Definition okRows (report : PreviewReport) (inputs : list PreviewInvoiceLineInput) :=
  flat_map okOf (map (variationLine inputs) (rep_lines report)).

Lemma calc_lines_okRows report inputs :
  calc_lines (calculateVariation report inputs) = (okRows report inputs).*1.
Proof. done. Qed.

Lemma calc_sum report inputs :
  sumZ (map amountOf (calc_lines (calculateVariation report inputs))) = sumZ (okRows report inputs).*2.
Proof. symmetry. apply okRows_sum. Qed.

Lemma okRows_amount report inputs line : line ∈ calc_lines (calculateVariation report inputs) →
  0 <= amountOf line <= pow10 32 ∧ (il_status line = ls_charge ↔ 0 < amountOf line) ∧
  validInvoiceLine line = true.
Proof.
  rewrite calc_lines_okRows. intros ((l & a) & -> & Hin)%list_elem_of_fmap.
  pose proof (okRows_spec inputs (rep_lines report)) as H. rewrite Forall_forall in H.
  destruct (H _ Hin) as (Ha & Hb & Hc & Hv). cbn [fst snd] in *. by rewrite (amountOf_Some l a).
Qed.

Lemma sumZ_pos l : Forall (λ z, 0 <= z) l → 0 <= sumZ l ∧ (0 < sumZ l ↔ ∃ z, z ∈ l ∧ 0 < z).
Proof.
  unfold sumZ. induction 1 as [|z l Hz _ [IH1 IH2]]; simpl.
  - split; [lia|]. split; [lia|]. by intros (? & ?%elem_of_nil & _).
  - split; [lia|]. setoid_rewrite elem_of_cons. destruct (Z.ltb_spec 0 z).
    + split; [intros _; by exists z; eauto|lia].
    + split; [intros Hs; destruct (proj1 IH2) as (y & ? & ?); [lia|eauto]|].
      intros (y & [->|Hy] & ?); [lia|]. assert (0 < foldr Z.add 0 l) by (apply IH2; eauto). lia.
Qed.

(** What each overall status means. *)
Definition statusMeaning (c : Calculation) : Prop :=
  let held line := il_status line = ls_held in
  let overpaid line := il_status line = ls_overpayment in
  let amount := sumZ (map amountOf (calc_lines c)) in
  match calc_status c with
  | is_held => (calc_issues c ≠ [] ∨ ∃ line, line ∈ calc_lines c ∧ held line) ∧
      calc_total c = js "0.00"
  | is_overpayment => calc_issues c = [] ∧ (∀ line, line ∈ calc_lines c → ¬ held line) ∧
      (∃ line, line ∈ calc_lines c ∧ overpaid line) ∧ calc_total c = js "0.00"
  | is_draft => calc_issues c = [] ∧ (∀ line, line ∈ calc_lines c → ¬ held line ∧ ¬ overpaid line) ∧
      (∃ line, line ∈ calc_lines c ∧ il_status line = ls_charge) ∧ 0 < amount ∧
      calc_total c = fixed amount 2 ∧ additionalLoadAmount (calc_lines c) = calc_total c
  | is_no_charge => calc_issues c = [] ∧
      (∀ line, line ∈ calc_lines c → il_status line = ls_no_charge) ∧ amount = 0 ∧
      calc_total c = js "0.00"
  end.

Lemma additionalLoad_okRows report inputs :
  additionalLoadAmount (calc_lines (calculateVariation report inputs)) =
  fixed (sumZ (okRows report inputs).*2) 2.
Proof.
  unfold additionalLoadAmount.
  rewrite (foldl_sum (λ line, if bool_decide (il_status line = ls_charge) then
    default 0 (decimal (Some (il_amount line)) 2 32) else 0)), Z.add_0_l.
  f_equal. apply okRows_charges.
Qed.

Lemma hasStatus_true s lines : hasStatus s lines = true ↔ ∃ line, line ∈ lines ∧ il_status line = s.
Proof. unfold hasStatus. rewrite existsb_true. by setoid_rewrite bool_decide_eq_true. Qed.
Lemma hasStatus_false s lines : hasStatus s lines = false ↔ ∀ line, line ∈ lines → il_status line ≠ s.
Proof. unfold hasStatus. rewrite existsb_false. by setoid_rewrite bool_decide_eq_false. Qed.

Lemma statusMeaning_intro (c : Calculation) :
  (∀ line, line ∈ calc_lines c → 0 <= amountOf line ∧ (il_status line = ls_charge ↔ 0 < amountOf line)) →
  calc_status c =
    (if negb (match calc_issues c with [] => true | _ => false end)
        || hasStatus ls_held (calc_lines c) then is_held
     else if hasStatus ls_overpayment (calc_lines c)
     then is_overpayment
     else if 0 <? sumZ (map amountOf (calc_lines c)) then is_draft else is_no_charge) →
  calc_total c = match calc_status c with is_held | is_overpayment => js "0.00"
    | _ => fixed (sumZ (map amountOf (calc_lines c))) 2 end →
  additionalLoadAmount (calc_lines c) = fixed (sumZ (map amountOf (calc_lines c))) 2 →
  statusMeaning c.
Proof.
  intros Hl Hs Ht Hadd. unfold statusMeaning.
  assert (Hpos : Forall (λ z, 0 <= z) (map amountOf (calc_lines c))).
  { apply Forall_map, Forall_forall. intros l Hin. by apply Hl. }
  apply sumZ_pos in Hpos as [Hnn Hpos].
  destruct (negb _) eqn:Ei; simpl in Hs.
  { rewrite Hs in Ht |- *. split; [left; by destruct (calc_issues c)|done]. }
  assert (Hi : calc_issues c = []) by (by destruct (calc_issues c)).
  destruct (hasStatus ls_held _) eqn:Eh; [apply hasStatus_true in Eh; rewrite Hs in Ht |- *; auto|].
  assert (Eh' := proj1 (hasStatus_false _ _) Eh).
  destruct (hasStatus ls_overpayment _) eqn:Eo;
    [apply hasStatus_true in Eo; rewrite Hs in Ht |- *; auto|].
  assert (Eo' := proj1 (hasStatus_false _ _) Eo).
  destruct (Z.ltb_spec 0 (sumZ (map amountOf (calc_lines c)))) as [Hp|Hp]; rewrite Hs in Ht |- *.
  - split; [done|]. split; [by auto|]. split; [|by rewrite Hadd].
    apply Hpos in Hp as (z & (l & -> & Hin)%list_elem_of_fmap & Hz). exists l. split; [done|]. by apply Hl.
  - assert (Hz : sumZ (map amountOf (calc_lines c)) = 0) by lia. split; [done|].
    rewrite Hz in Ht. split; [|done]. intros l Hin.
    destruct (il_status l) eqn:El; [|done|by destruct (Eo' l)|by destruct (Eh' l)].
    exfalso. apply (Zle_not_lt _ _ Hp), Hpos. exists (amountOf l). split; [|by apply Hl].
    apply list_elem_of_fmap. by exists l.
Qed.

(** The overall status of a calculation and its payable total: an issue or a held line
    holds it, an overpaid line sends it to review, both with a total of 0.00; only a
    calculation with neither is payable, and its total is the sum of its lines' amounts. *)
Theorem calculateVariation_status report inputs :
  statusMeaning (calculateVariation report inputs).
Proof.
  apply statusMeaning_intro.
  - intros line Hin. apply okRows_amount in Hin. tauto.
  - by rewrite calc_sum.
  - by rewrite calc_sum.
  - by rewrite additionalLoad_okRows, calc_sum.
Qed.

(** C1. A calculation is exact. Without issues every report line is priced exactly, in
    order; the total of a held calculation or of an overpayment review is 0.00, any other
    total is the printed sum of the amounts of the lines, and it reads back as that sum in
    every width that holds it, which 32 whole digits do for fewer than a hundred lines. *)
Theorem calculateVariation_exact report inputs :
  let c := calculateVariation report inputs in
  let sum := sumZ (map amountOf (calc_lines c)) in
  let payable := calc_status c ≠ is_held ∧ calc_status c ≠ is_overpayment in
  (calc_issues c = [] → Forall2 (exactLine inputs) (rep_lines report) (calc_lines c)) ∧
  (¬ payable → calc_total c = js "0.00") ∧
  (payable → calc_issues c = [] ∧ calc_total c = fixed sum 2 ∧
     (∀ m, (0 < m)%nat → sum < pow10 (m + 2) → decimal (Some (calc_total c)) 2 m = Some sum) ∧
     ((length (rep_lines report) < 100)%nat → sum < pow10 (32 + 2))).
Proof.
  intros c sum payable. destruct (okRows_sum_bound inputs (rep_lines report)) as [Hb1 Hb2].
  assert (Hsum : sum = sumZ (okRows report inputs).*2) by apply calc_sum.
  split; [|split].
  - intros [_ Hi]%app_eq_nil. apply flat_map_errOf_nil in Hi.
    apply Forall2_fmap_r. eapply Forall2_impl; [exact Hi|].
    intros row [line a] H. by apply variationLine_spec in H as [? _].
  - intros Hn. pose proof (calculateVariation_status report inputs) as Hm. unfold statusMeaning in Hm.
    fold c in Hm. destruct (calc_status c) eqn:E; try tauto; destruct Hn; by split.
  - intros [Hh Ho]. pose proof (calculateVariation_status report inputs) as Hm.
    assert (Ht : calc_total c = fixed sum 2).
    { rewrite Hsum. subst c. unfold calculateVariation, calc_total, calc_status in *. by repeat case_match. }
    split; [unfold statusMeaning in Hm; fold c in Hm; destruct (calc_status c); tauto|].
    split; [exact Ht|]. split.
    + intros m Hm0 Hlt. rewrite Ht. apply decimal_fixed; [|lia|lia]. rewrite Hsum in *. by split.
    + intros Hlen. rewrite Hsum. eapply Z.le_lt_trans; [exact Hb2|].
      change (pow10 (32 + 2)) with (100 * pow10 32).
      apply Z.mul_lt_mono_pos_r; [apply pow10_pos|lia].
Qed.

Definition sampleLine (q : str) : PreviewReportLine :=
  mkReportLine (js "p1") (js "l1") q (js "agreed") (js "Crude oil") tonnes (Some (js "1000")).
Definition sampleReport (q : str) : PreviewReport :=
  mkReport (js "r1") (js "call-0001") 1 (Some rs_submitted) [] None None (js "ok") [sampleLine q] []
    None None None None None.
Definition sampleRates : list PreviewInvoiceLineInput :=
  [mkInvoiceLineInput (js "p1") (js "l1") (js "2.5") (js "0")].

(** 0.005 tonnes at 2.5 is 1.25 cents, billed as one cent. *)
Example calculateVariation_ex :
  let c := calculateVariation (sampleReport (js "1000.005")) sampleRates in
  calc_status c = is_draft ∧ calc_total c = js "0.01" ∧ map il_variance (calc_lines c) = [js "0.005"].
Proof. vm_compute. done. Qed.

Lemma calculateVariation_exact_witness :
  decimal (Some (calc_total (calculateVariation (sampleReport (js "1012.4")) sampleRates))) 2 32
    = Some 3100.
Proof.
  destruct (calculateVariation_exact (sampleReport (js "1012.4")) sampleRates) as (_ & _ & H).
  destruct H as (_ & _ & Hread & Hw); [split; vm_compute; discriminate|].
  rewrite (Hread 32%nat); [vm_compute; reflexivity|lia|apply Hw; simpl; lia].
Defined.

(** ** Lemmas: the fingerprint *)

Section FingerprintLemmas.
Context `{Host}.

(** What a fingerprint identifies about a plan. *)
Record PlanInputs := mkPlanInputs {
  pin_id : str; pin_callId : str; pin_version : Z; pin_title : str; pin_scope : str;
  pin_lines : list CargoLine; pin_participants : list Participant; pin_returns : list Submission;
  pin_reconciliations : list Reconciliation }.
Definition planInputs (plan : MeasurementPlan) : PlanInputs :=
  mkPlanInputs (plan_id plan) (plan_callId plan) (plan_version plan) (plan_title plan)
    (plan_scope plan) (plan_lines plan) (plan_participants plan) (sortedReturns plan)
    (plan_reconciliations plan).

(** Reading the fingerprint's object back. *)
Definition dec_PlanInputs (j : json) : option PlanInputs :=
  x0 ← req (js "id") j; x1 ← req (js "callId") j; x2 ← req (js "version") j;
  x3 ← req (js "title") j; x4 ← req (js "scope") j; x5 ← req (js "lines") j;
  x6 ← req (js "participants") j; x7 ← req (js "returns") j; x8 ← req (js "reconciliations") j;
  Some (mkPlanInputs x0 x1 x2 x3 x4 x5 x6 x7 x8).

Lemma dec_planFingerprint plan : dec_PlanInputs (planFingerprint plan) = Some (planInputs plan).
Proof.
  unfold dec_PlanInputs, planFingerprint.
  repeat erewrite req_mkObj by solve_lookup. reflexivity.
Qed.

Lemma fingerprint_inputs plans plans' :
  voyageInputFingerprint plans = voyageInputFingerprint plans' ↔
  map planInputs (activePlans plans) = map planInputs (activePlans plans').
Proof.
  unfold voyageInputFingerprint. split.
  - intros He%stringify_enc_inj.
    apply (f_equal (map dec_PlanInputs)) in He. rewrite !map_map in He.
    rewrite !(map_ext _ _ dec_planFingerprint) in He.
    revert He. generalize (activePlans plans) (activePlans plans').
    induction l as [|p l IH]; intros [|q l']; simpl; try done.
    intros He. f_equal; [congruence|]. apply IH. congruence.
  - intros He. f_equal. f_equal.
    assert (Hg : ∀ l, map planFingerprint l = map (λ i, mkObj [
      fld "id" (pin_id i); fld "callId" (pin_callId i); fld "version" (pin_version i);
      fld "title" (pin_title i); fld "scope" (pin_scope i); fld "lines" (pin_lines i);
      fld "participants" (pin_participants i); fld "returns" (pin_returns i);
      fld "reconciliations" (pin_reconciliations i)]) (map planInputs l))
      by (intros l; by rewrite map_map).
    by rewrite Hg, He, <- Hg.
Qed.

Lemma activePlans_elem plans plan :
  plan ∈ activePlans plans ↔ plan ∈ plans ∧ plan_status plan ≠ plan_cancelled.
Proof.
  unfold activePlans. rewrite elem_of_sort_by, elem_of_filterb, negb_true_iff.
  by rewrite bool_decide_eq_false.
Qed.

Lemma activePlans_idem plans : activePlans (activePlans plans) = activePlans plans.
Proof.
  unfold activePlans at 1. rewrite filterb_all.
  - apply sort_by_id, sort_by_sorted. intros x y Hxy. apply localeCompare_flip in Hxy. lia.
  - intros p [_ Hp]%activePlans_elem. by apply negb_true_iff, bool_decide_eq_false.
Qed.

Lemma fingerprint_active plans :
  voyageInputFingerprint (activePlans plans) = voyageInputFingerprint plans.
Proof. unfold voyageInputFingerprint. by rewrite activePlans_idem. Qed.

Lemma matchesInputs_true report plans : matchesInputs report plans = true ↔
  rep_sourceFingerprint report = voyageInputFingerprint plans ∧
  ∀ plan, plan ∈ activePlans plans → plan_callId plan = rep_callId report.
Proof.
  unfold matchesInputs. rewrite andb_true_iff, streq_true, forallb_true. by setoid_rewrite streq_true.
Qed.
End FingerprintLemmas.
