(* ===== verification/CloseoutJson.v ===== *)
(** * The saved previews as they are read (frontend/src/measurements/closeoutPreview.ts)

    A saved document is read as raw JSON and accepted by the validators alone: what they
    do not look at may be missing or of any type.  The first half is those validators, on
    the JSON value; the second reads an accepted value at the record types, with an
    absent or unusable member as its type's empty value.  On a value the code wrote, the
    validators are the typed ones of Closeout.v and the reading gives the record back. *)
From S2P Require Import Prelude JsString Json Codec MeasurementTypes Host Helpers CloseoutTypes Closeout.

(** ** The validators *)

(** [typeof value[k] === "string"] and its likes; a member of [null] throws, which the
    reader catches as it catches a failed test. *)
Definition hasStr (k : string) (j : json) : bool :=
  match jget (js k) j with Some (JStr _) => true | _ => false end.
Definition hasInt (k : string) (j : json) : bool :=
  match jget (js k) j with Some (JNum _) => true | _ => false end.
Definition hasBool (k : string) (j : json) : bool :=
  match jget (js k) j with Some (JBool _) => true | _ => false end.
Definition hasArr (k : string) (j : json) : bool :=
  match jget (js k) j with Some (JArr _) => true | _ => false end.
(** [value[k] === s] *)
Definition isStr (k : string) (s : str) (j : json) : bool :=
  match jget (js k) j with Some (JStr s') => streq s' s | _ => false end.
(** [literals.includes(value[k])] *)
Definition oneOf {A} (lit : A → str) (all : list A) (k : string) (j : json) : bool :=
  match jget (js k) j with Some v => isPresent (decLit lit all v) | None => false end.
(** [decimal(value[k], precision, maxWhole) !== null] *)
Definition hasDecimal (k : string) (precision maxWhole : nat) (j : json) : bool :=
  match jget (js k) j with Some (JStr s) => validDecimal (Some s) precision maxWhole | _ => false end.
(** [Array.isArray(value[k]) && value[k].every(f)] *)
Definition every (k : string) (f : json → bool) (j : json) : bool :=
  match jget (js k) j with Some (JArr l) => forallb f l | _ => false end.
Definition itemsAt (k : string) (j : json) : list json :=
  match jget (js k) j with Some (JArr l) => l | _ => [] end.

Definition UNITS : list QuantityUnit := [tonnes; count; m3].

Definition validActor (k : string) (j : json) : bool :=
  match jget (js k) j with Some actor => hasStr "name" actor && hasStr "id" actor | None => false end.

Definition validCargoJson (line : json) : bool :=
  hasStr "id" line && hasStr "description" line && hasStr "category" line
  && hasStr "direction" line && hasStr "basis" line && hasStr "containerSize" line
  && hasStr "loadStatus" line && hasStr "baselineReference" line
  && oneOf unit_lit UNITS "unit" line && hasDecimal "manifestQuantity" 6 15 line.
Definition validPartyJson (party : json) : bool :=
  hasStr "id" party && hasStr "name" party && hasStr "role" party
  && hasStr "representative" party && hasBool "requiredSubmission" party
  && hasBool "requiredApproval" party.
Definition validReadingJson (line : json) : bool :=
  hasStr "lineId" line && hasStr "note" line
  && oneOf lineStatus_lit [reported; not_applicable] "status" line
  && match jget (js "quantity") line with
     | Some JNull => true
     | _ => hasDecimal "quantity" 6 15 line
     end.
Definition validSubmissionJson (submission : json) : bool :=
  hasStr "id" submission && hasStr "participantId" submission && hasInt "revision" submission
  && every "lines" validReadingJson submission.
Definition validSourcePlanJson (callId : str) (plan : json) : bool :=
  isStr "callId" callId plan && hasStr "id" plan && hasStr "title" plan && hasStr "scope" plan
  && hasStr "vesselName" plan && hasStr "callReference" plan && hasInt "version" plan
  && every "lines" validCargoJson plan && every "participants" validPartyJson plan
  && every "submissions" validSubmissionJson plan && hasArr "reconciliations" plan.

Definition validInvoiceLineJson (line : json) : bool :=
  hasStr "planId" line && hasStr "lineId" line && hasStr "description" line
  && oneOf unit_lit UNITS "unit" line && hasDecimal "declaredQuantity" 6 15 line
  && hasDecimal "finalQuantity" 6 15 line
  && match jget (js "variance") line with
     | Some (JStr v) => validDecimal (Some (dropMinus v)) 6 15
     | _ => false
     end
  && hasDecimal "rate" 4 15 line && hasDecimal "previousVariationAmount" 2 15 line
  && hasDecimal "amount" 2 32 line && hasDecimal "entitlement" 2 32 line
  && oneOf variationStatus_lit [ls_charge; ls_no_charge; ls_overpayment; ls_held] "status" line.

(** [report.status ?? "approved"], when it is one of the three. *)
Definition statusJson (report : json) : option PreviewReportStatus :=
  match jget (js "status") report with
  | None | Some JNull => Some rs_approved
  | Some v => decLit reportStatus_lit [rs_submitted; rs_approved; rs_returned] v
  end.
Definition validReportLineJson (line : json) : bool :=
  hasStr "planId" line && hasStr "lineId" line && hasStr "description" line
  && hasStr "reason" line && oneOf unit_lit UNITS "unit" line
  && hasDecimal "quantity" 6 15 line && hasDecimal "declaredQuantity" 6 15 line.
Definition validReportJson (callId : str) (report : json) : bool :=
  let reviewed := negb (isPresent (jget (js "status") report))
    || (hasStr "preparedAt" report && validActor "preparedBy" report) in
  isStr "callId" callId report && hasStr "id" report && hasStr "sourceFingerprint" report
  && hasInt "revision" report && hasStr "reason" report
  && match statusJson report with
     | None => false
     | Some status => reviewed
       && (negb (bool_decide (status = rs_approved))
           || (hasStr "approvedAt" report && validActor "approvedBy" report))
       && (negb (bool_decide (status = rs_returned))
           || (hasStr "returnedAt" report && validActor "returnedBy" report
               && hasStr "returnComment" report))
     end
  && every "lines" validReportLineJson report
  && every "sourcePlans" (validSourcePlanJson callId) report.

(** [record.reports.some(report => report.id === invoice.reportId)], whose ids are
    strings by then. *)
Definition hasReport (reports : list json) (invoice : json) : bool :=
  match jget (js "reportId") invoice with
  | Some (JStr reportId) => existsb (isStr "id" reportId) reports
  | _ => false
  end.
Definition validInvoiceJson (callId : str) (reports : list json) (invoice : json) : bool :=
  isStr "callId" callId invoice && hasStr "id" invoice && hasStr "number" invoice
  && hasReport reports invoice
  && oneOf currency_lit [USD; NGN] "currency" invoice
  && oneOf invoiceStatus_lit [is_draft; is_no_charge; is_held; is_overpayment] "status" invoice
  && hasDecimal "total" 2 32 invoice && hasStr "createdAt" invoice
  && validActor "createdBy" invoice && hasStr "payer" invoice
  && hasStr "originalInvoiceReference" invoice && hasStr "tariffReference" invoice
  && hasStr "previousVariationReference" invoice
  && oneOf payment_lit [paid; unconfirmed] "paymentStatus" invoice
  && (isStr "originalPaidAmount" [] invoice || hasDecimal "originalPaidAmount" 2 15 invoice)
  && every "lines" validInvoiceLineJson invoice.

Definition validEventJson (callId : str) (event : json) : bool :=
  isStr "callId" callId event && hasStr "id" event && hasStr "at" event
  && validActor "actor" event && hasStr "reference" event
  && oneOf eventAction_lit EVENT_ACTIONS "action" event.

Definition validDeclarationJson (value : json) : bool :=
  hasStr "payer" value && hasStr "agent" value && hasStr "invoiceReference" value
  && hasStr "amountPaid" value && hasStr "paidOn" value && hasStr "updatedAt" value
  && oneOf currency_lit [USD; NGN] "currency" value
  && oneOf payment_lit [paid; unconfirmed] "paymentStatus" value
  && (isStr "amountPaid" [] value || hasDecimal "amountPaid" 2 32 value)
  && validActor "updatedBy" value.

Definition validRecordJson (value : json) : bool :=
  match jget (js "callId") value with
  | Some (JStr callId) =>
    truthy callId && hasArr "events" value
    && every "reports" (validReportJson callId) value
    && every "invoices" (validInvoiceJson callId (itemsAt "reports" value)) value
    && every "events" (validEventJson callId) value
    && match jget (js "declaration") value with
       | None => true
       | Some declaration => validDeclarationJson declaration
       end
  | _ => false
  end.

(** ** Reading a value at a type *)

(** [undef] is what an absent member is taken as. *)
Class Lax (A : Type) `{Codec A} := {
  undef : A;
  lax : json → A;
  lax_enc : ∀ a, lax (enc a) = a
}.

(** A type whose decoder looks at nothing inside the value: whatever else is there is
    taken as [d]. *)
Definition scalarLax {A} `{Codec A} (d : A) : Lax A.
Proof.
  refine {| undef := d; lax j := default d (dec j) |}.
  abstract (intros a; by rewrite dec_enc).
Defined.

#[export] Instance Lax_str : Lax str := scalarLax [].
#[export] Instance Lax_nstr : Lax (option str) := scalarLax None.
#[export] Instance Lax_Z : Lax Z := scalarLax 0.
#[export] Instance Lax_bool : Lax bool := scalarLax false.
#[export] Instance Lax_unit : Lax QuantityUnit := scalarLax tonnes.
#[export] Instance Lax_lineStatus : Lax LineStatus := scalarLax reported.
#[export] Instance Lax_decision : Lax Decision_ := scalarLax disputed.
#[export] Instance Lax_reconStatus : Lax ReconStatus := scalarLax recon_draft.
#[export] Instance Lax_policy : Lax BillingPolicy := scalarLax manifest_disparity.
#[export] Instance Lax_tolerance : Lax ToleranceMode := scalarLax threshold.
#[export] Instance Lax_assessStatus : Lax AssessStatus := scalarLax as_held.
#[export] Instance Lax_planStatus : Lax PlanStatus := scalarLax scheduled.
#[export] Instance Lax_currency : Lax Currency := scalarLax USD.
#[export] Instance Lax_reportStatus : Lax PreviewReportStatus := scalarLax rs_approved.
#[export] Instance Lax_invoiceStatus : Lax PreviewInvoiceStatus := scalarLax is_held.
#[export] Instance Lax_variationStatus : Lax VariationLineStatus := scalarLax ls_held.
#[export] Instance Lax_payment : Lax PaymentStatus := scalarLax unconfirmed.
#[export] Instance Lax_eventAction : Lax PreviewEventAction := scalarLax report_submitted.

Lemma map_lax_enc {A} `{Lax A} (l : list A) : map lax (map enc l) = l.
Proof. induction l as [|x l IH]; simpl; [done|]. by rewrite lax_enc, IH. Qed.
#[export] Instance Lax_list {A} `{Lax A} : Lax (list A) | 10 := {|
  undef := []; lax j := match j with JArr l => map lax l | _ => [] end;
  lax_enc := map_lax_enc |}.

(** Members: a plain one, one that may be absent (or [null], which the code does not tell
    from absent), and one for which [null] is a value of its own. *)
Definition memberAt {A} `{Lax A} (k : string) (j : json) : A :=
  match jget (js k) j with Some v => lax v | None => undef end.
Definition optAt {A} `{Lax A} (k : string) (j : json) : option A :=
  match jget (js k) j with Some JNull | None => None | Some v => Some (lax v) end.
Definition nullableAt {A} `{Lax A} (k : string) (j : json) : option A :=
  match jget (js k) j with Some v => Some (lax v) | None => None end.

Lemma memberAt_mkObj {A} `{Lax A} k fs (a : A) :
  fget (js k) fs = Some (enc a) → memberAt k (mkObj fs) = a.
Proof. intros Hf. unfold memberAt. by rewrite jget_mkObj, Hf, lax_enc. Qed.
Lemma nullableAt_mkObj {A} `{Lax A} k fs (o : option A) :
  fget (js k) fs = enc <$> o → nullableAt k (mkObj fs) = o.
Proof.
  intros Hf. unfold nullableAt. rewrite jget_mkObj, Hf. destruct o as [a|]; simpl; [|done].
  by rewrite lax_enc.
Qed.
Lemma optAt_mkObj {A} `{Lax A} k fs (o : option A) :
  (∀ a : A, enc a ≠ JNull) → fget (js k) fs = enc <$> o → optAt k (mkObj fs) = o.
Proof.
  intros Hn Hf. unfold optAt. rewrite jget_mkObj, Hf. destruct o as [a|]; simpl; [|done].
  rewrite <- (lax_enc a) at 2. specialize (Hn a). by destruct (enc a).
Qed.


(** Reading back a record written with [mkObj]. *)
Ltac solve_lax r :=
  repeat first
    [ erewrite memberAt_mkObj by solve_lookup
    | erewrite nullableAt_mkObj by solve_lookup
    | erewrite optAt_mkObj by (first [solve_lookup | intros []; discriminate | discriminate]) ];
  destruct r; first [reflexivity | match goal with x : _ |- _ => destruct x; reflexivity end].

Definition lax_Actor (j : json) : Actor :=
  mkActor (memberAt "id" j) (memberAt "name" j).
Lemma lax_enc_Actor r : lax_Actor (enc_Actor r) = r.
Proof. unfold lax_Actor, enc_Actor. solve_lax r. Qed.
#[export] Instance Lax_Actor : Lax Actor :=
  {| undef := lax_Actor JNull; lax := lax_Actor; lax_enc := lax_enc_Actor |}.

#[export] Instance Lax_nActor : Lax (option Actor).
Proof.
  refine {| undef := None; lax j := match j with JNull => None | v => Some (lax_Actor v) end |}.
  abstract (intros [a|]; [|done]; exact (f_equal Some (lax_enc_Actor a))).
Defined.

Definition lax_Participant (j : json) : Participant :=
  mkParticipant (nullableAt "agencyId" j) (memberAt "name" j) (memberAt "role" j)
    (memberAt "representative" j) (memberAt "requiredSubmission" j)
    (memberAt "requiredApproval" j) (memberAt "id" j).
Lemma lax_enc_Participant r : lax_Participant (enc_Participant r) = r.
Proof. unfold lax_Participant, enc_Participant. solve_lax r. Qed.
#[export] Instance Lax_Participant : Lax Participant :=
  {| undef := lax_Participant JNull; lax := lax_Participant; lax_enc := lax_enc_Participant |}.

Definition lax_CargoLine (j : json) : CargoLine :=
  mkCargoLine
    (mkCargoLineInput (memberAt "description" j) (memberAt "category" j) (memberAt "direction" j)
      (memberAt "containerSize" j) (memberAt "loadStatus" j) (memberAt "unit" j)
      (memberAt "basis" j) (memberAt "manifestQuantity" j) (memberAt "baselineReference" j))
    (memberAt "id" j).
Lemma lax_enc_CargoLine r : lax_CargoLine (enc_CargoLine r) = r.
Proof. unfold lax_CargoLine, enc_CargoLine. solve_lax r. Qed.
#[export] Instance Lax_CargoLine : Lax CargoLine :=
  {| undef := lax_CargoLine JNull; lax := lax_CargoLine; lax_enc := lax_enc_CargoLine |}.

Definition lax_Evidence (j : json) : Evidence :=
  mkEvidence (memberAt "id" j) (memberAt "fileName" j) (memberAt "contentType" j)
    (memberAt "size" j) (memberAt "checksum" j) (memberAt "createdAt" j).
Lemma lax_enc_Evidence r : lax_Evidence (enc_Evidence r) = r.
Proof. unfold lax_Evidence, enc_Evidence. solve_lax r. Qed.
#[export] Instance Lax_Evidence : Lax Evidence :=
  {| undef := lax_Evidence JNull; lax := lax_Evidence; lax_enc := lax_enc_Evidence |}.

Definition lax_SubmissionLine (j : json) : SubmissionLine :=
  mkSubmissionLine (memberAt "lineId" j) (memberAt "status" j) (memberAt "quantity" j)
    (memberAt "note" j).
Lemma lax_enc_SubmissionLine r : lax_SubmissionLine (enc_SubmissionLine r) = r.
Proof. unfold lax_SubmissionLine, enc_SubmissionLine. solve_lax r. Qed.
#[export] Instance Lax_SubmissionLine : Lax SubmissionLine :=
  {| undef := lax_SubmissionLine JNull; lax := lax_SubmissionLine; lax_enc := lax_enc_SubmissionLine |}.

Definition lax_Submission (j : json) : Submission :=
  mkSubmission (memberAt "participantId" j) (memberAt "observedAt" j)
    (memberAt "sourceReference" j) (memberAt "notes" j) (memberAt "reason" j)
    (memberAt "lines" j) (memberAt "evidenceIds" j) (memberAt "id" j)
    (memberAt "revision" j) (memberAt "recordedBy" j) (memberAt "recordedAt" j).
Lemma lax_enc_Submission r : lax_Submission (enc_Submission r) = r.
Proof. unfold lax_Submission, enc_Submission. solve_lax r. Qed.
#[export] Instance Lax_Submission : Lax Submission :=
  {| undef := lax_Submission JNull; lax := lax_Submission; lax_enc := lax_enc_Submission |}.

Definition lax_Approval (j : json) : Approval :=
  mkApproval (memberAt "participantId" j) (memberAt "decision" j)
    (memberAt "representative" j) (memberAt "reference" j) (memberAt "evidenceIds" j)
    (memberAt "id" j) (memberAt "recordedBy" j) (memberAt "recordedAt" j).
Lemma lax_enc_Approval r : lax_Approval (enc_Approval r) = r.
Proof. unfold lax_Approval, enc_Approval. solve_lax r. Qed.
#[export] Instance Lax_Approval : Lax Approval :=
  {| undef := lax_Approval JNull; lax := lax_Approval; lax_enc := lax_enc_Approval |}.

Definition lax_ReconLine (j : json) : ReconLine :=
  mkReconLine (memberAt "lineId" j) (memberAt "quantity" j) (memberAt "manifestQuantity" j)
    (memberAt "variance" j) (memberAt "reason" j).
Lemma lax_enc_ReconLine r : lax_ReconLine (enc_ReconLine r) = r.
Proof. unfold lax_ReconLine, enc_ReconLine. solve_lax r. Qed.
#[export] Instance Lax_ReconLine : Lax ReconLine :=
  {| undef := lax_ReconLine JNull; lax := lax_ReconLine; lax_enc := lax_enc_ReconLine |}.

Definition lax_Reconciliation (j : json) : Reconciliation :=
  mkReconciliation (memberAt "reason" j) (memberAt "evidenceIds" j) (memberAt "id" j)
    (memberAt "revision" j) (memberAt "status" j) (memberAt "createdBy" j)
    (memberAt "createdAt" j) (memberAt "finalizedBy" j) (memberAt "finalizedAt" j)
    (memberAt "submissionIds" j) (memberAt "approvals" j) (memberAt "lines" j)
    (optAt "stale" j).
Lemma lax_enc_Reconciliation r : lax_Reconciliation (enc_Reconciliation r) = r.
Proof. unfold lax_Reconciliation, enc_Reconciliation. solve_lax r. Qed.
#[export] Instance Lax_Reconciliation : Lax Reconciliation :=
  {| undef := lax_Reconciliation JNull; lax := lax_Reconciliation; lax_enc := lax_enc_Reconciliation |}.

Definition lax_AssessmentLine (j : json) : AssessmentLine :=
  mkAssessmentLine (memberAt "lineId" j) (memberAt "rate" j) (memberAt "tolerance" j)
    (memberAt "toleranceMode" j) (memberAt "previouslyBilledQuantity" j)
    (memberAt "openingBilledAmount" j) (optAt "category" j) (optAt "direction" j)
    (optAt "containerSize" j) (optAt "loadStatus" j) (optAt "basis" j)
    (memberAt "description" j) (memberAt "unit" j) (memberAt "baselineQuantity" j)
    (memberAt "finalQuantity" j) (memberAt "variance" j) (memberAt "chargeableQuantity" j)
    (memberAt "entitlement" j) (memberAt "priorInvoicedAmount" j) (memberAt "amount" j).
Lemma lax_enc_AssessmentLine r : lax_AssessmentLine (enc_AssessmentLine r) = r.
Proof. unfold lax_AssessmentLine, enc_AssessmentLine. solve_lax r. Qed.
#[export] Instance Lax_AssessmentLine : Lax AssessmentLine :=
  {| undef := lax_AssessmentLine JNull; lax := lax_AssessmentLine; lax_enc := lax_enc_AssessmentLine |}.

Definition lax_Assessment (j : json) : Assessment :=
  mkAssessment (memberAt "reconciliationId" j) (memberAt "payer" j) (memberAt "currency" j)
    (memberAt "policy" j) (memberAt "tariffReference" j) (memberAt "reason" j)
    (memberAt "openingChargesReference" j) (memberAt "id" j) (optAt "superseded" j)
    (memberAt "status" j) (memberAt "total" j) (memberAt "lines" j) (memberAt "invoiceId" j)
    (memberAt "createdAt" j).
Lemma lax_enc_Assessment r : lax_Assessment (enc_Assessment r) = r.
Proof. unfold lax_Assessment, enc_Assessment. solve_lax r. Qed.
#[export] Instance Lax_Assessment : Lax Assessment :=
  {| undef := lax_Assessment JNull; lax := lax_Assessment; lax_enc := lax_enc_Assessment |}.

Definition lax_MeasurementPlan (j : json) : MeasurementPlan :=
  mkPlan (memberAt "callId" j) (memberAt "title" j) (memberAt "scheduledAt" j)
    (memberAt "endsAt" j) (memberAt "location" j) (memberAt "method" j) (memberAt "stage" j)
    (memberAt "scope" j) (memberAt "leadSurveyor" j) (memberAt "notes" j) (memberAt "id" j)
    (memberAt "vesselName" j) (memberAt "callReference" j) (memberAt "version" j)
    (memberAt "status" j) (memberAt "createdBy" j) (memberAt "participants" j)
    (memberAt "lines" j) (memberAt "submissions" j) (memberAt "reconciliations" j)
    (memberAt "assessments" j) (memberAt "evidence" j).
Lemma lax_enc_MeasurementPlan r : lax_MeasurementPlan (enc_MeasurementPlan r) = r.
Proof. unfold lax_MeasurementPlan, enc_MeasurementPlan. solve_lax r. Qed.
#[export] Instance Lax_MeasurementPlan : Lax MeasurementPlan :=
  {| undef := lax_MeasurementPlan JNull; lax := lax_MeasurementPlan; lax_enc := lax_enc_MeasurementPlan |}.

Definition lax_PreviewReportLine (j : json) : PreviewReportLine :=
  mkReportLine (memberAt "planId" j) (memberAt "lineId" j) (memberAt "quantity" j)
    (memberAt "reason" j) (memberAt "description" j) (memberAt "unit" j)
    (memberAt "declaredQuantity" j).
Lemma lax_enc_PreviewReportLine r : lax_PreviewReportLine (enc_PreviewReportLine r) = r.
Proof. unfold lax_PreviewReportLine, enc_PreviewReportLine. solve_lax r. Qed.
#[export] Instance Lax_PreviewReportLine : Lax PreviewReportLine :=
  {| undef := lax_PreviewReportLine JNull; lax := lax_PreviewReportLine; lax_enc := lax_enc_PreviewReportLine |}.

Definition lax_PreviewReport (j : json) : PreviewReport :=
  mkReport (memberAt "id" j) (memberAt "callId" j) (memberAt "revision" j)
    (optAt "status" j) (memberAt "sourceFingerprint" j) (optAt "preparedAt" j)
    (optAt "preparedBy" j) (memberAt "reason" j) (memberAt "lines" j)
    (memberAt "sourcePlans" j) (optAt "approvedAt" j) (optAt "approvedBy" j)
    (optAt "returnedAt" j) (optAt "returnedBy" j) (optAt "returnComment" j).
Lemma lax_enc_PreviewReport r : lax_PreviewReport (enc_PreviewReport r) = r.
Proof. unfold lax_PreviewReport, enc_PreviewReport. solve_lax r. Qed.
#[export] Instance Lax_PreviewReport : Lax PreviewReport :=
  {| undef := lax_PreviewReport JNull; lax := lax_PreviewReport; lax_enc := lax_enc_PreviewReport |}.

Definition lax_PreviewInvoiceLine (j : json) : PreviewInvoiceLine :=
  mkInvoiceLine
    (mkInvoiceLineInput (memberAt "planId" j) (memberAt "lineId" j) (memberAt "rate" j)
      (memberAt "previousVariationAmount" j))
    (memberAt "description" j) (memberAt "unit" j) (memberAt "declaredQuantity" j)
    (memberAt "finalQuantity" j) (memberAt "variance" j) (memberAt "entitlement" j)
    (memberAt "amount" j) (memberAt "status" j).
Lemma lax_enc_PreviewInvoiceLine r : lax_PreviewInvoiceLine (enc_PreviewInvoiceLine r) = r.
Proof. unfold lax_PreviewInvoiceLine, enc_PreviewInvoiceLine. solve_lax r. Qed.
#[export] Instance Lax_PreviewInvoiceLine : Lax PreviewInvoiceLine :=
  {| undef := lax_PreviewInvoiceLine JNull; lax := lax_PreviewInvoiceLine; lax_enc := lax_enc_PreviewInvoiceLine |}.

Definition lax_PreviewInvoice (j : json) : PreviewInvoice :=
  mkInvoice (memberAt "payer" j) (memberAt "currency" j) (memberAt "tariffReference" j)
    (memberAt "originalInvoiceReference" j) (memberAt "paymentStatus" j)
    (memberAt "originalPaidAmount" j) (memberAt "previousVariationReference" j)
    (memberAt "lines" j) (memberAt "total" j) (memberAt "status" j) (memberAt "reportId" j)
    (memberAt "callId" j) (memberAt "id" j) (memberAt "number" j) (memberAt "createdAt" j)
    (memberAt "createdBy" j).
Lemma lax_enc_PreviewInvoice r : lax_PreviewInvoice (enc_PreviewInvoice r) = r.
Proof. unfold lax_PreviewInvoice, enc_PreviewInvoice. solve_lax r. Qed.
#[export] Instance Lax_PreviewInvoice : Lax PreviewInvoice :=
  {| undef := lax_PreviewInvoice JNull; lax := lax_PreviewInvoice; lax_enc := lax_enc_PreviewInvoice |}.

Definition lax_PreviewEvent (j : json) : PreviewEvent :=
  mkEvent (memberAt "id" j) (memberAt "callId" j) (memberAt "at" j) (memberAt "actor" j)
    (memberAt "action" j) (memberAt "reference" j).
Lemma lax_enc_PreviewEvent r : lax_PreviewEvent (enc_PreviewEvent r) = r.
Proof. unfold lax_PreviewEvent, enc_PreviewEvent. solve_lax r. Qed.
#[export] Instance Lax_PreviewEvent : Lax PreviewEvent :=
  {| undef := lax_PreviewEvent JNull; lax := lax_PreviewEvent; lax_enc := lax_enc_PreviewEvent |}.

Definition lax_PaidDeclaration (j : json) : PaidDeclaration :=
  mkDeclaration
    (mkDeclarationInput (memberAt "payer" j) (memberAt "agent" j)
      (memberAt "invoiceReference" j) (memberAt "amountPaid" j)
      (memberAt "currency" j) (memberAt "paidOn" j) (memberAt "paymentStatus" j))
    (memberAt "updatedAt" j) (memberAt "updatedBy" j).
Lemma lax_enc_PaidDeclaration r : lax_PaidDeclaration (enc_PaidDeclaration r) = r.
Proof. unfold lax_PaidDeclaration, enc_PaidDeclaration. solve_lax r. Qed.
#[export] Instance Lax_PaidDeclaration : Lax PaidDeclaration :=
  {| undef := lax_PaidDeclaration JNull; lax := lax_PaidDeclaration; lax_enc := lax_enc_PaidDeclaration |}.

Definition lax_CloseoutRecord (j : json) : CloseoutRecord :=
  mkCloseout (memberAt "callId" j) (memberAt "reports" j) (memberAt "invoices" j)
    (memberAt "events" j) (optAt "declaration" j).
Lemma lax_enc_CloseoutRecord r : lax_CloseoutRecord (enc_CloseoutRecord r) = r.
Proof. unfold lax_CloseoutRecord, enc_CloseoutRecord. solve_lax r. Qed.
#[export] Instance Lax_CloseoutRecord : Lax CloseoutRecord :=
  {| undef := lax_CloseoutRecord JNull; lax := lax_CloseoutRecord; lax_enc := lax_enc_CloseoutRecord |}.

(** ** On what the code writes, the validators are the typed ones *)

Lemma jget_member k fs v : fget (js k) fs = v → jget (js k) (mkObj fs) = v.
Proof. intros <-. apply jget_mkObj. Qed.
Lemma oneOf_enc {A} `{Codec A} (lit : A → str) all k fs (a : A) :
  fget (js k) fs = Some (enc a) → decLit lit all = dec → oneOf lit all k (mkObj fs) = true.
Proof. intros Hf Hd. unfold oneOf. by rewrite jget_mkObj, Hf, Hd, dec_enc. Qed.
Lemma forallb_enc {A} `{Codec A} (f : json → bool) (g : A → bool) l :
  (∀ a, f (enc a) = g a) → forallb f (map enc l) = forallb g l.
Proof. intros Hfg. induction l as [|a l IH]; simpl; [done|]. by rewrite Hfg, IH. Qed.
Lemma forallb_yes {A} (f : A → bool) l : (∀ a, f a = true) → forallb f l = true.
Proof. intros Hf. by apply forallb_true. Qed.
Lemma existsb_enc {A} `{Codec A} (f : json → bool) (g : A → bool) l :
  (∀ a, f (enc a) = g a) → existsb f (map enc l) = existsb g l.
Proof. intros Hfg. induction l as [|a l IH]; simpl; [done|]. by rewrite Hfg, IH. Qed.

(** Evaluate the members of a written object. *)
Ltac members :=
  repeat erewrite oneOf_enc by (first [solve_lookup | reflexivity]);
  unfold hasStr, hasInt, hasBool, hasArr, isStr, hasDecimal, every, itemsAt;
  repeat erewrite jget_member by solve_lookup;
  cbn [fmap option_fmap option_map enc Codec_str Codec_Z Codec_bool Codec_list andb].

Lemma validActor_enc k fs (o : option Actor) : fget (js k) fs = enc <$> o →
  validActor k (mkObj fs) = isPresent o.
Proof.
  intros Hf. unfold validActor. rewrite jget_mkObj, Hf. destruct o as [a|]; [|done]. simpl.
  unfold enc_Actor. by members.
Qed.
Lemma validActor_enc_some k fs (a : Actor) : fget (js k) fs = Some (enc a) →
  validActor k (mkObj fs) = true.
Proof. intros Hf. by rewrite (validActor_enc k fs (Some a)). Qed.
Ltac actors := repeat first
  [ erewrite validActor_enc_some by solve_lookup | erewrite validActor_enc by solve_lookup ].

Lemma validReading_enc (row : SubmissionLine) : validReadingJson (enc row) = validSubmissionLine row.
Proof.
  change (enc row) with (enc_SubmissionLine row). unfold validReadingJson, enc_SubmissionLine. members.
  unfold validSubmissionLine. by destruct (sl_quantity row).
Qed.
Lemma validSubmission_enc (s : Submission) : validSubmissionJson (enc s) = forallb validSubmissionLine (sub_lines s).
Proof.
  change (enc s) with (enc_Submission s). unfold validSubmissionJson, enc_Submission. members.
  apply forallb_enc, validReading_enc.
Qed.
Lemma validCargo_enc (line : CargoLine) :
  validCargoJson (enc line) = validDecimal (manifestQuantity line) 6 15.
Proof.
  change (enc line) with (enc_CargoLine line). unfold validCargoJson, enc_CargoLine. members.
  by destruct (manifestQuantity line).
Qed.
Lemma validParty_enc (party : Participant) : validPartyJson (enc party) = true.
Proof.
  change (enc party) with (enc_Participant party). unfold validPartyJson, enc_Participant. by members.
Qed.
Lemma validSourcePlan_enc callId (plan : MeasurementPlan) :
  validSourcePlanJson callId (enc plan) = validSourcePlan callId plan.
Proof.
  change (enc plan) with (enc_MeasurementPlan plan).
  unfold validSourcePlanJson, enc_MeasurementPlan, validSourcePlan. members.
  rewrite (forallb_enc _ _ _ validCargo_enc), (forallb_enc _ _ _ validSubmission_enc),
    (forallb_enc _ _ _ validParty_enc), (forallb_yes (λ _, true)) by done.
  by rewrite !andb_true_r.
Qed.
Lemma validReportLine_enc (row : PreviewReportLine) : validReportLineJson (enc row) =
  validDecimal (Some (prl_quantity row)) 6 15 && validDecimal (prl_declaredQuantity row) 6 15.
Proof.
  change (enc row) with (enc_PreviewReportLine row).
  unfold validReportLineJson, enc_PreviewReportLine. members. by destruct (prl_declaredQuantity row).
Qed.
Lemma statusJson_enc fs (o : option PreviewReportStatus) : fget (js "status") fs = enc <$> o →
  statusJson (mkObj fs) = Some (default rs_approved o).
Proof. intros Hf. unfold statusJson. rewrite jget_mkObj, Hf. by destruct o as [[]|]. Qed.
Lemma validReport_enc callId (report : PreviewReport) :
  validReportJson callId (enc report) = validReport callId report.
Proof.
  change (enc report) with (enc_PreviewReport report).
  unfold validReportJson, enc_PreviewReport, validReport, reportStatus. actors.
  erewrite statusJson_enc by solve_lookup.
  members.
  rewrite (forallb_enc _ _ _ validReportLine_enc), (forallb_enc _ _ _ (validSourcePlan_enc callId)).
  rewrite !andb_true_r, <- !andb_assoc. destruct (rep_preparedAt report), (rep_approvedAt report),
    (rep_returnedAt report), (rep_returnComment report); by destruct (rep_status report).
Qed.
Lemma validInvoiceLine_enc (line : PreviewInvoiceLine) : validInvoiceLineJson (enc line) = validInvoiceLine line.
Proof.
  change (enc line) with (enc_PreviewInvoiceLine line).
  unfold validInvoiceLineJson, enc_PreviewInvoiceLine, validInvoiceLine. members.
  by rewrite andb_true_r.
Qed.
Lemma isStr_id_enc s (report : PreviewReport) : isStr "id" s (enc report) = streq (rep_id report) s.
Proof.
  change (enc report) with (enc_PreviewReport report). unfold enc_PreviewReport. by members.
Qed.
Lemma hasReport_enc (reports : list PreviewReport) fs s : fget (js "reportId") fs = Some (JStr s) →
  hasReport (map enc reports) (mkObj fs) = existsb (λ report, streq (rep_id report) s) reports.
Proof. intros Hf. unfold hasReport. rewrite jget_mkObj, Hf. apply existsb_enc, isStr_id_enc. Qed.
Lemma validInvoice_enc record (invoice : PreviewInvoice) :
  validInvoiceJson (cr_callId record) (map enc (cr_reports record)) (enc invoice)
  = validInvoice record invoice.
Proof.
  change (enc invoice) with (enc_PreviewInvoice invoice).
  unfold validInvoiceJson, enc_PreviewInvoice, validInvoice. actors.
  erewrite hasReport_enc by solve_lookup. members.
  rewrite (forallb_enc _ _ _ validInvoiceLine_enc).
  by destruct (inv_originalPaidAmount invoice); rewrite ?andb_true_r, ?andb_assoc.
Qed.
Lemma validEvent_enc callId (event : PreviewEvent) :
  validEventJson callId (enc event) = streq (pe_callId event) callId.
Proof.
  change (enc event) with (enc_PreviewEvent event).
  unfold validEventJson, enc_PreviewEvent. actors. members. by rewrite !andb_true_r.
Qed.
Lemma validDeclaration_enc (value : PaidDeclaration) :
  validDeclarationJson (enc value) = validDeclaration (Some value).
Proof.
  change (enc value) with (enc_PaidDeclaration value).
  unfold validDeclarationJson, enc_PaidDeclaration, validDeclaration. actors. members.
  by destruct (pd_amountPaid value); rewrite ?andb_true_r.
Qed.

(** A written record is accepted exactly when its typed validators accept it. *)
Lemma validRecord_enc (record : CloseoutRecord) :
  validRecordJson (enc record) = validRecord record.
Proof.
  change (enc record) with (enc_CloseoutRecord record).
  unfold validRecordJson, enc_CloseoutRecord, validRecord. members.
  rewrite (forallb_enc _ _ _ (validReport_enc (cr_callId record))),
    (forallb_enc _ _ _ (validInvoice_enc record)), (forallb_enc _ _ _ (validEvent_enc (cr_callId record))).
  rewrite andb_true_r. destruct (cr_declaration record) as [d|]; cbn [fmap option_fmap option_map];
    [by rewrite validDeclaration_enc|done].
Qed.
