(* ===== verification/Storage.v ===== *)
(** * Browser storage

    [window.localStorage] as the code sees it: one finite map of strings per browser,
    whose reads and writes may throw (a blocked or full store).  The message of a failed
    write is the browser's, so it is a field. *)
From S2P Require Import Prelude JsString.

Record Storage := mkStorage {
  items : gmap str str;
  readable : bool;
  writeError : option str }.

Definition getItem (key : str) (st : Storage) : result unit (option str) :=
  if readable st then Ok (items st !! key) else Err tt.

Definition setItem (key value : str) (st : Storage) : result str Storage :=
  match writeError st with
  | None => Ok (mkStorage (<[key := value]> (items st)) (readable st) None)
  | Some e => Err e
  end.

Definition emptyStorage : Storage := mkStorage ∅ true None.

Lemma setItem_Ok key value st st' : setItem key value st = Ok st' →
  writeError st = None ∧ items st' = <[key := value]> (items st) ∧
  readable st' = readable st ∧ writeError st' = None.
Proof. unfold setItem. destruct (writeError st); [done|]. by intros [= <-]. Qed.

Lemma getItem_setItem key value st st' : setItem key value st = Ok st' →
  getItem key st' = if readable st then Ok (Some value) else Err tt.
Proof.
  intros (_ & Hi & Hr & _)%setItem_Ok. unfold getItem. by rewrite Hi, Hr, lookup_insert_eq.
Qed.
Lemma getItem_setItem_ne key key' value st st' : key ≠ key' → setItem key value st = Ok st' →
  getItem key' st' = getItem key' st.
Proof.
  intros Hne (_ & Hi & Hr & _)%setItem_Ok. unfold getItem. by rewrite Hi, Hr, lookup_insert_ne.
Qed.
