(* ===== verification/CloseoutStore.v ===== *)
(** * Saved closeout previews and their operations
    (frontend/src/measurements/closeoutPreview.ts)

    Each operation is a function on the voyage's record that throws or returns the changed
    record with the operation's result; [mutate] reads the saved document, applies one and
    writes it back.  Random ids and the clock are arguments. *)
From S2P Require Import Prelude JsString Json Codec MeasurementTypes Host Helpers Uri Storage CloseoutTypes Closeout CloseoutJson.

(** ** Reading the saved document *)

Definition closeoutStorageKey (orgId : option str) : option str :=
  match orgId with
  | Some org => if truthy (trim org)
                then Some (js "vessel-caller:closeout-preview:v1:" ++ encodeURIComponent org) else None
  | None => None
  end.

(** [records] are the parsed values themselves: what is saved for a voyage that an operation
    does not touch is written back as it was read. *)
Record PreviewState := mkPreviewState {
  ps_key : option str; ps_records : list json; ps_error : option str }.

Definition recordCallId (record : json) : str := memberAt "callId" record.

(** The parsed document passes every check of the code, and its records. *)
Definition savedRecords (orgId : option str) (data : json) : option (list json) :=
  match jget (js "version") data, jget (js "organizationId") data, jget (js "records") data with
  | Some (JNum version), Some (JStr organizationId), Some (JArr records) =>
    if (version =? 1) && bool_decide (Some organizationId = orgId)
       && forallb validRecordJson records && negb (hasRepeats (map recordCallId records))
    then Some records else None
  | _, _, _ => None
  end.

Definition unreadableMessage : str :=
  js "Saved previews could not be read. They have been preserved; changes cannot be saved until the storage issue is resolved.".

Definition readPreviews (orgId : option str) (st : Storage) : PreviewState :=
  match closeoutStorageKey orgId with
  | None => mkPreviewState None [] (Some (js "Load your organisation before saving a preview."))
  | Some key =>
    match getItem key st with
    | Err _ => mkPreviewState (Some key) [] (Some (js "This browser could not read saved previews."))
    | Ok raw =>
      if isEmpty (default [] raw) then mkPreviewState (Some key) [] None else
      match parse (default [] raw) ≫= savedRecords orgId with
      | Some records => mkPreviewState (Some key) records None
      | None => mkPreviewState (Some key) [] (Some unreadableMessage)
      end
    end
  end.

Arguments readPreviews : simpl never.
Arguments savedRecords : simpl never.

Definition emptyCloseout (callId : str) : CloseoutRecord := mkCloseout callId [] [] [] None.

(** [records.find(item => item.callId === callId) ?? { callId, reports: [], ... }] *)
Definition recordFor (callId : str) (records : list json) : CloseoutRecord :=
  match findb (λ item, streq (recordCallId item) callId) records with
  | Some record => lax record
  | None => emptyCloseout callId
  end.

(** The other voyages' values, as they were read. *)
Definition otherRecords (callId : str) (records : list json) : list json :=
  filterb (λ item, negb (streq (recordCallId item) callId)) records.

(** [{ version: 1, organizationId, records }] *)
Definition savedDocument (organizationId : str) (records : list json) : json :=
  mkObj [fld "version" 1; fld "organizationId" organizationId; fld "records" records].

(** A throwing [change], an unreadable document or a failed write leaves storage as it was;
    the message is what the hook shows. *)
Definition mutate {T} (orgId : option str) (callId : str)
    (change : CloseoutRecord → result str (CloseoutRecord * T)) (st : Storage)
  : Storage * result str T :=
  let state := readPreviews orgId st in
  match ps_key state, ps_error state with
  | Some key, None =>
    if isEmpty callId then (st, Err (js "Choose a voyage before saving.")) else
    let outcome :=
      let! (updated, res) := change (recordFor callId (ps_records state)) in
      let records := otherRecords callId (ps_records state) ++ [enc updated] in
      let! st' := setItem key (stringify (savedDocument (default [] orgId) records)) st in
      Ok (st', res) in
    match outcome with
    | Ok (st', res) => (st', Ok res)
    | Err e => (st, Err e)
    end
  | _, e => (st, Err (default (js "Choose a voyage before saving.") e))
  end.

(** ** Operations on the record *)

Definition withReports (saved : CloseoutRecord) reports : CloseoutRecord :=
  mkCloseout (cr_callId saved) reports (cr_invoices saved) (cr_events saved) (cr_declaration saved).
Definition addEvent (saved : CloseoutRecord) (event : PreviewEvent) : CloseoutRecord :=
  mkCloseout (cr_callId saved) (cr_reports saved) (cr_invoices saved) (cr_events saved ++ [event])
    (cr_declaration saved).
Definition addInvoice (saved : CloseoutRecord) (invoice : PreviewInvoice) : CloseoutRecord :=
  mkCloseout (cr_callId saved) (cr_reports saved) (cr_invoices saved ++ [invoice]) (cr_events saved)
    (cr_declaration saved).
(** [saved.reports.at(-1)] changed in place. *)
Definition replaceLast (saved : CloseoutRecord) (report : PreviewReport) : CloseoutRecord :=
  withReports saved (removelast (cr_reports saved) ++ [report]).

(** [/^\d{4}-\d{2}-\d{2}$/] *)
Definition isDateText (s : str) : bool :=
  match split cMinus s with
  | [y; m; d] => allDigits y && allDigits m && allDigits d
      && Nat.eqb (length y) 4 && Nat.eqb (length m) 2 && Nat.eqb (length d) 2
  | _ => false
  end.

Definition saveDeclaration (input : PaidDeclarationInput) (actor : Actor) (now : str)
    (saved : CloseoutRecord) : result str (CloseoutRecord * PaidDeclaration) :=
  guard! truthy (trim (pd_amountPaid input)) && negb (validDecimal (Some (trim (pd_amountPaid input))) 2 32)
    else js "Enter the amount paid as a number with up to two decimal places." in
  guard! truthy (pd_paidOn input) && negb (isDateText (pd_paidOn input))
    else js "Enter the payment date as a date." in
  let declaration := mkDeclaration
    (mkDeclarationInput (trim (pd_payer input)) (trim (pd_agent input)) (trim (pd_invoiceReference input))
       (trim (pd_amountPaid input)) (pd_currency input) (pd_paidOn input) (pd_paymentStatus input))
    now actor in
  Ok (mkCloseout (cr_callId saved) (cr_reports saved) (cr_invoices saved) (cr_events saved)
        (Some declaration), declaration).

Fixpoint rmapM {A B E} (f : A → result E B) (l : list A) : result E (list B) :=
  match l with
  | [] => Ok []
  | x :: l' => let! y := f x in let! ys := rmapM f l' in Ok (y :: ys)
  end.

(** The report line of one cargo item, from the entry submitted for it. *)
Definition finalLine (entries : list ApprovalLine) (source : MeasurementPlan * CargoLine)
  : result str PreviewReportLine :=
  let '(plan, line) := source in
  let invalid := js "Enter a valid final quantity for " ++ description line ++ js "." in
  match findb (λ item, streq (apl_planId item) (plan_id plan)
                       && streq (apl_lineId item) (line_id line)) entries with
  | None => Err invalid
  | Some entry =>
    match decimal (Some (apl_quantity entry)) 3 15 with
    | None => Err invalid
    | Some value =>
      guard! bool_decide (unit_ line = count) && negb (value mod 1000 =? 0) else invalid in
      guard! isEmpty (trim (apl_reason entry))
        else js "Enter the decision reason for " ++ description line ++ js "." in
      Ok (mkReportLine (apl_planId entry) (apl_lineId entry) (apl_quantity entry)
            (trim (apl_reason entry)) (description line) (unit_ line) (manifestQuantity line))
    end
  end.

Definition versionText (revision : Z) : str := js "Final quantities v" ++ printZ revision.

(** [JSON.parse(JSON.stringify(value))] *)
Definition jsonClone {A} `{Codec A} (a : A) : A :=
  default a (parse (stringify (enc a)) ≫= dec).

(** The guards that [throw issues[0]]. *)
Definition firstIssue (issues : list str) : result str unit :=
  match issues with [] => Ok tt | e :: _ => Err e end.

Section Operations.
Context `{Host}.

Definition sourceLinesOf (sheets : list MeasurementPlan) : list (MeasurementPlan * CargoLine) :=
  flat_map (λ plan, map (pair plan) (plan_lines plan)) sheets.

(** The preparer submits a version; a different reviewer approves or returns it. *)
Definition submitReport (callId : str) (plans : list MeasurementPlan) (input : ApprovalInput)
    (actor : Actor) (uuid uuid' now : str) (saved : CloseoutRecord)
  : result str (CloseoutRecord * PreviewReport) :=
  let sheets := activePlans plans in
  let issues := reconciliationIssues sheets
    ++ (if existsb (λ plan, negb (streq (plan_callId plan) callId)) sheets
        then [js "The report contains another voyage."] else []) in
  let! _ := firstIssue issues in
  guard! isEmpty (trim (api_reason input))
    else js "Enter a review note before submitting the report." in
  let sourceLines := sourceLinesOf sheets in
  let keys := map (λ line, itemKey (apl_planId line) (apl_lineId line)) (api_lines input) in
  guard! negb (Nat.eqb (length (api_lines input)) (length sourceLines))
         || negb (Nat.eqb (length (uniq keys)) (length sourceLines))
    else js "Provide a final reading for every cargo item." in
  let! lines := rmapM (finalLine (api_lines input)) sourceLines in
  let sourceFingerprint := voyageInputFingerprint sheets in
  let previous := last (cr_reports saved) in
  let repeated :=
    match previous with
    | Some p => bool_decide (reportStatus p = rs_submitted)
        && streq (rep_sourceFingerprint p) sourceFingerprint
        && streq (rep_reason p) (trim (api_reason input))
        && streq (stringify (enc (rep_lines p))) (stringify (enc lines))
    | None => false
    end in
  match previous, repeated with
  | Some p, true => Ok (saved, p)
  | _, _ =>
    let report := mkReport uuid callId
      (match previous with Some p => rep_revision p | None => 0 end + 1) (Some rs_submitted)
      sourceFingerprint (Some now) (Some actor) (trim (api_reason input)) lines (jsonClone sheets)
      None None None None None in
    Ok (addEvent (withReports saved (cr_reports saved ++ [report]))
          (mkEvent uuid' callId now actor report_submitted (versionText (rep_revision report))),
        report)
  end.

Definition invoiceAction (status : PreviewInvoiceStatus) : PreviewEventAction :=
  match status with
  | is_draft => invoice_drafted | is_no_charge => no_charge_recorded
  | is_overpayment => overpayment_flagged | is_held => billing_held
  end.

Definition invoiceNumber (saved : CloseoutRecord) : str :=
  js "DRAFT-VAR-" ++ toUpperCase (sliceLast 8 (cr_callId saved)) ++ js "-"
  ++ padStart 3 cZero (printZ (Z.of_nat (length (cr_invoices saved)) + 1)).

(** A stable input identity prevents duplicate drafts after repeated clicks. *)
Definition sameInput (latest : PreviewInvoice) (report : PreviewReport) (input : PreviewInvoiceInput)
    (lines : list PreviewInvoiceLine) : bool :=
  streq (inv_reportId latest) (rep_id report)
  && streq (inv_payer latest) (trim (ii_payer input))
  && bool_decide (inv_currency latest = ii_currency input)
  && streq (inv_tariffReference latest) (ii_tariffReference input)
  && streq (inv_originalInvoiceReference latest) (ii_originalInvoiceReference input)
  && bool_decide (inv_paymentStatus latest = ii_paymentStatus input)
  && streq (inv_originalPaidAmount latest) (ii_originalPaidAmount input)
  && streq (inv_previousVariationReference latest) (ii_previousVariationReference input)
  && streq (stringify (enc (inv_lines latest))) (stringify (enc lines)).

(** Builds the invoice and records it, or explains why it cannot be drafted yet ([Err]). *)
Definition draftInvoice (saved : CloseoutRecord) (report : PreviewReport)
    (input : PreviewInvoiceInput) (actor : Actor) (uuid uuid' now : str)
  : result str (CloseoutRecord * PreviewInvoice) :=
  guard! isEmpty (trim (ii_payer input)) || isEmpty (trim (ii_originalInvoiceReference input))
         || isEmpty (trim (ii_tariffReference input))
    else js "Enter the payer, original invoice reference and rate reference." in
  guard! truthy (ii_originalPaidAmount input)
         && negb (validDecimal (Some (ii_originalPaidAmount input)) 2 15)
    else js "Enter a valid original paid amount, or leave it blank if not recorded." in
  let calculation := calculateVariation report (ii_lines input) in
  let! _ := firstIssue (calc_issues calculation) in
  guard! bool_decide (calc_status calculation = is_draft)
         && negb (bool_decide (ii_paymentStatus input = paid))
    else js "Record the owner's declaration as paid before creating the variation invoice preview." in
  guard! existsb (λ line, 0 <? default 0 (decimal (Some (ili_previousVariationAmount line)) 2 15))
           (ii_lines input)
         && isEmpty (trim (ii_previousVariationReference input))
    else js "Enter a reference for previous variation charges." in
  let fresh :=
    let invoice := mkInvoice (trim (ii_payer input)) (ii_currency input) (ii_tariffReference input)
      (ii_originalInvoiceReference input) (ii_paymentStatus input) (ii_originalPaidAmount input)
      (ii_previousVariationReference input) (calc_lines calculation) (calc_total calculation)
      (calc_status calculation) (rep_id report) (cr_callId saved) uuid (invoiceNumber saved) now actor in
    (addEvent (addInvoice saved invoice)
       (mkEvent uuid' (cr_callId saved) now actor (invoiceAction (inv_status invoice))
          (inv_number invoice)), invoice) in
  match last (cr_invoices saved) with
  | Some latest =>
    if sameInput latest report input (calc_lines calculation) then Ok (saved, latest) else Ok fresh
  | None => Ok fresh
  end.

Record ApprovalOutcome := mkApprovalOutcome {
  ao_report : PreviewReport; ao_invoice : option PreviewInvoice; ao_invoiceIssue : option str }.

(** The latest version, when it is the one named and still waits for review. *)
Definition latestSubmitted (saved : CloseoutRecord) (reportId message : str)
  : result str PreviewReport :=
  match last (cr_reports saved) with
  | Some report =>
    if negb (streq (rep_id report) reportId) || negb (bool_decide (reportStatus report = rs_submitted))
    then Err message else Ok report
  | None => Err message
  end.

Definition approved (report : PreviewReport) (now : str) (actor : Actor) : PreviewReport :=
  mkReport (rep_id report) (rep_callId report) (rep_revision report) (Some rs_approved)
    (rep_sourceFingerprint report) (rep_preparedAt report) (rep_preparedBy report)
    (rep_reason report) (rep_lines report) (rep_sourcePlans report) (Some now) (Some actor)
    (rep_returnedAt report) (rep_returnedBy report) (rep_returnComment report).

Definition approveReport (callId : str) (plans : list MeasurementPlan) (reportId : str)
    (actor : Actor) (invoice : option PreviewInvoiceInput) (uuid uuid' uuid'' now now' : str)
    (saved : CloseoutRecord) : result str (CloseoutRecord * ApprovalOutcome) :=
  let! report := latestSubmitted saved reportId
    (js "Only the latest submitted version can be approved.") in
  guard! negb (matchesInputs report plans)
    else js "The readings changed after this version was submitted. Return it so the preparer can review the latest figures." in
  guard! bool_decide (actor_id <$> rep_preparedBy report = Some (actor_id actor))
    else js "A second reviewer must approve. You prepared this version." in
  let report := approved report now actor in
  let saved := addEvent (replaceLast saved report)
    (mkEvent uuid callId now actor report_approved (versionText (rep_revision report))) in
  match invoice with
  | None => Ok (saved, mkApprovalOutcome report None None)
  | Some input =>
    match draftInvoice saved report input actor uuid' uuid'' now' with
    | Ok (saved', drafted) => Ok (saved', mkApprovalOutcome report (Some drafted) None)
    | Err issue => Ok (saved, mkApprovalOutcome report None (Some issue))
    end
  end.

Definition returned (report : PreviewReport) (now comment : str) (actor : Actor) : PreviewReport :=
  mkReport (rep_id report) (rep_callId report) (rep_revision report) (Some rs_returned)
    (rep_sourceFingerprint report) (rep_preparedAt report) (rep_preparedBy report)
    (rep_reason report) (rep_lines report) (rep_sourcePlans report) (rep_approvedAt report)
    (rep_approvedBy report) (Some now) (Some actor) (Some (trim comment)).

Definition returnReport (callId reportId : str) (actor : Actor) (comment uuid now : str)
    (saved : CloseoutRecord) : result str (CloseoutRecord * PreviewReport) :=
  let! report := latestSubmitted saved reportId
    (js "Only the latest submitted version can be returned.") in
  guard! isEmpty (trim comment) else js "Explain what the preparer should change." in
  let report := returned report now comment actor in
  Ok (addEvent (replaceLast saved report)
        (mkEvent uuid callId now actor report_returned (versionText (rep_revision report))), report).

Definition createInvoice (plans : list MeasurementPlan) (reportId : str)
    (input : PreviewInvoiceInput) (actor : Actor) (uuid uuid' now : str) (saved : CloseoutRecord)
  : result str (CloseoutRecord * PreviewInvoice) :=
  let refused := js "Approve a current reconciliation report before creating an invoice preview." in
  match currentReport plans (Some saved) with
  | Some report =>
    if streq (rep_id report) reportId
    then draftInvoice saved report input actor uuid uuid' now else Err refused
  | None => Err refused
  end.
End Operations.
