(* ===== verification/CloseoutInvariants.v ===== *)
(** * Closeout invariants: what every reachable record satisfies

    The state machine of a voyage's closeout record: the five operations as steps, the
    invariant by induction on reachability, and the guarantees read off it. *)
From S2P Require Import Prelude JsString Json Codec MeasurementTypes Host Samples Helpers Uri Storage CloseoutTypes Closeout CloseoutStore.

(** ** The transition system *)

Section Machine.
Context `{Host}.
Variable callId : str.

Inductive step (r : CloseoutRecord) : CloseoutRecord → Prop :=
| step_declare input actor now r' out :
    saveDeclaration input actor now r = Ok (r', out) → step r r'
| step_submit plans input actor u u' now r' out :
    submitReport callId plans input actor u u' now r = Ok (r', out) → step r r'
| step_approve plans reportId actor invoice u u' u'' now now' r' out :
    approveReport callId plans reportId actor invoice u u' u'' now now' r = Ok (r', out) → step r r'
| step_return reportId actor comment u now r' out :
    returnReport callId reportId actor comment u now r = Ok (r', out) → step r r'
| step_invoice plans reportId input actor u u' now r' out :
    createInvoice plans reportId input actor u u' now r = Ok (r', out) → step r r'.

Definition reachable (r : CloseoutRecord) : Prop := rtc step (emptyCloseout callId) r.

(** ** The invariant *)

(** A report: who prepared it, from which inputs, and who decided on it. *)
Definition reportReviewed (rep : PreviewReport) (preparer : Actor) : Prop :=
  match rep_status rep with
  | Some rs_submitted => rep_approvedBy rep = None ∧ rep_returnedBy rep = None
  | Some rs_approved => ∃ reviewer, rep_approvedBy rep = Some reviewer ∧
      isPresent (rep_approvedAt rep) = true ∧ actor_id reviewer ≠ actor_id preparer
  | Some rs_returned => ∃ reviewer comment, rep_returnedBy rep = Some reviewer ∧
      isPresent (rep_returnedAt rep) = true ∧ rep_returnComment rep = Some comment ∧ comment ≠ []
  | None => False
  end.

(** The lines of a report follow the cargo items of its source plans, one for one. *)
Definition lineFor (source : MeasurementPlan * CargoLine) (row : PreviewReportLine) : Prop :=
  let '(plan, line) := source in
  prl_planId row = plan_id plan ∧ prl_lineId row = line_id line ∧
  prl_description row = description line ∧ prl_unit row = unit_ line ∧
  prl_declaredQuantity row = manifestQuantity line ∧ prl_reason row ≠ [] ∧
  ∃ v, decimal (Some (prl_quantity row)) 3 15 = Some v ∧ (unit_ line = count → v mod 1000 = 0).

Record reportOk (rep : PreviewReport) : Prop := {
  ro_call : rep_callId rep = callId;
  ro_prepared : ∃ preparer, rep_preparedBy rep = Some preparer ∧ reportReviewed rep preparer;
  ro_preparedAt : isPresent (rep_preparedAt rep) = true;
  ro_reason : rep_reason rep ≠ [];
  ro_fingerprint : rep_sourceFingerprint rep = voyageInputFingerprint (rep_sourcePlans rep);
  ro_sources : ∀ plan, plan ∈ rep_sourcePlans rep → plan_callId plan = callId;
  ro_active : activePlans (rep_sourcePlans rep) = rep_sourcePlans rep;
  ro_clear : reconciliationIssues (rep_sourcePlans rep) = [];
  ro_lines : Forall2 lineFor (sourceLinesOf (rep_sourcePlans rep)) (rep_lines rep) }.

(** An invoice: computed from an approved report, numbered by position. *)
Definition invoiceFrom (rep : PreviewReport) (inv : PreviewInvoice) : Prop :=
  inv_reportId inv = rep_id rep ∧ rep_status rep = Some rs_approved ∧
  ∃ inputs, let c := calculateVariation rep inputs in
    calc_issues c = [] ∧ inv_lines inv = calc_lines c ∧ inv_total inv = calc_total c ∧
    inv_status inv = calc_status c.
Record invoiceOk (reports : list PreviewReport) (i : nat) (inv : PreviewInvoice) : Prop := {
  io_call : inv_callId inv = callId;
  io_report : ∃ rep, rep ∈ reports ∧ invoiceFrom rep inv;
  io_paid : inv_status inv = is_draft → inv_paymentStatus inv = paid;
  io_amount : inv_originalPaidAmount inv = [] ∨
    validDecimal (Some (inv_originalPaidAmount inv)) 2 15 = true;
  io_number : inv_number inv = js "DRAFT-VAR-" ++ toUpperCase (sliceLast 8 callId) ++ js "-"
    ++ padStart 3 cZero (printZ (Z.of_nat i + 1)) }.

(** The events a report and an invoice leave in the log. *)
Definition reportEvents (rep : PreviewReport) : list (PreviewEventAction * str) :=
  (report_submitted, versionText (rep_revision rep)) ::
  match reportStatus rep with
  | rs_submitted => []
  | rs_approved => [(report_approved, versionText (rep_revision rep))]
  | rs_returned => [(report_returned, versionText (rep_revision rep))]
  end.
Definition invoiceEvent (inv : PreviewInvoice) : PreviewEventAction * str :=
  (invoiceAction (inv_status inv), inv_number inv).
Definition logged (e : PreviewEvent) : PreviewEventAction * str := (pe_action e, pe_reference e).

Record invariant (r : CloseoutRecord) : Prop := {
  ri_call : cr_callId r = callId;
  ri_revisions : map rep_revision (cr_reports r) = seqZ 1 (Z.of_nat (length (cr_reports r)));
  ri_reports : Forall reportOk (cr_reports r);
  ri_invoices : ∀ i inv, cr_invoices r !! i = Some inv → invoiceOk (cr_reports r) i inv;
  ri_declaration : validDeclaration (cr_declaration r) = true;
  ri_events : Forall (λ e, pe_callId e = callId) (cr_events r);
  ri_log : map logged (cr_events r) ≡ₚ
    flat_map reportEvents (cr_reports r) ++ map invoiceEvent (cr_invoices r) }.
End Machine.

(** ** Lemmas: what each operation does *)

Lemma rmapM_Ok {A B E} (f : A → result E B) l l' :
  rmapM f l = Ok l' → Forall2 (λ x y, f x = Ok y) l l'.
Proof.
  revert l'. induction l as [|x l IH]; intros l'; simpl; [intros [= <-]; constructor|].
  intros (y & Hy & (ys & Hys & [= <-])%rbind_Ok)%rbind_Ok. by constructor; [|apply IH].
Qed.

Lemma firstIssue_Ok issues u : firstIssue issues = Ok u → issues = [].
Proof. by destruct issues. Qed.

Lemma jsonClone_id {A} `{Codec A} (a : A) : jsonClone a = a.
Proof. unfold jsonClone. rewrite parse_stringify. simpl. by rewrite dec_enc. Qed.

Lemma truthy_false s : isEmpty s = false ↔ s ≠ [].
Proof. destruct s; simpl; split; congruence. Qed.

Lemma last_split {A} (l : list A) x : last l = Some x → l = removelast l ++ [x].
Proof.
  induction l as [|y l IH] using rev_ind; [done|].
  rewrite last_snoc, List.removelast_last. by intros [= ->].
Qed.

Section Steps.
Context `{Host}.

Lemma finalLine_spec entries source row : finalLine entries source = Ok row → lineFor source row.
Proof.
  unfold finalLine, lineFor. destruct source as [plan line].
  destruct (findb _ entries) as [entry|] eqn:Ef; [|done].
  apply findb_Some in Ef as [_ [Hp%streq_true Hl%streq_true]%andb_true_iff].
  destruct (decimal (Some (apl_quantity entry)) 3 15) as [v|] eqn:Ev; [|done].
  intros Hr. run_ok Hr. injection Hr as <-. do 5 (split; [done|]). split; [by apply truthy_false|].
  exists v. split; [done|]. intros Hu. apply andb_false_iff in G as [G|G]; bool_hyps; done.
Qed.

Lemma submitted_ok callId sheets lines reason actor u now rev :
  activePlans sheets = sheets → reconciliationIssues sheets = [] →
  (∀ plan, plan ∈ sheets → plan_callId plan = callId) →
  reason ≠ [] → Forall2 lineFor (sourceLinesOf sheets) lines →
  reportOk callId (mkReport u callId rev (Some rs_submitted) (voyageInputFingerprint sheets)
    (Some now) (Some actor) reason lines (jsonClone sheets) None None None None None).
Proof. intros. rewrite jsonClone_id. constructor; try done. by exists actor. Qed.

Lemma submitReport_cases callId plans input actor u u' now r r' out :
  submitReport callId plans input actor u u' now r = Ok (r', out) →
  (r' = r ∧ last (cr_reports r) = Some out) ∨
  ∃ e, r' = addEvent (withReports r (cr_reports r ++ [out])) e ∧ pe_callId e = callId ∧
    logged e = (report_submitted, versionText (rep_revision out)) ∧
    rep_revision out = default 0 (rep_revision <$> last (cr_reports r)) + 1 ∧
    rep_status out = Some rs_submitted ∧ rep_id out = u ∧ rep_preparedBy out = Some actor ∧
    rep_sourcePlans out = activePlans plans ∧ reportOk callId out.
Proof.
  unfold submitReport. intros Hr. run_ok Hr.
  apply firstIssue_Ok in G. apply app_eq_nil in G as [Gi Gc]. apply rmapM_Ok in G2.
  assert (Hsame : ∀ plan, plan ∈ activePlans plans → plan_callId plan = callId).
  { destruct (existsb _ _) eqn:E; [done|]. intros p Hp. apply existsb_false with (x := p) in E; [|done].
    by apply negb_false_iff, streq_true in E. }
  destruct (last (cr_reports r)) as [p|] eqn:El.
  1: destruct (_ && _ && _ && _); [injection Hr as <- <-; by left|].
  all: injection Hr as <- <-; right; eexists; split; [done|]; do 6 (split; [done|]).
  all: split; [apply jsonClone_id|]; apply submitted_ok; [apply activePlans_idem|done|done|by apply truthy_false|].
  all: eapply Forall2_impl; [exact G2|]; intros src row Hrow; exact (finalLine_spec _ src row Hrow).
Qed.

Lemma latestSubmitted_Ok r reportId m rep : latestSubmitted r reportId m = Ok rep →
  cr_reports r = removelast (cr_reports r) ++ [rep] ∧ rep_id rep = reportId ∧
  reportStatus rep = rs_submitted.
Proof.
  unfold latestSubmitted. destruct (last (cr_reports r)) as [p|] eqn:El; [|done].
  destruct (_ || _) eqn:G; [done|]. intros [= <-]. bool_hyps.
  split; [by apply last_split|]. split; [by apply streq_true|done].
Qed.

Lemma draftInvoice_cases r rep input actor u u' now r' inv :
  draftInvoice r rep input actor u u' now = Ok (r', inv) →
  (r' = r ∧ last (cr_invoices r) = Some inv) ∨
  ∃ e, r' = addEvent (addInvoice r inv) e ∧ pe_callId e = cr_callId r ∧ logged e = invoiceEvent inv ∧
    inv_callId inv = cr_callId r ∧ inv_number inv = invoiceNumber r ∧ inv_reportId inv = rep_id rep ∧
    (inv_status inv = is_draft → inv_paymentStatus inv = paid) ∧
    (inv_originalPaidAmount inv = [] ∨ validDecimal (Some (inv_originalPaidAmount inv)) 2 15 = true) ∧
    let c := calculateVariation rep (ii_lines input) in
    calc_issues c = [] ∧ inv_lines inv = calc_lines c ∧ inv_total inv = calc_total c ∧
    inv_status inv = calc_status c.
Proof.
  unfold draftInvoice. intros Hr. run_ok Hr. apply firstIssue_Ok in G1.
  assert (Hpaid : calc_status (calculateVariation rep (ii_lines input)) = is_draft →
    ii_paymentStatus input = paid).
  { intros Hd. rewrite Hd in G2. simpl in G2. by bool_hyps. }
  assert (Ham : ii_originalPaidAmount input = [] ∨
    validDecimal (Some (ii_originalPaidAmount input)) 2 15 = true).
  { apply andb_false_iff in G0 as [G0|G0]; bool_hyps; [left|by right].
    by destruct (ii_originalPaidAmount input). }
  destruct (last (cr_invoices r)) as [p|] eqn:El.
  1: destruct (sameInput _ _ _ _); [injection Hr as <- <-; by left|].
  all: injection Hr as <- <-; right; eexists; split; [done|]; repeat (split; [done|]); done.
Qed.
End Steps.

(** ** The invariant is preserved *)

Section Preservation.
Context `{Host}.
Variable callId : str.

Lemma invariant_empty : invariant callId (emptyCloseout callId).
Proof. constructor; simpl; try done; constructor. Qed.

Lemma invoiceFrom_mono reports reports' i inv :
  (∀ rep, rep ∈ reports → rep_status rep = Some rs_approved → rep ∈ reports') →
  invoiceOk callId reports i inv → invoiceOk callId reports' i inv.
Proof.
  intros Hsub [H1 (rep & Hin & Hid & Hst & Hc) H3 H4 H5]. constructor; try done.
  exists rep. split; [by apply Hsub|done].
Qed.

Lemma lastRevision r : invariant callId r →
  default 0 (rep_revision <$> last (cr_reports r)) = Z.of_nat (length (cr_reports r)).
Proof.
  intros [_ Hr _ _ _ _ _]. destruct (cr_reports r) as [|x l] using rev_ind; [done|].
  clear IHl. rewrite last_snoc. simpl. rewrite map_app, length_app in Hr. simpl in Hr.
  rewrite Nat.add_1_r, seqZ_S in Hr. apply app_inj_tail in Hr as [_ Hr]. rewrite length_app. simpl. lia.
Qed.

Lemma reportEvents_submitted rep : reportStatus rep = rs_submitted →
  reportEvents rep = [(report_submitted, versionText (rep_revision rep))].
Proof. unfold reportEvents. by intros ->. Qed.

(** A new version joins the list. *)
Lemma invariant_submit r rep e : invariant callId r →
  reportOk callId rep → rep_status rep = Some rs_submitted →
  rep_revision rep = default 0 (rep_revision <$> last (cr_reports r)) + 1 →
  pe_callId e = callId → logged e = (report_submitted, versionText (rep_revision rep)) →
  invariant callId (addEvent (withReports r (cr_reports r ++ [rep])) e).
Proof.
  intros Hi Hok Hst Hrev Hec Hel. rewrite (lastRevision r Hi) in Hrev.
  destruct Hi as [Hc Hr Hrep Hinv Hdec Hev Hlog]. constructor; simpl; [done|..].
  - rewrite map_app, length_app, Hr. simpl. rewrite Nat.add_1_r, seqZ_S. do 2 f_equal. lia.
  - apply Forall_app. split; [done|]. by constructor.
  - intros i inv Hl. eapply invoiceFrom_mono; [|by apply Hinv]. set_solver.
  - done.
  - apply Forall_app. split; [done|]. by constructor.
  - rewrite map_app, flat_map_app, Hlog. cbn [map flat_map].
    rewrite reportEvents_submitted, Hel by (unfold reportStatus; by rewrite Hst).
    simpl. solve_Permutation.
Qed.

(** The last version is decided. *)
Lemma invariant_decide r prefix rep rep' e :
  invariant callId r → cr_reports r = prefix ++ [rep] → reportStatus rep = rs_submitted →
  rep_revision rep' = rep_revision rep → reportOk callId rep' →
  reportEvents rep' = [(report_submitted, versionText (rep_revision rep)); logged e] →
  pe_callId e = callId →
  invariant callId (addEvent (withReports r (prefix ++ [rep'])) e).
Proof.
  intros Hi Hsplit Hst Hrev Hok Hel Hec. destruct Hi as [Hc Hr Hrep Hinv Hdec Hev Hlog].
  rewrite Hsplit in *. constructor; simpl; [done|..].
  - rewrite map_app, length_app in *. simpl in *. by rewrite Hrev.
  - apply Forall_app in Hrep as [Hp _]. apply Forall_app. split; [done|]. by constructor.
  - intros i inv Hl. eapply invoiceFrom_mono; [|by apply Hinv].
    intros x [Hx| ->%list_elem_of_singleton]%elem_of_app Hs; [set_solver|].
    unfold reportStatus in Hst. by rewrite Hs in Hst.
  - done.
  - apply Forall_app. split; [done|]. by constructor.
  - rewrite map_app, Hlog, !flat_map_app. cbn [map flat_map].
    rewrite Hel, (reportEvents_submitted rep) by done. simpl. solve_Permutation.
Qed.

(** An invoice drawn from an approved report. *)
Lemma invariant_draft r rep input actor u u' now r' inv : invariant callId r →
  rep ∈ cr_reports r → rep_status rep = Some rs_approved →
  draftInvoice r rep input actor u u' now = Ok (r', inv) → invariant callId r'.
Proof.
  intros Hi Hin Hst [[-> _]|(e & -> & Hec & Hel & Hic & Hn & Hid & Hp & Ham & Hcalc)]%draftInvoice_cases;
    [done|]. destruct Hi as [Hc Hr Hrep Hinv Hdec Hev Hlog]. constructor; simpl; try done.
  - intros i x [Hl|[Hge Hl]]%lookup_app_Some; [by apply Hinv|].
    apply list_lookup_singleton_Some in Hl as [Hi <-].
    constructor; [by rewrite Hic|exists rep|done|done|].
    + split; [done|]. split; [done|]. split; [done|]. by exists (ii_lines input).
    + rewrite Hn. unfold invoiceNumber. rewrite Hc. do 6 f_equal. lia.
  - apply Forall_app. split; [done|]. constructor; [by rewrite Hec|constructor].
  - rewrite !map_app, Hlog. simpl. rewrite Hel. solve_Permutation.
Qed.
End Preservation.

Section Reachability.
Context `{Host}.
Variable callId : str.

Lemma approved_ok rep now actor : reportOk callId rep → reportStatus rep = rs_submitted →
  actor_id <$> rep_preparedBy rep ≠ Some (actor_id actor) →
  reportOk callId (approved rep now actor).
Proof.
  intros [Hc Hprep Hat Hre Hf Hs Ha Hcl Hl] Hst Hne. constructor; try done. destruct Hprep as (p & Hp & _). exists p.
  split; [done|]. exists actor. split; [done|]. split; [done|].
  rewrite Hp in Hne. simpl in Hne. congruence.
Qed.

Lemma returned_ok rep now comment actor : reportOk callId rep → trim comment ≠ [] →
  reportOk callId (returned rep now comment actor).
Proof.
  intros [Hc Hprep Hat Hre Hf Hs Ha Hcl Hl] Hne. constructor; try done. destruct Hprep as (p & Hp & _). exists p.
  split; [done|]. by exists actor, (trim comment).
Qed.

Lemma lastReportOk r prefix rep : invariant callId r → cr_reports r = prefix ++ [rep] →
  reportOk callId rep.
Proof. intros [_ _ Hrep _ _ _ _] Hs. rewrite Hs in Hrep. apply Forall_app in Hrep as [_ Hrep]. by inversion Hrep. Qed.

Lemma currentReport_Some plans r rep : currentReport plans (Some r) = Some rep →
  rep ∈ cr_reports r ∧ reportStatus rep = rs_approved ∧ matchesInputs rep plans = true.
Proof.
  unfold currentReport. destruct (findb _ _) as [p|] eqn:Ef; simpl; [|done].
  destruct (matchesInputs p plans) eqn:Em; [|done]. intros [= <-].
  apply findb_Some in Ef as [Hin Hs%bool_decide_eq_true]. split; [|done].
  by rewrite list_elem_of_In, <- in_rev, <- list_elem_of_In in Hin.
Qed.

Lemma approve_invariant plans reportId actor invoice u u' u'' now now' r r' out :
  invariant callId r →
  approveReport callId plans reportId actor invoice u u' u'' now now' r = Ok (r', out) →
  invariant callId r'.
Proof.
  intros Hi Hr. unfold approveReport in Hr. run_ok Hr.
  apply latestSubmitted_Ok in G as (Hsplit & Hid & Hst). apply bool_decide_eq_false in G1.
  assert (Hi' := invariant_decide callId r _ x (approved x now actor)
    (mkEvent u callId now actor report_approved (versionText (rep_revision x))) Hi Hsplit Hst eq_refl
    (approved_ok x now actor (lastReportOk r _ x Hi Hsplit) Hst G1) eq_refl eq_refl).
  destruct invoice as [input|]; [|by injection Hr as <- <-].
  destruct (draftInvoice _ _ _ _ _ _ _) as [[s inv]|] eqn:Ed; injection Hr as <- <-; [|done].
  apply (invariant_draft callId _ (approved x now actor) _ _ _ _ _ _ _ Hi') in Ed; [done| |done].
  simpl. set_solver.
Qed.

Lemma step_invariant r r' : invariant callId r → step callId r r' → invariant callId r'.
Proof.
  intros Hi Hs. destruct Hs as [input actor now r' out Hr|plans input actor u u' now r' out Hr
    |plans reportId actor invoice u u' u'' now now' r' out Hr
    |reportId actor comment u now r' out Hr|plans reportId input actor u u' now r' out Hr].
  - unfold saveDeclaration in Hr. run_ok Hr. injection Hr as <- <-. destruct Hi. constructor; try done.
    simpl. destruct (isEmpty (trim (pd_amountPaid input))) eqn:E; simpl; [done|].
    unfold truthy in G. rewrite E in G. simpl in G. by apply negb_false_iff in G.
  - apply submitReport_cases in Hr as [[-> _]|(e & -> & He & Hl & Hv & Hst & _ & _ & _ & Hok)]; [done|].
    by apply invariant_submit.
  - by eapply approve_invariant.
  - unfold returnReport in Hr. run_ok Hr. injection Hr as <- <-.
    apply latestSubmitted_Ok in G as (Hsplit & Hid & Hst). apply truthy_false in G0.
    eapply invariant_decide; [done|exact Hsplit|done|done| |done|done].
    apply returned_ok; [by eapply lastReportOk|done].
  - unfold createInvoice in Hr. destruct (currentReport plans (Some r)) as [rep|] eqn:Ec; [|done].
    destruct (streq _ _); [|done]. apply currentReport_Some in Ec as (Hin & Hst & _).
    eapply invariant_draft; [done|exact Hin| |exact Hr].
    destruct Hi as [_ _ Hrep _ _ _ _]. rewrite Forall_forall in Hrep.
    destruct (Hrep _ Hin) as [_ (p & _ & Hp) _ _ _ _ _ _ _]. unfold reportReviewed in Hp.
    unfold reportStatus in Hst. destruct (rep_status rep) as [s|]; simpl in *; [by rewrite Hst|done].
Qed.

Lemma reachable_invariant r : reachable callId r → invariant callId r.
Proof.
  unfold reachable. intros Hr. remember (emptyCloseout callId) as r0.
  assert (Hi : invariant callId r0) by (subst; apply invariant_empty). clear Heqr0.
  induction Hr; [done|]. eauto using step_invariant.
Qed.

(** *** Guarantees *)

(** C2. Separation of duties: the report a voyage's figures are taken from was approved by
    someone other than its preparer, rests on plans without open issues, and every input it
    was prepared from (declarations, participants, latest returns, server decisions) is
    exactly the current one. *)
Theorem reachable_current_report plans r rep :
  reachable callId r → currentReport plans (Some r) = Some rep →
  (∃ preparer reviewer, rep_preparedBy rep = Some preparer ∧ rep_approvedBy rep = Some reviewer ∧
    actor_id reviewer ≠ actor_id preparer) ∧
  reconciliationIssues (rep_sourcePlans rep) = [] ∧
  map planInputs (activePlans (rep_sourcePlans rep)) = map planInputs (activePlans plans) ∧
  Forall2 lineFor (sourceLinesOf (rep_sourcePlans rep)) (rep_lines rep).
Proof.
  intros Hi%reachable_invariant (Hin & Hst & Hm)%currentReport_Some.
  destruct Hi as [_ _ Hrep _ _ _ _]. rewrite Forall_forall in Hrep.
  destruct (Hrep _ Hin) as [_ (p & Hp & Hrev) _ _ Hf _ _ Hc Hl].
  apply matchesInputs_true in Hm as [Hm _]. split; [|split; [done|split; [|done]]].
  - unfold reportReviewed in Hrev. unfold reportStatus in Hst.
    destruct (rep_status rep) as [[]|]; simpl in Hst; try done.
    destruct Hrev as (v & Hv & _ & Hne). by exists p, v.
  - apply fingerprint_inputs. congruence.
Qed.

(** C3. Every invoice of a voyage was computed from a report that is approved by a second
    person, from a calculation without issues, and a payable draft only exists once the
    declaration is recorded as paid. *)
Theorem reachable_invoice_backed r inv :
  reachable callId r → inv ∈ cr_invoices r →
  ∃ rep preparer reviewer inputs, rep ∈ cr_reports r ∧ inv_reportId inv = rep_id rep ∧
    rep_preparedBy rep = Some preparer ∧ rep_approvedBy rep = Some reviewer ∧
    actor_id reviewer ≠ actor_id preparer ∧
    calc_issues (calculateVariation rep inputs) = [] ∧
    inv_lines inv = calc_lines (calculateVariation rep inputs) ∧
    inv_total inv = calc_total (calculateVariation rep inputs) ∧
    inv_status inv = calc_status (calculateVariation rep inputs) ∧
    (inv_status inv = is_draft → inv_paymentStatus inv = paid).
Proof.
  intros [_ _ Hrep Hinv _ _ _]%reachable_invariant [i Hl]%list_elem_of_lookup.
  destruct (Hinv _ _ Hl) as [_ (rep & Hin & Hid & Hst & inputs & Hc) Hp _ _].
  rewrite Forall_forall in Hrep. destruct (Hrep _ Hin) as [_ (p & Hpp & Hrev) _ _ _ _ _ _ _].
  unfold reportReviewed in Hrev. rewrite Hst in Hrev. destruct Hrev as (v & Hv & _ & Hne).
  exists rep, p, v, inputs. simpl in Hc. tauto.
Qed.

Lemma number_position prefix (i j : nat) :
  prefix ++ padStart 3 cZero (printZ (Z.of_nat i + 1)) = prefix ++ padStart 3 cZero (printZ (Z.of_nat j + 1)) →
  i = j.
Proof.
  intros He%app_inv_head. apply (f_equal bigOfDigits) in He. rewrite !bigOfDigits_padStart in He.
  unfold printZ in He. rewrite !(proj2 (Z.ltb_ge _ 0)) in He by lia. rewrite !printNat_val in He; lia.
Qed.

(** Versions are numbered 1, 2, 3, ... without a gap and no two invoices of a voyage
    share a number. *)
Theorem reachable_numbering r : reachable callId r →
  map rep_revision (cr_reports r) = seqZ 1 (Z.of_nat (length (cr_reports r))) ∧
  NoDup (map inv_number (cr_invoices r)).
Proof.
  intros [_ Hr _ Hinv _ _ _]%reachable_invariant. split; [done|].
  apply NoDup_alt. intros i j n Hi Hj. rewrite list_lookup_fmap in Hi, Hj.
  apply fmap_Some in Hi as (x & Hx & ->), Hj as (y & Hy & He).
  destruct (Hinv _ _ Hx) as [_ _ _ _ Nx], (Hinv _ _ Hy) as [_ _ _ _ Ny].
  rewrite Nx, Ny, !app_assoc in He. by apply number_position in He.
Qed.

(** The event log is complete and holds nothing else: one entry per submitted version,
    per decision on it and per invoice, whatever the order of operations. *)
Theorem reachable_log r : reachable callId r →
  map logged (cr_events r) ≡ₚ
  flat_map reportEvents (cr_reports r) ++ map invoiceEvent (cr_invoices r).
Proof. by intros [_ _ _ _ _ _ Hl]%reachable_invariant. Qed.
End Reachability.

(** ** What is saved can be read back *)

Lemma decimal_widen v p p' m : decimal v p m ≠ None → (p ≤ p')%nat → validDecimal v p' m = true.
Proof.
  unfold validDecimal, decimal. destruct v as [v|]; [|done]. simpl.
  destruct (matchDecimal (trim v)) as [[w f]|]; simpl; [|done]. intros Hd Hle.
  destruct (m <? length w)%nat; [done|]. simpl in *.
  destruct (Nat.ltb_spec p (length f)); [done|]. by rewrite (proj2 (Nat.ltb_ge _ _)) by lia.
Qed.

Section Validity.
Context `{Host}.
Variable callId : str.

Lemma issues_declared plans plan (line : CargoLine) : reconciliationIssues plans = [] →
  plan ∈ activePlans plans → line ∈ plan_lines plan →
  validDecimal (manifestQuantity line) 6 15 = true.
Proof.
  unfold reconciliationIssues. intros Hi Hp Hl.
  destruct (activePlans plans) as [|s l]; [done|].
  rewrite flat_map_nil in Hi. specialize (Hi plan Hp). unfold sheetIssues in Hi.
  apply app_eq_nil in Hi as [_ Hi]. apply app_eq_nil in Hi as [Hi _].
  rewrite flat_map_nil in Hi. specialize (Hi line Hl). by destruct (validDecimal _ _ _).
Qed.

(** The part of a report the reader checks and the writer does not establish: that every
    reading of the source plans, optional and superseded ones included, carries a
    well-formed quantity. *)
Definition readingsReadable (rep : PreviewReport) : Prop :=
  ∀ plan, plan ∈ rep_sourcePlans rep →
    forallb (λ s, forallb validSubmissionLine (sub_lines s)) (plan_submissions plan) = true.
Definition reportReadable (rep : PreviewReport) : Prop :=
  (length (rep_lines rep) < 100)%nat ∧ readingsReadable rep.

Lemma validReport_readings rep : validReport callId rep = true → readingsReadable rep.
Proof.
  unfold validReport. intros Hv plan Hp. repeat rewrite andb_true_iff in Hv. destruct Hv as [_ Hv].
  rewrite forallb_true in Hv. specialize (Hv plan Hp). unfold validSourcePlan in Hv.
  rewrite !andb_true_iff in Hv. tauto.
Qed.

Lemma sourceLines_elem sheets src : src ∈ sourceLinesOf sheets → src.1 ∈ sheets ∧ src.2 ∈ plan_lines src.1.
Proof.
  unfold sourceLinesOf. rewrite list_elem_of_In, in_flat_map.
  intros (p & Hp & Hl). apply in_map_iff in Hl as (l & <- & Hl).
  by rewrite !list_elem_of_In.
Qed.

Lemma reportOk_sources rep plan : reportOk callId rep → reportReadable rep →
  plan ∈ rep_sourcePlans rep → validSourcePlan callId plan = true.
Proof.
  intros [_ _ _ _ _ Hsrc Ha Hcl _] [_ Hq] Hp. unfold validSourcePlan.
  rewrite (Hsrc _ Hp), streq_refl, (Hq _ Hp), andb_true_r. apply forallb_true. intros line Hl.
  apply (issues_declared (rep_sourcePlans rep) plan); [done|by rewrite Ha|done].
Qed.

Lemma reportOk_lines rep row : reportOk callId rep → reportReadable rep → row ∈ rep_lines rep →
  validDecimal (Some (prl_quantity row)) 6 15 && validDecimal (prl_declaredQuantity row) 6 15 = true.
Proof.
  intros Hok Hread [i Hi]%list_elem_of_lookup. pose proof (ro_lines _ _ Hok) as Hl.
  destruct (Forall2_lookup_r _ _ _ _ _ Hl Hi) as ([plan line] & Hsrc & _ & _ & _ & _ & Hd & _ & v & Hv & _).
  apply andb_true_iff. split; [apply (decimal_widen _ 3 6); [congruence|lia]|]. rewrite Hd.
  apply list_elem_of_lookup_2, sourceLines_elem in Hsrc as [Hp' Hl']. simpl in *.
  pose proof (reportOk_sources rep plan Hok Hread Hp') as Hs. unfold validSourcePlan in Hs.
  bool_hyps. rewrite forallb_true in H2. by apply H2.
Qed.

Lemma reportOk_valid rep : reportOk callId rep → reportReadable rep → validReport callId rep = true.
Proof.
  intros Hok Hread. pose proof Hok as [Hc (p & Hp & Hrev) Hat _ _ _ _ _ _]. unfold validReport.
  rewrite Hc, streq_refl, Hat, Hp, orb_true_r. unfold reportReviewed in Hrev. unfold reportStatus.
  simpl. repeat rewrite andb_true_iff. repeat split.
  - destruct (rep_status rep) as [[]|]; simpl; try done. by destruct Hrev as (v & -> & -> & _).
  - destruct (rep_status rep) as [[]|]; simpl; try done. by destruct Hrev as (v & c & -> & -> & -> & _).
  - apply forallb_true. intros row Hrow. by apply reportOk_lines with rep.
  - apply forallb_true. intros plan Hplan. by apply reportOk_sources with rep.
Qed.

Lemma invoiceOk_valid r i inv : cr_callId r = callId →
  (∀ rep, rep ∈ cr_reports r → reportReadable rep) →
  invoiceOk callId (cr_reports r) i inv → validInvoice r inv = true.
Proof.
  intros Hc Hread [Hic (rep & Hin & Hid & _ & inputs & Hi & Hl & Ht & _) _ Ham _].
  unfold validInvoice. rewrite Hic, Hc, streq_refl. simpl. repeat rewrite andb_true_iff. repeat split.
  - apply existsb_true. exists rep. split; [done|]. by rewrite Hid, streq_refl.
  - destruct (Hread rep Hin) as [Hlen _]. rewrite Ht. unfold calculateVariation, calc_total.
    destruct (okRows_sum_bound inputs (rep_lines rep)) as [Hb1 Hb2].
    destruct (if _ || _ then _ else _); try done; unfold validDecimal.
    all: rewrite (decimal_fixed _ 2 32); [done| |lia|lia].
    all: split; [exact Hb1|]; eapply Z.le_lt_trans; [exact Hb2|].
    all: change (pow10 (32 + 2)) with (100 * pow10 32).
    all: apply Z.mul_lt_mono_pos_r; [apply pow10_pos|lia].
  - destruct Ham as [->|Ham]; [done|]. by rewrite Ham, orb_true_r.
  - apply forallb_true. intros line Hline. rewrite Hl in Hline.
    by apply okRows_amount in Hline as (_ & _ & ?).
Qed.

(** C4. Of a reachable record whose reports have fewer than a hundred cargo items, the
    validators that guard reading it back accept everything but the readings themselves:
    the record passes them exactly when every reading of its source plans, optional and
    superseded ones included, carries a well-formed quantity. *)
Theorem reachable_valid r : callId ≠ [] → reachable callId r →
  (∀ rep, rep ∈ cr_reports r → (length (rep_lines rep) < 100)%nat) →
  validRecord r = true ↔ ∀ rep, rep ∈ cr_reports r → readingsReadable rep.
Proof.
  intros Hne [Hc _ Hrep Hinv Hdec Hev _]%reachable_invariant Hlen. unfold validRecord.
  rewrite Hc, Hdec, andb_true_r. repeat rewrite andb_true_iff. split.
  { intros [[[_ Hv] _] _] rep Hin. rewrite forallb_true in Hv. by apply validReport_readings, Hv. }
  intros Hq. assert (Hread : ∀ rep, rep ∈ cr_reports r → reportReadable rep) by (split; auto).
  repeat split.
  - unfold truthy. by rewrite (proj2 (truthy_false callId) Hne).
  - apply forallb_true. intros rep Hin. rewrite Forall_forall in Hrep.
    apply reportOk_valid; [by apply Hrep|by apply Hread].
  - apply forallb_true. intros inv [i Hl]%list_elem_of_lookup. by eapply invoiceOk_valid; [|done|apply Hinv].
  - apply forallb_true. intros e He. rewrite Forall_forall in Hev. by apply streq_true, Hev.
Qed.
End Validity.

(** ** Repeated clicks *)

Section Idempotence.
Context `{Host}.

(** Submitting the same figures again, before anything else happens, returns the version
    already waiting and changes nothing. *)
Theorem submitReport_idempotent callId plans input actor actor' u u' v v' now now' r r' rep :
  submitReport callId plans input actor u u' now r = Ok (r', rep) →
  submitReport callId plans input actor' v v' now' r' = Ok (r', rep).
Proof.
  unfold submitReport. intros Hr. run_ok Hr.
  rewrite G. cbn [rbind]. rewrite G0. cbn [throw_if rbind]. rewrite G1. cbn [throw_if rbind].
  rewrite G2. cbn [rbind].
  destruct (last (cr_reports r)) as [p|] eqn:El.
  1: destruct (_ && _ && _ && _) eqn:Es in Hr.
  - injection Hr as <- <-. by rewrite El, Es.
  - injection Hr as <- <-. simpl. rewrite last_snoc. simpl. by rewrite !streq_refl.
  - injection Hr as <- <-. simpl. rewrite last_snoc. simpl. by rewrite !streq_refl.
Qed.

Lemma sameInput_refl rep input lines total status callId u n now actor :
  sameInput (mkInvoice (trim (ii_payer input)) (ii_currency input) (ii_tariffReference input)
    (ii_originalInvoiceReference input) (ii_paymentStatus input) (ii_originalPaidAmount input)
    (ii_previousVariationReference input) lines total status (rep_id rep) callId u n now actor)
    rep input lines = true.
Proof.
  unfold sameInput. cbn [inv_payer inv_currency inv_tariffReference inv_originalInvoiceReference
    inv_paymentStatus inv_originalPaidAmount inv_previousVariationReference inv_lines inv_reportId].
  rewrite !streq_refl, !bool_decide_eq_true_2 by done. done.
Qed.

Lemma draftInvoice_idempotent r rep input actor actor' u u' v v' now now' r' inv :
  draftInvoice r rep input actor u u' now = Ok (r', inv) →
  cr_reports r' = cr_reports r ∧
  draftInvoice r' rep input actor' v v' now' = Ok (r', inv).
Proof.
  unfold draftInvoice. intros Hr. run_ok Hr.
  rewrite G, G0, G1, G2, G3. cbn [throw_if rbind].
  destruct (last (cr_invoices r)) as [p|] eqn:El.
  1: destruct (sameInput _ _ _ _) eqn:Es in Hr.
  - injection Hr as <- <-. by rewrite El, Es.
  - injection Hr as <- <-. simpl cr_invoices. by rewrite last_snoc, sameInput_refl.
  - injection Hr as <- <-. simpl cr_invoices. by rewrite last_snoc, sameInput_refl.
Qed.

(** Drafting an invoice twice with the same inputs returns the first invoice: repeated
    clicks never bill a voyage twice. *)
Theorem createInvoice_idempotent plans reportId input actor actor' u u' v v' now now' r r' inv :
  createInvoice plans reportId input actor u u' now r = Ok (r', inv) →
  createInvoice plans reportId input actor' v v' now' r' = Ok (r', inv).
Proof.
  unfold createInvoice. destruct (currentReport plans (Some r)) as [rep|] eqn:Ec; [|done].
  destruct (streq _ _) eqn:Es; [|done].
  intros [Hrep Hd]%(draftInvoice_idempotent _ _ _ _ actor' _ _ v v' _ now').
  unfold currentReport in *. rewrite Hrep, Ec. by rewrite Es.
Qed.
End Idempotence.

(** ** A voyage from submission to invoice *)

Definition sampleCall : str := js "call-0001".
Definition sampleFinals : ApprovalInput :=
  mkApprovalInput (js "Checked ") [mkApprovalLine (js "p1") (js "l1") (js "1012.4") (js "agreed")].
Definition sampleBilling : PreviewInvoiceInput :=
  mkInvoiceInput (js "Owner Ltd ") USD (js "T-1") (js "INV-7") paid [] [] sampleRates.
Definition okRecord {T} (x : result str (CloseoutRecord * T)) : CloseoutRecord :=
  match x with Ok (r, _) => r | Err _ => emptyCloseout [] end.
Definition lastReport (r : CloseoutRecord) : PreviewReport :=
  default (sampleReport []) (last (cr_reports r)).

#[local] Existing Instance asciiHost.
Definition sampleSubmit (r : CloseoutRecord) :=
  submitReport sampleCall [measuredPlan] sampleFinals surveyor (js "r1") (js "e1") (js "t1") r.
Definition sampleR1 : CloseoutRecord := okRecord (sampleSubmit (emptyCloseout sampleCall)).
Definition sampleApprove (r : CloseoutRecord) :=
  approveReport sampleCall [measuredPlan] (js "r1") reviewer (Some sampleBilling) (js "e2") (js "i1")
    (js "e3") (js "t2") (js "t3") r.
Definition sampleR2 : CloseoutRecord := okRecord (sampleApprove sampleR1).
Definition sampleInvoice : PreviewInvoice :=
  match cr_invoices sampleR2 with inv :: _ => inv | [] =>
    mkInvoice [] USD [] [] paid [] [] [] [] is_draft [] [] [] [] [] surveyor end.

Lemma sample_submitted : sampleSubmit (emptyCloseout sampleCall) = Ok (sampleR1, lastReport sampleR1).
Proof. vm_compute. reflexivity. Qed.
Lemma sample_resubmitted : sampleSubmit sampleR1 = Ok (sampleR1, lastReport sampleR1).
Proof. vm_compute. reflexivity. Qed.
Lemma sample_approved : sampleApprove sampleR1 =
  Ok (sampleR2, mkApprovalOutcome (lastReport sampleR2) (Some sampleInvoice) None).
Proof. vm_compute. reflexivity. Qed.
Lemma sample_reachable : reachable sampleCall sampleR2.
Proof.
  eapply rtc_l; [eapply step_submit, sample_submitted|].
  eapply rtc_l; [eapply step_approve, sample_approved|]. apply rtc_refl.
Qed.
Lemma sample_current : currentReport [measuredPlan] (Some sampleR2) = Some (lastReport sampleR2).
Proof. vm_compute. reflexivity. Qed.
Lemma sample_billed : inv_total sampleInvoice = js "31.00" ∧
  inv_number sampleInvoice = js "DRAFT-VAR-ALL-0001-001".
Proof. vm_compute. done. Qed.

(** The preparer cannot approve the version, and changed readings refuse the approval. *)
Example sample_refused :
  approveReport sampleCall [measuredPlan] (js "r1") surveyor None [] [] [] [] [] sampleR1
    = Err (js "A second reviewer must approve. You prepared this version.") ∧
  currentReport [samplePlan [sampleSubmission (js "s1") 1 (js "1010")] []] (Some sampleR2) = None.
Proof. split; vm_compute; reflexivity. Qed.

Lemma reachable_current_report_witness :
  reconciliationIssues (rep_sourcePlans (lastReport sampleR2)) = [] ∧
  ∃ p v, rep_preparedBy (lastReport sampleR2) = Some p ∧ rep_approvedBy (lastReport sampleR2) = Some v ∧
    actor_id v ≠ actor_id p.
Proof.
  destruct (reachable_current_report sampleCall [measuredPlan] sampleR2 (lastReport sampleR2)
    sample_reachable sample_current) as (Hp & Hi & _). split; [exact Hi|exact Hp].
Defined.

Lemma reachable_invoice_backed_witness : ∃ rep inputs, rep ∈ cr_reports sampleR2 ∧
  inv_total sampleInvoice = calc_total (calculateVariation rep inputs).
Proof.
  destruct (reachable_invoice_backed sampleCall sampleR2 sampleInvoice sample_reachable)
    as (rep & p & v & inputs & Hin & _ & _ & _ & _ & _ & _ & Ht & _).
  - vm_compute. left.
  - exists rep, inputs. split; [exact Hin|exact Ht].
Defined.

Lemma reachable_numbering_witness : NoDup (map inv_number (cr_invoices sampleR2)) ∧
  length (cr_invoices sampleR2) = 1%nat.
Proof. split; [apply (reachable_numbering sampleCall sampleR2 sample_reachable)|reflexivity]. Defined.

Lemma reachable_log_witness :
  map logged (cr_events sampleR2) ≡ₚ
  flat_map reportEvents (cr_reports sampleR2) ++ map invoiceEvent (cr_invoices sampleR2) ∧
  length (cr_events sampleR2) = 3%nat.
Proof. split; [apply (reachable_log sampleCall sampleR2 sample_reachable)|reflexivity]. Defined.

(** A superseded reading with a malformed quantity does not stop a version from being
    submitted and saved, but the record it leaves is refused when it is read back. *)
Definition malformedPlan : MeasurementPlan :=
  samplePlan [sampleSubmission (js "s1") 1 (js "about 1010");
              sampleSubmission (js "s2") 2 (js "1012.4")] [].
Definition malformedRecord : CloseoutRecord :=
  okRecord (submitReport sampleCall [malformedPlan] sampleFinals surveyor (js "r1") (js "e1")
    (js "t1") (emptyCloseout sampleCall)).
Example malformed_reading_saved :
  reachable sampleCall malformedRecord ∧ validRecord malformedRecord = false.
Proof.
  split; [|vm_compute; reflexivity].
  eapply rtc_l; [|apply rtc_refl]. eapply (step_submit _ _ [malformedPlan] sampleFinals surveyor).
  vm_compute. reflexivity.
Qed.

Lemma reachable_valid_witness : validRecord sampleR2 = true.
Proof.
  apply (reachable_valid sampleCall sampleR2); [discriminate|exact sample_reachable| |].
  - intros rep Hin. vm_compute in Hin. apply list_elem_of_singleton in Hin as ->. vm_compute. lia.
  - intros rep Hin. vm_compute in Hin. apply list_elem_of_singleton in Hin as ->. intros plan Hp. apply list_elem_of_singleton in Hp as ->. vm_compute. reflexivity.
Defined.

Lemma submitReport_idempotent_witness : sampleSubmit sampleR1 = Ok (sampleR1, lastReport sampleR1).
Proof. eapply submitReport_idempotent, sample_submitted. Defined.

Lemma createInvoice_idempotent_witness :
  createInvoice [measuredPlan] (js "r1") sampleBilling reviewer (js "x") (js "y") (js "t9") sampleR2
  = Ok (sampleR2, sampleInvoice).
Proof.
  apply (createInvoice_idempotent [measuredPlan] (js "r1") sampleBilling surveyor _ (js "a") (js "b")
    _ _ (js "t8") _ sampleR2).
  vm_compute. reflexivity.
Defined.
