(* ===== verification/CloseoutSaved.v ===== *)
(** * The saved document: isolation, failure and read-after-write

    [mutate] against the browser's storage: what one save changes, what it cannot change,
    and what the next read returns. *)
From S2P Require Import Prelude JsString Json Codec MeasurementTypes Host Samples Helpers Uri Storage CloseoutTypes Closeout CloseoutJson CloseoutStore CloseoutInvariants.

(** ** Lemmas: reading and writing *)

Lemma readPreviews_items org st st' : 
  (∀ key, closeoutStorageKey org = Some key → getItem key st' = getItem key st) →
  readPreviews org st' = readPreviews org st.
Proof.
  intros He. unfold readPreviews. destruct (closeoutStorageKey org) as [key|]; [|done].
  by rewrite (He key).
Qed.

Lemma readPreviews_key org st : ps_key (readPreviews org st) = closeoutStorageKey org.
Proof.
  unfold readPreviews. destruct (closeoutStorageKey org) as [k|]; [|done].
  destruct (getItem k st) as [raw|]; [|done]. destruct (isEmpty _); [done|].
  by destruct (mbind _ _).
Qed.

(** What [mutate] did when it succeeded. *)
Lemma mutate_Ok {T} org callId change st st' (x : T) : mutate org callId change st = (st', Ok x) →
  ∃ key o r, org = Some o ∧ closeoutStorageKey org = Some key ∧ callId ≠ [] ∧
    ps_error (readPreviews org st) = None ∧
    change (recordFor callId (ps_records (readPreviews org st))) = Ok (r, x) ∧
    setItem key (stringify (savedDocument o
      (otherRecords callId (ps_records (readPreviews org st)) ++ [enc r]))) st
    = Ok st'.
Proof.
  unfold mutate. destruct (ps_key _) as [key|] eqn:Ek; [|done].
  destruct (ps_error _) as [e|] eqn:Ee; [done|]. destruct (isEmpty callId) eqn:Ec; [done|].
  destruct (change _) as [[r y]|]; simpl; [|done].
  destruct (setItem _ _ st) as [s|] eqn:Es; simpl; [|done]. intros [= -> ->].
  destruct org as [o|]; [|by rewrite readPreviews_key in Ek]. exists key, o, r.
  repeat split; try done; [|by apply truthy_false].
  by rewrite readPreviews_key in Ek.
Qed.

Lemma mutate_Err {T} org callId (change : CloseoutRecord → result str (CloseoutRecord * T)) st st' e :
  mutate org callId change st = (st', Err e) → st' = st.
Proof.
  unfold mutate. destruct (ps_key _) as [key|]; [|by intros [= <- _]].
  destruct (ps_error _) as [err|]; [by intros [= <- _]|]. destruct (isEmpty callId); [by intros [= <- _]|].
  destruct (change _) as [[r y]|]; cbn [rbind]; [|by intros [= <- _]].
  destruct (setItem _ _ _); cbn [rbind]; [done|by intros [= <- _]].
Qed.

(** The records a successful read returns. *)
Definition readableRecords (records : list json) : Prop :=
  Forall (λ r, validRecordJson r = true) records ∧ NoDup (map recordCallId records).

Lemma savedRecords_Some org data records : savedRecords org data = Some records →
  readableRecords records.
Proof.
  unfold savedRecords, readableRecords. rewrite Forall_forall. repeat case_match; try done.
  intros [= <-]. rewrite !andb_true_iff, negb_true_iff, hasRepeats_false, forallb_true in *. tauto.
Qed.

Lemma savedRecords_written o records : readableRecords records →
  savedRecords (Some o) (savedDocument o records) = Some records.
Proof.
  intros [Hv Hd]. unfold savedRecords, savedDocument.
  repeat erewrite jget_member by solve_lookup. cbn [enc Codec_Z Codec_str Codec_list].
  rewrite bool_decide_eq_true_2 by done. change (map enc records) with (map id records). rewrite map_id.
  rewrite (proj2 (forallb_true _ _)) by (by rewrite <- Forall_forall).
  by rewrite (proj2 (hasRepeats_false _)).
Qed.

Lemma readPreviews_readable org st : readableRecords (ps_records (readPreviews org st)).
Proof.
  unfold readPreviews. destruct (closeoutStorageKey org) as [k|]; [|by split; constructor].
  destruct (getItem k st) as [raw|]; [|by split; constructor].
  destruct (isEmpty _); [by split; constructor|].
  destruct (parse _ ≫= savedRecords org) as [records|] eqn:E; [|by split; constructor].
  apply bind_Some in E as (data & _ & E). by apply savedRecords_Some in E.
Qed.

Lemma recordCallId_enc r : recordCallId (enc r) = cr_callId r.
Proof.
  unfold recordCallId. change (enc r) with (enc_CloseoutRecord r). unfold enc_CloseoutRecord.
  by erewrite memberAt_mkObj by solve_lookup.
Qed.

Lemma closeoutStorageKey_Some o key : closeoutStorageKey (Some o) = Some key →
  key = js "vessel-caller:closeout-preview:v1:" ++ encodeURIComponent o.
Proof. unfold closeoutStorageKey. destruct (truthy (trim o)); [|done]. by intros [= <-]. Qed.

Lemma isEmpty_stringify o records : isEmpty (stringify (savedDocument o records)) = false.
Proof. done. Qed.

Lemma readPreviews_written o key records st st' : closeoutStorageKey (Some o) = Some key →
  readable st = true → setItem key (stringify (savedDocument o records)) st = Ok st' →
  readableRecords records →
  readPreviews (Some o) st' = mkPreviewState (Some key) records None.
Proof.
  intros Hk Hr Hs Hv. unfold readPreviews. rewrite Hk, (getItem_setItem _ _ _ _ Hs), Hr.
  cbn [from_option id]. rewrite isEmpty_stringify, parse_stringify.
  cbn [mbind option_bind]. by rewrite savedRecords_written.
Qed.

Lemma otherRecords_keys callId records : NoDup (map recordCallId records) →
  NoDup (map recordCallId (otherRecords callId records)) ∧
  callId ∉ map recordCallId (otherRecords callId records).
Proof.
  intros Hd. split.
  - by apply NoDup_map_filterb.
  - intros (x & -> & Hin)%list_elem_of_fmap. apply elem_of_filterb in Hin as [_ Hn].
    by rewrite streq_refl in Hn.
Qed.

Lemma readable_replace callId records r : readableRecords records → validRecord r = true →
  cr_callId r = callId → readableRecords (otherRecords callId records ++ [enc r]).
Proof.
  intros [Hv Hd] Hr Hc. destruct (otherRecords_keys callId records Hd) as [Hf Hn]. split.
  - apply Forall_app. split; [|constructor; [by rewrite validRecord_enc|done]].
    rewrite Forall_forall in *. intros x [Hx _]%elem_of_filterb. by apply Hv.
  - rewrite map_app. apply NoDup_app. split; [done|]. split; [|apply NoDup_singleton].
    simpl. intros x Hx Hin. apply list_elem_of_singleton in Hin as ->.
    by rewrite recordCallId_enc, Hc in Hx.
Qed.

Lemma findb_app {A} (f : A → bool) l1 l2 :
  findb f (l1 ++ l2) = match findb f l1 with Some x => Some x | None => findb f l2 end.
Proof. induction l1 as [|x l IH]; simpl; [done|]. by destruct (f x). Qed.

Lemma findb_filterb {A} (f g : A → bool) l : (∀ x, g x = true → f x = true) →
  findb g (filterb f l) = findb g l.
Proof.
  intros Hfg. induction l as [|x l IH]; simpl; [done|]. specialize (Hfg x).
  destruct (f x); simpl; [by rewrite IH|]. destruct (g x); [by specialize (Hfg eq_refl)|done].
Qed.

Lemma recordFor_replace callId records r : cr_callId r = callId →
  recordFor callId (otherRecords callId records ++ [enc r]) = r.
Proof.
  intros Hc. unfold recordFor. rewrite findb_app.
  rewrite (proj2 (findb_None _ _)); cbn [findb].
  - by rewrite recordCallId_enc, Hc, streq_refl, lax_enc.
  - intros x [_ Hx]%elem_of_filterb. by apply negb_true_iff.
Qed.

Lemma otherRecords_replace callId records r : cr_callId r = callId →
  otherRecords callId (otherRecords callId records ++ [enc r]) = otherRecords callId records.
Proof.
  intros Hc. unfold otherRecords. rewrite filterb_app. cbn [filterb].
  rewrite recordCallId_enc, Hc, streq_refl. cbn [negb]. rewrite app_nil_r.
  apply filterb_all. by intros x [_ Hx]%elem_of_filterb.
Qed.

Lemma recordFor_replace_ne callId callId' records r : cr_callId r = callId → callId' ≠ callId →
  recordFor callId' (otherRecords callId records ++ [enc r]) = recordFor callId' records.
Proof.
  intros Hc Hne. unfold recordFor, otherRecords. rewrite findb_app, findb_filterb.
  - cbn [findb]. rewrite recordCallId_enc, Hc, (proj2 (streq_false callId callId')) by congruence.
    by destruct (findb _ records).
  - intros x ->%streq_true. by apply negb_true_iff, streq_false.
Qed.

(** A change that succeeds is written, when there is a document to write and room for it. *)
Lemma mutate_runs {T} o key callId (change : CloseoutRecord → result str (CloseoutRecord * T)) st r x :
  closeoutStorageKey (Some o) = Some key → ps_error (readPreviews (Some o) st) = None → callId ≠ [] →
  writeError st = None → change (recordFor callId (ps_records (readPreviews (Some o) st))) = Ok (r, x) →
  ∃ st', mutate (Some o) callId change st = (st', Ok x) ∧
    setItem key (stringify (savedDocument o
      (otherRecords callId (ps_records (readPreviews (Some o) st)) ++ [enc r]))) st = Ok st'.
Proof.
  intros Hk He Hc Hw Hr. unfold mutate. rewrite readPreviews_key, Hk, He, Hr.
  assert (Hn : isEmpty callId = false) by (by destruct callId). rewrite Hn. cbn [rbind default].
  unfold setItem. rewrite Hw. eexists. split; reflexivity.
Qed.

Lemma recordFor_callId callId records : cr_callId (recordFor callId records) = callId.
Proof.
  unfold recordFor. destruct (findb _ records) as [j|] eqn:Ef; [|done].
  apply findb_Some in Ef as [_ Hj%streq_true]. exact Hj.
Qed.

(** What the next read finds after a save of a valid record. *)
Lemma read_after o key callId st st' r : closeoutStorageKey (Some o) = Some key → readable st = true →
  validRecord r = true → cr_callId r = callId →
  setItem key (stringify (savedDocument o
    (otherRecords callId (ps_records (readPreviews (Some o) st)) ++ [enc r]))) st = Ok st' →
  ps_error (readPreviews (Some o) st') = None ∧
  recordFor callId (ps_records (readPreviews (Some o) st')) = r ∧
  otherRecords callId (ps_records (readPreviews (Some o) st')) =
    otherRecords callId (ps_records (readPreviews (Some o) st)).
Proof.
  intros Hk Hrd Hv Hc Hs. rewrite (readPreviews_written o key _ st st' Hk Hrd Hs); simpl.
  - split; [done|]. split; [by apply recordFor_replace|by apply otherRecords_replace].
  - apply readable_replace; [apply readPreviews_readable|done|done].
Qed.

(** ** Properties *)

(** A save is all or nothing: one that fails for any reason (an unreadable document, no
    voyage, a refused change, a full store) leaves the browser's storage exactly as it was,
    and one that succeeds writes the organization's document and nothing else. *)
Theorem mutate_frame {T} org callId (change : CloseoutRecord → result str (CloseoutRecord * T)) st :
  let '(st', outcome) := mutate org callId change st in
  match outcome with
  | Err _ => st' = st
  | Ok _ => ∃ key text, closeoutStorageKey org = Some key ∧ items st' = <[key := text]> (items st)
  end.
Proof.
  destruct (mutate org callId change st) as [st' [x|e]] eqn:Em.
  - apply mutate_Ok in Em as (key & o & r & -> & Hk & _ & _ & _ & (_ & Hi & _)%setItem_Ok). eauto.
  - by apply mutate_Err in Em.
Qed.

(** Tenant isolation: saving for one organization never changes what another
    organization reads, whatever the two identifiers contain. *)
Theorem mutate_isolated {T} o o' callId (change : CloseoutRecord → result str (CloseoutRecord * T)) st :
  units o → units o' → o ≠ o' →
  readPreviews (Some o') (fst (mutate (Some o) callId change st)) = readPreviews (Some o') st.
Proof.
  intros Hu Hu' Hne. destruct (mutate (Some o) callId change st) as [st' [x|e]] eqn:Em; simpl.
  - apply mutate_Ok in Em as (key & o2 & r & [= <-] & Hk & _ & _ & _ & Hs).
    apply readPreviews_items. intros key' Hk'.
    eapply getItem_setItem_ne; [|exact Hs]. intros <-. apply Hne.
    apply closeoutStorageKey_Some in Hk, Hk'. rewrite Hk in Hk'. apply app_inv_head in Hk'.
    by apply encodeURIComponent_inj.
  - by apply mutate_Err in Em as ->.
Qed.

(** C5. Read-after-write: after a save of a valid record, the document reads back without
    error, the voyage's record is the one the operation returned, and the record of every
    other voyage is what it was, down to the saved value (members the code never looks at
    included) and its order. *)
Theorem mutate_saves {T} o callId (change : CloseoutRecord → result str (CloseoutRecord * T)) st st' x r :
  mutate (Some o) callId change st = (st', Ok x) →
  change (recordFor callId (ps_records (readPreviews (Some o) st))) = Ok (r, x) →
  readable st = true → validRecord r = true → cr_callId r = callId →
  ps_error (readPreviews (Some o) st') = None ∧
  recordFor callId (ps_records (readPreviews (Some o) st')) = r ∧
  otherRecords callId (ps_records (readPreviews (Some o) st')) =
    otherRecords callId (ps_records (readPreviews (Some o) st)) ∧
  ∀ callId', callId' ≠ callId →
    recordFor callId' (ps_records (readPreviews (Some o) st')) =
    recordFor callId' (ps_records (readPreviews (Some o) st)).
Proof.
  intros (key & o2 & r' & [= <-] & Hk & _ & _ & Hr' & Hs)%mutate_Ok Hr Hrd Hv Hc.
  rewrite Hr in Hr'. injection Hr' as <-.
  destruct (read_after o key callId st st' r Hk Hrd Hv Hc Hs) as (He & Hrec & Hother).
  split_and!; [done|done|done|]. intros callId' Hne.
  rewrite (readPreviews_written o key _ st st' Hk Hrd Hs); [by apply recordFor_replace_ne|].
  apply readable_replace; [apply readPreviews_readable|done|done].
Qed.

(** ** Two organizations in one browser *)

#[local] Existing Instance asciiHost.
Definition sampleStore : Storage := fst (mutate (Some (js "org-1")) sampleCall sampleSubmit emptyStorage).

Lemma sample_saved :
  mutate (Some (js "org-1")) sampleCall sampleApprove sampleStore =
  (fst (mutate (Some (js "org-1")) sampleCall sampleApprove sampleStore),
   Ok (mkApprovalOutcome (lastReport sampleR2) (Some sampleInvoice) None)).
Proof. vm_compute. reflexivity. Qed.

Lemma mutate_isolated_witness :
  readPreviews (Some (js "org/2")) (fst (mutate (Some (js "org")) sampleCall sampleSubmit sampleStore))
  = readPreviews (Some (js "org/2")) sampleStore.
Proof.
  apply mutate_isolated; [repeat constructor|repeat constructor|discriminate].
Defined.

Lemma mutate_saves_witness :
  recordFor sampleCall (ps_records (readPreviews (Some (js "org-1"))
    (fst (mutate (Some (js "org-1")) sampleCall sampleApprove sampleStore)))) = sampleR2.
Proof.
  refine (proj1 (proj2 (mutate_saves (js "org-1") sampleCall sampleApprove sampleStore _ _ sampleR2
    sample_saved _ _ _ _))); vm_compute; reflexivity.
Defined.

(** A superseded reading that is not a number: the version is saved, and from then on the
    organization's previews read as unreadable and every further save is refused. *)
Definition malformedSubmit (r : CloseoutRecord) :=
  submitReport sampleCall [malformedPlan] sampleFinals surveyor (js "r1") (js "e1") (js "t1") r.
Example malformed_reading_locks :
  let '(st, saved) := mutate (Some (js "org-1")) sampleCall malformedSubmit emptyStorage in
  (∃ rep, saved = Ok rep) ∧
  ps_error (readPreviews (Some (js "org-1")) st) = Some unreadableMessage ∧
  snd (mutate (Some (js "org-1")) sampleCall sampleSubmit st) = Err unreadableMessage.
Proof.
  destruct (mutate _ _ malformedSubmit _) as [st saved] eqn:E.
  assert (Hs : ∃ rep, saved = Ok rep) by (apply (f_equal snd) in E; vm_compute in E; eauto).
  split; [exact Hs|]. apply (f_equal fst) in E. simpl in E. subst st. split; vm_compute; reflexivity.
Qed.

(** Members the validators do not look at may be missing: this document, whose source plan
    has no location, status, evidence or reconciled figures, is read without error. *)
Definition sparsePlan : json :=
  mkObj [fld "callId" sampleCall; fld "id" (js "p1"); fld "title" (js "t"); fld "scope" (js "s");
    fld "vesselName" (js "v"); fld "callReference" (js "c"); fld "version" 1;
    (js "lines", Some (JArr [])); (js "participants", Some (JArr []));
    (js "submissions", Some (JArr [])); (js "reconciliations", Some (JArr [JNull]))].
Definition sparseRecord : json :=
  mkObj [fld "callId" sampleCall; (js "invoices", Some (JArr [])); (js "events", Some (JArr []));
    (js "reports", Some (JArr [mkObj [fld "callId" sampleCall; fld "id" (js "r0");
      fld "revision" 1; fld "sourceFingerprint" (js "[]"); fld "reason" (js "ok");
      fld "approvedAt" (js "t0"); fld "approvedBy" reviewer;
      (js "lines", Some (JArr [])); (js "sourcePlans", Some (JArr [sparsePlan]))]]))].
Example sparse_record_read :
  savedRecords (Some (js "o")) (savedDocument (js "o") [sparseRecord]) = Some [sparseRecord] ∧
  dec_CloseoutRecord sparseRecord = None ∧
  map rep_id (cr_reports (recordFor sampleCall [sparseRecord])) = [js "r0"].
Proof. repeat split; vm_compute; reflexivity. Qed.
