(* ===== verification/OfflineQueue.v ===== *)
(** * The offline inspection queue (frontend/src/lib/offlineQueue.ts)

    Captures waiting for the network, in one IndexedDB object store shared by everyone who
    uses the browser.  Each operation is a sequence of transactions; a transaction is the
    code's [transaction(mode, operation)], which fails as a whole, and any one of a sequence
    may fail.  The removals of a clearing run concurrently: the order in which their
    transactions run is an argument.  Files are opaque. *)
From S2P Require Import Prelude JsString Json Host.

Section Queue.
Context {File : Type} `{Host}.

Inductive QueueOperation := op_create | op_update.

Record QueuedInspection := mkQueued {
  qi_id : str; qi_organizationId : str; qi_userId : str;
  qi_data : list (str * json); qi_evidenceFiles : list File; qi_createdAt : str;
  qi_attempts : Z; qi_operation : option QueueOperation; qi_inspectionId : option str;
  qi_finalize : option bool; qi_lastAttemptAt : option str; qi_lastError : option str }.

(** The database: its version (0 before the first open), the object store when it exists,
    and what the browser will answer to the transactions to come, each of which may be
    refused or aborted with an error; past the end of the list none is. *)
Record Database := mkDatabase {
  db_version : Z; db_store : option (gmap str QueuedInspection); db_faults : list (option str) }.
(** No transaction to come fails. *)
Definition working (db : Database) : Prop := Forall (λ fault, fault = None) (db_faults db).

(** [onupgradeneeded] of [openDatabase]: version 1 did not bind records to a tenant or a user,
    so its entries are dropped. *)
Definition upgradeStore (oldVersion : Z) (store : option (gmap str QueuedInspection))
  : gmap str QueuedInspection :=
  match store with
  | None => ∅
  | Some items => if oldVersion <? 2 then ∅ else items
  end.
Definition openDatabase (db : Database) : Database * gmap str QueuedInspection :=
  let items := if db_version db <? 2 then upgradeStore (db_version db) (db_store db)
               else default ∅ (db_store db) in
  (mkDatabase (Z.max 2 (db_version db)) (Some items) (db_faults db), items).

(** One transaction: open, run, commit, or an error that leaves the items as they were. *)
Definition transaction {T} (operation : gmap str QueuedInspection → gmap str QueuedInspection * T)
    (db : Database) : Database * result str T :=
  match db_faults db with
  | Some e :: faults => (mkDatabase (db_version db) (db_store db) faults, Err e)
  | _ =>
    let '(db', items) := openDatabase db in
    let '(items', res) := operation items in
    (mkDatabase (db_version db') (Some items') (tail (db_faults db)), Ok res)
  end.

Definition putItem (item : QueuedInspection) (items : gmap str QueuedInspection) :=
  (<[qi_id item := item]> items, tt).
Definition deleteItem (id : str) (items : gmap str QueuedInspection) := (delete id items, tt).
Definition lookupItem (id : str) (items : gmap str QueuedInspection) := (items, items !! id).
(** [getAll] returns the values in key order. *)
Definition getAll (items : gmap str QueuedInspection) :=
  (items, sort_by (λ a b, cmpUnits (qi_id a) (qi_id b)) (map_to_list items).*2).

(** ** Operations *)

Definition queueInspection (item : QueuedInspection) (db : Database) : Database * result str unit :=
  if isEmpty (qi_organizationId item) || isEmpty (qi_userId item)
  then (db, Err (js "Offline captures require organization and user ownership"))
  else transaction (putItem item) db.

Definition allQueuedInspections (db : Database) : Database * result str (list QueuedInspection) :=
  let '(db', res) := transaction getAll db in
  (db', let! items := res in Ok (sort_by (λ a b, localeCompare (qi_createdAt a) (qi_createdAt b)) items)).

Definition ownedBy (organizationId userId : str) (item : QueuedInspection) : bool :=
  streq (qi_organizationId item) organizationId && streq (qi_userId item) userId.

Definition listQueuedInspectionsForOwner (organizationId userId : str) (db : Database)
  : Database * result str (list QueuedInspection) :=
  let '(db', res) := allQueuedInspections db in
  (db', let! items := res in Ok (filterb (ownedBy organizationId userId) items)).

Definition ownedInspection (id organizationId userId : str) (db : Database)
  : Database * result str (option QueuedInspection) :=
  let '(db', res) := transaction (lookupItem id) db in
  (db', let! item := res in
        match item with
        | None => Ok None
        | Some item => if ownedBy organizationId userId item then Ok (Some item)
                       else Err (js "Offline capture ownership mismatch")
        end).

Definition removeQueuedInspection (id organizationId userId : str) (db : Database)
  : Database * result str unit :=
  match ownedInspection id organizationId userId db with
  | (db', Ok (Some _)) => transaction (deleteItem id) db'
  | (db', Ok None) => (db', Ok tt)
  | (db', Err e) => (db', Err e)
  end.

Definition queuedInspectionCount (organizationId userId : str) (db : Database)
  : Database * result str Z :=
  let '(db', res) := listQueuedInspectionsForOwner organizationId userId db in
  (db', let! items := res in Ok (Z.of_nat (length items))).

Definition attempted (item : QueuedInspection) (error now : str) : QueuedInspection :=
  mkQueued (qi_id item) (qi_organizationId item) (qi_userId item) (qi_data item)
    (qi_evidenceFiles item) (qi_createdAt item) (qi_attempts item + 1) (qi_operation item)
    (qi_inspectionId item) (qi_finalize item) (Some now) (Some error).

Definition markQueuedInspectionAttempt (id error organizationId userId now : str) (db : Database)
  : Database * result str unit :=
  match ownedInspection id organizationId userId db with
  | (db', Ok (Some item)) => queueInspection (attempted item error now) db'
  | (db', Ok None) => (db', Ok tt)
  | (db', Err e) => (db', Err e)
  end.

(** [Promise.all(items.map(item => removeQueuedInspection(...)))] runs the removals
    concurrently: each is its first transaction, then its second, and those of different
    removals may run in any order. *)
Inductive Removal := rm_get (id : str) | rm_delete (id : str) | rm_done.

(** The next transaction of one removal, and the error it rejects with. *)
Definition removalStep (organizationId userId : str) (removal : Removal) (db : Database)
  : Database * Removal * option str :=
  match removal with
  | rm_get id =>
    match ownedInspection id organizationId userId db with
    | (db', Ok (Some _)) => (db', rm_delete id, None)
    | (db', Ok None) => (db', rm_done, None)
    | (db', Err e) => (db', rm_done, Some e)
    end
  | rm_delete id =>
    match transaction (deleteItem id) db with
    | (db', Ok _) => (db', rm_done, None)
    | (db', Err e) => (db', rm_done, Some e)
    end
  | rm_done => (db, rm_done, None)
  end.

(** The transactions in the order [schedule] names their removals; the first rejection is
    the one [Promise.all] reports, the other removals run on. *)
Fixpoint runRemovals (organizationId userId : str) (schedule : list nat) (removals : list Removal)
    (rejected : option str) (db : Database) : Database * list Removal * option str :=
  match schedule with
  | [] => (db, removals, rejected)
  | i :: rest =>
    match removals !! i with
    | None => runRemovals organizationId userId rest removals rejected db
    | Some removal =>
      let '(db', removal', e) := removalStep organizationId userId removal db in
      runRemovals organizationId userId rest (<[i := removal']> removals)
        (match rejected with Some _ => rejected | None => e end) db'
    end
  end.

(** A removal is two transactions, so this finishes what [schedule] leaves. *)
Definition inTurn (n : nat) : list nat := flat_map (λ i, [i; i]) (seq 0 n).

Definition removeAll (schedule : list nat) (items : list QueuedInspection)
    (organizationId userId : str) (db : Database) : Database * result str unit :=
  let '(db', _, rejected) := runRemovals organizationId userId (schedule ++ inTurn (length items))
    (map (λ item, rm_get (qi_id item)) items) None db in
  (db', match rejected with Some e => Err e | None => Ok tt end).

Definition clearQueuedInspectionsForOwner (schedule : list nat) (organizationId userId : str)
    (db : Database) : Database * result str unit :=
  match listQueuedInspectionsForOwner organizationId userId db with
  | (db', Ok items) => removeAll schedule items organizationId userId db'
  | (db', Err e) => (db', Err e)
  end.

(** ** The committed items *)

(** What the next transaction sees. *)
Definition committed (db : Database) : gmap str QueuedInspection :=
  match db_store db with
  | Some items => if db_version db <? 2 then ∅ else items
  | None => ∅
  end.
(** The key of a stored value is its own id ([keyPath: "id"]). *)
Definition keyed (db : Database) : Prop := ∀ k item, committed db !! k = Some item → qi_id item = k.

Lemma openDatabase_committed db : snd (openDatabase db) = committed db ∧
  db_version (fst (openDatabase db)) = Z.max 2 (db_version db).
Proof.
  unfold openDatabase, committed, upgradeStore. simpl.
  destruct (Z.ltb_spec (db_version db) 2), (db_store db); done.
Qed.

Lemma working_tail db v s : working db → working (mkDatabase v s (tail (db_faults db))).
Proof. unfold working. simpl. by destruct 1. Qed.

Lemma transaction_spec {T} (op : gmap str QueuedInspection → gmap str QueuedInspection * T) db :
  match transaction op db with
  | (db', Ok x) => op (committed db) = (committed db', x) ∧ (working db → working db')
  | (db', Err _) => committed db' = committed db ∧ ¬ working db
  end.
Proof.
  destruct (openDatabase_committed db) as [Hc Hv].
  assert (Hok : ∀ db' x, (let '(db1, items) := openDatabase db in let '(items', res) := op items in
      (mkDatabase (db_version db1) (Some items') (tail (db_faults db)), Ok (E := str) res)) = (db', Ok x) →
    op (committed db) = (committed db', x) ∧ (working db → working db')).
  { intros db' x. destruct (openDatabase db) as [db1 items]. simpl in Hc, Hv. subst items.
    destruct (op (committed db)) as [items' y]. intros [= <- <-]. split; [|apply working_tail].
    unfold committed at 1. simpl. by rewrite Hv, (proj2 (Z.ltb_ge _ 2)) by lia. }
  unfold transaction. destruct (db_faults db) as [|[e|] faults] eqn:Ef.
  2: { split; [done|]. unfold working. rewrite Ef. intros Hw. by inversion Hw. }
  all: destruct (openDatabase db) as [db1 items]; destruct (op items) as [items' y]; by apply Hok.
Qed.

Lemma transaction_Ok {T} (op : gmap str QueuedInspection → gmap str QueuedInspection * T) db :
  working db → ∃ db', transaction op db = (db', Ok (snd (op (committed db)))) ∧
    committed db' = fst (op (committed db)) ∧ working db'.
Proof.
  intros Hw. pose proof (transaction_spec op db) as Hs. destruct (transaction op db) as [db' [x|e]].
  - destruct Hs as [Ho Hw']. exists db'. rewrite Ho. auto.
  - by destruct Hs.
Qed.

(** ** Lemmas: what each operation commits *)

Lemma putItem_keyed item items : (∀ k i, items !! k = Some i → qi_id i = k) →
  ∀ k i, fst (putItem item items) !! k = Some i → qi_id i = k.
Proof. intros Hk k i. simpl. rewrite lookup_insert_Some. intros [[<- <-]|[_ Hi]]; auto. Qed.

Lemma queueInspection_spec item db db' r : queueInspection item db = (db', r) →
  committed db' = committed db ∨
  (committed db' = <[qi_id item := item]> (committed db) ∧ r = Ok tt).
Proof.
  unfold queueInspection. destruct (_ || _); [intros [= <- <-]; by left|]. intros Ht.
  pose proof (transaction_spec (putItem item) db) as Hs. rewrite Ht in Hs.
  destruct r as [[]|e]; [|left; apply Hs]. destruct Hs as [Hs _]. injection Hs as Hs. by right.
Qed.

Lemma ownedInspection_spec id org user db db' r : ownedInspection id org user db = (db', r) →
  committed db' = committed db ∧ (working db → working db') ∧
  match r with
  | Ok (Some item) => committed db !! id = Some item ∧ ownedBy org user item = true
  | Ok None => committed db !! id = None
  | Err _ => ¬ working db ∨ ∃ item, committed db !! id = Some item ∧ ownedBy org user item = false
  end.
Proof.
  unfold ownedInspection. pose proof (transaction_spec (lookupItem id) db) as Hs.
  destruct (transaction (lookupItem id) db) as [db1 [o|e]] eqn:Et; simpl in *; intros [= <- <-].
  - destruct Hs as [[= Hc <-] He]. rewrite <- Hc. split; [done|]. split; [done|].
    destruct (committed db !! id) as [item|]; [|done].
    destruct (ownedBy org user item) eqn:Eo; simpl; [done|]. right. by exists item.
  - destruct Hs as [Hc Hn]. split; [done|]. split; [done|by left].
Qed.

Lemma removeQueuedInspection_spec id org user db db' r :
  removeQueuedInspection id org user db = (db', r) →
  committed db' = committed db ∨
  (∃ item, committed db !! id = Some item ∧ ownedBy org user item = true ∧
     committed db' = delete id (committed db)).
Proof.
  unfold removeQueuedInspection. destruct (ownedInspection id org user db) as [db1 o] eqn:Eo.
  apply ownedInspection_spec in Eo as (Hc & He & Ho).
  destruct o as [[item|]|e]; [|intros [= <- _]; by left..].
  intros Ht. pose proof (transaction_spec (deleteItem id) db1) as Hs. rewrite Ht in Hs.
  destruct r as [[]|e]; [|left; destruct Hs; congruence]. destruct Hs as [Hs _]. injection Hs as Hs.
  right. exists item. rewrite <- Hs, Hc. naive_solver.
Qed.

Lemma markQueuedInspectionAttempt_spec id e org user now db db' r : keyed db →
  markQueuedInspectionAttempt id e org user now db = (db', r) →
  committed db' = committed db ∨
  (∃ item, committed db !! id = Some item ∧ ownedBy org user item = true ∧
     committed db' = <[id := attempted item e now]> (committed db)).
Proof.
  intros Hk. unfold markQueuedInspectionAttempt. destruct (ownedInspection id org user db) as [db1 o] eqn:Eo.
  apply ownedInspection_spec in Eo as (Hc & He & Ho).
  destruct o as [[item|]|err]; [|intros [= <- _]; by left..].
  intros [Hq|[Hq _]]%queueInspection_spec; [left; congruence|right]. destruct Ho as [Hl Hown].
  exists item. split; [done|]. split; [done|]. rewrite Hq, Hc. simpl. by rewrite (Hk _ _ Hl).
Qed.

(** [db'] agrees with [db] on everything the owner does not own, and stays keyed. *)
Definition othersKept (org user : str) (db db' : Database) : Prop :=
  (keyed db → keyed db') ∧
  ∀ k item, committed db !! k = Some item → ownedBy org user item = false →
    committed db' !! k = Some item.

Lemma othersKept_refl org user db db' : committed db' = committed db → othersKept org user db db'.
Proof. unfold othersKept, keyed. by intros ->. Qed.
Lemma othersKept_trans org user db1 db2 db3 :
  othersKept org user db1 db2 → othersKept org user db2 db3 → othersKept org user db1 db3.
Proof. unfold othersKept. naive_solver. Qed.

Lemma remove_othersKept id org user db db' r :
  removeQueuedInspection id org user db = (db', r) → othersKept org user db db'.
Proof.
  intros [Hc|(item & Hl & Ho & Hc)]%removeQueuedInspection_spec; [by apply othersKept_refl|].
  unfold othersKept, keyed. rewrite Hc. split.
  - intros Hk k i [_ Hi]%lookup_delete_Some. auto.
  - intros k i Hi Hn. apply lookup_delete_Some. split; [|done]. intros ->. congruence.
Qed.

Lemma mark_othersKept id e org user now db db' r : keyed db →
  markQueuedInspectionAttempt id e org user now db = (db', r) → othersKept org user db db'.
Proof.
  intros Hk [Hc|(item & Hl & Ho & Hc)]%markQueuedInspectionAttempt_spec; [by apply othersKept_refl| |done].
  unfold othersKept, keyed. rewrite Hc. split.
  - intros _ k i [[<- <-]|[_ Hi]]%lookup_insert_Some; [|auto]. simpl. by apply Hk.
  - intros k i Hi Hn. apply lookup_insert_Some. right. split; [|done]. intros ->. congruence.
Qed.

(** What a removal in progress may still delete: an id whose item, if any, is the owner's. *)
Definition removalOwned (org user : str) (db : Database) (removal : Removal) : Prop :=
  match removal with
  | rm_delete id => ∀ item, committed db !! id = Some item → ownedBy org user item = true
  | _ => True
  end.
(** What one step of a removal commits: nothing, or a deletion of one of the owner's. *)
Definition shrinks (org user : str) (db db' : Database) : Prop :=
  othersKept org user db db' ∧
  ∀ k item, committed db' !! k = Some item → committed db !! k = Some item.

Lemma shrinks_same org user db db' : committed db' = committed db → shrinks org user db db'.
Proof. intros Hc. split; [by apply othersKept_refl|by rewrite Hc]. Qed.
Lemma shrinks_trans org user db1 db2 db3 :
  shrinks org user db1 db2 → shrinks org user db2 db3 → shrinks org user db1 db3.
Proof. intros [H1 H2] [H3 H4]. split; [by eapply othersKept_trans|naive_solver]. Qed.
Lemma shrinks_owned org user db db' removal : shrinks org user db db' →
  removalOwned org user db removal → removalOwned org user db' removal.
Proof. intros [_ Hs]. destruct removal; simpl; naive_solver. Qed.

Lemma delete_shrinks org user db db' id : removalOwned org user db (rm_delete id) →
  committed db' = delete id (committed db) → shrinks org user db db'.
Proof.
  intros Ho Hc. unfold shrinks, othersKept, keyed. rewrite Hc. repeat split.
  - intros Hk k i [_ Hi]%lookup_delete_Some. auto.
  - intros k i Hi Hn. apply lookup_delete_Some. split; [|done]. intros ->. specialize (Ho _ Hi). congruence.
  - by intros k i [_ Hi]%lookup_delete_Some.
Qed.

(** The id a removal is about. *)
Definition removalAt (id : str) (removal : Removal) : Prop :=
  match removal with rm_get i | rm_delete i => i = id | rm_done => True end.

Lemma removalStep_spec org user removal db db' removal' e :
  removalStep org user removal db = (db', removal', e) → removalOwned org user db removal →
  shrinks org user db db' ∧ removalOwned org user db' removal' ∧
  (∀ id, removalAt id removal → removalAt id removal') ∧
  match removal with rm_get _ => True | _ => removal' = rm_done end.
Proof.
  destruct removal as [id|id|]; simpl; intros Hs Ho.
  - destruct (ownedInspection id org user db) as [db1 o] eqn:Eo.
    apply ownedInspection_spec in Eo as (Hc & _ & Hr).
    destruct o as [[item|]|err]; injection Hs as <- <- <-; simpl; rewrite ?Hc;
      (split; [by apply shrinks_same|]); [|done..].
    split; [|done]. naive_solver.
  - pose proof (transaction_spec (deleteItem id) db) as Ht.
    destruct (transaction (deleteItem id) db) as [db1 [[]|err]]; injection Hs as <- <- <-.
    + split; [|done]. apply (delete_shrinks _ _ _ _ id Ho). destruct Ht as [[= Ht] _]. done.
    + split; [|done]. apply shrinks_same, Ht.
  - injection Hs as <- <- <-. split; [by apply shrinks_same|done].
Qed.

Lemma runRemovals_shrinks org user schedule removals rejected db db' removals' rejected' :
  runRemovals org user schedule removals rejected db = (db', removals', rejected') →
  Forall (removalOwned org user db) removals → shrinks org user db db'.
Proof.
  revert removals rejected db. induction schedule as [|i schedule IH]; simpl; intros removals rejected db.
  - intros [= <- _ _] _. by apply shrinks_same.
  - destruct (removals !! i) as [removal|] eqn:Ei; [|by apply IH].
    destruct (removalStep org user removal db) as [[db1 removal1] e] eqn:Es. intros Hr Ho.
    assert (Hi : removalOwned org user db removal) by (by apply (Forall_lookup_1 _ _ _ _ Ho Ei)).
    apply removalStep_spec in Es as (Hs & Ho1 & _); [|done]. eapply shrinks_trans; [exact Hs|].
    apply (IH _ _ _ Hr). apply Forall_insert; [|done]. eapply Forall_impl; [exact Ho|].
    intros r'. by apply shrinks_owned.
Qed.

Lemma removeAll_shrinks schedule items org user db :
  shrinks org user db (fst (removeAll schedule items org user db)).
Proof.
  unfold removeAll. destruct (runRemovals _ _ _ _ _ db) as [[db' removals] rejected] eqn:E.
  eapply runRemovals_shrinks; [exact E|]. apply Forall_map, Forall_forall. done.
Qed.

Definition byCreation (a b : QueuedInspection) : Prop :=
  localeCompare (qi_createdAt a) (qi_createdAt b) <= 0.

Lemma list_eq org user db : working db →
  ∃ db', listQueuedInspectionsForOwner org user db =
    (db', Ok (filterb (ownedBy org user)
      (sort_by (λ a b, localeCompare (qi_createdAt a) (qi_createdAt b)) (snd (getAll (committed db)))))) ∧
    committed db' = committed db ∧ working db'.
Proof.
  intros He. destruct (transaction_Ok getAll db He) as (db' & Ht & Hc & He').
  exists db'. unfold listQueuedInspectionsForOwner, allQueuedInspections. rewrite Ht. done.
Qed.

Lemma list_committed org user db :
  committed (fst (listQueuedInspectionsForOwner org user db)) = committed db.
Proof.
  unfold listQueuedInspectionsForOwner, allQueuedInspections. pose proof (transaction_spec getAll db) as Hs.
  destruct (transaction getAll db) as [db' [items|e]]; simpl; [|apply Hs].
  destruct Hs as [Hs _]. unfold getAll in Hs. congruence.
Qed.

Lemma elem_of_listed org user db item :
  item ∈ filterb (ownedBy org user)
    (sort_by (λ a b, localeCompare (qi_createdAt a) (qi_createdAt b)) (snd (getAll (committed db)))) ↔
  (∃ k, committed db !! k = Some item) ∧ ownedBy org user item = true.
Proof.
  rewrite elem_of_filterb, elem_of_sort_by. simpl. rewrite elem_of_sort_by, list_elem_of_fmap.
  split.
  - intros [([k i] & -> & Hi%elem_of_map_to_list) Ho]. eauto.
  - intros [[k Hk] Ho]. split; [|done]. exists (k, item). by rewrite elem_of_map_to_list.
Qed.

(** *** Clearing when no transaction fails *)

(** The state of the removals of [ids] on the way: each is about its id, deletes only
    what it may, and has deleted it once done. *)
Definition removing (org user : str) (ids : list str) (db : Database) (removals : list Removal) : Prop :=
  Forall2 (λ id removal, removalAt id removal ∧ removalOwned org user db removal ∧
    (removal = rm_done → committed db !! id = None)) ids removals.

Lemma removing_shrinks org user ids db db' removals : shrinks org user db db' →
  removing org user ids db removals → removing org user ids db' removals.
Proof.
  intros Hs Hr. eapply Forall2_impl; [exact Hr|]. intros id removal (Ha & Ho & Hd). split; [done|].
  split; [by eapply shrinks_owned|]. intros Hdone. destruct (committed db' !! id) as [item|] eqn:El; [|done].
  apply Hs in El. rewrite (Hd Hdone) in El. done.
Qed.

(** Without a failure, and with every id owned, a step rejects nothing and a removal that
    becomes done has deleted its item. *)
Lemma removalStep_owned org user removal db db' removal' e id :
  removalStep org user removal db = (db', removal', e) → working db →
  (∀ item, committed db !! id = Some item → ownedBy org user item = true) →
  removalAt id removal → (removal = rm_done → committed db !! id = None) →
  e = None ∧ working db' ∧ (removal' = rm_done → committed db' !! id = None).
Proof.
  destruct removal as [i|i|]; simpl; intros Hs Hw Hown Ha Hd; [subst i..|].
  - destruct (ownedInspection id org user db) as [db1 o] eqn:Eo.
    apply ownedInspection_spec in Eo as (Hc & Hw1 & Hr).
    destruct o as [[item|]|err]; injection Hs as <- <- <-; rewrite ?Hc; [naive_solver|naive_solver|].
    destruct Hr as [?|(item & Hl & Hf)]; [done|]. rewrite (Hown _ Hl) in Hf. done.
  - destruct (transaction_Ok (deleteItem id) db Hw) as (db1 & Ht & Hc & Hw1). rewrite Ht in Hs.
    injection Hs as <- <- <-. split; [done|]. split; [done|]. intros _. rewrite Hc. apply lookup_delete_eq.
  - injection Hs as <- <- <-. auto.
Qed.

(** How many steps a removal still needs. *)
Definition remaining (removal : Removal) : nat :=
  match removal with rm_get _ => 2 | rm_delete _ => 1 | rm_done => 0 end.
Lemma removalStep_remaining org user removal db db' removal' e :
  removalStep org user removal db = (db', removal', e) → (remaining removal' ≤ pred (remaining removal))%nat.
Proof.
  destruct removal as [i|i|]; simpl.
  - destruct (ownedInspection _ _ _ _) as [? [[]|]]; intros [= <- <- <-]; simpl; lia.
  - destruct (transaction _ _) as [? []]; intros [= <- <- <-]; simpl; lia.
  - intros [= <- <- <-]. simpl. lia.
Qed.

Lemma runRemovals_remaining org user schedule removals rejected db db' removals' rejected' i removal' :
  runRemovals org user schedule removals rejected db = (db', removals', rejected') →
  removals' !! i = Some removal' →
  ∃ removal, removals !! i = Some removal ∧
    (remaining removal' ≤ remaining removal - count_occ Nat.eq_dec schedule i)%nat.
Proof.
  revert removals rejected db. induction schedule as [|j schedule IH]; cbn [runRemovals count_occ]; intros removals rejected db.
  { intros [= <- <- _] Hi. exists removal'. split; [done|lia]. }
  destruct (removals !! j) as [removal|] eqn:Ej.
  - destruct (removalStep org user removal db) as [[db1 removal1] e] eqn:Es. intros Hr Hi.
    destruct (IH _ _ _ Hr Hi) as (r1 & Hr1 & Hle). apply removalStep_remaining in Es.
    destruct (decide (j = i)) as [->|Hne].
    + rewrite list_lookup_insert_eq in Hr1 by (by eapply lookup_lt_Some). injection Hr1 as <-.
      exists removal. split; [done|]. destruct (Nat.eq_dec i i); [lia|done].
    + rewrite list_lookup_insert_ne in Hr1 by done. exists r1. split; [done|].
      destruct (Nat.eq_dec j i); [done|lia].
  - intros Hr Hi. destruct (IH _ _ _ Hr Hi) as (r1 & Hr1 & Hle). exists r1. split; [done|].
    destruct (Nat.eq_dec j i) as [->|]; [congruence|lia].
Qed.

Lemma inTurn_twice n i : (i < n)%nat → (2 ≤ count_occ Nat.eq_dec (inTurn n) i)%nat.
Proof.
  assert (Hg : ∀ s, (s ≤ i < s + n)%nat → (2 ≤ count_occ Nat.eq_dec (flat_map (λ i, [i; i]) (seq s n)) i)%nat).
  { induction n as [|m IH]; intros s Hs; [lia|]. cbn [seq flat_map app count_occ].
    destruct (Nat.eq_dec s i) as [->|Hne]; [lia|]. apply IH. lia. }
  intros Hi. apply Hg. lia.
Qed.

Lemma runRemovals_owned org user ids schedule removals db db' removals' rejected :
  runRemovals org user schedule removals None db = (db', removals', rejected) → working db →
  (∀ id item, id ∈ ids → committed db !! id = Some item → ownedBy org user item = true) →
  removing org user ids db removals →
  rejected = None ∧ working db' ∧ removing org user ids db' removals'.
Proof.
  revert removals db. induction schedule as [|i schedule IH]; cbn [runRemovals]; intros removals db.
  { by intros [= <- <- <-]. }
  destruct (removals !! i) as [removal|] eqn:Ei; [|by apply IH].
  destruct (removalStep org user removal db) as [[db1 removal1] e] eqn:Es. intros Hr Hw Hown Hrm.
  destruct (Forall2_lookup_r _ _ _ _ _ Hrm Ei) as (id & Hid & Ha & Ho & Hd).
  assert (Hin : id ∈ ids) by (by eapply list_elem_of_lookup_2).
  pose proof (removalStep_spec _ _ _ _ _ _ _ Es Ho) as (Hs & Ho1 & Ha1 & _).
  destruct (removalStep_owned _ _ _ _ _ _ _ id Es Hw (λ item, Hown id item Hin) Ha Hd) as (-> & Hw1 & Hd1).
  apply (IH _ _ Hr Hw1).
  - intros k item Hk Hl. apply (Hown k item Hk). by apply Hs.
  - rewrite <- (list_insert_id ids i id Hid). apply Forall2_insert.
    + by eapply removing_shrinks.
    + split; [by apply Ha1|by split].
Qed.

Lemma removeAll_owned schedule items org user db : working db →
  (∀ i item, i ∈ items → committed db !! qi_id i = Some item → ownedBy org user item = true) →
  ∃ db', removeAll schedule items org user db = (db', Ok tt) ∧ working db' ∧
    ∀ i, i ∈ items → committed db' !! qi_id i = None.
Proof.
  intros Hw Hown. unfold removeAll.
  destruct (runRemovals _ _ _ _ _ db) as [[db' removals] rejected] eqn:E.
  destruct (runRemovals_owned org user (map qi_id items) _ _ _ _ _ _ E Hw) as (-> & Hw' & Hrm).
  - intros id item (i & -> & Hi)%list_elem_of_fmap. by apply Hown.
  - apply Forall2_fmap_2. apply Forall_Forall2_diag, Forall_forall. done.
  - exists db'. split; [done|]. split; [done|]. intros i [n Hn]%list_elem_of_lookup.
    assert (Hid : map qi_id items !! n = Some (qi_id i)) by (by rewrite list_lookup_fmap, Hn).
    destruct (Forall2_lookup_l _ _ _ _ _ Hrm Hid) as (removal & Hr & _ & _ & Hd). apply Hd.
    destruct (runRemovals_remaining _ _ _ _ _ _ _ _ _ _ _ E Hr) as (r0 & Hr0 & Hle).
    rewrite count_occ_app in Hle. pose proof (inTurn_twice (length items) n (lookup_lt_Some _ _ _ Hn)) as H2.
    assert (remaining r0 ≤ 2)%nat by (by destruct r0; simpl; lia).
    destruct removal; simpl in Hle; [lia|lia|done].
Qed.

(** ** Properties *)

(** The queue a user sees: exactly the captures stored under their organization and
    user, in the order they were created, without changing the store. *)
Theorem listQueuedInspections_owner org user db :
  working db →
  ∃ db' items, listQueuedInspectionsForOwner org user db = (db', Ok items) ∧
    committed db' = committed db ∧
    (∀ item, item ∈ items ↔
       (∃ k, committed db !! k = Some item) ∧ qi_organizationId item = org ∧ qi_userId item = user) ∧
    ∃ all, Sorted byCreation all ∧ items = filterb (ownedBy org user) all.
Proof.
  intros He. destruct (list_eq org user db He) as (db' & Hl & Hc & _). eexists db', _.
  split; [exact Hl|]. split; [done|]. split.
  - intros item. rewrite elem_of_listed. unfold ownedBy. by rewrite andb_true_iff, !streq_true.
  - eexists. split; [|reflexivity]. apply sort_by_sorted. intros x y Hxy.
    apply localeCompare_flip in Hxy. lia.
Qed.

Lemma queue_kept schedule org user db :
  othersKept org user db (fst (clearQueuedInspectionsForOwner schedule org user db)).
Proof.
  unfold clearQueuedInspectionsForOwner. pose proof (list_committed org user db) as Hc.
  destruct (listQueuedInspectionsForOwner org user db) as [db1 [items|e]]; simpl in *;
    [|by apply othersKept_refl].
  eapply othersKept_trans; [by apply othersKept_refl|apply removeAll_shrinks].
Qed.

(** C9. Ownership: whatever a user does to the queue (listing, retrying, removing, clearing),
    every capture of another user or organization stays exactly as it was, whichever of the
    transactions fail, also halfway, and in whatever order those of a clearing's concurrent
    removals run. *)
Theorem queue_ownership schedule org user id error now db :
  keyed db →
  othersKept org user db (fst (removeQueuedInspection id org user db)) ∧
  othersKept org user db (fst (markQueuedInspectionAttempt id error org user now db)) ∧
  othersKept org user db (fst (clearQueuedInspectionsForOwner schedule org user db)) ∧
  othersKept org user db (fst (listQueuedInspectionsForOwner org user db)).
Proof.
  intros Hk. pose proof (list_committed org user db) as Hc. split; [|split; [|split]].
  - destruct (removeQueuedInspection id org user db) eqn:E. by eapply remove_othersKept.
  - destruct (markQueuedInspectionAttempt id error org user now db) eqn:E. by eapply mark_othersKept.
  - apply queue_kept.
  - by apply othersKept_refl.
Qed.

(** Signing out for good: when no transaction fails, clearing removes every capture of the
    owner and no other, in whatever order the removals' transactions run, and the owner's
    queue is then empty. *)
Theorem clearQueuedInspections_empties schedule org user db :
  working db → keyed db →
  ∃ db', clearQueuedInspectionsForOwner schedule org user db = (db', Ok tt) ∧
    (∀ k item, committed db' !! k = Some item ↔
       committed db !! k = Some item ∧ ownedBy org user item = false) ∧
    snd (queuedInspectionCount org user db') = Ok 0.
Proof.
  intros He Hk. unfold clearQueuedInspectionsForOwner.
  destruct (list_eq org user db He) as (db1 & -> & Hc & He1).
  set (items := filterb _ _).
  assert (Hitems : ∀ i, i ∈ items ↔ (∃ k, committed db !! k = Some i) ∧ ownedBy org user i = true)
    by (intros i; apply elem_of_listed).
  destruct (removeAll_owned schedule items org user db1 He1) as (db2 & Hr & He2 & Hgone).
  { intros i item [[k Hi] Ho]%Hitems Hl. rewrite Hc, (Hk _ _ Hi) in Hl. congruence. }
  pose proof (removeAll_shrinks schedule items org user db1) as Hs. rewrite Hr in Hs. simpl in Hs.
  destruct Hs as [[_ Hkept] Hless]. rewrite Hc in Hkept, Hless.
  assert (Hiff : ∀ k item, committed db2 !! k = Some item ↔
    committed db !! k = Some item ∧ ownedBy org user item = false).
  { intros k item. split; [|intros [? ?]; by apply Hkept]. intros Hl. pose proof (Hless _ _ Hl) as Hl'.
    split; [done|]. apply not_true_iff_false. intros Ho.
    specialize (Hgone item (proj2 (Hitems item) (conj (ex_intro _ k Hl') Ho))).
    rewrite (Hk _ _ Hl') in Hgone. congruence. }
  exists db2. split; [done|]. split; [done|].
  unfold queuedInspectionCount. destruct (list_eq org user db2 He2) as (db3 & -> & _).
  assert (Hnil : filterb (ownedBy org user) (sort_by (λ a b, localeCompare (qi_createdAt a) (qi_createdAt b))
    (snd (getAll (committed db2)))) = []); [|by rewrite Hnil].
  apply elem_of_nil_inv. intros x [[k [_ Hn]%Hiff] Ho]%elem_of_listed. congruence.
Qed.

(** Captures saved before they were bound to an owner are never replayed: once a database
    older than version 2 is opened by any operation, none of its entries is left. *)
Theorem upgrade_drops_unowned org user db : db_version db < 2 → working db →
  snd (listQueuedInspectionsForOwner org user db) = Ok [] ∧
  snd (queuedInspectionCount org user db) = Ok 0.
Proof.
  intros Hv He. assert (Hc : committed db = ∅).
  { unfold committed. destruct (db_store db); [|done]. by rewrite (proj2 (Z.ltb_lt _ _) Hv). }
  unfold queuedInspectionCount. destruct (list_eq org user db He) as (db' & -> & _). rewrite Hc. unfold getAll.
  by rewrite map_to_list_empty.
Qed.
End Queue.

Arguments QueuedInspection File : clear implicits.
Arguments Database File : clear implicits.

(** ** Two users of one browser *)

#[local] Existing Instance asciiHost.
Definition sampleItem (id org user at_ : str) : QueuedInspection unit :=
  mkQueued id org user [] [] at_ 0 None None None None None.
Definition sampleQueue : Database unit :=
  mkDatabase 2 (Some (<[js "k1" := sampleItem (js "k1") (js "org") (js "ada") (js "2026-02")]>
    (<[js "k2" := sampleItem (js "k2") (js "org") (js "ada") (js "2026-01")]>
    (<[js "k3" := sampleItem (js "k3") (js "org") (js "bode") (js "2026-03")]> ∅)))) [].

Lemma sampleQueue_keyed : keyed sampleQueue.
Proof.
  intros k item Hl. unfold committed, sampleQueue in Hl. simpl in Hl.
  repeat (apply lookup_insert_Some in Hl as [[<- <-]|[_ Hl]]; [done|]). by rewrite lookup_empty in Hl.
Qed.

Example sampleQueue_list :
  match snd (listQueuedInspectionsForOwner (js "org") (js "ada") sampleQueue) with
  | Ok l => map qi_id l = [js "k2"; js "k1"] | Err _ => False end ∧
  snd (removeQueuedInspection (js "k3") (js "org") (js "ada") sampleQueue)
    = Err (js "Offline capture ownership mismatch").
Proof. vm_compute. done. Qed.

(** A clearing whose third transaction (the second removal's first) is refused, the removals
    interleaved: the first removal still runs to its end, the other's capture stays, and the
    error is reported. *)
Example clear_fails_halfway :
  let db := mkDatabase 2 (db_store sampleQueue) [None; None; Some (js "aborted")] in
  let '(db', r) := clearQueuedInspectionsForOwner [0%nat; 1%nat] (js "org") (js "ada") db in
  r = Err (js "aborted") ∧ is_Some (committed db' !! js "k1") ∧ committed db' !! js "k2" = None ∧
  is_Some (committed db' !! js "k3").
Proof. vm_compute. split; [done|]. split; [by eexists|]. split; [done|by eexists]. Qed.

Lemma listQueuedInspections_owner_witness :
  ∃ db' items, listQueuedInspectionsForOwner (js "org") (js "bode") sampleQueue = (db', Ok items) ∧
    committed db' = committed sampleQueue.
Proof.
  destruct (listQueuedInspections_owner (js "org") (js "bode") sampleQueue (List.Forall_nil _))
    as (db' & items & Hl & Hc & _). exists db', items. split; [exact Hl|exact Hc].
Defined.

Lemma queue_ownership_witness : othersKept (js "org") (js "ada") sampleQueue
  (fst (clearQueuedInspectionsForOwner [1%nat; 0%nat] (js "org") (js "ada") sampleQueue)).
Proof.
  exact (proj1 (proj2 (proj2 (queue_ownership [1%nat; 0%nat] (js "org") (js "ada") (js "k1") (js "offline") (js "now")
    sampleQueue sampleQueue_keyed)))).
Defined.

Lemma clearQueuedInspections_empties_witness :
  ∃ db', clearQueuedInspectionsForOwner [1%nat] (js "org") (js "ada") sampleQueue = (db', Ok tt) ∧
    snd (queuedInspectionCount (js "org") (js "ada") db') = Ok 0.
Proof.
  destruct (clearQueuedInspections_empties [1%nat] (js "org") (js "ada") sampleQueue (List.Forall_nil _)
    sampleQueue_keyed)
    as (db' & H1 & _ & H2). exists db'. split; [exact H1|exact H2].
Defined.

Lemma upgrade_drops_unowned_witness :
  snd (listQueuedInspectionsForOwner (js "org") (js "ada")
    (mkDatabase 1 (db_store sampleQueue) [])) = Ok [].
Proof.
  exact (proj1 (upgrade_drops_unowned (js "org") (js "ada") (mkDatabase 1 (db_store sampleQueue) [])
    eq_refl (List.Forall_nil _))).
Defined.
