(* ===== verification/Endpoints.v ===== *)
(** * The API's requests (frontend/src/lib/api.ts, organizationJoin.ts, organizationAuth.ts,
    measurements/api.ts)

    Every call the client can make, as data: method, path, query, body and the options that
    decide how [request] runs it.  Bodies the caller passes through are given as JSON. *)
From S2P Require Import Prelude JsString Json Codec MeasurementTypes Host Uri Url.

(** ** Paths and queries *)

(** A path segment: a literal, or an identifier the template passes through
    [encodeURIComponent]. *)
Inductive Seg := Lit (s : string) | Enc (id : str).
Definition segText (s : Seg) : str := match s with Lit s => js s | Enc id => encodeURIComponent id end.
Definition pathText (segs : list Seg) : str := flat_map (λ s, cSlash :: segText s) segs.

(** The [application/x-www-form-urlencoded] serializer of [URLSearchParams]. *)
Definition formByte (b : N) : str :=
  if (isDigit b || isAlphaAscii b || (b =? 42) || (b =? 45) || (b =? 46) || (b =? 95))%N then [b]
  else if N.eqb b 32 then [cPlus]
  else [37%N; hexUpper (b / 16); hexUpper (b mod 16)].
Definition formEncode (s : str) : str :=
  flat_map formByte (flat_map utf8 (map scalarValue (codePoints s))).
Definition searchParams (entries : list (str * str)) : str :=
  join [38%N] (map (λ e, formEncode e.1 ++ [61%N] ++ formEncode e.2) entries).

(** An absent or empty value is left out. *)
Definition presentEntries (values : list (str * option str)) : list (str * str) :=
  omap (λ e, match e.2 with Some v => if truthy v then Some (e.1, v) else None | None => None end) values.
Definition buildQuery (values : list (str * option str)) : str :=
  let query := searchParams (presentEntries values) in
  if truthy query then 63%N :: query else [].

(** [v === "all" ? undefined : v] *)
Definition unlessAll (v : option str) : option str :=
  match v with Some s => if streq s (js "all") then None else v | None => None end.
Definition param (k : string) (v : option str) : str * option str := (js k, v).
Definition numParam (k : string) (v : option Z) : str * option str := (js k, printZ <$> v).

(** ** Calls *)

Record Call := mkCall {
  call_method : str; call_path : list Seg; call_query : str; call_body : option json;
  call_idempotencyKey : option str; call_advances : bool; call_broadcasts : bool;
  call_serializes : bool; call_suppress : bool }.

Definition callUrl (c : Call) : str := pathText (call_path c) ++ call_query c.
(** The path that is requested: [fetch(BASE + path)] parses the address, [base] being the
    segments of the base's own path; the first slash opens the path. *)
Definition requestedPath (base : list str) (c : Call) : list str :=
  parsePath [] [] (cleanUrl (tail (printPath base ++ callUrl c))).

Definition get (path : list Seg) : Call :=
  mkCall (js "GET") path [] None None false false false false.
Definition send (method : string) (path : list Seg) (body : option json) : Call :=
  mkCall (js method) path [] body None false false false false.
Definition query (q : str) (c : Call) : Call :=
  mkCall (call_method c) (call_path c) q (call_body c) (call_idempotencyKey c) (call_advances c)
    (call_broadcasts c) (call_serializes c) (call_suppress c).
Definition keyed (k : str) (c : Call) : Call :=
  mkCall (call_method c) (call_path c) (call_query c) (call_body c) (Some k) (call_advances c)
    (call_broadcasts c) (call_serializes c) (call_suppress c).
Definition suppressed (c : Call) : Call :=
  mkCall (call_method c) (call_path c) (call_query c) (call_body c) (call_idempotencyKey c)
    (call_advances c) (call_broadcasts c) (call_serializes c) true.
Definition serialized (c : Call) : Call :=
  mkCall (call_method c) (call_path c) (call_query c) (call_body c) (call_idempotencyKey c)
    (call_advances c) (call_broadcasts c) true (call_suppress c).
Definition advancing (c : Call) : Call :=
  mkCall (call_method c) (call_path c) (call_query c) (call_body c) (call_idempotencyKey c)
    true (call_broadcasts c) (call_serializes c) (call_suppress c).
Definition broadcasting (c : Call) : Call :=
  mkCall (call_method c) (call_path c) (call_query c) (call_body c) (call_idempotencyKey c)
    (call_advances c) true (call_serializes c) (call_suppress c).

Definition body (fs : fields) : option json := Some (mkObj fs).
(** [...(organizationId ? { organizationId } : {})] *)
Definition orgField (o : option str) : str * option json :=
  (js "organizationId", match o with Some s => if truthy s then Some (JStr s) else None | None => None end).

(** ** Sign-in, profile and second factor *)

Inductive AuthEndpoint :=
| register (data : json)
| verifyEmail (token : str)
| resendVerification (email : str) (organizationId : option str)
| login (email password : str) (organizationId : option str)
| completeTemporaryPassword (token password : str)
| verifyMfaChallenge (challengeId code : str)
| me
| logout
| forgotPassword (email : str) (organizationId : option str)
| resetPassword (token password : str)
| changePassword (currentPassword password : str)
| profile
| updateProfile (patch : json)
| sessions
| revokeSession (id : str)
| signOutEverywhere
| setupMfa (currentPassword : str)
| confirmMfa (code : str)
| regenerateRecoveryCodes (code : str)
| disableMfa (password : str).

Definition authCall (e : AuthEndpoint) : Call :=
  match e with
  | register data => suppressed (send "POST" [Lit "api"; Lit "auth"; Lit "register"] (Some data))
  | verifyEmail token =>
      suppressed (send "POST" [Lit "api"; Lit "auth"; Lit "verify-email"] (body [fld "token" token]))
  | resendVerification email org =>
      suppressed (send "POST" [Lit "api"; Lit "auth"; Lit "resend-verification"]
        (body [fld "email" email; orgField org]))
  | login email password org =>
      broadcasting (serialized (suppressed (send "POST" [Lit "api"; Lit "auth"; Lit "login"]
        (body [fld "email" email; fld "password" password; orgField org]))))
  | completeTemporaryPassword token password =>
      broadcasting (serialized (suppressed (send "POST"
        [Lit "api"; Lit "auth"; Lit "complete-temporary-password"]
        (body [fld "token" token; fld "password" password]))))
  | verifyMfaChallenge challengeId code =>
      broadcasting (serialized (suppressed (send "POST" [Lit "api"; Lit "auth"; Lit "mfa"; Lit "verify"]
        (body [fld "challengeId" challengeId; fld "code" code]))))
  | me => serialized (suppressed (get [Lit "api"; Lit "auth"; Lit "me"]))
  | logout =>
      broadcasting (serialized (suppressed (send "POST" [Lit "api"; Lit "auth"; Lit "logout"] None)))
  | forgotPassword email org =>
      suppressed (send "POST" [Lit "api"; Lit "auth"; Lit "forgot-password"]
        (body [fld "email" email; orgField org]))
  | resetPassword token password =>
      advancing (broadcasting (serialized (suppressed (send "POST"
        [Lit "api"; Lit "auth"; Lit "reset-password"] (body [fld "token" token; fld "password" password])))))
  | changePassword currentPassword password =>
      advancing (serialized (send "POST" [Lit "api"; Lit "auth"; Lit "change-password"]
        (body [fld "currentPassword" currentPassword; fld "password" password])))
  | profile => get [Lit "api"; Lit "profile"]
  | updateProfile patch => send "PUT" [Lit "api"; Lit "profile"] (Some patch)
  | sessions => get [Lit "api"; Lit "auth"; Lit "sessions"]
  | revokeSession id =>
      advancing (serialized (send "DELETE" [Lit "api"; Lit "auth"; Lit "sessions"; Enc id] None))
  | signOutEverywhere =>
      advancing (serialized (send "POST" [Lit "api"; Lit "auth"; Lit "sessions"; Lit "sign-out-everywhere"] None))
  | setupMfa currentPassword =>
      serialized (send "POST" [Lit "api"; Lit "auth"; Lit "mfa"; Lit "setup"]
        (body [fld "currentPassword" currentPassword]))
  | confirmMfa code =>
      serialized (send "POST" [Lit "api"; Lit "auth"; Lit "mfa"; Lit "confirm"] (body [fld "code" code]))
  | regenerateRecoveryCodes code =>
      send "POST" [Lit "api"; Lit "auth"; Lit "mfa"; Lit "recovery-codes"] (body [fld "code" code])
  | disableMfa password =>
      send "DELETE" [Lit "api"; Lit "auth"; Lit "mfa"] (body [fld "password" password])
  end.

(** ** Users, invitations and the audit trail *)

Record UserListParams := mkUserList {
  ul_page : option Z; ul_pageSize : option Z; ul_search : option str; ul_status : option str;
  ul_role : option str }.
Record AuditListParams := mkAuditList {
  aud_page : option Z; aud_pageSize : option Z; aud_action : option str; aud_actor : option str;
  aud_search : option str }.

Definition userQuery (p : UserListParams) : str :=
  buildQuery [numParam "page" (ul_page p); numParam "pageSize" (ul_pageSize p);
    param "search" (ul_search p); param "status" (unlessAll (ul_status p));
    param "role" (unlessAll (ul_role p))].
Definition auditQuery (p : AuditListParams) : str :=
  buildQuery [numParam "page" (aud_page p); numParam "pageSize" (aud_pageSize p);
    param "action" (aud_action p); param "actor" (aud_actor p); param "search" (aud_search p)].

Inductive UserEndpoint :=
| users (params : UserListParams)
| createTemporaryPasswordUser (data : json)
| regenerateTemporaryPassword (id : str)
| roleDefinitions
| updateUser (id : str) (patch : json)
| removeUser (id : str)
| sendUserPasswordReset (id : str)
| resetUserMfa (id : str)
| invitations (params : UserListParams)
| inviteUser (data : json)
| resendInvitation (id : str)
| revokeInvitation (id : str)
| acceptInvitation (data : json)
| audit (params : AuditListParams).

Definition userCall (e : UserEndpoint) : Call :=
  match e with
  | users p => query (userQuery p) (get [Lit "api"; Lit "users"])
  | createTemporaryPasswordUser data =>
      send "POST" [Lit "api"; Lit "users"; Lit "temporary-password"] (Some data)
  | regenerateTemporaryPassword id =>
      send "POST" [Lit "api"; Lit "users"; Enc id; Lit "temporary-password"] None
  | roleDefinitions => get [Lit "api"; Lit "roles"]
  | updateUser id patch => send "PATCH" [Lit "api"; Lit "users"; Enc id] (Some patch)
  | removeUser id => send "DELETE" [Lit "api"; Lit "users"; Enc id] None
  | sendUserPasswordReset id => send "POST" [Lit "api"; Lit "users"; Enc id; Lit "send-password-reset"] None
  | resetUserMfa id => send "POST" [Lit "api"; Lit "users"; Enc id; Lit "reset-mfa"] None
  | invitations p =>
      query (buildQuery [numParam "page" (ul_page p); numParam "pageSize" (ul_pageSize p);
               param "search" (ul_search p); param "role" (unlessAll (ul_role p))])
        (get [Lit "api"; Lit "invitations"])
  | inviteUser data => send "POST" [Lit "api"; Lit "invitations"] (Some data)
  | resendInvitation id => send "POST" [Lit "api"; Lit "invitations"; Enc id; Lit "resend"] None
  | revokeInvitation id => send "DELETE" [Lit "api"; Lit "invitations"; Enc id] None
  | acceptInvitation data =>
      suppressed (send "POST" [Lit "api"; Lit "invitations"; Lit "accept"] (Some data))
  | audit p => query (auditQuery p) (get [Lit "api"; Lit "audit"])
  end.

Definition auditExportPath (p : AuditListParams) : str :=
  pathText [Lit "api"; Lit "audit"; Lit "export"] ++ auditQuery p.

(** ** Platform administration *)

Record SystemListParams := mkSystemList {
  syl_page : option Z; syl_pageSize : option Z; syl_search : option str; syl_status : option str;
  syl_primaryPort : option str; syl_registered : option bool }.
Definition boolText (b : bool) : str := if b then js "true" else js "false".

Inductive SystemEndpoint :=
| systemOverview
| systemStepUp (code : str)
| systemOrganizations (params : SystemListParams)
| systemOrganization (id : str)
| createSystemOrganization (data : json) (key : str)
| updateSystemOrganization (id : str) (data : json) (key : str)
| approveSystemOrganization (id reason : str) (revision : Z) (key : str)
| suspendSystemOrganization (id reason : str) (revision : Z) (key : str)
| reactivateSystemOrganization (id reason : str) (revision : Z) (key : str)
| systemOrganizationUsers (id : str) (params : UserListParams)
| systemOrganizationInvitations (id : str) (page pageSize : option Z)
| inviteSystemOrganizationAdmin (id : str) (data : json) (key : str)
| resendSystemOrganizationInvitation (organizationId invitationId key : str)
| revokeSystemOrganizationInvitation (organizationId invitationId key : str)
| sendSystemAdminPasswordReset (organizationId userId reason key : str)
| resetSystemAdminMfa (organizationId userId reason key : str)
| systemOrganizationAudit (id : str) (params : AuditListParams)
| systemAudit (params : AuditListParams).

Definition systemOrgs : list Seg := [Lit "api"; Lit "system"; Lit "organizations"].
Definition lifecycleBody (reason : str) (revision : Z) : option json :=
  body [fld "reason" reason; fld "revision" revision].

Definition systemCall (e : SystemEndpoint) : Call :=
  match e with
  | systemOverview => get [Lit "api"; Lit "system"; Lit "overview"]
  | systemStepUp code =>
      serialized (send "POST" [Lit "api"; Lit "system"; Lit "step-up"] (body [fld "code" code]))
  | systemOrganizations p =>
      query (buildQuery [numParam "page" (syl_page p); numParam "pageSize" (syl_pageSize p);
               param "search" (syl_search p); param "status" (unlessAll (syl_status p));
               param "primaryPort" (syl_primaryPort p); param "registered" (boolText <$> syl_registered p)])
        (get systemOrgs)
  | systemOrganization id => get (systemOrgs ++ [Enc id])
  | createSystemOrganization data key => keyed key (send "POST" systemOrgs (Some data))
  | updateSystemOrganization id data key =>
      keyed key (send "PATCH" (systemOrgs ++ [Enc id]) (Some data))
  | approveSystemOrganization id reason revision key =>
      keyed key (send "POST" (systemOrgs ++ [Enc id; Lit "approve"]) (lifecycleBody reason revision))
  | suspendSystemOrganization id reason revision key =>
      keyed key (send "POST" (systemOrgs ++ [Enc id; Lit "suspend"]) (lifecycleBody reason revision))
  | reactivateSystemOrganization id reason revision key =>
      keyed key (send "POST" (systemOrgs ++ [Enc id; Lit "reactivate"]) (lifecycleBody reason revision))
  | systemOrganizationUsers id p => query (userQuery p) (get (systemOrgs ++ [Enc id; Lit "users"]))
  | systemOrganizationInvitations id page pageSize =>
      query (buildQuery [numParam "page" page; numParam "pageSize" pageSize])
        (get (systemOrgs ++ [Enc id; Lit "invitations"]))
  | inviteSystemOrganizationAdmin id data key =>
      keyed key (send "POST" (systemOrgs ++ [Enc id; Lit "invitations"]) (Some data))
  | resendSystemOrganizationInvitation org inv key =>
      keyed key (send "POST" (systemOrgs ++ [Enc org; Lit "invitations"; Enc inv; Lit "resend"]) None)
  | revokeSystemOrganizationInvitation org inv key =>
      keyed key (send "DELETE" (systemOrgs ++ [Enc org; Lit "invitations"; Enc inv]) None)
  | sendSystemAdminPasswordReset org user reason key =>
      keyed key (send "POST" (systemOrgs ++ [Enc org; Lit "users"; Enc user; Lit "send-password-reset"])
        (body [fld "reason" reason]))
  | resetSystemAdminMfa org user reason key =>
      keyed key (send "POST" (systemOrgs ++ [Enc org; Lit "users"; Enc user; Lit "reset-mfa"])
        (body [fld "reason" reason]))
  | systemOrganizationAudit id p => query (auditQuery p) (get (systemOrgs ++ [Enc id; Lit "audit"]))
  | systemAudit p => query (auditQuery p) (get [Lit "api"; Lit "system"; Lit "audit"])
  end.

Definition systemAuditExportPath (organizationId action actor search : option str) : str :=
  pathText [Lit "api"; Lit "system"; Lit "audit"; Lit "export"]
  ++ buildQuery [param "organizationId" organizationId; param "action" action; param "actor" actor;
                 param "search" search].

(** ** Operations: calls, inspections, invoices and payments *)

Inductive OperationEndpoint :=
| state_ (rev : option Z)
| poll (rev : Z)
| updateOrganization (patch : json)
| removeOrganizationLogo
| invoiceStatusSteps
| createInvoiceStatusStep (data : json)
| updateInvoiceStatusStep (id : str) (data : json)
| reorderInvoiceStatusSteps (ids : list str)
| transitionInvoice (id : str) (data : json)
| invoiceAttachments (id : str)
| invoiceAttachment (id : str)
| removeInvoiceAttachment (id : str)
| createCall (data : json)
| updateCall (id : str) (patch : json)
| updateCallStatus (id : str) (data : json)
| cancelCall (id reason : str) (version : option Z)
| postInspection (payload : json) (idempotencyKey : option str)
| inspection (id : str)
| patchInspection (id : str) (patch : json)
| finalizeInspection (id : str) (version : option Z)
| recordPayment (invoiceId : str) (data : json)
| reversePayment (paymentId reason : str)
| updateSettings (patch : json)
| analytics (months : Z).

Definition operationCall (e : OperationEndpoint) : Call :=
  match e with
  | state_ rev => query (buildQuery [numParam "rev" rev]) (get [Lit "api"; Lit "state"])
  | poll rev => query (buildQuery [numParam "rev" (Some rev)]) (get [Lit "api"; Lit "state"])
  | updateOrganization patch => send "PUT" [Lit "api"; Lit "organization"] (Some patch)
  | removeOrganizationLogo => send "DELETE" [Lit "api"; Lit "organization"; Lit "logo"] None
  | invoiceStatusSteps => get [Lit "api"; Lit "invoice-status-steps"]
  | createInvoiceStatusStep data => send "POST" [Lit "api"; Lit "invoice-status-steps"] (Some data)
  | updateInvoiceStatusStep id data =>
      send "PATCH" [Lit "api"; Lit "invoice-status-steps"; Enc id] (Some data)
  | reorderInvoiceStatusSteps ids =>
      send "POST" [Lit "api"; Lit "invoice-status-steps"; Lit "reorder"] (body [fld "ids" ids])
  | transitionInvoice id data =>
      send "PATCH" [Lit "api"; Lit "invoices"; Enc id; Lit "status"] (Some data)
  | invoiceAttachments id => get [Lit "api"; Lit "invoices"; Enc id; Lit "attachments"]
  | invoiceAttachment id => get [Lit "api"; Lit "invoice-attachments"; Enc id]
  | removeInvoiceAttachment id => send "DELETE" [Lit "api"; Lit "invoice-attachments"; Enc id] None
  | createCall data => send "POST" [Lit "api"; Lit "vessel-calls"] (Some data)
  | updateCall id patch => send "PATCH" [Lit "api"; Lit "vessel-calls"; Enc id] (Some patch)
  | updateCallStatus id data =>
      send "POST" [Lit "api"; Lit "vessel-calls"; Enc id; Lit "status"] (Some data)
  | cancelCall id reason version =>
      send "POST" [Lit "api"; Lit "vessel-calls"; Enc id; Lit "cancel"]
        (body [fld "reason" reason; ofld "version" version])
  | postInspection payload key =>
      let c := send "POST" [Lit "api"; Lit "inspections"] (Some payload) in
      match key with Some k => if truthy k then keyed k c else c | None => c end
  | inspection id => get [Lit "api"; Lit "inspections"; Enc id]
  | patchInspection id patch => send "PATCH" [Lit "api"; Lit "inspections"; Enc id] (Some patch)
  | finalizeInspection id version =>
      send "POST" [Lit "api"; Lit "inspections"; Enc id; Lit "finalize"] (body [ofld "version" version])
  | recordPayment id data =>
      send "POST" [Lit "api"; Lit "invoices"; Enc id; Lit "payments"] (Some data)
  | reversePayment id reason =>
      send "POST" [Lit "api"; Lit "payments"; Enc id; Lit "reverse"] (body [fld "reason" reason])
  | updateSettings patch => send "PUT" [Lit "api"; Lit "settings"] (Some patch)
  | analytics months => query (buildQuery [numParam "months" (Some months)]) (get [Lit "api"; Lit "analytics"])
  end.

(** ** Documents, with the API base *)

(** [VITE_API_BASE] without its final slash. *)
Definition apiBase (env : str) : str :=
  match rev env with c :: r => if N.eqb c cSlash then rev r else env | [] => [] end.
Definition invoicePdfUrl (base id : str) : str :=
  base ++ pathText [Lit "api"; Lit "invoices"; Enc id; Lit "document"].
Definition inspectionPdfUrl (base id : str) : str :=
  base ++ pathText [Lit "api"; Lit "inspections"; Enc id; Lit "document"].
Definition vesselCallPdfUrl (base id : str) : str :=
  base ++ pathText [Lit "api"; Lit "vessel-calls"; Enc id; Lit "document"].

(** ** Measurements *)

Definition planPath (id : str) : list Seg := [Lit "api"; Lit "measurement-plans"; Enc id].
(** [{ ...body, version }]: an own [version] of the body keeps its place and is overwritten. *)
Definition withVersion (b : json) (version : Z) : json :=
  match b with
  | JObj kvs => JObj (mset (js "version") (JNum version) kvs)
  | _ => JObj [(js "version", JNum version)]
  end.

Inductive MeasurementEndpoint :=
| mp_list (callId : option str)
| mp_detail (id : str)
| mp_create (data : json)
| mp_update (id : str) (data : json)
| mp_submit (id : str) (version : Z) (data : json)
| mp_agencyLinks (id : str)
| mp_createAgencyLink (id participantId : str) (expiryDays : Z)
| mp_revokeAgencyLink (id linkId : str)
| mp_propose (id : str) (version : Z) (data : json)
| mp_acknowledge (id rid : str) (version : Z) (data : json)
| mp_finalize (id rid : str) (version : Z)
| mp_assess (id : str) (version : Z) (data : json)
| mp_issue (id aid : str) (version : Z)
| mp_evidence (id eid : str)
| mp_presignEvidence (id : str) (metadata : json)
| mp_attachEvidence (id : str) (metadata : json).

Definition measurementCall (e : MeasurementEndpoint) : Call :=
  match e with
  | mp_list callId =>
      query (match callId with
             | Some c => if truthy c then js "?callId=" ++ encodeURIComponent c else []
             | None => [] end) (get [Lit "api"; Lit "measurement-plans"])
  | mp_detail id => get (planPath id)
  | mp_create data => send "POST" [Lit "api"; Lit "measurement-plans"] (Some data)
  | mp_update id data => send "PATCH" (planPath id) (Some data)
  | mp_submit id version data =>
      send "POST" (planPath id ++ [Lit "submissions"]) (Some (withVersion data version))
  | mp_agencyLinks id => get (planPath id ++ [Lit "agency-links"])
  | mp_createAgencyLink id pid days =>
      send "POST" (planPath id ++ [Lit "participants"; Enc pid; Lit "agency-links"])
        (body [fld "expiryDays" days])
  | mp_revokeAgencyLink id lid =>
      send "POST" (planPath id ++ [Lit "agency-links"; Enc lid; Lit "revoke"]) (body [])
  | mp_propose id version data =>
      send "POST" (planPath id ++ [Lit "reconciliations"]) (Some (withVersion data version))
  | mp_acknowledge id rid version data =>
      send "POST" (planPath id ++ [Lit "reconciliations"; Enc rid; Lit "approvals"])
        (Some (withVersion data version))
  | mp_finalize id rid version =>
      send "POST" (planPath id ++ [Lit "reconciliations"; Enc rid; Lit "finalize"])
        (body [fld "version" version])
  | mp_assess id version data =>
      send "POST" (planPath id ++ [Lit "assessments"]) (Some (withVersion data version))
  | mp_issue id aid version =>
      send "POST" (planPath id ++ [Lit "assessments"; Enc aid; Lit "issue"]) (body [fld "version" version])
  | mp_evidence id eid => get (planPath id ++ [Lit "evidence"; Enc eid])
  | mp_presignEvidence id metadata =>
      send "POST" (planPath id ++ [Lit "evidence"; Lit "presign"]) (Some metadata)
  | mp_attachEvidence id metadata => send "POST" (planPath id ++ [Lit "evidence"]) (Some metadata)
  end.

Definition readingsDocumentUrl (base callId : str) : str :=
  base ++ pathText [Lit "api"; Lit "voyages"; Enc callId; Lit "readings"; Lit "document"].
Definition submissionDocumentUrl (base id submissionId : str) : str :=
  base ++ pathText (planPath id ++ [Lit "submissions"; Enc submissionId; Lit "receipt"]).
Definition documentUrl (base id rid : str) : str :=
  base ++ pathText (planPath id ++ [Lit "reconciliations"; Enc rid; Lit "document"]).

(** ** Joining an organization *)

Inductive JoinEndpoint :=
| join_links
| join_createLink (expiresInDays : Z)
| join_revokeLink (id : str)
| join_requests (page : Z) (status : str)
| join_approve (id role : str)
| join_reject (id : str)
| join_inspect (token : str)
| join_submit (data : json)
| join_verify (token password : str).

Definition joinCall (e : JoinEndpoint) : Call :=
  match e with
  | join_links => query (js "?pageSize=20") (get [Lit "api"; Lit "organization-signup-links"])
  | join_createLink days =>
      send "POST" [Lit "api"; Lit "organization-signup-links"] (body [fld "expiresInDays" days])
  | join_revokeLink id => send "DELETE" [Lit "api"; Lit "organization-signup-links"; Enc id] None
  | join_requests page status =>
      query (63%N :: searchParams ([(js "page", printZ page); (js "pageSize", js "20")]
               ++ (if streq status (js "all") then [] else [(js "status", status)])))
        (get [Lit "api"; Lit "organization-join-requests"])
  | join_approve id role =>
      send "POST" [Lit "api"; Lit "organization-join-requests"; Enc id; Lit "approve"]
        (body [fld "role" role])
  | join_reject id => send "POST" [Lit "api"; Lit "organization-join-requests"; Enc id; Lit "reject"] None
  | join_inspect token =>
      suppressed (send "POST" [Lit "api"; Lit "organization-join"; Lit "resolve"] (body [fld "token" token]))
  | join_submit data => suppressed (send "POST" [Lit "api"; Lit "organization-join"] (Some data))
  | join_verify token password =>
      suppressed (send "POST" [Lit "api"; Lit "organization-join"; Lit "verify"]
        (body [fld "token" token; fld "password" password]))
  end.

(** Preserve the account scope without retaining any credential in navigation. *)
Definition organizationAuthPath (path : str) (organizationId : option str) : str :=
  match organizationId with
  | Some org => if truthy org then path ++ js "?organizationId=" ++ encodeURIComponent org else path
  | None => path
  end.

(** ** Every call *)

Inductive Endpoint :=
| e_auth (e : AuthEndpoint) | e_user (e : UserEndpoint) | e_system (e : SystemEndpoint)
| e_operation (e : OperationEndpoint) | e_measurement (e : MeasurementEndpoint)
| e_join (e : JoinEndpoint).
Definition endpointCall (e : Endpoint) : Call :=
  match e with
  | e_auth e => authCall e | e_user e => userCall e | e_system e => systemCall e
  | e_operation e => operationCall e | e_measurement e => measurementCall e | e_join e => joinCall e
  end.

(** ** Lemmas: nothing but a template ends a segment *)

(** No character that ends a segment, opens a query or opens a fragment. *)
Definition plainText (s : str) : Prop := ∀ c, c ∈ s → c ∉ js "/?#".
Definition segOk (s : Seg) : bool :=
  match s with
  | Lit s => forallb (λ c, negb (N.eqb c cSlash || N.eqb c 63 || N.eqb c 35)) (js s)
  | Enc _ => true
  end.

Lemma segOk_plain s : segOk s = true → plainText (segText s).
Proof.
  intros Hs c Hc Hd. assert (Hd' : c = cSlash ∨ c = 63%N ∨ c = 35%N).
  { vm_compute in Hd. set_unfold in Hd. tauto. }
  destruct s as [s|id]; simpl in *.
  - rewrite forallb_true in Hs. specialize (Hs c Hc). apply negb_true_iff in Hs.
    rewrite !orb_false_iff, !N.eqb_neq in Hs. tauto.
  - revert Hc. apply encode_no_delimiter; [|destruct Hd' as [->|[->| ->]]; done].
    destruct Hd' as [->|[->| ->]]; vm_compute; set_solver.
Qed.

Lemma pathText_split segs : Forall (λ s, segOk s = true) segs →
  split cSlash (pathText segs) = [] :: match segs with [] => [] | _ => map segText segs end.
Proof.
  assert (Hg : ∀ s segs, segOk s = true → Forall (λ s, segOk s = true) segs →
    split cSlash (segText s ++ pathText segs) = map segText (s :: segs)).
  { intros s segs' Hs Hsegs. revert s Hs.
    induction Hsegs as [|t segs' Ht _ IH]; intros s Hs; simpl.
    - rewrite app_nil_r. apply split_none. intros Hc. apply (segOk_plain s Hs cSlash Hc). set_solver.
    - rewrite split_app; [|intros Hc; apply (segOk_plain s Hs cSlash Hc); set_solver].
      f_equal. by apply IH. }
  intros Hall. destruct Hall as [|s segs Hs Hsegs]; [done|].
  change (pathText (s :: segs)) with ([] ++ cSlash :: (segText s ++ pathText segs)).
  rewrite split_app by apply not_elem_of_nil. f_equal. by apply Hg.
Qed.

Lemma endpoint_segs_ok e : Forall (λ s, segOk s = true) (call_path (endpointCall e)).
Proof.
  destruct e as [e|e|e|e|e|e]; destruct e; simpl; repeat constructor.
  destruct idempotencyKey as [k|]; [destruct (truthy k)|]; repeat constructor.
Qed.

Lemma formByte_plain b c : c ∈ formByte b → c ≠ 38%N ∧ c ≠ 61%N ∧ c ≠ 35%N.
Proof.
  unfold formByte. assert (Hh : ∀ n, (48 <= hexUpper n <= 57)%N ∨ (65 <= hexUpper n)%N)
    by (intros n; unfold hexUpper; destruct (N.ltb_spec n 10); lia).
  destruct (_ || _) eqn:E.
  - intros ->%list_elem_of_singleton.
    destruct (decide (b = 38%N)) as [->|?]; [done|]. destruct (decide (b = 61%N)) as [->|?]; [done|].
    by destruct (decide (b = 35%N)) as [->|?].
  - destruct (N.eqb b 32); [by intros ->%list_elem_of_singleton|].
    rewrite !elem_of_cons, elem_of_nil. pose proof (Hh (b / 16)%N). pose proof (Hh (b mod 16)%N).
    intros [->|[->|[->|[]]]]; lia.
Qed.

Lemma formEncode_plain s c : c ∈ formEncode s → c ≠ 38%N ∧ c ≠ 61%N ∧ c ≠ 35%N.
Proof.
  unfold formEncode. intros (b & Hb & Hc)%list_elem_of_In%in_flat_map.
  apply list_elem_of_In in Hc. by apply formByte_plain in Hc.
Qed.

Definition entryText (e : str * str) : str := formEncode e.1 ++ [61%N] ++ formEncode e.2.

Lemma entryText_plain e : (38%N ∉ entryText e) ∧ (35%N ∉ entryText e).
Proof.
  unfold entryText. rewrite !not_elem_of_app, !list_elem_of_singleton.
  repeat split; try done; intros H%formEncode_plain; naive_solver.
Qed.

Lemma searchParams_split entries : entries ≠ [] →
  split 38%N (searchParams entries) = map entryText entries.
Proof.
  intros Hne. unfold searchParams. fold entryText. change (λ e, entryText e) with entryText.
  assert (Hp : ∀ e : str * str, 38%N ∉ entryText e) by apply entryText_plain.
  induction entries as [|e entries IH]; [done|]. destruct entries as [|e' entries].
  - simpl. by apply split_none.
  - change (join [38%N] (map entryText (e :: e' :: entries)))
      with (entryText e ++ 38%N :: join [38%N] (map entryText (e' :: entries))).
    rewrite split_app by done. cbn [map]. f_equal. by apply IH.
Qed.

Lemma pathText_no segs c : Forall (λ s, segOk s = true) segs → c ∈ [63; 35]%N → c ∉ pathText segs.
Proof.
  intros Hok Hc (s & Hs%list_elem_of_In & Hin)%list_elem_of_In%in_flat_map. rewrite Forall_forall in Hok.
  apply list_elem_of_In, elem_of_cons in Hin as [->|Hin]; [by vm_compute in Hc; set_unfold in Hc; naive_solver|].
  apply (segOk_plain s (Hok s Hs) c Hin). vm_compute. set_solver.
Qed.

(** Literals are ordinary segments. *)
Definition litKept (s : Seg) : bool :=
  match s with
  | Lit s => forallb (λ c, negb (pathEncoded c) && negb (isSlash c)) (js s) && negb (singleDot (js s))
             && negb (doubleDot (js s))
  | Enc _ => true
  end.
Lemma endpoint_segs_kept e : Forall (λ s, litKept s = true) (call_path (endpointCall e)).
Proof.
  destruct e as [e|e|e|e|e|e]; destruct e; cbn -[litKept];
    try (destruct idempotencyKey as [k|]; [destruct (truthy k)|]; cbn -[litKept]);
    repeat constructor.
Qed.
Lemma segText_kept s : litKept s = true → (∀ id, s = Enc id → units id ∧ id ≠ js "." ∧ id ≠ js "..") →
  keptSegment (segText s).
Proof.
  destruct s as [s|id]; cbn; intros Hl Hid.
  - rewrite !andb_true_iff, forallb_true, !negb_true_iff in Hl. destruct Hl as [[Hc H1] H2].
    split; [|by split]. apply Forall_forall. intros c Hin. specialize (Hc c Hin).
    by rewrite andb_true_iff, !negb_true_iff in Hc.
  - destruct (Hid id eq_refl) as (Hu & H1 & H2). by apply encoded_kept.
Qed.

(** Queries: form-encoded text without a fragment, nothing that the parser cleans away. *)
Definition queryShape (q : str) : Prop :=
  q = [] ∨ ∃ r, q = 63%N :: r ∧ Forall (λ c, (32 < c)%N) r ∧ 35%N ∉ r.
Lemma formByte_visible b c : c ∈ formByte b → (32 < c)%N.
Proof.
  unfold formByte. assert (Hh : ∀ n, (48 <= hexUpper n)%N)
    by (intros n; unfold hexUpper; destruct (N.ltb_spec n 10); lia).
  destruct (_ || _) eqn:E.
  - intros ->%list_elem_of_singleton. unfold isDigit, isAlphaAscii in E.
    rewrite !orb_true_iff, !andb_true_iff, !N.leb_le, !N.eqb_eq in E. lia.
  - destruct (N.eqb b 32); [by intros ->%list_elem_of_singleton|].
    rewrite !elem_of_cons, elem_of_nil. pose proof (Hh (b / 16)%N). pose proof (Hh (b mod 16)%N).
    intros [->|[->|[->|[]]]]; lia.
Qed.
Lemma searchParams_shape entries : queryShape (63%N :: searchParams entries).
Proof.
  right. exists (searchParams entries). split; [done|].
  assert (Hf : ∀ s c, c ∈ formEncode s → (32 < c)%N ∧ c ≠ 35%N).
  { intros s c Hc. split; [|apply formEncode_plain in Hc; tauto]. revert Hc. unfold formEncode.
    intros (b & _ & Hc%list_elem_of_In)%list_elem_of_In%in_flat_map. by apply formByte_visible in Hc. }
  assert (Hall : Forall (λ c, (32 < c)%N ∧ c ≠ 35%N) (searchParams entries)).
  { unfold searchParams. induction entries as [|e entries IH]; [constructor|].
    assert (He : Forall (λ c, (32 < c)%N ∧ c ≠ 35%N) (formEncode e.1 ++ [61%N] ++ formEncode e.2)).
    { apply Forall_app. split; [apply Forall_forall, Hf|].
      apply Forall_app. split; [by repeat constructor|apply Forall_forall, Hf]. }
    destruct entries as [|e' entries]; [exact He|]. cbn [map join] in *.
    apply Forall_app. split; [exact He|]. apply Forall_app. split; [by repeat constructor|exact IH]. }
  split; [by eapply Forall_impl; [exact Hall|intros c [? _]]|].
  intros Hin. rewrite Forall_forall in Hall. by destruct (Hall _ Hin).
Qed.
Lemma buildQuery_shape values : queryShape (buildQuery values).
Proof. unfold buildQuery. destruct (truthy _); [apply searchParams_shape|by left]. Qed.
Lemma encodedQuery_shape (k : string) s : Forall (λ c, (32 < c)%N ∧ c ≠ 35%N) (js k) →
  queryShape (63%N :: js k ++ encodeURIComponent s).
Proof.
  intros Hk. right. exists (js k ++ encodeURIComponent s). split; [done|].
  assert (Hall : Forall (λ c, (32 < c)%N ∧ c ≠ 35%N) (js k ++ encodeURIComponent s)).
  { apply Forall_app. split; [done|]. apply Forall_forall. intros c Hc. split.
    - apply encode_safe in Hc as [Hc|[->|[?|?]]]; [|lia..]. revert Hc.
      unfold isUnreserved, isDigit, isAlphaAscii.
      rewrite !orb_true_iff, !andb_true_iff, !N.leb_le, !N.eqb_eq. lia.
    - intros ->. revert Hc. apply encode_no_delimiter; [vm_compute; set_solver|done]. }
  split; [by eapply Forall_impl; [exact Hall|intros c [? _]]|].
  intros Hin. rewrite Forall_forall in Hall. by destruct (Hall _ Hin).
Qed.
Lemma endpoint_query e : queryShape (call_query (endpointCall e)).
Proof.
  destruct e as [e|e|e|e|e|e]; destruct e; cbn -[buildQuery searchParams encodeURIComponent js truthy];
    try (by left); try apply buildQuery_shape; try apply searchParams_shape.
  - destruct idempotencyKey as [k|]; [destruct (truthy k)|]; by left.
  - destruct callId as [c|]; [destruct (truthy c)|]; [|by left..].
    apply (encodedQuery_shape "callId="). by repeat constructor.
  - apply (encodedQuery_shape "pageSize=20" []). by repeat constructor.
Qed.

Lemma pathText_print segs : pathText segs = printPath (map segText segs).
Proof. unfold pathText, printPath. induction segs as [|s segs IH]; [done|]. cbn [flat_map map]. by rewrite IH. Qed.
Lemma printPath_join s segments : tail (printPath (s :: segments)) = join [cSlash] (s :: segments).
Proof.
  revert s. induction segments as [|t segments IH]; intros s; cbn [printPath flat_map app tail].
  - by rewrite app_nil_r.
  - cbn [join]. f_equal. specialize (IH t). cbn [printPath flat_map app tail] in IH.
    cbn [app]. by rewrite IH.
Qed.
Lemma endpoint_path_nonempty e : call_path (endpointCall e) ≠ [].
Proof.
  destruct e as [e|e|e|e|e|e]; destruct e; try done.
  cbn. by destruct idempotencyKey as [k|]; [destruct (truthy k)|].
Qed.
Lemma joined_visible segments : Forall keptSegment segments → Forall (λ c, (32 < c)%N) (join [cSlash] segments).
Proof.
  induction 1 as [|s l (Hc & _) Hl IH]; [constructor|].
  assert (H32 : Forall (λ c, (32 < c)%N) s)
    by (eapply Forall_impl; [exact Hc|]; intros c [Hk _]; apply kept_range in Hk; lia).
  destruct l as [|t l]; [done|]. apply (Forall_app_2 _ s ([cSlash] ++ _)); [done|]. by apply Forall_cons_2.
Qed.
Lemma requestedPath_exact base c : Forall keptSegment base → Forall (λ s, litKept s = true) (call_path c) →
  (∀ id, Enc id ∈ call_path c → units id ∧ id ≠ js "." ∧ id ≠ js "..") → call_path c ≠ [] →
  queryShape (call_query c) → requestedPath base c = base ++ map segText (call_path c).
Proof.
  intros Hb Hl Hids Hne Hq. unfold requestedPath, callUrl. rewrite pathText_print, app_assoc.
  assert (Hs : Forall keptSegment (base ++ map segText (call_path c))).
  { apply Forall_app. split; [done|]. apply Forall_map, Forall_forall. intros s Hin.
    rewrite Forall_forall in Hl. apply segText_kept; [by apply Hl|]. intros id ->. by apply Hids. }
  assert (Hn : base ++ map segText (call_path c) ≠ []) by (destruct base; [by destruct (call_path c)|done]).
  unfold printPath. rewrite <- flat_map_app. fold (printPath (base ++ map segText (call_path c))).
  destruct (base ++ map segText (call_path c)) as [|x segments] eqn:E; [done|].
  assert (Ht : tail (printPath (x :: segments) ++ call_query c) = join [cSlash] (x :: segments) ++ call_query c)
    by (rewrite <- printPath_join; done).
  rewrite Ht, cleanUrl_kept.
  - rewrite parsePath_kept_rest; [done|done|done|]. destruct Hq as [->|(r & -> & _)]; [done|by left].
  - apply Forall_app. split; [by apply joined_visible|].
    destruct Hq as [->|(r & -> & Hr & _)]; [constructor|by constructor].
Qed.

(** ** Properties *)

(** C10. Identifiers cannot redirect a request: for every call of the client, the text of the
    path has exactly the segments of its template, each identifier filling one, and holds
    nothing that opens a query or a fragment, whatever the identifiers contain; and unless
    an identifier is [.] or [..], which the platform's URL parser removes with the segment
    before it, the path that is requested has exactly those segments too, under the base,
    and what follows it is the template's query. *)
Theorem endpoint_path_template base e :
  let c := endpointCall e in
  split cSlash (pathText (call_path c)) = [] :: map segText (call_path c) ∧
  (63%N ∉ pathText (call_path c)) ∧ (35%N ∉ pathText (call_path c)) ∧
  (call_query c = [] ∨ ∃ q, call_query c = 63%N :: q ∧ 35%N ∉ q) ∧
  (Forall keptSegment base →
   (∀ id, Enc id ∈ call_path c → units id ∧ id ≠ js "." ∧ id ≠ js "..") →
   requestedPath base c = base ++ map segText (call_path c)).
Proof.
  cbv zeta. pose proof (endpoint_segs_ok e) as Hok. split; [|split; [|split; [|split]]].
  - rewrite pathText_split by done. by destruct (call_path _).
  - apply pathText_no; [done|set_solver].
  - apply pathText_no; [done|set_solver].
  - destruct (endpoint_query e) as [?|(q & Hq & _ & Hn)]; [by left|right; by exists q].
  - intros Hb Hids. apply requestedPath_exact; [done|apply endpoint_segs_kept|done|apply endpoint_path_nonempty|apply endpoint_query].
Qed.

(** Two well-formed paths that print alike address the same resource: the same number of
    segments, and wherever both templates hold an identifier, the same identifier. *)
Theorem pathText_identifies segs segs' i id id' :
  Forall (λ s, segOk s = true) segs → Forall (λ s, segOk s = true) segs' →
  pathText segs = pathText segs' →
  segs !! i = Some (Enc id) → segs' !! i = Some (Enc id') → units id → units id' →
  length segs = length segs' ∧ id = id'.
Proof.
  intros Hs Hs' He Hi Hi' Hu Hu'. apply (f_equal (split cSlash)) in He.
  rewrite !pathText_split in He by done. injection He as He.
  assert (Hm : map segText segs = map segText segs') by (by destruct segs, segs'). split.
  - apply (f_equal length) in Hm. by rewrite !length_map in Hm.
  - apply (f_equal (lookup i)) in Hm. rewrite !list_lookup_fmap, Hi, Hi' in Hm. simpl in Hm.
    apply encodeURIComponent_inj; [done|done|congruence].
Qed.

(** Query values cannot add parameters: the query is empty when nothing is present, and
    otherwise holds exactly one [key=value] per present parameter. *)
Theorem buildQuery_parameters values :
  match presentEntries values with
  | [] => buildQuery values = []
  | entries => ∃ q, buildQuery values = 63%N :: q ∧ split 38%N q = map entryText entries ∧ 35%N ∉ q
  end.
Proof.
  unfold buildQuery. destruct (presentEntries values) as [|e entries] eqn:Ep; [done|].
  set (es := e :: entries). pose proof (searchParams_split es ltac:(done)) as Hs.
  destruct (searchParams es) as [|c q] eqn:Eq; simpl.
  - exfalso. simpl in Hs. injection Hs as Hs _. unfold entryText in Hs.
    apply (f_equal length) in Hs. rewrite !length_app in Hs. simpl in Hs. lia.
  - eexists. split; [reflexivity|]. split; [done|]. rewrite <- (join_split 38%N (c :: q)), Hs. clearbody es. clear.
    assert (He : ∀ e, 35%N ∉ entryText e) by apply entryText_plain.
    generalize es. clear es. induction es as [|x es IH]; [apply not_elem_of_nil|].
    destruct es as [|y es]; [apply He|].
    change (join [38%N] (map entryText (x :: y :: es)))
      with (entryText x ++ 38%N :: join [38%N] (map entryText (y :: es))).
    rewrite not_elem_of_app, not_elem_of_cons. by split; [apply He|split].
Qed.

(** Calls that replace the session cookie are run one at a time: every call that advances
    the session epoch or announces an identity change is serialized, one that announces a change
    never reports an expired session of its own, and every platform lifecycle mutation carries
    its idempotency key. *)
Theorem endpoint_discipline e :
  let c := endpointCall e in
  (call_advances c = true → call_serializes c = true) ∧
  (call_broadcasts c = true → call_serializes c = true ∧ call_suppress c = true) ∧
  (∀ rest, call_path c = systemOrgs ++ rest → call_method c ≠ js "GET" →
     is_Some (call_idempotencyKey c)).
Proof.
  cbv zeta. destruct e as [e|e|e|e|e|e]; destruct e; simpl;
    try (destruct idempotencyKey as [k|]; [destruct (truthy k)|]); simpl;
    (split; [done|split; [done|intros rest Hr Hm]]);
    first [discriminate Hr|by destruct Hm|eexists; reflexivity].
Qed.

Lemma pathText_identifies_witness :
  pathText [Lit "api"; Lit "users"; Enc (js "a/../b")] = js "/api/users/a%2F..%2Fb" ∧
  js "a/../b" = js "a/../b".
Proof.
  split; [reflexivity|].
  apply (pathText_identifies (call_path (userCall (updateUser (js "a/../b") JNull)))
    (call_path (userCall (removeUser (js "a/../b")))) 2%nat (js "a/../b") (js "a/../b"));
    [repeat constructor|repeat constructor|reflexivity|reflexivity|reflexivity|repeat constructor|repeat constructor].
Defined.

Example organization_query : buildQuery [numParam "page" (Some 2); param "search" (Some (js "a&b=c"));
  param "status" (unlessAll (Some (js "all")))] = js "?page=2&search=a%26b%3Dc".
Proof. reflexivity. Qed.

(** An identifier made of dots is not encoded, and the parser climbs: the call below, meant for
    one user, is sent to the list of users, and a step up takes the whole collection away. *)
Example dot_identifier_climbs :
  requestedPath [] (userCall (removeUser (js "."))) = map js ["api"; "users"; ""]%string ∧
  requestedPath [] (userCall (removeUser (js ".."))) = map js ["api"; ""]%string.
Proof. split; vm_compute; reflexivity. Qed.

Lemma endpoint_path_template_witness :
  requestedPath [js "staging"] (userCall (removeUser (js "a/../b?c"))) =
    map js ["staging"; "api"; "users"; "a%2F..%2Fb%3Fc"]%string.
Proof.
  destruct (endpoint_path_template [js "staging"] (e_user (removeUser (js "a/../b?c"))))
    as (_ & _ & _ & _ & H).
  refine (eq_trans (H _ _) _).
  - repeat constructor.
  - intros id Hid. simpl in Hid. repeat (apply elem_of_cons in Hid as [Hid|Hid]; [try discriminate Hid|]).
    + injection Hid as ->. split; [repeat constructor|split; discriminate].
    + apply elem_of_nil in Hid. destruct Hid.
  - vm_compute. reflexivity.
Defined.
