(* ===== verification/AuthEpoch.v ===== *)
(** * Session epochs across tabs (frontend/src/lib/authSessionEpoch.ts)

    Each tab counts session boundaries; a boundary or transition is announced to the other
    tabs of the origin, over a BroadcastChannel or, without one, through a localStorage event.
    A tab is its module state; [network] runs the tabs of one origin. *)
From S2P Require Import Prelude JsString Json Codec.

(** ** Messages *)

Inductive AuthSessionBoundaryEvent :=
| ev_boundary | ev_start (transitionId : str) | ev_settled (transitionId : str).
#[export] Instance AuthSessionBoundaryEvent_eq : EqDecision AuthSessionBoundaryEvent.
Proof. solve_decision. Defined.

Definition AUTH_BOUNDARY_STORAGE_KEY : str := js "vessel-caller:auth-boundary-event".
Definition AUTH_BOUNDARY_MESSAGE_TYPE : str := js "auth-boundary-v1".

(** A member that is this string. *)
Definition hasText (k : str) (s : str) (value : json) : bool :=
  match jget k value with Some (JStr t) => streq t s | _ => false end.

Definition parseBoundaryMessage (value : json) : option AuthSessionBoundaryEvent :=
  if negb (hasText (js "type") AUTH_BOUNDARY_MESSAGE_TYPE value) then None
  else if hasText (js "phase") (js "boundary") value then Some ev_boundary
  else match jget (js "transitionId") value with
       | Some (JStr id) =>
         if isEmpty id then None
         else if hasText (js "phase") (js "start") value then Some (ev_start id)
         else if hasText (js "phase") (js "settled") value then Some (ev_settled id)
         else None
       | _ => None
       end.

(** What a publisher posts: [publishAuthSessionBoundary] and [publishTransitionMessage]. *)
Definition boundaryMessage (nonce : str) : json :=
  mkObj [fld "type" AUTH_BOUNDARY_MESSAGE_TYPE; fld "phase" (js "boundary"); fld "nonce" nonce].
Definition transitionMessage (phase transitionId : str) : json :=
  mkObj [fld "type" AUTH_BOUNDARY_MESSAGE_TYPE; fld "phase" phase; fld "transitionId" transitionId].

(** ** A tab *)

(** The transport: not set up yet, an open channel, or the storage listener. *)
Inductive Transport := t_unset | t_channel | t_storage.

Record Tab := mkTab {
  tab_epoch : Z;
  tab_listeners : list nat;
  (** calls made to listeners, oldest first *)
  tab_calls : list (nat * AuthSessionBoundaryEvent);
  tab_transport : Transport }.

Definition initialTab : Tab := mkTab 0 [] [] t_unset.

Definition advanceAuthSessionEpoch (tab : Tab) : Tab :=
  mkTab (tab_epoch tab + 1) (tab_listeners tab) (tab_calls tab) (tab_transport tab).
Definition notifyListeners (event : AuthSessionBoundaryEvent) (tab : Tab) : Tab :=
  mkTab (tab_epoch tab) (tab_listeners tab)
    (tab_calls tab ++ map (λ l, (l, event)) (tab_listeners tab)) (tab_transport tab).

Definition receiveAuthBoundary (value : json) (tab : Tab) : Tab :=
  match parseBoundaryMessage value with
  | None => tab
  | Some event => notifyListeners event (advanceAuthSessionEpoch tab)
  end.

(** A storage event: the key, and the new value ([null] for a removal). *)
Definition receiveStorageBoundary (key : str) (newValue : option str) (tab : Tab) : Tab :=
  match newValue with
  | Some v =>
    if negb (streq key AUTH_BOUNDARY_STORAGE_KEY) || isEmpty v then tab
    else match parse v with Some value => receiveAuthBoundary value tab | None => tab end
  | None => tab
  end.

Definition ensureAuthBoundaryTransport (hasChannel : bool) (tab : Tab) : Tab :=
  match tab_transport tab with
  | t_unset => mkTab (tab_epoch tab) (tab_listeners tab) (tab_calls tab)
                 (if hasChannel then t_channel else t_storage)
  | _ => tab
  end.

Definition subscribeAuthSessionBoundary (hasChannel : bool) (l : nat) (tab : Tab) : Tab :=
  ensureAuthBoundaryTransport hasChannel
    (mkTab (tab_epoch tab)
       (if decide (l ∈ tab_listeners tab) then tab_listeners tab else tab_listeners tab ++ [l])
       (tab_calls tab) (tab_transport tab)).
Definition unsubscribe (l : nat) (tab : Tab) : Tab :=
  mkTab (tab_epoch tab) (filterb (λ x, negb (Nat.eqb x l)) (tab_listeners tab)) (tab_calls tab)
    (tab_transport tab).

(** ** Tabs of one origin *)

(** The tab that posts [message] over its transport, and the others that hear it: an open
    channel hears channel posts, a storage listener the write and then the removal. *)
Definition hear (from : Transport) (message : json) (tab : Tab) : Tab :=
  match from, tab_transport tab with
  | t_channel, t_channel => receiveAuthBoundary message tab
  | t_storage, t_storage =>
      receiveStorageBoundary AUTH_BOUNDARY_STORAGE_KEY None
        (receiveStorageBoundary AUTH_BOUNDARY_STORAGE_KEY (Some (stringify message)) tab)
  | _, _ => tab
  end.

Section Network.
(** Whether the browser has BroadcastChannel and lets pages write localStorage. *)
Variable hasChannel canStore : bool.

Definition post (i : nat) (message : json) (tabs : list Tab) : list Tab :=
  match tabs !! i with
  | None => tabs
  | Some tab =>
    let tab' := ensureAuthBoundaryTransport hasChannel (advanceAuthSessionEpoch tab) in
    let audible := match tab_transport tab' with t_storage => canStore | _ => true end in
    imap (λ j t, if Nat.eqb i j then tab'
                 else if audible then hear (tab_transport tab') message t else t) tabs
  end.

Definition publishAuthSessionBoundary (i : nat) (nonce : str) (notifyLocal : bool) (tabs : list Tab)
  : list Tab :=
  let tabs' := post i (boundaryMessage nonce) tabs in
  if notifyLocal then alter (notifyListeners ev_boundary) i tabs' else tabs'.
Definition publishAuthSessionTransitionStart (i : nat) (transitionId : str) (tabs : list Tab)
  : list Tab := post i (transitionMessage (js "start") transitionId) tabs.
Definition publishAuthSessionTransitionSettled (i : nat) (transitionId : str) (tabs : list Tab)
  : list Tab := post i (transitionMessage (js "settled") transitionId) tabs.
End Network.

(** ** Lemmas: messages *)

Lemma parse_boundaryMessage nonce : parseBoundaryMessage (boundaryMessage nonce) = Some ev_boundary.
Proof. reflexivity. Qed.

Lemma hasText_transition k phase id : hasText (js "phase") k (transitionMessage phase id) = streq phase k.
Proof. unfold hasText, transitionMessage. rewrite jget_mkObj. reflexivity. Qed.

Lemma parse_transitionMessage (start : bool) id : id ≠ [] →
  parseBoundaryMessage (transitionMessage (if start then js "start" else js "settled") id) =
  Some (if start then ev_start id else ev_settled id).
Proof.
  intros Hid. unfold parseBoundaryMessage. rewrite !hasText_transition.
  assert (Ht : hasText (js "type") AUTH_BOUNDARY_MESSAGE_TYPE
    (transitionMessage (if start then js "start" else js "settled") id) = true) by (by destruct start).
  rewrite Ht. cbn [negb].
  assert (Hj : jget (js "transitionId") (transitionMessage (if start then js "start" else js "settled") id)
    = Some (JStr id)) by (unfold transitionMessage; rewrite jget_mkObj; by destruct start).
  rewrite Hj. destruct id as [|c id]; [done|]. by destruct start.
Qed.

Lemma hear_event from message event tab : parseBoundaryMessage message = Some event →
  from ≠ t_unset → tab_transport tab = from →
  hear from message tab = notifyListeners event (advanceAuthSessionEpoch tab).
Proof.
  intros Hp Hn Ht. unfold hear. rewrite Ht. destruct from; [done|..].
  - unfold receiveAuthBoundary. by rewrite Hp.
  - unfold receiveStorageBoundary. rewrite streq_refl. cbn [negb orb].
    assert (He : isEmpty (stringify message) = false).
    { destruct (stringify_head message) as (c & r & -> & _). done. }
    rewrite He, parse_stringify. unfold receiveAuthBoundary. by rewrite Hp.
Qed.

(** ** Properties *)

Section Delivery.
Variable hasChannel canStore : bool.

(** Every other tab of a running origin has set up the transport the browser offers. *)
Definition connected (tabs : list Tab) : Prop :=
  ∀ j tab, tabs !! j = Some tab →
    tab_transport tab = if hasChannel then t_channel else t_storage.

Lemma post_lookup i message event tabs j tab tab_i :
  connected tabs → hasChannel || canStore = true →
  parseBoundaryMessage message = Some event →
  tabs !! i = Some tab_i → tabs !! j = Some tab →
  post hasChannel canStore i message tabs !! j =
  Some (if Nat.eqb i j then advanceAuthSessionEpoch tab
        else notifyListeners event (advanceAuthSessionEpoch tab)).
Proof.
  intros Hc Hs Hp Hi Hj. unfold post. rewrite Hi.
  assert (Ht : ensureAuthBoundaryTransport hasChannel (advanceAuthSessionEpoch tab_i)
               = advanceAuthSessionEpoch tab_i).
  { unfold ensureAuthBoundaryTransport. simpl. rewrite (Hc i tab_i Hi). by destruct hasChannel. }
  rewrite Ht, list_lookup_imap, Hj. simpl. f_equal. rewrite (Hc i tab_i Hi).
  destruct (Nat.eqb_spec i j) as [<-|Hne]; [congruence|].
  rewrite (hear_event _ message event) by (done || rewrite ?(Hc j tab Hj); by destruct hasChannel).
  destruct hasChannel; [done|]. simpl in Hs. by rewrite Hs.
Qed.

(** A transition announced by one tab reaches every other tab: over either transport, each
    of its listeners is called once with that transition, and every tab's epoch advances by one,
    so no response from before it can commit anywhere. *)
Theorem transition_reaches_peers i id (start : bool) tabs j tab tab_i :
  connected tabs → hasChannel || canStore = true → id ≠ [] →
  tabs !! i = Some tab_i → tabs !! j = Some tab → i ≠ j →
  ∃ tab', (if start then publishAuthSessionTransitionStart else publishAuthSessionTransitionSettled)
            hasChannel canStore i id tabs !! j = Some tab' ∧
    tab_epoch tab' = tab_epoch tab + 1 ∧
    tab_calls tab' = tab_calls tab ++
      map (λ l, (l, if start then ev_start id else ev_settled id)) (tab_listeners tab).
Proof.
  intros Hc Hs Hid Hi Hj Hne. pose proof (parse_transitionMessage start id Hid) as Hp.
  pose proof (post_lookup i _ _ tabs j tab tab_i Hc Hs Hp Hi Hj) as Hl.
  rewrite (proj2 (Nat.eqb_neq i j) Hne) in Hl.
  exists (notifyListeners (if start then ev_start id else ev_settled id) (advanceAuthSessionEpoch tab)).
  split; [destruct start; exact Hl|done].
Qed.

(** Malformed or foreign messages change nothing, and every accepted one advances the epoch
    by exactly one: a tab's epoch never goes back. *)
Theorem receive_monotone value key newValue tab :
  match parseBoundaryMessage value with
  | None => receiveAuthBoundary value tab = tab
  | Some event =>
      tab_epoch (receiveAuthBoundary value tab) = tab_epoch tab + 1 ∧
      tab_calls (receiveAuthBoundary value tab) =
        tab_calls tab ++ map (λ l, (l, event)) (tab_listeners tab)
  end ∧
  tab_epoch tab <= tab_epoch (receiveStorageBoundary key newValue tab).
Proof.
  unfold receiveStorageBoundary, receiveAuthBoundary.
  split; [by destruct (parseBoundaryMessage value)|]. repeat case_match; simpl; lia.
Qed.
End Delivery.

Definition sampleTabs : list Tab :=
  [mkTab 4 [] [] t_channel; mkTab 7 [1%nat; 2%nat] [] t_channel].
Lemma transition_reaches_peers_witness :
  ∃ tab', publishAuthSessionTransitionStart true false 0 (js "t-1") sampleTabs !! 1%nat = Some tab' ∧
    tab_epoch tab' = 8 ∧ tab_calls tab' = [(1%nat, ev_start (js "t-1")); (2%nat, ev_start (js "t-1"))].
Proof.
  refine (transition_reaches_peers true false 0 (js "t-1") true sampleTabs 1 _ _ _ eq_refl _
    eq_refl eq_refl _); [|discriminate|discriminate].
  intros [|[|j]] tab Hl; [by injection Hl as <-|by injection Hl as <-|discriminate Hl].
Defined.
