(* ===== verification/ApiClient.v ===== *)
(** * The API client (frontend/src/lib/api.ts)

    [performRequest] as functions of the response, and [request] as a machine: which requests
    are waiting, which are in flight, the session epoch and the transitions in progress.  The
    server's responses, the browser's cookies and aborts arrive as steps. *)
From S2P Require Import Prelude JsString Json Codec MeasurementTypes Uri Endpoints.

(** ** CSRF tokens *)

(** The cookie's value; [Err] where decoding throws. *)
Definition readCookie (cookies name : str) : result unit (option str) :=
  let prefix := encodeURIComponent name ++ [61%N] in
  match findb (startsWith prefix) (map trim (split 59%N cookies)) with
  | None => Ok None
  | Some part => match decodeURIComponent (drop (length prefix) part) with
                 | Some v => Ok (Some v) | None => Err tt end
  end.

Record ApiError := mkApiError {
  ae_message : str; ae_status : Z; ae_errors : json; ae_requestId : option str }.

(** The token at hand: the cookie's, else the one kept from the bootstrap request. *)
Definition csrfAtHand (cookieToken kept : option str) : option str :=
  match cookieToken with
  | Some t => if truthy t then Some t else kept
  | None => kept
  end.
(** The bootstrap's response: its status and the body's [csrfToken]. *)
Definition csrfBootstrap (status : Z) (token : option str) : result ApiError str :=
  let refused := Err (mkApiError (js "Could not establish a secure session")
    (if status =? 0 then 500 else status) (JObj []) None) in
  if (200 <=? status) && (status <? 300) then
    match token with Some t => if truthy t then Ok t else refused | None => refused end
  else refused.

Definition safeMethod (m : str) : bool :=
  streq m (js "GET") || streq m (js "HEAD") || streq m (js "OPTIONS") || streq m (js "TRACE").

(** The headers of a call, by lower-case name as [Headers] stores them. *)
Definition requestHeaders (c : Call) (csrf : str) : list (str * str) :=
  let h := match call_idempotencyKey c with Some k => [(js "idempotency-key", k)] | None => [] end in
  let h := mset (js "accept") (js "application/json") h in
  let h := match call_body c with
           | Some _ => match mget (js "content-type") h with
                       | None => mset (js "content-type") (js "application/json") h | Some _ => h end
           | None => h end in
  if safeMethod (call_method c) then h else mset (js "x-csrftoken") csrf h.

(** ** Reading a response *)

Record HttpResponse := mkResponse {
  hr_status : Z; hr_contentType : option str; hr_requestId : option str;
  (** what [json()] and [text()] resolve to; [None] when they reject *)
  hr_json : option json; hr_text : option str }.

Definition responseOk (r : HttpResponse) : bool := (200 <=? hr_status r) && (hr_status r <? 300).
Definition responseBody (r : HttpResponse) : json :=
  if hr_status r =? 204 then JNull
  else if match hr_contentType r with Some t => includes (js "application/json") t | None => false end
  then default JNull (hr_json r)
  else match hr_text r with Some t => JStr t | None => JNull end.

(** A string member of the error envelope; a non-object body has none. *)
Definition envelopeText (k : str) (b : json) : option str :=
  match jget k b with Some (JStr s) => if truthy s then Some s else None | _ => None end.

Definition authenticationMissing (r : HttpResponse) : bool :=
  (hr_status r =? 401)
  || ((hr_status r =? 403) &&
      bool_decide (envelopeText (js "detail") (responseBody r)
        = Some (js "Authentication credentials were not provided."))).

Definition responseError (r : HttpResponse) : ApiError :=
  let b := responseBody r in
  mkApiError
    (match envelopeText (js "detail") b, envelopeText (js "error") b with
     | Some d, _ => d
     | None, Some e => e
     | None, None => js "Request failed (" ++ printZ (hr_status r) ++ js ")"
     end)
    (hr_status r)
    (match jget (js "errors") b with Some JNull | None => JObj [] | Some e => e end)
    (match jget (js "requestId") b with Some (JStr s) => Some s | _ => hr_requestId r end).

(** Whether [auth:expired] is dispatched, and what the promise settles with. *)
Definition settleResponse (suppress : bool) (activeTransitions requestEpoch currentEpoch : Z)
    (r : HttpResponse) : bool * result ApiError json :=
  if responseOk r then (false, Ok (responseBody r)) else
  (authenticationMissing r && negb suppress && (activeTransitions =? 0)
     && (requestEpoch =? currentEpoch),
   Err (responseError r)).

(** ** The machine of [request] *)

Inductive Phase := waiting | performing (requestEpoch : Z).
Record Op := mkOp { op_call : Call; op_phase : Phase }.

Record Client := mkClient {
  cl_epoch : Z;                 (** [authSessionEpoch] *)
  cl_transitions : Z;           (** [activeAuthSessionTransitions] *)
  cl_queue : list nat;          (** unsettled serialized requests, in call order *)
  cl_ops : gmap nat Op;         (** unsettled requests *)
  cl_next : nat;
  cl_expired : Z                (** [auth:expired] events dispatched *) }.

Definition initialClient : Client := mkClient 0 0 [] ∅ 0 0.

Definition b2z (b : bool) : Z := if b then 1 else 0.

(** [request(path, options)]: a transition begins with the call itself. *)
Definition request (c : Call) (s : Client) : Client :=
  let epoch := cl_epoch s + b2z (call_advances c) in
  let id := cl_next s in
  mkClient epoch (cl_transitions s + b2z (call_advances c))
    (if call_serializes c then cl_queue s ++ [id] else cl_queue s)
    (<[id := mkOp c (if call_serializes c then waiting else performing epoch)]> (cl_ops s))
    (S id) (cl_expired s).

(** [performIdentityTransition]: the first of the queue starts, once it holds the lock. *)
Definition startNext (s : Client) : Client :=
  match cl_queue s with
  | id :: _ =>
    match cl_ops s !! id with
    | Some (mkOp c waiting) =>
      let epoch := cl_epoch s + b2z (call_broadcasts c) in
      mkClient epoch (cl_transitions s) (cl_queue s) (<[id := mkOp c (performing epoch)]> (cl_ops s))
        (cl_next s) (cl_expired s)
    | _ => s
    end
  | [] => s
  end.

(** The promise settles: with a response, or rejected by an abort or the network. *)
Definition finish (id : nat) (c : Call) (started succeeded expired : bool) (s : Client) : Client :=
  mkClient
    (cl_epoch s + b2z (succeeded && call_advances c)
     + b2z (started && call_serializes c && call_broadcasts c))
    (cl_transitions s - b2z (call_advances c))
    (filterb (λ i, negb (Nat.eqb i id)) (cl_queue s)) (delete id (cl_ops s)) (cl_next s)
    (cl_expired s + b2z expired).

Definition settle (id : nat) (r : option HttpResponse) (s : Client)
  : Client * option (result ApiError json) :=
  match cl_ops s !! id with
  | Some (mkOp c (performing e)) =>
    match r with
    | Some r =>
      let '(expired, outcome) :=
        settleResponse (call_suppress c) (cl_transitions s) e (cl_epoch s) r in
      (finish id c true (responseOk r) expired s, Some outcome)
    | None => (finish id c true false false s, None)
    end
  | Some (mkOp c waiting) =>
    (** aborted before it held the lock: it leaves when its turn comes *)
    match cl_queue s, r with
    | i :: _, None => if Nat.eqb i id then (finish id c false false false s, None) else (s, None)
    | _, _ => (s, None)
    end
  | None => (s, None)
  end.

(** A boundary from another tab, or published by this tab's session code. *)
Definition boundary (s : Client) : Client :=
  mkClient (cl_epoch s + 1) (cl_transitions s) (cl_queue s) (cl_ops s) (cl_next s) (cl_expired s).

Inductive client_step (s : Client) : Client → Prop :=
| cs_request c : client_step s (request c s)
| cs_start : client_step s (startNext s)
| cs_settle id r : client_step s (fst (settle id r s))
| cs_boundary : client_step s (boundary s).

Definition clientReachable (s : Client) : Prop := rtc client_step initialClient s.

(** ** The invariant *)

Definition advancingOps (ops : gmap nat Op) : nat :=
  size (filter (λ kv, call_advances (op_call kv.2) = true) ops).

Record clientInv (s : Client) : Prop := {
  ci_transitions : cl_transitions s = Z.of_nat (advancingOps (cl_ops s));
  ci_nodup : NoDup (cl_queue s);
  ci_queue : ∀ id, id ∈ cl_queue s ↔ ∃ op, cl_ops s !! id = Some op ∧ call_serializes (op_call op) = true;
  ci_head : ∀ id c e, cl_ops s !! id = Some (mkOp c (performing e)) → call_serializes c = true →
    head (cl_queue s) = Some id;
  ci_epoch : ∀ id c e, cl_ops s !! id = Some (mkOp c (performing e)) → e <= cl_epoch s;
  ci_fresh : ∀ id op, cl_ops s !! id = Some op → (id < cl_next s)%nat }.

Lemma advancingOps_insert id op ops : ops !! id = None →
  Z.of_nat (advancingOps (<[id := op]> ops)) = Z.of_nat (advancingOps ops) + b2z (call_advances (op_call op)).
Proof.
  intros Hn. unfold advancingOps, b2z. rewrite map_filter_insert. simpl.
  destruct (call_advances (op_call op)) eqn:E.
  - rewrite decide_True by done. rewrite map_size_insert_None; [lia|]. by rewrite map_lookup_filter, Hn.
  - rewrite decide_False by done. rewrite delete_id by done. lia.
Qed.
Lemma advancingOps_delete id op ops : ops !! id = Some op →
  Z.of_nat (advancingOps (delete id ops)) = Z.of_nat (advancingOps ops) - b2z (call_advances (op_call op)).
Proof.
  intros Hl. pose proof (advancingOps_insert id op (delete id ops) (lookup_delete_eq _ _)) as H.
  rewrite insert_delete_id in H by done. lia.
Qed.
Lemma advancingOps_replace id c p p' ops : ops !! id = Some (mkOp c p) →
  Z.of_nat (advancingOps (<[id := mkOp c p']> ops)) = Z.of_nat (advancingOps ops).
Proof.
  intros Hl. rewrite <- insert_delete_eq, advancingOps_insert by apply lookup_delete_eq.
  rewrite (advancingOps_delete id (mkOp c p)) by done. simpl. lia.
Qed.

Lemma clientInv_initial : clientInv initialClient.
Proof.
  constructor; simpl; try done.
  - constructor.
  - intros id. rewrite elem_of_nil. split; [done|]. by intros (op & Hl%lookup_empty_Some & _).
Qed.

Lemma clientInv_request c s : clientInv s → clientInv (request c s).
Proof.
  intros [Ht Hd Hq Hh He Hf].
  assert (Hn : cl_ops s !! cl_next s = None).
  { destruct (cl_ops s !! cl_next s) as [op|] eqn:E; [|done]. apply Hf in E. lia. }
  assert (Hnq : cl_next s ∉ cl_queue s) by (rewrite Hq; intros (op & Ho & _); congruence).
  constructor; simpl.
  - rewrite advancingOps_insert by done. simpl. lia.
  - destruct (call_serializes c); [|done]. apply NoDup_app. split; [done|].
    split; [|apply NoDup_singleton]. intros x Hx ->%list_elem_of_singleton. done.
  - intros id. destruct (decide (id = cl_next s)) as [->|Hne].
    + rewrite lookup_insert_eq. destruct (call_serializes c) eqn:Es; rewrite ?elem_of_app, ?list_elem_of_singleton.
      * split; [intros _; by eexists|by right].
      * split; [done|]. intros (op & [= <-] & Hs). simpl in Hs. congruence.
    + rewrite lookup_insert_ne by done. rewrite <- Hq.
      destruct (call_serializes c); [|done]. rewrite elem_of_app, list_elem_of_singleton. naive_solver.
  - intros id c' e Hl Hs. apply lookup_insert_Some in Hl as [[<- Hop]|[Hne Hl]].
    + injection Hop as -> Hp. by rewrite Hs in Hp.
    + specialize (Hh _ _ _ Hl Hs). destruct (call_serializes c); [|done]. by destruct (cl_queue s).
  - intros id c' e [[<- Hop]|[Hne Hl]]%lookup_insert_Some; unfold b2z.
    + injection Hop as -> Hp. destruct (call_serializes c'); [done|]. injection Hp as <-. unfold b2z. lia.
    + specialize (He _ _ _ Hl). destruct (call_advances c); lia.
  - intros id op [[<- _]|[Hne Hl]]%lookup_insert_Some; [lia|]. apply Hf in Hl. lia.
Qed.

Lemma clientInv_startNext s : clientInv s → clientInv (startNext s).
Proof.
  intros [Ht Hd Hq Hh He Hf]. unfold startNext. destruct (cl_queue s) as [|id q] eqn:Eq; [by constructor; rewrite ?Eq|].
  destruct (cl_ops s !! id) as [[c [|e]]|] eqn:El; [|constructor; rewrite ?Eq; done..].
  assert (Hs : call_serializes c = true).
  { destruct (proj1 (Hq id)) as (op & Ho & Hs); [by left|]. rewrite El in Ho. by injection Ho as <-. }
  constructor; simpl.
  - by rewrite (advancingOps_replace id c waiting).
  - done.
  - intros i. rewrite Hq. destruct (decide (i = id)) as [->|Hne].
    + rewrite lookup_insert_eq, El. split; intros _; by eexists.
    + by rewrite lookup_insert_ne.
  - intros i c' e Hl Hs'. apply lookup_insert_Some in Hl as [[<- _]|[Hne Hl]]; [done|by eapply Hh].
  - intros i c' e [[<- Hop]|[Hne Hl]]%lookup_insert_Some.
    + injection Hop as -> <-. lia.
    + specialize (He _ _ _ Hl). unfold b2z. destruct (call_broadcasts c); lia.
  - intros i op [[<- _]|[Hne Hl]]%lookup_insert_Some; by eapply Hf.
Qed.

Lemma clientInv_finish id c p started ok expired s : clientInv s →
  cl_ops s !! id = Some (mkOp c p) → clientInv (finish id c started ok expired s).
Proof.
  intros [Ht Hd Hq Hh He Hf] Hl. constructor; simpl.
  - rewrite (advancingOps_delete id (mkOp c p)) by done. simpl. lia.
  - by apply NoDup_filterb.
  - intros i. rewrite elem_of_filterb, negb_true_iff, Nat.eqb_neq, Hq. split.
    + intros [(op & Ho & Hs) Hne]. exists op. by rewrite lookup_delete_ne.
    + intros (op & [Hne Ho]%lookup_delete_Some & Hs). split; [by exists op|done].
  - intros i c' e [Hne Ho]%lookup_delete_Some Hs. specialize (Hh _ _ _ Ho Hs).
    destruct (cl_queue s) as [|j q]; [done|]. injection Hh as ->. simpl.
    by rewrite (proj2 (Nat.eqb_neq i id)).
  - intros i c' e [Hne Ho]%lookup_delete_Some. specialize (He _ _ _ Ho).
    unfold b2z. repeat case_match; lia.
  - intros i op [Hne Ho]%lookup_delete_Some. by apply (Hf i op).
Qed.

(** A settled request leaves through [finish]; anything else changes nothing. *)
Lemma settle_cases id r s :
  fst (settle id r s) = s ∨
  ∃ c p started ok expired, cl_ops s !! id = Some (mkOp c p) ∧
    fst (settle id r s) = finish id c started ok expired s ∧
    (expired = true → ∃ e resp, p = performing e ∧ r = Some resp ∧
       cl_transitions s = 0 ∧ e = cl_epoch s ∧ call_suppress c = false ∧
       authenticationMissing resp = true).
Proof.
  unfold settle. destruct (cl_ops s !! id) as [[c [|e]]|]; [..|by left].
  - destruct (cl_queue s) as [|i q], r; simpl; try (by left).
    destruct (Nat.eqb i id); simpl; [right|by left].
    exists c, waiting, false, false, false. done.
  - right. exists c, (performing e), true. destruct r as [r|]; [|by exists false, false].
    exists (responseOk r), (authenticationMissing r && negb (call_suppress c) && (cl_transitions s =? 0)
      && (e =? cl_epoch s) && negb (responseOk r)). split; [done|]. unfold settleResponse.
    destruct (responseOk r) eqn:Eo; simpl; rewrite ?andb_false_r, ?andb_true_r; (split; [done|]); [done|].
    intros Hx. bool_hyps. exists e, r. by repeat split.
Qed.

Lemma clientInv_step s s' : clientInv s → client_step s s' → clientInv s'.
Proof.
  intros Hi [c| |id r|]; [by apply clientInv_request|by apply clientInv_startNext|..].
  - destruct (settle_cases id r s) as [->|(c & p & st & ok & ex & Hl & -> & _)]; [done|].
    by eapply clientInv_finish.
  - destruct Hi. constructor; try done. intros i c e Hl. simpl. specialize (ci_epoch0 _ _ _ Hl). lia.
Qed.

Lemma clientReachable_inv s : clientReachable s → clientInv s.
Proof.
  unfold clientReachable. intros Hr. remember initialClient as s0.
  assert (Hi : clientInv s0) by (subst; apply clientInv_initial). clear Heqs0.
  induction Hr; [done|]. eauto using clientInv_step.
Qed.

Lemma epoch_step s s' : client_step s s' → cl_epoch s <= cl_epoch s'.
Proof.
  intros [c| |id r|]; simpl.
  - unfold b2z. destruct (call_advances c); lia.
  - unfold startNext, b2z. repeat case_match; simpl; lia.
  - destruct (settle_cases id r s) as [->|(c & p & st & ok & ex & Hl & -> & _)]; [lia|].
    simpl. unfold b2z. repeat case_match; lia.
  - lia.
Qed.
Lemma epoch_steps s s' : rtc client_step s s' → cl_epoch s <= cl_epoch s'.
Proof. induction 1 as [|x y z Hs _ IH]; [lia|]. apply epoch_step in Hs. lia. Qed.

(** ** Properties *)

(** C7. Session-cookie requests run one at a time, in call order: in every reachable state at
    most one serialized request is in flight, and it is the oldest unsettled one. *)
Theorem serialized_one_at_a_time s id id' c c' e e' :
  clientReachable s →
  cl_ops s !! id = Some (mkOp c (performing e)) → cl_ops s !! id' = Some (mkOp c' (performing e')) →
  call_serializes c = true → call_serializes c' = true →
  id = id' ∧ head (cl_queue s) = Some id.
Proof.
  intros Hi%clientReachable_inv Hl Hl' Hs Hs'.
  pose proof (ci_head s Hi _ _ _ Hl Hs) as Hh. pose proof (ci_head s Hi _ _ _ Hl' Hs') as Hh'.
  split; congruence.
Qed.

(** C8. A stale response never signs the user out: once a session boundary has passed since a
    request captured its epoch (a transition began or ended here, or another tab announced one),
    or while any transition is unsettled, settling that request dispatches no [auth:expired],
    whatever the server answered. *)
Theorem stale_never_expires s s' id c e r :
  clientReachable s → cl_ops s !! id = Some (mkOp c (performing e)) →
  rtc client_step s s' → cl_ops s' !! id = Some (mkOp c (performing e)) →
  cl_epoch s < cl_epoch s' ∨
    (∃ id' op, cl_ops s' !! id' = Some op ∧ call_advances (op_call op) = true) →
  cl_expired (fst (settle id r s')) = cl_expired s'.
Proof.
  intros Hr Hl Hrtc Hl' Hcause. assert (Hi' : clientInv s') by
    (apply clientReachable_inv; unfold clientReachable; by etrans).
  pose proof (ci_epoch s (clientReachable_inv s Hr) _ _ _ Hl) as He.
  destruct (settle_cases id r s') as [->|(c' & p & st & ok & ex & Hl2 & -> & Hx)]; [done|]. simpl.
  destruct ex; unfold b2z; [|lia]. exfalso.
  destruct (Hx eq_refl) as (e2 & resp & -> & _ & Ht & He2 & _). rewrite Hl' in Hl2.
  injection Hl2 as -> ->. destruct Hcause as [Hlt|(id' & op & Ho & Ha)]; [lia|].
  rewrite (ci_transitions s' Hi') in Ht. pose proof (advancingOps_delete id' op _ Ho) as Hd.
  rewrite Ha in Hd. simpl in Hd. lia.
Qed.

(** The transition count is exact: it is the number of unsettled requests that advance the
    session epoch, so it returns to zero once they have all settled, however they end. *)
Theorem transitions_exact s : clientReachable s →
  cl_transitions s = Z.of_nat (advancingOps (cl_ops s)) ∧
  (cl_ops s = ∅ → cl_transitions s = 0 ∧ cl_queue s = []).
Proof.
  intros Hi%clientReachable_inv. split; [by apply ci_transitions|]. intros He. split.
  - rewrite (ci_transitions s Hi), He. done.
  - apply elem_of_nil_inv. intros id (op & Ho & _)%(ci_queue s Hi). by rewrite He in Ho.
Qed.

(** Every request asks for JSON; an unsafe one, and only an unsafe one, carries the CSRF
    token; a body is declared as JSON; and an idempotency key is sent as given. *)
Theorem requestHeaders_exact c token :
  let h := requestHeaders c token in
  mget (js "accept") h = Some (js "application/json") ∧
  mget (js "x-csrftoken") h = (if safeMethod (call_method c) then None else Some token) ∧
  mget (js "content-type") h = (match call_body c with Some _ => Some (js "application/json") | None => None end) ∧
  mget (js "idempotency-key") h = call_idempotencyKey c.
Proof.
  cbv zeta. unfold requestHeaders.
  destruct (safeMethod (call_method c)), (call_body c), (call_idempotencyKey c); by vm_compute.
Qed.

(** ** A run *)

Definition notSignedIn : HttpResponse :=
  mkResponse 401 (Some (js "application/json")) None (Some (JObj [])) None.
(** Two sign-in checks queue up; the user changes the password before they are answered. *)
Definition sampleRun1 : Client := startNext (request (userCall roleDefinitions) (request (authCall me) initialClient)).
Definition sampleRun2 : Client := request (authCall (changePassword (js "old") (js "new"))) sampleRun1.

Lemma sampleRun1_reachable : clientReachable sampleRun1.
Proof.
  eapply rtc_l; [apply (cs_request _ (authCall me))|].
  eapply rtc_l; [apply (cs_request _ (userCall roleDefinitions))|].
  eapply rtc_l; [apply cs_start|]. apply rtc_refl.
Qed.

(** Before the change the unanswered request would report an expired session. *)
Example sampleRun1_expires : cl_expired (fst (settle 1 (Some notSignedIn) sampleRun1)) = 1.
Proof. vm_compute. reflexivity. Qed.

Lemma serialized_one_at_a_time_witness : head (cl_queue sampleRun1) = Some 0%nat.
Proof.
  exact (proj2 (serialized_one_at_a_time sampleRun1 0 0 _ _ 0 0 sampleRun1_reachable
    eq_refl eq_refl eq_refl eq_refl)).
Defined.

Lemma stale_never_expires_witness :
  cl_expired (fst (settle 1 (Some notSignedIn) sampleRun2)) = cl_expired sampleRun2.
Proof.
  apply (stale_never_expires sampleRun1 sampleRun2 1 (userCall roleDefinitions) 0);
    [exact sampleRun1_reachable|reflexivity| |reflexivity|left; reflexivity].
  eapply rtc_l; [apply cs_request|]. apply rtc_refl.
Defined.

Lemma transitions_exact_witness : cl_transitions sampleRun1 = 0.
Proof. rewrite (proj1 (transitions_exact sampleRun1 sampleRun1_reachable)). vm_compute. reflexivity. Defined.
