(* ===== verification/JsNumber.v ===== *)
(** * JavaScript numbers

    A Number is an IEEE 754 binary64 value; the operations are those of the Standard Library's
    executable specification of floating point, correctly rounded to nearest, ties to even. *)
From Stdlib Require Import SpecFloat.
From S2P Require Import Prelude JsString.

Abbreviation num := spec_float.

Definition numAdd (x y : num) : num := SFadd 53 1024 x y.
Definition numMul (x y : num) : num := SFmul 53 1024 x y.
Definition numDiv (x y : num) : num := SFdiv 53 1024 x y.
Definition numLeb (x y : num) : bool := SFleb x y.
Definition numOfZ (n : Z) : num := binary_normalize 53 1024 n 0 false.

(** [Boolean(x)]: every number but the zeros and [NaN]. *)
Definition numTruthy (x : num) : bool :=
  match x with S754_zero _ | S754_nan => false | _ => true end.

(** [cond_Zopp]'s value of a signed mantissa. *)
Definition signed (s : bool) (m : positive) : Z := if s then Z.neg m else Z.pos m.

(** [Math.round]: the integer nearest to the exact value, ties towards positive infinity; a
    value that rounds to zero keeps its sign. *)
Definition roundHalfUp (s : bool) (m : positive) (k : Z) : Z := (2 * signed s m + 2 ^ k) / 2 ^ (k + 1).
Definition mathRound (x : num) : num :=
  match x with
  | S754_finite s m e =>
    if 0 <=? e then x else
    let n := roundHalfUp s m (- e) in
    if n =? 0 then S754_zero s else numOfZ n
  | _ => x
  end.

(** The exact value of [m * 2^-k] lies within half of its rounding, below the tie above. *)
Lemma roundHalfUp_spec s m k : 0 <= k →
  2 * signed s m - 2 ^ k < 2 * roundHalfUp s m k * 2 ^ k <= 2 * signed s m + 2 ^ k.
Proof.
  intros Hk. unfold roundHalfUp. rewrite Z.pow_add_r, Z.pow_1_r by lia.
  pose proof (Z.pow_pos_nonneg 2 k) as Hp.
  pose proof (Z.div_mod (2 * signed s m + 2 ^ k) (2 ^ k * 2)) as Hd.
  pose proof (Z.mod_pos_bound (2 * signed s m + 2 ^ k) (2 ^ k * 2)) as Hb. nia.
Qed.

Example round_ex : mathRound (numDiv (numOfZ 5) (numOfZ 2)) = numOfZ 3
  ∧ mathRound (numDiv (numOfZ (-5)) (numOfZ 2)) = numOfZ (-2)
  ∧ mathRound (numDiv (numOfZ (-1)) (numOfZ 2)) = S754_zero true.
Proof. repeat split; reflexivity. Qed.

(** ** Decimal text *)

(** The binary64 number nearest to [n * 10^-places], for [n] not negative. *)
Definition decimalNumber (n places : Z) : num :=
  match n with
  | Zpos p =>
    if places <=? 0 then numOfZ (n * pow10 (Z.to_nat (- places)))
    else match pow10 (Z.to_nat places) with
         | Zpos q => SFdiv 53 1024 (S754_finite false p 0) (S754_finite false q 0)
         | _ => S754_nan
         end
  | _ => S754_zero false
  end.

(** [Number(s)] of an unsigned decimal numeral without exponent; white space around it is
    ignored. *)
Definition numberOfText (s : str) : num :=
  match split cDot (trim s) with
  | [w] => decimalNumber (bigOfDigits w) 0
  | [w; f] => decimalNumber (bigOfDigits (w ++ f)) (Z.of_nat (length f))
  | _ => S754_nan
  end.

(** The decimal exponent of [p/q]: [10^(n-1) <= p/q < 10^n]. *)
Fixpoint leadingZeros (fuel : nat) (p q : Z) : Z :=
  match fuel with
  | O => 0
  | S f => if q <=? p * 10 then 0 else 1 + leadingZeros f (p * 10) q
  end.
Definition decimalExponent (p q : Z) : Z :=
  if q <=? p then Z.of_nat (length (printNat (p / q))) else - leadingZeros 330 p q.
(** The integer nearest to [p/q * 10^j]. *)
Definition scaledNearest (p q j : Z) : Z :=
  let '(p, q) := if 0 <=? j then (p * pow10 (Z.to_nat j), q) else (p, q * pow10 (Z.to_nat (- j))) in
  (2 * p + q) / (2 * q).
(** The shortest digits that read back as [x]: at least [k] digits, at most [k + fuel]. *)
Fixpoint shortest (fuel : nat) (x : num) (p q n k : Z) : Z * Z :=
  let s := scaledNearest p q (k - n) in
  match fuel with
  | O => (s, k - n)
  | S f => if SFeqb (decimalNumber s (k - n)) x then (s, k - n) else shortest f x p q n (k + 1)
  end.
(** The layout of [Number.prototype.toString]: digits and the position of the point. *)
Definition layout (ds : str) (n : Z) : str :=
  let k := Z.of_nat (length ds) in
  if (k <=? n) && (n <=? 21) then padEnd (Z.to_nat n) cZero ds
  else if (0 <? n) && (n <=? 21) then take (Z.to_nat n) ds ++ cDot :: drop (Z.to_nat n) ds
  else if (-6 <? n) && (n <=? 0) then cZero :: cDot :: replicate (Z.to_nat (- n)) cZero ++ ds
  else let e := n - 1 in
       withFraction (take 1 ds) (drop 1 ds) ++ [101%N] ++ (if e <? 0 then [] else [cPlus]) ++ printZ e.
(** [String(x)] *)
Definition numberText (x : num) : str :=
  match x with
  | S754_zero _ => js "0"
  | S754_infinity s => if s then js "-Infinity" else js "Infinity"
  | S754_nan => js "NaN"
  | S754_finite s m e =>
    let p := if 0 <=? e then Zpos m * 2 ^ e else Zpos m in
    let q := if 0 <=? e then 1 else 2 ^ (- e) in
    let '(digits, places) := shortest 16 (S754_finite false m e) p q (decimalExponent p q) 1 in
    let ds := printNat digits in
    (if s then [cMinus] else [])
      ++ layout (stripZeros ds) (Z.of_nat (length ds) - places)
  end.

Example number_ex : numberOfText (js "0.1") = S754_finite false 7205759403792794 (-56)
  ∧ numberText (numDiv (numOfZ 1) (numOfZ 3)) = js "0.3333333333333333"
  ∧ map numberText [numberOfText (js "12450.5"); numOfZ 783; numAdd (numberOfText (js "0.1")) (numberOfText (js "0.2"));
       numOfZ (10 ^ 21); numDiv (numOfZ (-1)) (numOfZ 10000000)]
    = [js "12450.5"; js "783"; js "0.30000000000000004"; js "1e+21"; js "-1e-7"].
Proof. vm_compute. repeat split. Qed.

(** ** Signed numerals *)

(** A decimal literal: digits with an optional point, at least one digit, an optional exponent. *)
Definition exponentOf (s : str) : option Z :=
  match s with
  | c :: r => if N.eqb c cMinus then (if digits1 r then Some (- bigOfDigits r) else None)
              else if N.eqb c cPlus then (if digits1 r then Some (bigOfDigits r) else None)
              else if digits1 s then Some (bigOfDigits s) else None
  | [] => None
  end.
Definition mantissaNumber (s : str) (exponent : Z) : num :=
  match split cDot s with
  | [w] => if digits1 w then decimalNumber (bigOfDigits w) (- exponent) else S754_nan
  | [w; f] => if digits1 (w ++ f) then decimalNumber (bigOfDigits (w ++ f)) (Z.of_nat (length f) - exponent) else S754_nan
  | _ => S754_nan
  end.
Definition unsignedNumber (s : str) : num :=
  if streq s (js "Infinity") then S754_infinity false else
  match split 101 (map (λ c, if N.eqb c 69 then 101%N else c) s) with
  | [m] => mantissaNumber m 0
  | [m; x] => match exponentOf x with Some e => mantissaNumber m e | None => S754_nan end
  | _ => S754_nan
  end.
(** [Number(s)] of text without a radix prefix: blank text is zero, anything that is no decimal
    literal is [NaN]. *)
Definition numberOfInput (s : str) : num :=
  match trim s with
  | [] => S754_zero false
  | (c :: r) as t => if N.eqb c cMinus then SFopp (unsignedNumber r)
                   else if N.eqb c cPlus then unsignedNumber r else unsignedNumber t
  end.

Example input_ex : map (λ s, numberText (numberOfInput (js s))) [" 57137 "; "-2.50"; ".5"; "1.5e3"; "25E-1"; ""; "12a"; "Infinity"]%string
  = map js ["57137"; "-2.5"; "0.5"; "1500"; "2.5"; "0"; "NaN"; "Infinity"]%string.
Proof. vm_compute. reflexivity. Qed.

(** ** Whole numbers *)

Lemma digits2_bounds m : 2 ^ (Zpos (digits2_pos m) - 1) <= Zpos m < 2 ^ Zpos (digits2_pos m).
Proof.
  induction m as [m IH|m IH|]; cbn [digits2_pos]; [..|done].
  all: rewrite Pos2Z.inj_succ; replace (Z.succ (Zpos (digits2_pos m)) - 1) with (Z.succ (Zpos (digits2_pos m) - 1)) by lia;
    rewrite !Z.pow_succ_r by lia; lia.
Qed.
Lemma iter_double m k : Zpos (Pos.iter xO m k) = Zpos m * 2 ^ Zpos k ∧ Zpos (digits2_pos (Pos.iter xO m k)) = Zpos (digits2_pos m) + Zpos k.
Proof.
  induction k as [|k [IH1 IH2]] using Pos.peano_ind; [cbn; lia|]. rewrite Pos.iter_succ. cbn [digits2_pos].
  rewrite !Pos2Z.inj_succ, Z.pow_succ_r, IH2 by lia. rewrite (Pos2Z.inj_xO (Pos.iter xO m k)), IH1. lia.
Qed.
Lemma shr_fexp_exact mz e : Zdigits2 (Zpos mz) = 53 → -53 <= e <= 0 → shr_fexp 53 1024 (Zpos mz) e loc_Exact = (Build_shr_record (Zpos mz) false false, e).
Proof.
  intros Hd He. unfold shr_fexp, shr, fexp, emin. rewrite Hd.
  assert (Hz : Z.max (53 + e - 53) (3 - 1024 - 53) - e = 0) by lia. by rewrite Hz.
Qed.
(** Below 2^53 a whole number is itself: its digits, shifted to fill the mantissa. *)
Lemma numOfZ_exact m : Zpos m < 2 ^ 53 → ∃ mz k, numOfZ (Zpos m) = S754_finite false mz (- k) ∧ 0 <= k ∧ Zpos mz = Zpos m * 2 ^ k.
Proof.
  intros Hm. pose proof (digits2_bounds m) as [Hlo _].
  assert (Hd : Zpos (digits2_pos m) <= 53) by (destruct (Z.le_gt_cases (Zpos (digits2_pos m)) 53) as [?|Hg]; [lia|];
    pose proof (Z.pow_le_mono_r 2 53 (Zpos (digits2_pos m) - 1) ltac:(lia) ltac:(lia)); lia).
  unfold numOfZ, binary_normalize, binary_round, shl_align. rewrite Z.add_0_r.
  assert (Hf : fexp 53 1024 (Zpos (digits2_pos m)) - 0 = Zpos (digits2_pos m) - 53) by (unfold fexp, emin; lia). rewrite Hf.
  destruct (Zpos (digits2_pos m) - 53) as [|p|p] eqn:Ek; [|lia|].
  - exists m, 0. unfold binary_round_aux. assert (Hz : Zdigits2 (Zpos m) = 53) by (cbn [Zdigits2]; lia).
    rewrite (shr_fexp_exact m 0 Hz) by lia. cbn [shr_m loc_of_shr_record round_nearest_even]. rewrite (shr_fexp_exact m 0 Hz) by lia.
    cbn [shr_m]. split_and!; [reflexivity|lia|lia].
  - destruct (iter_double m p) as [H1 H2]. exists (Pos.iter xO m p), (Zpos p).
    assert (He : fexp 53 1024 (Zpos (digits2_pos m)) = Zneg p) by (unfold fexp, emin in *; lia). rewrite He.
    unfold binary_round_aux. pose proof (Pos2Z.is_pos (digits2_pos m)).
    assert (Hz : Zdigits2 (Zpos (Pos.iter xO m p)) = 53) by (cbn [Zdigits2]; lia).
    rewrite (shr_fexp_exact _ (Zneg p) Hz) by lia. cbn [shr_m loc_of_shr_record round_nearest_even].
    rewrite (shr_fexp_exact _ (Zneg p) Hz) by lia. cbn [shr_m]. split_and!; [|lia|exact H1].
    rewrite (proj2 (Z.leb_le _ _)) by lia. done.
Qed.
(** [Number(String(n))] *)
Lemma numberOfInput_printNat n : 0 <= n → numberOfInput (printNat n) = match n with Zpos _ => numOfZ n | _ => S754_zero false end.
Proof.
  intros Hn. pose proof (printNat_digits n Hn) as Hd. pose proof (printNat_digits1 n Hn) as Hd1. unfold numberOfInput.
  rewrite trim_noWs by by apply noWs_digits. destruct (printNat n) as [|c r] eqn:Ep; [done|].
  assert (Hc : ∀ x, isDigit x = false → x ∉ c :: r) by (intros x Hx; by apply allDigits_not_in).
  assert (Hne : ∀ x, isDigit x = false → N.eqb c x = false).
  { intros x Hx. apply N.eqb_neq. intros ->. apply (Hc x Hx). left. }
  rewrite !Hne by done. unfold unsignedNumber. rewrite (proj2 (streq_false _ _)).
  - assert (Hmap : map (λ x, if N.eqb x 69 then 101%N else x) (c :: r) = c :: r).
    { rewrite (map_ext_in _ id); [apply map_id|]. intros x Hx%list_elem_of_In. destruct (N.eqb_spec x 69) as [->|]; [|done].
      by destruct (Hc 69%N eq_refl). }
    rewrite Hmap, split_none by by apply Hc. unfold mantissaNumber. rewrite split_none by by apply Hc. rewrite Hd1, <- Ep, printNat_val by done.
    unfold decimalNumber. destruct n; [done| |done]. cbn [Z.opp Z.leb Z.compare Z.to_nat]. by rewrite Z.mul_1_r.
  - intros He. apply (Hc 73%N eq_refl). rewrite He. vm_compute. left.
Qed.
