(* ===== verification/Sentry.v ===== *)
(** * Error reports without secrets (frontend/src/lib/sentry.ts)

    What leaves the browser when an error is reported: [redactValue] over the objects of an
    event, which may be shared and may be cyclic, and the configuration that starts the reports. *)
From S2P Require Import Prelude JsString JsRegExp JsNumber Json Codec Host.

Definition REDACTED : str := js "[REDACTED]".

(** ** The patterns *)

Definition oneOf (s : string) (c : N) : bool := existsb (N.eqb c) (js s).
Definition alnum (c : N) : bool := isDigit c || isAlphaAscii c.
(** [(?:password|...|headers?|...)], with the [i] flag. *)
Definition SENSITIVE_WORDS : list string :=
  ["password"; "passcode"; "token"; "secret"; "authorization"; "headers"; "header"; "cookie"; "mfa"; "otp"; "recovery";
   "email"; "phone"; "address"; "payment"; "card"; "evidence"]%string.
Definition SENSITIVE_KEY : re :=
  foldr (λ w r, rAlt (rText foldEq (js w)) r) (rText foldEq (js "query_string")) SENSITIVE_WORDS.
Definition localUnit (c : N) : bool := alnum c || oneOf "._%+-" c.
Definition domainUnit (c : N) : bool := alnum c || oneOf ".-" c.
(** [\b[A-Z0-9._%+-]+@[A-Z0-9.-]+\.[A-Z]{2,}\b], [i] *)
Definition emailBody : re :=
  rSeq (rPlus localUnit) (rSeq (rChar (N.eqb 64)) (rSeq (rPlus domainUnit)
    (rSeq (rChar (N.eqb cDot)) (rSeq (rChar isAlphaAscii) (rPlus isAlphaAscii))))).
Definition EMAIL_VALUE : re := delimited emailBody.
(** [\bBearer\s+\S+], [i] *)
Definition notWs (c : N) : bool := negb (isWs c).
Definition BEARER_VALUE : re :=
  rSeq rWord (rSeq (rText foldEq (js "Bearer")) (rSeq (rPlus isWs) (rPlus notWs))).
(** [\beyJ[A-Za-z0-9_-]*\.[A-Za-z0-9_-]+\.[A-Za-z0-9_-]+\b] *)
Definition tokenUnit (c : N) : bool := isWord c || N.eqb c cMinus.
Definition jwtBody : re :=
  rSeq (rText N.eqb (js "eyJ")) (rSeq (rStar tokenUnit) (rSeq (rChar (N.eqb cDot)) (rSeq (rPlus tokenUnit)
    (rSeq (rChar (N.eqb cDot)) (rPlus tokenUnit))))).
Definition JWT_VALUE : re := delimited jwtBody.
(** [[?#].*$]: [.] is no line terminator. *)
Definition lineTerminator (c : N) : bool := existsb (N.eqb c) [10; 13; 8232; 8233]%N.
Definition QUERY : re := rSeq (rChar (oneOf "?#")) (rSeq (rStar (λ c, negb (lineTerminator c))) rEnd).

(** ** Values *)

(** What an event is made of: [v_ref] is an object of the heap. *)
Inductive value :=
| v_undefined | v_null | v_bool (b : bool) | v_number (n : num) | v_string (s : str)
| v_opaque (id : N) (** a function, a symbol, a bigint *)
| v_ref (l : N).
(** An object as [Object.entries] and [map] see it. *)
Inductive object := o_array (items : list value) | o_record (entries : list (str * value)).
Definition Heap : Type := gmap N object.
(** The objects [redactValue] builds: fresh ones, so a tree. *)
Inductive out := out_value (v : value) | out_array (items : list out) | out_record (entries : list (str * out)).
Definition out_string (s : str) : out := out_value (v_string s).

Section Redaction.
Context `{Host}.

Definition redactString (value key : str) : str :=
  let withoutSecrets :=
    replaceAll JWT_VALUE REDACTED
      (replaceAll BEARER_VALUE (js "Bearer [REDACTED]") (replaceAll EMAIL_VALUE (js "[REDACTED_EMAIL]") value)) in
  if streq (toLowerCase key) (js "url") then replaceFirst QUERY [] None withoutSecrets else withoutSecrets.

(** [Array.map] and [forEach], threading the set of visited objects. *)
Fixpoint mapSeen {A B S} (f : A → S → option (B * S)) (l : list A) (seen : S) : option (list B * S) :=
  match l with
  | [] => Some ([], seen)
  | x :: l => '(y, seen) ← f x seen; '(ys, seen) ← mapSeen f l seen; Some (y :: ys, seen)
  end.
(** [redacted[key] = value] on an object literal: [__proto__] is a setter there, not a member. *)
Definition assignMember (m : list (str * out)) (e : str * out) : list (str * out) :=
  if streq e.1 (js "__proto__") then m else mset e.1 e.2 m.

(** [seen] is the [WeakSet]; [None] is a recursion deeper than [fuel]. *)
Fixpoint redactValue (fuel : nat) (heap : Heap) (v : value) (key : str) (seen : gset N) : option (out * gset N) :=
  if test SENSITIVE_KEY key then Some (out_string REDACTED, seen) else
  match v with
  | v_string s => Some (out_string (redactString s key), seen)
  | v_ref l =>
      if decide (l ∈ seen) then Some (out_string REDACTED, seen) else
      match fuel with
      | O => None
      | S fuel =>
          let seen := {[l]} ∪ seen in
          match heap !! l with
          | Some (o_array items) =>
              '(outs, seen) ← mapSeen (λ item, redactValue fuel heap item []) items seen;
              Some (out_array outs, seen)
          | Some (o_record entries) =>
              '(outs, seen) ← mapSeen (λ e seen, '(o, seen) ← redactValue fuel heap e.2 e.1 seen; Some ((e.1, o), seen))
                                entries seen;
              Some (out_record (foldl assignMember [] outs), seen)
          | None => None
          end
      end
  | _ => Some (out_value v, seen)
  end.
Definition redact (heap : Heap) (v : value) : option out := fst <$> redactValue (size heap) heap v [] ∅.

(** [redacted.user = undefined] *)
Definition redactSentryEvent (heap : Heap) (event : value) : option (list (str * out)) :=
  o ← redact heap event;
  match o with out_record entries => Some (mset (js "user") (out_value v_undefined) entries) | _ => None end.
Definition redactSentryBreadcrumb (heap : Heap) (breadcrumb : value) : option out := redact heap breadcrumb.

(** ** The configuration *)

(** [new URL(text)]: [None] when it throws. *)
Record ParsedUrl := mkParsedUrl { url_protocol : str; url_username : str; url_hostname : str; url_pathname : str }.
Context (parseUrl : str → option ParsedUrl).
Record SentryConfig := mkSentryConfig { sc_dsn : str; sc_environment : str; sc_release : str }.

Definition textMember (k : string) (j : json) : option str :=
  match jget (js k) j with Some (JStr s) => Some s | _ => None end.
Definition parseRuntimeConfig (value : json) : option SentryConfig :=
  match value with
  | JObj _ =>
      match jget (js "sentry") value with
      | Some (JObj sentry) =>
          dsn ← textMember "dsn" (JObj sentry); environment ← textMember "environment" (JObj sentry);
          release ← textMember "release" (JObj sentry);
          let normalized := mkSentryConfig (trim dsn) (trim environment) (trim release) in
          if isEmpty (sc_dsn normalized) then Some normalized else
          if isEmpty (sc_environment normalized) || isEmpty (sc_release normalized) then None else
          parsedDsn ← parseUrl (sc_dsn normalized);
          if negb (streq (url_protocol parsedDsn) (js "https:")) || isEmpty (url_username parsedDsn)
             || isEmpty (url_hostname parsedDsn) || streq (url_pathname parsedDsn) (js "/")
          then None else Some normalized
      | _ => None (* an array of the answer has no text members *)
      end
  | _ => None
  end.

(** What the configuration request comes to: it fails or is aborted, or is answered with a
    status, a content type and a body, [None] when it is not JSON. *)
Record ConfigAnswer := mkConfigAnswer { ca_status : Z; ca_contentType : option str; ca_body : option json }.
(** The configuration the reports are started with. *)
Definition initializeFrontendMonitoring (answer : option ConfigAnswer) : option SentryConfig :=
  response ← answer;
  if negb ((200 <=? ca_status response) && (ca_status response <? 300))
     || negb (includes (js "application/json") (default [] (toLowerCase <$> ca_contentType response))) then None else
  body ← ca_body response; runtimeConfig ← parseRuntimeConfig body;
  if isEmpty (sc_dsn runtimeConfig) then None else Some runtimeConfig.
End Redaction.

(** ** Lemmas: the patterns *)

(** Case folding only identifies letters. *)
Lemma foldEq_letters c d : foldEq c d = true → c = d ∨ (isAlphaAscii c = true ∧ isAlphaAscii d = true).
Proof.
  unfold foldEq, lowerUnit, isAlphaAscii. rewrite !orb_true_iff, !andb_true_iff, !N.leb_le.
  destruct (N.leb_spec 65 c), (N.leb_spec c 90), (N.leb_spec 65 d), (N.leb_spec d 90); cbn; rewrite N.eqb_eq; lia.
Qed.
Lemma letter_facts c : isAlphaAscii c = true → isWord c = true ∧ isWs c = false.
Proof.
  intros Hc. split; [unfold isWord; rewrite Hc; by rewrite orb_true_r|].
  unfold isAlphaAscii in Hc. rewrite orb_true_iff, !andb_true_iff, !N.leb_le in Hc.
  unfold isWs. repeat (apply orb_false_iff; split); try apply andb_false_iff; rewrite ?N.eqb_neq, ?N.leb_gt; lia.
Qed.
Lemma oneOf_letter s c : forallb (λ x, negb (isAlphaAscii x)) (js s) = true → isAlphaAscii c = true → oneOf s c = false.
Proof.
  intros Hs Hc. apply existsb_false. intros x Hx. apply N.eqb_neq. intros ->.
  rewrite forallb_true in Hs. apply Hs in Hx. by rewrite Hc in Hx.
Qed.
(** A class with all letters or none cannot tell folded code units apart. *)
Lemma class_fold (p : N → bool) b c d : (∀ x, isAlphaAscii x = true → p x = b) → foldEq c d = true → p c = p d.
Proof. intros Hp [->|[Hc Hd]]%foldEq_letters; [done|]. by rewrite !Hp. Qed.
Lemma localUnit_letter c : isAlphaAscii c = true → localUnit c = true.
Proof. unfold localUnit, alnum. by intros ->; rewrite orb_true_r. Qed.
Lemma domainUnit_letter c : isAlphaAscii c = true → domainUnit c = true.
Proof. unfold domainUnit, alnum. by intros ->; rewrite orb_true_r. Qed.
Lemma eqb_letter x c : isAlphaAscii x = false → isAlphaAscii c = true → N.eqb x c = false.
Proof. intros Hx Hc. apply N.eqb_neq. intros ->. congruence. Qed.

Definition foldSame (c d : N) : Prop := foldEq c d = true.
Lemma foldSame_word c d : foldSame c d → isWord c = isWord d.
Proof. apply (class_fold isWord true). intros x Hx. by apply letter_facts. Qed.
Lemma foldSame_refl c : foldSame c c.
Proof. apply N.eqb_refl. Qed.
Lemma email_pure : pureFor foldSame emailBody.
Proof.
  unfold emailBody, rPlus. cbn [pureFor].
  split_and!; intros c d; try (apply (class_fold _ true); by auto using localUnit_letter, domainUnit_letter);
    apply (class_fold _ false); intros x; by apply eqb_letter.
Qed.
Definition emailUnit (c : N) : bool := localUnit c || N.eqb 64 c.
Lemma domain_local c : domainUnit c = true → localUnit c = true.
Proof.
  unfold domainUnit, localUnit. rewrite !orb_true_iff. intros [Hc|Hc]; [by left|right].
  apply existsb_true in Hc as (x & Hx & Hc). apply existsb_true. exists x. split; [|done].
  assert (Hf : Forall (λ y, y ∈ js "._%+-") (js ".-")) by (apply (bool_decide_unpack _), I).
  by apply (Forall_forall _ _) with x in Hf.
Qed.
Lemma email_within : within emailUnit emailBody.
Proof.
  assert (Hl : ∀ c, localUnit c = true → emailUnit c = true) by (intros c Hc; unfold emailUnit; by rewrite Hc).
  assert (Ha : ∀ c, isAlphaAscii c = true → emailUnit c = true) by auto using localUnit_letter.
  unfold emailBody, rPlus. cbn [within]. split_and!; auto using domain_local.
  - intros c Hc. unfold emailUnit. by rewrite Hc, orb_true_r.
  - by intros c <-%N.eqb_eq.
Qed.
Lemma email_needs : needs (N.eqb 64) emailBody.
Proof. cbn. auto. Qed.
Definition jwtUnit (c : N) : bool := tokenUnit c || N.eqb cDot c.
Lemma jwt_within : within jwtUnit jwtBody.
Proof.
  unfold jwtBody, rPlus. change (js "eyJ") with [101; 121; 74]%N. cbn [within rText].
  split_and!; try done; intros c Hc; unfold jwtUnit; try (by rewrite Hc, ?orb_true_r); by apply N.eqb_eq in Hc as <-.
Qed.
Lemma jwt_needs : needs (N.eqb cDot) jwtBody.
Proof. cbn [jwtBody needs]. right. right. left. auto. Qed.

(** ** Lemmas: replacing *)

(** A delimited pattern replaced by a bracketed text: what was replaced is gone, and what the
    source was free of stays away. *)
Lemma bracketed_hit body body' text prev s prev' rest out : exec (delimited body) prev s = Some (prev', rest) →
  splits eq body' text prev' rest out → splits eq body' text prev s (text ++ out).
Proof.
  intros (m & -> & (Hl & _ & Hr)%mt_delimited & ->)%exec_Some Hs.
  apply sp_hit; [by left|by left|done].
Qed.
Lemma delimited_nonempty body cls prev m rest : needs cls body → mt (delimited body) prev m rest → m ≠ [].
Proof. intros Hn (_ & Hb & _)%mt_delimited. destruct (mt_needs _ _ _ _ _ Hb Hn) as (c & Hc & _). by intros ->; apply elem_of_nil in Hc. Qed.

Lemma replace_free body cls must rbody rmust text (I : option N → str → Prop) s :
  assertionFree body = true → within cls body → needs must body → needs rmust rbody →
  head text = Some 91%N → last text = Some 93%N → cls 91%N = false → cls 93%N = false →
  forallb (λ c, negb (must c)) text = true →
  (∀ prev m rest, I prev (m ++ rest) → I (after prev m) rest) →
  (∀ prev c s, I prev (c :: s) → exec (delimited rbody) prev (c :: s) = None → noMatch (delimited body) prev (c :: s)) →
  I None s → free (delimited body) None (replaceAll (delimited rbody) text s).
Proof.
  intros Hfree Hw Hn Hrn Hh Hl H91 H93 Hmust HI Hskip Hs. rewrite forallb_true in Hmust.
  apply (splits_free eq ltac:(by intros ? ? ->) body cls must text (pure_eq body Hfree) Hw Hn 91 93 Hh Hl H91 H93 eq_refl eq_refl
    ltac:(intros c Hc; by apply negb_true_iff, Hmust)) with None s; [|by left].
  apply (replaceGo_splits eq body text (delimited rbody) text I); auto.
  - intros prev m rest. by apply delimited_nonempty with rmust.
  - intros prev s' prev' rest out _. apply bracketed_hit.
Qed.
Lemma email_removed s : free EMAIL_VALUE None (replaceAll EMAIL_VALUE (js "[REDACTED_EMAIL]") s).
Proof.
  apply (replace_free _ emailUnit (N.eqb 64) _ (N.eqb 64) _ (λ _ _, True)); try done; try apply email_within; try apply email_needs.
  intros prev c s' _ He m b. by apply (exec_None _ _ _ He).
Qed.
Lemma jwt_removed s : free JWT_VALUE None (replaceAll JWT_VALUE REDACTED s).
Proof.
  apply (replace_free _ jwtUnit (N.eqb cDot) _ (N.eqb cDot) _ (λ _ _, True)); try done; try apply jwt_within; try apply jwt_needs.
  intros prev c s' _ He m b. by apply (exec_None _ _ _ He).
Qed.
Lemma jwt_keeps_email s : free EMAIL_VALUE None s → free EMAIL_VALUE None (replaceAll JWT_VALUE REDACTED s).
Proof.
  intros Hs. apply (replace_free _ emailUnit (N.eqb 64) _ (N.eqb cDot) _ (free EMAIL_VALUE)); try done;
    try apply email_within; try apply email_needs; try apply jwt_needs; [intros ? ? ?; apply free_app|].
  intros prev c s' Hf _. by apply free_here.
Qed.

(** A bearer token is kept up to the letters of [Bearer], of whatever case. *)
Lemma rText_fold t prev m rest : mt (rText foldEq t) prev m rest → Forall2 foldSame m t.
Proof.
  revert prev m. induction t as [|c t IH]; intros prev m Hm; inversion Hm; subst; [constructor|].
  match goal with H : mt (rChar _) _ _ _ |- _ => inversion H; subst end. constructor; [|by eapply IH].
  unfold foldSame, foldEq in *. by rewrite N.eqb_sym.
Qed.
Lemma rstar_longest p prev s prev' rest : rstar p prev s (λ prev rest, Some (prev, rest)) = Some (prev', rest) →
  match head rest with Some c => p c = false | None => True end.
Proof.
  revert prev. induction s as [|c s IH]; intros prev; simpl; [by intros [= _ <-]|].
  destruct (p c) eqn:Hc; [|by intros [= _ <-]]. destruct (rstar p (Some c) s _) as [[]|] eqn:E.
  - intros [= -> ->]. by eapply IH.
  - destruct (rstar_complete p (Some c) [] s (λ prev rest, Some (prev, rest))) as [y Hy]; [by intros ? ?%elem_of_nil|by eexists|].
    simpl in Hy. congruence.
Qed.
Lemma bearer_exec prev s prev' rest : exec BEARER_VALUE prev s = Some (prev', rest) →
  ∃ m1 m2, s = m1 ++ m2 ++ rest ∧ Forall2 foldSame m1 (js "Bearer") ∧ prev' = after prev (m1 ++ m2) ∧
    wordAt (head (m2 ++ rest)) = false ∧ wordAt (head rest) = false.
Proof.
  unfold exec, BEARER_VALUE, rPlus. cbn [rmatch]. destruct (boundary prev s); [|done].
  intros (m1 & s1 & -> & Hm1%rText_fold & Hk)%rmatch_sound. destruct s1 as [|w s1]; [done|].
  destruct (isWs w) eqn:Hw; [|done]. apply rstar_sound in Hk as (m2 & s2 & -> & _ & Hk).
  destruct s2 as [|c s2]; [done|]. destruct (notWs c); [|done].
  pose proof (rstar_longest _ _ _ _ _ Hk) as Hlong. apply rstar_sound in Hk as (m3 & s3 & -> & _ & [= <- ->]).
  assert (Hws : ∀ x, isWs x = true → isWord x = false).
  { intros x Hx. destruct (isWord x) eqn:E; [|done]. unfold isWord, isDigit, isAlphaAscii in E.
    rewrite !orb_true_iff, !andb_true_iff, !N.leb_le, N.eqb_eq in E. exfalso. revert Hx. apply not_true_iff_false.
    unfold isWs. repeat (apply orb_false_iff; split); try apply andb_false_iff; rewrite ?N.eqb_neq, ?N.leb_gt; lia. }
  exists m1, (w :: m2 ++ c :: m3). split_and!; [by simpl; rewrite <- app_assoc|done|by rewrite !after_app; simpl; rewrite after_app| |].
  - simpl. by apply Hws.
  - destruct rest as [|x rest]; [done|]. simpl in *. apply Hws. unfold notWs in Hlong. by apply negb_false_iff in Hlong.
Qed.
Lemma bearer_nonempty prev m rest : mt BEARER_VALUE prev m rest → m ≠ [].
Proof.
  intros Hm. destruct (mt_needs notWs _ _ _ _ Hm) as (c & Hc & _); [|by intros ->; apply elem_of_nil in Hc].
  unfold BEARER_VALUE, rPlus. cbn [needs]. right. right. right. by left.
Qed.
Lemma bearer_keeps_email s : free EMAIL_VALUE None s →
  free EMAIL_VALUE None (replaceAll BEARER_VALUE (js "Bearer [REDACTED]") s).
Proof.
  intros Hs. apply (splits_free foldSame foldSame_word emailBody emailUnit (N.eqb 64) (js " [REDACTED]") email_pure
    email_within email_needs 32 93 eq_refl eq_refl eq_refl eq_refl eq_refl eq_refl) with None s; [|..|by left].
  - intros c Hc. apply negb_true_iff. revert c Hc. by apply (forallb_true (λ c, negb (N.eqb 64 c))).
  - apply (replaceGo_splits foldSame emailBody _ BEARER_VALUE _ (free EMAIL_VALUE)); try done.
    + apply bearer_nonempty.
    + intros c. apply foldSame_refl.
    + intros prev m rest. apply free_app.
    + intros prev c s' Hf _. by apply free_here.
    + intros prev s' prev' rest out Hf (m1 & m2 & -> & Hm1 & -> & H1 & H2)%bearer_exec Hsplit.
      change (js "Bearer [REDACTED]") with (js "Bearer" ++ js " [REDACTED]"). rewrite <- app_assoc.
      apply splits_skips; [done|done|]. apply sp_hit; [by right|by right|]. by rewrite <- after_app.
Qed.

Lemma query_exec prev s prev' rest : exec QUERY prev s = Some (prev', rest) →
  ∃ c v, s = c :: v ∧ oneOf "?#" c = true ∧ (∀ x, x ∈ v → lineTerminator x = false) ∧ rest = [].
Proof.
  unfold exec, QUERY. cbn [rmatch]. destruct s as [|c v]; [done|]. destruct (oneOf "?#" c) eqn:Hc; [|done].
  intros (m & s' & -> & Hm & Hk)%rstar_sound. destruct s' as [|? ?]; [|done]. injection Hk as _ <-.
  exists c, m. split_and!; [by rewrite app_nil_r|done| |done]. intros x Hx. by apply negb_true_iff, Hm.
Qed.
Lemma cut_query prev s : replaceFirst QUERY [] prev s = s ∨ ∃ u c v, s = u ++ c :: v ∧ oneOf "?#" c = true ∧
  (∀ x, x ∈ v → lineTerminator x = false) ∧ replaceFirst QUERY [] prev s = u.
Proof.
  revert prev. induction s as [|c s IH]; intros prev; cbn [replaceFirst]; destruct (exec QUERY prev _) as [[p rest]|] eqn:E.
  - by apply query_exec in E as (? & ? & ? & _).
  - by left.
  - apply query_exec in E as (x & v & [= <- <-] & Hx & Hv & ->). right. by exists [], c, s.
  - destruct (IH (Some c)) as [->|(u & x & v & -> & Hx & Hv & ->)]; [by left|right]. by exists (c :: u), x, v.
Qed.
Lemma cut_keeps body prev s : assertionFree body = true → free (delimited body) prev s →
  free (delimited body) prev (replaceFirst QUERY [] prev s).
Proof.
  intros Hb Hf. destruct (cut_query prev s) as [->|(u & c & v & -> & Hc & _ & ->)]; [done|].
  eapply free_cut; [|by apply pure_eq|done].
  apply existsb_true in Hc as (x & Hx & ->%N.eqb_eq). clear -Hx.
  assert (Hall : Forall (λ y, isWord y = false) (js "?#")) by (apply (bool_decide_unpack _), I).
  by apply (Forall_forall _ _) with x in Hall.
Qed.

Lemma queryUnit_line c : oneOf "?#" c = true → lineTerminator c = false.
Proof.
  intros (y & Hy & ->%N.eqb_eq)%existsb_true.
  assert (Hall : Forall (λ z, lineTerminator z = false) (js "?#")) by (apply (bool_decide_unpack _), I).
  by apply (Forall_forall _ _) with y in Hall.
Qed.
Lemma cut_line prev s : (∀ c, c ∈ replaceFirst QUERY [] prev s → lineTerminator c = false) → ∀ c, c ∈ s → lineTerminator c = false.
Proof.
  intros Ht c Hc. destruct (cut_query prev s) as [Hs|(u & x & v & -> & Hx & Hv & Hu)]; [apply Ht; by rewrite Hs|].
  apply elem_of_app in Hc as [Hc|[->|Hc]%elem_of_cons]; [apply Ht; by rewrite Hu|by apply queryUnit_line|by apply Hv].
Qed.
(** The query of an address is cut off: its last line keeps neither [?] nor [#]. *)
Lemma query_removed prev s u v : replaceFirst QUERY [] prev s = u ++ v → (∀ c, c ∈ v → lineTerminator c = false) →
  ∀ c, c ∈ v → oneOf "?#" c = false.
Proof.
  revert prev u v. induction s as [|c s IH]; intros prev u v; cbn [replaceFirst]; destruct (exec QUERY prev _) as [[p rest]|] eqn:E.
  - by apply query_exec in E as (? & ? & ? & _).
  - intros Hn. symmetry in Hn. apply app_eq_nil in Hn as [-> ->]. by intros _ x ?%elem_of_nil.
  - apply query_exec in E as (? & ? & _ & _ & _ & ->). cbn. intros Hn. symmetry in Hn. apply app_eq_nil in Hn as [-> ->].
    by intros _ z ?%elem_of_nil.
  - destruct u as [|d u]; cbn [app]; [|intros [= _ Hr]; by apply (IH _ _ _ Hr)]. intros <- Hv x [->|Hx]%elem_of_cons.
    + destruct (oneOf "?#" c) eqn:Hc; [exfalso|done]. apply (exec_None _ _ _ E (c :: s) []); [by rewrite app_nil_r|].
      apply (mt_seq _ _ _ [c] s []); [by constructor|]. rewrite <- (app_nil_r s). constructor; [|constructor].
      constructor. intros y Hy. apply negb_true_iff. eapply cut_line; [|exact Hy]. intros z Hz. apply Hv. right. exact Hz.
    + apply (IH (Some c) [] _ eq_refl); [|done]. intros z Hz. apply Hv. by right.
Qed.
Section Strings.
Context `{Host}.

(** Neither an e-mail address nor a signed token is left in a redacted string. *)
Lemma redactString_clean s key :
  test EMAIL_VALUE (redactString s key) = false ∧ test JWT_VALUE (redactString s key) = false.
Proof.
  set (t := replaceAll JWT_VALUE REDACTED
    (replaceAll BEARER_VALUE (js "Bearer [REDACTED]") (replaceAll EMAIL_VALUE (js "[REDACTED_EMAIL]") s))).
  assert (He : free EMAIL_VALUE None t) by (apply jwt_keeps_email, bearer_keeps_email, email_removed).
  assert (Hj : free JWT_VALUE None t) by apply jwt_removed.
  unfold redactString. fold t. destruct (streq _ _); split; apply test_free; auto; by apply cut_keeps.
Qed.

(** ** Redacting a graph of objects *)

(** What may leave the browser under a key: the mark of a removed value, a text without e-mail
    address or signed token - under [url] one whose last line has no query - or a structure of
    such values. *)
Inductive clean : str → out → Prop :=
| cl_redacted key : clean key (out_string REDACTED)
| cl_text key s : test SENSITIVE_KEY key = false → test EMAIL_VALUE s = false → test JWT_VALUE s = false →
    (streq (toLowerCase key) (js "url") = true → ∀ u v, s = u ++ v → (∀ c, c ∈ v → lineTerminator c = false) →
      ∀ c, c ∈ v → oneOf "?#" c = false) →
    clean key (out_string s)
| cl_primitive key v : test SENSITIVE_KEY key = false → (∀ s, v ≠ v_string s) → (∀ l, v ≠ v_ref l) → clean key (out_value v)
| cl_array key items : test SENSITIVE_KEY key = false → (∀ item, item ∈ items → clean [] item) → clean key (out_array items)
| cl_record key entries : test SENSITIVE_KEY key = false → (∀ e, e ∈ entries → clean e.1 e.2) → clean key (out_record entries).

Lemma clean_text key s : test SENSITIVE_KEY key = false → clean key (out_string (redactString s key)).
Proof.
  intros Hkey. destruct (redactString_clean s key) as [He Hj]. apply cl_text; [done..|]. intros Hurl.
  unfold redactString. rewrite Hurl. intros u v. apply query_removed.
Qed.

Definition valuesOf (o : object) : list value := match o with o_array items => items | o_record entries => entries.*2 end.
Definition validIn (heap : Heap) (v : value) : Prop := match v with v_ref l => is_Some (heap !! l) | _ => True end.
(** Every object an object refers to is one. *)
Definition closedHeap (heap : Heap) : Prop := ∀ l o, heap !! l = Some o → ∀ v, v ∈ valuesOf o → validIn heap v.

Definition unseen (heap : Heap) (seen : gset N) : nat := size (dom heap ∖ seen).
Lemma unseen_mono heap seen seen' : seen ⊆ seen' → (unseen heap seen' ≤ unseen heap seen)%nat.
Proof. intros Hs. apply subseteq_size. set_solver. Qed.
Lemma unseen_visit heap seen l o : heap !! l = Some o → l ∉ seen → (unseen heap ({[l]} ∪ seen) < unseen heap seen)%nat.
Proof.
  intros Hl Hs. apply subset_size. apply elem_of_dom_2 in Hl. split; [set_solver|].
  intros Hsub. assert (Hin : l ∈ dom heap ∖ seen) by set_solver. apply Hsub in Hin. set_solver.
Qed.

Lemma mapSeen_total {A B} heap n (f : A → gset N → option (B * gset N)) (P : A → B → Prop) l : ∀ seen,
  (∀ x seen, x ∈ l → (unseen heap seen ≤ n)%nat → ∃ y seen', f x seen = Some (y, seen') ∧ seen ⊆ seen' ∧ P x y) →
  (unseen heap seen ≤ n)%nat →
  ∃ ys seen', mapSeen f l seen = Some (ys, seen') ∧ seen ⊆ seen' ∧ Forall2 P l ys.
Proof.
  induction l as [|x l IH]; intros seen Hf Hn; cbn [mapSeen]; [by exists [], seen|].
  destruct (Hf x seen) as (y & seen1 & Hy & Hs1 & HP); [apply list_elem_of_here|done|].
  destruct (IH seen1) as (ys & seen2 & Hys & Hs2 & HF).
  - intros z s Hz. by apply Hf, list_elem_of_further.
  - etrans; [by apply unseen_mono|done].
  - rewrite Hy. cbn. rewrite Hys. cbn. exists (y :: ys), seen2. split_and!; [done|set_solver|by constructor].
Qed.

Lemma assignMembers_elem outs m e : e ∈ foldl assignMember m outs → e ∈ m ∨ e ∈ outs.
Proof.
  revert m. induction outs as [|[k o] outs IH]; intros m; simpl; [by left|].
  intros [Hm|Hin]%IH; [|right; by apply list_elem_of_further]. unfold assignMember in Hm. simpl in Hm.
  destruct (streq _ _); [by left|]. apply elem_of_mset in Hm as [->|Hm]; [right; apply list_elem_of_here|by left].
Qed.
Lemma assignMembers_keys outs m k : k ≠ js "__proto__" → k ∈ m.*1 ∨ k ∈ outs.*1 → k ∈ (foldl assignMember m outs).*1.
Proof.
  intros Hk. revert m. induction outs as [|[k' o] outs IH]; intros m; simpl; [intros [?|?%elem_of_nil]; done|].
  intros Hin. apply IH. unfold assignMember. simpl.
  destruct (streq k' (js "__proto__")) eqn:E; [apply streq_true in E as ->; set_solver|].
  rewrite mset_keys. case_decide; set_solver.
Qed.

Lemma redactValue_total heap (Hclosed : closedHeap heap) fuel : ∀ v key seen, validIn heap v →
  (unseen heap seen ≤ fuel)%nat →
  ∃ o seen', redactValue fuel heap v key seen = Some (o, seen') ∧ seen ⊆ seen' ∧ clean key o.
Proof.
  induction fuel as [|fuel IH]; intros v key seen Hv Hn; cbn [redactValue];
    (destruct (test SENSITIVE_KEY key) eqn:Hkey; [by eexists _, seen; split_and!; [done|done|constructor]|]);
    destruct v as [| |b|x|s|i|l]; try (by eexists _, seen; split_and!; [done|done|constructor]);
    try (by eexists _, seen; split_and!; [done|done|by apply clean_text]);
    (destruct (decide (l ∈ seen)) as [Hin|Hin]; [by eexists _, seen; split_and!; [done|done|constructor]|]);
    destruct Hv as [o Hl]; pose proof (unseen_visit heap seen l o Hl Hin) as Hlt; [lia|].
  rewrite Hl. destruct o as [items|entries].
  - destruct (mapSeen_total heap fuel (λ item, redactValue fuel heap item []) (λ _, clean []) items ({[l]} ∪ seen))
      as (outs & seen' & -> & Hs & HF); [|lia|].
    + intros x seen0 Hx Hseen. apply IH; [|done]. by apply (Hclosed _ _ Hl).
    + exists (out_array outs), seen'. split_and!; [done|set_solver|]. apply cl_array; [done|].
      intros item [i Hi]%list_elem_of_lookup. by destruct (Forall2_lookup_r _ _ _ _ _ HF Hi) as (x & _ & Hx).
  - destruct (mapSeen_total heap fuel (λ e seen, '(o, seen) ← redactValue fuel heap e.2 e.1 seen; Some ((e.1, o), seen))
      (λ e eo, eo.1 = e.1 ∧ clean eo.1 eo.2) entries ({[l]} ∪ seen)) as (outs & seen' & -> & Hs & HF); [|lia|].
    + intros e seen0 He Hseen. destruct (IH e.2 e.1 seen0) as (o & seen1 & -> & H1 & H2); [|done|].
      * apply (Hclosed _ _ Hl). by apply list_elem_of_fmap_2.
      * by exists (e.1, o), seen1.
    + eexists _, seen'. split_and!; [done|set_solver|]. apply cl_record; [done|]. intros e [?%elem_of_nil|[i Hi]%list_elem_of_lookup]%assignMembers_elem; [done|].
      destruct (Forall2_lookup_r _ _ _ _ _ HF Hi) as (x & _ & _ & Hx). done.
Qed.

Lemma mapSeen_keys {A B S} (f : A → S → option (B * S)) (g : A → str) (h : B → str) l : ∀ seen ys seen',
  (∀ x seen y seen', f x seen = Some (y, seen') → h y = g x) →
  mapSeen f l seen = Some (ys, seen') → map h ys = map g l.
Proof.
  induction l as [|x l IH]; intros seen ys seen' Hf; cbn [mapSeen]; [by intros [= <- <-]|].
  destruct (f x seen) as [[y s1]|] eqn:E; [|done]. cbn. destruct (mapSeen f l s1) as [[zs s2]|] eqn:E2; [|done].
  intros [= <- <-]. simpl. f_equal; [by eapply Hf|by eapply IH].
Qed.
Lemma redact_record heap fuel l entries o seen' : heap !! l = Some (o_record entries) →
  redactValue fuel heap (v_ref l) [] ∅ = Some (o, seen') →
  ∃ outs, o = out_record outs ∧ ∀ key, key ∈ entries.*1 → key ≠ js "__proto__" → key ∈ outs.*1.
Proof.
  intros Hl. destruct fuel as [|fuel]; [done|]. cbn [redactValue]. change (test SENSITIVE_KEY []) with false. cbn iota.
  destruct (decide (l ∈ ∅)) as [Hin|_]; [set_solver|]. rewrite Hl. destruct (mapSeen _ entries _) as [[outs s]|] eqn:E; [|done].
  intros [= <- <-]. eexists. split; [done|]. intros key Hin Hp. apply assignMembers_keys; [done|]. right.
  apply (mapSeen_keys _ fst fst) in E; [change (key ∈ map fst outs); by rewrite E|]. intros e s0 y s1. destruct (redactValue _ _ _ _ _) as [[? ?]|]; [|done].
  by intros [= <- _].
Qed.

(** C33. Redaction of an error report ends for every event, however its objects share or refer
    back to one another, and yields a report with the event's members and no user, in whose
    values, at any depth, a member whose name is sensitive is [[REDACTED]], no text contains an
    e-mail address or a signed token, and the last line of a text named [url] has no query.
    The names of members are reported as they are. *)
Theorem redacted_event_clean (heap : Heap) (l : N) (entries : list (str * value))
    (Hclosed : closedHeap heap) (Hevent : heap !! l = Some (o_record entries)) :
  ∃ report, redactSentryEvent heap (v_ref l) = Some report ∧
    mget (js "user") report = Some (out_value v_undefined) ∧
    (∀ key, key ∈ entries.*1 → key ≠ js "__proto__" → key ∈ report.*1) ∧
    ∀ key value, (key, value) ∈ report → clean key value.
Proof.
  destruct (redactValue_total heap Hclosed (size heap) (v_ref l) [] ∅) as (o & seen' & Ho & _ & Hc);
    [by exists (o_record entries)|unfold unseen; rewrite <- (size_dom (D:=gset N) heap); apply subseteq_size; set_solver|].
  unfold redactSentryEvent, redact. rewrite Ho. cbn.
  apply (redact_record _ _ _ entries) in Ho as (outs & -> & Hkeys); [|done]. inversion Hc as [| | | |key es Hkey Hes Hk He]; subst.
  eexists. split_and!; [done|by rewrite mget_mset_eq| |].
  - intros key Hin Hp. rewrite mset_keys. case_decide; [|apply elem_of_app; left]; by apply Hkeys.
  - intros key value [[= -> ->]|Hin]%elem_of_mset; [by apply cl_primitive|]. by apply (Hes (key, value)).
Qed.
End Strings.

#[local] Existing Instance asciiHost.
(** What stays: an e-mail address that is the name of a member, and a query on any but the last
    line of an address. *)
Example reported_as_it_is :
  redactSentryEvent (list_to_map [(0%N, o_record [(js "ada@ship.ng", v_bool true); (js "url", v_string (js "/a?token=1" ++ [10%N] ++ js "b?c"));
                                                  (js "message", v_string (js "/a?key=1"))])]) (v_ref 0) =
    Some [(js "ada@ship.ng", out_value (v_bool true)); (js "url", out_string (js "/a?token=1" ++ [10%N] ++ js "b"));
          (js "message", out_string (js "/a?key=1")); (js "user", out_value v_undefined)].
Proof. vm_compute. reflexivity. Qed.
(** An event that refers to itself, with a token in a message and an address in a header. *)
Definition cyclicEvent : Heap :=
  list_to_map [(0%N, o_record [(js "message", v_string (js "write to ada@ship.ng, Bearer abc.def")); (js "request", v_ref 1);
                               (js "user", v_string (js "u1"))]);
               (1%N, o_record [(js "url", v_string (js "https://x/y?token=1")); (js "headers", v_ref 0); (js "event", v_ref 0)])].
Lemma redacted_event_clean_witness :
  redactSentryEvent cyclicEvent (v_ref 0) =
    Some [(js "message", out_string (js "write to [REDACTED_EMAIL], Bearer [REDACTED]"));
          (js "request", out_record [(js "url", out_string (js "https://x/y")); (js "headers", out_string REDACTED);
                                     (js "event", out_string REDACTED)]);
          (js "user", out_value v_undefined)] ∧
  ∀ key value, (key, value) ∈ default [] (redactSentryEvent cyclicEvent (v_ref 0)) → clean key value.
Proof.
  split; [vm_compute; reflexivity|].
  destruct (redacted_event_clean cyclicEvent 0
    [(js "message", v_string (js "write to ada@ship.ng, Bearer abc.def")); (js "request", v_ref 1); (js "user", v_string (js "u1"))])
    as (report & -> & _ & _ & Hc); [|reflexivity|exact Hc].
  intros l o Hl v Hv. unfold cyclicEvent in Hl. apply elem_of_list_to_map_2 in Hl.
  rewrite !elem_of_cons in Hl. destruct Hl as [[= -> ->]|[[= -> ->]|Hl%elem_of_nil]]; [| |done];
    simpl in Hv; rewrite !elem_of_cons in Hv; destruct Hv as [->|[->|[->|Hv%elem_of_nil]]]; try done; by eexists.
Defined.
