(* ===== verification/AppTypes.v ===== *)
(** * The application's data (frontend/src/types.ts)

    One record per interface and one inductive per union of literals.  An absent member and a
    [null] one are both [None].  Counters, sizes, revisions and versions are integers; amounts,
    rates and tonnages are binary64 numbers. *)
From Stdlib Require Import SpecFloat.
From S2P Require Import Prelude JsString Json MeasurementTypes JsNumber.

(** ** Unions of literals *)

Inductive Role := Admin | Operations | Finance | Viewer.
#[export] Instance Role_eq : EqDecision Role. Proof. solve_decision. Defined.
Definition ROLES : list Role := [Admin; Operations; Finance; Viewer].

Inductive UserStatus := user_invited | user_active | user_suspended | user_removed.
#[export] Instance UserStatus_eq : EqDecision UserStatus. Proof. solve_decision. Defined.
Inductive PlatformOrganizationStatus := pos_pending_approval | pos_active | pos_suspended.
Inductive CallStatus := vc_pending | vc_in_progress | vc_completed | vc_cancelled.
#[export] Instance CallStatus_eq : EqDecision CallStatus. Proof. solve_decision. Defined.
Inductive CargoType := Liquid | Dry.
#[export] Instance CargoType_eq : EqDecision CargoType. Proof. solve_decision. Defined.
Inductive InspectionStatus := insp_draft | insp_completed | insp_cancelled.
#[export] Instance InspectionStatus_eq : EqDecision InspectionStatus. Proof. solve_decision. Defined.
Inductive InvoiceStatus := ivc_paid | ivc_unpaid | ivc_void.
#[export] Instance InvoiceStatus_eq : EqDecision InvoiceStatus. Proof. solve_decision. Defined.
Inductive EffectiveInvoiceStatus := eff_paid | eff_unpaid | eff_overdue | eff_void.
#[export] Instance EffectiveInvoiceStatus_eq : EqDecision EffectiveInvoiceStatus.
Proof. solve_decision. Defined.
Inductive InvoicePurpose := harbour_dues | disparity.
#[export] Instance InvoicePurpose_eq : EqDecision InvoicePurpose. Proof. solve_decision. Defined.
Inductive InvitationStatus := itn_pending | itn_accepted | itn_expired | itn_revoked.
Inductive SystemRole := SystemAdmin.

(** ** Records *)

(** [Pick<User, "id" | "name" | "email">] *)
Record UserRef := mkUserRef { ref_id : str; ref_name : str; ref_email : str }.

Record DuesRates := mkDuesRates {
  dues_government : num; dues_private : num; dues_international : num }.

Record RoleDefinition := mkRoleDefinition {
  rd_role : Role; rd_permissions : list str }.

Record User := mkUser {
  usr_id : str; usr_name : str; usr_email : str; usr_role : Role; usr_status : UserStatus;
  usr_active : option bool; usr_emailVerified : bool; usr_mfaEnabled : bool;
  usr_mfaRequired : bool; usr_mfaEnrollmentRequired : option bool;
  usr_mfaGraceEndsAt : option str; usr_passwordChangeRequired : option bool;
  usr_temporaryPasswordExpiresAt : option str; usr_adminProvisioned : option bool;
  usr_lastLogin : option str; usr_createdAt : option str }.

Record Organization := mkOrganization {
  org_id : str; org_registered : bool; org_name : str; org_rcNumber : str; org_email : str;
  org_phone : str; org_address : str; org_designatedPort : str; org_primaryPort : str;
  org_ports : list str; org_logo : option str; org_rev : Z; org_members : option (list User) }.

Record PlatformOrganizationSummary := mkPlatformOrganizationSummary {
  pos_id : str; pos_name : str; pos_status : PlatformOrganizationStatus; pos_registered : bool;
  pos_primaryPort : str; pos_userCount : Z; pos_activeUserCount : Z; pos_adminCount : Z;
  pos_pendingInvitationCount : Z; pos_approvedAt : option str; pos_createdAt : str;
  pos_updatedAt : str }.

Record PlatformOrganization := mkPlatformOrganization {
  po_base : PlatformOrganizationSummary; po_rcNumber : str; po_email : str; po_phone : str;
  po_address : str; po_ports : list str; po_revision : Z; po_lastActivityAt : option str;
  po_approvedBy : option UserRef; po_approvalReason : option str; po_suspendedAt : option str;
  po_suspensionReason : option str }.

Record AuditEvent := mkAuditEvent {
  ade_id : str; ade_action : str; ade_actor : option UserRef; ade_targetType : option str;
  ade_targetId : option str; ade_targetLabel : option str; ade_category : option str;
  ade_requestId : option str; ade_ipAddress : option str; ade_before : option (list (str * json));
  ade_after : option (list (str * json)); ade_occurredAt : str }.

Record PlatformAuditEvent := mkPlatformAuditEvent {
  pae_base : AuditEvent; pae_organizationId : option str; pae_organizationName : option str;
  pae_reason : option str }.

Record PlatformOverview := mkPlatformOverview {
  pov_organizationCount : Z; pov_pendingApprovalOrganizationCount : Z;
  pov_activeOrganizationCount : Z; pov_suspendedOrganizationCount : Z; pov_activeUserCount : Z;
  pov_pendingInvitationCount : Z; pov_recentOrganizations : list PlatformOrganizationSummary;
  pov_recentAuditEvents : option (list PlatformAuditEvent) }.

Record PlatformOrganizationDetail := mkPlatformOrganizationDetail {
  pod_organization : PlatformOrganization; pod_counts : option (list (str * Z)) }.

Record Jetty := mkJetty {
  jet_type : str; jet_category : option str; jet_name : option str }.

Record Settings := mkSettings {
  stg_commissionRate : num; stg_exchangeRate : num; stg_liquidDuesRates : DuesRates;
  stg_dryDuesRate : num; stg_portName : str; stg_terminals : list str }.

Record VesselCall := mkVesselCall {
  vc_id : str; vc_vesselName : str; vc_reference : str; vc_type : str; vc_flag : str;
  vc_nrt : num; vc_eta : str; vc_sailingEta : str; vc_berth : str; vc_berthDate : option str;
  vc_status : CallStatus; vc_notes : str; vc_cancellationReason : option str;
  vc_cancelledAt : option str; vc_version : Z; vc_registered : str }.

Record Inspection := mkInspection {
  insp_id : str; insp_reference : str; insp_callId : str; insp_vesselName : str;
  insp_cargoType : CargoType; insp_product : option str; insp_reconciledTonnage : num;
  insp_jetty : option Jetty; insp_liquid : option (list (str * json)); insp_dry : option (list (str * json));
  insp_date : str; insp_status : InspectionStatus; insp_version : Z; insp_createdAt : option str;
  insp_updatedAt : option str }.

Record Payment := mkPayment {
  paym_id : str; paym_amount : num; paym_paidOn : str; paym_method : str; paym_reference : str;
  paym_recordedBy : str; paym_recordedAt : str; paym_reversedAt : option str;
  paym_reversedBy : option str; paym_reversalReason : option str }.

Record InvoiceLineItem := mkInvoiceLineItem {
  ilt_lineId : str; ilt_description : str; ilt_unit : str; ilt_category : option str;
  ilt_direction : option str; ilt_containerSize : option str; ilt_loadStatus : option str;
  ilt_basis : option str; ilt_baselineQuantity : str; ilt_finalQuantity : str;
  ilt_variance : str; ilt_rate : str; ilt_tolerance : str; ilt_toleranceMode : ToleranceMode;
  ilt_chargeableQuantity : str; ilt_entitlement : str; ilt_openingBilledAmount : str;
  ilt_priorInvoicedAmount : str; ilt_amount : str }.

(** The two notification members may be missing from an older server's answer. *)
Record InvoiceWorkflowStatus := mkInvoiceWorkflowStatus {
  ws_id : option str; ws_code : str; ws_label : str; ws_position : option Z; ws_active : bool;
  ws_isPaid : bool; ws_isTerminal : bool; ws_isProtected : bool; ws_notifyOnEntry : option bool;
  ws_notificationRoles : option (list Role) }.

Record InvoiceWorkflowStatusUpdate := mkInvoiceWorkflowStatusUpdate {
  wsu_label : option str; wsu_active : option bool; wsu_notifyOnEntry : option bool;
  wsu_notificationRoles : option (list Role) }.

Record InvoiceStatusEvent := mkInvoiceStatusEvent {
  ise_id : str; ise_fromCode : option str; ise_fromLabel : option str; ise_toCode : str;
  ise_toLabel : str; ise_source : str; ise_note : option str; ise_actorId : option str;
  ise_actorName : option str; ise_createdAt : str }.

Record InvoiceAttachment := mkInvoiceAttachment {
  iat_id : str; iat_invoiceId : str; iat_fileName : str; iat_contentType : str; iat_size : Z;
  iat_checksum : str; iat_uploadedBy : str; iat_createdAt : str }.

Record Invoice := mkInvoice {
  ivc_id : str; ivc_invoiceNo : str; ivc_callId : str; ivc_inspectionId : option str;
  ivc_purpose : option InvoicePurpose; ivc_currency : option str; ivc_payer : option str;
  ivc_reconciliationId : option str; ivc_assessmentId : option str;
  ivc_lineItems : option (list InvoiceLineItem); ivc_paidAmount : option num;
  ivc_outstandingAmount : option num; ivc_cargoType : str; ivc_issued : str; ivc_due : str;
  ivc_status : InvoiceStatus; ivc_workflowStatus : option InvoiceWorkflowStatus;
  ivc_statusHistory : option (list InvoiceStatusEvent); ivc_dues : num; ivc_rate : num;
  ivc_commissionUsd : num; ivc_commissionNgn : num; ivc_fx : num; ivc_payment : option Payment }.

Record AppState := mkAppState {
  st_rev : Z; st_org : Organization; st_settings : Settings; st_calls : list VesselCall;
  st_inspections : list Inspection; st_invoices : list Invoice;
  st_invoiceStatusSteps : option (list InvoiceWorkflowStatus) }.

Record AnalyticsSeriesRow := mkAnalyticsSeriesRow {
  asr_key : str; asr_month : str; asr_year : str; asr_liquidT : num; asr_dryT : num;
  asr_revenue : num; asr_calls : num }.

Record AnalyticsProduct := mkAnalyticsProduct {
  apr_key : str; apr_name : str; apr_tonnage : num; apr_share : num; apr_revenue : num }.

Record AnalyticsTotals := mkAnalyticsTotals {
  ato_throughput : num; ato_liquidT : num; ato_dryT : num; ato_revenue : num; ato_liquidR : num;
  ato_dryR : num; ato_invoiced : num; ato_collected : num; ato_outstanding : num; ato_calls : num }.

Record Analytics := mkAnalytics {
  ana_series : list AnalyticsSeriesRow; ana_products : list AnalyticsProduct;
  ana_totals : AnalyticsTotals }.

Record PlatformAccess := mkPlatformAccess {
  pa_role : SystemRole; pa_permissions : list str; pa_mfaEnrollmentRequired : option bool;
  pa_authorized : option bool; pa_expiresAt : option str; pa_assuranceExpiresAt : option str;
  pa_stepUpRequired : option bool; pa_environment : option str;
  pa_emailDeliveryReady : option bool; pa_mutationsEnabled : option bool }.

Record AuthSession := mkAuthSession {
  sess_user : User; sess_org : option Organization; sess_permissions : list str;
  sess_platformAccess : option PlatformAccess }.

Record Paginated (T : Type) := mkPaginated {
  pg_results : list T; pg_count : Z; pg_page : Z; pg_pageSize : Z }.

Record Invitation := mkInvitation {
  itn_id : str; itn_name : str; itn_email : str; itn_role : Role; itn_status : InvitationStatus;
  itn_invitedBy : option UserRef; itn_expiresAt : str; itn_createdAt : str;
  itn_acceptedAt : option str }.

Record Profile := mkProfile {
  prof_id : str; prof_name : str; prof_email : str; prof_pendingEmail : option str;
  prof_role : Role; prof_emailVerified : bool; prof_mfaEnabled : bool; prof_mfaRequired : bool;
  prof_mfaEnrollmentRequired : option bool; prof_mfaGraceEndsAt : option str }.

Record DeviceSession := mkDeviceSession {
  dev_id : str; dev_current : bool; dev_createdAt : str; dev_lastSeenAt : str;
  dev_expiresAt : str; dev_ipAddress : option str; dev_userAgent : option str }.
