(* ===== verification/SystemAdmin.v ===== *)
(** * Platform administration (frontend/src/system/)

    The environment the console believes it is in, the idempotency keys of its changes, and the
    organization page: its lifecycle, its profile form and its administrators. *)
From S2P Require Import Prelude JsString Json Codec MeasurementTypes Host Uri Endpoints JsNumber AppTypes.

(** ** The environment (environment.ts) *)

Inductive PlatformEnvironmentKind := env_staging | env_production | env_development | env_unknown.
#[export] Instance PlatformEnvironmentKind_eq : EqDecision PlatformEnvironmentKind. Proof. solve_decision. Defined.
Record PlatformEnvironment := mkEnvironment { en_kind : PlatformEnvironmentKind; en_label : str; en_description : str }.
Definition stagingEnvironment : PlatformEnvironment :=
  mkEnvironment env_staging (js "Staging")
    (js "You are viewing staging organizations only. Production data and controls are separate.").
Definition productionEnvironment : PlatformEnvironment :=
  mkEnvironment env_production (js "Production")
    (js "You are viewing production organizations only. Staging data and controls are separate.").
Definition developmentEnvironment : PlatformEnvironment :=
  mkEnvironment env_development (js "Local development")
    (js "You are viewing local development data. Hosted staging and production are separate.").
Definition unknownEnvironment : PlatformEnvironment :=
  mkEnvironment env_unknown (js "Unknown environment")
    (js "Confirm the address before making changes; this host is not a recognized NPA Vessel Caller environment.").

(** [.replace(/\.$/, "")] *)
Definition dropFinalDot (s : str) : str := if N.eqb (default 0%N (last s)) cDot then take (length s - 1) s else s.

Section Environment.
Context `{Host}.
Definition normalizedHostname (hostname : str) : str := dropFinalDot (toLowerCase (trim hostname)).
Definition hostedEnvironment (host : str) : option str :=
  if streq host (js "staging.vesselcalls.com") then Some (js "staging")
  else if streq host (js "vesselcalls.com") || streq host (js "www.vesselcalls.com") then Some (js "production")
  else None.
Definition getPlatformEnvironment (runtimeEnvironment : option str) (hostname : str) : PlatformEnvironment :=
  let runtime := default [] ((λ e, toLowerCase (trim e)) <$> runtimeEnvironment) in
  let host := normalizedHostname hostname in
  if truthy runtime then
    if match hostedEnvironment host with Some e => negb (streq e runtime) | None => false end then unknownEnvironment
    else if streq runtime (js "staging") then stagingEnvironment
    else if streq runtime (js "production") then productionEnvironment
    else if streq runtime (js "development") || streq runtime (js "local") || streq runtime (js "test")
    then developmentEnvironment else unknownEnvironment
  else if streq host (js "staging.vesselcalls.com") then stagingEnvironment
  else if streq host (js "vesselcalls.com") || streq host (js "www.vesselcalls.com") then productionEnvironment
  else if streq host (js "localhost") || streq host (js "127.0.0.1") || streq host (js "[::1]") then developmentEnvironment
  else unknownEnvironment.

(** [mutationsEnabled] of the pages. *)
Definition mutationsEnabled (access : option PlatformAccess) (hostname : str) : bool :=
  match access with
  | Some p => bool_decide (pa_mutationsEnabled p = Some true)
              && negb (bool_decide (en_kind (getPlatformEnvironment (pa_environment p) hostname) = env_unknown))
  | None => false (* the environment is still asked for, with no effect *)
  end.
Definition emailDeliveryReady (access : option PlatformAccess) : bool :=
  bool_decide ((access ≫= pa_emailDeliveryReady) = Some true).
(** [hasFreshPlatformAssurance] of SystemAudit.tsx. *)
Definition hasFreshPlatformAssurance (access : option PlatformAccess) (now : Z) : bool :=
  match access with
  | Some p =>
      negb (bool_decide (pa_stepUpRequired p = Some true)) &&
      match pa_assuranceExpiresAt p with
      | Some t => truthy t && match dateParse t with Some e => now <? e | None => false end
      | None => false
      end
  | None => false
  end.
End Environment.

(** ** Idempotency keys (useIdempotencyKey.ts) *)

(** The ref: the fingerprint of the last payload and its key. *)
Definition KeyRef : Type := option (str * str).
Definition keyFor (newKey : str) (payload : json) (current : KeyRef) : KeyRef * str :=
  let fingerprint := stringify payload in
  match current with
  | Some (f, key) => if streq f fingerprint then (current, key) else (Some (fingerprint, newKey), newKey)
  | None => (Some (fingerprint, newKey), newKey)
  end.
Definition resetKey : KeyRef := None.

(** What a form does with its ref: send a payload, or [reset] after a success or on closing. *)
Inductive KeyOp := key_send (payload : json) | key_reset.
(** The keys the requests carry, one entry per operation; [keys n] is the [n]-th new key. *)
Fixpoint keysSent (keys : nat → str) (n : nat) (current : KeyRef) (ops : list KeyOp) : list (option str) :=
  match ops with
  | [] => []
  | key_send payload :: ops =>
      let '(current', key) := keyFor (keys n) payload current in
      Some key :: keysSent keys (if bool_decide (current' = current) then n else S n) current' ops
  | key_reset :: ops => None :: keysSent keys n resetKey ops
  end.

(** ** The organization's page (SystemOrganizationDetail.tsx) *)

Inductive DetailTab := dt_overview | dt_access | dt_audit.
Inductive LifecycleAction := la_approve | la_suspend | la_reactivate.
#[export] Instance LifecycleAction_eq : EqDecision LifecycleAction. Proof. solve_decision. Defined.
Definition LIFECYCLE_ACTION_LABEL (a : LifecycleAction) : str :=
  match a with la_approve => js "Approve organization" | la_suspend => js "Suspend organization"
  | la_reactivate => js "Reactivate organization" end.
Definition lifecycleText (a : LifecycleAction) : str :=
  match a with la_approve => js "approve" | la_suspend => js "suspend" | la_reactivate => js "reactivate" end.

Definition availableLifecycleAction (o : PlatformOrganization) : LifecycleAction :=
  match pos_status (po_base o) with
  | pos_pending_approval => la_approve | pos_active => la_suspend | pos_suspended => la_reactivate end.
Definition approvalPrerequisitesMet (o : PlatformOrganization) : bool :=
  pos_registered (po_base o) && (0 <? pos_adminCount (po_base o)).
Definition lifecycleDisabled (enabled : bool) (o : PlatformOrganization) : bool :=
  negb enabled || (bool_decide (availableLifecycleAction o = la_approve) && negb (approvalPrerequisitesMet o)).
Definition lifecycleDisabledReason (enabled : bool) (o : PlatformOrganization) : option str :=
  let approving := bool_decide (availableLifecycleAction o = la_approve) in
  if negb enabled then Some (js "Platform changes are locked in this environment")
  else if approving && negb (pos_registered (po_base o))
  then Some (js "Registration and email verification must be complete before approval")
  else if approving && (pos_adminCount (po_base o) =? 0)
  then Some (js "At least one verified active tenant Admin is required before approval")
  else None.
Definition detailTabs (can : str → bool) : list DetailTab :=
  dt_overview :: (if can (js "platform.organization_users.view") then [dt_access] else [])
  ++ (if can (js "platform.audit.view") then [dt_audit] else []).

(** A dialog with a reason confirms the trimmed one, of at least three code units. *)
Definition confirmReason (enabled pending : bool) (reason : str) : option str :=
  if negb enabled || pending || (length (trim reason) <? 3)%nat then None else Some (trim reason).

Definition lifecyclePayload (a : LifecycleAction) (reason : str) (revision : Z) : json :=
  mkObj [fld "action" (lifecycleText a); fld "reason" reason; fld "revision" revision].
Definition lifecycleRequest (id : str) (a : LifecycleAction) (reason : str) (revision : Z) (key : str) : SystemEndpoint :=
  match a with
  | la_approve => approveSystemOrganization id reason revision key
  | la_suspend => suspendSystemOrganization id reason revision key
  | la_reactivate => reactivateSystemOrganization id reason revision key
  end.

(** The page: the organization of the query, the open dialog, the mutation and its key. *)
Record LifecycleState := mkLifecycle {
  lf_organization : PlatformOrganization; lf_action : option LifecycleAction; lf_pending : bool; lf_key : KeyRef }.
Definition openLifecycle (manage enabled : bool) (s : LifecycleState) : option LifecycleState :=
  if manage && negb (lifecycleDisabled enabled (lf_organization s))
  then Some (mkLifecycle (lf_organization s) (Some (availableLifecycleAction (lf_organization s))) (lf_pending s) (lf_key s))
  else None.
Definition confirmLifecycle (id newKey : str) (enabled : bool) (reason : str) (s : LifecycleState)
  : option (LifecycleState * SystemEndpoint) :=
  a ← lf_action s; reason ← confirmReason enabled (lf_pending s) reason;
  let revision := po_revision (lf_organization s) in
  let '(ref, key) := keyFor newKey (lifecyclePayload a reason revision) (lf_key s) in
  Some (mkLifecycle (lf_organization s) (Some a) true ref, lifecycleRequest id a reason revision key).
(** [None] is a failure. *)
Definition lifecycleAnswered (answer : option PlatformOrganization) (s : LifecycleState) : LifecycleState :=
  match answer with
  | Some organization => mkLifecycle organization None false resetKey
  | None => mkLifecycle (lf_organization s) (lf_action s) false (lf_key s)
  end.
Definition closeLifecycle (s : LifecycleState) : LifecycleState :=
  if lf_pending s then s else mkLifecycle (lf_organization s) None false resetKey.
Definition lifecycleRefetched (organization : PlatformOrganization) (s : LifecycleState) : LifecycleState :=
  mkLifecycle organization (lf_action s) (lf_pending s) (lf_key s).

(** *** The profile form *)

Record ProfileForm := mkProfileForm {
  pf_name : str; pf_rcNumber : str; pf_email : str; pf_phone : str; pf_address : str; pf_primaryPort : str; pf_ports : str }.
Definition profileForm (o : PlatformOrganization) : ProfileForm :=
  mkProfileForm (pos_name (po_base o)) (po_rcNumber o) (po_email o) (po_phone o) (po_address o)
    (pos_primaryPort (po_base o)) (join [10%N] (po_ports o)).
(** [form.ports.split(/\n|,/)], trimmed, without blanks and repeats. *)
Definition portsOf (text : str) : list str :=
  uniq (filterb truthy (map trim (flat_map (split cComma) (split 10%N text)))).
Section Profile.
Context `{Host}.
Definition profilePayload (f : ProfileForm) (revision : Z) : json :=
  mkObj [fld "name" (trim (pf_name f)); fld "rcNumber" (trim (pf_rcNumber f));
    fld "email" (toLowerCase (trim (pf_email f))); fld "phone" (trim (pf_phone f)); fld "address" (trim (pf_address f));
    fld "primaryPort" (trim (pf_primaryPort f)); fld "ports" (portsOf (pf_ports f)); fld "revision" revision].

(** What the section shows: the organization of the query, whether it is edited, the form, the
    mutation and its key. *)
Record ProfileState := mkProfileState {
  ps_organization : PlatformOrganization; ps_editing : bool; ps_form : ProfileForm; ps_pending : bool; ps_key : KeyRef }.
Definition openOverview (o : PlatformOrganization) : ProfileState := mkProfileState o false (profileForm o) false None.
(** The effect: outside of editing the form follows the organization. *)
Definition syncForm (s : ProfileState) : ProfileState :=
  if ps_editing s then s
  else mkProfileState (ps_organization s) false (profileForm (ps_organization s)) (ps_pending s) (ps_key s).
Definition profileRefetched (o : PlatformOrganization) (s : ProfileState) : ProfileState :=
  syncForm (mkProfileState o (ps_editing s) (ps_form s) (ps_pending s) (ps_key s)).
Definition editProfile (canEdit enabled : bool) (s : ProfileState) : ProfileState :=
  if canEdit && enabled && negb (ps_editing s)
  then mkProfileState (ps_organization s) true (ps_form s) (ps_pending s) (ps_key s) else s.
Definition typeProfile (patch : ProfileForm → ProfileForm) (s : ProfileState) : ProfileState :=
  mkProfileState (ps_organization s) (ps_editing s) (if ps_editing s then patch (ps_form s) else ps_form s)
    (ps_pending s) (ps_key s).
Definition cancelProfile (s : ProfileState) : ProfileState :=
  if ps_pending s then s
  else syncForm (mkProfileState (ps_organization s) false (ps_form s) false resetKey).
Definition saveProfile (newKey : str) (enabled : bool) (s : ProfileState) : option (ProfileState * SystemEndpoint) :=
  if negb (ps_editing s) || negb enabled || ps_pending s || isEmpty (trim (pf_name (ps_form s)))
     || isEmpty (trim (pf_primaryPort (ps_form s))) then None else
  let payload := profilePayload (ps_form s) (po_revision (ps_organization s)) in
  let '(ref, key) := keyFor newKey payload (ps_key s) in
  Some (mkProfileState (ps_organization s) (ps_editing s) (ps_form s) true ref,
        updateSystemOrganization (pos_id (po_base (ps_organization s))) payload key).
Definition profileAnswered (answer : option PlatformOrganization) (s : ProfileState) : ProfileState :=
  match answer with
  | Some o => syncForm (mkProfileState o false (ps_form s) false resetKey)
  | None => mkProfileState (ps_organization s) (ps_editing s) (ps_form s) false (ps_key s)
  end.
Inductive profileStep : ProfileState → ProfileState → Prop :=
| pst_refetched o s : profileStep s (profileRefetched o s)
| pst_edit canEdit enabled s : profileStep s (editProfile canEdit enabled s)
| pst_type patch s : profileStep s (typeProfile patch s)
| pst_cancel s : profileStep s (cancelProfile s)
| pst_save newKey enabled s s' e : saveProfile newKey enabled s = Some (s', e) → profileStep s s'
| pst_answered answer s : ps_pending s = true → profileStep s (profileAnswered answer s).

(** *** Tenant administrators *)

Definition organizationActive (o : PlatformOrganization) : bool :=
  match pos_status (po_base o) with pos_active => true | _ => false end.
Definition accessMutationsEnabled (enabled : bool) (o : PlatformOrganization) : bool := enabled && organizationActive o.
Definition accessDisabledReason (enabled : bool) (o : PlatformOrganization) : str :=
  if negb enabled then js "Platform changes are locked in this environment"
  else match pos_status (po_base o) with
       | pos_pending_approval => js "Approve the organization before managing tenant access"
       | _ => js "Reactivate the organization before managing tenant access" end.
Definition recoverable (canManage : bool) (u : User) : bool :=
  bool_decide (usr_role u = Admin) && bool_decide (usr_status u = user_active) && canManage.
Inductive RecoveryAction := rec_password | rec_mfa.
#[export] Instance RecoveryAction_eq : EqDecision RecoveryAction. Proof. solve_decision. Defined.
Definition recoveryEnabled (enabled emailReady : bool) (o : PlatformOrganization) (a : RecoveryAction) : bool :=
  accessMutationsEnabled enabled o && (bool_decide (a = rec_mfa) || emailReady).
Definition recoveryPayload (a : RecoveryAction) (userId reason : str) : json :=
  mkObj [fld "action" (match a with rec_password => js "password" | rec_mfa => js "mfa" end);
    fld "userId" userId; fld "reason" reason].
Definition recoveryRequest (organizationId : str) (a : RecoveryAction) (userId reason key : str) : SystemEndpoint :=
  match a with
  | rec_password => sendSystemAdminPasswordReset organizationId userId reason key
  | rec_mfa => resetSystemAdminMfa organizationId userId reason key
  end.
(** The row's buttons and the dialog's confirmation. *)
Definition confirmRecovery (newKey : str) (enabled emailReady canManage pending : bool) (o : PlatformOrganization) (a : RecoveryAction)
    (u : User) (reason : str) (current : KeyRef) : option (KeyRef * SystemEndpoint) :=
  if negb (recoverable canManage u) then None else
  reason ← confirmReason (recoveryEnabled enabled emailReady o a) pending reason;
  let '(ref, key) := keyFor newKey (recoveryPayload a (usr_id u) reason) current in
  Some (ref, recoveryRequest (pos_id (po_base o)) a (usr_id u) reason key).

Definition pendingInvitation (i : Invitation) : bool := match itn_status i with itn_pending => true | _ => false end.
Definition mayResend (enabled emailReady canManage busy : bool) (o : PlatformOrganization) (i : Invitation) : bool :=
  canManage && pendingInvitation i && enabled && organizationActive o && emailReady && negb busy.
Definition mayRevoke (enabled canManage busy : bool) (i : Invitation) : bool :=
  canManage && pendingInvitation i && enabled && negb busy.
Definition resendInvitation (organizationId newKey : str) (i : Invitation) (current : KeyRef) : KeyRef * SystemEndpoint :=
  let '(ref, key) := keyFor newKey (mkObj [fld "action" (js "resend"); fld "invitationId" (itn_id i)]) current in
  (ref, resendSystemOrganizationInvitation organizationId (itn_id i) key).
Definition revokeInvitation (organizationId newKey : str) (i : Invitation) (current : KeyRef) : KeyRef * SystemEndpoint :=
  let '(ref, key) := keyFor newKey (mkObj [fld "action" (js "revoke"); fld "invitationId" (itn_id i)]) current in
  (ref, revokeSystemOrganizationInvitation organizationId (itn_id i) key).
Definition inviteAdmin (newKey : str) (enabled pending : bool) (o : PlatformOrganization) (name email : str) (current : KeyRef)
  : option (KeyRef * SystemEndpoint) :=
  if negb enabled || pending || isEmpty (trim name) || isEmpty (trim email) then None else
  let payload := mkObj [fld "name" (trim name); fld "email" (toLowerCase (trim email))] in
  let '(ref, key) := keyFor newKey payload current in
  Some (ref, inviteSystemOrganizationAdmin (pos_id (po_base o)) payload key).

(** *** A new organization (SystemOrganizations.tsx) *)

Definition PORTS : list str :=
  map js ["Port of Calabar"; "Apapa Port, Lagos"; "Tin Can Island Port, Lagos"; "Onne Port, Rivers"; "Port Harcourt Port";
          "Warri Port, Delta"]%string.
Record CreateForm := mkCreateForm {
  cf_name : str; cf_rcNumber : str; cf_contactEmail : str; cf_primaryPort : str; cf_adminName : str; cf_adminEmail : str }.
Definition createPayload (f : CreateForm) : json :=
  mkObj [fld "name" (trim (cf_name f)); fld "rcNumber" (trim (cf_rcNumber f));
    fld "email" (toLowerCase (trim (cf_contactEmail f))); fld "primaryPort" (cf_primaryPort f);
    fld "ports" [cf_primaryPort f];
    fld "initialAdmin" (mkObj [fld "name" (trim (cf_adminName f)); fld "email" (toLowerCase (trim (cf_adminEmail f)))])].
Definition createReady (f : CreateForm) : bool :=
  truthy (trim (cf_name f)) && truthy (trim (cf_adminName f)) && truthy (trim (cf_adminEmail f)).
Definition createOrganization (newKey : str) (enabled pending : bool) (f : CreateForm) (current : KeyRef)
  : option (KeyRef * SystemEndpoint) :=
  if negb enabled || pending || negb (createReady f) then None else
  let '(ref, key) := keyFor newKey (createPayload f) current in Some (ref, createSystemOrganization (createPayload f) key).
End Profile.
(** [isSystemStepUpError] of SystemComponents.tsx. *)
Definition isSystemStepUpError (status : Z) (code : option json) : bool :=
  (status =? 403) &&
  match code with
  | Some (JStr s) => streq s (js "system_mfa_step_up_required")
  | Some (JArr items) => existsb (λ j, match j with JStr s => streq s (js "system_mfa_step_up_required") | _ => false end) items
  | _ => false
  end.

(** ** Lemmas: keys *)

Lemma keyFor_cases newKey payload current : let '(current', key) := keyFor newKey payload current in
  current' = Some (stringify payload, key) ∧ ((current' = current ∧ ∃ f, current = Some (f, key) ∧ f = stringify payload) ∨
    (key = newKey ∧ ∀ f k, current = Some (f, k) → f ≠ stringify payload)).
Proof.
  unfold keyFor. destruct current as [[f key]|]; [|split; [done|right; split; [done|]]; intros ? ? ?; done].
  destruct (streq f (stringify payload)) eqn:E.
  - apply streq_true in E as ->. split; [done|]. left. split; [done|]. by exists (stringify payload).
  - apply streq_false in E. split; [done|]. right. split; [done|]. by intros f' k' [= <- <-].
Qed.

Section Keys.
Context (keys : nat → str) (Hfresh : ∀ m n, keys m = keys n → m = n).
(** The ref holds a key numbered between [low] and [n]. *)
Definition refWithin (low n : nat) (current : KeyRef) : Prop :=
  ∀ f k, current = Some (f, k) → ∃ m, (low ≤ m < n)%nat ∧ k = keys m.
Lemma refWithin_none low n : refWithin low n None.
Proof. by intros ? ?. Qed.

Lemma keysSent_send low n current payload ops : (low ≤ n)%nat → refWithin low n current → ∃ m n',
  keysSent keys n current (key_send payload :: ops) = Some (keys m) :: keysSent keys n' (Some (stringify payload, keys m)) ops ∧
  (n ≤ n')%nat ∧ (low ≤ m < n')%nat ∧
  ((n' = n ∧ current = Some (stringify payload, keys m)) ∨ (m = n ∧ ∀ f k, current = Some (f, k) → f ≠ stringify payload)).
Proof.
  intros Hlow Hb. cbn [keysSent]. pose proof (keyFor_cases (keys n) payload current) as Hk.
  destruct (keyFor (keys n) payload current) as [current' key]. destruct Hk as (-> & [(He & f & Hc & ->)|(-> & Hne)]).
  - rewrite bool_decide_eq_true_2 by done. destruct (Hb _ _ Hc) as (m & Hm & ->).
    exists m, n. split_and!; [done|lia|lia|lia|by left].
  - rewrite bool_decide_eq_false_2 by (intros He; by apply (Hne _ _ (eq_sym He))).
    exists n, (S n). split_and!; [done|lia|lia|lia|by right].
Qed.

(** Every key sent is one of the numbered ones, from the ref's on. *)
Lemma keysSent_within ops : ∀ low n current j k, (low ≤ n)%nat → refWithin low n current →
  keysSent keys n current ops !! j = Some (Some k) → ∃ m, (low ≤ m)%nat ∧ k = keys m.
Proof.
  induction ops as [|[payload|] ops IH]; intros low n current j k Hlow Hb; [done|..].
  - destruct (keysSent_send low n current payload ops Hlow Hb) as (m & n' & -> & Hn & Hm & _).
    destruct j as [|j]; simpl; [intros [= <-]; exists m; split; [lia|done]|]. apply IH; [lia|]. intros f x [= <- <-]. by exists m.
  - destruct j as [|j]; simpl; [done|]. apply IH; [done|apply refWithin_none].
Qed.

(** The ref's key is sent again exactly while nothing but its payload is sent. *)
Lemma keysSent_again ops : ∀ n payload m j k, (m < n)%nat →
  keysSent keys n (Some (stringify payload, keys m)) ops !! j = Some (Some k) →
  k = keys m ↔ ∀ i, (i ≤ j)%nat → ops !! i = Some (key_send payload).
Proof.
  induction ops as [|[q|] ops IH]; intros n payload m j k Hm; [done|..].
  - assert (Hb : refWithin m n (Some (stringify payload, keys m))) by (intros f x [= <- <-]; exists m; split; [lia|done]).
    destruct (keysSent_send m n _ q ops ltac:(lia) Hb) as (x & n' & -> & Hn & Hx & Hcase).
    destruct Hcase as [(-> & [= Hq%stringify_inj Hk])|(-> & Hne)].
    + subst q. apply Hfresh in Hk as <-. destruct j as [|j]; simpl.
      * intros [= <-]. split; [|done]. intros _ i Hi. by replace i with 0%nat by lia.
      * intros Hj. rewrite (IH _ _ _ _ _ Hm Hj). split; intros Hall i Hi; [|by apply (Hall (S i)); lia].
        destruct i as [|i]; [done|]. apply Hall. lia.
    + intros Hj. split.
      * intros ->. exfalso. destruct j as [|j]; simpl in Hj; [injection Hj as Hk%Hfresh; lia|].
        apply (keysSent_within ops n) in Hj as (y & Hy & Hk%Hfresh); [lia|lia|]. intros f z [= <- <-].
        exists n. split; [lia|done].
      * intros Hall. injection (Hall 0%nat ltac:(lia)) as ->. by destruct (Hne _ _ eq_refl).
  - destruct j as [|j]; simpl; [done|]. intros Hj. split.
    + intros ->. exfalso. apply (keysSent_within ops n) in Hj as (y & Hy & Hk%Hfresh); [lia|lia|apply refWithin_none].
    + intros Hall. by specialize (Hall 0%nat ltac:(lia)).
Qed.

Lemma keysSent_pair ops k k' : ∀ i j n current, (i < j)%nat → refWithin 0 n current →
  keysSent keys n current ops !! i = Some (Some k) → keysSent keys n current ops !! j = Some (Some k') →
  k = k' ↔ ∃ payload, ∀ x, (i ≤ x ≤ j)%nat → ops !! x = Some (key_send payload).
Proof.
  induction ops as [|op ops IH]; intros i j n current Hij Hb; [done|]. destruct j as [|j]; [lia|].
  assert (Hshift : ∀ i', i = S i' → (∃ payload, ∀ x, (i' ≤ x ≤ j)%nat → ops !! x = Some (key_send payload)) ↔
    ∃ payload, ∀ x, (i ≤ x ≤ S j)%nat → (op :: ops) !! x = Some (key_send payload)).
  { intros i' ->. split; intros [payload Hall]; exists payload; intros x Hx; [|by apply (Hall (S x)); lia].
    destruct x as [|x]; [lia|]. apply Hall. lia. }
  destruct op as [payload|].
  - destruct (keysSent_send 0 n current payload ops ltac:(lia) Hb) as (m & n' & -> & Hn & Hm & _).
    destruct i as [|i]; simpl.
    + intros [= <-] Hj. apply keysSent_again in Hj; [|lia]. split.
      * intros Hk. exists payload. intros x Hx. destruct x as [|x]; [done|]. apply Hj; [done|lia].
      * intros [payload' Hall]. injection (Hall 0%nat ltac:(lia)) as <-. symmetry. apply Hj.
        intros x Hx. apply (Hall (S x)). lia.
    + intros Hi Hj. rewrite <- (Hshift i eq_refl). eapply IH; [lia| |exact Hi|exact Hj].
      intros f y [= <- <-]. by exists m.
  - destruct i as [|i]; simpl; [done|]. intros Hi Hj. rewrite <- (Hshift i eq_refl).
    eapply IH; [lia|apply refWithin_none|exact Hi|exact Hj].
Qed.

(** C34. A form's request carries the key of an earlier one exactly when it repeats it: between
    the two nothing but that payload was sent and nothing was reset, so a retry never runs twice
    on the server, and a changed or a completed action is never taken for a retry. *)
Theorem keys_identify_attempts (ops : list KeyOp) (i j : nat) (k k' : str)
    (Hij : (i < j)%nat)
    (Hi : keysSent keys 0 resetKey ops !! i = Some (Some k))
    (Hj : keysSent keys 0 resetKey ops !! j = Some (Some k')) :
  k = k' ↔ ∃ payload, ∀ x, (i ≤ x ≤ j)%nat → ops !! x = Some (key_send payload).
Proof. eapply keysSent_pair; [done|apply refWithin_none|exact Hi|exact Hj]. Qed.
End Keys.

Lemma printNat_inj_nat m n : printNat (Z.of_nat m) = printNat (Z.of_nat n) → m = n.
Proof. intros H%printNat_inj; lia. Qed.
(** A retry, and the same change made again after it succeeded. *)
Lemma keys_identify_attempts_witness :
  let ops := [key_send (JStr (js "a")); key_send (JStr (js "a")); key_reset; key_send (JStr (js "a"))] in
  keysSent (λ n, printNat (Z.of_nat n)) 0 resetKey ops = [Some (js "0"); Some (js "0"); None; Some (js "1")] ∧
  (js "0" = js "0" ↔ ∃ payload, ∀ x, (0 ≤ x ≤ 1)%nat → ops !! x = Some (key_send payload)).
Proof.
  intros ops. split; [reflexivity|].
  apply (keys_identify_attempts (λ n, printNat (Z.of_nat n)) printNat_inj_nat ops 0 1); [lia|reflexivity|reflexivity].
Defined.

(** ** Lemmas: the environment *)

Section EnvironmentFacts.
Context `{Host}.
(** The console never mistakes one hosted environment for another, and never offers changes
    where it does not know where it is: an address of staging is never called production nor one
    of production staging, an address it does not know is called neither unless the server names
    itself so, and changes need a recognized environment and the server's permission. *)
Theorem environment_recognized (runtime : option str) (hostname : str) (access : option PlatformAccess) :
  let kind := en_kind (getPlatformEnvironment runtime hostname) in
  let host := normalizedHostname hostname in
  (hostedEnvironment host = Some (js "staging") → kind = env_staging ∨ kind = env_unknown) ∧
  (hostedEnvironment host = Some (js "production") → kind = env_production ∨ kind = env_unknown) ∧
  (hostedEnvironment host = None → kind = env_production ∨ kind = env_staging →
     ∃ e, runtime = Some e ∧ toLowerCase (trim e) = (if decide (kind = env_production) then js "production" else js "staging")) ∧
  (mutationsEnabled access hostname = true → ∃ p, access = Some p ∧ pa_mutationsEnabled p = Some true ∧
     en_kind (getPlatformEnvironment (pa_environment p) hostname) ≠ env_unknown).
Proof.
  intros kind host. unfold kind, getPlatformEnvironment. fold host.
  set (r := default [] _). split_and!.
  - intros Hh. rewrite Hh. unfold hostedEnvironment in Hh.
    destruct (streq host (js "staging.vesselcalls.com")) eqn:Es; [|by destruct (_ || _)].
    destruct (truthy r); [|by left]. destruct (streq (js "staging") r) eqn:Er; [|by right].
    apply streq_true in Er as <-. by left.
  - intros Hh. rewrite Hh. unfold hostedEnvironment in Hh.
    destruct (streq host (js "staging.vesselcalls.com")); [done|]. destruct (_ || _) eqn:Ep; [|done].
    destruct (truthy r); [|by left]. destruct (streq (js "production") r) eqn:Er; [|by right].
    apply streq_true in Er as <-. by left.
  - intros Hh. rewrite Hh. unfold hostedEnvironment in Hh.
    destruct (streq host (js "staging.vesselcalls.com")); [done|]. destruct (_ || _) eqn:Ep; [done|].
    intros Hk. destruct (truthy r) eqn:Ht; cycle 1.
    { exfalso. revert Hk. case_match; cbn; by intros []. }

    destruct runtime as [e|]; [|done]. exists e. split; [done|]. change r with (toLowerCase (trim e)) in *.
    destruct (streq _ (js "staging")) eqn:Es; [apply streq_true in Es; by rewrite Es|].
    destruct (streq _ (js "production")) eqn:Epr; [apply streq_true in Epr; by rewrite Epr|].
    exfalso. revert Hk. case_match; cbn; by intros [].
  - unfold mutationsEnabled. destruct access as [p|]; [|done]. intros [Hm Hn]%andb_true_iff. exists p.
    apply bool_decide_eq_true in Hm. apply negb_true_iff, bool_decide_eq_false in Hn. done.
Qed.

(** ** Lemmas: the profile form *)

Lemma portsOf_clean text : NoDup (portsOf text) ∧ ∀ port, port ∈ portsOf text → port ≠ [] ∧ trim port = port.
Proof.
  split; [apply NoDup_uniq|]. intros port (Hin & Ht)%elem_of_uniq%elem_of_filterb.
  apply list_elem_of_fmap in Hin as (x & -> & _). split; [|apply trim_trim]. by destruct (trim x).
Qed.
(** Outside of editing the form shows the organization. *)
Lemma profile_in_step o s : rtc profileStep (openOverview o) s → ps_editing s = false → ps_form s = profileForm (ps_organization s).
Proof.
  assert (Hsync : ∀ s, ps_editing (syncForm s) = false → ps_form (syncForm s) = profileForm (ps_organization (syncForm s))).
  { intros [? [] ? ? ?]; done. }
  intros Hs. eapply (rtc_ind_r (λ s, ps_editing s = false → ps_form s = profileForm (ps_organization s)) (openOverview o)); [done| |exact Hs].
  clear s Hs. intros s s' _ Hstep IH. destruct Hstep as [o' s|canEdit enabled s|patch s|s|newKey enabled s s' e Hsave|answer s _].
  - apply Hsync.
  - unfold editProfile. by destruct (canEdit && enabled && negb (ps_editing s)).
  - cbn. intros He. rewrite He. by apply IH.
  - unfold cancelProfile. destruct (ps_pending s); [done|]. intros _. done.
  - unfold saveProfile in Hsave. destruct (_ || _); [done|]. destruct (keyFor _ _ _). by injection Hsave as <- _.
  - destruct answer; [done|]. by cbn.
Qed.

(** The record is read again while the form is open: the form keeps what it opened with, and the
    save carries the newer revision, so what another administrator changed in between is
    overwritten with the old values and the server sees no conflict. *)
Lemma background_refetch_overwrites o o' patch newKey s e :
  (∀ f, pf_address (patch f) = pf_address f) →
  saveProfile newKey true
    (typeProfile patch (profileRefetched o' (editProfile true true (openOverview o)))) = Some (s, e) →
  ∃ payload, e = updateSystemOrganization (pos_id (po_base o')) payload newKey ∧
    jget (js "revision") payload = Some (enc (po_revision o')) ∧ jget (js "address") payload = Some (JStr (trim (po_address o))).
Proof.
  intros Haddr. unfold saveProfile. destruct (_ || _); [done|]. cbn. intros [= <- <-]. eexists. split; [reflexivity|].
  split; [done|]. unfold profilePayload. rewrite jget_mkObj. cbn. by rewrite Haddr.
Qed.
End EnvironmentFacts.
