(* ===== verification/UserManagement.v ===== *)
(** * User management (frontend/src/screens/UserManagement.tsx)

    The page's sections, the lists with their pages, and the two drawers that hand out temporary
    passwords: each password is shown once, to whoever asked for it, and kept nowhere else. *)
From S2P Require Import Prelude JsString Json Codec MeasurementTypes Host Uri Endpoints ApiClient JsNumber AppTypes.

(** ** The page *)

Inductive ManagementTab := tab_users | tab_invitations | tab_signup | tab_audit.
#[export] Instance ManagementTab_eq : EqDecision ManagementTab. Proof. solve_decision. Defined.
Definition activeTab (can : str → bool) (tab : ManagementTab) : ManagementTab :=
  match tab with
  | tab_audit => if can (js "audit.view") then tab else tab_users
  | tab_signup => if can (js "users.manage") then tab else tab_users
  | _ => tab
  end.
Definition managementTabs (can : str → bool) : list ManagementTab :=
  [tab_users; tab_invitations] ++ (if can (js "users.manage") then [tab_signup] else [])
  ++ (if can (js "audit.view") then [tab_audit] else []).
(** Arrow keys, Home and End on a tab. *)
Definition tabKey {A} `{EqDecision A} (tabs : list A) (here : A) (key : string) : option A :=
  let n := length tabs in
  let index := default 0%nat (fst <$> list_find (λ t, t = here) tabs) in
  if String.eqb key "ArrowRight" then tabs !! ((index + 1) mod n)%nat
  else if String.eqb key "ArrowLeft" then tabs !! ((index + n - 1) mod n)%nat
  else if String.eqb key "Home" then tabs !! 0%nat
  else if String.eqb key "End" then tabs !! (n - 1)%nat
  else None.

Definition PERMISSION_LABELS : list (str * str) :=
  map (λ e, (js e.1, js e.2))
    [("organization.view", "View organization profile"); ("organization.manage", "Manage organization profile");
     ("users.view", "View users and role access"); ("users.manage", "Invite, edit, suspend, and remove users");
     ("audit.view", "View audit history"); ("audit.export", "Export audit history"); ("calls.view", "View vessel calls");
     ("calls.manage", "Create, edit, and cancel vessel calls"); ("measurements.view", "View measurements and readings");
     ("measurements.manage", "Plan measurements and record agency readings"); ("measurements.approve", "Approve NPA reconciliation");
     ("measurements.bill", "Bill additional load"); ("inspections.view", "View inspections");
     ("inspections.manage", "Create, edit, and finalize inspections"); ("invoices.view", "View invoices");
     ("invoices.manage", "Create and progress invoices"); ("invoices.pay", "Record and reverse payments");
     ("settings.view", "View organization settings"); ("settings.manage", "Manage settings and invoice workflow");
     ("analytics.view", "View analytics"); ("documents.view", "Open invoices and reports");
     ("evidence.manage", "Upload and manage inspection evidence")]%string.
(** A cell of the role matrix. *)
Definition roleAllows (definitions : list RoleDefinition) (role : Role) (permission : str) : bool :=
  match findb (λ d, bool_decide (rd_role d = role)) (rev definitions) with
  | Some d => existsb (streq permission) (rd_permissions d)
  | None => false
  end.

(** The text of an error: the [email] or [name] field's, else the message. *)
Definition errorMessage (error : option ApiError) (fallback : str) : str :=
  match error with
  | None => fallback
  | Some e =>
      let field (k : string) := match jget (js k) (ae_errors e) with Some JNull => None | o => o end in
      match match field "email"%string with Some f => Some f | None => field "name"%string end with
      | Some (JArr items) => join [cSpace] (map (λ j, match j with JStr s => s | _ => [] end) items)
      | Some (JStr s) => if isEmpty s then ae_message e else s
      | _ => ae_message e
      end
  end.

(** A page of a list: how many there are, what the label says, and where the buttons lead. *)
Definition pageCount (count pageSize : Z) : Z := Z.max 1 ((count + pageSize - 1) / pageSize).
Definition pageLabel (page count pageSize : Z) : str :=
  if count =? 0 then js "0 results"
  else printZ ((page - 1) * pageSize + 1) ++ [8211%N] ++ printZ (Z.min (page * pageSize) count) ++ js " of " ++ printZ count.
Definition previousPage (page : Z) : option Z := if page <=? 1 then None else Some (page - 1).
Definition nextPage (page count pageSize : Z) : option Z := if pageCount count pageSize <=? page then None else Some (page + 1).

Section Status.
Context `{Host}.
(** [UserStatusBadge]: [None] is the badge of the status itself. *)
Definition userStatusLabel (member : User) (now : Z) : option str :=
  if bool_decide (usr_status member = user_active) && default false (usr_passwordChangeRequired member) then
    let expired := match usr_temporaryPasswordExpiresAt member with
                   | Some t => truthy t && match dateParse t with Some e => e <=? now | None => false end
                   | None => false end in
    Some (if expired then js "Temporary password expired" else js "First sign-in pending")
  else None.
(** The delay after which it looks at the clock again. *)
Definition badgeTimer (member : User) (now : Z) : option Z :=
  if negb (default false (usr_passwordChangeRequired member)) then None else
  t ← usr_temporaryPasswordExpiresAt member;
  if isEmpty t then None else
  expiry ← dateParse t;
  let remaining := expiry - now in
  if remaining <=? 0 then None else Some (Z.min (remaining + 1) 2147483647).
Definition invitationShown (i : Invitation) (now : Z) : InvitationStatus :=
  match itn_status i with
  | itn_pending => match dateParse (itn_expiresAt i) with Some e => if e <=? now then itn_expired else itn_pending | None => itn_pending end
  | s => s
  end.
End Status.

(** ** The list of users *)

Inductive UserAction := ua_activate | ua_suspend | ua_remove.
Record UsersState := mkUsersState {
  us_page : Z; us_query : str; us_role : option Role; us_status : option UserStatus;
  us_editor : option User; us_confirm : option (UserAction * User) }.
Definition openUsers : UsersState := mkUsersState 1 [] None None None None.
Definition searchUsers (query : str) (s : UsersState) : UsersState :=
  mkUsersState 1 query (us_role s) (us_status s) (us_editor s) (us_confirm s).
Definition filterRole (role : option Role) (s : UsersState) : UsersState :=
  mkUsersState 1 (us_query s) role (us_status s) (us_editor s) (us_confirm s).
Definition filterStatus (status : option UserStatus) (s : UsersState) : UsersState :=
  mkUsersState 1 (us_query s) (us_role s) status (us_editor s) (us_confirm s).
(** The buttons of a row. *)
Definition isSelf (currentId : option str) (member : User) : bool := bool_decide (Some (usr_id member) = currentId).
Definition rowActions (manage : bool) (currentId : option str) (member : User) : list UserAction :=
  if negb manage || isSelf currentId member then [] else
  match usr_status member with
  | user_suspended => [ua_activate; ua_remove]
  | user_removed => []
  | _ => [ua_suspend; ua_remove]
  end.
Definition actionRequest (a : UserAction) (member : User) : UserEndpoint :=
  match a with
  | ua_remove => removeUser (usr_id member)
  | ua_activate => updateUser (usr_id member) (mkObj [fld "status" (js "active")])
  | ua_suspend => updateUser (usr_id member) (mkObj [fld "status" (js "suspended")])
  end.

Definition roleText (r : Role) : str :=
  match r with Admin => js "Admin" | Operations => js "Operations" | Finance => js "Finance" | Viewer => js "Viewer" end.
Record TemporaryPasswordUserResult := mkTemporaryPassword {
  tp_user : User; tp_rev : Z; tp_temporaryPassword : str; tp_temporaryPasswordExpiresAt : str; tp_signInUrl : str }.

(** ** Editing a user *)

(** [UserDrawer]; [ud_requests] counts the replacements asked for and not answered. *)
Record UserDrawer := mkUserDrawer {
  ud_name : str; ud_role : Role; ud_regenerating : bool; ud_inFlight : bool; ud_error : option str;
  ud_credential : option TemporaryPasswordUserResult; ud_mounted : bool; ud_requests : nat }.
Definition openUserDrawer (member : User) : UserDrawer :=
  mkUserDrawer (usr_name member) (usr_role member) false false None None true 0.
Definition canManageMember (manage : bool) (currentId : option str) (member : User) : bool :=
  manage && negb (isSelf currentId member).
Definition pendingTemporaryAccount (member : User) : bool :=
  default false (usr_adminProvisioned member) && default false (usr_passwordChangeRequired member)
  && bool_decide (usr_status member = user_active).
Definition memberPatch (currentId : option str) (member : User) (d : UserDrawer) : json :=
  if isSelf currentId member then mkObj [] else mkObj [fld "name" (trim (ud_name d)); fld "role" (roleText (ud_role d))].
Definition mayRegenerate (manage : bool) (currentId : option str) (member : User) (d : UserDrawer) : bool :=
  canManageMember manage currentId member && pendingTemporaryAccount member && negb (ud_inFlight d) && negb (ud_regenerating d).
Definition regenerate (manage : bool) (currentId : option str) (member : User) (d : UserDrawer) : option (UserDrawer * UserEndpoint) :=
  if negb (mayRegenerate manage currentId member d) then None else
  Some (mkUserDrawer (ud_name d) (ud_role d) true true None (ud_credential d) (ud_mounted d) (S (ud_requests d)),
        regenerateTemporaryPassword (usr_id member)).
Definition regenerated (r : result (option ApiError) TemporaryPasswordUserResult) (d : UserDrawer) : UserDrawer :=
  if negb (ud_mounted d) then
    mkUserDrawer (ud_name d) (ud_role d) (ud_regenerating d) false (ud_error d) (ud_credential d) false (pred (ud_requests d))
  else match r with
  | Ok credential => mkUserDrawer (ud_name d) (ud_role d) false false (ud_error d) (Some credential) true (pred (ud_requests d))
  | Err e => mkUserDrawer (ud_name d) (ud_role d) false false
      (Some (errorMessage e (js "Could not generate a new temporary password. Please try again."))) (ud_credential d) true
      (pred (ud_requests d))
  end.
(** Escape, the scrim and the buttons; the guard keeps the drawer open while it waits. *)
Definition closeUserDrawer (d : UserDrawer) : UserDrawer :=
  if ud_regenerating d || ud_inFlight d then d
  else mkUserDrawer (ud_name d) (ud_role d) false false (ud_error d) None false (ud_requests d).

(** The details that are copied. *)
Definition textOr (s fallback : str) : str := if isEmpty s then fallback else s.
Definition signInDetails (fmtDateTime : str → str) (organization : option str) (r : TemporaryPasswordUserResult) : list str :=
  [js "NPA Vessel Caller"; js "Organization: " ++ textOr (default [] organization) (js "Your organization");
   js "Name: " ++ usr_name (tp_user r); js "Email: " ++ usr_email (tp_user r); js "Role: " ++ roleText (usr_role (tp_user r));
   js "Sign in: " ++ tp_signInUrl r; js "Temporary password: " ++ tp_temporaryPassword r;
   js "Expires: " ++ fmtDateTime (tp_temporaryPasswordExpiresAt r);
   js "You must choose your own password on first sign-in. Use this organization’s sign-in link and password; your accounts in other organizations stay separate."].
Definition copiedText (passwordOnly : bool) (fmtDateTime : str → str) (organization : option str)
    (r : TemporaryPasswordUserResult) : str :=
  if passwordOnly then tp_temporaryPassword r else join [10%N] (signInDetails fmtDateTime organization r).

(** ** Adding a user *)

Inductive SignInMethod := by_temporary | by_email.
#[export] Instance SignInMethod_eq : EqDecision SignInMethod. Proof. solve_decision. Defined.
Record NewUser := mkNewUser { nu_name : str; nu_email : str; nu_role : Role }.
Inductive NewUserRequest := rq_create (payload : NewUser) (replace : bool) | rq_invite (payload : NewUser).
Definition requestEmail (r : NewUserRequest) : str := match r with rq_create p _ | rq_invite p => nu_email p end.
Definition newUserCall (r : NewUserRequest) : UserEndpoint :=
  match r with
  | rq_create p replace =>
      createTemporaryPasswordUser (mkObj [fld "name" (nu_name p); fld "email" (nu_email p); fld "role" (roleText (nu_role p));
        (js "replacePendingInvitation", if replace then Some (JBool true) else None)])
  | rq_invite p => inviteUser (mkObj [fld "name" (nu_name p); fld "email" (nu_email p); fld "role" (roleText (nu_role p))])
  end.

Record AddUser := mkAddUser {
  au_method : SignInMethod; au_name : str; au_email : str; au_role : Role;
  au_creating : bool; au_inviting : bool; au_inFlight : bool;
  au_createError : option str; au_inviteError : option str;
  au_pendingInvitationEmail : option str; au_replacePendingInvitation : bool;
  au_result : option TemporaryPasswordUserResult; au_mounted : bool;
  (** sent and not answered *)
  au_requests : list NewUserRequest }.
Definition openAddUser : AddUser :=
  mkAddUser by_temporary [] [] Operations false false false None None None false None true [].
Definition addPending (s : AddUser) : bool := au_creating s || au_inviting s.

Section AddUser.
Context `{Host}.
Definition normalizedEmail (s : AddUser) : str := toLowerCase (trim (au_email s)).
(** [findExistingMember]: the signed-in user, or one of the lists the query cache holds. *)
Definition findExistingMember (currentUser : option User) (cached : list User) (s : AddUser) : option User :=
  let email := normalizedEmail s in
  if isEmpty email then None else
  match currentUser with
  | Some u => if streq (toLowerCase (usr_email u)) email then Some u
              else findb (λ m, streq (toLowerCase (usr_email m)) email) cached
  | None => findb (λ m, streq (toLowerCase (usr_email m)) email) cached
  end.
Definition hasPendingInvitation (s : AddUser) : bool :=
  bool_decide (au_method s = by_temporary) && bool_decide (au_pendingInvitationEmail s = Some (normalizedEmail s)).

Definition typeUser (name : str) (role : Role) (s : AddUser) : AddUser :=
  mkAddUser (au_method s) name (au_email s) role (au_creating s) (au_inviting s) (au_inFlight s) (au_createError s)
    (au_inviteError s) (au_pendingInvitationEmail s) (au_replacePendingInvitation s) (au_result s) (au_mounted s) (au_requests s).
Definition typeUserEmail (email : str) (s : AddUser) : AddUser :=
  mkAddUser (au_method s) (au_name s) email (au_role s) (au_creating s) (au_inviting s) (au_inFlight s) None
    (au_inviteError s) None false (au_result s) (au_mounted s) (au_requests s).
Definition chooseMethod (method : SignInMethod) (s : AddUser) : AddUser :=
  mkAddUser method (au_name s) (au_email s) (au_role s) (au_creating s) (au_inviting s) (au_inFlight s) None None None false
    (au_result s) (au_mounted s) (au_requests s).
Definition tickReplacement (checked : bool) (s : AddUser) : AddUser :=
  mkAddUser (au_method s) (au_name s) (au_email s) (au_role s) (au_creating s) (au_inviting s) (au_inFlight s)
    (au_createError s) (au_inviteError s) (au_pendingInvitationEmail s) checked (au_result s) (au_mounted s) (au_requests s).

(** Submitting; [valid] is [checkValidity()] of the form. *)
Definition submitUser (manage valid : bool) (currentUser : option User) (cached : list User) (s : AddUser)
  : option (AddUser * NewUserRequest) :=
  if negb manage || addPending s || au_inFlight s || negb valid || isEmpty (trim (au_name s))
     || bool_decide (is_Some (findExistingMember currentUser cached s))
     || (hasPendingInvitation s && negb (au_replacePendingInvitation s)) then None else
  let payload := mkNewUser (trim (au_name s)) (normalizedEmail s) (au_role s) in
  match au_method s with
  | by_email =>
      let request := rq_invite payload in
      Some (mkAddUser (au_method s) (au_name s) (au_email s) (au_role s) (au_creating s) true true None None
              (au_pendingInvitationEmail s) (au_replacePendingInvitation s) (au_result s) (au_mounted s)
              (request :: au_requests s), request)
  | by_temporary =>
      let request := rq_create payload (hasPendingInvitation s && au_replacePendingInvitation s) in
      Some (mkAddUser (au_method s) (au_name s) (au_email s) (au_role s) true (au_inviting s) true None (au_inviteError s)
              (au_pendingInvitationEmail s) (au_replacePendingInvitation s) (au_result s) (au_mounted s)
              (request :: au_requests s), request)
  end.

Inductive CreateAnswer :=
| an_created (credential : TemporaryPasswordUserResult)
| an_pendingInvitation (** 409 with the code [pending_invitation] *)
| an_failed (error : option ApiError).
(** How an error of the creation reads. *)
Definition createAnswer (r : result (option ApiError) TemporaryPasswordUserResult) : CreateAnswer :=
  match r with
  | Ok credential => an_created credential
  | Err (Some e) =>
      if (ae_status e =? 409) && match jget (js "code") (ae_errors e) with Some (JStr c) => streq c (js "pending_invitation") | _ => false end
      then an_pendingInvitation else an_failed (Some e)
  | Err None => an_failed None
  end.
(** [rest] is what remains unanswered. *)
Definition createdAnswered (payload : NewUser) (a : CreateAnswer) (rest : list NewUserRequest) (s : AddUser) : AddUser :=
  if negb (au_mounted s) then
    mkAddUser (au_method s) (au_name s) (au_email s) (au_role s) (au_creating s) (au_inviting s) false (au_createError s)
      (au_inviteError s) (au_pendingInvitationEmail s) (au_replacePendingInvitation s) (au_result s) false rest
  else match a with
  | an_created credential =>
      mkAddUser (au_method s) (au_name s) (au_email s) (au_role s) false (au_inviting s) false (au_createError s)
        (au_inviteError s) (au_pendingInvitationEmail s) (au_replacePendingInvitation s) (Some credential) true rest
  | an_pendingInvitation =>
      mkAddUser (au_method s) (au_name s) (au_email s) (au_role s) false (au_inviting s) false (au_createError s)
        (au_inviteError s) (Some (nu_email payload)) false (au_result s) true rest
  | an_failed e =>
      mkAddUser (au_method s) (au_name s) (au_email s) (au_role s) false (au_inviting s) false
        (Some (errorMessage e (js "Could not create the user. Please try again."))) (au_inviteError s) None false
        (au_result s) true rest
  end.
(** A sent invitation closes the drawer ([onCreated]); [failure] is the mutation's error. *)
Definition inviteAnswered (failure : option (option ApiError)) (rest : list NewUserRequest) (s : AddUser) : AddUser :=
  mkAddUser (au_method s) (au_name s) (au_email s) (au_role s) (au_creating s) false false (au_createError s)
    (match failure with
     | Some e => Some (errorMessage e (js "Could not create the invitation. Please try again."))
     | None => None end)
    (au_pendingInvitationEmail s) (au_replacePendingInvitation s) (au_result s)
    (match failure with Some _ => au_mounted s | None => false end) rest.
Definition closeAddUser (s : AddUser) : option AddUser :=
  if addPending s || au_inFlight s then None else
  Some (mkAddUser (au_method s) (au_name s) (au_email s) (au_role s) (au_creating s) (au_inviting s) (au_inFlight s)
          (au_createError s) (au_inviteError s) (au_pendingInvitationEmail s) (au_replacePendingInvitation s) None false
          (au_requests s)).
(** Another user or organization, or the loss of the permission, takes the drawer away. *)
Definition unmountAddUser (s : AddUser) : AddUser :=
  mkAddUser (au_method s) (au_name s) (au_email s) (au_role s) (au_creating s) (au_inviting s) (au_inFlight s)
    (au_createError s) (au_inviteError s) (au_pendingInvitationEmail s) (au_replacePendingInvitation s) None false (au_requests s).

(** What happens to the drawer. *)
Inductive AddEvent :=
| ev_typed | ev_email | ev_method | ev_ticked (checked : bool) | ev_sent (r : NewUserRequest)
| ev_answered (payload : NewUser) (a : CreateAnswer) | ev_invited (failure : option (option ApiError)) | ev_closed | ev_unmounted.
Inductive addStep : AddUser → AddEvent → AddUser → Prop :=
| st_typed name role s : au_mounted s = true → au_result s = None → addPending s = false → addStep s ev_typed (typeUser name role s)
| st_email email s : au_mounted s = true → au_result s = None → addPending s = false → addStep s ev_email (typeUserEmail email s)
| st_method method s : au_mounted s = true → au_result s = None → addPending s = false → addStep s ev_method (chooseMethod method s)
| st_ticked checked s : au_mounted s = true → au_result s = None → addPending s = false → hasPendingInvitation s = true →
    addStep s (ev_ticked checked) (tickReplacement checked s)
| st_sent manage valid currentUser cached s s' r : au_mounted s = true → au_result s = None →
    submitUser manage valid currentUser cached s = Some (s', r) → addStep s (ev_sent r) s'
| st_answered payload replace a l1 l2 s : au_requests s = l1 ++ rq_create payload replace :: l2 →
    addStep s (ev_answered payload a) (createdAnswered payload a (l1 ++ l2) s)
| st_invited payload failure l1 l2 s : au_requests s = l1 ++ rq_invite payload :: l2 →
    addStep s (ev_invited failure) (inviteAnswered failure (l1 ++ l2) s)
| st_closed s s' : au_mounted s = true → closeAddUser s = Some s' → addStep s ev_closed s'
| st_unmounted s : au_mounted s = true → addStep s ev_unmounted (unmountAddUser s).
Inductive addRun : list AddEvent → AddUser → Prop :=
| run_open : addRun [] openAddUser
| run_step evs s e s' : addRun evs s → addStep s e s' → addRun (evs ++ [e]) s'.

(** ** Lemmas: the drawer *)

(** One request at a time; while it is out, the drawer is waiting for it. *)
Definition oneRequest (s : AddUser) : Prop :=
  (length (au_requests s) ≤ 1)%nat ∧ (au_requests s ≠ [] → au_inFlight s = true) ∧
  (au_inFlight s = true → au_result s = None ∨ au_mounted s = false).
Lemma submitUser_spec manage valid currentUser cached s s' r : submitUser manage valid currentUser cached s = Some (s', r) →
  au_inFlight s = false ∧ au_requests s' = r :: au_requests s ∧ au_inFlight s' = true ∧
  au_result s' = au_result s ∧ au_mounted s' = au_mounted s ∧
  au_pendingInvitationEmail s' = au_pendingInvitationEmail s ∧ au_replacePendingInvitation s' = au_replacePendingInvitation s ∧
  requestEmail r = normalizedEmail s ∧
  ∀ payload, r = rq_create payload true → hasPendingInvitation s = true ∧ au_replacePendingInvitation s = true.
Proof.
  unfold submitUser. destruct (_ || _) eqn:E; [done|]. rewrite !orb_false_iff in E.
  destruct E as [[[[[[_ _] Hf] _] _] _] _]. destruct (au_method s); intros [= <- <-]; cbn; split_and!; try done.
  intros payload [= _ Hb]. by apply andb_true_iff in Hb.
Qed.
Lemma oneRequest_none s : au_requests s = [] → au_inFlight s = false → oneRequest s.
Proof. intros Hq Hf. split_and!; rewrite ?Hq, ?Hf; [simpl; lia|done|done]. Qed.
Lemma createdAnswered_idle payload a rest s :
  au_requests (createdAnswered payload a rest s) = rest ∧ au_inFlight (createdAnswered payload a rest s) = false.
Proof. unfold createdAnswered. destruct (negb _); [done|]. by destruct a. Qed.
Lemma only_request {A} (l1 l2 : list A) x : (length (l1 ++ x :: l2) ≤ 1)%nat → l1 ++ l2 = [].
Proof. rewrite length_app. simpl. destruct l1, l2; simpl; done || lia. Qed.
Lemma addRun_one evs s : addRun evs s → oneRequest s.
Proof.
  induction 1 as [|evs s e s' _ Hone Hstep]; [by apply oneRequest_none|].
  destruct Hstep as [name role s|email s|method s|checked s|manage valid currentUser cached s s' r Hm Hr Hsub|
    payload replace a l1 l2 s Hreq|payload failure l1 l2 s Hreq|s s' Hm Hclose|s Hm].
  1-4: exact Hone.
  all: destruct Hone as (IHl & IHf & IHr).
  - destruct (submitUser_spec _ _ _ _ _ _ _ Hsub) as (Hf & Hq & Hf' & Hr' & _).
    assert (Hnil : au_requests s = []) by (destruct (au_requests s); [done|]; rewrite IHf in Hf; [done|discriminate]).
    split_and!; [by rewrite Hq, Hnil|done|]. intros _. left. congruence.
  - rewrite Hreq in IHl. apply only_request in IHl as ->. apply oneRequest_none; apply createdAnswered_idle.
  - rewrite Hreq in IHl. apply only_request in IHl as ->. by apply oneRequest_none.
  - unfold closeAddUser in Hclose. destruct (_ || _) eqn:E; [done|]. injection Hclose as <-. apply orb_false_iff in E as [_ E].
    split_and!; [exact IHl|exact IHf|]. intros _. by left.
  - split_and!; [exact IHl|exact IHf|]. intros _. by left.
Qed.

(** Events that leave a refusal, or a confirmation, as it was. *)
Definition keepsRefusal (e : AddEvent) : Prop :=
  match e with ev_email | ev_method => False | ev_answered _ (an_created _) => True | ev_answered _ _ => False | _ => True end.
Definition keepsConfirmation (e : AddEvent) : Prop := keepsRefusal e ∧ match e with ev_ticked _ => False | _ => True end.
(** The server refused this address because an invitation is pending, and it is still the case. *)
Definition refusedFor (email : str) (evs : list AddEvent) : Prop :=
  ∃ a payload b, evs = a ++ ev_answered payload an_pendingInvitation :: b ∧ nu_email payload = email ∧ Forall keepsRefusal b.
Definition confirmedFor (email : str) (evs : list AddEvent) : Prop :=
  ∃ a b, evs = a ++ ev_ticked true :: b ∧ refusedFor email a ∧ Forall keepsConfirmation b.
Lemma refusedFor_snoc email evs e : keepsRefusal e → refusedFor email evs → refusedFor email (evs ++ [e]).
Proof.
  intros He (a & p & b & -> & Hp & Hb). exists a, p, (b ++ [e]). split_and!; [by rewrite <- app_assoc|done|].
  apply Forall_app. split; [done|by constructor].
Qed.
Lemma confirmedFor_snoc email evs e : keepsConfirmation e → confirmedFor email evs → confirmedFor email (evs ++ [e]).
Proof.
  intros He (a & b & -> & Hp & Hb). exists a, (b ++ [e]). split_and!; [by rewrite <- app_assoc|done|].
  apply Forall_app. split; [done|by constructor].
Qed.

(** While the drawer is open: what it knows about a pending invitation, and about its replacement. *)
Definition replacementOk (evs : list AddEvent) (s : AddUser) : Prop :=
  au_mounted s = true →
  (∀ email, au_pendingInvitationEmail s = Some email → refusedFor email evs) ∧
  (∀ email, au_pendingInvitationEmail s = Some email → au_replacePendingInvitation s = true → confirmedFor email evs) ∧
  (au_pendingInvitationEmail s = None → au_replacePendingInvitation s = false).
Lemma replacementOk_keep evs e s s' : replacementOk evs s → keepsConfirmation e → au_mounted s' = au_mounted s →
  au_pendingInvitationEmail s' = au_pendingInvitationEmail s →
  au_replacePendingInvitation s' = au_replacePendingInvitation s → replacementOk (evs ++ [e]) s'.
Proof.
  intros Hok He Hm Hp Hc Hm'. unfold replacementOk in Hok. rewrite <- Hm, <- Hp, <- Hc in Hok.
  destruct (Hok Hm') as (IHp & IHc & IHn). split_and!; [|intros; apply confirmedFor_snoc; auto|done].
  intros. apply refusedFor_snoc; [apply He|auto].
Qed.
Lemma replacementOk_cleared evs s : au_pendingInvitationEmail s = None → au_replacePendingInvitation s = false → replacementOk evs s.
Proof. intros Hp Hc _. rewrite Hp, Hc. done. Qed.
Lemma addRun_replacement evs s : addRun evs s → replacementOk evs s.
Proof.
  induction 1 as [|evs s e s' _ IH Hstep]; [by apply replacementOk_cleared|].
  destruct Hstep as [name role s|email s|method s|checked s Hm _ _ Hpend|manage valid currentUser cached s s' r Hm Hr Hsub|
    payload replace a l1 l2 s Hreq|payload failure l1 l2 s Hreq|s s' Hm Hclose|s Hm].
  - by eapply replacementOk_keep.
  - by apply replacementOk_cleared.
  - by apply replacementOk_cleared.
  - unfold hasPendingInvitation in Hpend. apply andb_true_iff in Hpend as [_ Hpend%bool_decide_eq_true].
    destruct (IH Hm) as (IHp & _ & _). intros _. unfold tickReplacement.
    cbn [au_pendingInvitationEmail au_replacePendingInvitation]. split_and!; [intros; apply refusedFor_snoc; [done|auto]| |by rewrite Hpend].
    intros email He ->. exists evs, []. split_and!; [done|auto|constructor].
  - destruct (submitUser_spec _ _ _ _ _ _ _ Hsub) as (_ & _ & _ & _ & Hm' & Hp & Hc & _). by eapply replacementOk_keep.
  - unfold createdAnswered. destruct (au_mounted s) eqn:Em; [|by intros ?]. cbn [negb]. destruct a as [credential| |er].
    + by eapply replacementOk_keep.
    + intros _. cbn [au_pendingInvitationEmail au_replacePendingInvitation]. split_and!; [|done|done].
      intros email [= <-]. exists evs, payload, []. split_and!; [done|done|constructor].
    + by apply replacementOk_cleared.
  - destruct failure as [er|]; [|by intros ?]. by eapply replacementOk_keep.
  - unfold closeAddUser in Hclose. destruct (_ || _); [done|]. injection Hclose as <-. by intros ?.
  - by intros ?.
Qed.

(** Nobody's invitation is replaced by accident. Whatever happened in the drawer, a request
    to create a user in place of a pending invitation is only sent after the server refused that
    very address because an invitation is pending, and the box was ticked after that, with
    neither the address nor the method touched since; and it is the only request under way. *)
Theorem replacement_confirmed (manage valid : bool) (currentUser : option User) (cached : list User)
    (evs : list AddEvent) (s s' : AddUser) (payload : NewUser)
    (Hrun : addRun evs s) (Hopen : au_mounted s = true)
    (Hsubmit : submitUser manage valid currentUser cached s = Some (s', rq_create payload true)) :
  confirmedFor (nu_email payload) evs ∧ au_requests s = [] ∧ au_requests s' = [rq_create payload true] ∧
  findExistingMember currentUser cached s = None.
Proof.
  destruct (submitUser_spec _ _ _ _ _ _ _ Hsubmit) as (Hf & Hq & _ & _ & _ & _ & _ & He & Hr).
  destruct (Hr payload eq_refl) as [Hpend Hrep]. destruct (addRun_one _ _ Hrun) as (_ & Hnil & _).
  destruct (addRun_replacement _ _ Hrun Hopen) as (_ & Hc & _).
  unfold hasPendingInvitation in Hpend. apply andb_true_iff in Hpend as [_ Hpend%bool_decide_eq_true].
  assert (Hempty : au_requests s = []) by (destruct (au_requests s); [done|]; rewrite Hnil in Hf; done).
  cbn [requestEmail] in He. rewrite He. split_and!; [by apply Hc|done|by rewrite Hq, Hempty|].
  unfold submitUser in Hsubmit. destruct (findExistingMember currentUser cached s); [|done].
  by rewrite bool_decide_eq_true_2, !orb_true_r in Hsubmit by (by eexists).
Qed.

(** A temporary password that arrived stays on the screen until the drawer is closed. *)
Lemma credential_stays evs s s' e credential : addRun evs s → au_mounted s = true → au_result s = Some credential →
  addStep s e s' → (e = ev_closed ∨ e = ev_unmounted) ∨ (au_mounted s' = true ∧ au_result s' = Some credential).
Proof.
  intros Hrun Hm Hr Hstep. destruct (addRun_one _ _ Hrun) as (_ & Hf & Hg).
  assert (Hnil : au_requests s = []).
  { destruct (au_requests s) eqn:Eq; [done|]. destruct (Hg (Hf ltac:(done))); congruence. }
  destruct Hstep as [name role s|email s|method s|checked s|manage valid currentUser cached s s' r|
    payload replace a l1 l2 s Hreq|payload failure l1 l2 s Hreq|s s' _ Hclose|s _]; try congruence.
  - rewrite Hnil in Hreq. by destruct l1.
  - rewrite Hnil in Hreq. by destruct l1.
  - left. by left.
  - left. by right.
Qed.
End AddUser.

#[local] Existing Instance asciiHost.
(** An address with a pending invitation: refused, confirmed and created. *)
Definition adaUser : NewUser := mkNewUser (js "Ada") (js "ada@npa.ng") Operations.
Definition typedAda : AddUser := typeUserEmail (js "Ada@npa.ng ") (typeUser (js "Ada") Operations openAddUser).
Definition sentAda : AddUser := (default (typedAda, rq_invite adaUser) (submitUser true true None [] typedAda)).1.
Definition tickedAda : AddUser := tickReplacement true (createdAnswered adaUser an_pendingInvitation [] sentAda).
Definition adaEvents : list AddEvent :=
  [ev_typed; ev_email; ev_sent (rq_create adaUser false); ev_answered adaUser an_pendingInvitation; ev_ticked true].
Lemma adaRun : addRun adaEvents tickedAda.
Proof.
  apply (run_step [ev_typed; ev_email; ev_sent (rq_create adaUser false); ev_answered adaUser an_pendingInvitation]
    (createdAnswered adaUser an_pendingInvitation [] sentAda)); [|by apply st_ticked].
  apply (run_step [ev_typed; ev_email; ev_sent (rq_create adaUser false)] sentAda);
    [|by apply (st_answered adaUser false an_pendingInvitation [] [])].
  apply (run_step [ev_typed; ev_email] typedAda); [|by apply (st_sent true true None [])].
  apply (run_step [ev_typed] (typeUser (js "Ada") Operations openAddUser)); [|by apply st_email].
  apply (run_step [] openAddUser); [constructor|by apply st_typed].
Qed.
Lemma replacement_confirmed_witness : ∃ s',
  submitUser true true None [] tickedAda = Some (s', rq_create adaUser true) ∧ confirmedFor (js "ada@npa.ng") adaEvents.
Proof.
  eexists. split; [vm_compute; reflexivity|].
  exact (proj1 (replacement_confirmed true true None [] adaEvents tickedAda _ adaUser adaRun eq_refl eq_refl)).
Defined.

(** ** Invitations and activity *)

Record InvitationsState := mkInvitations { iv_page : Z; iv_revoke : option Invitation; iv_notice : option str; iv_resending : bool }.
Definition openInvitations : InvitationsState := mkInvitations 1 None None false.
Definition invitationPending (i : Invitation) : bool := match itn_status i with itn_pending => true | _ => false end.
Definition resendInvitationClick (manage : bool) (i : Invitation) (s : InvitationsState) : option (InvitationsState * UserEndpoint) :=
  if negb manage || iv_resending s || negb (invitationPending i) then None
  else Some (mkInvitations (iv_page s) (iv_revoke s) None true, resendInvitation (itn_id i)).
Definition resendAnswered (ok : bool) (s : InvitationsState) : InvitationsState :=
  mkInvitations (iv_page s) (iv_revoke s)
    (if ok then Some (js "Invitation renewed. The previous link is no longer valid.") else iv_notice s) false.
Definition askRevoke (manage : bool) (i : Invitation) (s : InvitationsState) : InvitationsState :=
  if manage && invitationPending i then mkInvitations (iv_page s) (Some i) (iv_notice s) (iv_resending s) else s.
(** [ConfirmModal] confirms, then closes. *)
Definition confirmRevoke (s : InvitationsState) : option (InvitationsState * UserEndpoint) :=
  i ← iv_revoke s; Some (mkInvitations (iv_page s) None None (iv_resending s), revokeInvitation (itn_id i)).
Definition revokeAnswered (ok : bool) (s : InvitationsState) : InvitationsState :=
  mkInvitations (iv_page s) (iv_revoke s)
    (if ok then Some (js "Invitation revoked. The recipient can no longer use that link.") else iv_notice s) (iv_resending s).
(** The actions of the activity's filter. *)
Definition auditActions (rows : list AuditEvent) : list str := sort_by cmpUnits (uniq (map ade_action rows)).

(** ** Lemmas: pages *)

Lemma pageCount_spec count pageSize : 0 < pageSize → 0 < count →
  (pageCount count pageSize - 1) * pageSize < count <= pageCount count pageSize * pageSize.
Proof. intros Hs Hc. unfold pageCount. assert (1 <= (count + pageSize - 1) / pageSize) by (apply Z.div_le_lower_bound; lia). nia. Qed.
(** Every record is on exactly one page, and the buttons stay among the pages. *)
Lemma page_of_record count pageSize i : 0 < pageSize → 1 <= i <= count →
  ∃ page, 1 <= page <= pageCount count pageSize ∧
    ∀ p, (p - 1) * pageSize + 1 <= i <= Z.min (p * pageSize) count ↔ p = page.
Proof.
  intros Hs Hi. pose proof (pageCount_spec count pageSize Hs ltac:(lia)) as [H1 H2].
  exists ((i - 1) / pageSize + 1). split.
  - pose proof (Z.div_pos (i - 1) pageSize). split; [lia|].
    assert ((i - 1) / pageSize < pageCount count pageSize); [apply Z.div_lt_upper_bound; lia|lia].
  - intros p. split; [|intros ->; pose proof (Z.div_mod (i - 1) pageSize); pose proof (Z.mod_pos_bound (i - 1) pageSize); lia].
    intros Hp. assert ((i - 1) / pageSize = p - 1); [|lia]. symmetry. apply (Z.div_unique_pos _ _ _ (i - 1 - pageSize * (p - 1))); lia.
Qed.
Lemma nextPage_within page count pageSize page' : 1 <= page → nextPage page count pageSize = Some page' →
  1 <= page' <= pageCount count pageSize.
Proof. intros Hp. unfold nextPage. destruct (_ <=? _) eqn:E; [done|]. intros [= <-]. lia. Qed.
