(* ===== verification/Dues.v ===== *)
(** * Dues and commission preview (frontend/src/lib/calc.ts)

    The figures the screens show before the server issues an invoice, in binary64. *)
From Stdlib Require Import SpecFloat.
From S2P Require Import Prelude JsString JsNumber MeasurementTypes AppTypes.

Definition rateForInspection (insp : option Inspection) (settings : Settings) : option num :=
  match insp with
  | None => None
  | Some insp =>
    match insp_cargoType insp with
    | Dry => Some (stg_dryDuesRate settings)
    | Liquid =>
      let rates := stg_liquidDuesRates settings in
      match insp_jetty insp with
      | None => None
      | Some j =>
        if streq (jet_type j) (js "International") then Some (dues_international rates) else
        if streq (jet_type j) (js "Local") then
          match jet_category j with
          | Some c => if streq c (js "Government") then Some (dues_government rates)
                      else if streq c (js "Private") then Some (dues_private rates) else None
          | None => None
          end
        else None
      end
    end
  end.

(** [Math.round(x * 100) / 100] *)
Definition toCents (x : num) : num := numDiv (mathRound (numMul x (numOfZ 100))) (numOfZ 100).

(** [!rate || rate <= 0] *)
Definition noRate (rate : option num) : bool :=
  match rate with None => true | Some r => negb (numTruthy r) || numLeb r (numOfZ 0) end.

Definition calcDues (netTonnage : num) (rate : option num) : num :=
  if noRate rate then numOfZ 0 else
  let t := if numTruthy netTonnage then netTonnage else numOfZ 0 in
  toCents (numMul t (default (numOfZ 0) rate)).

Record Commission := mkCommission { com_usd : num; com_ngn : num }.
Definition calcCommission (dues : num) (settings : Settings) : Commission :=
  let usd := toCents (numMul dues (numDiv (stg_commissionRate settings) (numOfZ 100))) in
  let ngn := mathRound (numMul usd (stg_exchangeRate settings)) in
  mkCommission usd ngn.

Record Preview := mkPreview {
  prev_dues : num; prev_rate : option num; prev_commissionUsd : num; prev_commissionNgn : num }.
Definition calcPreview (netTonnage : num) (rate : option num) (settings : Settings) : Preview :=
  let dues := calcDues netTonnage rate in
  let c := calcCommission dues settings in
  mkPreview dues rate (com_usd c) (com_ngn c).

Definition sampleSettings : Settings :=
  mkSettings (numOfZ 4) (numOfZ 1500)
    (mkDuesRates (numDiv (numOfZ 21) (numOfZ 10)) (numOfZ 3) (numOfZ 4)) (numOfZ 2)
    (js "Port of Calabar") [].

(** 12,345 tonnes at 2.10: 25,924.50 dollars, of which 4%, at 1,500 naira a dollar. *)
Example preview_ex :
  let p := calcPreview (numOfZ 12345) (Some (dues_government (stg_liquidDuesRates sampleSettings))) sampleSettings in
  prev_dues p = numDiv (numOfZ 2592450) (numOfZ 100) ∧ prev_commissionUsd p = numDiv (numOfZ 103698) (numOfZ 100)
  ∧ prev_commissionNgn p = numOfZ 1555470.
Proof. vm_compute. repeat split. Qed.
