(* ===== verification/AuthContext.v ===== *)
(** * The session (frontend/src/auth/AuthContext.tsx)

    [AuthProvider] as a machine.  Its state is what the component renders, its refs, and the
    asynchronous operations suspended at an [await]; a step runs one operation up to its next
    [await] or settles what it waits for.  The server's answers, the other tabs' events and the
    order in which everything settles are the steps' arguments. *)
From Stdlib Require Import SpecFloat.
From S2P Require Import Prelude JsString Json Codec MeasurementTypes Host OfflineQueue Endpoints AuthEpoch ApiClient AppTypes.

Section Auth.
Context {File : Type} `{Host}.

(** ** Data *)

Inductive Status := loading | authenticated | anonymous | unavailable.
#[export] Instance Status_eq : EqDecision Status. Proof. solve_decision. Defined.

(** [Action] names and the permission each one needs; any other name is its own permission. *)
Definition ACTION_PERMISSION : list (str * str) :=
  [(js "registerCall", js "calls.manage"); (js "cancelCall", js "calls.manage");
   (js "addInspection", js "inspections.manage"); (js "recordPayment", js "invoices.pay");
   (js "manageSettings", js "settings.manage"); (js "manageTeam", js "users.manage");
   (js "viewUsers", js "users.view"); (js "viewAudit", js "audit.view");
   (js "viewAnalytics", js "analytics.view"); (js "viewDocuments", js "documents.view");
   (js "manageEvidence", js "evidence.manage")].

Record TemporaryPasswordChallenge := mkChallenge {
  tpc_token : str; tpc_expiresAt : str }.
#[export] Instance TemporaryPasswordChallenge_eq : EqDecision TemporaryPasswordChallenge.
Proof. solve_decision. Defined.

Inductive LoginResult :=
| lr_session (session : AuthSession)
| lr_mfa (challengeId : str)
| lr_passwordChange (challenge : TemporaryPasswordChallenge)
| lr_selectOrganization (organizations : list (str * str)).

(** A rejection: the [ApiError], or [None] for any other error. *)
Definition Failure : Type := option ApiError.
Definition isAnonymousSession (error : Failure) : bool :=
  match error with
  | None => false
  | Some e => (ae_status e =? 401)
      || ((ae_status e =? 403) && streq (ae_message e) (js "Authentication credentials were not provided."))
  end.

(** ** State *)

(** The React state; the challenge and its ref are always written together. *)
Record View := mkView {
  v_status : Status; v_user : option User; v_org : option Organization;
  v_platformAccess : option PlatformAccess; v_permissions : list str;
  v_authError : option str; v_sessionExpired : bool;
  v_challenge : option TemporaryPasswordChallenge }.

(** The refs, the module's session epoch, and the transitions of other tabs under way. *)
Record Refs := mkRefs {
  r_identity : option str; r_generation : Z; r_intent : Z; r_localOp : Z; r_epoch : Z;
  r_transitions : list str }.

Record AuthRequest := mkAuthRequest {
  rq_generation : Z; rq_sessionEpoch : Z; rq_identityIntent : Z }.

Inductive MeKind := me_refresh | me_retry | me_hydrate | me_reconcile.
Inductive IdentityKind :=
| id_login (email password : str) (organizationId : option str)
| id_password (password : str) (challenge : TemporaryPasswordChallenge)
| id_mfa (challengeId code : str).

(** A suspended operation. *)
Inductive Pending :=
| p_me (k : MeKind) (rq : AuthRequest)             (** awaits [api.me] *)
| p_barrier (k : IdentityKind) (localOp : Z) (barrier : option nat)
                                                   (** awaits [logoutBarrierRef.current] *)
| p_identity (k : IdentityKind) (rq : AuthRequest) (** awaits the sign-in call *)
| p_cleanup (organizationId userId : str).         (** a logout about to clear the offline queue *)

Record Auth := mkAuth {
  au_view : View; au_refs : Refs;
  au_cache : gset str;           (** the identities whose query results are cached *)
  au_ops : gmap nat Pending; au_next : nat;
  au_logouts : list (nat * option (str * str));   (** unsettled remote logouts, with their owner *)
  au_posted : Z;                 (** boundaries posted to the other tabs *)
  au_queue : Database File }.

Definition initialAuth (db : Database File) : Auth :=
  mkAuth (mkView loading None None None [] None false None) (mkRefs None 0 0 0 0 [])
    ∅ ∅ 0 [] 0 db.

Definition withView (v : View) (a : Auth) : Auth :=
  mkAuth v (au_refs a) (au_cache a) (au_ops a) (au_next a) (au_logouts a) (au_posted a) (au_queue a).
Definition withRefs (r : Refs) (a : Auth) : Auth :=
  mkAuth (au_view a) r (au_cache a) (au_ops a) (au_next a) (au_logouts a) (au_posted a) (au_queue a).
Definition withOps (ops : gmap nat Pending) (a : Auth) : Auth :=
  mkAuth (au_view a) (au_refs a) (au_cache a) ops (au_next a) (au_logouts a) (au_posted a) (au_queue a).
Definition suspend (p : Pending) (a : Auth) : Auth :=
  mkAuth (au_view a) (au_refs a) (au_cache a) (<[au_next a := p]> (au_ops a)) (S (au_next a))
    (au_logouts a) (au_posted a) (au_queue a).
Definition finished (id : nat) (a : Auth) : Auth := withOps (delete id (au_ops a)) a.

Definition setStatus (s : Status) (v : View) : View :=
  mkView s (v_user v) (v_org v) (v_platformAccess v) (v_permissions v) (v_authError v)
    (v_sessionExpired v) (v_challenge v).
Definition setError (e : option str) (v : View) : View :=
  mkView (v_status v) (v_user v) (v_org v) (v_platformAccess v) (v_permissions v) e
    (v_sessionExpired v) (v_challenge v).
Definition setChallenge (c : option TemporaryPasswordChallenge) (v : View) : View :=
  mkView (v_status v) (v_user v) (v_org v) (v_platformAccess v) (v_permissions v) (v_authError v)
    (v_sessionExpired v) c.
Definition setPlatformAccess (p : option PlatformAccess) (v : View) : View :=
  mkView (v_status v) (v_user v) (v_org v) p (v_permissions v) (v_authError v)
    (v_sessionExpired v) (v_challenge v).
Definition withoutSession (v : View) : View :=
  mkView (v_status v) None None None [] (v_authError v) (v_sessionExpired v) (v_challenge v).

(** ** Requests and the session *)

Definition advanceEpoch (a : Auth) : Auth :=
  let r := au_refs a in
  withRefs (mkRefs (r_identity r) (r_generation r) (r_intent r) (r_localOp r) (r_epoch r + 1)
    (r_transitions r)) a.

Definition beginAuthRequest (a : Auth) : Auth * AuthRequest :=
  let r := au_refs a in
  let g := r_generation r + 1 in
  (withRefs (mkRefs (r_identity r) g (r_intent r) (r_localOp r) (r_epoch r) (r_transitions r)) a,
   mkAuthRequest g (r_epoch r) (r_intent r)).

(** The request of the result is rebuilt by [rebaseIdentityRequest] before it is used; what the
    wait keeps of it is its local operation. *)
Definition beginIdentityRequest (a : Auth) : Auth * Z :=
  let r := au_refs a in
  let a := withRefs (mkRefs (r_identity r) (r_generation r) (r_intent r + 1) (r_localOp r + 1)
             (r_epoch r) (r_transitions r)) a in
  let a := fst (beginAuthRequest (advanceEpoch a)) in
  (a, r_localOp (au_refs a)).

Definition rebaseIdentityRequest (localOp : Z) (a : Auth) : option (Auth * AuthRequest) :=
  if localOp =? r_localOp (au_refs a) then Some (beginAuthRequest (advanceEpoch a)) else None.

Definition isCurrentAuthRequest (rq : AuthRequest) (a : Auth) : bool :=
  let r := au_refs a in
  (r_generation r =? rq_generation rq) && (r_epoch r =? rq_sessionEpoch rq)
  && (r_intent r =? rq_identityIntent rq).
Definition isCurrentSessionEpoch (rq : AuthRequest) (a : Auth) : bool :=
  let r := au_refs a in
  (r_epoch r =? rq_sessionEpoch rq) && (r_intent r =? rq_identityIntent rq).

Definition clearSessionState (expired : bool) (a : Auth) : Auth :=
  let r := au_refs a in
  mkAuth (mkView anonymous None None None [] None expired None)
    (mkRefs None (r_generation r + 1) (r_intent r + 1) (r_localOp r) (r_epoch r) (r_transitions r))
    ∅ (au_ops a) (au_next a) (au_logouts a) (au_posted a) (au_queue a).

Definition clearSession (expired broadcast : bool) (a : Auth) : Auth :=
  let a := advanceEpoch a in
  let a := mkAuth (au_view a) (au_refs a) (au_cache a) (au_ops a) (au_next a) (au_logouts a)
             (au_posted a + if broadcast then 1 else 0) (au_queue a) in
  clearSessionState expired a.

Definition sessionPermissions (session : AuthSession) : list str :=
  uniq (sess_permissions session
    ++ match sess_platformAccess session with Some p => pa_permissions p | None => [] end).

Definition applySession (session : AuthSession) (a : Auth) : Auth :=
  let r := au_refs a in
  let id := usr_id (sess_user session) in
  let changed := match r_identity r with Some i => truthy i && negb (streq i id) | None => false end in
  mkAuth
    (mkView authenticated (Some (sess_user session)) (sess_org session)
       (sess_platformAccess session) (sessionPermissions session) None false None)
    (mkRefs (Some id) (r_generation r) (r_intent r) (r_localOp r) (r_epoch r) (r_transitions r))
    (if changed then ∅ else au_cache a)
    (au_ops a) (au_next a) (au_logouts a) (au_posted a) (au_queue a).

Definition commitSession (session : AuthSession) (rq : AuthRequest) (a : Auth) : Auth * bool :=
  if negb (isCurrentAuthRequest rq a) then (a, false)
  else (applySession session (advanceEpoch a), true).

Definition commitIdentitySession (session : AuthSession) (generation : Z) (a : Auth) : Auth * bool :=
  if negb (r_generation (au_refs a) =? generation) then (a, false)
  else (applySession session a, true).

Definition settleIdentityAttemptWithoutSession (generation : Z) (a : Auth) : Auth :=
  if negb (r_generation (au_refs a) =? generation)
     || match r_identity (au_refs a) with Some i => truthy i | None => false end
  then a else withView (setStatus anonymous (au_view a)) a.

(** ** Reading the session: [refreshSession], [retrySession], hydration, reconciliation *)

Definition unreachable : str :=
  js "We could not reach the secure session service. Check your connection and try again.".

(** Up to the [await] of [api.me]. *)
Definition requestMe (k : MeKind) (a : Auth) : Auth :=
  let '(a, rq) := beginAuthRequest a in
  let a := match k with
           | me_retry => withView (setError None (setStatus loading (au_view a))) a
           | _ => a
           end in
  suspend (p_me k rq) a.

(** [api.me]'s callback: the epoch the request is performed under. *)
Definition meStarted (id : nat) (a : Auth) : Auth :=
  match au_ops a !! id with
  | Some (p_me k rq) =>
    withOps (<[id := p_me k (mkAuthRequest (rq_generation rq) (r_epoch (au_refs a))
                               (rq_identityIntent rq))]> (au_ops a)) a
  | _ => a
  end.

(** What an anonymous answer clears, and whether the other tabs are told. *)
Definition clearedBy (k : MeKind) : bool * bool :=
  match k with
  | me_refresh => (true, true) | me_retry => (false, true)
  | me_hydrate => (false, true) | me_reconcile => (false, false)
  end.

Definition meAnswered (k : MeKind) (rq : AuthRequest) (outcome : result Failure AuthSession)
    (a : Auth) : Auth :=
  match outcome with
  | Ok session => fst (commitSession session rq a)
  | Err error =>
    if isAnonymousSession error then
      if isCurrentSessionEpoch rq a then clearSession (fst (clearedBy k)) (snd (clearedBy k)) a else a
    else if negb (isCurrentAuthRequest rq a) then a
    else match k with
         | me_refresh => a
         | me_retry =>
             withView (setError (Some unreachable) (setStatus unavailable (withoutSession (au_view a)))) a
         | me_hydrate | me_reconcile =>
             withView (setError (Some unreachable) (setStatus unavailable (au_view a))) a
         end
  end.
Definition meSettled (id : nat) (outcome : result Failure AuthSession) (a : Auth) : Auth :=
  match au_ops a !! id with
  | Some (p_me k rq) => meAnswered k rq outcome (finished id a)
  | _ => a
  end.
(** The provider unmounts: hydration is cancelled. *)
Definition cancelHydration (id : nat) (a : Auth) : Auth :=
  match au_ops a !! id with Some (p_me me_hydrate _) => finished id a | _ => a end.

Definition reconcileExternalSession (a : Auth) : Auth := requestMe me_reconcile a.

(** ** Signing in *)

(** The barrier a sign-in waits for: the last remote logout, when one is under way. *)
Definition barrierOf (a : Auth) : option nat := fst <$> last (au_logouts a).

Definition beginIdentity (k : IdentityKind) (a : Auth) : Auth :=
  let '(a, localOp) := beginIdentityRequest a in
  suspend (p_barrier k localOp (barrierOf a)) a.
Definition login (email password : str) (organizationId : option str) (a : Auth) : Auth :=
  beginIdentity (id_login email password organizationId) (withView (setChallenge None (au_view a)) a).
Definition completeTemporaryPassword (password : str) (a : Auth) : result ApiError Auth :=
  match v_challenge (au_view a) with
  | None => Err (mkApiError (js "Sign in with your temporary password again to continue.") 400 (JObj []) None)
  | Some challenge => Ok (beginIdentity (id_password password challenge) a)
  end.
Definition verifyMfa (challengeId code : str) (a : Auth) : Auth :=
  beginIdentity (id_mfa challengeId code) a.

(** Past the barrier: rebase, or give up because a newer local operation began. *)
Definition barrierPassed (id : nat) (a : Auth) : Auth :=
  match au_ops a !! id with
  | Some (p_barrier k localOp barrier) =>
    if match barrier with Some b => existsb (λ l, Nat.eqb l.1 b) (au_logouts a) | None => false end
    then a (* still waiting *)
    else match rebaseIdentityRequest localOp a with
         | None => finished id a
         | Some (a', rq) =>
           let superseded := match k with
             | id_password _ challenge => negb (bool_decide (v_challenge (au_view a') = Some challenge))
             | _ => false end in
           if superseded then finished id a'
           else withOps (<[id := p_identity k rq]> (au_ops a')) a'
         end
  | _ => a
  end.

(** The call's answer, in the three operations. *)
Definition loginAnswered (generation : Z) (outcome : result Failure LoginResult) (a : Auth) : Auth :=
  match outcome with
  | Ok (lr_passwordChange challenge) =>
    if negb (r_generation (au_refs a) =? generation)
    then settleIdentityAttemptWithoutSession generation a
    else let a := clearSessionState false a in withView (setChallenge (Some challenge) (au_view a)) a
  | Ok (lr_selectOrganization _) =>
    if negb (r_generation (au_refs a) =? generation)
    then settleIdentityAttemptWithoutSession generation a
    else clearSessionState false a
  | Ok (lr_mfa _) => settleIdentityAttemptWithoutSession generation a
  | Ok (lr_session session) =>
    let '(a', ok) := commitIdentitySession session generation a in
    if ok then a' else reconcileExternalSession a'
  | Err _ => settleIdentityAttemptWithoutSession generation a
  end.
(** [PasswordChangeResult] is a session or an MFA challenge. *)
Definition passwordAnswered (generation : Z) (outcome : result Failure (AuthSession + str)) (a : Auth) : Auth :=
  match outcome with
  | Ok r =>
    if negb (r_generation (au_refs a) =? generation) then reconcileExternalSession a else
    let a := withView (setChallenge None (au_view a)) a in
    match r with
    | inr _ => settleIdentityAttemptWithoutSession generation a
    | inl session => fst (commitIdentitySession session generation a)
    end
  | Err _ => settleIdentityAttemptWithoutSession generation a
  end.
Definition mfaAnswered (generation : Z) (outcome : result Failure AuthSession) (a : Auth) : Auth :=
  match outcome with
  | Ok session =>
    let '(a', ok) := commitIdentitySession session generation a in
    if ok then a' else reconcileExternalSession a'
  | Err _ => settleIdentityAttemptWithoutSession generation a
  end.

Definition loginSettled (id : nat) (outcome : result Failure LoginResult) (a : Auth) : Auth :=
  match au_ops a !! id with
  | Some (p_identity (id_login _ _ _) rq) => loginAnswered (rq_generation rq) outcome (finished id a)
  | _ => a
  end.
Definition passwordSettled (id : nat) (outcome : result Failure (AuthSession + str)) (a : Auth) : Auth :=
  match au_ops a !! id with
  | Some (p_identity (id_password _ _) rq) => passwordAnswered (rq_generation rq) outcome (finished id a)
  | _ => a
  end.
Definition mfaSettled (id : nat) (outcome : result Failure AuthSession) (a : Auth) : Auth :=
  match au_ops a !! id with
  | Some (p_identity (id_mfa _ _) rq) => mfaAnswered (rq_generation rq) outcome (finished id a)
  | _ => a
  end.

(** ** Signing out *)

Definition logoutOwner (v : View) : option (str * str) :=
  match v_org v, v_user v with
  | Some o, Some u => if truthy (org_id o) && truthy (usr_id u) then Some (org_id o, usr_id u) else None
  | _, _ => None
  end.
Definition logout (a : Auth) : Auth :=
  let owner := logoutOwner (au_view a) in
  let r := au_refs a in
  let a := withRefs (mkRefs (r_identity r) (r_generation r) (r_intent r) (r_localOp r + 1)
             (r_epoch r) (r_transitions r)) a in
  let a := clearSession false false a in
  mkAuth (au_view a) (au_refs a) (au_cache a) (au_ops a) (S (au_next a))
    (au_logouts a ++ [(au_next a, owner)]) (au_posted a) (au_queue a).

(** The first remote logout settles, successfully or not: the next one starts, and this one goes
    on to clear its owner's queue. *)
Definition logoutSettled (a : Auth) : Auth :=
  match au_logouts a with
  | [] => a
  | (_, owner) :: rest =>
    let a := mkAuth (au_view a) (au_refs a) (au_cache a) (au_ops a) (au_next a) rest (au_posted a)
               (au_queue a) in
    match owner with
    | Some (organizationId, userId) => suspend (p_cleanup organizationId userId) a
    | None => a
    end
  end.
(** [schedule] orders the transactions of the removals. *)
Definition cleanup (id : nat) (schedule : list nat) (a : Auth) : Auth :=
  match au_ops a !! id with
  | Some (p_cleanup organizationId userId) =>
    let a := finished id a in
    mkAuth (au_view a) (au_refs a) (au_cache a) (au_ops a) (au_next a) (au_logouts a) (au_posted a)
      (fst (clearQueuedInspectionsForOwner schedule organizationId userId (au_queue a)))
  | _ => a
  end.

(** ** Events *)

(** [auth:expired] *)
Definition onExpired (a : Auth) : Auth := clearSession true true a.

Definition withTransitions (ts : list str) (a : Auth) : Auth :=
  let r := au_refs a in
  withRefs (mkRefs (r_identity r) (r_generation r) (r_intent r) (r_localOp r) (r_epoch r) ts) a.

(** The boundary listener; the epoch has advanced before it runs. *)
Definition onBoundary (event : AuthSessionBoundaryEvent) (a : Auth) : Auth :=
  let a := clearSessionState false a in
  let a := withView (setStatus loading (au_view a)) a in
  let ts := r_transitions (au_refs a) in
  match event with
  | ev_start t => withTransitions (t :: filterb (λ u, negb (streq u t)) ts) a
  | ev_settled t =>
    let ts := filterb (λ u, negb (streq u t)) ts in
    let a := withTransitions ts a in
    if Nat.eqb (length ts) 0 then reconcileExternalSession a else a
  | ev_boundary => reconcileExternalSession (withTransitions [] a)
  end.
Definition hear (event : AuthSessionBoundaryEvent) (a : Auth) : Auth := onBoundary event (advanceEpoch a).

(** A transition's watchdog fires. *)
Definition watchdog (t : str) (a : Auth) : Auth :=
  let ts := r_transitions (au_refs a) in
  if existsb (streq t) ts then
    let ts := filterb (λ u, negb (streq u t)) ts in
    let a := withTransitions ts a in
    if Nat.eqb (length ts) 0 then reconcileExternalSession a else a
  else a.

(** The assurance timer: the platform session needs a new step-up. *)
Definition stepUpExpired (now : Z) (a : Auth) : Auth :=
  match v_platformAccess (au_view a) with
  | Some p =>
    match pa_assuranceExpiresAt p with
    | Some at_ =>
      if truthy at_ && negb (default false (pa_stepUpRequired p))
         && match dateParse at_ with Some expires => expires - now <=? 0 | None => true end
      then withView (setPlatformAccess (Some (mkPlatformAccess (pa_role p) (pa_permissions p)
             (pa_mfaEnrollmentRequired p) (pa_authorized p) (pa_expiresAt p) (pa_assuranceExpiresAt p)
             (Some true) (pa_environment p) (pa_emailDeliveryReady p) (pa_mutationsEnabled p)))
             (au_view a)) a
      else a
    | None => a
    end
  | None => a
  end.

Definition setOrg (next : Organization) (a : Auth) : Auth :=
  let v := au_view a in
  withView (mkView (v_status v) (v_user v) (Some next) (v_platformAccess v) (v_permissions v)
    (v_authError v) (v_sessionExpired v) (v_challenge v)) a.

(** A query of the signed-in screens caches its result under the identity it ran for. *)
Definition queried (a : Auth) : Auth :=
  match v_status (au_view a), r_identity (au_refs a) with
  | authenticated, Some i =>
    mkAuth (au_view a) (au_refs a) ({[i]} ∪ au_cache a) (au_ops a) (au_next a) (au_logouts a)
      (au_posted a) (au_queue a)
  | _, _ => a
  end.

(** ** What the screens read *)

Definition homePath (v : View) : str :=
  match v_platformAccess v with
  | Some p => if default false (pa_mfaEnrollmentRequired p) then js "/system/account" else js "/system"
  | None =>
    match v_user v with
    | Some u => if default false (usr_mfaEnrollmentRequired u) then js "/app/account" else js "/app"
    | None => js "/app"
    end
  end.
Definition can (action : str) (v : View) : bool :=
  existsb (streq (default action (mget action ACTION_PERMISSION))) (v_permissions v).

(** ** Steps *)

Inductive auth_step (a : Auth) : Auth → Prop :=
| as_me k : auth_step a (requestMe k a)
| as_started id : auth_step a (meStarted id a)
| as_me_settled id r : auth_step a (meSettled id r a)
| as_cancel id : auth_step a (cancelHydration id a)
| as_login e p o : auth_step a (login e p o a)
| as_password p a' : completeTemporaryPassword p a = Ok a' → auth_step a a'
| as_mfa i c : auth_step a (verifyMfa i c a)
| as_barrier id : auth_step a (barrierPassed id a)
| as_login_settled id r : auth_step a (loginSettled id r a)
| as_password_settled id r : auth_step a (passwordSettled id r a)
| as_mfa_settled id r : auth_step a (mfaSettled id r a)
| as_logout : auth_step a (logout a)
| as_logout_settled : auth_step a (logoutSettled a)
| as_cleanup id schedule : auth_step a (cleanup id schedule a)
| as_expired : auth_step a (onExpired a)
| as_hear ev : auth_step a (hear ev a)
| as_watchdog t : auth_step a (watchdog t a)
| as_advance : auth_step a (advanceEpoch a)
| as_stepUp now : auth_step a (stepUpExpired now a)
| as_setOrg o : auth_step a (setOrg o a)
| as_query : auth_step a (queried a).

Definition authReachable (a : Auth) : Prop := ∃ db, rtc auth_step (initialAuth db) a.

End Auth.
