(* ===== verification/AuthInvariants.v ===== *)
(** * The session's invariants (frontend/src/auth/AuthContext.tsx)

    What every reachable state of [AuthContext] satisfies, and what becomes of the answers of
    requests that a newer sign-in or a sign-out has left behind. *)
From Stdlib Require Import SpecFloat.
From S2P Require Import Prelude JsString Json Codec MeasurementTypes Host OfflineQueue Endpoints AuthEpoch ApiClient AppTypes AuthContext.

Section Auth.
Context {File : Type} `{Host}.
Abbreviation Auth := (Auth (File := File)).
Implicit Types a b c : Auth.

Abbreviation gen a := (r_generation (au_refs a)).
Abbreviation localOp a := (r_localOp (au_refs a)).

(** ** How suspended operations evolve *)

(** No operation added: some may have finished, the counters only grow. *)
Record shrink a b : Prop := {
  sh_ops : au_ops b ⊆ au_ops a;
  sh_next : au_next b = au_next a;
  sh_logouts : au_logouts b = au_logouts a;
  sh_gen : gen a <= gen b;
  sh_local : localOp a <= localOp b }.

Lemma shrink_refl a : shrink a a.
Proof. by constructor. Qed.
Lemma shrink_trans a b c : shrink a b → shrink b c → shrink a c.
Proof.
  intros [] []. constructor; try congruence; try lia. by etrans.
Qed.
Lemma shrink_finished id a : shrink a (finished id a).
Proof. constructor; simpl; try done. apply delete_subseteq. Qed.
Lemma shrink_view v a : shrink a (withView v a).
Proof. by constructor. Qed.
Lemma shrink_begin a : shrink a (fst (beginAuthRequest a)).
Proof. constructor; simpl; try done; lia. Qed.
Lemma shrink_advance a : shrink a (advanceEpoch a).
Proof. constructor; simpl; try done; lia. Qed.
Lemma shrink_clearState e a : shrink a (clearSessionState e a).
Proof. constructor; simpl; try done; lia. Qed.
Lemma shrink_clear e p a : shrink a (clearSession e p a).
Proof. constructor; simpl; try done; lia. Qed.
Lemma shrink_apply s a : shrink a (applySession s a).
Proof. constructor; simpl; try done; lia. Qed.
Lemma shrink_transitions ts a : shrink a (withTransitions ts a).
Proof. constructor; simpl; try done; lia. Qed.
Lemma shrink_settle g a : shrink a (settleIdentityAttemptWithoutSession g a).
Proof. unfold settleIdentityAttemptWithoutSession. case_match; [apply shrink_refl|apply shrink_view]. Qed.
Lemma shrink_beginIdentity a : shrink a (fst (beginIdentityRequest a)).
Proof. constructor; simpl; try done; lia. Qed.
Lemma shrink_commit s rq a : shrink a (fst (commitSession s rq a)).
Proof.
  unfold commitSession. case_match; [apply shrink_refl|].
  eapply shrink_trans; [apply shrink_advance|apply shrink_apply].
Qed.
Lemma shrink_commitIdentity s g a : shrink a (fst (commitIdentitySession s g a)).
Proof. unfold commitIdentitySession. case_match; [apply shrink_refl|apply shrink_apply]. Qed.

Lemma shrink_meAnswered k rq o a : shrink a (meAnswered k rq o a).
Proof.
  unfold meAnswered. destruct o as [s|e]; [apply shrink_commit|].
  destruct (isAnonymousSession e); [case_match; [apply shrink_clear|apply shrink_refl]|].
  case_match; [apply shrink_refl|]. destruct k; try apply shrink_refl; apply shrink_view.
Qed.

(** Peel the operations off the result. *)
Ltac peel_shrink :=
  match goal with
  | |- shrink ?a ?a => apply shrink_refl
  | Hs : shrink ?a ?b |- shrink ?a ?b => exact Hs
  | |- shrink _ (finished _ _) => eapply shrink_trans; [|apply shrink_finished]
  | |- shrink _ (withView _ _) => eapply shrink_trans; [|apply shrink_view]
  | |- shrink _ (fst (beginAuthRequest _)) => eapply shrink_trans; [|apply shrink_begin]
  | |- shrink _ (advanceEpoch _) => eapply shrink_trans; [|apply shrink_advance]
  | |- shrink _ (clearSessionState _ _) => eapply shrink_trans; [|apply shrink_clearState]
  | |- shrink _ (clearSession _ _ _) => eapply shrink_trans; [|apply shrink_clear]
  | |- shrink _ (applySession _ _) => eapply shrink_trans; [|apply shrink_apply]
  | |- shrink _ (withTransitions _ _) => eapply shrink_trans; [|apply shrink_transitions]
  | |- shrink _ (settleIdentityAttemptWithoutSession _ _) => eapply shrink_trans; [|apply shrink_settle]
  | |- shrink _ (fst (commitSession _ _ _)) => eapply shrink_trans; [|apply shrink_commit]
  | |- shrink _ (fst (commitIdentitySession _ _ _)) => eapply shrink_trans; [|apply shrink_commitIdentity]
  | |- shrink _ (meAnswered _ _ _ _) => eapply shrink_trans; [|apply shrink_meAnswered]
  | |- shrink _ (fst (beginIdentityRequest _)) => eapply shrink_trans; [|apply shrink_beginIdentity]
  end.
Ltac shrinks := solve [repeat peel_shrink].

(** A suspended operation that begins in [b]. *)
Definition begun (p : Pending) b : Prop :=
  match p with
  | p_me _ rq => rq_generation rq <= gen b
  | p_barrier _ l bar => l = localOp b ∧ bar = barrierOf b
  | p_identity _ _ => False
  | p_cleanup _ _ => True
  end.

(** The only ways operations come, go and change. *)
Inductive evolves a : Auth → Prop :=
| ev_shrink b : shrink a b → evolves a b
| ev_suspend p b : shrink a b → begun p b → evolves a (suspend p b)
| ev_started id k rq e b : shrink a b → au_ops b !! id = Some (p_me k rq) →
    evolves a (withOps (<[id := p_me k (mkAuthRequest (rq_generation rq) e (rq_identityIntent rq))]> (au_ops b)) b)
| ev_passed id k bar rq b : au_ops a !! id = Some (p_barrier k (localOp a) bar) →
    (∀ m, bar = Some m → m ∉ (au_logouts a).*1) → shrink a b → rq_generation rq <= gen b →
    evolves a (withOps (<[id := p_identity k rq]> (au_ops b)) b)
| ev_logout o b c : shrink a b → au_ops c = au_ops b → au_next c = S (au_next b) →
    au_logouts c = au_logouts b ++ [(au_next b, o)] → gen c = gen b → localOp c = localOp b → evolves a c
| ev_popped h b c : au_logouts a = h :: au_logouts b → au_ops b = au_ops a → au_next b = au_next a →
    gen b = gen a → localOp b = localOp a → c = b ∨ (∃ o u, c = suspend (p_cleanup o u) b) → evolves a c.
Ltac shrinks_step := apply ev_shrink; shrinks.

Lemma evolves_requestMe k a b : shrink a b → evolves a (requestMe k b).
Proof.
  intros Hs. unfold requestMe. destruct (beginAuthRequest b) as [b' rq] eqn:E.
  assert (b' = fst (beginAuthRequest b)) as -> by (by rewrite E).
  injection E as <-. apply ev_suspend.
  - eapply shrink_trans; [exact Hs|]. destruct k; shrinks.
  - destruct k; simpl; lia.
Qed.
Lemma evolves_beginIdentity k a b : shrink a b → evolves a (beginIdentity k b).
Proof.
  intros Hs. unfold beginIdentity. destruct (beginIdentityRequest b) as [b' l] eqn:E.
  injection E as <- <-. apply ev_suspend; [|done].
  eapply shrink_trans; [exact Hs|]. apply (shrink_beginIdentity b).
Qed.
Lemma evolves_identity s g a b : shrink a b →
  evolves a (let '(b', ok) := commitIdentitySession s g b in
             if ok then b' else reconcileExternalSession b').
Proof.
  intros Hs. unfold commitIdentitySession. destruct (negb _); [by apply evolves_requestMe|].
  shrinks_step.
Qed.

Lemma evolves_barrier id a : evolves a (barrierPassed id a).
Proof.
  unfold barrierPassed. destruct (au_ops a !! id) as [[|k l barrier| |]|] eqn:E; try shrinks_step.
  destruct (match barrier with Some b => _ | None => _ end) eqn:Eb; [shrinks_step|].
  unfold rebaseIdentityRequest. destruct (l =? localOp a) eqn:El; [|shrinks_step].
  apply Z.eqb_eq in El. subst.
  destruct (beginAuthRequest (advanceEpoch a)) as [a' rq] eqn:Ea.
  assert (Hs : shrink a a').
  { replace a' with (fst (beginAuthRequest (advanceEpoch a))) by (by rewrite Ea).
    eapply shrink_trans; [apply shrink_advance|apply shrink_begin]. }
  assert (Hg : rq_generation rq <= gen a') by (injection Ea as <- <-; simpl; lia).
  assert (Hb : ∀ m, barrier = Some m → m ∉ (au_logouts a).*1).
  { intros m -> Hm. apply list_elem_of_fmap in Hm as (l & -> & Hl).
    rewrite existsb_false in Eb. specialize (Eb l Hl). by rewrite Nat.eqb_refl in Eb. }
  cbv zeta. match goal with |- evolves _ (if ?c then _ else _) => destruct c end; [shrinks_step|].
  eapply ev_passed; eauto.
Qed.

Lemma step_evolves a b : auth_step a b → evolves a b.
Proof.
  destruct 1 as [k|id|id r|id|e p o|p a' Hp|i c|id|id r|id r|id r| | |id| |ev|t| |now|o| ].
  - by apply evolves_requestMe, shrink_refl.
  - unfold meStarted. case_match; [|shrinks_step].
    case_match; try shrinks_step. subst. by apply (ev_started a id); [apply shrink_refl|].
  - unfold meSettled. repeat case_match; shrinks_step.
  - unfold cancelHydration. repeat case_match; shrinks_step.
  - apply evolves_beginIdentity, shrink_view.
  - unfold completeTemporaryPassword in Hp. case_match; [|done]. injection Hp as <-.
    apply evolves_beginIdentity, shrink_refl.
  - apply evolves_beginIdentity, shrink_refl.
  - apply evolves_barrier.
  - unfold loginSettled. destruct (au_ops a !! id) as [[|?|[] rq|]|]; try shrinks_step.
    pose proof (shrink_finished id a) as Hs. unfold loginAnswered.
    destruct r as [[s| | |]|]; [by apply evolves_identity|..]; repeat case_match; shrinks_step.
  - unfold passwordSettled. destruct (au_ops a !! id) as [[|?|[] rq|]|]; try shrinks_step.
    pose proof (shrink_finished id a) as Hs. unfold passwordAnswered.
    destruct r as [r|]; [|shrinks_step].
    destruct (negb _); [by apply evolves_requestMe|]. destruct r; shrinks_step.
  - unfold mfaSettled. destruct (au_ops a !! id) as [[|?|[] rq|]|]; try shrinks_step.
    pose proof (shrink_finished id a) as Hs. unfold mfaAnswered.
    destruct r as [s|]; [by apply evolves_identity|shrinks_step].
  - eapply (ev_logout a (logoutOwner (au_view a)) (clearSession false false
      (withRefs (mkRefs (r_identity (au_refs a)) (gen a) (r_intent (au_refs a)) (localOp a + 1)
        (r_epoch (au_refs a)) (r_transitions (au_refs a))) a))); try reflexivity.
    constructor; simpl; try done; lia.
  - unfold logoutSettled. destruct (au_logouts a) as [|[i o] rest] eqn:E; [shrinks_step|].
    set (b := mkAuth _ _ _ _ _ rest _ _).
    apply (ev_popped a (i, o) b); try done. destruct o as [[o u]|]; [right; eauto|by left].
  - unfold cleanup. destruct (au_ops a !! id) as [[]|]; try shrinks_step.
    apply ev_shrink. constructor; simpl; try done. apply delete_subseteq.
  - unfold onExpired. shrinks_step.
  - unfold hear, onBoundary.
    assert (Hs : shrink a (withView (setStatus loading (au_view (clearSessionState false (advanceEpoch a))))
      (clearSessionState false (advanceEpoch a)))) by shrinks.
    destruct ev; [apply evolves_requestMe; shrinks|shrinks_step|].
    cbv zeta. destruct (Nat.eqb _ _); [apply evolves_requestMe; shrinks|shrinks_step].
  - unfold watchdog. repeat case_match; try shrinks_step. apply evolves_requestMe. shrinks.
  - shrinks_step.
  - unfold stepUpExpired. repeat case_match; shrinks_step.
  - apply ev_shrink, shrink_view.
  - unfold queried. repeat case_match; apply ev_shrink; by constructor.
Qed.

(** ** Operations and barriers *)

Abbreviation ids a := ((au_logouts a).*1).

(** Requests belong to generations begun; whoever waits for a barrier waits for every remote
    logout requested before it; whoever has passed it has none left behind. *)
Definition opOk a (id : nat) (p : Pending) : Prop :=
  match p with
  | p_me _ rq => rq_generation rq <= gen a
  | p_barrier _ l bar => l <= localOp a ∧
      ∀ m, m ∈ ids a → (m < id)%nat → ∃ m', bar = Some m' ∧ (m ≤ m')%nat ∧ m' ∈ ids a
  | p_identity _ rq => rq_generation rq <= gen a ∧ ∀ m, m ∈ ids a → (id ≤ m)%nat
  | p_cleanup _ _ => True
  end.
Record opsInv a : Prop := {
  oi_ok : ∀ id p, au_ops a !! id = Some p → (id < au_next a)%nat ∧ opOk a id p;
  oi_next : ∀ m, m ∈ ids a → (m < au_next a)%nat;
  oi_sorted : StronglySorted lt (ids a) }.

Lemma sorted_last (l : list nat) x : StronglySorted lt l → last l = Some x → ∀ m, m ∈ l → (m ≤ x)%nat.
Proof.
  intros Hs (k & ->)%last_Some m [Hm| ->%list_elem_of_singleton]%elem_of_app; [|lia].
  apply StronglySorted_app in Hs as (Hs & _ & _). specialize (Hs m x Hm (proj2 (list_elem_of_singleton _ _) eq_refl)). lia.
Qed.

Lemma opOk_shrink a b id p : shrink a b → opOk a id p → opOk b id p.
Proof.
  intros [_ _ Hl Hg Hlo]. destruct p; simpl; rewrite ?Hl; [lia| |intros [? ?]; split; [lia|done]|done].
  intros [? ?]. split; [lia|done].
Qed.
Lemma opsInv_shrink a b : shrink a b → opsInv a → opsInv b.
Proof.
  intros Hs [Hok Hn Hso]. pose proof Hs as [Ho Hne Hl _ _]. constructor; rewrite ?Hl, ?Hne; [|done..].
  intros id p Hp. destruct (Hok id p) as [? ?]; [by eapply lookup_weaken|].
  split; [done|by eapply opOk_shrink].
Qed.
(** Replacing or adding one operation. *)
Lemma opsInv_insert a id p n : opsInv a → opOk a id p → (id < n)%nat → (au_next a ≤ n)%nat →
  opsInv (mkAuth (au_view a) (au_refs a) (au_cache a) (<[id := p]> (au_ops a)) n
            (au_logouts a) (au_posted a) (au_queue a)).
Proof.
  intros [Hok Hn Hso] Hp Hid Hle. constructor; simpl; [|intros m Hm; specialize (Hn m Hm); lia|done].
  intros i q [[<- <-]|[_ Hq]]%lookup_insert_Some; [done|]. apply Hok in Hq as [? Hq].
  split; [lia|exact Hq].
Qed.

Lemma begun_opOk p a : opsInv a → begun p a → opOk a (au_next a) p.
Proof.
  intros [_ Hn Hso]. destruct p as [|k l bar| |]; simpl; try done.
  intros [-> ->]. split; [lia|]. intros m Hm _. unfold barrierOf.
  destruct (last (ids a)) as [x|] eqn:E.
  - rewrite fmap_last in E. rewrite E. exists x. split; [done|]. rewrite <- fmap_last in E. split.
    + by eapply sorted_last.
    + by apply last_Some_elem_of.
  - apply last_None in E. rewrite E in Hm. by apply not_elem_of_nil in Hm.
Qed.

Lemma opsInv_evolves a b : opsInv a → evolves a b → opsInv b.
Proof.
  intros Hi [c Hs|p c Hs Hp|id k rq e c Hs Hl|id k bar rq c Hl Hb Hs Hg|o c d Hs Ho Hn Hlo Hg Hd|h c d Ha Ho Hn Hg Hd Hc].
  - by eapply opsInv_shrink.
  - apply (opsInv_shrink _ _ Hs) in Hi. apply opsInv_insert; [done|by apply begun_opOk|lia..].
  - apply (opsInv_shrink _ _ Hs) in Hi. destruct (oi_ok _ Hi _ _ Hl) as [Hid Hok].
    apply opsInv_insert; [done|exact Hok|done|lia].
  - destruct (oi_ok _ Hi _ _ Hl) as [Hid [_ Hok]].
    apply opsInv_insert; [by eapply opsInv_shrink| |by rewrite (sh_next _ _ Hs)|lia].
    simpl. split; [done|]. rewrite (sh_logouts _ _ Hs). intros m Hm.
    destruct (decide (m < id)%nat) as [Hlt|Hge].
    + destruct (Hok m Hm Hlt) as (m' & -> & _ & Hm'). by apply Hb in Hm'.
    + lia.
  - apply (opsInv_shrink _ _ Hs) in Hi. destruct Hi as [Hok Hne Hso].
    assert (Hids : ids d = ids c ++ [au_next c]) by (by rewrite Hlo, fmap_app).
    constructor; rewrite ?Ho, ?Hn, ?Hids.
    + intros id p Hp. destruct (Hok id p Hp) as [Hlt Hop]. split; [lia|].
      destruct p; simpl in *; rewrite ?Hg, ?Hd, ?Hids; [done| |destruct Hop as [? Hop]; split; [done|]|done].
      * destruct Hop as [? Hop]. split; [done|]. intros m [Hm| ->%list_elem_of_singleton]%elem_of_app Hlt'; [|lia].
        destruct (Hop m Hm Hlt') as (m' & ? & ? & ?). exists m'. rewrite elem_of_app. auto.
      * intros m [Hm| ->%list_elem_of_singleton]%elem_of_app; [auto|lia].
    + intros m [Hm| ->%list_elem_of_singleton]%elem_of_app; [apply Hne in Hm; lia|lia].
    + apply StronglySorted_app. split; [|split; [done|repeat constructor]].
      intros x y Hx ->%list_elem_of_singleton. by apply Hne.
  - assert (Hic : opsInv c).
    { destruct Hi as [Hok Hne Hso]. rewrite Ha in Hne, Hso. cbn in Hne, Hso.
      apply StronglySorted_inv in Hso as [Hso Hall]. rewrite Forall_forall in Hall.
      constructor; rewrite ?Ho, ?Hn; [| |done].
      - intros id p Hp. destruct (Hok id p Hp) as [Hlt Hop]. split; [done|].
        destruct p; simpl in *; rewrite ?Hg, ?Hd, ?Ha in *; cbn in *; [done| | |done].
        + destruct Hop as [? Hop]. split; [done|]. intros m Hm Hlt'.
          destruct (Hop m (list_elem_of_further _ _ _ Hm) Hlt') as (m' & ? & ? & [->|]%elem_of_cons); [|eauto].
          specialize (Hall m Hm). lia.
        + destruct Hop as [? Hop]. split; [done|]. intros m Hm. by apply Hop, list_elem_of_further.
      - intros m Hm. by apply Hne, list_elem_of_further. }
    destruct Hc as [->|(o & u & ->)]; [done|]. apply opsInv_insert; simpl; [done..|lia|lia].
Qed.

Lemma opsInv_steps a b : opsInv a → rtc auth_step a b → opsInv b.
Proof.
  intros Hi Hr. induction Hr as [|a b c Hab _ IH]; [done|].
  eapply IH, opsInv_evolves; [done|by apply step_evolves].
Qed.
Lemma opsInv_reachable a : authReachable a → opsInv a.
Proof.
  intros (db & Hr). eapply opsInv_steps; [|exact Hr].
  constructor; simpl; [|by intros m ?%not_elem_of_nil|constructor]. by intros id p ?%lookup_empty_Some.
Qed.

(** ** Requests left behind *)

(** Every operation older than [n] belongs to an abandoned generation. *)
Definition staleOp a (p : Pending) : Prop :=
  match p with
  | p_me _ rq | p_identity _ rq => rq_generation rq < gen a
  | p_barrier _ l _ => l < localOp a
  | p_cleanup _ _ => True
  end.
Record stale (n : nat) a : Prop := {
  sl_ops : ∀ id p, (id < n)%nat → au_ops a !! id = Some p → staleOp a p;
  sl_next : (n ≤ au_next a)%nat }.

Lemma staleOp_le a b p : gen a <= gen b → localOp a <= localOp b → staleOp a p → staleOp b p.
Proof. destruct p; simpl; lia. Qed.

Lemma stale_evolves n a b : stale n a → evolves a b → stale n b.
Proof.
  intros Hi [c Hs|p c Hs Hp|id k rq e c Hs Hl|id k bar rq c Hl Hb Hs Hg|o c d Hs Ho Hn Hlo Hg Hd|h c d Ha Ho Hn Hg Hd Hc].
  all: assert (Hsh : ∀ c, shrink a c → stale n c) by
    (intros c' [Ho' Hn' _ Hg' Hd']; destruct Hi as [Hi Hle]; constructor; [|lia];
     intros i q Hin Hq; eapply staleOp_le; [exact Hg'|exact Hd'|]; eapply Hi; [exact Hin|];
     by eapply lookup_weaken).
  - by apply Hsh.
  - destruct (Hsh _ Hs) as [Hi' Hle]. constructor; simpl; [|lia].
    intros i q Hin [[<- <-]|[_ Hq]]%lookup_insert_Some; [lia|by apply (Hi' i)].
  - destruct (Hsh _ Hs) as [Hi' Hle]. constructor; simpl; [|done].
    intros i q Hin [[<- <-]|[_ Hq]]%lookup_insert_Some; [exact (Hi' id _ Hin Hl)|by apply (Hi' i)].
  - destruct (Hsh _ Hs) as [Hi' Hle]. constructor; simpl; [|done].
    intros i q Hin [[<- <-]|[_ Hq]]%lookup_insert_Some; [|by apply (Hi' i)].
    pose proof (sl_ops _ _ Hi _ _ Hin Hl) as Hst. simpl in Hst. lia.
  - destruct (Hsh _ Hs) as [Hi' Hle]. constructor; rewrite ?Ho, ?Hn; [|lia].
    intros i q Hin Hq. eapply staleOp_le; [| |by eapply Hi']; lia.
  - assert (Hc' : stale n c).
    { destruct Hi as [Hi Hle]. constructor; rewrite ?Ho, ?Hn; [|done].
      intros i q Hin Hq. eapply staleOp_le; [| |by eapply Hi]; lia. }
    destruct Hc as [->|(o & u & ->)]; [done|]. destruct Hc' as [Hi' Hle]. constructor; simpl; [|lia].
    intros i q Hin [[<- <-]|[_ Hq]]%lookup_insert_Some; [done|by apply (Hi' i)].
Qed.
Lemma stale_steps n a b : stale n a → rtc auth_step a b → stale n b.
Proof. intros Hs Hr. induction Hr as [|a b c Hab _ IH]; [done|]. eapply IH, stale_evolves; [done|by apply step_evolves]. Qed.

(** Beginning a newer generation and local operation leaves everything under way behind. *)
Lemma stale_bumped a b : opsInv a → au_ops b ⊆ au_ops a → (au_next a ≤ au_next b)%nat →
  gen a < gen b → localOp a < localOp b → stale (au_next a) b.
Proof.
  intros Hi Ho Hn Hg Hl. constructor; [|done]. intros id p _ Hp.
  destruct (oi_ok _ Hi id p) as [_ Hop]; [by eapply lookup_weaken|]. destruct p; simpl in *; lia.
Qed.

(** ** What is shown *)

(** Who is shown, who the cached results belong to, and what goes with nobody being signed in. *)
Record viewOk (v : View) (identity : option str) (cache : gset str) : Prop := {
  vo_user : ∀ u, v_user v = Some u → identity = Some (usr_id u);
  vo_nobody : v_user v = None → v_permissions v = [] ∧ v_platformAccess v = None;
  vo_authenticated : v_status v = authenticated → v_user v ≠ None;
  vo_anonymous : v_status v = anonymous → ∀ u, v_user v = Some u → usr_id u = [];
  vo_challenge : v_challenge v ≠ None → v_user v = None;
  vo_permissions : NoDup (v_permissions v);
  vo_cache : ∀ i, i ∈ cache → i ≠ [] → identity = Some i }.
Definition viewInv a : Prop := viewOk (au_view a) (r_identity (au_refs a)) (au_cache a).

Lemma viewInv_cleared expired a : viewInv (clearSessionState expired a).
Proof. constructor; simpl; try done; try set_solver. constructor. Qed.
Lemma viewInv_clear expired broadcast a : viewInv (clearSession expired broadcast a).
Proof. apply viewInv_cleared. Qed.
Lemma viewInv_applied s a : viewInv a → viewInv (applySession s a).
Proof.
  intros [Hu Hn Ha Han Hc Hp Hca]. constructor; simpl; try done.
  - by intros u [= <-].
  - apply NoDup_uniq.
  - intros i Hi Hne. destruct (r_identity (au_refs a)) as [j|] eqn:E.
    + destruct (truthy j && negb (streq j (usr_id (sess_user s)))) eqn:Et; [set_solver|].
      pose proof (Hca i Hi Hne) as [= ->].
      destruct i as [|x i]; [done|]. simpl in Et. apply negb_false_iff, streq_true in Et. by f_equal.
    + by pose proof (Hca i Hi Hne).
Qed.
Lemma viewOk_status st v i q : viewOk v i q → st ≠ authenticated →
  (st = anonymous → ∀ u, v_user v = Some u → usr_id u = []) → viewOk (setStatus st v) i q.
Proof. intros [] Hst Han. by constructor. Qed.
Lemma viewOk_error e v i q : viewOk v i q → viewOk (setError e v) i q.
Proof. intros []. by constructor. Qed.
Lemma viewOk_noChallenge v i q : viewOk v i q → viewOk (setChallenge None v) i q.
Proof. intros []. by constructor. Qed.
Lemma viewInv_settle g a : viewInv a → viewInv (settleIdentityAttemptWithoutSession g a).
Proof.
  intros Hi. unfold settleIdentityAttemptWithoutSession.
  destruct (negb _ || _) eqn:E; [done|]. apply orb_false_iff in E as [_ E].
  apply viewOk_status; [done..|]. intros _ u Hu. rewrite (vo_user _ _ _ Hi u Hu) in E.
  by destruct (usr_id u).
Qed.
Lemma viewInv_commit s rq a : viewInv a → viewInv (fst (commitSession s rq a)).
Proof. intros Hi. unfold commitSession. case_match; [done|]. by apply viewInv_applied. Qed.
Lemma viewInv_commitIdentity s g a : viewInv a → viewInv (fst (commitIdentitySession s g a)).
Proof. intros Hi. unfold commitIdentitySession. case_match; [done|]. by apply viewInv_applied. Qed.
Lemma viewInv_requestMe k a : viewInv a → viewInv (requestMe k a).
Proof.
  intros Hi. destruct k; try exact Hi. apply viewOk_error, viewOk_status; [exact Hi|done..].
Qed.
Lemma viewInv_meAnswered k rq o a : viewInv a → viewInv (meAnswered k rq o a).
Proof.
  intros Hi. unfold meAnswered. destruct o as [s|e]; [by apply viewInv_commit|].
  destruct (isAnonymousSession e); [case_match; [apply viewInv_clear|done]|].
  case_match; [done|]. destruct k; [done|..].
  - destruct Hi. constructor; simpl; try done. constructor.
  - by apply viewOk_error, viewOk_status.
  - by apply viewOk_error, viewOk_status.
Qed.
Lemma viewInv_identity s g a : viewInv a →
  viewInv (let '(b, ok) := commitIdentitySession s g a in if ok then b else reconcileExternalSession b).
Proof.
  intros Hi. unfold commitIdentitySession. destruct (negb _); [by apply viewInv_requestMe|].
  by apply viewInv_applied.
Qed.
Lemma viewInv_barrier id a : viewInv a → viewInv (barrierPassed id a).
Proof.
  intros Hi. unfold barrierPassed, rebaseIdentityRequest.
  destruct (au_ops a !! id) as [[|k l bar| |]|]; try exact Hi.
  destruct (match bar with Some _ => _ | None => _ end); [exact Hi|].
  destruct (l =? _); [|exact Hi]. cbn. match goal with |- viewInv (if ?c then _ else _) => destruct c end; exact Hi.
Qed.

#[local] Hint Resolve viewInv_cleared viewInv_clear viewInv_applied viewInv_settle viewInv_commit
  viewInv_commitIdentity viewInv_requestMe viewInv_meAnswered viewInv_identity viewInv_barrier
  viewOk_noChallenge : vessel.

Lemma viewInv_loginAnswered g r a : viewInv a → viewInv (loginAnswered g r a).
Proof.
  intros Hi. unfold loginAnswered. destruct r as [[s|c|c|os]|e]; auto with vessel.
  - case_match; [auto with vessel|]. by destruct (viewInv_cleared false a).
  - case_match; auto with vessel.
Qed.
Lemma viewInv_passwordAnswered g r a : viewInv a → viewInv (passwordAnswered g r a).
Proof.
  intros Hi. unfold passwordAnswered. destruct r as [r|e]; [|auto with vessel].
  case_match; [by apply viewInv_requestMe|].
  assert (viewInv (withView (setChallenge None (au_view a)) a)) by (by apply viewOk_noChallenge).
  destruct r; auto with vessel.
Qed.

Lemma viewInv_stepUp now a : viewInv a → viewInv (stepUpExpired now a).
Proof.
  intros Hi. unfold stepUpExpired. repeat case_match; try exact Hi.
  all: destruct Hi as [Hu Hn Ha Han Hc Hp Hca]; constructor; simpl; try done.
  all: intros Hnone; apply Hn in Hnone as [_ Hnone]; simplify_eq.
Qed.

Lemma viewInv_step a b : viewInv a → auth_step a b → viewInv b.
Proof.
  intros Hi [k|id|id r|id|e p o|p a' Hp|i c|id|id r|id r|id r| | |id| |ev|t| |now|o| ].
  - by apply viewInv_requestMe.
  - unfold meStarted. repeat case_match; exact Hi.
  - unfold meSettled. repeat case_match; try exact Hi. by apply viewInv_meAnswered.
  - unfold cancelHydration. repeat case_match; exact Hi.
  - apply (viewOk_noChallenge _ _ _ Hi).
  - unfold completeTemporaryPassword in Hp. case_match; [|done]. injection Hp as <-. exact Hi.
  - exact Hi.
  - by apply viewInv_barrier.
  - unfold loginSettled. destruct (au_ops a !! id) as [[|?|[] rq|]|]; try exact Hi. by apply viewInv_loginAnswered.
  - unfold passwordSettled. destruct (au_ops a !! id) as [[|?|[] rq|]|]; try exact Hi. by apply viewInv_passwordAnswered.
  - unfold mfaSettled. destruct (au_ops a !! id) as [[|?|[] rq|]|]; try exact Hi.
    unfold mfaAnswered. destruct r; [by apply viewInv_identity|by apply viewInv_settle].
  - exact (viewInv_cleared false a).
  - unfold logoutSettled. repeat case_match; exact Hi.
  - unfold cleanup. repeat case_match; exact Hi.
  - apply viewInv_clear.
  - unfold hear, onBoundary. set (c := withView _ _).
    assert (Hc : viewInv c) by (by apply viewOk_status; [apply viewInv_cleared|..]).
    cbv zeta. repeat case_match; exact Hc.
  - unfold watchdog. cbv zeta. repeat case_match; exact Hi.
  - exact Hi.
  - by apply viewInv_stepUp.
  - by destruct Hi.
  - unfold queried. repeat case_match; try exact Hi.
    destruct Hi as [Hu Hn Ha Han Hc Hp Hca]. constructor; simpl; try done.
    intros j [->%elem_of_singleton|Hj]%elem_of_union Hne; [done|by apply Hca].
Qed.
Lemma viewInv_reachable a : authReachable a → viewInv a.
Proof.
  intros (db & Hr). remember (initialAuth db) as i eqn:Ei.
  assert (Hi : viewInv i).
  { subst. constructor; simpl; try done. constructor. }
  clear Ei. induction Hr as [|a b c Hab _ IH]; [done|]. eapply IH, viewInv_step; done.
Qed.

(** ** Answers to requests left behind *)

(** The ways the operation [id] receives its answer. *)
Inductive answers (id : nat) c : Auth → Prop :=
| an_me r : answers id c (meSettled id r c)
| an_login r : answers id c (loginSettled id r c)
| an_password r : answers id c (passwordSettled id r c)
| an_mfa r : answers id c (mfaSettled id r c).

Lemma notCurrent rq a : rq_generation rq < gen a → isCurrentAuthRequest rq a = false.
Proof.
  intros Hlt. unfold isCurrentAuthRequest.
  replace (gen a =? rq_generation rq) with false by (symmetry; apply Z.eqb_neq; lia). done.
Qed.
Lemma otherGeneration g a : g < gen a → (gen a =? g) = false.
Proof. intros. apply Z.eqb_neq. lia. Qed.

Lemma stale_answer n id c d : stale n c → (id < n)%nat → answers id c d →
  v_user (au_view d) = v_user (au_view c) ∨ v_user (au_view d) = None.
Proof.
  intros Hs Hid Hd. pose proof (sl_ops _ _ Hs id) as Hst.
  destruct Hd as [r|r|r|r]; unfold meSettled, loginSettled, passwordSettled, mfaSettled;
    destruct (au_ops c !! id) as [[k rq|?|[] rq|]|]; try (by left);
    specialize (Hst _ Hid eq_refl); simpl in Hst.
  - unfold meAnswered, commitSession. rewrite (notCurrent rq (finished id c)) by exact Hst.
    destruct r as [s|e]; [by left|]. repeat case_match; try (by left). by right.
  - unfold loginAnswered, commitIdentitySession, settleIdentityAttemptWithoutSession.
    rewrite (otherGeneration (rq_generation rq) (finished id c)) by exact Hst. left. by destruct r as [[]|].
  - unfold passwordAnswered, settleIdentityAttemptWithoutSession.
    rewrite (otherGeneration (rq_generation rq) (finished id c)) by exact Hst. left. by destruct r as [[]|].
  - unfold mfaAnswered, commitIdentitySession, settleIdentityAttemptWithoutSession.
    rewrite (otherGeneration (rq_generation rq) (finished id c)) by exact Hst. left. by destruct r.
Qed.

(** A sign-out, or the start of a newer sign-in. *)
Inductive newerIntent a : Auth → Prop :=
| ni_logout : newerIntent a (logout a)
| ni_login e p o : newerIntent a (login e p o a)
| ni_password p b : completeTemporaryPassword p a = Ok b → newerIntent a b
| ni_mfa i code : newerIntent a (verifyMfa i code a).

Lemma newerIntent_stale a b : opsInv a → newerIntent a b → stale (au_next a) b.
Proof.
  intros Hi Hn. assert (Hbegin : ∀ k c, au_ops c = au_ops a → au_next c = au_next a →
    gen c = gen a → localOp c = localOp a → stale (au_next a) (beginIdentity k c)).
  { intros k c Ho Hne Hg Hl. constructor; [|simpl; lia].
    intros id p Hid Hp. unfold beginIdentity in Hp. simpl in Hp. rewrite lookup_insert_ne in Hp by lia.
    rewrite Ho in Hp. destruct (oi_ok _ Hi _ _ Hp) as [_ Hop]. destruct p; simpl in *; lia. }
  destruct Hn as [|e p o|p b Hp|i c]; [apply stale_bumped; simpl; try done; lia|by apply Hbegin| |by apply Hbegin].
  unfold completeTemporaryPassword in Hp. case_match; [|done]. injection Hp as <-. by apply Hbegin.
Qed.

(** ** Properties *)

(** C11. What is shown is consistent in every reachable state: an authenticated screen has a user,
    who is the current identity; once anonymous nobody (with an id) is shown; and without a user,
    in particular while a temporary password is being changed, no permission is granted. *)
Theorem session_consistent a : authReachable a →
  (v_status (au_view a) = authenticated →
     ∃ u, v_user (au_view a) = Some u ∧ r_identity (au_refs a) = Some (usr_id u)) ∧
  (v_status (au_view a) = anonymous → ∀ u, v_user (au_view a) = Some u → usr_id u = []) ∧
  (v_challenge (au_view a) ≠ None → v_user (au_view a) = None) ∧
  (v_user (au_view a) = None → v_platformAccess (au_view a) = None ∧ ∀ action, can action (au_view a) = false).
Proof.
  intros Hr%viewInv_reachable. destruct Hr as [Hu Hn Ha Han Hc Hp Hca]. repeat split; try done.
  - intros Hst. specialize (Ha Hst). destruct (v_user (au_view a)) as [u|]; [eauto|done].
  - by apply Hn.
  - intros action. apply Hn in H0 as [Hperm _]. unfold can. by rewrite Hperm.
Qed.

(** Cached query results never outlive an identity change: in every reachable state whatever
    is cached was fetched for the user who is shown. *)
Theorem cached_data_isolated a u i : authReachable a →
  v_user (au_view a) = Some u → i ∈ au_cache a → i ≠ [] → i = usr_id u.
Proof.
  intros Hr%viewInv_reachable Hu Hi Hne.
  apply (vo_cache _ _ _ Hr) in Hi; [|done]. apply (vo_user _ _ _ Hr) in Hu. congruence.
Qed.

(** A sign-in call is only made after the sign-outs requested before it have been answered:
    every sign-out still unanswered was requested later. *)
Theorem login_after_logout a id k rq m : authReachable a →
  au_ops a !! id = Some (p_identity k rq) → m ∈ ids a → (id ≤ m)%nat.
Proof. intros Hr%opsInv_reachable Hl. by destruct (oi_ok _ Hr _ _ Hl) as [_ [_ Hm]]; apply Hm. Qed.

(** C12. Signing out, or starting a newer sign-in, leaves everything under way behind: whatever
    happens next, the answer to an operation begun before changes who is shown only to nobody,
    and a sign-in still waiting is never sent. *)
Theorem left_behind_never_signs_in a b c d id : authReachable a → newerIntent a b →
  rtc auth_step b c → (id < au_next a)%nat →
  (answers id c d → v_user (au_view d) = v_user (au_view c) ∨ v_user (au_view d) = None) ∧
  (∀ k l bar k' rq, au_ops c !! id = Some (p_barrier k l bar) →
     au_ops (barrierPassed id c) !! id ≠ Some (p_identity k' rq)).
Proof.
  intros Hr%opsInv_reachable Hn Hs Hid.
  pose proof (stale_steps _ _ _ (newerIntent_stale _ _ Hr Hn) Hs) as Hst.
  split; [by apply (stale_answer (au_next a))|].
  intros k l bar k' rq Hl. pose proof (sl_ops _ _ Hst id _ Hid Hl) as Hlt. simpl in Hlt.
  unfold barrierPassed, rebaseIdentityRequest. rewrite Hl.
  replace (l =? localOp c) with false by (symmetry; apply Z.eqb_neq; lia).
  case_match; [rewrite Hl; congruence|]. simpl. by rewrite lookup_delete_eq.
Qed.

(** A boundary announced by another tab removes the session at once: nobody is shown, nothing
    is permitted or cached, nothing is announced in turn, and unless a transition is still under
    way the server is asked, by a current request, which session the cookie now holds. *)
Theorem boundary_clears ev a :
  let b := hear ev a in
  v_user (au_view b) = None ∧ (∀ action, can action (au_view b) = false) ∧ au_cache b = ∅ ∧
  v_status (au_view b) = loading ∧ au_posted b = au_posted a ∧
  (r_transitions (au_refs b) = [] → ∃ rq,
     au_ops b !! au_next a = Some (p_me me_reconcile rq) ∧ isCurrentAuthRequest rq b = true).
Proof.
  cbv zeta. unfold hear, onBoundary. set (c := withView _ (clearSessionState _ _)).
  assert (Hc : v_user (au_view c) = None ∧ v_permissions (au_view c) = [] ∧ au_cache c = ∅ ∧
    v_status (au_view c) = loading ∧ au_posted c = au_posted a) by done.
  assert (Hn : au_next c = au_next a) by done. clearbody c. destruct Hc as (Hu & Hp & Hq & Hs & Hpo).
  assert (Hcan : ∀ v, v_permissions v = [] → ∀ action, can action v = false)
    by (intros v Hv action; unfold can; by rewrite Hv).
  assert (Hm : ∀ ts, ∃ rq, au_ops (reconcileExternalSession (withTransitions ts c)) !! au_next a
      = Some (p_me me_reconcile rq) ∧ isCurrentAuthRequest rq (reconcileExternalSession (withTransitions ts c)) = true).
  { intros ts. eexists. simpl. rewrite Hn, lookup_insert_eq. split; [done|].
    unfold isCurrentAuthRequest. simpl. by rewrite !Z.eqb_refl. }
  destruct ev as [|t|t]; cbv zeta.
  - repeat split; try done. by apply Hcan.
  - repeat split; try done. by apply Hcan.
  - destruct (Nat.eqb (length _) 0) eqn:E; (repeat split; try done); try (by apply Hcan).
    simpl. intros Hts. rewrite Hts in E. done.
Qed.
End Auth.

(** ** A run *)

Definition sampleUser : User :=
  mkUser (js "ada") (js "Ada") (js "ada@port.example") Admin user_active None true true true
    None None None None None None None.
Definition sampleOrganization : Organization :=
  mkOrganization (js "org") true (js "Calabar Agencies") [] [] [] [] [] (js "Port of Calabar") [] None 1 None.
Definition sampleSession : AuthSession :=
  mkAuthSession sampleUser (Some sampleOrganization) [js "calls.view"; js "calls.manage"] None.

#[local] Existing Instance asciiHost.
Abbreviation SampleAuth := (AuthContext.Auth (File := unit)).

Definition opened : SampleAuth := requestMe me_hydrate (initialAuth (mkDatabase 0 None [])).
Definition signedIn : SampleAuth := queried (meSettled 0 (Ok sampleSession) (meStarted 0 opened)).
(** Ada refreshes her session, signs out, and Ben starts to sign in before either is answered. *)
Definition leaving : SampleAuth := logout (requestMe me_refresh signedIn).
Definition entering : SampleAuth := login (js "ben@port.example") (js "secret") None leaving.
Definition entered : SampleAuth := barrierPassed 3 (logoutSettled entering).

Lemma authReachable_step (a b : SampleAuth) : authReachable a → auth_step a b → authReachable b.
Proof. intros (db & Hr) Hs. exists db. by eapply rtc_r. Qed.
Lemma signedIn_reachable : authReachable signedIn.
Proof.
  eapply authReachable_step; [|apply as_query]. eapply authReachable_step; [|apply as_me_settled].
  eapply authReachable_step; [|apply as_started]. eapply authReachable_step; [|apply as_me].
  eexists. apply rtc_refl.
Qed.
Lemma entering_reachable : authReachable entering.
Proof.
  eapply authReachable_step; [|apply as_login]. eapply authReachable_step; [|apply as_logout].
  eapply authReachable_step; [|apply as_me]. apply signedIn_reachable.
Qed.
Lemma entered_reachable : authReachable entered.
Proof.
  eapply authReachable_step; [|apply as_barrier]. eapply authReachable_step; [|apply as_logout_settled].
  apply entering_reachable.
Qed.

Lemma session_consistent_witness : ∃ u,
  v_user (au_view signedIn) = Some u ∧ r_identity (au_refs signedIn) = Some (usr_id u).
Proof. apply (session_consistent signedIn signedIn_reachable). reflexivity. Defined.

Lemma cached_data_isolated_witness : js "ada" = usr_id sampleUser.
Proof.
  apply (cached_data_isolated signedIn sampleUser (js "ada") signedIn_reachable); [reflexivity| |done].
  vm_compute. set_solver.
Defined.

(** Ada's sign-out was answered; should Ben sign out too, it comes after his sign-in. *)
Lemma login_after_logout_witness : (3 ≤ 5)%nat.
Proof.
  eapply (login_after_logout (logout entered) 3 _ _ 5); [|vm_compute; reflexivity|vm_compute; set_solver].
  eapply authReachable_step; [apply entered_reachable|apply as_logout].
Defined.

(** The refresh of Ada's session is answered with her session: still nobody is shown. *)
Lemma left_behind_never_signs_in_witness :
  v_user (au_view (meSettled 1 (Ok sampleSession) entering)) = None.
Proof.
  destruct (left_behind_never_signs_in (requestMe me_refresh signedIn) leaving entering
    (meSettled 1 (Ok sampleSession) entering) 1) as [Hd _].
  - eapply authReachable_step; [apply signedIn_reachable|apply as_me].
  - apply ni_logout.
  - eapply rtc_once, as_login.
  - vm_compute. lia.
  - destruct (Hd (an_me _ _ _)) as [E|E]; exact E.
Defined.

(** ** What the session does not promise *)

(** An organization read before a sign-out, such as a poll's answer, is shown again after it. *)
Example setOrg_after_logout : ∃ a : SampleAuth, authReachable a ∧
  v_status (au_view a) = anonymous ∧ v_user (au_view a) = None ∧ v_org (au_view a) = Some sampleOrganization.
Proof.
  exists (setOrg sampleOrganization leaving). split; [|done].
  eapply authReachable_step; [|apply as_setOrg]. eapply authReachable_step; [|apply as_logout].
  eapply authReachable_step; [apply signedIn_reachable|apply as_me].
Qed.

(** When the epoch advances while the first read of the session is under way, its answer is
    dropped and nothing replaces it: the screen stays loading with nothing pending. *)
Example loading_stuck : ∃ a : SampleAuth, authReachable a ∧ v_status (au_view a) = loading ∧
  au_ops a = ∅ ∧ r_transitions (au_refs a) = [] ∧ au_logouts a = [].
Proof.
  exists (meSettled 0 (Ok sampleSession) (advanceEpoch (meStarted 0 opened))).
  split; [|vm_compute; done].
  eapply authReachable_step; [|apply as_me_settled]. eapply authReachable_step; [|apply as_advance].
  eapply authReachable_step; [|apply as_started]. eapply authReachable_step; [|apply as_me].
  eexists. apply rtc_refl.
Qed.
