(* ===== verification/Uploads.v ===== *)
(** * Uploads and inspections (frontend/src/lib/api.ts, measurements/api.ts, app/store.tsx)

    The operations of the client that make several requests, each one depending on the answers
    before it: a program asks one request at a time and continues with its answer, whatever it
    is.  The uploads of a capture run under [Promise.all]; they are asked file by file here,
    each to its end, and the first failure is the one reported. *)
From Stdlib Require Import SpecFloat.
From S2P Require Import Prelude JsString Json Codec MeasurementTypes Uri Endpoints ApiClient JsNumber AppTypes.

(** ** Files *)

Class BrowserFile (File : Type) := {
  file_name : File → str; file_type : File → str; file_size : File → Z;
  (** the bytes of [crypto.subtle.digest("SHA-256", await fileBytes(file))] *)
  file_sha256 : File → list N }.

(** [byte.toString(16).padStart(2, "0")] *)
Definition hexDigit (n : N) : N := (if n <? 10 then n + 48 else n + 87)%N.
Definition byteHex (b : N) : str :=
  let digits := if (b <? 16)%N then [hexDigit b] else [hexDigit (b / 16); hexDigit (b mod 16)] in
  padStart 2 cZero digits.
Definition hexText (bytes : list N) : str := flat_map byteHex bytes.

Example hexText_ex : hexText [0; 171; 16; 255]%N = js "00ab10ff".
Proof. reflexivity. Qed.

(** [createIdempotencyKey]: the platform's UUID, else sixteen random bytes. *)
Definition createIdempotencyKey (uuid : option str) (bytes : list N) : str :=
  match uuid with Some u => u | None => hexText bytes end.

(** ** Programs *)

Inductive Rejection :=
| r_api (e : ApiError)
| r_type (message : str)       (** a [TypeError]: [fetch] could not reach the server *)
| r_error (message : str).

Record Prepared := mkPrepared {
  pr_uploadUrl : str; pr_method : str; pr_headers : option (list (str * str)); pr_objectKey : str }.
Record InspectionMutationResult := mkInspectionMutation {
  imr_inspection : Inspection; imr_invoice : option Invoice; imr_call : option VesselCall;
  imr_rev : Z }.

Section Programs.
Context {File : Type} `{BrowserFile File}.

(** A request with the type of its answer. *)
Inductive Req : Type → Type :=
| q_prepare (c : Call) : Req Prepared
| q_put (url method : str) (headers : option (list (str * str))) (file : File) : Req Z
                                             (** [fetch] to the store: the answer's status *)
| q_form (c : Call) (file : File) : Req str  (** a multipart request: the object's key *)
| q_done (c : Call) : Req unit
| q_evidence (c : Call) : Req Evidence
| q_logo (c : Call) : Req str
| q_inspection (c : Call) : Req (Inspection * Z)
| q_mutation (c : Call) : Req InspectionMutationResult.

Inductive Api (T : Type) : Type :=
| ret (t : T)
| fail (e : Rejection)
| ask {A : Type} (q : Req A) (k : result Rejection A → Api T).
#[global] Arguments ret {T} t.
#[global] Arguments fail {T} e.
#[global] Arguments ask {T A} q k.

(** [await] a request: a rejection is thrown. *)
Definition call {A T} (q : Req A) (k : A → Api T) : Api T :=
  ask q (λ r, match r with Ok a => k a | Err e => fail e end).
Fixpoint bind {T U} (m : Api T) (k : T → Api U) : Api U :=
  match m with
  | ret t => k t
  | fail e => fail e
  | ask q k' => ask q (λ r, bind (k' r) k)
  end.
(** The promise's settlement, as a value. *)
Fixpoint settled {T} (m : Api T) : Api (result Rejection T) :=
  match m with
  | ret t => ret (Ok t)
  | fail e => ret (Err e)
  | ask q k' => ask q (λ r, settled (k' r))
  end.
Fixpoint all (ms : list (Api unit)) : Api unit :=
  match ms with
  | [] => ret tt
  | m :: rest =>
    bind (settled m) (λ r1, bind (settled (all rest)) (λ r2,
      match r1 with Err e => fail e | Ok _ => match r2 with Err e => fail e | Ok _ => ret tt end end))
  end.

(** ** Uploads *)

Definition checksumOf (file : File) : str := js "sha256:" ++ hexText (file_sha256 file).
Definition fileFields (file : File) : fields :=
  [fld "fileName" (file_name file); fld "contentType" (file_type file);
   (js "size", Some (JNum (file_size file))); fld "checksum" (checksumOf file)].
Definition okStatus (status : Z) : bool := (200 <=? status) && (status <? 300).
Definition rejected (message : string) (status : Z) : Rejection :=
  r_api (mkApiError (js message) status (JObj []) None).
(** [response.status || 500] *)
Definition statusOr500 (status : Z) : Z := if status =? 0 then 500 else status.

Definition uploadEvidenceFile (inspectionId : str) (file : File) : Api unit :=
  call (q_prepare (send "POST" [Lit "api"; Lit "evidence"; Lit "presign"]
          (body (fld "inspectionId" inspectionId :: fileFields file)))) (λ prepared,
  call (q_put (pr_uploadUrl prepared) (js "PUT") (pr_headers prepared) file) (λ status,
  if negb (okStatus status) then fail (rejected "Could not upload an evidence photo" status) else
  call (q_done (send "POST" [Lit "api"; Lit "evidence"]
          (body (fld "inspectionId" inspectionId :: fld "objectKey" (pr_objectKey prepared)
                 :: fileFields file)))) ret)).

Definition oneOf (types : list string) (t : str) : bool := existsb (λ s, streq (js s) t) types.

Definition uploadInvoiceAttachment (invoiceId : str) (file : File) : Api unit :=
  if negb (oneOf ["application/pdf"; "image/jpeg"; "image/png"; "image/webp"]%string (file_type file))
     || (15 * 1024 * 1024 <? file_size file)
  then fail (rejected "Choose a PDF, PNG, JPEG, or WebP file no larger than 15 MB." 400) else
  call (q_prepare (send "POST" [Lit "api"; Lit "invoice-attachments"; Lit "presign"]
          (body (fld "invoiceId" invoiceId :: fileFields file)))) (λ prepared,
  call (q_put (pr_uploadUrl prepared) (pr_method prepared) (pr_headers prepared) file) (λ status,
  if negb (okStatus status) then fail (rejected "Could not upload the invoice file" (statusOr500 status))
  else
  call (q_done (send "POST" [Lit "api"; Lit "invoice-attachments"]
          (body (fld "invoiceId" invoiceId :: fld "objectKey" (pr_objectKey prepared)
                 :: fileFields file)))) ret)).

(** The logo goes through the private store, or through the API when the browser may not reach
    the store. *)
Definition uploadOrganizationLogo (file : File) : Api str :=
  if negb (oneOf ["image/png"; "image/jpeg"; "image/webp"]%string (file_type file))
     || (2 * 1024 * 1024 <? file_size file)
  then fail (rejected "Choose a PNG, JPEG, or WebP image no larger than 2 MB." 400) else
  call (q_prepare (send "POST" [Lit "api"; Lit "organization"; Lit "logo"] (body (fileFields file))))
    (λ prepared,
  let confirm objectKey :=
    call (q_logo (send "PUT" [Lit "api"; Lit "organization"; Lit "logo"]
            (body (fileFields file ++ [fld "objectKey" objectKey])))) ret in
  ask (q_put (pr_uploadUrl prepared) (pr_method prepared) (pr_headers prepared) file) (λ r,
  if match r with Ok status => okStatus status | Err _ => false end then confirm (pr_objectKey prepared)
  else call (q_form (send "POST" [Lit "api"; Lit "organization"; Lit "logo"; Lit "content"] None) file)
         confirm)).

(** [measurementApi.upload] *)
Definition uploadMeasurementEvidence (id : str) (file : File) : Api Evidence :=
  if negb (oneOf ["application/pdf"; "image/jpeg"; "image/png"; "image/webp"]%string (file_type file))
  then fail (r_error (js "Choose a PDF, JPEG, PNG or WebP file.")) else
  if (file_size file <=? 0) || (15 * 1024 * 1024 <? file_size file)
  then fail (r_error (js "Each evidence file must be between 1 byte and 15 MB.")) else
  call (q_prepare (send "POST" (planPath id ++ [Lit "evidence"; Lit "presign"]) (body (fileFields file))))
    (λ prepared,
  call (q_put (pr_uploadUrl prepared) (js "PUT") (pr_headers prepared) file) (λ status,
  if negb (okStatus status) then fail (rejected "Evidence upload failed. Please try again." status) else
  call (q_evidence (send "POST" (planPath id ++ [Lit "evidence"])
          (body (fileFields file ++ [fld "objectKey" (pr_objectKey prepared)])))) ret)).

(** ** Inspections *)

(** A capture's data, an object by its own properties. *)
Definition isCompleted (data : list (str * json)) : bool :=
  match mget (js "status") data with Some (JStr s) => streq s (js "completed") | _ => false end.
(** [{ ...data }] without its [status] *)
Definition withoutStatus (data : list (str * json)) : json :=
  JObj (filterb (λ kv, negb (streq kv.1 (js "status"))) data).

Definition finalizeOf (i : Inspection) : Call :=
  operationCall (finalizeInspection (insp_id i) (Some (insp_version i))).

Definition createInspection (data : list (str * json)) (idempotencyKey : option str)
    (evidenceFiles : list File) : Api InspectionMutationResult :=
  call (q_inspection (operationCall (postInspection (withoutStatus data) idempotencyKey))) (λ '(i, rev),
  bind (all (map (uploadEvidenceFile (insp_id i)) evidenceFiles)) (λ _,
  if isCompleted data then call (q_mutation (finalizeOf i)) ret
  else ret (mkInspectionMutation i None None rev))).

Definition updateInspection (id : str) (patch : json) (evidenceFiles : list File) : Api (Inspection * Z) :=
  call (q_inspection (operationCall (patchInspection id patch))) (λ '(i, rev),
  bind (all (map (uploadEvidenceFile (insp_id i)) evidenceFiles)) (λ _, ret (i, rev))).

(** [persistInspection] of app/store.tsx *)
Record PersistOptions := mkPersist {
  pso_idempotencyKey : option str; pso_evidenceFiles : list File; pso_inspectionId : option str }.
Definition persistInspection (data : list (str * json)) (options : PersistOptions)
  : Api InspectionMutationResult :=
  match pso_inspectionId options with
  | Some id =>
    if truthy id then
      bind (updateInspection id (withoutStatus data) (pso_evidenceFiles options)) (λ '(i, rev),
      if isCompleted data then call (q_mutation (finalizeOf i)) ret
      else ret (mkInspectionMutation i None None rev))
    else createInspection data (pso_idempotencyKey options) (pso_evidenceFiles options)
  | None => createInspection data (pso_idempotencyKey options) (pso_evidenceFiles options)
  end.


(** ** Running a program *)

Inductive Kind :=
| k_prepare (c : Call) | k_put (url : str) | k_form (c : Call) | k_done (c : Call)
| k_evidence (c : Call) | k_logo (c : Call) | k_inspection (c : Call) | k_mutation (c : Call).
Definition kindOf {A} (q : Req A) : Kind :=
  match q with
  | q_prepare c => k_prepare c | q_put url _ _ _ => k_put url | q_form c _ => k_form c
  | q_done c => k_done c | q_evidence c => k_evidence c | q_logo c => k_logo c
  | q_inspection c => k_inspection c | q_mutation c => k_mutation c
  end.
(** A request made, and whether its answer was not a rejection. *)
Record Event := mkEvent { e_kind : Kind; e_ok : bool }.
Definition isOk {E A} (r : result E A) : bool := match r with Ok _ => true | Err _ => false end.

(** What the world answers to the n-th request. *)
Definition Oracle := nat → ∀ A, Req A → result Rejection A.

Fixpoint run {T} (o : Oracle) (n : nat) (m : Api T) : list Event * result Rejection T :=
  match m with
  | ret t => ([], Ok t)
  | fail e => ([], Err e)
  | ask q k =>
    let r := o n _ q in
    let '(log, outcome) := run o (S n) (k r) in
    (mkEvent (kindOf q) (isOk r) :: log, outcome)
  end.

Lemma run_bind {T U} (m : Api T) (k : T → Api U) o n :
  run o n (bind m k) =
    let '(l1, r1) := run o n m in
    match r1 with
    | Err e => (l1, Err e)
    | Ok t => let '(l2, r2) := run o (n + length l1) (k t) in (l1 ++ l2, r2)
    end.
Proof.
  revert n. induction m as [t|e|A q k' IH]; intros n; simpl.
  - rewrite Nat.add_0_r. by destruct (run o n (k t)).
  - done.
  - rewrite IH. destruct (run o (S n) (k' (o n A q))) as [l1 [t|e]]; [|done]. simpl.
    rewrite Nat.add_succ_r. by destruct (run o (S (n + length l1)) (k t)).
Qed.
Lemma run_settled {T} (m : Api T) o n : run o n (settled m) = let '(l, r) := run o n m in (l, Ok r).
Proof.
  revert n. induction m as [t|e|A q k' IH]; intros n; simpl; [done..|].
  rewrite IH. by destruct (run o (S n) (k' (o n A q))).
Qed.
Lemma run_call {A T} (q : Req A) (k : A → Api T) o n :
  run o n (call q k) =
    match o n A q with
    | Ok a => let '(l, r) := run o (S n) (k a) in (mkEvent (kindOf q) true :: l, r)
    | Err e => ([mkEvent (kindOf q) false], Err e)
    end.
Proof. unfold call. simpl. by destruct (o n A q). Qed.

(** ** Uploads in a log *)

Definition uploadEvent (e : Event) : bool :=
  match e_kind e with k_prepare _ | k_put _ | k_done _ => true | _ => false end.
(** An upload whose evidence the API recorded. *)
Definition confirmedEvent (e : Event) : bool :=
  match e_kind e with k_done _ => e_ok e | _ => false end.
Definition confirmed (log : list Event) : nat := length (filterb confirmedEvent log).

Lemma confirmed_app l1 l2 : confirmed (l1 ++ l2) = (confirmed l1 + confirmed l2)%nat.
Proof. unfold confirmed. induction l1 as [|e l1 IH]; simpl; [done|]. destruct (confirmedEvent e); simpl; lia. Qed.

Lemma upload_log o n id file l r : run o n (uploadEvidenceFile id file) = (l, r) →
  Forall (λ e, uploadEvent e = true) l ∧ confirmed l = if isOk r then 1%nat else 0%nat.
Proof.
  unfold uploadEvidenceFile. rewrite run_call. destruct (o n _ _) as [p|e]; [|intros [= <- <-]; by repeat constructor].
  rewrite run_call. destruct (o (S n) _ _) as [s|e]; [|intros [= <- <-]; by repeat constructor].
  destruct (negb (okStatus s)); [intros [= <- <-]; by repeat constructor|].
  rewrite run_call. destruct (o (S (S n)) _ _) as [[]|e]; intros [= <- <-]; by repeat constructor.
Qed.

Lemma all_log o id files : ∀ n l r, run o n (all (map (uploadEvidenceFile id) files)) = (l, r) →
  Forall (λ e, uploadEvent e = true) l ∧ (isOk r = true → confirmed l = length files).
Proof.
  induction files as [|f files IH]; intros n l r; [by intros [= <- <-]|]. cbn [map all].
  rewrite run_bind, run_settled. destruct (run o n (uploadEvidenceFile id f)) as [l1 r1] eqn:E1.
  rewrite run_bind, run_settled.
  destruct (run o (n + length l1) (all (map (uploadEvidenceFile id) files))) as [l2 r2] eqn:E2.
  apply upload_log in E1 as [Hu1 Hc1]. apply IH in E2 as [Hu2 Hc2].
  destruct r1 as [[]|e1]; [destruct r2 as [[]|e2]|]; simpl; intros [= <- <-]; rewrite app_nil_r.
  - split; [by apply Forall_app|]. intros _. rewrite confirmed_app, Hc1, Hc2 by done. done.
  - by split; [apply Forall_app|].
  - by split; [apply Forall_app|].
Qed.

(** ** Properties *)

(** The request that stores the capture itself. *)
Definition storeCall (data : list (str * json)) (options : PersistOptions) : Call :=
  match pso_inspectionId options with
  | Some id => if truthy id then operationCall (patchInspection id (withoutStatus data))
               else operationCall (postInspection (withoutStatus data) (pso_idempotencyKey options))
  | None => operationCall (postInspection (withoutStatus data) (pso_idempotencyKey options))
  end.

Lemma persist_run o n data options :
  run o n (persistInspection data options) =
    run o n (call (q_inspection (storeCall data options)) (λ '(i, rev),
      bind (all (map (uploadEvidenceFile (insp_id i)) (pso_evidenceFiles options))) (λ _,
      if isCompleted data then call (q_mutation (finalizeOf i)) ret
      else ret (mkInspectionMutation i None None rev)))).
Proof.
  unfold persistInspection, storeCall, createInspection, updateInspection.
  destruct (pso_inspectionId options) as [id|]; [|done]. destruct (truthy id); [|done].
  rewrite run_bind, !run_call. destruct (o n _ _) as [[i rev]|e]; [|done].
  cbv beta iota. rewrite !run_bind. destruct (run o (S n) _) as [l [[]|e]]; [|done]. simpl.
  rewrite app_nil_r, Nat.add_succ_r. simpl.
  destruct (if isCompleted data then _ else _); simpl; try done. by destruct (run o _ _).
Qed.

(** The order of saving a capture, whatever the server answers: the capture is stored first,
    without its status and under the given idempotency key; then its files are uploaded; it is
    finalized last, only when it is completed, only once, and only when every file was recorded.
    The save succeeds only when all of that did. *)
Theorem persistInspection_protocol o n data options log r :
  run o n (persistInspection data options) = (log, r) →
  ∃ stored uploads final,
    log = mkEvent (k_inspection (storeCall data options)) stored :: uploads ++ final ∧
    Forall (λ e, uploadEvent e = true) uploads ∧
    (stored = false → uploads = [] ∧ final = [] ∧ isOk r = false) ∧
    (final = [] ∨ ∃ i ok, final = [mkEvent (k_mutation (finalizeOf i)) ok] ∧ isCompleted data = true ∧
       confirmed uploads = length (pso_evidenceFiles options) ∧ ok = isOk r) ∧
    (isOk r = true → confirmed uploads = length (pso_evidenceFiles options) ∧
       (isCompleted data = true ↔ final ≠ [])).
Proof.
  rewrite persist_run, run_call. destruct (o n _ _) as [[i rev]|e].
  2:{ intros [= <- <-]. exists false, [], []. repeat split; auto; done. }
  cbv beta iota. rewrite run_bind. destruct (run o (S n) (all _)) as [l ru] eqn:Eu.
  apply all_log in Eu as [Hf Hc]. destruct ru as [[]|e].
  2:{ intros [= <- <-]. exists true, l, []. rewrite app_nil_r. repeat split; auto; done. }
  specialize (Hc eq_refl). destruct (isCompleted data) eqn:Ec; simpl.
  - destruct (o (S (n + length l)) _ _) as [m|e]; simpl; intros [= <- <-].
    + exists true, l, [mkEvent (k_mutation (finalizeOf i)) true].
      repeat split; try done. right. eauto 10.
    + exists true, l, [mkEvent (k_mutation (finalizeOf i)) false].
      repeat split; try done. right. eauto 10.
  - intros [= <- <-]. exists true, l, []. rewrite app_nil_r. repeat split; auto; done.
Qed.

End Programs.

(** ** A save *)

Definition sampleInspection : Inspection :=
  mkInspection (js "insp 1") (js "INS-1") (js "call-1") (js "MV Adiaha") Liquid None (numOfZ 1200) None None None
    (js "2026-03-01") insp_draft 3 None None.
#[export] Instance sampleFile : BrowserFile unit :=
  {| file_name _ := js "gauge.png"; file_type _ := js "image/png"; file_size _ := 2048;
     file_sha256 _ := [1; 255]%N |}.
(** A server that accepts everything. *)
Definition sampleOracle : Oracle (File := unit) := λ _ A q,
  match q in Req A return result Rejection A with
  | q_prepare _ => Ok (mkPrepared (js "https://store.example/put") (js "PUT") None (js "key"))
  | q_put _ _ _ _ => Ok 200
  | q_form _ _ => Ok (js "key")
  | q_done _ => Ok tt
  | q_evidence _ => Ok (mkEvidence (js "e") (js "gauge.png") (js "image/png") 2048 [] [])
  | q_logo _ => Ok (js "https://store.example/logo")
  | q_inspection _ => Ok (sampleInspection, 7)
  | q_mutation _ => Ok (mkInspectionMutation sampleInspection None None 8)
  end.
Definition sampleCapture : list (str * json) :=
  [(js "callId", JStr (js "call-1")); (js "status", JStr (js "completed"))].
Definition sampleSave := persistInspection sampleCapture (mkPersist (Some (js "key-1")) [tt] None).

Example sampleSave_calls :
  map (λ e, match e_kind e with
            | k_put url => url
            | k_prepare c | k_form c | k_done c | k_evidence c | k_logo c | k_inspection c | k_mutation c => callUrl c
            end) (fst (run sampleOracle 0 sampleSave))
  = [js "/api/inspections"; js "/api/evidence/presign"; js "https://store.example/put"; js "/api/evidence";
     js "/api/inspections/insp%201/finalize"].
Proof. vm_compute. reflexivity. Qed.

Lemma persistInspection_protocol_witness : ∃ uploads final,
  fst (run sampleOracle 0 sampleSave)
    = mkEvent (k_inspection (storeCall sampleCapture (mkPersist (Some (js "key-1")) [tt] None))) true
      :: uploads ++ final ∧
  confirmed uploads = 1%nat ∧ final ≠ [].
Proof.
  destruct (persistInspection_protocol sampleOracle 0 sampleCapture (mkPersist (Some (js "key-1")) [tt] None) _ _ eq_refl)
    as (stored & uploads & final & Hl & _ & Hs & _ & Hok).
  exists uploads, final. destruct (Hok eq_refl) as [Hc Hf]. destruct stored.
  - split; [exact Hl|]. split; [exact Hc|]. by apply Hf.
  - destruct (Hs eq_refl) as (_ & _ & Hn). vm_compute in Hn. done.
Defined.
