(* ===== verification/Store.v ===== *)
(** * The application store (frontend/src/app/store.tsx)

    [StoreProvider] as a machine: the state the screens read, the toasts, the progress of the
    offline queue's flush, and the queue itself.  A step is what runs between two [await]s; the
    answers of the server are the steps' arguments. *)
From Stdlib Require Import SpecFloat.
From S2P Require Import Prelude JsString Json Codec MeasurementTypes Host OfflineQueue Endpoints ApiClient JsNumber AppTypes Dues Uploads.

(** ** Normalization of older servers' answers *)

Definition normalizeInvoiceWorkflowStatus (step : InvoiceWorkflowStatus) : InvoiceWorkflowStatus :=
  let suppliedRoles := default [] (ws_notificationRoles step) in
  mkInvoiceWorkflowStatus (ws_id step) (ws_code step) (ws_label step) (ws_position step)
    (ws_active step) (ws_isPaid step) (ws_isTerminal step) (ws_isProtected step)
    (Some (bool_decide (ws_notifyOnEntry step = Some true)))
    (Some (filterb (λ role, bool_decide (role ∈ suppliedRoles)) ROLES)).

Definition normalizeInvoice (i : Invoice) : Invoice :=
  match ivc_workflowStatus i with
  | Some w =>
    mkInvoice (ivc_id i) (ivc_invoiceNo i) (ivc_callId i) (ivc_inspectionId i) (ivc_purpose i)
      (ivc_currency i) (ivc_payer i) (ivc_reconciliationId i) (ivc_assessmentId i) (ivc_lineItems i)
      (ivc_paidAmount i) (ivc_outstandingAmount i) (ivc_cargoType i) (ivc_issued i) (ivc_due i)
      (ivc_status i) (Some (normalizeInvoiceWorkflowStatus w)) (ivc_statusHistory i) (ivc_dues i)
      (ivc_rate i) (ivc_commissionUsd i) (ivc_commissionNgn i) (ivc_fx i) (ivc_payment i)
  | None => i
  end.

Definition normalizeAppState (state : AppState) : AppState :=
  mkAppState (st_rev state) (st_org state) (st_settings state) (st_calls state) (st_inspections state)
    (map normalizeInvoice (st_invoices state))
    (Some (map normalizeInvoiceWorkflowStatus (default [] (st_invoiceStatusSteps state)))).

Section Store.
Context {File : Type} `{Host}.
Abbreviation QueuedInspection := (QueuedInspection File).

(** ** State *)

Inductive ToastType := t_success | t_error | t_info.
Record Toast := mkToast { to_id : str; to_message : str; to_type : ToastType }.

(** A flush: what [flushQueue] closed over, and the [await] it is suspended at. *)
Record Job := mkJob { j_force : bool; j_organizationId : str; j_userId : str }.
Inductive Flush :=
| f_idle
| f_listing (j : Job)
| f_sending (j : Job) (item : QueuedInspection) (rest : list QueuedInspection)
| f_removing (j : Job) (item : QueuedInspection) (rest : list QueuedInspection)
| f_marking (j : Job) (item : QueuedInspection) (error : Rejection)
| f_refreshing (j : Job).

Record Store := mkStore {
  so_state : AppState; so_authOrg : option Organization; so_user : option User;
  so_toasts : list Toast; so_pendingSync : Z; so_syncIssue : bool; so_syncing : bool;
  so_flush : Flush;
  so_db : Database File;
  so_accepted : list str      (** queued captures whose save the server has answered for *) }.

Definition initialStore (initial : AppState) (org : option Organization) (user : option User)
    (db : Database File) : Store :=
  mkStore (normalizeAppState initial) org user [] 0 false false f_idle db [].

Definition withState (st : AppState) (s : Store) : Store :=
  mkStore st (so_authOrg s) (so_user s) (so_toasts s) (so_pendingSync s) (so_syncIssue s)
    (so_syncing s) (so_flush s) (so_db s) (so_accepted s).
Definition withDb (db : Database File) (s : Store) : Store :=
  mkStore (so_state s) (so_authOrg s) (so_user s) (so_toasts s) (so_pendingSync s) (so_syncIssue s)
    (so_syncing s) (so_flush s) db (so_accepted s).
Definition withFlush (syncing : bool) (f : Flush) (s : Store) : Store :=
  mkStore (so_state s) (so_authOrg s) (so_user s) (so_toasts s) (so_pendingSync s) (so_syncIssue s)
    syncing f (so_db s) (so_accepted s).
Definition withSync (pending : Z) (issue : bool) (s : Store) : Store :=
  mkStore (so_state s) (so_authOrg s) (so_user s) (so_toasts s) pending issue
    (so_syncing s) (so_flush s) (so_db s) (so_accepted s).
Definition withToasts (ts : list Toast) (s : Store) : Store :=
  mkStore (so_state s) (so_authOrg s) (so_user s) ts (so_pendingSync s) (so_syncIssue s)
    (so_syncing s) (so_flush s) (so_db s) (so_accepted s).
Definition accept (id : str) (s : Store) : Store :=
  mkStore (so_state s) (so_authOrg s) (so_user s) (so_toasts s) (so_pendingSync s) (so_syncIssue s)
    (so_syncing s) (so_flush s) (so_db s) (id :: so_accepted s).

(** [(authOrg || state.org).id] and [user?.id ?? ""] *)
Definition organizationId (s : Store) : str := org_id (default (st_org (so_state s)) (so_authOrg s)).
Definition userId (s : Store) : str := default [] (usr_id <$> so_user s).

(** ** Whole answers, toasts *)

Definition apply (next : AppState) (s : Store) : Store :=
  mkStore (normalizeAppState next) (Some (st_org next)) (so_user s) (so_toasts s) (so_pendingSync s)
    (so_syncIssue s) (so_syncing s) (so_flush s) (so_db s) (so_accepted s).
Definition pollCall (s : Store) : Call := operationCall (poll (st_rev (so_state s))).
(** The poll's answer: [None] when nothing changed or it failed. *)
Definition polled (answer : option AppState) (s : Store) : Store :=
  match answer with Some next => apply next s | None => s end.

Definition toast (id message : str) (type : ToastType) (s : Store) : Store :=
  withToasts (so_toasts s ++ [mkToast id message type]) s.
Definition dismissToast (id : str) (s : Store) : Store :=
  withToasts (filterb (λ t, negb (streq (to_id t) id)) (so_toasts s)) s.

(** ** Reading *)

Definition byDateDescending (a b : Inspection) : Z :=
  match dateParse (insp_date a), dateParse (insp_date b) with Some x, Some y => y - x | _, _ => 0 end.
Definition inspectionsForCall (callId : str) (s : Store) : list Inspection :=
  sort_by byDateDescending
    (filterb (λ i, streq (insp_callId i) callId) (st_inspections (so_state s))).

Definition notDisparity (i : Invoice) : bool := negb (bool_decide (ivc_purpose i = Some disparity)).
Definition invoiceForCall (callId : str) (s : Store) : option Invoice :=
  findb (λ i, streq (ivc_callId i) callId && notDisparity i) (st_invoices (so_state s)).

Record Financials := mkFinancials {
  fin_dues : num; fin_rate : num; fin_commissionUsd : num; fin_commissionNgn : num;
  fin_inspection : Inspection }.
Definition financialsForCall (vesselCall : option VesselCall) (s : Store) : option Financials :=
  vc ← vesselCall;
  insp ← findb (λ i, streq (insp_callId i) (vc_id vc) && bool_decide (insp_status i = insp_completed))
           (st_inspections (so_state s));
  match findb (λ i, bool_decide (ivc_inspectionId i = Some (insp_id insp)) && notDisparity i)
          (st_invoices (so_state s)) with
  | Some i => Some (mkFinancials (ivc_dues i) (ivc_rate i) (ivc_commissionUsd i) (ivc_commissionNgn i) insp)
  | None =>
    let settings := st_settings (so_state s) in
    rate ← rateForInspection (Some insp) settings;
    if negb (numTruthy rate) then None else
    let dues := calcDues (vc_nrt vc) (Some rate) in
    let commission := calcCommission dues settings in
    Some (mkFinancials dues rate (com_usd commission) (com_ngn commission) insp)
  end.

(** ** Merging answers *)

Definition replaceCall (c : VesselCall) (cs : list VesselCall) : list VesselCall :=
  map (λ item, if streq (vc_id item) (vc_id c) then c else item) cs.

Definition mergedInspection (result : InspectionMutationResult) (st : AppState) : AppState :=
  let i := imr_inspection result in
  mkAppState (Z.max (st_rev st) (imr_rev result)) (st_org st) (st_settings st)
    (match imr_call result with Some c => replaceCall c (st_calls st) | None => st_calls st end)
    (i :: filterb (λ item, negb (streq (insp_id item) (insp_id i))) (st_inspections st))
    (match imr_invoice result with
     | Some v => normalizeInvoice v :: filterb (λ item, negb (streq (ivc_id item) (ivc_id v))) (st_invoices st)
     | None => st_invoices st
     end)
    (st_invoiceStatusSteps st).
Definition mergeInspection (result : InspectionMutationResult) (s : Store) : Store :=
  withState (mergedInspection result (so_state s)) s.

Definition mergeCall (c : VesselCall) (rev : Z) (s : Store) : Store :=
  let st := so_state s in
  withState (mkAppState (Z.max (st_rev st) rev) (st_org st) (st_settings st)
    (replaceCall c (st_calls st)) (st_inspections st) (st_invoices st) (st_invoiceStatusSteps st)) s.
(** [addCall], once the call exists *)
Definition callAdded (c : VesselCall) (rev : Z) (s : Store) : Store :=
  let st := so_state s in
  withState (mkAppState (Z.max (st_rev st) rev) (st_org st) (st_settings st)
    (c :: st_calls st) (st_inspections st) (st_invoices st) (st_invoiceStatusSteps st)) s.

Definition mergeInvoice (i : Invoice) (rev : Z) (s : Store) : Store :=
  let st := so_state s in
  let normalizedInvoice := normalizeInvoice i in
  withState (mkAppState (Z.max (st_rev st) rev) (st_org st) (st_settings st) (st_calls st)
    (st_inspections st)
    (map (λ item, if streq (ivc_id item) (ivc_id normalizedInvoice) then normalizedInvoice else item)
       (st_invoices st))
    (st_invoiceStatusSteps st)) s.

Definition setSteps (steps : list InvoiceWorkflowStatus) (rev : Z) (s : Store) : Store :=
  let st := so_state s in
  withState (mkAppState (Z.max (st_rev st) rev) (st_org st) (st_settings st) (st_calls st)
    (st_inspections st) (st_invoices st) (Some steps)) s.
Definition replaceInvoiceStatusSteps (steps : list InvoiceWorkflowStatus) (rev : Z) (s : Store) : Store :=
  setSteps (map normalizeInvoiceWorkflowStatus steps) rev s.
Definition invoiceStatusStepCreated (step : InvoiceWorkflowStatus) (rev : Z) (s : Store) : Store :=
  setSteps (default [] (st_invoiceStatusSteps (so_state s)) ++ [normalizeInvoiceWorkflowStatus step]) rev s.
Definition invoiceStatusStepUpdated (id : str) (step : InvoiceWorkflowStatus) (rev : Z) (s : Store) : Store :=
  setSteps (map (λ item, if bool_decide (ws_id item = Some id) then normalizeInvoiceWorkflowStatus step else item)
    (default [] (st_invoiceStatusSteps (so_state s)))) rev s.

Definition settingsUpdated (settings : Settings) (rev : Z) (s : Store) : Store :=
  let st := so_state s in
  withState (mkAppState (Z.max (st_rev st) rev) (st_org st) settings (st_calls st) (st_inspections st)
    (st_invoices st) (st_invoiceStatusSteps st)) s.
Definition organizationUpdated (org : Organization) (rev : Z) (s : Store) : Store :=
  let st := so_state s in
  mkStore (mkAppState (Z.max (st_rev st) rev) org (st_settings st) (st_calls st) (st_inspections st)
      (st_invoices st) (st_invoiceStatusSteps st))
    (Some org) (so_user s) (so_toasts s) (so_pendingSync s) (so_syncIssue s) (so_syncing s)
    (so_flush s) (so_db s) (so_accepted s).

(** ** The requests of the call operations *)

(** [{ ...object, key: value }]: the member keeps its place when it is there already, and is
    written only when it is not [undefined]. *)
Definition setMember (k : string) (v : option json) (o : list (str * json)) : list (str * json) :=
  match v with
  | Some v => mset (js k) v o
  | None => filterb (λ kv, negb (streq kv.1 (js k))) o
  end.
Definition knownVersion (id : str) (s : Store) : option Z :=
  vc_version <$> findb (λ c, streq (vc_id c) id) (st_calls (so_state s)).
Definition versionMember (id : str) (s : Store) : option json := JNum <$> knownVersion id s.

Definition updateCall (id : str) (patch : list (str * json)) (s : Store) : Call :=
  operationCall (Endpoints.updateCall id (JObj (setMember "version" (versionMember id s) patch))).
Definition updateCallStatus (id status : str) (details : list (str * json)) (s : Store) : Call :=
  operationCall (Endpoints.updateCallStatus id
    (JObj (setMember "version" (versionMember id s)
       (foldl (λ o kv, mset kv.1 kv.2 o) [(js "status", JStr status)] details)))).
Definition cancelCall (id reason : str) (s : Store) : Call :=
  operationCall (Endpoints.cancelCall id reason (knownVersion id s)).

(** ** The offline queue *)

Definition refreshPendingSync (organizationId userId : str) (s : Store) : Store :=
  if negb (truthy organizationId) || negb (truthy userId) then withSync 0 false s else
  let '(db, r) := listQueuedInspectionsForOwner organizationId userId (so_db s) in
  let s := withDb db s in
  match r with
  | Ok items =>
    withSync (Z.of_nat (length items))
      (existsb (λ item, match qi_lastError item with Some e => truthy e | None => false end) items) s
  | Err _ => withSync 0 true s
  end.

(** The head of the loop: captures blocked earlier are skipped unless forced. *)
Definition blockedItem (item : QueuedInspection) : bool :=
  match qi_lastError item with Some e => startsWith (js "blocked:") e | None => false end.
Fixpoint flushNext (j : Job) (items : list QueuedInspection) : Flush :=
  match items with
  | [] => f_refreshing j
  | item :: rest => if negb (j_force j) && blockedItem item then flushNext j rest
                    else f_sending j item rest
  end.

(** [flushQueue], up to its first [await] *)
Definition flushQueue (force online : bool) (s : Store) : Store :=
  match so_flush s with
  | f_idle =>
    if negb (truthy (organizationId s)) || negb (truthy (userId s)) || negb online then s
    else withFlush true (f_listing (mkJob force (organizationId s) (userId s))) s
  | _ => s
  end.
Definition flushListed (s : Store) : Store :=
  match so_flush s with
  | f_listing j =>
    let '(db, r) := listQueuedInspectionsForOwner (j_organizationId j) (j_userId j) (so_db s) in
    let s := withDb db s in
    match r with
    | Ok items => withFlush true (flushNext j items) s
    | Err _ => withFlush true (f_refreshing j) s
    end
  | _ => s
  end.

(** What the flush asks the server for an item. *)
Definition flushRequest `{BrowserFile File} (item : QueuedInspection) : Api InspectionMutationResult :=
  persistInspection (qi_data item)
    (mkPersist (Some (qi_id item)) (qi_evidenceFiles item)
       (match qi_operation item with Some op_update => qi_inspectionId item | _ => None end)).

Definition flushAnswered (outcome : result Rejection InspectionMutationResult) (s : Store) : Store :=
  match so_flush s with
  | f_sending j item rest =>
    match outcome with
    | Ok result => withFlush true (f_removing j item rest) (accept (qi_id item) (mergeInspection result s))
    | Err error => withFlush true (f_marking j item error) s
    end
  | _ => s
  end.
Definition flushRemoved (s : Store) : Store :=
  match so_flush s with
  | f_removing j item rest =>
    let '(db, r) := removeQueuedInspection (qi_id item) (j_organizationId j) (j_userId j) (so_db s) in
    let s := withDb db s in
    match r with
    | Ok _ => withFlush true (flushNext j rest) s
    | Err message => withFlush true (f_marking j item (r_error message)) s
    end
  | _ => s
  end.

Definition clientError (error : Rejection) : bool :=
  match error with r_api e => (400 <=? ae_status e) && (ae_status e <? 500) | _ => false end.
Definition detailOf (error : Rejection) : str :=
  match error with r_api e => ae_message e | r_type m | r_error m => m end.
(** [toastId] and [now] come from the clock and the random source. *)
Definition flushMarked (toastId now : str) (s : Store) : Store :=
  match so_flush s with
  | f_marking j item error =>
    let message := (if clientError error then js "blocked:" else js "retryable:") ++ detailOf error in
    let '(db, r) := markQueuedInspectionAttempt (qi_id item) message (j_organizationId j) (j_userId j)
                      now (so_db s) in
    let s := withFlush true (f_refreshing j) (withDb db s) in
    match r with
    | Ok _ => if clientError error
              then toast toastId (js "A queued inspection was rejected. Review the capture and retry it.") t_error s
              else s
    | Err _ => s
    end
  | _ => s
  end.
(** The [finally] block. *)
Definition flushRefreshed (s : Store) : Store :=
  match so_flush s with
  | f_refreshing j => withFlush false f_idle (refreshPendingSync (j_organizationId j) (j_userId j) s)
  | _ => s
  end.

(** ** Submitting a capture *)

Record InspectionSubmission := mkSubmitted {
  sub_invoice : option Invoice; sub_queued : bool; sub_inspectionId : option str }.

Definition offlineRejection : Rejection := r_type (js "Offline").

(** [addInspection] once its save is answered; offline, [outcome] is [Err offlineRejection] and
    [online] is false.  The owner is the one the callback closed over. *)
Definition addInspection (organizationId userId idempotencyKey : str) (data : list (str * json))
    (evidenceFiles : option (list File)) (inspectionId : option str)
    (outcome : result Rejection InspectionMutationResult) (online : bool) (now : str)
    (s : Store) : Store * result Rejection InspectionSubmission :=
  match outcome with
  | Ok result =>
    (mergeInspection result s,
     Ok (mkSubmitted (imr_invoice result) false (Some (insp_id (imr_inspection result)))))
  | Err error =>
    let networkFailure := match error with r_type _ => true | _ => negb online end in
    if negb networkFailure then (s, Err error) else
    if negb (truthy organizationId) || negb (truthy userId)
    then (s, Err (r_error (js "Sign in again before saving work offline"))) else
    let update := match inspectionId with Some i => truthy i | None => false end in
    let '(db, r) := queueInspection
      (mkQueued idempotencyKey organizationId userId data (default [] evidenceFiles) now 0
         (Some (if update then op_update else op_create)) inspectionId
         (Some (isCompleted data)) None None) (so_db s) in
    let s := withDb db s in
    match r with
    | Err message => (s, Err (r_error message))
    | Ok _ => (refreshPendingSync organizationId userId s, Ok (mkSubmitted None true None))
    end
  end.

(** ** Steps *)

(** A capture's key is random ([createIdempotencyKey]), so it is never that of another
    owner's capture. *)
Definition freshKey (organizationId userId k : str) (s : Store) : Prop :=
  ∀ item, committed (so_db s) !! k = Some item → ownedBy organizationId userId item = true.

Inductive store_step (s : Store) : Store → Prop :=
| ss_polled answer : store_step s (polled answer s)
| ss_toast i m t : store_step s (toast i m t s)
| ss_dismiss i : store_step s (dismissToast i s)
| ss_callAdded c rev : store_step s (callAdded c rev s)
| ss_call c rev : store_step s (mergeCall c rev s)
| ss_invoice i rev : store_step s (mergeInvoice i rev s)
| ss_steps l rev : store_step s (replaceInvoiceStatusSteps l rev s)
| ss_stepCreated w rev : store_step s (invoiceStatusStepCreated w rev s)
| ss_stepUpdated i w rev : store_step s (invoiceStatusStepUpdated i w rev s)
| ss_settings x rev : store_step s (settingsUpdated x rev s)
| ss_organization o rev : store_step s (organizationUpdated o rev s)
| ss_refresh o u : store_step s (refreshPendingSync o u s)
| ss_flush force online : store_step s (flushQueue force online s)
| ss_listed : store_step s (flushListed s)
| ss_answered r : store_step s (flushAnswered r s)
| ss_removed : store_step s (flushRemoved s)
| ss_marked i now : store_step s (flushMarked i now s)
| ss_refreshed : store_step s (flushRefreshed s)
| ss_inspection o u k d f i r online now :
    freshKey o u k s → store_step s (fst (addInspection o u k d f i r online now s)).

Definition storeReachable (s : Store) : Prop :=
  ∃ initial org user db, rtc store_step (initialStore initial org user db) s.

(** ** The browser

    The queue is one database for every tab, each with its own store, and for every user of
    the browser; signing out clears the owner's captures (AuthContext.tsx, [logout]). *)
Record Browser := mkBrowser {
  br_db : Database File; br_tabs : list Store;
  br_left : list (str * str)  (** the owners whose captures a sign-out has set out to clear *) }.

Inductive browser_step (b : Browser) : Browser → Prop :=
| bs_tab i s s' : br_tabs b !! i = Some s → store_step (withDb (br_db b) s) s' →
    browser_step b (mkBrowser (so_db s') (<[i := s']> (br_tabs b)) (br_left b))
| bs_open initial org user :
    browser_step b (mkBrowser (br_db b) (br_tabs b ++ [initialStore initial org user (br_db b)]) (br_left b))
| bs_signedOut schedule organizationId userId :
    browser_step b (mkBrowser
      (fst (clearQueuedInspectionsForOwner schedule organizationId userId (br_db b)))
      (br_tabs b) ((organizationId, userId) :: br_left b)).

(** IndexedDB keeps every value under its own key. *)
Definition browserReachable (b : Browser) : Prop :=
  ∃ db, OfflineQueue.keyed db ∧ rtc browser_step (mkBrowser db [] []) b.

(** Captures whose save the server has answered for, in any tab. *)
Definition br_accepted (b : Browser) : list str := flat_map so_accepted (br_tabs b).

End Store.
