(* ===== verification/StoreInvariants.v ===== *)
(** * The store's invariants (frontend/src/app/store.tsx)

    What every reachable state of [Store] satisfies: normalized data, a queue that only loses
    what the server has accepted, and merges that touch nothing but what was answered. *)
From Stdlib Require Import SpecFloat.
From S2P Require Import Prelude JsString Json Codec MeasurementTypes Host Samples OfflineQueue Endpoints ApiClient JsNumber AppTypes Dues Uploads Store.

(** ** Normalization *)

Lemma filterb_ext {A} (f g : A → bool) l : (∀ x, x ∈ l → f x = g x) → filterb f l = filterb g l.
Proof.
  induction l as [|x l IH]; intros Hfg; simpl; [done|].
  rewrite (Hfg x), IH by (intros; try apply Hfg; by constructor). done.
Qed.
(** Selecting what was selected. *)
Lemma filterb_selected {A} `{EqDecision A} (f : A → bool) l :
  filterb (λ x, bool_decide (x ∈ filterb f l)) l = filterb f l.
Proof.
  apply filterb_ext. intros x Hx. destruct (f x) eqn:E.
  - apply bool_decide_eq_true. by apply elem_of_filterb.
  - apply bool_decide_eq_false. rewrite elem_of_filterb. intros [_ Hf]. congruence.
Qed.
Lemma normalizeStep_idem w :
  normalizeInvoiceWorkflowStatus (normalizeInvoiceWorkflowStatus w) = normalizeInvoiceWorkflowStatus w.
Proof.
  unfold normalizeInvoiceWorkflowStatus. generalize ROLES as roles. intros roles. simpl. f_equal.
  - f_equal. destruct (bool_decide (ws_notifyOnEntry w = Some true)); reflexivity.
  - f_equal. apply filterb_selected.
Qed.
Lemma normalizeInvoice_idem i : normalizeInvoice (normalizeInvoice i) = normalizeInvoice i.
Proof.
  unfold normalizeInvoice at 2 3. destruct (ivc_workflowStatus i) as [w|] eqn:E.
  - unfold normalizeInvoice. simpl. by rewrite normalizeStep_idem.
  - unfold normalizeInvoice. by rewrite E.
Qed.
Lemma normalizeInvoice_id i : ivc_id (normalizeInvoice i) = ivc_id i.
Proof. unfold normalizeInvoice. by destruct (ivc_workflowStatus i). Qed.

(** The data needs no further normalization. *)
Record normalized (st : AppState) : Prop := {
  nm_invoices : ∀ i, i ∈ st_invoices st → normalizeInvoice i = i;
  nm_steps : ∃ steps, st_invoiceStatusSteps st = Some steps ∧
    ∀ w, w ∈ steps → normalizeInvoiceWorkflowStatus w = w }.

Lemma map_fixed {A} (f : A → A) l : (∀ x, x ∈ l → f x = x) → map f l = l.
Proof.
  induction l as [|x l IH]; intros Hf; simpl; [done|].
  rewrite (Hf x), IH by (intros; try apply Hf; by constructor). done.
Qed.
Lemma normalized_eq st : normalized st → normalizeAppState st = st.
Proof.
  intros [Hi (steps & Hs & Hw)]. unfold normalizeAppState.
  rewrite Hs. cbn [default]. rewrite (map_fixed _ _ Hi). cbn. rewrite (map_fixed _ _ Hw), <- Hs. by destruct st.
Qed.
Lemma normalized_normalize st : normalized (normalizeAppState st).
Proof.
  constructor; simpl.
  - intros i (j & -> & _)%list_elem_of_fmap. apply normalizeInvoice_idem.
  - eexists. split; [done|]. intros w (v & -> & _)%list_elem_of_fmap. apply normalizeStep_idem.
Qed.

Section Store.
Context {File : Type} `{Host}.
Abbreviation Store := (Store (File := File)).
Implicit Types s : Store.

(** ** What a step leaves in the queue *)

Definition ownerOf (item : QueuedInspection File) : str * str := (qi_organizationId item, qi_userId item).
Lemma ownedBy_owner o u (item : QueuedInspection File) : ownedBy o u item = true ↔ ownerOf item = (o, u).
Proof. unfold ownedBy, ownerOf. rewrite andb_true_iff, !streq_true. naive_solver. Qed.

(** Every capture stored before is still stored, for the same owner, but for those accepted,
    and every value stays under its own key. *)
Definition kept s s' : Prop :=
  so_accepted s ⊆ so_accepted s' ∧ OfflineQueue.keyed (so_db s') ∧
  ∀ k item, committed (so_db s) !! k = Some item → k ∉ so_accepted s' →
    ∃ item', committed (so_db s') !! k = Some item' ∧ ownerOf item' = ownerOf item.

Lemma kept_same s s' : OfflineQueue.keyed (so_db s) → committed (so_db s') = committed (so_db s) →
  so_accepted s' = so_accepted s → kept s s'.
Proof. intros Hk Hc Ha. unfold kept, OfflineQueue.keyed. rewrite Hc, Ha. split; [done|]. split; [exact Hk|eauto]. Qed.
Lemma kept_insert s s' item : OfflineQueue.keyed (so_db s) →
  (∀ old, committed (so_db s) !! qi_id item = Some old → ownerOf item = ownerOf old) →
  committed (so_db s') = <[qi_id item := item]> (committed (so_db s)) →
  so_accepted s' = so_accepted s → kept s s'.
Proof.
  intros Hk Ho Hc Ha. unfold kept, OfflineQueue.keyed. rewrite Hc, Ha. split; [done|]. split.
  - intros k i [[<- <-]|[_ Hi]]%lookup_insert_Some; [done|by apply Hk].
  - intros k old Hold _. destruct (decide (qi_id item = k)) as [<-|Hne].
    + rewrite lookup_insert_eq. eauto.
    + rewrite lookup_insert_ne by done. eauto.
Qed.
Lemma kept_trans s1 s2 s3 : kept s1 s2 → kept s2 s3 → kept s1 s3.
Proof.
  intros (Ha1 & Hk1 & H1) (Ha2 & Hk2 & H2). split; [set_solver|]. split; [done|].
  intros k item Hi Hn. destruct (H1 k item Hi) as (i2 & Hi2 & Ho2); [set_solver|].
  destruct (H2 k i2 Hi2 Hn) as (i3 & Hi3 & Ho3). exists i3. split; [done|congruence].
Qed.

Lemma listed_committed org user (db db' : Database File) r :
  listQueuedInspectionsForOwner org user db = (db', r) → committed db' = committed db.
Proof. intros Hl. pose proof (list_committed org user db) as Hc. by rewrite Hl in Hc. Qed.
Lemma marked_committed id e org user now (db db' : Database File) r : OfflineQueue.keyed db →
  markQueuedInspectionAttempt id e org user now db = (db', r) →
  committed db' = committed db ∨ ∃ item, committed db !! id = Some item ∧ qi_id item = id ∧
    committed db' = <[id := attempted item e now]> (committed db).
Proof.
  intros Hk [Hc|(item & Hl & _ & Hc)]%markQueuedInspectionAttempt_spec; [by left| |done].
  right. exists item. split; [done|]. split; [by apply Hk|done].
Qed.

(** The flush removes an item only once the server has accepted it. *)
Definition flushInv s : Prop :=
  match so_flush s with f_removing _ item _ => qi_id item ∈ so_accepted s | _ => True end.

Lemma flushNext_sending j items : ∀ j' item rest, flushNext j items ≠ f_removing (File := File) j' item rest.
Proof. induction items as [|i items IH]; intros j' item rest; simpl; [done|]. by case_match. Qed.
Lemma flushInv_next j items s : flushInv (withFlush true (flushNext j items) s).
Proof.
  unfold flushInv. simpl. pose proof (flushNext_sending j items) as Hn. destruct (flushNext j items); try done.
  by edestruct Hn.
Qed.

Section Steps.
Variable s : Store.
Hypothesis Hkeyed : OfflineQueue.keyed (so_db s).

Lemma refresh_kept o u : kept s (refreshPendingSync o u s) ∧
  so_flush (refreshPendingSync o u s) = so_flush s ∧ so_accepted (refreshPendingSync o u s) = so_accepted s.
Proof using Hkeyed.
  unfold refreshPendingSync. case_match; [by split; [apply kept_same|]|].
  destruct (listQueuedInspectionsForOwner o u (so_db s)) as [db r] eqn:El. apply listed_committed in El.
  destruct r; (split; [by apply kept_same|done]).
Qed.

Lemma flushListed_kept : flushInv s → kept s (flushListed s) ∧ flushInv (flushListed s).
Proof using Hkeyed.
  intros Hi. unfold flushListed. destruct (so_flush s) as [|j| | | |]; try (by split; [apply kept_same|]).
  destruct (listQueuedInspectionsForOwner _ _ (so_db s)) as [db r] eqn:El. apply listed_committed in El.
  destruct r; (split; [by apply kept_same|]); [apply flushInv_next|done].
Qed.
Lemma flushAnswered_kept r : flushInv s → kept s (flushAnswered r s) ∧ flushInv (flushAnswered r s).
Proof using Hkeyed.
  intros Hi. unfold flushAnswered. destruct (so_flush s) as [| |j item rest| | |]; try (by split; [apply kept_same|]).
  destruct r as [result|e]; [|by split; [apply kept_same|]]. split; [|by left].
  split; simpl; [set_solver|]. split; [done|eauto].
Qed.
Lemma flushRemoved_kept : flushInv s → kept s (flushRemoved s) ∧ flushInv (flushRemoved s).
Proof using Hkeyed.
  intros Hi. pose proof Hi as Ha. unfold flushRemoved. unfold flushInv in Ha.
  destruct (so_flush s) as [| | |j item rest| |]; try (by split; [apply kept_same|]).
  destruct (removeQueuedInspection _ _ _ (so_db s)) as [db r] eqn:Er.
  assert (Hk : ∀ f, kept s (withFlush true f (withDb db s))).
  { intros f. apply removeQueuedInspection_spec in Er as [Hc|(i & _ & _ & Hc)]; [by apply kept_same|].
    split; simpl; [done|]. unfold OfflineQueue.keyed. rewrite Hc. split.
    - intros k i' [_ Hl]%lookup_delete_Some. by apply Hkeyed.
    - intros k i' Hk Hn. rewrite lookup_delete_ne; [eauto|]. intros <-. done. }
  destruct r; (split; [apply Hk|]); [apply flushInv_next|done].
Qed.
Lemma flushMarked_kept i now : flushInv s → kept s (flushMarked i now s) ∧ flushInv (flushMarked i now s).
Proof using Hkeyed.
  intros Hi. unfold flushMarked, flushInv in *.
  destruct (so_flush s) as [| | | |j item e|] eqn:Ef; try (split; [by apply kept_same|by rewrite Ef]).
  destruct (markQueuedInspectionAttempt _ _ _ _ _ (so_db s)) as [db r] eqn:Er.
  assert (Hk : ∀ s', so_db s' = db → so_accepted s' = so_accepted s → kept s s').
  { intros s' <- Ha. apply marked_committed in Er as [Hc|(i' & Hl & Hid & Hc)]; [by apply kept_same| |done].
    eapply (kept_insert _ _ (attempted i' _ now)); [done| |by simpl; rewrite Hid|done].
    intros old. simpl. rewrite Hid, Hl. by intros [= <-]. }
  destruct r; [case_match|]; (split; [by apply Hk|done]).
Qed.
End Steps.

Lemma addInspection_kept o u k d f i r online now s : OfflineQueue.keyed (so_db s) → flushInv s → freshKey o u k s →
  let s' := fst (addInspection o u k d f i r online now s) in kept s s' ∧ flushInv s'.
Proof.
  intros Hkd Hi Hfresh. unfold addInspection. destruct r as [result|e]; [by split; [apply kept_same|]|].
  cbv zeta. destruct (negb (match e with r_type _ => true | _ => negb online end)); [by split; [apply kept_same|]|].
  destruct (negb (truthy o) || negb (truthy u)); [by split; [apply kept_same|]|].
  destruct (queueInspection _ (so_db s)) as [db rq] eqn:Eq.
  assert (Hk : kept s (withDb db s)).
  { apply queueInspection_spec in Eq as [Hc|[Hc _]]; [by apply kept_same|].
    eapply kept_insert; [done| |exact Hc|done]. intros old Hold. simpl in *.
    by apply Hfresh, ownedBy_owner in Hold as ->. }
  destruct rq; simpl; [|by split].
  destruct (refresh_kept (withDb db s) (proj1 (proj2 Hk)) o u) as (Hr & Hf & Ha).
  split; [by eapply kept_trans|]. unfold flushInv. by rewrite Hf, Ha.
Qed.

Lemma step_kept s s' : OfflineQueue.keyed (so_db s) → flushInv s → store_step s s' → kept s s' ∧ flushInv s'.
Proof.
  intros Hkd Hi [answer|i m t|i|c rev|c rev|i rev|l rev|w rev|i w rev|x rev|o rev|o u|force online| |r| |i now|
    |o u k d f i r online now Hfresh].
  all: try (by split; [apply kept_same|]).
  - destruct answer; by split; [apply kept_same|].
  - destruct (refresh_kept s Hkd o u) as (Hr & Hf & Ha). split; [done|]. unfold flushInv. by rewrite Hf, Ha.
  - unfold flushQueue. repeat case_match; by split; [apply kept_same|].
  - by apply flushListed_kept.
  - by apply flushAnswered_kept.
  - by apply flushRemoved_kept.
  - by apply flushMarked_kept.
  - unfold flushRefreshed. case_match; try (by split; [apply kept_same|]).
    destruct (refresh_kept s Hkd (j_organizationId j) (j_userId j)) as (Hr & _ & _). by split.
  - by apply addInspection_kept.
Qed.

(** ** What a step of the browser leaves *)

Definition browserInv (b : Browser (File := File)) : Prop :=
  OfflineQueue.keyed (br_db b) ∧ Forall flushInv (br_tabs b).
(** Every capture stays for its owner, but for those accepted in some tab and those of an
    owner who has signed out. *)
Definition browserKept (b b' : Browser (File := File)) : Prop :=
  br_accepted b ⊆ br_accepted b' ∧ br_left b ⊆ br_left b' ∧
  ∀ k item, committed (br_db b) !! k = Some item → k ∉ br_accepted b' → ownerOf item ∉ br_left b' →
    ∃ item', committed (br_db b') !! k = Some item' ∧ ownerOf item' = ownerOf item.

Lemma br_accepted_elem (b : Browser (File := File)) k : k ∈ br_accepted b ↔ ∃ tab, tab ∈ br_tabs b ∧ k ∈ so_accepted tab.
Proof.
  unfold br_accepted. rewrite list_elem_of_In, in_flat_map.
  by setoid_rewrite list_elem_of_In.
Qed.

Lemma browserKept_trans b1 b2 b3 : browserKept b1 b2 → browserKept b2 b3 → browserKept b1 b3.
Proof.
  intros (Ha1 & Hl1 & H1) (Ha2 & Hl2 & H2). split; [set_solver|]. split; [set_solver|].
  intros k item Hi Hn Ho. destruct (H1 k item Hi) as (i2 & Hi2 & Ho2); [set_solver..|].
  destruct (H2 k i2 Hi2 Hn) as (i3 & Hi3 & Ho3); [by rewrite Ho2|]. exists i3. split; [done|congruence].
Qed.

Lemma tab_kept (b : Browser (File := File)) i s s' : br_tabs b !! i = Some s → kept (withDb (br_db b) s) s' →
  browserKept b (mkBrowser (so_db s') (<[i := s']> (br_tabs b)) (br_left b)).
Proof.
  intros Hi (Ha & _ & Hk). pose proof (lookup_lt_Some _ _ _ Hi) as Hlt.
  assert (Hs' : s' ∈ <[i := s']> (br_tabs b)) by (eapply list_elem_of_lookup_2, list_lookup_insert_eq, Hlt).
  split; [|split; [done|]].
  - intros k (tab & Ht & Hin)%br_accepted_elem. apply br_accepted_elem. simpl.
    apply list_elem_of_lookup in Ht as [j Hj]. destruct (decide (i = j)) as [<-|Hne].
    + exists s'. split; [done|]. apply Ha. simpl. congruence.
    + exists tab. split; [|done]. apply list_elem_of_lookup. exists j. by rewrite list_lookup_insert_ne.
  - intros k item Hl Hn _. apply Hk; [done|]. intros Hin. apply Hn, br_accepted_elem. eauto.
Qed.

Lemma browser_step_kept b b' : browserInv b → browser_step b b' → browserKept b b' ∧ browserInv b'.
Proof.
  intros [Hkd Hf] [i s s' Hi Hs|initial org user|schedule o u].
  - assert (Hfs : flushInv s) by (by apply (Forall_lookup_1 _ _ _ _ Hf Hi)).
    destruct (step_kept (withDb (br_db b) s) s' Hkd Hfs Hs) as [Hk Hf'].
    split; [by eapply tab_kept|]. split; [apply Hk|]. by apply Forall_insert.
  - split.
    + split; [|split; [done|eauto]]. unfold br_accepted. simpl. rewrite flat_map_app. set_solver.
    + split; [done|]. apply Forall_app. split; [done|]. by constructor.
  - destruct (queue_kept schedule o u (br_db b)) as [Hk' Hkept]. split.
    + split; [done|]. split; [set_solver|]. simpl. intros k item Hl _ Ho. exists item. split; [|done].
      apply Hkept; [done|]. apply not_true_iff_false. rewrite ownedBy_owner. set_solver.
    + split; [by apply Hk'|done].
Qed.

Lemma browser_steps_kept b b' : browserInv b → rtc browser_step b b' → browserKept b b' ∧ browserInv b'.
Proof.
  intros Hi Hr. induction Hr as [b|b1 b2 b3 Hs _ IH].
  { split; [|done]. split; [done|]. split; [done|eauto]. }
  destruct (browser_step_kept b1 b2 Hi Hs) as [Hk Hi2]. destruct (IH Hi2) as [Hk3 Hi3].
  split; [by eapply browserKept_trans|done].
Qed.
Lemma browserInv_reachable b : browserReachable b → browserInv b.
Proof. intros (db & Hk & Hr). eapply browser_steps_kept in Hr as [_ ?]; [done|]. by split. Qed.

(** ** Normalized data *)

Lemma normalized_step s s' : normalized (so_state s) → store_step s s' → normalized (so_state s').
Proof.
  intros Hn Hs. pose proof Hn as [Hi (steps & Hst & Hw)].
  assert (Hmerge : ∀ result, normalized (mergedInspection result (so_state s))).
  { intros result. constructor; simpl; [|eauto]. destruct (imr_invoice result) as [v|]; [|done].
    intros i [->|[Hin _]%elem_of_filterb]%elem_of_cons; [apply normalizeInvoice_idem|auto]. }
  destruct Hs as [answer|i m t|i|c rev|c rev|i rev|l rev|w rev|i w rev|x rev|o rev|o u|force online| |r| |i now| |o u k d f i r online now _];
    try exact Hn.
  - destruct answer; [apply normalized_normalize|exact Hn].
  - constructor; simpl; [done|eauto].
  - constructor; simpl; [done|eauto].
  - constructor; simpl; [|eauto]. intros j (j' & -> & Hj)%list_elem_of_fmap.
    case_match; [apply normalizeInvoice_idem|auto].
  - constructor; simpl; [done|]. eexists. split; [done|]. intros v (v' & -> & _)%list_elem_of_fmap.
    apply normalizeStep_idem.
  - constructor; simpl; [done|]. rewrite Hst. eexists. split; [done|]. simpl.
    intros v [Hv| ->%list_elem_of_singleton]%elem_of_app; [auto|apply normalizeStep_idem].
  - constructor; simpl; [done|]. rewrite Hst. eexists. split; [done|]. simpl.
    intros v (v' & -> & Hv)%list_elem_of_fmap. case_match; [apply normalizeStep_idem|auto].
  - constructor; simpl; [done|eauto].
  - constructor; simpl; [done|eauto].
  - unfold refreshPendingSync. repeat case_match; exact Hn.
  - unfold flushQueue. repeat case_match; exact Hn.
  - unfold flushListed. repeat case_match; exact Hn.
  - unfold flushAnswered. repeat case_match; try exact Hn. apply Hmerge.
  - unfold flushRemoved. repeat case_match; exact Hn.
  - unfold flushMarked. repeat case_match; exact Hn.
  - unfold flushRefreshed, refreshPendingSync. repeat case_match; exact Hn.
  - unfold addInspection, refreshPendingSync. repeat case_match; try exact Hn. apply Hmerge.
Qed.
Lemma normalized_reachable s : storeReachable s → normalized (so_state s).
Proof.
  intros (initial & org & user & db & Hr). remember (initialStore initial org user db) as s0 eqn:E.
  assert (Hn : normalized (so_state s0)) by (subst; apply normalized_normalize). clear E.
  induction Hr as [|s1 s2 s3 Hs _ IH]; [done|]. eapply IH, normalized_step; done.
Qed.

(** ** Merges by identifier *)

Lemma findb_head {A} (f : A → bool) x l : f x = true → findb f (x :: l) = Some x.
Proof. intros Hx. simpl. by rewrite Hx. Qed.
Lemma findb_filterb_other {A} (key : A → str) (k k' : str) l : k ≠ k' →
  findb (λ x, streq (key x) k) (filterb (λ x, negb (streq (key x) k')) l) = findb (λ x, streq (key x) k) l.
Proof.
  intros Hne. induction l as [|x l IH]; simpl; [done|].
  destruct (streq (key x) k') eqn:E'; simpl; rewrite IH; [|done].
  apply streq_true in E'. destruct (streq (key x) k) eqn:E; [|done]. apply streq_true in E. congruence.
Qed.
Lemma NoDup_merged {A} (key : A → str) x l : NoDup (map key l) →
  NoDup (map key (x :: filterb (λ y, negb (streq (key y) (key x))) l)).
Proof.
  intros Hd. constructor.
  - intros (y & Hk & [_ Hy]%elem_of_filterb)%list_elem_of_fmap. apply negb_true_iff in Hy.
    rewrite Hk in Hy. by rewrite streq_refl in Hy.
  - induction l as [|y l IH]; simpl in *; [done|]. apply NoDup_cons in Hd as [Hn Hd].
    destruct (negb _); simpl; [|auto]. constructor; [|auto].
    intros (z & Hz & [Hz' _]%elem_of_filterb)%list_elem_of_fmap. apply Hn.
    apply list_elem_of_fmap. eauto.
Qed.
Lemma replaceCall_ids c cs : map vc_id (replaceCall c cs) = map vc_id cs.
Proof.
  unfold replaceCall. rewrite map_map. apply map_ext. intros item.
  destruct (streq (vc_id item) (vc_id c)) eqn:E; [|done]. by apply streq_true in E.
Qed.

(** ** Properties *)

(** C13. The offline queue loses nothing but what the server has accepted or its owner has
    left behind: from any reachable state of the browser, whatever its tabs, their polls and
    their flushes do next, a capture that was stored is still stored, for the same owner,
    unless the server has answered for it in some tab or its owner has signed out since,
    which clears the owner's captures. *)
Theorem flush_removes_only_accepted (b b' : Browser (File := File)) k item : browserReachable b → rtc browser_step b b' →
  committed (br_db b) !! k = Some item →
  k ∈ br_accepted b' ∨ (qi_organizationId item, qi_userId item) ∈ br_left b' ∨
  ∃ item', committed (br_db b') !! k = Some item' ∧
    qi_organizationId item' = qi_organizationId item ∧ qi_userId item' = qi_userId item.
Proof.
  intros Hr%browserInv_reachable Hs Hk. destruct (browser_steps_kept _ _ Hr Hs) as [(_ & _ & Hkept) _].
  destruct (decide (k ∈ br_accepted b')) as [|Hn]; [by left|].
  destruct (decide (ownerOf item ∈ br_left b')) as [|Hl]; [by right; left|]. right. right.
  destruct (Hkept k item Hk Hn Hl) as (item' & Hi & Ho). exists item'. injection Ho as Ho1 Ho2. done.
Qed.

(** One failure ends a flush: after an answer that is not a success, or a removal that fails,
    the pass marks that capture, counts what is left and stops; and a capture is only ever asked
    for when every capture before it in the listing was answered for or was blocked earlier. *)
Theorem flush_stops_at_failure s j item rest error toastId now :
  so_flush s = f_sending j item rest →
  let failed := flushAnswered (Err error) s in
  so_flush failed = f_marking j item error ∧
  so_flush (flushMarked toastId now failed) = f_refreshing j ∧
  so_flush (flushRefreshed (flushMarked toastId now failed)) = f_idle ∧
  so_syncing (flushRefreshed (flushMarked toastId now failed)) = false ∧
  ∀ items, flushNext j items = f_sending j item rest ↔
    ∃ skipped, items = skipped ++ item :: rest ∧ (j_force j || negb (blockedItem item) = true) ∧
      Forall (λ i, j_force j = false ∧ blockedItem i = true) skipped.
Proof.
  intros Hf. cbv zeta. unfold flushAnswered. rewrite Hf. split; [done|].
  assert (Hm : so_flush (flushMarked toastId now (withFlush true (f_marking j item error) s)) = f_refreshing j).
  { unfold flushMarked. cbn [so_flush withFlush].
    destruct (markQueuedInspectionAttempt _ _ _ _ _ _) as [db [u|e]]; [|done]. by destruct (clientError error). }
  split; [done|]. unfold flushRefreshed. rewrite Hm. split; [done|]. split; [done|]. clear Hm Hf.
  induction items as [|i items IH]; cbn [flushNext].
  - split; [done|]. by intros ([|? ?] & ? & _).
  - destruct (negb (j_force j) && blockedItem i) eqn:E.
    + apply andb_true_iff in E as [Ef Eb]. apply negb_true_iff in Ef. rewrite IH. split.
      * intros (sk & -> & Hi & Hsk). exists (i :: sk). split; [done|]. split; [done|]. by constructor.
      * intros ([|x sk] & Heq & Hi & Hsk); injection Heq as -> ->.
        -- rewrite Ef, Eb in Hi. done.
        -- apply Forall_cons in Hsk as [_ Hsk]. by exists sk.
    + split.
      * intros Heq. injection Heq as -> ->. exists []. split; [done|]. split; [|by constructor].
        destruct (j_force j), (blockedItem item); done.
      * intros ([|x sk] & Heq & Hi & Hsk); injection Heq as -> ->; [done|].
        apply Forall_cons in Hsk as [[Hfo Hb] _]. by rewrite Hfo, Hb in E.
Qed.

(** What the screens read is always normalized: in every reachable state each workflow status
    says whether it notifies, names its roles in the canonical order and without repeats, and
    normalizing again changes nothing. *)
Theorem store_normalized s : storeReachable s →
  normalizeAppState (so_state s) = so_state s ∧
  ∀ w, w ∈ default [] (st_invoiceStatusSteps (so_state s)) →
    ws_notifyOnEntry w ≠ None ∧ ∃ roles, ws_notificationRoles w = Some roles ∧ NoDup roles ∧
      roles = filterb (λ r, bool_decide (r ∈ roles)) ROLES.
Proof.
  intros Hn%normalized_reachable. split; [by apply normalized_eq|].
  destruct Hn as [_ (steps & Hs & Hw)]. rewrite Hs. cbn [default]. intros w Hin. rewrite <- (Hw w Hin).
  split; [done|]. eexists. split; [reflexivity|]. split.
  - apply NoDup_filterb. unfold ROLES. apply (bool_decide_unpack _). reflexivity.
  - symmetry. apply filterb_selected.
Qed.

(** Merging the answer for a capture replaces exactly what it answers: the capture and its
    invoice are found under their own identifier, every other one is unchanged and none appears
    twice; the calls keep their identifiers and order; the revision never goes back. *)
Theorem mergeInspection_exact result s :
  let st := so_state s in let st' := so_state (mergeInspection result s) in
  let i := imr_inspection result in
  findb (λ x, streq (insp_id x) (insp_id i)) (st_inspections st') = Some i ∧
  (∀ id, id ≠ insp_id i → findb (λ x, streq (insp_id x) id) (st_inspections st')
                        = findb (λ x, streq (insp_id x) id) (st_inspections st)) ∧
  (NoDup (map insp_id (st_inspections st)) → NoDup (map insp_id (st_inspections st'))) ∧
  (∀ v, imr_invoice result = Some v →
     findb (λ x, streq (ivc_id x) (ivc_id v)) (st_invoices st') = Some (normalizeInvoice v) ∧
     ∀ id, id ≠ ivc_id v → findb (λ x, streq (ivc_id x) id) (st_invoices st')
                         = findb (λ x, streq (ivc_id x) id) (st_invoices st)) ∧
  (imr_invoice result = None → st_invoices st' = st_invoices st) ∧
  map vc_id (st_calls st') = map vc_id (st_calls st) ∧
  st_rev st' = Z.max (st_rev st) (imr_rev result) ∧ st_org st' = st_org st ∧ st_settings st' = st_settings st.
Proof.
  cbv zeta. simpl. rewrite streq_refl.
  assert (Hother : ∀ {A} (key : A → str) x l id, id ≠ key x →
    findb (λ y, streq (key y) id) (x :: filterb (λ y, negb (streq (key y) (key x))) l)
    = findb (λ y, streq (key y) id) l).
  { intros A key x l id Hne. simpl. rewrite findb_filterb_other by done.
    destruct (streq (key x) id) eqn:E; [|done]. apply streq_true in E. congruence. }
  split; [done|]. split; [by apply Hother|]. split; [by apply NoDup_merged|].
  split; [intros v ->; split|].
  - apply findb_head. rewrite normalizeInvoice_id. apply streq_refl.
  - intros id Hid. rewrite <- (normalizeInvoice_id v) in Hid |- *. by apply Hother.
  - split; [by intros ->|]. split; [|done]. destruct (imr_call result); [apply replaceCall_ids|done].
Qed.
End Store.

(** ** A run *)

Definition sampleOrg : Organization :=
  mkOrganization (js "org") true (js "Calabar Agencies") [] [] [] [] [] (js "Port of Calabar") [] None 1 None.
Definition sampleMember : User :=
  mkUser (js "ada") (js "Ada") (js "ada@port.example") Operations user_active None true false false
    None None None None None None None.
Definition sampleStep : InvoiceWorkflowStatus :=
  mkInvoiceWorkflowStatus (Some (js "w1")) (js "sent") (js "Sent") (Some 1) true false false false
    None (Some [Viewer; Admin]).
Definition sampleState : AppState := mkAppState 4 sampleOrg sampleSettings [] [] [] (Some [sampleStep]).
Definition sampleCall : VesselCall :=
  mkVesselCall (js "call-1") (js "MV Adiaha") [] [] [] (numOfZ 900) [] [] [] None vc_pending [] None None 1 [].

#[local] Existing Instance asciiHost.
Abbreviation SampleStore := (Store.Store (File := unit)).

(** Ada's two captures are in the queue; the flush has just asked the server for the older one. *)
Definition loadedStore : SampleStore := initialStore sampleState (Some sampleOrg) (Some sampleMember) sampleQueue.
Definition sendingStore : SampleStore := flushListed (flushQueue false true loadedStore).
(** The server accepts it, and it is removed from the queue. *)
Definition sentStore : SampleStore :=
  flushRemoved (flushAnswered (Ok (mkInspectionMutation sampleInspection None None 5)) sendingStore).

Lemma loadedStore_reachable : storeReachable loadedStore.
Proof. repeat eexists. apply rtc_refl. Qed.

(** The same in the browser: Ada's tab flushes, another tab is opened, and Bode, who had a
    capture of his own, signs out. *)
Definition tabDoes (f : SampleStore → SampleStore) (b : Browser (File := unit)) : Browser :=
  match br_tabs b with
  | [] => b
  | s :: rest => let s' := f (withDb (br_db b) s) in mkBrowser (so_db s') (s' :: rest) (br_left b)
  end.
Lemma tabDoes_step f b b' : (∀ s, store_step s (f s)) → rtc browser_step (tabDoes f b) b' →
  rtc browser_step b b'.
Proof.
  intros Hf. unfold tabDoes. destruct (br_tabs b) as [|s rest] eqn:E; [done|]. intros Hr.
  eapply rtc_l; [|exact Hr]. pose proof (bs_tab b 0 s (f (withDb (br_db b) s))) as Hs.
  rewrite E in Hs. apply Hs; [done|apply Hf].
Qed.

Definition openedBrowser : Browser (File := unit) :=
  mkBrowser sampleQueue [initialStore sampleState (Some sampleOrg) (Some sampleMember) sampleQueue] [].
Definition sentBrowser : Browser (File := unit) :=
  tabDoes flushRemoved (tabDoes (flushAnswered (Ok (mkInspectionMutation sampleInspection None None 5)))
    (tabDoes flushListed (tabDoes (flushQueue false true) openedBrowser))).
Definition secondBrowser : Browser (File := unit) :=
  mkBrowser (br_db sentBrowser) (br_tabs sentBrowser ++ [initialStore sampleState None None (br_db sentBrowser)])
    (br_left sentBrowser).
Definition leftBrowser : Browser (File := unit) :=
  mkBrowser (fst (clearQueuedInspectionsForOwner [] (js "org") (js "bode") (br_db secondBrowser)))
    (br_tabs secondBrowser) ((js "org", js "bode") :: br_left secondBrowser).

Lemma openedBrowser_reachable : browserReachable openedBrowser.
Proof.
  exists sampleQueue. split; [apply sampleQueue_keyed|]. apply rtc_once.
  exact (bs_open (mkBrowser sampleQueue [] []) sampleState (Some sampleOrg) (Some sampleMember)).
Qed.
Lemma leftBrowser_steps : rtc browser_step openedBrowser leftBrowser.
Proof.
  apply (tabDoes_step (flushQueue false true)); [intros s; apply ss_flush|].
  apply (tabDoes_step flushListed); [intros s; apply ss_listed|].
  eapply (tabDoes_step (flushAnswered _)); [intros s; apply ss_answered|].
  apply (tabDoes_step flushRemoved); [intros s; apply ss_removed|].
  apply (rtc_l _ _ secondBrowser); [exact (bs_open sentBrowser sampleState None None)|].
  apply rtc_once. exact (bs_signedOut secondBrowser [] (js "org") (js "bode")).
Qed.

Example sentStore_queue :
  committed (so_db sentStore) !! js "k2" = None ∧ so_accepted sentStore = [js "k2"] ∧
  match so_flush sentStore with f_sending _ item [] => qi_id item = js "k1" | _ => False end.
Proof. vm_compute. done. Qed.

(** The three ways a capture fares: accepted, of an owner who left, still there. *)
Example leftBrowser_queue :
  map (λ k, bool_decide (is_Some (committed (br_db leftBrowser) !! k))) [js "k2"; js "k3"; js "k1"]
    = [false; false; true] ∧
  br_accepted leftBrowser = [js "k2"].
Proof. vm_compute. done. Qed.

Lemma flush_removes_only_accepted_witness :
  ∃ item', committed (br_db leftBrowser) !! js "k1" = Some item' ∧ qi_userId item' = js "ada".
Proof.
  destruct (flush_removes_only_accepted openedBrowser leftBrowser (js "k1")
    (sampleItem (js "k1") (js "org") (js "ada") (js "2026-02")))
    as [Hin|[Hin|(item' & Hi & _ & Hu)]];
    [apply openedBrowser_reachable|apply leftBrowser_steps|vm_compute; reflexivity| | |].
  - exfalso. apply (bool_decide_pack _) in Hin. vm_compute in Hin. exact Hin.
  - exfalso. apply (bool_decide_pack _) in Hin. vm_compute in Hin. exact Hin.
  - exists item'. split; [exact Hi|exact Hu].
Defined.

Lemma flush_stops_at_failure_witness :
  so_flush (flushRefreshed (flushMarked [] [] (flushAnswered (Err offlineRejection) sendingStore))) = f_idle.
Proof.
  destruct (so_flush sendingStore) as [| |j item rest| | |] eqn:E; try (exfalso; vm_compute in E; discriminate E).
  apply (flush_stops_at_failure sendingStore j item rest offlineRejection [] [] E).
Defined.

Lemma store_normalized_witness : normalizeAppState (so_state loadedStore) = so_state loadedStore.
Proof. apply (store_normalized loadedStore loadedStore_reachable). Defined.

(** ** What the store does not promise *)

(** A call that a poll has already brought is listed twice once [addCall] is answered. *)
Example callAdded_after_poll : ∃ s : SampleStore, storeReachable s ∧
  map vc_id (st_calls (so_state s)) = [js "call-1"; js "call-1"].
Proof.
  exists (callAdded sampleCall 5 (polled (Some (mkAppState 5 sampleOrg sampleSettings [sampleCall] [] [] None)) loadedStore)).
  split; [|done]. exists sampleState, (Some sampleOrg), (Some sampleMember), sampleQueue.
  eapply rtc_l; [apply ss_polled|]. eapply rtc_l; [apply ss_callAdded|]. apply rtc_refl.
Qed.
