(* ===== verification/VoyageStatus.v ===== *)
(** * Where a voyage stands (frontend/src/measurements/voyageStatus.ts)

    The one summary of a voyage that the dashboard, the voyage list, the vessel history and the
    stepper share, and what each of them derives from it. *)
From Stdlib Require Import SpecFloat.
From S2P Require Import Prelude JsString Json Codec MeasurementTypes Host Samples Helpers Comparison Cargo Uri CloseoutTypes Closeout CloseoutStore JsNumber AppTypes.

Inductive VoyageStage :=
| g_declaration | g_collecting | g_ready | g_returned | g_approval | g_invoice | g_draft
| g_no_charge | g_review | g_held | g_cancelled.
#[export] Instance VoyageStage_eq : EqDecision VoyageStage. Proof. solve_decision. Defined.
Inductive VoyageStep := p_declaration | p_agencies | p_readings | p_variation_invoice.
Definition step_lit (s : VoyageStep) : str :=
  match s with
  | p_declaration => js "declaration" | p_agencies => js "agencies" | p_readings => js "readings"
  | p_variation_invoice => js "variation-invoice"
  end.

Definition STAGE_LABELS (s : VoyageStage) : str :=
  match s with
  | g_declaration => js "Declaration" | g_collecting => js "Agency readings"
  | g_ready => js "Ready to reconcile" | g_returned => js "Returned for changes"
  | g_approval => js "Awaiting approval" | g_invoice => js "Invoice details needed"
  | g_draft => js "Invoice drafted" | g_no_charge => js "No additional charge"
  | g_review => js "Overpayment review" | g_held => js "Billing on hold" | g_cancelled => js "Cancelled"
  end.
Inductive Tone := neutral | green | amber | blue | red.
Definition STAGE_TONES (s : VoyageStage) : Tone :=
  match s with
  | g_declaration | g_collecting => neutral | g_ready | g_approval | g_no_charge => green
  | g_returned | g_invoice | g_draft | g_held => amber | g_review => blue | g_cancelled => red
  end.

Definition voyagePath (callId : str) (step : VoyageStep) : str :=
  js "/app/measurements/voyages/" ++ encodeURIComponent callId ++ cSlash :: step_lit step.

(** [/^\d{1,15}(?:\.\d{1,6})?$/] *)
Definition validQuantity (value : option str) : bool :=
  match value with
  | None => false
  | Some v =>
    match split cDot (trim v) with
    | [w] => boundedDigits 15 w
    | [w; f] => boundedDigits 15 w && boundedDigits 6 f
    | _ => false
    end
  end.

Section Voyage.
Context `{Host}.

Definition lineDiffers (plan : MeasurementPlan) (line : CargoLine) : bool :=
  existsb (λ submission,
    match findb (λ item, streq (sl_lineId item) (line_id line)) (sub_lines submission) with
    | Some reading =>
        bool_decide (sl_status reading = reported)
        && negb (bool_decide (quantityDifference (sl_quantity reading) (manifestQuantity line) = Some (js "0")))
    | None => false
    end) (latestReturns plan).*2.

(** The latest of the times that are given; an unreadable one counts as the epoch. *)
Definition timeOf (s : str) : Z := default 0 (dateParse s).
Definition latest (values : list (option str)) : option str :=
  head (sort_by (λ left right, timeOf right - timeOf left)
    (omap (λ v, match v with Some s => if truthy s then Some s else None | None => None end) values)).

Record VoyageSummary := mkSummary {
  vs_callId : str; vs_call : option VesselCall; vs_vesselName : str; vs_reference : str;
  vs_arrival : str; vs_plans : list MeasurementPlan; vs_allPlans : list MeasurementPlan;
  vs_stage : VoyageStage; vs_received : Z; vs_expected : Z; vs_pendingAgencies : list str;
  vs_missingDeclarations : list str; vs_lineCount : Z; vs_differingLines : Z;
  vs_report : option PreviewReport; vs_pending : option PreviewReport;
  vs_returned : option PreviewReport; vs_invoice : option PreviewInvoice;
  vs_declaration : option PaidDeclaration; vs_lastActivityAt : option str }.

(** A required agency that has not reported every line. *)
Definition incompleteReading (plan : MeasurementPlan) (reading : option Submission) : bool :=
  match reading with
  | None => true
  | Some reading =>
    existsb (λ line,
      match findb (λ item, streq (sl_lineId item) (line_id line)) (sub_lines reading) with
      | None => true
      | Some row => match sl_status row with
                    | reported => negb (validQuantity (sl_quantity row))
                    | not_applicable => negb (truthy (trim (sl_note row)))
                    end
      end) (plan_lines plan)
  end.

(** The counters of the loop over every plan's participants. *)
Definition partyReadings (plans : list MeasurementPlan) : list (MeasurementPlan * Participant * option Submission) :=
  flat_map (λ plan, map (λ party, (plan, party, mget (party_id party) (latestReturns plan)))
    (plan_participants plan)) plans.
Definition pendingNames (plans : list MeasurementPlan) : list str :=
  uniq (omap (λ '(plan, party, reading),
    if party_requiredSubmission party && incompleteReading plan reading then Some (party_name party) else None)
    (partyReadings plans)).

Definition voyageLines (plans : list MeasurementPlan) : list (MeasurementPlan * CargoLine) :=
  flat_map (λ plan, map (pair plan) (plan_lines plan)) plans.

Definition stageOf (cancelled : bool) (plans : list MeasurementPlan) (missingDeclarations : list str)
    (report pending returned : option PreviewReport) (invoice : option PreviewInvoice) : VoyageStage :=
  if cancelled then g_cancelled else
  if Nat.eqb (length plans) 0 || negb (Nat.eqb (length missingDeclarations) 0) then g_declaration else
  match report with
  | Some _ =>
    match inv_status <$> invoice with
    | Some is_draft => g_draft
    | Some is_no_charge => g_no_charge
    | Some is_overpayment => g_review
    | Some is_held => g_held
    | None => g_invoice
    end
  | None =>
    match pending with
    | Some _ => g_approval
    | None =>
      if negb (Nat.eqb (length (reconciliationIssues plans)) 0) then g_collecting
      else match returned with Some _ => g_returned | None => g_ready end
    end
  end.

(** The newest invoice of the current report. *)
Definition invoiceOf (report : option PreviewReport) (record : option CloseoutRecord) : option PreviewInvoice :=
  match report, record with
  | Some r, Some c => last (filterb (λ item, streq (inv_reportId item) (rep_id r)) (cr_invoices c))
  | _, _ => None
  end.
Definition missingOf (plans : list MeasurementPlan) : list str :=
  uniq (map (λ pl : MeasurementPlan * CargoLine, description pl.2)
    (filterb (λ pl : MeasurementPlan * CargoLine, negb (validQuantity (manifestQuantity pl.2))) (voyageLines plans))).

(** [allPlans.filter(plan => plan.status !== "cancelled")] *)
Definition openPlans (plans : list MeasurementPlan) : list MeasurementPlan :=
  filterb (λ plan, negb (bool_decide (plan_status plan = plan_cancelled))) plans.

Definition summarizeVoyage (callId : str) (vc : option VesselCall) (allPlans : list MeasurementPlan)
    (record : option CloseoutRecord) : VoyageSummary :=
  let cancelled := bool_decide (vc_status <$> vc = Some vc_cancelled) in
  let plans := openPlans allPlans in
  let report := currentReport plans record in
  let pending := pendingReport plans record in
  let returned := returnedReport record in
  let invoice := invoiceOf report record in
  let readings := partyReadings plans in
  let lines := voyageLines plans in
  let missingDeclarations := missingOf plans in
  let stage := stageOf cancelled plans missingDeclarations report pending returned invoice in
  mkSummary callId vc
    (match vc with Some c => vc_vesselName c | None => default (js "Vessel") (plan_vesselName <$> head allPlans) end)
    (match vc with Some c => vc_reference c | None => default callId (plan_callReference <$> head allPlans) end)
    (default [] (vc_eta <$> vc)) plans allPlans stage
    (Z.of_nat (length (filterb (λ r, match r.2 with Some _ => true | None => false end) readings)))
    (Z.of_nat (length readings)) (pendingNames plans) missingDeclarations
    (Z.of_nat (length lines)) (Z.of_nat (length (filterb (λ pl, lineDiffers pl.1 pl.2) lines)))
    report pending returned (if cancelled then None else invoice) (record ≫= cr_declaration)
    (latest
      (map (λ s, Some (sub_recordedAt s)) (flat_map plan_submissions plans)
       ++ map (λ e, Some (pe_at e)) (match record with Some c => cr_events c | None => [] end)
       ++ [pd_updatedAt <$> (record ≫= cr_declaration)]
       ++ map (λ p, Some (plan_scheduledAt p)) plans
       ++ [vc_registered <$> vc])).

(** ** Every voyage *)

Record VoyageEntry := mkEntry { ve_call : option VesselCall; ve_plans : list MeasurementPlan }.
Definition entryOfCalls (calls : list VesselCall) : list (str * VoyageEntry) :=
  foldl (λ m c, mset (vc_id c) (mkEntry (Some c) []) m) [] calls.
Definition addPlan (m : list (str * VoyageEntry)) (plan : MeasurementPlan) : list (str * VoyageEntry) :=
  let entry := default (mkEntry None []) (mget (plan_callId plan) m) in
  mset (plan_callId plan) (mkEntry (ve_call entry) (ve_plans entry ++ [plan])) m.
Definition byCall (calls : list VesselCall) (plans : list MeasurementPlan) : list (str * VoyageEntry) :=
  foldl addPlan (entryOfCalls calls) plans.
Definition recordByCall (records : list CloseoutRecord) : list (str * CloseoutRecord) :=
  foldl (λ m r, mset (cr_callId r) r m) [] records.
Definition summarizeVoyages (calls : list VesselCall) (plans : list MeasurementPlan)
    (records : list CloseoutRecord) : list VoyageSummary :=
  map (λ '(callId, entry),
    summarizeVoyage callId (ve_call entry) (ve_plans entry) (mget callId (recordByCall records)))
    (byCall calls plans).

(** ** Declared totals *)

Definition totalKey (line : CargoLine) : str :=
  match unit_ line with
  | count => if streq (category line) (js "Container") then js "container"
             else if streq (category line) (js "Vehicle") then js "vehicle" else js "item"
  | u => unit_lit u
  end.
Definition declaredTotals (lines : list CargoLine) : list (str * num) :=
  foldl (λ totals (line : CargoLine),
    if negb (validQuantity (manifestQuantity line)) then totals else
    mset (totalKey line)
      (numAdd (default (numOfZ 0) (mget (totalKey line) totals))
         (numberOfText (default [] (manifestQuantity line)))) totals) [] lines.
Definition UNIT_WORDS (key : str) : str * str :=
  if streq key (js "container") then (js "container", js "containers")
  else if streq key (js "vehicle") then (js "vehicle", js "vehicles") else (js "item", js "items").
Definition totalText (key : str) (total : num) : str :=
  let rounded := numDiv (mathRound (numMul total (numOfZ 1000))) (numOfZ 1000) in
  let value := if SFeqb rounded (numOfZ 0) then js "0" else readingQuantity (Some (numberText rounded)) in
  if streq key (js "tonnes") then value ++ js " t"
  else if streq key (js "m3") then value ++ js " m³"
  else let '(one, many) := UNIT_WORDS key in
       value ++ cSpace :: (if SFeqb total (numOfZ 1) then one else many).
Definition declarationTotals (lines : list CargoLine) : str :=
  join (js " · ") (map (λ '(key, total), totalText key total) (declaredTotals lines)).

(** ** The stepper *)

Inductive StepState := st_done | st_current | st_todo.
Record StepStatus := mkStep { ss_state : StepState; ss_label : str }.

Definition money (currency amount : str) : str :=
  let parts := split cDot amount in
  currency ++ cSpace :: groupThousands (default [] (parts !! 0%nat))
    ++ cDot :: padEnd 2 cZero (default (js "00") (parts !! 1%nat)).

Definition submittedText (s : VoyageSummary) : str :=
  printZ (vs_received s) ++ js " of " ++ printZ (vs_expected s) ++ js " submitted".

Definition voyageSteps (s : VoyageSummary) (step : VoyageStep) : StepStatus :=
  let stage := vs_stage s in
  let empty := Nat.eqb (length (vs_plans s)) 0 in
  match step with
  | p_declaration =>
    let totals := declarationTotals (flat_map plan_lines (vs_plans s)) in
    let paid_ := bool_decide ((λ d : PaidDeclaration, pd_paymentStatus d) <$> vs_declaration s = Some paid) in
    if empty then mkStep st_current (js "Not started")
    else if negb (Nat.eqb (length (vs_missingDeclarations s)) 0) then mkStep st_current (js "Quantities missing")
    else mkStep st_done ((if paid_ then js "Paid" else js "Recorded")
           ++ (if truthy totals then js " · " ++ totals else []))
  | p_agencies =>
    if empty then mkStep st_todo (js "Not started")
    else match stage with
         | g_collecting => mkStep st_current (submittedText s)
         | g_declaration => mkStep st_todo (submittedText s)
         | _ => mkStep st_done (submittedText s)
         end
  | p_readings =>
    let differing := if vs_differingLines s =? 1 then js "1 line differs"
                     else printZ (vs_differingLines s) ++ js " lines differ" in
    match stage with
    | g_ready => mkStep st_current (if vs_differingLines s =? 0 then js "All lines agree" else differing)
    | g_approval => mkStep st_current (js "Awaiting approval")
    | g_returned => mkStep st_current (js "Returned for changes")
    | g_cancelled => mkStep st_todo (js "After readings arrive")
    | _ => match vs_report s with
           | Some r => mkStep st_done (js "Approved · v" ++ printZ (rep_revision r))
           | None => mkStep st_todo (js "After readings arrive")
           end
    end
  | p_variation_invoice =>
    match stage, vs_invoice s with
    | g_invoice, _ => mkStep st_current (js "Details needed")
    | g_draft, Some i => mkStep st_current (js "Draft · " ++ money (currency_lit (inv_currency i)) (inv_total i))
    | g_no_charge, _ => mkStep st_done (js "No additional charge")
    | g_review, _ => mkStep st_current (js "Overpayment review")
    | g_held, _ => mkStep st_current (js "On hold")
    | _, _ => mkStep st_todo (js "Drafted on approval")
    end
  end.

Definition nextStepPath (s : VoyageSummary) (canCreate : bool) : str :=
  match vs_stage s with
  | g_declaration =>
    if Nat.eqb (length (vs_plans s)) 0 && canCreate
    then js "/app/measurements/new?callId=" ++ encodeURIComponent (vs_callId s)
    else voyagePath (vs_callId s) p_declaration
  | g_collecting => voyagePath (vs_callId s) p_agencies
  | g_ready | g_approval | g_returned | g_cancelled => voyagePath (vs_callId s) p_readings
  | _ => voyagePath (vs_callId s) p_variation_invoice
  end.

(** Whole days since an ISO time. *)
Definition daysSince (value : option str) (now : Z) : option Z :=
  match value with
  | Some v => if truthy v then time ← dateParse v; Some (Z.max 0 ((now - time) / 86400000)) else None
  | None => None
  end.


(** ** Lemmas: the index of voyages *)

Lemma foldl_mset_NoDup {A B} (f : list (str * B) → A → list (str * B)) l m :
  (∀ m a, NoDup m.*1 → NoDup (f m a).*1) → NoDup m.*1 → NoDup (foldl f m l).*1.
Proof. intros Hf. revert m. induction l as [|a l IH]; intros m Hm; simpl; [done|]. by apply IH, Hf. Qed.

(** The last element of a list that has the key. *)
Lemma mget_foldl_last {A B} (key : A → str) (val : A → B) l m k :
  mget k (foldl (λ m a, mset (key a) (val a) m) m l) =
    match last (filterb (λ a, streq (key a) k) l) with Some a => Some (val a) | None => mget k m end.
Proof.
  revert m. induction l as [|a l IH]; intros m; simpl; [done|]. rewrite IH.
  destruct (streq (key a) k) eqn:E.
  - apply streq_true in E. rewrite last_cons, E, mget_mset_eq. by destruct (last _).
  - rewrite mget_mset_ne; [done|]. intros Hk. by rewrite Hk, streq_refl in E.
Qed.

Definition plansOf (k : str) (plans : list MeasurementPlan) : list MeasurementPlan :=
  filterb (λ p, streq (plan_callId p) k) plans.
Lemma mget_addPlans plans m k :
  mget k (foldl addPlan m plans) =
    match mget k m, plansOf k plans with
    | None, [] => None
    | o, ps => Some (mkEntry (o ≫= ve_call) (default [] (ve_plans <$> o) ++ ps))
    end.
Proof.
  revert m. induction plans as [|p plans IH]; intros m; simpl.
  - destruct (mget k m) as [[c ps]|]; [|done]. simpl. by rewrite app_nil_r.
  - rewrite IH. unfold plansOf. cbn [filterb]. unfold addPlan. destruct (streq (plan_callId p) k) eqn:E.
    + apply streq_true in E. subst. rewrite mget_mset_eq. destruct (mget _ m) as [[c ps]|]; simpl; [|done].
      f_equal. f_equal. by rewrite <- app_assoc.
    + rewrite mget_mset_ne; [done|]. intros Hk. by rewrite Hk, streq_refl in E.
Qed.

(** The call of a voyage: the last one listed under its identifier. *)
Definition callOf (k : str) (calls : list VesselCall) : option VesselCall :=
  last (filterb (λ c, streq (vc_id c) k) calls).
Lemma mget_byCall calls plans k :
  mget k (byCall calls plans) =
    match callOf k calls, plansOf k plans with
    | None, [] => None
    | o, ps => Some (mkEntry o ps)
    end.
Proof.
  unfold byCall, entryOfCalls, callOf. rewrite mget_addPlans, mget_foldl_last. simpl.
  by destruct (last _), (plansOf k plans).
Qed.
Lemma byCall_NoDup calls plans : NoDup (byCall calls plans).*1.
Proof.
  apply foldl_mset_NoDup; [intros m p; apply mset_NoDup|]. apply foldl_mset_NoDup; [|constructor].
  intros m c. apply mset_NoDup.
Qed.

(** The stages of a voyage whose current quantities are approved. *)
Definition atInvoice (stage : VoyageStage) : bool :=
  match stage with g_invoice | g_draft | g_no_charge | g_review | g_held => true | _ => false end.
(** The stages of a voyage whose readings are complete and not reported on. *)
Definition atReport (stage : VoyageStage) : bool :=
  match stage with g_ready | g_returned => true | _ => false end.

Lemma stage_facts callId vc allPlans record :
  let s := summarizeVoyage callId vc allPlans record in
  match vs_stage s with
  | g_cancelled => True
  | g_declaration => Nat.eqb (length (vs_plans s)) 0 = true ∨
      negb (Nat.eqb (length (vs_missingDeclarations s)) 0) = true
  | stage => Nat.eqb (length (vs_plans s)) 0 = false ∧
      negb (Nat.eqb (length (vs_missingDeclarations s)) 0) = false ∧
      (stage = g_draft → vs_invoice s ≠ None)
  end.
Proof.
  cbv zeta. cbn [vs_stage vs_plans vs_missingDeclarations vs_invoice summarizeVoyage]. unfold stageOf.
  destruct (bool_decide _); [done|].
  destruct (Nat.eqb (length (openPlans allPlans)) 0); [by left|]. cbn [orb].
  destruct (negb (Nat.eqb (length (missingOf _)) 0)); [by right|].
  destruct (currentReport _ _).
  - destruct (invoiceOf _ _) as [i|]; [cbn [fmap option_fmap option_map]; destruct (inv_status i)|]; by split_and!.
  - destruct (pendingReport _ _); [by split_and!|]. destruct (negb _); [by split_and!|].
    destruct (returnedReport _); by split_and!.
Qed.

(** ** What a stage means *)

Section Meaning.
Context (vc : option VesselCall) (allPlans : list MeasurementPlan) (record : option CloseoutRecord).

Definition openPlan (plan : MeasurementPlan) : Prop :=
  plan ∈ allPlans ∧ plan_status plan ≠ plan_cancelled.
(** There is an open sheet, and every line of the open ones declares a quantity. *)
Definition declared : Prop :=
  (∃ plan, openPlan plan) ∧
  ∀ plan (line : CargoLine), openPlan plan → line ∈ plan_lines plan → validQuantity (manifestQuantity line) = true.

(** The report is the newest approved one and rests on the sheets as they are. *)
Definition approvedCurrent (plans : list MeasurementPlan) (rep : PreviewReport) : Prop :=
  (∃ r before after, record = Some r ∧ cr_reports r = before ++ rep :: after ∧
     reportStatus rep = rs_approved ∧ ∀ later, later ∈ after → reportStatus later ≠ rs_approved) ∧
  matchesInputs rep plans = true.
(** The newest invoice of a report. *)
Definition newestInvoice (rep : PreviewReport) (inv : PreviewInvoice) : Prop :=
  ∃ r before after, record = Some r ∧ cr_invoices r = before ++ inv :: after ∧
    inv_reportId inv = rep_id rep ∧ ∀ later, later ∈ after → inv_reportId later ≠ rep_id rep.
(** The current approved report is billed with this status, or not billed. *)
Definition billedAs (plans : list MeasurementPlan) (status : option PreviewInvoiceStatus) : Prop :=
  ∃ rep, approvedCurrent plans rep ∧
    match status with
    | Some st => ∃ inv, newestInvoice rep inv ∧ inv_status inv = st
    | None => ∀ r inv, record = Some r → inv ∈ cr_invoices r → inv_reportId inv ≠ rep_id rep
    end.
(** The latest version has this status. *)
Definition latestIs (status : PreviewReportStatus) (rep : PreviewReport) : Prop :=
  ∃ r before, record = Some r ∧ cr_reports r = before ++ [rep] ∧ reportStatus rep = status.

Definition stageMeans (stage : VoyageStage) : Prop :=
  let plans := openPlans allPlans in
  let isCancelled := vc_status <$> vc = Some vc_cancelled in
  let working := ¬ isCancelled ∧ declared in
  let unapproved := working ∧ ∀ rep, ¬ approvedCurrent plans rep in
  let pending := ∃ rep, latestIs rs_submitted rep ∧ matchesInputs rep plans = true in
  let returned := ∃ rep, latestIs rs_returned rep in
  match stage with
  | g_cancelled => isCancelled
  | g_declaration => ¬ isCancelled ∧ ¬ declared
  | g_draft => working ∧ billedAs plans (Some is_draft)
  | g_no_charge => working ∧ billedAs plans (Some is_no_charge)
  | g_review => working ∧ billedAs plans (Some is_overpayment)
  | g_held => working ∧ billedAs plans (Some is_held)
  | g_invoice => working ∧ billedAs plans None
  | g_approval => unapproved ∧ pending
  | g_collecting => unapproved ∧ ¬ pending ∧ reconciliationIssues plans ≠ []
  | g_returned => unapproved ∧ ¬ pending ∧ reconciliationIssues plans = [] ∧ returned
  | g_ready => unapproved ∧ ¬ pending ∧ reconciliationIssues plans = [] ∧ ¬ returned
  end.
End Meaning.

Lemma last_filterb_Some {A} (f : A → bool) l x : last (filterb f l) = Some x ↔
  ∃ before after, l = before ++ x :: after ∧ f x = true ∧ ∀ y, y ∈ after → f y = false.
Proof.
  split.
  - induction l as [|y l IH] using rev_ind; [done|]. rewrite filterb_app. cbn [filterb].
    destruct (f y) eqn:E.
    + rewrite last_snoc. intros [= ->]. exists l, []. split; [done|]. split; [done|]. by intros z ?%elem_of_nil.
    + rewrite app_nil_r. intros (before & after & -> & Hx & Ha)%IH. exists before, (after ++ [y]).
      split; [by rewrite <- app_assoc|]. split; [done|].
      intros z [Hz| ->%list_elem_of_singleton]%elem_of_app; auto.
  - intros (before & after & -> & Hx & Ha). rewrite filterb_app. cbn [filterb]. rewrite Hx.
    assert (Hn : filterb f after = []).
    { apply elem_of_nil_inv. intros y [Hy Hf]%elem_of_filterb. by rewrite (Ha y Hy) in Hf. }
    by rewrite Hn, last_snoc.
Qed.
Lemma findb_rev_last {A} (f : A → bool) l : findb f (rev l) = last (filterb f l).
Proof.
  induction l as [|x l IH] using rev_ind; [done|]. rewrite rev_app_distr, filterb_app. cbn [rev app findb filterb].
  destruct (f x); [by rewrite last_snoc|by rewrite app_nil_r].
Qed.

Lemma currentReport_spec plans record rep : currentReport plans record = Some rep ↔ approvedCurrent record plans rep.
Proof.
  unfold currentReport, approvedCurrent. rewrite findb_rev_last, bind_Some. split.
  - intros (rep' & Hl & Hm). destruct (matchesInputs rep' plans) eqn:Em; [|done]. injection Hm as ->.
    split; [|done]. destruct record as [r|]; [|done].
    apply last_filterb_Some in Hl as (before & after & Hr & Hs%bool_decide_eq_true & Ha).
    exists r, before, after. split; [done|]. split; [exact Hr|]. split; [done|].
    intros later Hin. by apply (bool_decide_eq_false _), Ha.
  - intros [(r & before & after & -> & Hr & Hs & Ha) Hm]. exists rep. rewrite Hm. split; [|done]. cbn iota beta.
    apply last_filterb_Some. exists before, after. split; [done|]. split; [by apply bool_decide_eq_true|].
    intros later Hin. by apply bool_decide_eq_false, Ha.
Qed.
Lemma latest_last record status rep : latestIs record status rep ↔
  ∃ r, record = Some r ∧ last (cr_reports r) = Some rep ∧ reportStatus rep = status.
Proof.
  unfold latestIs. setoid_rewrite last_Some. naive_solver.
Qed.
Lemma pendingReport_spec plans record rep : pendingReport plans record = Some rep ↔
  latestIs record rs_submitted rep ∧ matchesInputs rep plans = true.
Proof.
  rewrite latest_last. unfold pendingReport. destruct record as [r|]; cbn [mbind option_bind]; [|naive_solver].
  destruct (last (cr_reports r)) as [rep'|] eqn:El; cbn [mbind option_bind]; [|naive_solver].
  destruct (bool_decide _ && _) eqn:E.
  - apply andb_true_iff in E as [E%bool_decide_eq_true Em]. naive_solver.
  - apply andb_false_iff in E. rewrite bool_decide_eq_false in E. split; [done|].
    intros [(r' & [= <-] & Hl & Hs) Hm]. rewrite El in Hl. injection Hl as <-. destruct E; congruence.
Qed.
Lemma returnedReport_spec record rep : returnedReport record = Some rep ↔ latestIs record rs_returned rep.
Proof.
  rewrite latest_last. unfold returnedReport. destruct record as [r|]; cbn [mbind option_bind]; [|naive_solver].
  destruct (last (cr_reports r)) as [rep'|] eqn:El; cbn [mbind option_bind]; [|naive_solver].
  case_bool_decide; naive_solver.
Qed.
Lemma declared_spec allPlans :
  (Nat.eqb (length (openPlans allPlans)) 0 || negb (Nat.eqb (length (missingOf (openPlans allPlans))) 0)) = false ↔
  declared allPlans.
Proof.
  assert (Hopen : ∀ plan, plan ∈ openPlans allPlans ↔ openPlan allPlans plan).
  { intros plan. unfold openPlans, openPlan. by rewrite elem_of_filterb, negb_true_iff, bool_decide_eq_false. }
  assert (Hmissing : missingOf (openPlans allPlans) = [] ↔
    ∀ plan (line : CargoLine), openPlan allPlans plan → line ∈ plan_lines plan → validQuantity (manifestQuantity line) = true).
  { split.
    - intros Hm plan line Hp Hl. apply not_false_iff_true. intros Hq.
      assert (Hin : description line ∈ missingOf (openPlans allPlans)); [|rewrite Hm in Hin; by apply elem_of_nil in Hin].
      unfold missingOf. apply elem_of_uniq, list_elem_of_fmap. exists (plan, line). split; [done|].
      apply elem_of_filterb. rewrite negb_true_iff. split; [|done]. unfold voyageLines.
      apply list_elem_of_In, in_flat_map. exists plan. rewrite <- !list_elem_of_In, Hopen. split; [done|].
      apply list_elem_of_fmap. by exists line.
    - intros Hall. apply elem_of_nil_inv. unfold missingOf. intros d. rewrite elem_of_uniq, list_elem_of_fmap.
      intros ([plan line] & _ & [Hin Hq%negb_true_iff]%elem_of_filterb). unfold voyageLines in Hin.
      apply list_elem_of_In, in_flat_map in Hin as (plan' & Hp & Hl).
      apply list_elem_of_In, list_elem_of_fmap in Hl as (line' & [= -> ->] & Hl). apply list_elem_of_In, Hopen in Hp.
      cbn in Hq. by rewrite (Hall _ _ Hp Hl) in Hq. }
  unfold declared. rewrite <- Hmissing. rewrite orb_false_iff, negb_false_iff, Nat.eqb_eq, Nat.eqb_neq,
    (length_zero_iff_nil (missingOf _)).
  split; intros [H1 H2]; (split; [|done]).
  - destruct (openPlans allPlans) as [|plan l]; [done|]. exists plan. apply Hopen. by left.
  - destruct H1 as (plan & Hp%Hopen). intros Hz. apply length_zero_iff_nil in Hz. rewrite Hz in Hp. by apply elem_of_nil in Hp.
Qed.
(** What billing status the current approved report has. *)
Lemma billedAs_current plans record rep status : approvedCurrent record plans rep →
  billedAs record plans status ↔ inv_status <$> invoiceOf (Some rep) record = status.
Proof.
  intros Hrep. assert (Huniq : ∀ rep', approvedCurrent record plans rep' → rep' = rep).
  { intros rep' H1%currentReport_spec. apply currentReport_spec in Hrep. congruence. }
  assert (Hinv : ∀ inv, invoiceOf (Some rep) record = Some inv ↔ newestInvoice record rep inv).
  { intros inv. unfold invoiceOf, newestInvoice. destruct record as [r|]; [|naive_solver].
    rewrite last_filterb_Some. setoid_rewrite streq_true. setoid_rewrite streq_false. naive_solver. }
  assert (Hnone : invoiceOf (Some rep) record = None ↔
    ∀ r inv, record = Some r → inv ∈ cr_invoices r → inv_reportId inv ≠ rep_id rep).
  { unfold invoiceOf. destruct record as [r|]; [|naive_solver]. rewrite last_None. split.
    - intros Hn r' inv [= <-] Hin He. assert (Hf : inv ∈ filterb (λ item, streq (inv_reportId item) (rep_id rep)) (cr_invoices r))
        by (apply elem_of_filterb; rewrite He, streq_refl; done). rewrite Hn in Hf. by apply elem_of_nil in Hf.
    - intros Hall. apply elem_of_nil_inv. intros inv [Hin He%streq_true]%elem_of_filterb. by apply (Hall r inv). }
  unfold billedAs. destruct status as [st|].
  - split.
    + intros (rep' & ->%Huniq & inv & Hi%Hinv & Hs). rewrite Hi. cbn. congruence.
    + intros (inv & Hi & Hs)%fmap_Some. exists rep. split; [done|]. exists inv. split; [by apply Hinv|done].
  - split.
    + intros (rep' & ->%Huniq & Hall). by rewrite (proj2 Hnone Hall).
    + intros Hn%fmap_None. exists rep. split; [done|]. by apply Hnone.
Qed.

(** ** Properties *)

(** C15. What each of the eleven stages means, exactly and exclusively. A voyage is cancelled
    when its call is; otherwise in declaration while it has no open sheet or a line of one
    lacks a well-formed declared quantity; otherwise, with a current approved report, it
    stands where that report's newest invoice does: drafted, without charge, under
    overpayment review or on hold, as its status says, or waiting for billing details when
    the report has no invoice; otherwise awaiting approval when the latest version is
    submitted and current, collecting while the readings have an issue, returned when they
    have none and the latest version was sent back, and ready in what is left. *)
Theorem voyage_stage_meaning callId vc allPlans record stage :
  vs_stage (summarizeVoyage callId vc allPlans record) = stage ↔
  stageMeans vc allPlans record stage.
Proof.
  cbn [vs_stage summarizeVoyage]. unfold stageOf, stageMeans.
  pose proof (declared_spec allPlans) as Hdec. pose proof (currentReport_spec (openPlans allPlans) record) as Hcur.
  pose proof (pendingReport_spec (openPlans allPlans) record) as Hpen.
  pose proof (returnedReport_spec record) as Hret. revert Hdec Hcur Hpen Hret.
  generalize (openPlans allPlans) as plans. intros plans Hdec Hcur Hpen Hret.
  destruct (decide (vc_status <$> vc = Some vc_cancelled)) as [Hc|Hc].
  { rewrite bool_decide_eq_true_2 by done. destruct stage; naive_solver. }
  rewrite bool_decide_eq_false_2 by done.
  destruct (Nat.eqb (length plans) 0 || negb (Nat.eqb (length (missingOf plans)) 0)) eqn:Ed.
  { assert (Hnd : ¬ declared allPlans) by (by rewrite <- Hdec). clear Hdec. destruct stage; naive_solver. }
  assert (Hd : declared allPlans) by (by apply Hdec). clear Hdec.
  destruct (currentReport plans record) as [rep|] eqn:Er.
  { assert (Hap : approvedCurrent record plans rep) by (by apply Hcur).
    pose proof (λ status, billedAs_current plans record rep status Hap) as Hb.
    assert (Hn : ¬ ∀ rep, ¬ approvedCurrent record plans rep) by (intros Hn; by apply (Hn rep)).
    clear Hcur Hpen Hret Hap.
    destruct (invoiceOf (Some rep) record) as [i|]; cbn [fmap option_fmap option_map] in *;
      [destruct (inv_status i)|]; destruct stage; rewrite ?Hb; naive_solver. }
  assert (Hn : ∀ rep, ¬ approvedCurrent record plans rep) by (intros rep Hrep%Hcur; discriminate Hrep).
  assert (Hb : ∀ status, ¬ billedAs record plans status) by (intros status (rep & Hrep & _); by apply (Hn rep)).
  clear Hcur. destruct (pendingReport plans record) as [rep|].
  { assert (Hp : ∃ rep, latestIs record rs_submitted rep ∧ matchesInputs rep plans = true) by (by exists rep; apply Hpen).
    clear Hpen Hret. destruct stage; naive_solver. }
  assert (Hp : ¬ ∃ rep, latestIs record rs_submitted rep ∧ matchesInputs rep plans = true) by (intros (rep & Hrep%Hpen); discriminate Hrep).
  clear Hpen. destruct (reconciliationIssues plans) as [|issue issues]; cbn [length Nat.eqb negb];
    [|clear Hret; destruct stage; naive_solver].
  destruct (returnedReport record) as [rep|].
  - assert (Hr : ∃ rep, latestIs record rs_returned rep) by (by exists rep; apply Hret).
    clear Hret. destruct stage; naive_solver.
  - assert (Hr : ¬ ∃ rep, latestIs record rs_returned rep) by (intros (rep & Hrep%Hret); discriminate Hrep).
    clear Hret. destruct stage; naive_solver.
Qed.

(** The stepper and the next action always agree: unless the voyage is cancelled or closed
    without a charge, exactly one step is current, and it is the one the next action opens. *)
Theorem stepper_follows_stage callId vc allPlans record :
  let s := summarizeVoyage callId vc allPlans record in
  vs_stage s ≠ g_cancelled → vs_stage s ≠ g_no_charge →
  ∃ step, nextStepPath s false = voyagePath callId step ∧
    ∀ step', ss_state (voyageSteps s step') = st_current ↔ step' = step.
Proof.
  cbv zeta. pose proof (stage_facts callId vc allPlans record) as Hf. cbv zeta in Hf. revert Hf.
  set (s := summarizeVoyage callId vc allPlans record).
  assert (Hid : vs_callId s = callId) by done. clearbody s. subst callId. intros Hf Hc Hn.
  unfold nextStepPath, voyageSteps. destruct (vs_stage s) eqn:Es; try done.
  all: try (destruct Hf as (Hp & Hm & Hd); rewrite Hp, Hm).
  - exists p_declaration. split; [by rewrite andb_false_r|].
    intros []; simpl; [|by destruct (Nat.eqb _ 0)|by destruct (vs_report s)|done].
    destruct Hf as [-> | ->]; [done|]. by destruct (Nat.eqb _ 0).
  - exists p_agencies. split; [done|]. intros []; simpl; try done. by destruct (vs_report s).
  - exists p_readings. split; [done|]. by intros [].
  - exists p_readings. split; [done|]. by intros [].
  - exists p_readings. split; [done|]. by intros [].
  - exists p_variation_invoice. split; [done|]. intros []; simpl; try done. by destruct (vs_report s).
  - exists p_variation_invoice. split; [done|]. specialize (Hd eq_refl).
    destruct (vs_invoice s); [|done]. intros []; simpl; try done. by destruct (vs_report s).
  - exists p_variation_invoice. split; [done|]. intros []; simpl; try done. by destruct (vs_report s).
  - exists p_variation_invoice. split; [done|]. intros []; simpl; try done. by destruct (vs_report s).
Qed.

(** The list of voyages is an index of the calls and sheets: one summary per identifier that a
    call or a sheet names and no other, each made from the last call listed under it, from all of
    its sheets in their order and from the last saved record. *)
Theorem summarizeVoyages_index calls plans records :
  let l := summarizeVoyages calls plans records in
  NoDup (map vs_callId l) ∧
  (∀ k, k ∈ map vs_callId l ↔ (∃ c, c ∈ calls ∧ vc_id c = k) ∨ (∃ p, p ∈ plans ∧ plan_callId p = k)) ∧
  (∀ s, s ∈ l → s = summarizeVoyage (vs_callId s) (callOf (vs_callId s) calls)
     (plansOf (vs_callId s) plans) (last (filterb (λ r, streq (cr_callId r) (vs_callId s)) records))).
Proof.
  cbv zeta. unfold summarizeVoyages.
  assert (Hids : map vs_callId (map (λ '(callId, entry),
      summarizeVoyage callId (ve_call entry) (ve_plans entry) (mget callId (recordByCall records)))
      (byCall calls plans)) = (byCall calls plans).*1).
  { rewrite map_map. apply map_ext. by intros [k e]. }
  rewrite Hids. split; [apply byCall_NoDup|]. split.
  - intros k. transitivity (mget k (byCall calls plans) ≠ None).
    + rewrite list_elem_of_fmap. split.
      * intros ([k' e] & -> & He). apply elem_of_mget in He; [|apply byCall_NoDup]. simpl. congruence.
      * destruct (mget k (byCall calls plans)) as [e|] eqn:E; [|done]. intros _.
        exists (k, e). split; [done|]. by apply mget_Some_elem.
    + rewrite mget_byCall. unfold callOf, plansOf. split.
      * destruct (last _) as [c|] eqn:Ec.
        -- intros _. left. apply last_Some_elem_of, elem_of_filterb in Ec as [Hc Hk%streq_true]. eauto.
        -- destruct (filterb _ plans) as [|p ps] eqn:Ep; [done|]. intros _. right.
           assert (Hp : p ∈ filterb (λ p, streq (plan_callId p) k) plans) by (rewrite Ep; by left).
           apply elem_of_filterb in Hp as [Hp Hk%streq_true]. eauto.
      * intros [(c & Hc & <-)|(p & Hp & <-)].
        -- destruct (last _) eqn:Ec; [done|]. apply last_None in Ec.
           assert (Hx : c ∈ filterb (λ c0, streq (vc_id c0) (vc_id c)) calls) by (apply elem_of_filterb; by rewrite streq_refl).
           rewrite Ec in Hx. by apply not_elem_of_nil in Hx.
        -- destruct (last _); [done|].
           assert (Hx : p ∈ filterb (λ q, streq (plan_callId q) (plan_callId p)) plans) by (apply elem_of_filterb; by rewrite streq_refl).
           destruct (filterb _ plans); [by apply not_elem_of_nil in Hx|done].
  - intros s ([k e] & -> & He)%list_elem_of_fmap. apply elem_of_mget in He; [|apply byCall_NoDup].
    cbn [vs_callId summarizeVoyage]. unfold recordByCall. rewrite mget_foldl_last. rewrite mget_byCall in He.
    assert (Hr : match last (filterb (λ r, streq (cr_callId r) k) records) with Some a => Some a | None => mget k [] end
      = last (filterb (λ r, streq (cr_callId r) k) records)) by (by destruct (last _)).
    rewrite Hr. destruct (callOf k calls), (plansOf k plans); simplify_eq; done.
Qed.
End Voyage.

(** ** A voyage *)

#[local] Existing Instance asciiHost.

Definition sampleVesselCall : VesselCall :=
  mkVesselCall (js "call-0001") (js "MV Calabar") (js "VC-1") [] [] (numOfZ 900) (js "2026-07-01") [] [] None
    vc_in_progress [] None None 1 (js "2026-06-01").

Example declarationTotals_ex :
  declarationTotals [sampleCargo; sampleCargo] = js "2,000 t".
Proof. vm_compute. reflexivity. Qed.

Lemma stepper_follows_stage_witness : ∃ step,
  nextStepPath (summarizeVoyage (js "call-0001") (Some sampleVesselCall) [measuredPlan] None) false
    = voyagePath (js "call-0001") step ∧ step = p_readings.
Proof.
  destruct (stepper_follows_stage (js "call-0001") (Some sampleVesselCall) [measuredPlan] None) as (step & Hp & Hs);
    [by vm_compute|by vm_compute|].
  exists step. split; [exact Hp|]. symmetry. apply Hs. vm_compute. reflexivity.
Defined.
