(* ===== verification/ReadingsModel.v ===== *)
(** * The side-by-side readings report

    measurements/readingsModel.ts: one row per cargo line, one column per agency, every
    reading compared with the paid declaration.  The [Map] of cells and the list of
    options are threaded through the two loops the way the callback mutates them. *)
From S2P Require Import Prelude JsString Json Host MeasurementTypes Samples Helpers Comparison Cargo.

Definition AUTO_REASON : str := js "All agency readings match the declaration.".

Record AgencyColumn := mkColumn { col_key : str; col_name : str; col_role : str }.
Definition ROLE_ORDER : list str :=
  [js "agent"; js "terminal operator"; js "master"; js "surveyor"; js "tally clerk"].

Inductive CellState := cs_value | cs_na | cs_awaiting | cs_not_submitted | cs_not_reported.
#[export] Instance CellState_eq : EqDecision CellState. Proof. solve_decision. Defined.
Record ReadingCell := mkCell {
  cell_party : Participant; cell_state : CellState; cell_quantity : option str;
  cell_note : str; cell_submission : option Submission; cell_difference : option str }.
Record ReadingOption := mkOption { opt_quantity : str; opt_parties : list str }.
Record Spread := mkSpread { sp_min : str; sp_max : str; sp_range : str }.
Record ReadingRow := mkRow {
  row_key : str; row_plan : MeasurementPlan; row_line : CargoLine;
  row_cells : list (str * list ReadingCell); row_options : list ReadingOption;
  row_agree : bool; row_differs : bool; row_spread : option Spread }.

Definition rowKey (planId lineId : str) : str := stringify (JArr [JStr planId; JStr lineId]).

(** The order of two quantities; 0 also when one of them cannot be read. *)
Definition compare (left right : str) : Z :=
  match quantityDifference (Some left) (Some right) with
  | None => 0
  | Some difference =>
      if streq difference (js "0") then 0 else if startsWith (js "-") difference then -1 else 1
  end.

(** The reading a return gives for a line. *)
Definition entryFor (line : CargoLine) (submission : option Submission) : option SubmissionLine :=
  match submission with
  | Some s => findb (λ item, streq (sl_lineId item) (line_id line)) (sub_lines s)
  | None => None
  end.

(** [options.find(same)]: push the party's name there, else a new option. *)
Fixpoint addOption (quantity party : str) (options : list ReadingOption) : list ReadingOption :=
  match options with
  | [] => [mkOption quantity [party]]
  | o :: rest =>
      if compare (opt_quantity o) quantity =? 0
      then mkOption (opt_quantity o) (opt_parties o ++ [party]) :: rest
      else o :: addOption quantity party rest
  end.

(** One party's cell, and what it does to [options] and [complete]. *)
Definition readParty (plan : MeasurementPlan) (line : CargoLine) (returns : list (str * Submission))
    (party : Participant) (st : list ReadingOption * bool) : ReadingCell * (list ReadingOption * bool) :=
  let '(options, complete) := st in
  let cancelled := bool_decide (plan_status plan = plan_cancelled) in
  let submission := mget (party_id party) returns in
  match entryFor line submission with
  | None =>
      (mkCell party
         (match submission with
          | None => if party_requiredSubmission party && negb cancelled then cs_awaiting else cs_not_submitted
          | Some _ => cs_not_reported
          end) None [] submission None,
       (options, if party_requiredSubmission party then false else complete))
  | Some entry =>
      match sl_status entry with
      | not_applicable => (mkCell party cs_na None (sl_note entry) submission None, (options, complete))
      | reported =>
          let quantity := sl_quantity entry in
          (mkCell party cs_value quantity (sl_note entry) submission
             (quantityDifference quantity (manifestQuantity line)),
           (match quantity with Some q => addOption q (party_name party) options | None => options end,
            complete))
      end
  end.

Fixpoint readParties (plan : MeasurementPlan) (line : CargoLine) (returns : list (str * Submission))
    (parties : list Participant) (st : list ReadingOption * bool)
  : list ReadingCell * (list ReadingOption * bool) :=
  match parties with
  | [] => ([], st)
  | party :: rest =>
      let '(cell, st) := readParty plan line returns party st in
      let '(cells, st) := readParties plan line returns rest st in
      (cell :: cells, st)
  end.

Definition stripPlus (s : str) : str :=
  match s with c :: rest => if N.eqb c cPlus then rest else s | [] => [] end.
Definition spreadOf (options : list ReadingOption) : option Spread :=
  let sorted := sort_by (λ left right, compare (opt_quantity left) (opt_quantity right)) options in
  match head sorted, last sorted with
  | Some lo, Some hi =>
      Some (mkSpread (opt_quantity lo) (opt_quantity hi)
        (match quantityDifference (Some (opt_quantity hi)) (Some (opt_quantity lo)) with
         | Some d => stripPlus d | None => js "0" end))
  | _, _ => None
  end.
Definition byPopularity (left right : ReadingOption) : Z :=
  let n := Z.of_nat (length (opt_parties right)) - Z.of_nat (length (opt_parties left)) in
  if n =? 0 then compare (opt_quantity right) (opt_quantity left) else n.

Definition reportedCells (cells : list (str * list ReadingCell)) : list ReadingCell :=
  filterb (λ cell, bool_decide (cell_state cell = cs_value) && bool_decide (cell_quantity cell ≠ None))
    (concat cells.*2).
Definition cellDiffers (cell : ReadingCell) : bool :=
  match cell_difference cell with Some d => negb (streq d (js "0")) | None => false end.

Section Readings.
Context `{Host}.

Definition clean (value : str) : str := collapseWs false (trim value).
Definition normalized (value : str) : str := toLowerCase (normalizeNFKC (clean value)).
Definition agencyKey (party : Participant) : str :=
  stringify (JArr [JStr (normalized (party_name party)); JStr (normalized (party_role party))]).

Definition addColumn (columns : list (str * AgencyColumn)) (party : Participant) :=
  let key := agencyKey party in
  match mget key columns with
  | Some _ => columns
  | None => mset key (mkColumn key (clean (party_name party)) (clean (party_role party))) columns
  end.
Definition roleRank (role : str) : Z :=
  let index := findIndex (streq (normalized role)) ROLE_ORDER in
  if index =? -1 then Z.of_nat (length ROLE_ORDER) else index.
Definition byRoleThenName (left right : AgencyColumn) : Z :=
  let d := roleRank (col_role left) - roleRank (col_role right) in
  if d =? 0 then localeCompare (col_name left) (col_name right) else d.
Definition columnMap (plans : list MeasurementPlan) : list (str * AgencyColumn) :=
  foldl addColumn [] (flat_map plan_participants plans).
Definition agencyColumns (plans : list MeasurementPlan) : list AgencyColumn :=
  sort_by byRoleThenName (columnMap plans).*2.

Definition cargoHeading (line : CargoLine) : str :=
  if negb (streq (category line) (js "Container")) || isEmpty (containerSize line) then description line else
  let load := match loadStatus line with c :: rest => toUpperCase [c] ++ rest | [] => [] end in
  join (js " · ") (filterb truthy [containerSize line ++ js " ft"; load]).
Definition cargoContext (line : CargoLine) : str :=
  let cat :=
    if streq (category line) (js "Liquid") then js "Tanker / liquid"
    else if streq (category line) (js "Container") then js "Containers"
    else if streq (category line) (js "Bulk") then js "Dry bulk" else category line in
  cat ++ js " · " ++ toLowerCase (UNIT_LABELS (unit_ line)).

Definition partiesOf (plan : MeasurementPlan) (column : AgencyColumn) : list Participant :=
  filterb (λ party, streq (agencyKey party) (col_key column)) (plan_participants plan).
Definition readColumn (plan : MeasurementPlan) (line : CargoLine) (returns : list (str * Submission))
    (acc : list (str * list ReadingCell) * (list ReadingOption * bool)) (column : AgencyColumn) :=
  let '(cells, st) := acc in
  let '(col, st) := readParties plan line returns (partiesOf plan column) st in
  (mset (col_key column) col cells, st).

Definition readingRow (plan : MeasurementPlan) (returns : list (str * Submission))
    (columns : list AgencyColumn) (line : CargoLine) : ReadingRow :=
  let '(cells, (options, complete)) := foldl (readColumn plan line returns) ([], ([], true)) columns in
  let reported := reportedCells cells in
  let differs := existsb cellDiffers reported in
  {| row_key := rowKey (plan_id plan) (line_id line); row_plan := plan; row_line := line;
     row_cells := cells; row_differs := differs; row_spread := spreadOf options;
     row_options := sort_by byPopularity options;
     row_agree := complete && negb (Nat.eqb (length reported) 0) && negb differs
                  && bool_decide (manifestQuantity line ≠ None) |}.

Definition readingRows (plans : list MeasurementPlan) (columns : list AgencyColumn) : list ReadingRow :=
  flat_map (λ plan, map (readingRow plan (latestReturns plan) columns) (plan_lines plan)) plans.
End Readings.

(** ** Lemmas: comparing quantities *)

Lemma atScale_up P M d : places d <= M → M <= P → atScale P d = atScale M d * pow10 (Z.to_nat (P - M)).
Proof.
  intros H1 H2. unfold atScale. rewrite <- Z.mul_assoc, <- pow10_add. do 2 f_equal. lia.
Qed.

Lemma compare_spec l r a b P : decimal (Some l) = Some a → decimal (Some r) = Some b →
  places a <= P → places b <= P → compare l r = Z.sgn (atScale P a - atScale P b).
Proof.
  intros Hl Hr HaP HbP. destruct (decimal_nonneg _ _ Hl) as [Da Pa], (decimal_nonneg _ _ Hr) as [Db Pb].
  unfold compare, quantityDifference. rewrite Hl, Hr. set (M := Z.max (places a) (places b)).
  fold (atScale M a). fold (atScale M b).
  rewrite (atScale_up P M a), (atScale_up P M b) by lia.
  rewrite <- Z.mul_sub_distr_r, Z.sgn_mul, (Z.sgn_pos (pow10 _)) by apply pow10_pos. rewrite Z.mul_1_r.
  set (D := atScale M a - atScale M b). assert (0 <= M) by lia. destruct (Z.ltb_spec 0 D).
  - rewrite Z.sgn_pos by done.
    destruct (decimalText_head D M ltac:(lia) ltac:(lia)) as (c & t & Ht & _). by rewrite Ht.
  - destruct (Z.eq_dec D 0) as [->|].
    + simpl app. by rewrite (proj2 (decimalText_0 0 M ltac:(lia) ltac:(lia)) eq_refl), streq_refl.
    + simpl app. rewrite decimalText_neg by lia. by rewrite Z.sgn_neg by lia.
Qed.

(** A list of readable quantities has one scale for all. *)
Lemma common_scale (qs : list str) : (∀ q, q ∈ qs → decimal (Some q) ≠ None) →
  ∃ f : str → Z, ∀ q r, q ∈ qs → r ∈ qs → compare q r = Z.sgn (f q - f r).
Proof.
  intros Hq. assert (∃ P, ∀ q d, q ∈ qs → decimal (Some q) = Some d → places d <= P) as [P HP].
  { clear Hq. induction qs as [|q qs [P IH]]; [exists 0; intros ? ? []%elem_of_nil|].
    destruct (decimal (Some q)) as [d|] eqn:E.
    - exists (Z.max (places d) P). intros q' d' [->|Hin]%elem_of_cons Hd; [simplify_eq; lia|].
      specialize (IH _ _ Hin Hd). lia.
    - exists P. intros q' d' [->|Hin]%elem_of_cons Hd; [congruence|eauto]. }
  exists (λ q, match decimal (Some q) with Some d => atScale P d | None => 0 end).
  intros q r Hin1 Hin2. pose proof (Hq _ Hin1) as H1. pose proof (Hq _ Hin2) as H2.
  destruct (decimal (Some q)) as [a|] eqn:Ea; [|done].
  destruct (decimal (Some r)) as [b|] eqn:Eb; [|done].
  apply compare_spec; eauto.
Qed.

(** ** Lemmas: what a row is made of *)

(** The party's reported quantity for a line, with its name. *)
Definition reportedBy (line : CargoLine) (returns : list (str * Submission)) (party : Participant)
  : option (str * str) :=
  match entryFor line (mget (party_id party) returns) with
  | Some entry =>
      match sl_status entry with
      | reported => (λ q, (q, party_name party)) <$> sl_quantity entry
      | not_applicable => None
      end
  | None => None
  end.
Definition hasReading (line : CargoLine) (returns : list (str * Submission)) (party : Participant) : bool :=
  negb (party_requiredSubmission party)
  || match entryFor line (mget (party_id party) returns) with Some _ => true | None => false end.
Definition cellOf (plan : MeasurementPlan) (line : CargoLine) (returns : list (str * Submission))
    (party : Participant) : ReadingCell := (readParty plan line returns party ([], true)).1.
Definition groupReadings (options : list ReadingOption) (readings : list (str * str)) : list ReadingOption :=
  foldl (λ o r, addOption r.1 r.2 o) options readings.

Lemma readParties_spec plan line returns ps o c :
  readParties plan line returns ps (o, c)
  = (map (cellOf plan line returns) ps,
     (groupReadings o (omap (reportedBy line returns) ps), c && forallb (hasReading line returns) ps)).
Proof.
  revert o c. induction ps as [|p ps IH]; intros o c; simpl; [by rewrite andb_true_r|].
  unfold cellOf, reportedBy, hasReading. unfold readParty.
  destruct (entryFor line (mget (party_id p) returns)) as [e|] eqn:E.
  - destruct (sl_status e), (sl_quantity e); rewrite IH; cbn; rewrite ?orb_true_r; done.
  - rewrite IH. destruct (party_requiredSubmission p), c; done.
Qed.

Section RowLemmas.
Context `{Host}.

Definition columnParties (plan : MeasurementPlan) (columns : list AgencyColumn) : list Participant :=
  flat_map (partiesOf plan) columns.

Lemma readColumns_spec plan line returns columns cells o c :
  NoDup (cells.*1 ++ map col_key columns) →
  foldl (readColumn plan line returns) (cells, (o, c)) columns
  = (cells ++ map (λ col, (col_key col, map (cellOf plan line returns) (partiesOf plan col))) columns,
     (groupReadings o (omap (reportedBy line returns) (columnParties plan columns)),
      c && forallb (hasReading line returns) (columnParties plan columns))).
Proof.
  revert cells o c. induction columns as [|col columns IH]; intros cells o c Hnd; simpl.
  - by rewrite app_nil_r, andb_true_r.
  - rewrite readParties_spec. rewrite mset_fresh.
    + rewrite IH.
      * rewrite <- app_assoc. cbn. rewrite omap_app. unfold groupReadings. rewrite foldl_app.
        rewrite forallb_app, andb_assoc. done.
      * rewrite fmap_app. cbn. rewrite <- app_assoc. done.
    + intros Hin. simpl in Hnd. apply NoDup_app in Hnd as (_ & Hd & _). apply (Hd _ Hin). by left.
Qed.

(** The agencies' columns: distinct keys, and every party has its column. *)
Lemma addColumn_inv m party :
  (NoDup m.*1 ∧ ∀ k col, (k, col) ∈ m → col_key col = k) →
  NoDup (addColumn m party).*1 ∧ (∀ k col, (k, col) ∈ addColumn m party → col_key col = k).
Proof.
  intros [Hn Hk]. unfold addColumn. destruct (mget (agencyKey party) m) eqn:E; [done|].
  split; [by apply mset_NoDup|]. intros k col Hin.
  apply elem_of_mget in Hin; [|by apply mset_NoDup].
  destruct (decide (agencyKey party = k)) as [<-|Hne].
  - rewrite mget_mset_eq in Hin. by simplify_eq.
  - rewrite mget_mset_ne in Hin by done. apply Hk. by apply elem_of_mget.
Qed.

Lemma addColumn_key m party k : k ∈ (addColumn m party).*1 ↔ k ∈ m.*1 ∨ k = agencyKey party.
Proof.
  unfold addColumn. destruct (mget (agencyKey party) m) as [col|] eqn:E.
  - apply mget_Some_elem in E. apply (list_elem_of_fmap_2 fst) in E. naive_solver.
  - rewrite mset_keys. case_decide; [naive_solver|]. rewrite elem_of_app, list_elem_of_singleton. done.
Qed.

Lemma columnMap_spec plans :
  (NoDup (columnMap plans).*1 ∧ ∀ k col, (k, col) ∈ columnMap plans → col_key col = k)
  ∧ ∀ k, k ∈ (columnMap plans).*1 ↔ k ∈ map agencyKey (flat_map plan_participants plans).
Proof.
  unfold columnMap. induction (flat_map plan_participants plans) as [|p l IH] using rev_ind.
  - split; [split; [constructor|intros ? ? []%elem_of_nil]|done].
  - rewrite foldl_app. destruct IH as [IH1 IH2]. split; [by apply addColumn_inv|].
    intros k. simpl. rewrite addColumn_key, IH2, map_app, elem_of_app. simpl.
    by rewrite list_elem_of_singleton.
Qed.

Lemma columnMap_keys plans : map col_key (columnMap plans).*2 = (columnMap plans).*1.
Proof.
  destruct (columnMap_spec plans) as [[_ Hk] _]. induction (columnMap plans) as [|[k col] m IH]; [done|].
  csimpl. rewrite (Hk k col) by apply list_elem_of_here. f_equal. apply IH. intros k' c' Hin. apply Hk.
  by apply list_elem_of_further.
Qed.

Lemma agencyColumns_NoDup plans : NoDup (map col_key (agencyColumns plans)).
Proof.
  unfold agencyColumns. rewrite sort_by_perm, columnMap_keys. apply columnMap_spec.
Qed.

Lemma agencyColumns_cover plans plan party : plan ∈ plans → party ∈ plan_participants plan →
  agencyKey party ∈ map col_key (agencyColumns plans).
Proof.
  intros Hplan Hparty. unfold agencyColumns. rewrite sort_by_perm, columnMap_keys.
  apply columnMap_spec. apply list_elem_of_fmap. exists party. split; [done|].
  apply list_elem_of_In, in_flat_map. exists plan. split; by apply list_elem_of_In.
Qed.

(** Splitting the participants by column only reorders them. *)
Lemma split_by_key {A} (key : A → str) (ks : list str) (l : list A) :
  NoDup ks → (∀ x, x ∈ l → key x ∈ ks) → flat_map (λ k, filterb (λ x, streq (key x) k) l) ks ≡ₚ l.
Proof.
  intros Hnd. induction l as [|x l IH]; intros Hcov.
  - clear. by induction ks.
  - etransitivity; [|constructor; apply IH; intros y Hy; apply Hcov; by apply list_elem_of_further].
    assert (Hx : key x ∈ ks) by (apply Hcov; apply list_elem_of_here). clear Hcov IH.
    induction Hnd as [|k ks Hk Hnd IH]; [by apply elem_of_nil in Hx|]. cbn.
    destruct (decide (key x = k)) as [<-|Hne].
    + rewrite streq_refl. cbn. constructor. apply Permutation_app_head.
      clear -Hk. induction ks as [|k ks IH]; [done|]. apply not_elem_of_cons in Hk as [Hn Hk]. cbn.
      rewrite (proj2 (streq_false _ _) Hn). by rewrite IH.
    + rewrite (proj2 (streq_false _ _) Hne). apply elem_of_cons in Hx as [?|Hx]; [done|].
      rewrite IH by done. by rewrite Permutation_middle.
Qed.

Lemma columnParties_perm plans plan : plan ∈ plans →
  columnParties plan (agencyColumns plans) ≡ₚ plan_participants plan.
Proof.
  intros Hplan. unfold columnParties, partiesOf.
  etransitivity; [|apply (split_by_key agencyKey (map col_key (agencyColumns plans)) (plan_participants plan))].
  - induction (agencyColumns plans) as [|c l IH]; [done|]. cbn. by rewrite IH.
  - apply agencyColumns_NoDup.
  - intros x Hx. by apply (agencyColumns_cover plans plan).
Qed.

(** The reported readings of a row, in the order the loops meet them. *)
Definition readingsOf (plan : MeasurementPlan) (line : CargoLine) (parties : list Participant) :=
  omap (reportedBy line (latestReturns plan)) parties.

Lemma readingRow_cells plan columns line : NoDup (map col_key columns) →
  row_cells (readingRow plan (latestReturns plan) columns line)
  = map (λ col, (col_key col, map (cellOf plan line (latestReturns plan)) (partiesOf plan col))) columns.
Proof. intros Hn. unfold readingRow. by rewrite (readColumns_spec _ _ _ _ [] [] true) by done. Qed.

Lemma reportedCells_spec plan line columns :
  reportedCells (map (λ col, (col_key col, map (cellOf plan line (latestReturns plan)) (partiesOf plan col))) columns)
  = filterb (λ c, bool_decide (cell_state c = cs_value) && bool_decide (cell_quantity c ≠ None))
      (map (cellOf plan line (latestReturns plan)) (columnParties plan columns)).
Proof.
  unfold reportedCells. f_equal. unfold columnParties.
  induction columns as [|c l IH]; [done|]. cbn. by rewrite map_app, <- IH.
Qed.

Lemma reported_cell plan line party q n : reportedBy line (latestReturns plan) party = Some (q, n) →
  cell_state (cellOf plan line (latestReturns plan) party) = cs_value
  ∧ cell_quantity (cellOf plan line (latestReturns plan) party) = Some q
  ∧ cell_difference (cellOf plan line (latestReturns plan) party)
    = quantityDifference (Some q) (manifestQuantity line).
Proof.
  unfold reportedBy, cellOf, readParty. destruct (entryFor _ _) as [e|]; [|done].
  destruct (sl_status e); [|done]. destruct (sl_quantity e); simpl; naive_solver.
Qed.

Lemma cell_reported plan line party :
  cell_state (cellOf plan line (latestReturns plan) party) = cs_value →
  cell_quantity (cellOf plan line (latestReturns plan) party) ≠ None →
  ∃ q, reportedBy line (latestReturns plan) party = Some (q, party_name party).
Proof.
  unfold reportedBy, cellOf, readParty.
  destruct (entryFor _ _) as [e|]; [|simpl; by repeat case_match].
  destruct (sl_status e); [|done]. destruct (sl_quantity e); simpl; naive_solver.
Qed.

Lemma elem_reportedCells plan line parties c :
  c ∈ filterb (λ c, bool_decide (cell_state c = cs_value) && bool_decide (cell_quantity c ≠ None))
    (map (cellOf plan line (latestReturns plan)) parties) ↔
  ∃ party q, party ∈ parties ∧ reportedBy line (latestReturns plan) party = Some (q, party_name party)
    ∧ c = cellOf plan line (latestReturns plan) party.
Proof.
  rewrite elem_of_filterb, andb_true_iff, !bool_decide_eq_true. split.
  - intros [(party & -> & Hin)%list_elem_of_fmap [Hs Hq]].
    destruct (cell_reported _ _ _ Hs Hq) as [q Hr]. by exists party, q.
  - intros (party & q & Hin & Hr & ->). destruct (reported_cell _ _ _ _ _ Hr) as (Hs & Hq & _).
    split; [apply list_elem_of_fmap; by exists party|]. split; [done|by rewrite Hq].
Qed.
End RowLemmas.

Lemma difference_tallies q m :
  match quantityDifference (Some q) m with Some d => negb (streq d (js "0")) | None => false end = false
  ↔ ∀ a b, decimal (Some q) = Some a → decimal m = Some b → sameQuantity a b.
Proof.
  destruct (decimal (Some q)) as [a|] eqn:Ea;
    [|unfold quantityDifference; rewrite Ea; split; [congruence|done]].
  destruct m as [m|]; [|unfold quantityDifference; rewrite Ea; split; [discriminate|done]].
  destruct (decimal (Some m)) as [b|] eqn:Eb;
    [|unfold quantityDifference; rewrite Ea, Eb; split; [congruence|done]].
  pose proof (compare_spec q m a b (Z.max (places a) (places b)) Ea Eb ltac:(lia) ltac:(lia)) as Hc.
  revert Hc. unfold compare, quantityDifference, sameQuantity. rewrite Ea, Eb.
  rewrite negb_false_iff. intros Hc. split.
  - intros Hs a' b' ? ?. simplify_eq. rewrite Hs in Hc. lia.
  - intros Hs. specialize (Hs a b eq_refl eq_refl). rewrite Hs, Z.sub_diag in Hc.
    destruct (streq _ _); [done|]. by destruct (startsWith _ _).
Qed.

Lemma hasReading_true line returns party :
  hasReading line returns party = true ↔
  (party_requiredSubmission party = true →
   ∃ s entry, mget (party_id party) returns = Some s ∧ entryFor line (Some s) = Some entry).
Proof.
  unfold hasReading. destruct (party_requiredSubmission party); [cbn [negb orb]|by split].
  destruct (mget (party_id party) returns) as [s|].
  - destruct (entryFor line (Some s)) as [e|] eqn:E; [split; [by exists s, e|done]|].
    split; [done|]. intros (s' & e & [= <-] & He); [done|congruence].
  - split; [done|]. by intros (s' & e & [=] & He).
Qed.
Lemma required_iff line returns ps :
  forallb (hasReading line returns) ps = true ↔
  ∀ party, party ∈ ps → party_requiredSubmission party = true →
    ∃ s entry, mget (party_id party) returns = Some s ∧ entryFor line (Some s) = Some entry.
Proof. rewrite forallb_true. split; intros Hall party Hin; by apply hasReading_true, Hall. Qed.

Definition valueCell (c : ReadingCell) : bool :=
  bool_decide (cell_state c = cs_value) && bool_decide (cell_quantity c ≠ None).

Lemma some_reported_iff plan line ps :
  negb (Nat.eqb (length (filterb valueCell (map (cellOf plan line (latestReturns plan)) ps))) 0) = true ↔
  ∃ party r, party ∈ ps ∧ reportedBy line (latestReturns plan) party = Some r.
Proof.
  rewrite negb_true_iff, Nat.eqb_neq. split.
  - intros Hlen. destruct (filterb _ _) as [|c l] eqn:E; [done|].
    assert (Hc : c ∈ filterb valueCell (map (cellOf plan line (latestReturns plan)) ps))
      by (rewrite E; apply list_elem_of_here).
    apply elem_reportedCells in Hc as (party & q & Hin & Hr & _). eauto.
  - intros (party & [q n] & Hin & Hr) Hlen. apply length_zero_iff_nil in Hlen.
    destruct (reported_cell _ _ _ _ _ Hr) as (Hs & Hq & _).
    assert (Hc : cellOf plan line (latestReturns plan) party ∈ filterb valueCell
      (map (cellOf plan line (latestReturns plan)) ps)).
    { apply elem_of_filterb. split; [apply list_elem_of_fmap; eauto|].
      unfold valueCell. rewrite Hs, Hq. done. }
    rewrite Hlen in Hc. by apply elem_of_nil in Hc.
Qed.

Lemma none_differs_iff plan line ps :
  existsb cellDiffers (filterb valueCell (map (cellOf plan line (latestReturns plan)) ps)) = false ↔
  ∀ party q n a b, party ∈ ps → reportedBy line (latestReturns plan) party = Some (q, n) →
    decimal (Some q) = Some a → decimal (manifestQuantity line) = Some b → sameQuantity a b.
Proof.
  rewrite existsb_false. split.
  - intros Hall party q n a b Hin Hr. destruct (reported_cell _ _ _ _ _ Hr) as (Hs & Hq & Hd).
    apply difference_tallies. rewrite <- Hd. apply Hall. apply elem_of_filterb.
    split; [apply list_elem_of_fmap; eauto|]. unfold valueCell. by rewrite Hs, Hq.
  - intros Hall c (party & q & Hin & Hr & ->)%elem_reportedCells.
    destruct (reported_cell _ _ _ _ _ Hr) as (_ & _ & Hd). unfold cellDiffers. rewrite Hd.
    apply difference_tallies. eauto.
Qed.

(** ** What a row says *)

(** A row is marked as agreed exactly when every agency that must report has a current
    return with an entry for the line, at least one agency reported a quantity, every
    readable quantity equals the declared one, and there is a declared quantity: no
    participant escapes the columns of the report. *)
Theorem row_agree_iff `{Host} (plans : list MeasurementPlan) (plan : MeasurementPlan) (line : CargoLine)
    (Hplan : plan ∈ plans) :
  row_agree (readingRow plan (latestReturns plan) (agencyColumns plans) line) = true ↔
  (∀ party, party ∈ plan_participants plan → party_requiredSubmission party = true →
     ∃ s entry, mget (party_id party) (latestReturns plan) = Some s ∧ entryFor line (Some s) = Some entry) ∧
  (∃ party r, party ∈ plan_participants plan ∧ reportedBy line (latestReturns plan) party = Some r) ∧
  (∀ party q n a b, party ∈ plan_participants plan →
     reportedBy line (latestReturns plan) party = Some (q, n) →
     decimal (Some q) = Some a → decimal (manifestQuantity line) = Some b → sameQuantity a b) ∧
  manifestQuantity line ≠ None.
Proof.
  pose proof (columnParties_perm plans plan Hplan) as Hperm. unfold readingRow.
  rewrite (readColumns_spec _ _ _ _ [] [] true) by apply agencyColumns_NoDup.
  cbn [app andb row_agree]. rewrite reportedCells_spec. fold valueCell.
  rewrite !andb_true_iff, (negb_true_iff (existsb _ _)).
  rewrite required_iff, some_reported_iff, none_differs_iff, bool_decide_eq_true.
  assert (Hin : ∀ x, x ∈ columnParties plan (agencyColumns plans) ↔ x ∈ plan_participants plan)
    by (intros x; by rewrite Hperm).
  naive_solver.
Qed.
Lemma row_agree_iff_witness :
  row_agree (readingRow (H := asciiHost) measuredPlan (latestReturns measuredPlan)
    (agencyColumns (H := asciiHost) [measuredPlan]) sampleCargo) = false
  ∧ ∃ a b, decimal (Some (js "1012.4")) = Some a ∧ decimal (Some (js "1000")) = Some b ∧ ¬ sameQuantity a b.
Proof.
  split.
  - apply not_true_is_false. intros (_ & _ & Hall & _)%(row_agree_iff (H := asciiHost) [measuredPlan]).
    + specialize (Hall sampleParty (js "1012.4") (js "Customs") (mkDecimal 10124 1) (mkDecimal 1000 0)
        ltac:(apply list_elem_of_here) eq_refl eq_refl eq_refl). vm_compute in Hall. discriminate.
    + apply list_elem_of_here.
  - exists (mkDecimal 10124 1), (mkDecimal 1000 0). repeat split. intros Hs. vm_compute in Hs. discriminate.
Defined.

(** ** The options: reported readings grouped by quantity *)

Section Grouping.
Context (f : str → Z) (qs : list str).
Hypothesis compare_f : ∀ q r, q ∈ qs → r ∈ qs → compare q r = Z.sgn (f q - f r).

(** Every (amount, party) pair the options record. *)
Definition pairsOf (options : list ReadingOption) : list (Z * str) :=
  flat_map (λ o, map (pair (f (opt_quantity o))) (opt_parties o)) options.
Definition amounts (options : list ReadingOption) : list Z := map (λ o, f (opt_quantity o)) options.
Definition inScale (options : list ReadingOption) : Prop := ∀ o, o ∈ options → opt_quantity o ∈ qs.

Lemma addOption_spec q n options : q ∈ qs → inScale options → NoDup (amounts options) →
  pairsOf (addOption q n options) ≡ₚ (f q, n) :: pairsOf options
  ∧ inScale (addOption q n options) ∧ NoDup (amounts (addOption q n options))
  ∧ (∀ z, z ∈ amounts (addOption q n options) → z = f q ∨ z ∈ amounts options).
Proof.
  intros Hq. induction options as [|o os IH]; intros Hsc Hnd.
  - split_and!; [done|by intros o ->%list_elem_of_singleton|apply NoDup_singleton|].
    intros z ->%list_elem_of_singleton. by left.
  - assert (Ho : opt_quantity o ∈ qs) by (apply Hsc, list_elem_of_here).
    assert (Hsc' : inScale os) by (intros x Hx; by apply Hsc, list_elem_of_further).
    simpl in Hnd. apply NoDup_cons in Hnd as [Hno Hnd]. simpl. rewrite (compare_f _ _ Ho Hq).
    destruct (Z.eqb_spec (Z.sgn (f (opt_quantity o) - f q)) 0) as [He|Hne].
    + assert (Hf : f (opt_quantity o) = f q) by lia. split_and!.
      * cbn. rewrite map_app. cbn. rewrite <- app_assoc. cbn. rewrite Hf. by rewrite <- Permutation_middle.
      * intros x [->|Hx]%elem_of_cons; [done|by apply Hsc'].
      * cbn. by apply NoDup_cons.
      * intros z Hz. by right.
    + destruct (IH Hsc' Hnd) as (IH1 & IH2 & IH3 & IH4). split_and!.
      * cbn. rewrite IH1. by rewrite <- Permutation_middle.
      * intros x [->|Hx]%elem_of_cons; [done|by apply IH2].
      * cbn. apply NoDup_cons. split; [|done]. intros [Hf|Hin]%IH4; [lia|done].
      * intros z [->|Hz]%elem_of_cons; [right; apply list_elem_of_here|].
        apply IH4 in Hz as [?|?]; [by left|right; by apply list_elem_of_further].
Qed.

Lemma groupReadings_spec readings options : (∀ r, r ∈ readings → r.1 ∈ qs) → inScale options →
  NoDup (amounts options) →
  pairsOf (groupReadings options readings) ≡ₚ pairsOf options ++ map (λ r, (f r.1, r.2)) readings
  ∧ inScale (groupReadings options readings) ∧ NoDup (amounts (groupReadings options readings)).
Proof.
  revert options. induction readings as [|[q n] rs IH]; intros options Hq Hsc Hnd.
  - simpl. by rewrite app_nil_r.
  - destruct (addOption_spec q n options) as (P1 & P2 & P3 & _); try done.
    { by apply (Hq (q, n)), list_elem_of_here. }
    destruct (IH (addOption q n options)) as (IH1 & IH2 & IH3); try done.
    { intros r Hr. by apply Hq, list_elem_of_further. }
    unfold groupReadings in *. cbn. split_and!; try done. rewrite IH1, P1. cbn.
    by rewrite Permutation_middle.
Qed.

Lemma addOption_nonempty q n os o : o ∈ addOption q n os → (∀ o, o ∈ os → opt_parties o ≠ []) →
  opt_parties o ≠ [].
Proof.
  induction os as [|x os IH]; simpl; intros Hin Hall.
  - apply list_elem_of_singleton in Hin as ->. done.
  - destruct (compare _ _ =? 0).
    + apply elem_of_cons in Hin as [->|Hin]; [by destruct (opt_parties x)|].
      by apply Hall, list_elem_of_further.
    + apply elem_of_cons in Hin as [->|Hin]; [apply Hall, list_elem_of_here|].
      apply IH; [done|]. intros y Hy. by apply Hall, list_elem_of_further.
Qed.

Lemma groupReadings_nonempty readings os : (∀ o, o ∈ os → opt_parties o ≠ []) →
  ∀ o, o ∈ groupReadings os readings → opt_parties o ≠ [].
Proof.
  revert os. induction readings as [|r rs IH]; intros os Hall o Hin; [by apply Hall|].
  apply (IH (addOption r.1 r.2 os)); [|done]. intros x Hx. by eapply addOption_nonempty.
Qed.

Lemma elem_pairsOf os z n : (z, n) ∈ pairsOf os ↔ ∃ o, o ∈ os ∧ f (opt_quantity o) = z ∧ n ∈ opt_parties o.
Proof.
  unfold pairsOf. rewrite list_elem_of_In, in_flat_map. split.
  - intros (o & Ho & (m & Hm & Hin)%in_map_iff). simplify_eq. exists o.
    by rewrite !list_elem_of_In.
  - intros (o & Ho & <- & Hn). exists o. rewrite <- list_elem_of_In. split; [done|].
    apply in_map_iff. exists n. by rewrite <- list_elem_of_In.
Qed.
End Grouping.

(** Sorting by a comparator that is a key's order on the list at hand. *)
Lemma sort_insert_key {A} (cmp : A → A → Z) (g : A → Z) x l :
  (∀ y, y ∈ l → cmp x y = Z.sgn (g x - g y)) →
  StronglySorted (λ a b, g a <= g b) l → StronglySorted (λ a b, g a <= g b) (sort_insert cmp x l).
Proof.
  intros Hc. induction 1 as [|y l Hs IH Hall]; simpl; [repeat constructor|].
  rewrite (Hc y) by apply list_elem_of_here. destruct (Z.leb_spec (Z.sgn (g x - g y)) 0).
  - constructor; [by constructor|]. rewrite Forall_forall in Hall |- *.
    intros z [->|Hz]%elem_of_cons; [lia|]. specialize (Hall z Hz). simpl in Hall. lia.
  - constructor.
    + apply IH. intros z Hz. by apply Hc, list_elem_of_further.
    + rewrite Forall_forall in Hall |- *. intros z. rewrite sort_insert_perm.
      intros [->|Hz]%elem_of_cons; [lia|by apply Hall].
Qed.

Lemma sort_by_key {A} (cmp : A → A → Z) (g : A → Z) l :
  (∀ x y, x ∈ l → y ∈ l → cmp x y = Z.sgn (g x - g y)) →
  StronglySorted (λ a b, g a <= g b) (sort_by cmp l).
Proof.
  induction l as [|x l IH]; intros Hc; [constructor|]. simpl. apply sort_insert_key.
  - intros y Hy. rewrite elem_of_sort_by in Hy.
    apply Hc; [apply list_elem_of_here|by apply list_elem_of_further].
  - apply IH. intros y z Hy Hz. by apply Hc; apply list_elem_of_further.
Qed.

Lemma sorted_bounds {A} (g : A → Z) l : StronglySorted (λ a b, g a <= g b) l → l ≠ [] →
  ∃ lo hi, head l = Some lo ∧ last l = Some hi ∧ ∀ x, x ∈ l → g lo <= g x <= g hi.
Proof.
  induction 1 as [|y l Hs IH Hall]; [done|]. intros _. rewrite Forall_forall in Hall.
  destruct l as [|z l].
  - exists y, y. split_and!; try done. intros x ->%list_elem_of_singleton. lia.
  - destruct IH as (lo & hi & Hlo & Hhi & Hb); [done|]. exists y, hi. split_and!; [done|done|].
    pose proof (Hall lo) as Hl. injection Hlo as ->. specialize (Hl ltac:(apply list_elem_of_here)).
    simpl in Hl. specialize (Hb lo ltac:(apply list_elem_of_here)) as Hb0.
    intros x [->|Hx]%elem_of_cons; [lia|]. specialize (Hb x Hx). lia.
Qed.

Lemma spreadOf_spec (f : str → Z) qs options :
  (∀ q r, q ∈ qs → r ∈ qs → compare q r = Z.sgn (f q - f r)) → inScale qs options →
  match spreadOf options with
  | None => options = []
  | Some sp => sp_min sp ∈ qs ∧ sp_max sp ∈ qs ∧
      ∀ o, o ∈ options → f (sp_min sp) <= f (opt_quantity o) <= f (sp_max sp)
  end.
Proof.
  intros Hc Hsc. unfold spreadOf. set (l := sort_by _ options).
  assert (Hs : StronglySorted (λ a b, f (opt_quantity a) <= f (opt_quantity b)) l).
  { apply (sort_by_key _ (λ o, f (opt_quantity o))). intros x y Hx Hy. apply Hc; by apply Hsc. }
  assert (Hl : ∀ o, o ∈ l ↔ o ∈ options) by (intros o; apply elem_of_sort_by).
  destruct (decide (l = [])) as [Hnil|Hne].
  - rewrite Hnil. simpl. unfold l in Hnil. apply (f_equal length) in Hnil.
    rewrite length_sort_by in Hnil. by apply length_zero_iff_nil in Hnil.
  - destruct (sorted_bounds _ _ Hs Hne) as (lo & hi & Hlo & Hhi & Hb). rewrite Hlo, Hhi. simpl.
    split_and!.
    + apply Hsc, Hl. destruct l; [done|]. injection Hlo as ->. apply list_elem_of_here.
    + apply Hsc, Hl. by apply last_Some_elem_of.
    + intros o Ho. by apply Hb, Hl.
Qed.

Lemma readingRow_options `{Host} plan line columns : NoDup (map col_key columns) →
  let G := groupReadings [] (omap (reportedBy line (latestReturns plan)) (columnParties plan columns)) in
  row_options (readingRow plan (latestReturns plan) columns line) = sort_by byPopularity G
  ∧ row_spread (readingRow plan (latestReturns plan) columns line) = spreadOf G.
Proof. intros Hn. unfold readingRow. by rewrite (readColumns_spec _ _ _ _ [] [] true) by done. Qed.

Lemma distinct_amounts (f : str → Z) qs options l :
  (∀ q r, q ∈ qs → r ∈ qs → compare q r = Z.sgn (f q - f r)) → inScale qs options →
  NoDup (amounts f options) → l ≡ₚ options → ∀ i j o1 o2, l !! i = Some o1 → l !! j = Some o2 → i ≠ j →
  compare (opt_quantity o1) (opt_quantity o2) ≠ 0.
Proof.
  intros Hc Hsc Hnd Hp i j o1 o2 H1 H2 Hij.
  assert (Hnd' : NoDup (amounts f l)) by (unfold amounts; by rewrite Hp).
  rewrite Hc by (apply Hsc; rewrite <- Hp; by eapply list_elem_of_lookup_2).
  intros Hz. apply Hij, (NoDup_lookup (amounts f l) i j (f (opt_quantity o1))); [done|..];
    unfold amounts; rewrite list_lookup_fmap; [by rewrite H1|rewrite H2; simpl; f_equal; lia].
Qed.

Lemma pairsOf_names f options : map snd (pairsOf f options) = flat_map opt_parties options.
Proof.
  induction options as [|o os IH]; [done|]. cbn. rewrite map_app, <- IH. f_equal.
  rewrite map_map. apply map_id.
Qed.

(** The options of a row group the readings by exact quantity: no two options denote
    the same quantity, the parties of the options are exactly the parties that reported,
    each under an option equal to its reading, and the printed minimum and maximum are
    reported quantities that bound every reading. *)
Theorem row_options_partition `{Host} (plans : list MeasurementPlan) (plan : MeasurementPlan)
    (line : CargoLine) (Hplan : plan ∈ plans)
    (Hreadable : ∀ party q n, party ∈ plan_participants plan →
       reportedBy line (latestReturns plan) party = Some (q, n) → decimal (Some q) ≠ None) :
  let row := readingRow plan (latestReturns plan) (agencyColumns plans) line in
  let readings := omap (reportedBy line (latestReturns plan)) (plan_participants plan) in
  (∀ i j o1 o2, row_options row !! i = Some o1 → row_options row !! j = Some o2 → i ≠ j →
     compare (opt_quantity o1) (opt_quantity o2) ≠ 0) ∧
  flat_map opt_parties (row_options row) ≡ₚ map snd readings ∧
  (∀ q n, (q, n) ∈ readings →
     ∃ o, o ∈ row_options row ∧ compare (opt_quantity o) q = 0 ∧ n ∈ opt_parties o) ∧
  match row_spread row with
  | None => readings = []
  | Some sp => sp_min sp ∈ map fst readings ∧ sp_max sp ∈ map fst readings ∧
      ∀ q n, (q, n) ∈ readings → compare (sp_min sp) q <= 0 ∧ compare q (sp_max sp) <= 0
  end.
Proof.
  cbv zeta. pose proof (columnParties_perm plans plan Hplan) as Hperm.
  destruct (readingRow_options plan line _ (agencyColumns_NoDup plans)) as [-> ->].
  set (rs := omap _ (columnParties _ _)). set (G := groupReadings [] rs).
  assert (Hrs : rs ≡ₚ omap (reportedBy line (latestReturns plan)) (plan_participants plan))
    by (unfold rs; by rewrite Hperm).
  assert (Hin : ∀ q n, (q, n) ∈ omap (reportedBy line (latestReturns plan)) (plan_participants plan)
    ↔ (q, n) ∈ rs) by (intros; by rewrite Hrs).
  destruct (common_scale (map fst rs)) as [f Hf].
  { intros q ([q' n] & -> & (party & Hp & Hr)%list_elem_of_omap)%list_elem_of_fmap.
    rewrite Hperm in Hp. by eapply Hreadable. }
  destruct (groupReadings_spec f (map fst rs) Hf rs []) as (Gp & Gs & Gn).
  { intros r Hr. apply list_elem_of_fmap. eauto. } { by intros o ?%elem_of_nil. } { constructor. }
  fold G in Gp, Gs, Gn. change (pairsOf f [] ++ ?l) with l in Gp.
  assert (Hopt : ∀ q n, (q, n) ∈ rs → ∃ o, o ∈ G ∧ f (opt_quantity o) = f q ∧ n ∈ opt_parties o).
  { intros q n Hq. apply elem_pairsOf. rewrite Gp. apply list_elem_of_fmap. by exists (q, n). }
  assert (Hfst : ∀ q n, (q, n) ∈ rs → q ∈ map fst rs)
    by (intros q n Hq; apply list_elem_of_fmap; by exists (q, n)).
  split_and!.
  - apply (distinct_amounts f (map fst rs) G); try done. apply sort_by_perm.
  - rewrite sort_by_perm, <- (pairsOf_names f), Gp, map_map. by rewrite <- Hrs.
  - intros q n Hq%Hin. destruct (Hopt q n Hq) as (o & Ho & He & Hn). exists o.
    rewrite elem_of_sort_by, Hf by eauto. split_and!; [done|lia|done].
  - pose proof (spreadOf_spec f _ G Hf Gs) as Hsp. destruct (spreadOf G) as [sp|].
    + destruct Hsp as (S1 & S2 & S3).
      assert (Hm : map fst rs ≡ₚ map fst (omap (reportedBy line (latestReturns plan)) (plan_participants plan)))
        by (by rewrite Hrs).
      rewrite <- Hm. split_and!; [done|done|]. intros q n Hq%Hin.
      destruct (Hopt q n Hq) as (o & Ho & He & _). specialize (S3 o Ho). rewrite !Hf by eauto. lia.
    + apply Permutation_nil. rewrite <- Hrs, Hsp in *. simpl in Gp. apply Permutation_nil in Gp.
      by apply map_eq_nil in Gp as ->.
Qed.

(** Two agencies write one amount two ways. *)
Definition secondParty : Participant :=
  mkParticipant None (js "Terminal") (js "Terminal operator") (js "Ngozi") true true (js "a2").
Definition twoPartyPlan : MeasurementPlan :=
  mkPlan (js "call-0001") (js "Crude export") (js "2026-07-01T06:00:00Z") None (js "Berth 4")
    (js "Shore tank") (js "loading") (js "full") (js "Ada") [] (js "p1") (js "MV Calabar")
    (js "VC-1") 3 in_progress surveyor [sampleParty; secondParty] [sampleCargo]
    [sampleSubmission (js "s1") 1 (js "1000");
     mkSubmission (js "a2") (js "2026-07-01T08:00:00Z") (js "REF") [] []
       [mkSubmissionLine (js "l1") reported (Some (js "1000.0")) []] [] (js "s2") 1 (Some surveyor)
       (js "2026-07-01T09:00:00Z")] [] [] [].
Example twoParty_options :
  let row := readingRow (H := asciiHost) twoPartyPlan (latestReturns twoPartyPlan)
    (agencyColumns (H := asciiHost) [twoPartyPlan]) sampleCargo in
  row_agree row = true ∧
  row_options row = [mkOption (js "1000.0") [js "Terminal"; js "Customs"]].
Proof. by vm_compute. Qed.

Lemma row_options_partition_witness :
  flat_map opt_parties (row_options (readingRow (H := asciiHost) twoPartyPlan (latestReturns twoPartyPlan)
    (agencyColumns (H := asciiHost) [twoPartyPlan]) sampleCargo)) ≡ₚ [js "Customs"; js "Terminal"].
Proof.
  destruct (row_options_partition (H := asciiHost) [twoPartyPlan] twoPartyPlan sampleCargo) as (_ & Hp & _).
  - apply list_elem_of_here.
  - intros party q n Hin. change (party ∈ [sampleParty; secondParty]) in Hin.
    apply elem_of_cons in Hin as [->|Hin]; [|apply list_elem_of_singleton in Hin as ->];
      vm_compute; intros [= <- <-]; discriminate.
  - exact Hp.
Defined.
