(* ===== verification/Tariffs.v ===== *)
(** * The variation tariff a browser keeps (frontend/src/measurements/tariffs.ts)

    Reading and saving the organization's tariff document.  The [rates] object is an
    association list in property order; a parsed object with a repeated member keeps the
    first position and the last value, as JavaScript does. *)
From S2P Require Import Prelude JsString Json Codec Host MeasurementTypes Samples Uri Storage Cargo.

Record VariationTariffInput := mkTariffInput {
  ti_currency : Currency; ti_reference : str; ti_rates : list (str * str) }.
Record VariationTariff := mkTariff {
  vt_input :> VariationTariffInput; vt_updatedAt : str; vt_updatedBy : Actor }.

(** [tariff.rates[key]]; [None] is [undefined]. *)
Definition rateOf (key : str) (tariff : VariationTariffInput) : option str := mget key (ti_rates tariff).

Definition tariffStorageKey (orgId : option str) : option str :=
  match orgId with
  | Some org => if truthy (trim org)
                then Some (js "vessel-caller:variation-tariff:v1:" ++ encodeURIComponent org) else None
  | None => None
  end.

(** ** The saved document *)

Definition enc_rates (rates : list (str * str)) : json := JObj (map (λ kv, (kv.1, JStr kv.2)) rates).
Definition enc_tariff (t : VariationTariff) : json :=
  mkObj [fld "currency" (currency_lit (ti_currency t)); fld "reference" (ti_reference t);
         fld "rates" (enc_rates (ti_rates t)); fld "updatedAt" (vt_updatedAt t);
         fld "updatedBy" (enc_Actor (vt_updatedBy t))].
Definition enc_document (orgId : str) (t : VariationTariff) : json :=
  mkObj [fld "version" 1; fld "organizationId" orgId; fld "tariff" (enc_tariff t)].

(** A rate that may be stored: blank, or a number the tariff accepts. *)
Definition storedRate (rate : json) : option str :=
  match rate with JStr r => if isEmpty r || validRate r then Some r else None | _ => None end.

(** The own properties of a value with [typeof] object, in order. *)
Definition objectEntries (j : json) : option (list (str * json)) :=
  match j with
  | JObj kvs => Some (foldl (λ m kv, mset kv.1 kv.2 m) [] kvs)
  | JArr l => Some (imap (λ i v, (printNat (Z.of_nat i), v)) l)
  | _ => None
  end.

(** [Object.values(tariff.rates).every(...)], with the rates it accepts. *)
Definition storedRates (entries : list (str * json)) : option (list (str * str)) :=
  mapM (λ kv : str * json, r ← storedRate kv.2; Some (kv.1, r)) entries.

(** [validTariff], with the tariff it accepts. *)
Definition dec_tariff (j : json) : option VariationTariff :=
  c ← jget (js "currency") j; currency ← decLit currency_lit [USD; NGN] c;
  r ← jget (js "reference") j; reference ← dec r;
  u ← jget (js "updatedAt") j; updatedAt ← dec u;
  by_ ← jget (js "updatedBy") j; updatedBy ← dec_Actor by_;
  rs ← jget (js "rates") j; entries ← objectEntries rs;
  rates ← storedRates entries;
  Some (mkTariff (mkTariffInput currency reference rates) updatedAt updatedBy).

Definition dec_document (orgId : option str) (j : json) : option VariationTariff :=
  version ← jget (js "version") j; org ← jget (js "organizationId") j;
  match version, org with
  | JNum n, JStr o =>
      if (n =? 1) && bool_decide (Some o = orgId) then jget (js "tariff") j ≫= dec_tariff else None
  | _, _ => None
  end.

Record TariffState := mkTariffState {
  ts_key : option str; ts_tariff : option VariationTariff; ts_error : option str }.
Definition unreadableTariff : str :=
  js "The saved tariff could not be read. It has been preserved; enter rates again to replace it.".

Definition readTariff (orgId : option str) (st : Storage) : TariffState :=
  match tariffStorageKey orgId with
  | None => mkTariffState None None None
  | Some key =>
    match getItem key st with
    | Err _ => mkTariffState (Some key) None (Some unreadableTariff)
    | Ok raw =>
      if isEmpty (default [] raw) then mkTariffState (Some key) None None else
      match parse (default [] raw) ≫= dec_document orgId with
      | Some tariff => mkTariffState (Some key) (Some tariff) None
      | None => mkTariffState (Some key) None (Some unreadableTariff)
      end
    end
  end.

(** What the hook shows: its own state while it is for this organization, else a fresh read. *)
Definition shownTariff (orgId : option str) (state : TariffState) (st : Storage) : TariffState :=
  if bool_decide (ts_key state = tariffStorageKey orgId) then state else readTariff orgId st.

Section Save.
Context `{Host}.

Definition enteredRate (input : VariationTariffInput) (key : str) : str :=
  trim (default [] (rateOf key input)).
Definition invalidRate (input : VariationTariffInput) (rate : TariffRateDefinition) : bool :=
  truthy (enteredRate input (rate_key rate)) && negb (validRate (default [] (rateOf (rate_key rate) input))).
Definition savedRates (input : VariationTariffInput) : list (str * str) :=
  map (λ rate, (rate_key rate, enteredRate input (rate_key rate))) TARIFF_RATES.

Definition saveTariff (orgId : option str) (input : VariationTariffInput) (actor : Actor) (now : str)
    (st : Storage) : result str (Storage * TariffState * VariationTariff) :=
  match tariffStorageKey orgId with
  | None => Err (js "Load your organisation before saving the tariff.")
  | Some key =>
    guard! isEmpty (trim (ti_reference input))
      else js "Enter the tariff reference, such as its title and version." in
    match findb (invalidRate input) TARIFF_RATES with
    | Some invalid =>
        Err (js "Enter the " ++ toLowerCase (rate_group invalid) ++ js " " ++ toLowerCase (rate_label invalid)
             ++ js " rate as a number with up to four decimal places.")
    | None =>
      let tariff := mkTariff (mkTariffInput (ti_currency input) (trim (ti_reference input))
                                (savedRates input)) now actor in
      let! st' := setItem key (stringify (enc_document (default [] orgId) tariff)) st in
      Ok (st', mkTariffState (Some key) (Some tariff) None, tariff)
    end
  end.
End Save.

(** ** Lemmas *)

Definition storable (t : VariationTariff) : Prop :=
  NoDup (ti_rates t).*1 ∧ Forall (λ kv : str * str, kv.2 = [] ∨ validRate kv.2 = true) (ti_rates t).

Lemma foldl_mset_id {A} (l : list (str * A)) m : NoDup (m.*1 ++ l.*1) →
  foldl (λ m kv, mset kv.1 kv.2 m) m l = m ++ l.
Proof.
  revert m. induction l as [|[k v] l IH]; intros m Hn; simpl; [by rewrite app_nil_r|].
  rewrite mset_fresh.
  - rewrite IH; [by rewrite <- app_assoc|]. rewrite fmap_app, <- app_assoc. done.
  - intros Hin. apply NoDup_app in Hn as (_ & Hd & _). apply (Hd _ Hin). apply list_elem_of_here.
Qed.

Lemma dec_enc_rates rates : NoDup rates.*1 → Forall (λ kv : str * str, kv.2 = [] ∨ validRate kv.2 = true) rates →
  objectEntries (enc_rates rates) ≫= storedRates = Some rates.
Proof.
  intros Hn Hv. unfold enc_rates. cbn [objectEntries mbind option_bind].
  rewrite foldl_mset_id; simpl.
  - apply mapM_Some. clear Hn. induction Hv as [|[k v] l Hkv _ IH]; simpl; constructor; [|done].
    simpl in *. unfold storedRate. destruct Hkv as [->| ->]; simpl; [done|]. by rewrite orb_true_r.
  - rewrite <- list_fmap_compose. erewrite list_fmap_ext; [exact Hn|]. by intros ? [].
Qed.

Lemma dec_enc_tariff t : storable t → dec_tariff (enc_tariff t) = Some t.
Proof.
  intros [Hn Hv]. destruct t as [[c r rates] at_ [aid aname]]. simpl in *.
  unfold dec_tariff. unfold enc_tariff. rewrite !jget_mkObj.
  assert (Hc : decLit currency_lit [USD; NGN] (JStr (currency_lit c)) = Some c) by (by destruct c).
  pose proof (dec_enc_rates rates Hn Hv) as Hr. destruct (objectEntries (enc_rates rates)) as [es|] eqn:Ee;
    [|done]. cbn [mbind option_bind] in Hr.
  cbv [fget foldl fld fst snd]; decide_keys. cbn [mbind option_bind ti_currency ti_reference ti_rates vt_input].
  change (enc (currency_lit c)) with (JStr (currency_lit c)). rewrite Hc. cbn [mbind option_bind].
  change (enc (enc_rates rates)) with (enc_rates rates). change (enc (enc_Actor ?a)) with (enc_Actor a).
  cbn [dec Codec_str enc]. rewrite dec_enc_Actor. cbn [mbind option_bind]. rewrite Ee. cbn [mbind option_bind].
  by rewrite Hr.
Qed.

Lemma dec_enc_document org t : storable t → dec_document (Some org) (enc_document org t) = Some t.
Proof.
  intros Ht. unfold dec_document, enc_document. rewrite !jget_mkObj.
  cbv [fget foldl fld fst snd]; decide_keys. cbn [mbind option_bind enc Codec_Z Codec_str Codec_json].
  rewrite bool_decide_eq_true_2 by done. by apply dec_enc_tariff.
Qed.

Lemma validRate_trim v : validRate (trim v) = validRate v.
Proof. unfold validRate. by rewrite trim_trim. Qed.

Section SaveLemmas.
Context `{Host}.

Lemma savedRates_ok input : findb (invalidRate input) TARIFF_RATES = None →
  NoDup (savedRates input).*1 ∧
  Forall (λ kv : str * str, kv.2 = [] ∨ validRate kv.2 = true) (savedRates input).
Proof.
  intros Hf. split.
  - unfold savedRates. rewrite <- list_fmap_compose.
    apply (bool_decide_unpack _). vm_compute. exact I.
  - unfold savedRates. apply Forall_fmap, Forall_forall. intros rate Hin. simpl.
    pose proof (proj1 (findb_None _ _) Hf rate Hin) as Hr. unfold invalidRate, enteredRate in *.
    destruct (truthy _) eqn:Et; [right|left].
    + apply negb_false_iff in Hr. by rewrite validRate_trim.
    + unfold truthy in Et. by destruct (trim _).
Qed.
End SaveLemmas.

Lemma tariffStorageKey_Some o key : tariffStorageKey (Some o) = Some key →
  key = js "vessel-caller:variation-tariff:v1:" ++ encodeURIComponent o.
Proof. unfold tariffStorageKey. destruct (truthy (trim o)); [|done]. by intros [= <-]. Qed.

Lemma saveTariff_Ok `{Host} o input actor now st st' state t :
  saveTariff (Some o) input actor now st = Ok (st', state, t) →
  ∃ key, tariffStorageKey (Some o) = Some key ∧ findb (invalidRate input) TARIFF_RATES = None ∧
    t = mkTariff (mkTariffInput (ti_currency input) (trim (ti_reference input)) (savedRates input)) now actor ∧
    state = mkTariffState (Some key) (Some t) None ∧
    setItem key (stringify (enc_document o t)) st = Ok st'.
Proof.
  unfold saveTariff. destruct (tariffStorageKey (Some o)) as [key|]; [|done]. intros Hs. run_ok Hs.
  destruct (findb _ _); [done|]. run_ok Hs. injection Hs as <- <- <-. by exists key.
Qed.

Lemma mget_map {A B} (f : A → str) (g : str → B) (l : list A) a : a ∈ l →
  mget (f a) (map (λ x, (f x, g (f x))) l) = Some (g (f a)).
Proof.
  induction l as [|x l IH]; [by intros ?%elem_of_nil|]. intros Hin. cbn.
  destruct (decide (f a = f x)) as [->|Hne]; [done|].
  apply elem_of_cons in Hin as [->|Hin]; [done|by apply IH].
Qed.

(** A saved tariff reads back exactly as it was saved, prices every row of the tariff
    with a blank or a well-formed rate, carries a reference, and leaves every other
    organization's tariff as it was. *)
Theorem saved_tariff_reads_back `{Host} (o : str) (input : VariationTariffInput) (actor : Actor)
    (now : str) (st st' : Storage) (state : TariffState) (t : VariationTariff)
    (Hsave : saveTariff (Some o) input actor now st = Ok (st', state, t)) (Hread : readable st = true) :
  readTariff (Some o) st' = state ∧ ts_tariff state = Some t ∧ ts_error state = None ∧
  trim (ti_reference t) ≠ [] ∧
  (∀ rate, rate ∈ TARIFF_RATES →
     ∃ v, rateOf (rate_key rate) t = Some v ∧ (v = [] ∨ validRate v = true)) ∧
  (∀ o', units o → units o' → o ≠ o' → readTariff (Some o') st' = readTariff (Some o') st).
Proof.
  assert (Href : isEmpty (trim (ti_reference input)) = false).
  { revert Hsave. unfold saveTariff. destruct (tariffStorageKey _); [|done]. intros Hs. by run_ok Hs. }
  apply saveTariff_Ok in Hsave as (key & Hk & Hf & -> & -> & Hs).
  destruct (savedRates_ok input Hf) as [Hn Hv]. split_and!; try done.
  - unfold readTariff. rewrite Hk, (getItem_setItem _ _ _ _ Hs), Hread. cbn [from_option id].
    replace (isEmpty (stringify _)) with false by done.
    rewrite parse_stringify. cbn [mbind option_bind]. by rewrite dec_enc_document.
  - simpl. rewrite trim_trim. intros He. by rewrite He in Href.
  - intros rate Hin. exists (enteredRate input (rate_key rate)). split.
    + exact (mget_map rate_key (enteredRate input) TARIFF_RATES rate Hin).
    + rewrite Forall_forall in Hv. apply (Hv (rate_key rate, enteredRate input (rate_key rate))).
      apply list_elem_of_fmap. by exists rate.
  - intros o' Hu Hu' Hne. unfold readTariff. destruct (tariffStorageKey (Some o')) as [key'|] eqn:Hk'; [|done].
    assert (Hkk : key ≠ key'); [intros ->|by rewrite (getItem_setItem_ne key key' _ st st' Hkk Hs)].
    apply Hne, encodeURIComponent_inj; [done..|]. apply tariffStorageKey_Some in Hk, Hk'. 
    rewrite Hk' in Hk. by apply app_inv_head in Hk.
Qed.

Definition sampleTariffInput : VariationTariffInput :=
  mkTariffInput USD (js " NPA tariff 2026 ") [(js "liquid:tonnes", js " 2.5 "); (js "bulk:m3", js "")].
Definition sampleTariff : VariationTariff :=
  mkTariff (mkTariffInput USD (js "NPA tariff 2026") (savedRates sampleTariffInput))
    (js "2026-07-01T00:00:00Z") surveyor.

Lemma saved_tariff_reads_back_witness : ∃ st' state,
  saveTariff (H := asciiHost) (Some (js "org-1")) sampleTariffInput surveyor (js "2026-07-01T00:00:00Z")
    emptyStorage = Ok (st', state, sampleTariff)
  ∧ readTariff (Some (js "org-1")) st' = state ∧ rateOf (js "liquid:tonnes") sampleTariff = Some (js "2.5").
Proof.
  eexists _, _. split; [vm_compute; reflexivity|].
  split; [|vm_compute; reflexivity].
  eapply (saved_tariff_reads_back (H := asciiHost) (js "org-1") sampleTariffInput surveyor
    (js "2026-07-01T00:00:00Z") emptyStorage _ _ sampleTariff);
    [vm_compute; reflexivity|reflexivity].
Defined.
