(* ===== verification/InvoiceDraft.v ===== *)
(** * From an approved report to an invoice draft (frontend/src/measurements/invoiceDraft.ts)

    What the screen proposes as the input of [draftInvoice], what it lists as missing, and
    the contract between the two: with nothing missing the draft is created. *)
From S2P Require Import Prelude JsString Json Codec MeasurementTypes Host Samples Helpers Comparison Cargo Storage Tariffs ReadingsModel CloseoutTypes Closeout CloseoutStore CloseoutInvariants.

Definition aboveDeclaration (quantity : str) (declared : option str) : bool :=
  match quantityDifference (Some quantity) declared with
  | Some difference => negb (streq difference (js "0")) && negb (startsWith (js "-") difference)
  | None => false
  end.

(** [sources.find(plan)?.lines.find(line)]: the first sheet with the id decides. *)
Definition cargoOf (sources : list MeasurementPlan) (line : PreviewReportLine) : option CargoLine :=
  plan ← findb (λ plan, streq (plan_id plan) (prl_planId line)) sources;
  findb (λ item, streq (line_id item) (prl_lineId line)) (plan_lines plan).

(** [(key && tariff?.rates[key]) || ""] *)
Definition tariffRate (tariff : option VariationTariff) (cargo : option CargoLine) : str :=
  match match cargo with Some c => tariffKeyFor c | None => None end, tariff with
  | Some key, Some t => if truthy key then default [] (rateOf key t) else []
  | _, _ => []
  end.

Definition inputLine (sources : list MeasurementPlan) (tariff : option VariationTariff)
    (line : PreviewReportLine) : PreviewInvoiceLineInput :=
  let rate := tariffRate tariff (cargoOf sources line) in
  mkInvoiceLineInput (prl_planId line) (prl_lineId line)
    (if truthy rate then rate
     else if aboveDeclaration (prl_quantity line) (prl_declaredQuantity line) then [] else js "0")
    (js "0").

Definition invoiceInputFor (report : PreviewReport) (plans : list MeasurementPlan)
    (declaration : option PaidDeclaration) (tariff : option VariationTariff) : PreviewInvoiceInput :=
  let sources := plans ++ rep_sourcePlans report in
  {| ii_payer := match declaration with Some d => pd_payer d | None => [] end;
     ii_currency := match tariff, declaration with
       | Some t, _ => ti_currency t | None, Some d => pd_currency d | None, None => USD end;
     ii_tariffReference := match tariff with Some t => ti_reference t | None => [] end;
     ii_originalInvoiceReference := match declaration with Some d => pd_invoiceReference d | None => [] end;
     ii_paymentStatus := match declaration with Some d => pd_paymentStatus d | None => unconfirmed end;
     ii_originalPaidAmount := match declaration with Some d => pd_amountPaid d | None => [] end;
     ii_previousVariationReference := [];
     ii_lines := map (inputLine sources tariff) (rep_lines report) |}.

(** [!input.lines.find(...)?.rate.trim()] *)
Definition unrated (input : PreviewInvoiceInput) (line : PreviewReportLine) : bool :=
  match findb (λ item, streq (ili_planId item) (prl_planId line)
                       && streq (ili_lineId item) (prl_lineId line)) (ii_lines input) with
  | Some item => isEmpty (trim (ili_rate item))
  | None => true
  end.

Definition missingInvoiceDetails (input : PreviewInvoiceInput) (report : PreviewReport) : list str :=
  (if isEmpty (trim (ii_payer input)) then [js "Payer from the paid declaration"] else [])
  ++ (if isEmpty (trim (ii_originalInvoiceReference input)) then [js "Declaration invoice number"] else [])
  ++ (if negb (bool_decide (ii_paymentStatus input = paid))
         && existsb (λ line, aboveDeclaration (prl_quantity line) (prl_declaredQuantity line)) (rep_lines report)
      then [js "Confirmation that the declaration is paid"] else [])
  ++ (if isEmpty (trim (ii_tariffReference input)) then [js "Variation tariff"] else [])
  ++ (let lines := filterb (unrated input) (rep_lines report) in
      if Nat.eqb (length lines) 0 then []
      else [js "Rate for " ++ join (js ", ") (map prl_description lines)]).

(** ** Lemmas: the two readings of a quantity agree *)

Lemma length_trim s : (length (trim s) ≤ length s)%nat.
Proof.
  unfold trim, trimEnd. rewrite length_rev.
  destruct (trimStart_suffix s) as [w Hw]. destruct (trimStart_suffix (rev (trimStart s))) as [v Hv].
  apply (f_equal length) in Hw, Hv. rewrite length_app in Hw, Hv. rewrite length_rev in Hv. lia.
Qed.

Lemma matchDecimal_text_inv s w f : matchDecimal s = Some (w, f) → s = withFraction w f.
Proof.
  unfold matchDecimal. pose proof (join_split cDot s) as Hj.
  destruct (split cDot s) as [|a [|b [|]]]; [done|..|done].
  - destruct (digits1 a); [|done]. intros [= <- <-]. unfold withFraction. simpl in *.
    by rewrite app_nil_r.
  - destruct (digits1 a && digits1 b) eqn:E; [|done]. intros [= <- <-].
    apply andb_true_iff in E as [_ [Hb _]%digits1_split]. unfold withFraction.
    destruct b as [|c b]; [done|]. by rewrite <- Hj.
Qed.

Lemma two_decimals v n : Closeout.decimal (Some v) 6 15 = Some n → (length v ≤ 200)%nat →
  ∃ d, Comparison.decimal (Some v) = Some d ∧ places d <= 6 ∧ atScale 6 d = n.
Proof.
  intros Hd Hlen. unfold Closeout.decimal in Hd. cbn [mbind option_bind] in Hd.
  destruct (matchDecimal (trim v)) as [[w f]|] eqn:Em; [|done]. cbn [mbind option_bind] in Hd.
  destruct (_ || _) eqn:El; [done|]. injection Hd as <-.
  apply orb_false_iff in El as [_ Hf%Nat.ltb_ge].
  pose proof (matchDecimal_digits _ _ _ Em) as (Hne & Dw & Df). apply matchDecimal_text_inv in Em.
  assert (Hl2 : (length (trim v) ≤ 200)%nat) by (pose proof (length_trim v); lia).
  assert (Hv : Comparison.decimal (Some v) = Comparison.decimal (Some (trim v))).
  { unfold Comparison.decimal. rewrite trim_trim.
    by rewrite (proj2 (Nat.ltb_ge _ _) Hlen), (proj2 (Nat.ltb_ge _ _) Hl2). }
  rewrite Hv, Em. rewrite Em in Hl2. 
  pose proof (decimal_withFraction false w f Hne Dw Df Hl2) as Hdec. cbn [app] in Hdec. rewrite Hdec.
  eexists. split; [done|]. simpl. split; [lia|]. unfold atScale. simpl.
  change (10 * (10 * (10 * (10 * (10 * (10 * 1)))))) with (pow10 6).
  rewrite bigOfDigits_app, bigOfDigits_padEnd.
  replace (Z.to_nat (6 - Z.of_nat (length f))) with (6 - length f)%nat by lia.
  replace (pow10 6) with (pow10 (length f) * pow10 (6 - length f))
    by (rewrite <- pow10_add; f_equal; lia). ring.
Qed.

Lemma aboveDeclaration_iff q d final baseline :
  Closeout.decimal (Some q) 6 15 = Some final → Closeout.decimal (Some d) 6 15 = Some baseline →
  (length q ≤ 200)%nat → (length d ≤ 200)%nat →
  aboveDeclaration q (Some d) = true ↔ baseline < final.
Proof.
  intros Hq Hd Lq Ld. destruct (two_decimals q final Hq Lq) as (a & Ha & Pa & <-).
  destruct (two_decimals d baseline Hd Ld) as (b & Hb & Pb & <-).
  pose proof (ReadingsModel.compare_spec q d a b 6 Ha Hb Pa Pb) as Hc.
  unfold ReadingsModel.compare, aboveDeclaration in *.
  destruct (quantityDifference (Some q) (Some d)) as [t|] eqn:Et.
  - destruct (streq t (js "0")); [split; [done|lia]|]. cbn [negb andb].
    destruct (startsWith (js "-") t); cbn [negb]; split; (done || lia).
  - unfold quantityDifference in Et. by rewrite Ha, Hb in Et.
Qed.

(** ** Lemmas: the proposed lines are priceable *)

Lemma validRate_decimal v : validRate v = true → ∃ n, Closeout.decimal (Some v) 4 15 = Some n.
Proof.
  unfold validRate, Closeout.decimal, matchDecimal, boundedDigits. cbn [mbind option_bind].
  destruct (split cDot (trim v)) as [|w [|f [|]]]; [done|..|done].
  - intros [Hw Hl%Nat.leb_le]%andb_true_iff. rewrite Hw. cbn [mbind option_bind].
    rewrite (proj2 (Nat.ltb_ge 15 (length w))) by lia. cbn [orb]. by eexists.
  - intros [[Hw Lw%Nat.leb_le]%andb_true_iff [Hf Lf%Nat.leb_le]%andb_true_iff]%andb_true_iff.
    rewrite Hw, Hf. cbn [andb mbind option_bind].
    rewrite (proj2 (Nat.ltb_ge 15 (length w))), (proj2 (Nat.ltb_ge 4 (length f))) by lia. by eexists.
Qed.

(** The hypotheses every draft shares: a report with distinct, readable lines and a
    tariff as the tariff store returns it. *)
Definition readableLine (line : PreviewReportLine) : Prop :=
  (length (prl_quantity line) ≤ 200)%nat ∧ validDecimal (Some (prl_quantity line)) 6 15 = true ∧
  ∃ d, prl_declaredQuantity line = Some d ∧ (length d ≤ 200)%nat ∧ validDecimal (Some d) 6 15 = true.
Definition lineKey (line : PreviewReportLine) : str := itemKey (prl_planId line) (prl_lineId line).

Lemma tariffRate_valid tariff cargo : (∀ t, tariff = Some t → storable t) →
  tariffRate tariff cargo = [] ∨ validRate (tariffRate tariff cargo) = true.
Proof.
  intros Ht. unfold tariffRate. destruct (match cargo with Some c => _ | None => _ end) as [key|]; [|by left].
  destruct tariff as [t|]; [|by left]. destruct (truthy key); [|by left].
  destruct (rateOf key t) as [r|] eqn:Er; [|by left]. simpl.
  destruct (Ht t eq_refl) as [_ Hv]. rewrite Forall_forall in Hv. unfold rateOf in Er.
  apply mget_Some_elem in Er. apply (Hv (key, r) Er).
Qed.

Lemma decimal_zero p : Closeout.decimal (Some (js "0")) p 15 = Some 0.
Proof.
  pose proof (decimal_text (js "0") [] p 15) as Hd. change (withFraction (js "0") []) with (js "0") in Hd.
  change (bigOfDigits (js "0")) with 0 in Hd. change (bigOfDigits []) with 0 in Hd.
  rewrite Hd; [by rewrite !Z.mul_0_l|done|done|done|simpl; lia|simpl; lia].
Qed.

Section Draft.
Context (sources : list MeasurementPlan) (tariff : option VariationTariff).
Hypothesis tariff_ok : ∀ t, tariff = Some t → storable t.

Lemma inputLine_keys lines :
  map (λ i, itemKey (ili_planId i) (ili_lineId i)) (map (inputLine sources tariff) lines) = map lineKey lines.
Proof. by rewrite map_map. Qed.

(** The input found for a line of the report is the one proposed for it. *)
Lemma find_inputLine lines line : NoDup (map lineKey lines) → line ∈ lines →
  findb (λ item, streq (ili_planId item) (prl_planId line) && streq (ili_lineId item) (prl_lineId line))
    (map (inputLine sources tariff) lines) = Some (inputLine sources tariff line).
Proof.
  induction lines as [|l lines IH]; [by intros _ ?%elem_of_nil|]. cbn [map].
  intros [Hl Hnd]%NoDup_cons [->|Hin]%elem_of_cons.
  - cbn. by rewrite !streq_refl.
  - cbn [List.find]. destruct (streq _ _ && streq _ _) eqn:E; [|by apply IH].
    apply andb_true_iff in E as [Hp%streq_true Hq%streq_true]. destruct Hl.
    apply list_elem_of_fmap. exists line. split; [|done]. unfold lineKey. simpl in Hp, Hq. by rewrite Hp, Hq.
Qed.

Lemma inputLine_rate line : truthy (trim (ili_rate (inputLine sources tariff line))) = true →
  ∃ n, Closeout.decimal (Some (ili_rate (inputLine sources tariff line))) 4 15 = Some n.
Proof.
  unfold inputLine. cbn [ili_rate]. set (r := tariffRate _ _).
  destruct (truthy r) eqn:Et.
  - intros _. apply validRate_decimal. destruct (tariffRate_valid tariff (cargoOf sources line)) as [He|]; [done| |done].
    fold r in He. by rewrite He in Et.
  - destruct (aboveDeclaration _ _); [done|]. intros _. exists 0. apply decimal_zero.
Qed.

(** A rated line is priced: exactly, never held, and charged only when above its declaration. *)
Lemma variationLine_proposed lines line : NoDup (map lineKey lines) → line ∈ lines → readableLine line →
  truthy (trim (ili_rate (inputLine sources tariff line))) = true →
  ∃ res a, variationLine (map (inputLine sources tariff) lines) line = Ok (res, a) ∧
    (aboveDeclaration (prl_quantity line) (prl_declaredQuantity line) = false → a = 0).
Proof.
  intros Hnd Hin (Lq & Hq & d & Hd & Ld & Hdv) Hr. unfold variationLine.
  rewrite (find_inputLine lines line Hnd Hin), Hd.
  unfold validDecimal in Hq, Hdv.
  destruct (Closeout.decimal (Some d) 6 15) as [baseline|] eqn:Eb; [|done].
  destruct (Closeout.decimal (Some (prl_quantity line)) 6 15) as [final|] eqn:Ef; [|done].
  destruct (inputLine_rate line Hr) as [rate ->]. cbn [ili_previousVariationAmount inputLine].
  rewrite decimal_zero. eexists _, _. split; [done|]. intros Habove.
  assert (Hle : ¬ baseline < final).
  { intros Hlt. apply (aboveDeclaration_iff _ _ _ _ Ef Eb Lq Ld) in Hlt. congruence. }
  rewrite (proj2 (Z.ltb_ge 0 (final - baseline))) by lia. done.
Qed.
End Draft.

Lemma app_nil_iff {A} (l1 l2 : list A) : l1 ++ l2 = [] ↔ l1 = [] ∧ l2 = [].
Proof. split; [apply app_eq_nil|by intros [-> ->]]. Qed.
Lemma if_nil {A} (b : bool) (x : A) : (if b then [x] else []) = [] ↔ b = false.
Proof. by destruct b. Qed.

Lemma missing_nil input report : missingInvoiceDetails input report = [] ↔
  isEmpty (trim (ii_payer input)) = false ∧ isEmpty (trim (ii_originalInvoiceReference input)) = false ∧
  negb (bool_decide (ii_paymentStatus input = paid))
    && existsb (λ line, aboveDeclaration (prl_quantity line) (prl_declaredQuantity line)) (rep_lines report)
  = false ∧
  isEmpty (trim (ii_tariffReference input)) = false ∧ (∀ line, line ∈ rep_lines report → unrated input line = false).
Proof.
  unfold missingInvoiceDetails. rewrite !app_nil_iff, !if_nil.
  assert (Hl : (let lines := filterb (unrated input) (rep_lines report) in
      if Nat.eqb (length lines) 0 then []
      else [js "Rate for " ++ join (js ", ") (map prl_description lines)]) = []
    ↔ ∀ line, line ∈ rep_lines report → unrated input line = false); [|by rewrite Hl].
  cbv zeta. split.
  - intros Hn line Hin. destruct (unrated input line) eqn:Eu; [|done].
    assert (Hf : line ∈ filterb (unrated input) (rep_lines report)) by (by apply elem_of_filterb).
    destruct (filterb _ _); [by apply elem_of_nil in Hf|done].
  - intros Hall. destruct (filterb _ _) as [|x l] eqn:Ef; [done|].
    assert (Hf : x ∈ filterb (unrated input) (rep_lines report)) by (rewrite Ef; apply list_elem_of_here).
    apply elem_of_filterb in Hf as [Hin Hu]. by rewrite Hall in Hu.
Qed.

(** A calculation whose lines are all priced has no issue. *)
Lemma calculation_clear report inputs :
  NoDup (map (λ i, itemKey (ili_planId i) (ili_lineId i)) inputs) →
  length inputs = length (rep_lines report) →
  (∀ line, line ∈ rep_lines report → ∃ res a, variationLine inputs line = Ok (res, a)) →
  calc_issues (calculateVariation report inputs) = [].
Proof.
  intros Hnd Hlen Hok. unfold calculateVariation. cbn [calc_issues].
  rewrite (proj2 (hasRepeats_false _) Hnd), Hlen, Nat.eqb_refl. cbn [orb negb app].
  apply flat_map_nil. intros r (line & -> & Hin)%list_elem_of_fmap.
  by destruct (Hok line Hin) as (res & a & ->).
Qed.

Lemma calculation_no_draft report inputs :
  (∀ line res a, line ∈ rep_lines report → variationLine inputs line = Ok (res, a) → a = 0) →
  calc_status (calculateVariation report inputs) ≠ is_draft.
Proof.
  intros Hz. unfold calculateVariation. cbn [calc_status].
  assert (foldr Z.add 0 (flat_map okOf (map (variationLine inputs) (rep_lines report))).*2 = 0) as ->.
  { induction (rep_lines report) as [|l ls IH]; [done|]. cbn.
    assert (IH' := IH (λ line res a Hin, Hz line res a (list_elem_of_further _ _ _ Hin))).
    destruct (variationLine inputs l) as [[res a]|] eqn:E; [|done]. cbn.
    rewrite (Hz l res a (list_elem_of_here _ _) E). exact IH'. }
  repeat case_match; done.
Qed.

(** The guards of [draftInvoice], in its order: past them it drafts or returns the draft
    it already has. *)
Lemma draftInvoice_total `{Host} saved report input actor uuid uuid' now :
  isEmpty (trim (ii_payer input)) = false → isEmpty (trim (ii_originalInvoiceReference input)) = false →
  isEmpty (trim (ii_tariffReference input)) = false →
  ii_originalPaidAmount input = [] ∨ validDecimal (Some (ii_originalPaidAmount input)) 2 15 = true →
  calc_issues (calculateVariation report (ii_lines input)) = [] →
  (calc_status (calculateVariation report (ii_lines input)) = is_draft → ii_paymentStatus input = paid) →
  (∀ line n, line ∈ ii_lines input →
     Closeout.decimal (Some (ili_previousVariationAmount line)) 2 15 = Some n → 0 < n →
     isEmpty (trim (ii_previousVariationReference input)) = false) →
  ∃ saved' invoice, draftInvoice saved report input actor uuid uuid' now = Ok (saved', invoice) ∧
    inv_reportId invoice = rep_id report ∧ inv_payer invoice = trim (ii_payer input).
Proof.
  intros H1 H2 H3 H4 H5 H6 H7. unfold draftInvoice. rewrite H1, H2, H3. cbn [orb throw_if rbind].
  assert (Hamount : truthy (ii_originalPaidAmount input)
    && negb (validDecimal (Some (ii_originalPaidAmount input)) 2 15) = false).
  { destruct H4 as [->| ->]; [done|]. by rewrite andb_false_r. }
  rewrite Hamount, H5. cbn [throw_if rbind firstIssue].
  assert (Hdraft : bool_decide (calc_status (calculateVariation report (ii_lines input)) = is_draft)
    && negb (bool_decide (ii_paymentStatus input = paid)) = false).
  { case_bool_decide as Hs; [|done]. by rewrite (bool_decide_eq_true_2 _ (H6 Hs)). }
  rewrite Hdraft. cbn [throw_if rbind].
  assert (Hprev : existsb (λ line, 0 <? default 0 (Closeout.decimal (Some (ili_previousVariationAmount line)) 2 15))
    (ii_lines input) && isEmpty (trim (ii_previousVariationReference input)) = false).
  { apply andb_false_iff. destruct (existsb _ _) eqn:E; [|by left]. right.
    apply existsb_true in E as (line & Hin & Hlt).
    destruct (Closeout.decimal _ 2 15) as [n|] eqn:En; [|done]. apply (H7 line n Hin En). by apply Z.ltb_lt. }
  rewrite Hprev. cbn [throw_if rbind].
  destruct (last (cr_invoices saved)) as [latest|]; [destruct (sameInput _ _ _ _) eqn:Es|];
    do 2 eexists; (split; [reflexivity|]); try done.
  unfold sameInput in Es. rewrite !andb_true_iff in Es.
  destruct Es as ((((((((Hid%streq_true & Hp%streq_true) & _) & _) & _) & _) & _) & _) & _). done.
Qed.

(** The automatic draft: when a report has distinct readable lines, the tariff is one
    the tariff store returns, the amount paid is blank or a valid amount, and nothing is
    listed as missing, drafting the proposed input always succeeds. *)
Theorem automatic_invoice_drafts `{Host} (saved : CloseoutRecord) (report : PreviewReport)
    (plans : list MeasurementPlan) (declaration : option PaidDeclaration) (tariff : option VariationTariff)
    (actor : Actor) (uuid uuid' now : str)
    (Hkeys : NoDup (map lineKey (rep_lines report)))
    (Hlines : ∀ line, line ∈ rep_lines report → readableLine line)
    (Htariff : ∀ t, tariff = Some t → storable t)
    (Hpaid : ∀ d, declaration = Some d → pd_amountPaid d = [] ∨ validDecimal (Some (pd_amountPaid d)) 2 15 = true)
    (Hmissing : missingInvoiceDetails (invoiceInputFor report plans declaration tariff) report = []) :
  ∃ saved' invoice, draftInvoice saved report (invoiceInputFor report plans declaration tariff)
    actor uuid uuid' now = Ok (saved', invoice).
Proof.
  set (input := invoiceInputFor _ _ _ _) in *. set (sources := plans ++ rep_sourcePlans report).
  assert (Hil : ii_lines input = map (inputLine sources tariff) (rep_lines report)) by done.
  apply missing_nil in Hmissing as (M1 & M2 & M3 & M4 & M5).
  assert (Hrated : ∀ line, line ∈ rep_lines report →
    truthy (trim (ili_rate (inputLine sources tariff line))) = true).
  { intros line Hin. specialize (M5 line Hin). unfold unrated in M5.
    rewrite Hil, find_inputLine in M5 by done. unfold truthy. by rewrite M5. }
  assert (Hok : ∀ line, line ∈ rep_lines report → ∃ res a,
    variationLine (ii_lines input) line = Ok (res, a) ∧
    (aboveDeclaration (prl_quantity line) (prl_declaredQuantity line) = false → a = 0)).
  { intros line Hin. rewrite Hil. by apply variationLine_proposed; auto. }
  destruct (draftInvoice_total saved report input actor uuid uuid' now) as (saved' & invoice & Hd & _);
    [done|done|done|..|by exists saved', invoice].
  - unfold input, invoiceInputFor. cbn [ii_originalPaidAmount]. destruct declaration as [d|]; [by apply Hpaid|by left].
  - apply calculation_clear.
    + by rewrite Hil, inputLine_keys.
    + by rewrite Hil, length_map.
    + intros line Hin. destruct (Hok line Hin) as (res & a & Hv & _). eauto.
  - intros Hdraft. apply andb_false_iff in M3 as [M3|M3]; [by apply negb_false_iff, bool_decide_eq_true in M3|].
    exfalso. revert Hdraft. apply calculation_no_draft. intros line res a Hin Hv.
    destruct (Hok line Hin) as (res' & a' & Hv' & Hz). rewrite Hv in Hv'. simplify_eq. apply Hz.
    by apply (proj1 (existsb_false _ _) M3).
  - intros i n. rewrite Hil. intros (line & -> & _)%list_elem_of_fmap.
    cbn [ili_previousVariationAmount inputLine]. rewrite decimal_zero. intros [= <-]. lia.
Qed.

(** A liquid voyage whose final quantity is above its declaration. *)
Definition liquidCargo : CargoLine :=
  mkCargoLine (mkCargoLineInput (js "Crude oil") (js "Liquid") (js "export") [] []
    tonnes (js "Net metric tonnes") (Some (js "1000")) (js "BL-1")) (js "l1").
Definition liquidPlan : MeasurementPlan :=
  mkPlan (js "call-0001") (js "Crude export") (js "2026-07-01T06:00:00Z") None (js "Berth 4")
    (js "Shore tank") (js "loading") (js "full") (js "Ada") [] (js "p1") (js "MV Calabar")
    (js "VC-1") 3 in_progress surveyor [sampleParty] [liquidCargo] [] [] [] [].
Definition sampleDeclaration : PaidDeclaration :=
  mkDeclaration (mkDeclarationInput (js "Owner Ltd") (js "Agent") (js "INV-7") (js "500.00") USD
    (js "2026-06-30") paid) (js "t0") surveyor.

Lemma automatic_invoice_drafts_witness : ∃ saved' invoice,
  draftInvoice (H := asciiHost) (emptyCloseout sampleCall) (sampleReport (js "1012.4"))
    (invoiceInputFor (sampleReport (js "1012.4")) [liquidPlan] (Some sampleDeclaration) (Some sampleTariff))
    reviewer (js "i1") (js "e1") (js "t1") = Ok (saved', invoice).
Proof.
  apply (automatic_invoice_drafts (H := asciiHost)).
  - apply NoDup_singleton.
  - intros line ->%list_elem_of_singleton. split; [simpl; lia|]. split; [reflexivity|].
    exists (js "1000"). split; [reflexivity|]. split; [simpl; lia|reflexivity].
  - intros t [= <-]. apply savedRates_ok. vm_compute. reflexivity.
  - intros d [= <-]. right. reflexivity.
  - vm_compute. reflexivity.
Defined.
Example automatic_total :
  match draftInvoice (H := asciiHost) (emptyCloseout sampleCall) (sampleReport (js "1012.4"))
    (invoiceInputFor (sampleReport (js "1012.4")) [liquidPlan] (Some sampleDeclaration) (Some sampleTariff))
    reviewer (js "i1") (js "e1") (js "t1") with
  | Ok (_, invoice) => inv_total invoice = js "31.00" ∧ inv_status invoice = is_draft
  | Err _ => False
  end.
Proof. vm_compute. done. Qed.
