(* ===== verification/LocalDirectory.v ===== *)
(** * The agency directory of a browser (frontend/src/measurements/localAgencyDirectory.ts)

    The document one organization keeps, the two operations on it, and the abstract
    directory they refine: a list of agencies that grows by new identities, whose entries
    are edited in place and archived, never removed. *)
From S2P Require Import Prelude JsString Json Codec Host Uri Storage ReadingsModel.

Record AgencyProfile := mkProfile {
  ag_id : str; ag_name : str; ag_role : str; ag_representative : str; ag_active : bool }.
#[export] Instance AgencyProfile_eq : EqDecision AgencyProfile. Proof. solve_decision. Defined.
(** [AgencyInput]: the id is absent for a new agency. *)
Record AgencyInput := mkAgencyInput {
  ai_id : option str; ai_name : str; ai_role : str; ai_representative : str; ai_active : bool }.

Record DirectoryState := mkDirectoryState {
  ds_key : option str; ds_agencies : list AgencyProfile; ds_error : option str }.

Definition MAX_AGENCIES : nat := 500.
Definition agencyDirectoryStorageKey (orgId : option str) : option str :=
  match orgId with
  | Some org => if truthy (trim org)
                then Some (js "vessel-caller:agency-directory:v1:" ++ encodeURIComponent org) else None
  | None => None
  end.

(** [isProfile] on values of the right types: the length limits. *)
Definition isProfile (item : AgencyProfile) : bool :=
  truthy (ag_id item) && (length (ag_id item) <=? 100)%nat
  && truthy (clean (ag_name item)) && (length (ag_name item) <=? 255)%nat
  && truthy (clean (ag_role item)) && (length (ag_role item) <=? 100)%nat
  && (length (ag_representative item) <=? 255)%nat.

Definition enc_AgencyProfile (r : AgencyProfile) : json :=
  mkObj [fld "id" (ag_id r); fld "name" (ag_name r); fld "role" (ag_role r);
         fld "representative" (ag_representative r); fld "active" (ag_active r)].
Definition dec_AgencyProfile (j : json) : option AgencyProfile :=
  i ← req (js "id") j; n ← req (js "name") j; r ← req (js "role") j;
  p ← req (js "representative") j; a ← req (js "active") j; Some (mkProfile i n r p a).
Lemma dec_enc_AgencyProfile r : dec_AgencyProfile (enc_AgencyProfile r) = Some r.
Proof. unfold dec_AgencyProfile, enc_AgencyProfile. revert r. solve_record_codec. Qed.
#[export] Instance Codec_AgencyProfile : Codec AgencyProfile :=
  {| enc := enc_AgencyProfile; dec := dec_AgencyProfile; dec_enc := dec_enc_AgencyProfile |}.

(** The document: [{ version, organizationId, agencies }]. *)
Record DirectoryDocument := mkDirectoryDocument {
  dd_version : Z; dd_organizationId : str; dd_agencies : list AgencyProfile }.
Definition enc_DirectoryDocument (r : DirectoryDocument) : json :=
  mkObj [fld "version" (dd_version r); fld "organizationId" (dd_organizationId r);
         fld "agencies" (dd_agencies r)].
Definition dec_DirectoryDocument (j : json) : option DirectoryDocument :=
  v ← req (js "version") j; o ← req (js "organizationId") j; a ← req (js "agencies") j;
  Some (mkDirectoryDocument v o a).
Lemma dec_enc_DirectoryDocument r : dec_DirectoryDocument (enc_DirectoryDocument r) = Some r.
Proof. unfold dec_DirectoryDocument, enc_DirectoryDocument. revert r. solve_record_codec. Qed.
#[export] Instance Codec_DirectoryDocument : Codec DirectoryDocument :=
  {| enc := enc_DirectoryDocument; dec := dec_DirectoryDocument; dec_enc := dec_enc_DirectoryDocument |}.

Section Directory.
Context `{Host}.

Definition identity (name role : str) : str :=
  stringify (JArr [JStr (toLocaleLowerCase (clean name)); JStr (toLocaleLowerCase (clean role))]).
Definition identityOf (agency : AgencyProfile) : str := identity (ag_name agency) (ag_role agency).

Definition validDirectory (orgId : option str) (data : DirectoryDocument) : bool :=
  (dd_version data =? 1)
  && bool_decide (Some (dd_organizationId data) = orgId)
  && (length (dd_agencies data) <=? MAX_AGENCIES)%nat
  && forallb isProfile (dd_agencies data)
  && negb (hasRepeats (map ag_id (dd_agencies data)))
  && negb (hasRepeats (map identityOf (dd_agencies data))).

Definition unavailable : str := js "Agency setup is unavailable until your organization is loaded.".
Definition invalidDirectory : str :=
  js "The saved agency directory is invalid. It has been preserved; changes cannot be saved until it is repaired.".

Definition readDirectory (orgId : option str) (st : Storage) : DirectoryState :=
  match agencyDirectoryStorageKey orgId with
  | None => mkDirectoryState None [] (Some unavailable)
  | Some key =>
    match getItem key st with
    | Err _ => mkDirectoryState (Some key) []
        (Some (js "This browser could not read the agency directory. Check its storage settings."))
    | Ok None => mkDirectoryState (Some key) [] None
    | Ok (Some raw) =>
      match parse raw ≫= dec with
      | Some data =>
        if validDirectory orgId data then mkDirectoryState (Some key) (dd_agencies data) None
        else mkDirectoryState (Some key) [] (Some invalidDirectory)
      | None => mkDirectoryState (Some key) [] (Some invalidDirectory)
      end
    end
  end.

(** What the hook exposes while its subscription changes organization. *)
Definition shownDirectory (orgId : option str) (state : DirectoryState) (st : Storage) : DirectoryState :=
  if bool_decide (ds_key state = agencyDirectoryStorageKey orgId) then state else readDirectory orgId st.

(** The new storage, the new hook state, and the agencies when the change was saved. *)
Definition mutateDirectory (orgId : option str)
    (change : list AgencyProfile → result str (list AgencyProfile)) (st : Storage)
  : Storage * DirectoryState * option (list AgencyProfile) :=
  let latest := readDirectory orgId st in
  match ds_key latest, ds_error latest with
  | Some key, None =>
    match change (ds_agencies latest) with
    | Err e => (st, mkDirectoryState (ds_key latest) (ds_agencies latest) (Some e), None)
    | Ok agencies =>
      match setItem key (stringify (enc (mkDirectoryDocument 1 (default [] orgId) agencies))) st with
      | Err _ => (st, mkDirectoryState (ds_key latest) (ds_agencies latest)
          (Some (js "This browser could not save the agency directory. Your changes have not been saved.")), None)
      | Ok st' => (st', mkDirectoryState (Some key) agencies None, Some agencies)
      end
    end
  | _, _ => (st, latest, None)
  end.

Definition candidateOf (input : AgencyInput) (uuid : str) : AgencyProfile :=
  mkProfile (default uuid (ai_id input)) (clean (ai_name input)) (clean (ai_role input))
    (clean (ai_representative input)) (ai_active input).

Definition noLongerExists : str :=
  js "This agency no longer exists. Refresh the directory before editing.".
Definition saveChange (input : AgencyInput) (uuid : str) (agencies : list AgencyProfile)
  : result str (list AgencyProfile) :=
  let candidate := candidateOf input uuid in
  guard! negb (isProfile candidate) else js "Enter an agency name and role within the field limits." in
  guard! match ai_id input with
         | Some id => negb (existsb (λ item, streq (ag_id item) id) agencies) | None => false end
    else noLongerExists in
  guard! existsb (λ item, negb (streq (ag_id item) (ag_id candidate))
                          && streq (identityOf item) (identityOf candidate)) agencies
    else js "An agency with this name and role already exists. Edit or reactivate its existing entry." in
  guard! isEmpty (default [] (ai_id input)) && (MAX_AGENCIES <=? length agencies)%nat
    else js "This browser directory can store up to 500 agencies." in
  Ok (match ai_id input with
      | Some id => if truthy id then map (λ item, if streq (ag_id item) id then candidate else item) agencies
                   else agencies ++ [candidate]
      | None => agencies ++ [candidate]
      end).
Definition archived (item : AgencyProfile) : AgencyProfile :=
  mkProfile (ag_id item) (ag_name item) (ag_role item) (ag_representative item) false.
Definition archiveChange (id : str) (agencies : list AgencyProfile) : result str (list AgencyProfile) :=
  guard! negb (existsb (λ item, streq (ag_id item) id) agencies) else noLongerExists in
  Ok (map (λ item, if streq (ag_id item) id then archived item else item) agencies).

(** The hook's two callbacks. *)
Definition saveAgency (orgId : option str) (input : AgencyInput) (uuid : str) (st : Storage)
  : Storage * DirectoryState * option AgencyProfile :=
  let '(st', state, saved) := mutateDirectory orgId (saveChange input uuid) st in
  (st', state, match saved with Some _ => Some (candidateOf input uuid) | None => None end).
Definition archiveAgency (orgId : option str) (id : str) (st : Storage)
  : Storage * DirectoryState * option (list AgencyProfile) :=
  mutateDirectory orgId (archiveChange id) st.

(** ** The abstract directory *)

(** What users are promised: identities are added, edited in place and archived. *)
Inductive directoryStep : list AgencyProfile → list AgencyProfile → Prop :=
| step_add d p : isProfile p = true → ag_id p ∉ map ag_id d → identityOf p ∉ map identityOf d →
    (length d < MAX_AGENCIES)%nat → directoryStep d (d ++ [p])
| step_edit d1 old p d2 : isProfile p = true → ag_id p = ag_id old →
    identityOf p ∉ map identityOf (d1 ++ d2) → directoryStep (d1 ++ old :: d2) (d1 ++ p :: d2)
| step_archive d1 old d2 : directoryStep (d1 ++ old :: d2) (d1 ++ archived old :: d2).

Definition wellFormed (d : list AgencyProfile) : Prop :=
  (length d ≤ MAX_AGENCIES)%nat ∧ Forall (λ p, isProfile p = true) d ∧
  NoDup (map ag_id d) ∧ NoDup (map identityOf d).

Lemma NoDup_map_replace {A B} (f : A → B) l1 x y l2 : NoDup (map f (l1 ++ x :: l2)) →
  (f y = f x ∨ f y ∉ map f (l1 ++ l2)) → NoDup (map f (l1 ++ y :: l2)).
Proof.
  rewrite !map_app. cbn. rewrite <- !Permutation_middle. intros [Hx Hn]%NoDup_cons Hy.
  apply NoDup_cons. split; [|done]. destruct Hy as [->|Hy]; done.
Qed.

Lemma directoryStep_wellFormed d d' : wellFormed d → directoryStep d d' → wellFormed d'.
Proof.
  intros (Hl & Hp & Hi & Hk) Hs. destruct Hs as [d p P1 P2 P3 P4|d1 old p d2 P1 P2 P3|d1 old d2].
  - split_and!; [rewrite length_app; simpl; lia|by apply Forall_app_2; [|constructor]|..];
      rewrite map_app; apply NoDup_app; (split; [done|]); (split; [|apply NoDup_singleton]);
      by intros x Hx ->%list_elem_of_singleton.
  - apply Forall_app in Hp as [Hp1 [_ Hp2]%Forall_cons]. split_and!.
    + rewrite length_app in *. done.
    + apply Forall_app_2; [done|by constructor].
    + eapply NoDup_map_replace; [done|by left].
    + eapply NoDup_map_replace; [done|by right].
  - apply Forall_app in Hp as [Hp1 [Hp Hp2]%Forall_cons]. split_and!.
    + rewrite length_app in *. done.
    + apply Forall_app_2; [done|by constructor].
    + eapply NoDup_map_replace; [done|by left].
    + eapply NoDup_map_replace; [done|by left].
Qed.

(** Replacing the entry of an id in place. *)
Lemma map_replace (d : list AgencyProfile) id (g : AgencyProfile → AgencyProfile) : NoDup (map ag_id d) →
  existsb (λ item, streq (ag_id item) id) d = true →
  ∃ d1 old d2, d = d1 ++ old :: d2 ∧ ag_id old = id ∧
    map (λ item, if streq (ag_id item) id then g item else item) d = d1 ++ g old :: d2.
Proof.
  intros Hn (old & Hin & He%streq_true)%existsb_true.
  apply list_elem_of_split in Hin as (d1 & d2 & ->). exists d1, old, d2. split_and!; [done|done|].
  rewrite map_app. cbn. rewrite He, streq_refl. rewrite map_app in Hn. cbn in Hn.
  assert (Hid : ∀ l, (∀ x, x ∈ l → ag_id x ≠ id) →
    map (λ item, if streq (ag_id item) id then g item else item) l = l).
  { induction l as [|x l IH]; intros Hl; [done|]. cbn.
    rewrite (proj2 (streq_false _ _)) by (apply Hl, list_elem_of_here).
    f_equal. apply IH. intros y Hy. by apply Hl, list_elem_of_further. }
  apply NoDup_app in Hn as (_ & Hd & [Hold _]%NoDup_cons).
  rewrite !Hid; [done|..].
  - intros x Hx Hxe. apply Hold. apply list_elem_of_fmap. exists x. by rewrite Hxe, He.
  - intros x Hx Hxe. apply (Hd (ag_id x)); [apply list_elem_of_fmap; by exists x|].
    rewrite Hxe, He. apply list_elem_of_here.
Qed.

Lemma not_repeated (d1 d2 : list AgencyProfile) old p : NoDup (map ag_id (d1 ++ old :: d2)) →
  ag_id p = ag_id old →
  existsb (λ item, negb (streq (ag_id item) (ag_id p)) && streq (identityOf item) (identityOf p))
    (d1 ++ old :: d2) = false → identityOf p ∉ map identityOf (d1 ++ d2).
Proof.
  intros Hn Hid Hex (x & Hx & Hin)%list_elem_of_fmap.
  assert (Hne : ag_id x ≠ ag_id old).
  { intros Heq. rewrite map_app in Hn. cbn in Hn. rewrite <- Permutation_middle, <- map_app in Hn.
    apply NoDup_cons in Hn as [Hn _]. apply Hn, list_elem_of_fmap. by exists x. }
  assert (Hin' : x ∈ d1 ++ old :: d2) by (rewrite <- Permutation_middle; by apply list_elem_of_further).
  pose proof (proj1 (existsb_false _ _) Hex x Hin') as Hf. simpl in Hf.
  rewrite Hx, streq_refl, andb_true_r, Hid in Hf.
  apply negb_false_iff, streq_true in Hf. done.
Qed.

Lemma saveChange_step input uuid d d' : wellFormed d → (ai_id input = None → uuid ∉ map ag_id d) →
  saveChange input uuid d = Ok d' → directoryStep d d'.
Proof.
  intros (Hl & _ & Hi & _) Hfresh Hs. unfold saveChange in Hs. run_ok Hs.
  apply negb_false_iff in G. injection Hs as <-.
  assert (Hadd : ag_id (candidateOf input uuid) ∉ map ag_id d → isEmpty (default [] (ai_id input)) = true →
    directoryStep d (d ++ [candidateOf input uuid])).
  { intros Hnew He. rewrite He in G2. apply Nat.leb_gt in G2. apply step_add; [done|done| |done].
    intros (x & Hx & Hin)%list_elem_of_fmap.
    pose proof (proj1 (existsb_false _ _) G1 x Hin) as Hf. simpl in Hf.
    rewrite Hx, streq_refl, andb_true_r in Hf. apply negb_false_iff, streq_true in Hf.
    apply Hnew, list_elem_of_fmap. exists x. by rewrite Hf. }
  destruct (ai_id input) as [id|] eqn:Ei.
  - apply negb_false_iff in G0. destruct (truthy id) eqn:Et.
    + destruct (map_replace d id (λ _, candidateOf input uuid) Hi G0) as (d1 & old & d2 & -> & Ho & ->).
      assert (Hc : ag_id (candidateOf input uuid) = ag_id old) by (unfold candidateOf; by rewrite Ei).
      apply step_edit; [done|done|]. by apply (not_repeated d1 d2 old).
    + exfalso. unfold isProfile, candidateOf in G. rewrite Ei in G. simpl in G. by rewrite Et in G.
  - apply Hadd; [|done]. unfold candidateOf. rewrite Ei. simpl. by apply Hfresh.
Qed.

Lemma archiveChange_step id d d' : wellFormed d → archiveChange id d = Ok d' → directoryStep d d'.
Proof.
  intros (_ & _ & Hi & _) Hs. unfold archiveChange in Hs. run_ok Hs. apply negb_false_iff in G.
  injection Hs as <-. destruct (map_replace d id archived Hi G) as (d1 & old & d2 & -> & _ & ->).
  apply step_archive.
Qed.
End Directory.

(** ** The stored document *)

Section Stored.
Context `{Host}.

Lemma wellFormed_nil : wellFormed [].
Proof. split_and!; [simpl; lia|constructor..]. Qed.

Lemma validDirectory_iff o agencies : validDirectory (Some o) (mkDirectoryDocument 1 o agencies) = true ↔
  wellFormed agencies.
Proof.
  unfold validDirectory, wellFormed. cbn [dd_version dd_organizationId dd_agencies].
  rewrite bool_decide_eq_true_2 by done.
  rewrite !andb_true_iff, !negb_true_iff, !hasRepeats_false, forallb_true, Forall_forall, Nat.leb_le.
  tauto.
Qed.

Lemma readDirectory_wellFormed org st : wellFormed (ds_agencies (readDirectory org st)).
Proof.
  unfold readDirectory. destruct (agencyDirectoryStorageKey org) as [key|]; [|apply wellFormed_nil].
  destruct (getItem key st) as [[raw|]|]; try apply wellFormed_nil.
  destruct (parse raw ≫= dec) as [[v o a]|]; [|apply wellFormed_nil].
  destruct (validDirectory org _) eqn:Ev; [|apply wellFormed_nil]. simpl.
  assert (Hv : v = 1 ∧ org = Some o).
  { unfold validDirectory in Ev. rewrite !andb_true_iff in Ev. simpl in Ev.
    destruct Ev as (((((E1%Z.eqb_eq & E2%bool_decide_eq_true) & _) & _) & _) & _). done. }
  destruct Hv as [-> ->]. by apply validDirectory_iff in Ev.
Qed.

Lemma readDirectory_key org st : ds_key (readDirectory org st) = agencyDirectoryStorageKey org.
Proof.
  unfold readDirectory. destruct (agencyDirectoryStorageKey org) as [k|]; [|done].
  destruct (getItem k st) as [[raw|]|]; [|done|done].
  destruct (parse raw ≫= dec) as [data|]; [|done]. by destruct (validDirectory org data).
Qed.

Lemma readDirectory_written o key agencies st st' : agencyDirectoryStorageKey (Some o) = Some key →
  readable st = true → wellFormed agencies →
  setItem key (stringify (enc (mkDirectoryDocument 1 o agencies))) st = Ok st' →
  readDirectory (Some o) st' = mkDirectoryState (Some key) agencies None.
Proof.
  intros Hk Hr Hw Hs. unfold readDirectory. rewrite Hk, (getItem_setItem _ _ _ _ Hs), Hr.
  rewrite parse_stringify. cbn [mbind option_bind]. rewrite dec_enc.
  by rewrite (proj2 (validDirectory_iff o agencies) Hw).
Qed.

(** A change that follows the abstract directory is saved and read back, or nothing is. *)
Lemma mutateDirectory_spec o change st : readable st = true →
  (∀ d', change (ds_agencies (readDirectory (Some o) st)) = Ok d' →
     directoryStep (ds_agencies (readDirectory (Some o) st)) d') →
  let '(st', state, saved) := mutateDirectory (Some o) change st in
  match saved with
  | Some d' => readable st' = true ∧ readDirectory (Some o) st' = state ∧ ds_error state = None ∧
      ds_agencies state = d' ∧ change (ds_agencies (readDirectory (Some o) st)) = Ok d' ∧
      directoryStep (ds_agencies (readDirectory (Some o) st)) d'
  | None => st' = st ∧ ds_error state ≠ None
  end.
Proof.
  intros Hr Hc. pose proof (readDirectory_wellFormed (Some o) st) as Hw. unfold mutateDirectory.
  destruct (ds_error (readDirectory (Some o) st)) as [e|] eqn:Ee.
  { destruct (ds_key _); (split; [done|congruence]). }
  destruct (ds_key (readDirectory (Some o) st)) as [key|] eqn:Ek.
  - destruct (change _) as [d'|e] eqn:Ech; [|done].
    assert (Hkey : agencyDirectoryStorageKey (Some o) = Some key).
    { by rewrite readDirectory_key in Ek. }
    cbn [from_option id]. destruct (setItem _ _ st) as [st'|] eqn:Es; [|done].
    specialize (Hc _ eq_refl). split_and!; try done.
    + by apply setItem_Ok in Es as (_ & _ & -> & _).
    + eapply readDirectory_written; try done. by eapply directoryStep_wellFormed.
  - exfalso. rewrite readDirectory_key in Ek. unfold readDirectory in Ee. by rewrite Ek in Ee.
Qed.

(** Calls of the two callbacks, with the id the browser generates for a new agency. *)
Inductive DirectoryCall := call_save (input : AgencyInput) (uuid : str) | call_archive (id : str).
Definition runCall (orgId : option str) (call : DirectoryCall) (st : Storage) : Storage :=
  match call with
  | call_save input uuid => (saveAgency orgId input uuid st).1.1
  | call_archive id => (archiveAgency orgId id st).1.1
  end.
Definition runCalls (orgId : option str) (calls : list DirectoryCall) (st : Storage) : Storage :=
  foldl (λ st call, runCall orgId call st) st calls.
Definition newIds (calls : list DirectoryCall) : list str :=
  omap (λ call, match call with
    | call_save input uuid => match ai_id input with None => Some uuid | Some _ => None end
    | call_archive _ => None end) calls.

Lemma saveChange_ids input uuid d d' : saveChange input uuid d = Ok d' →
  ∀ id, id ∈ map ag_id d' → id ∈ map ag_id d ∨ id ∈ newIds [call_save input uuid].
Proof.
  unfold saveChange. intros Hs. run_ok Hs. injection Hs as <-. apply negb_false_iff in G.
  intros id (x & -> & Hin)%list_elem_of_fmap. destruct (ai_id input) as [i|] eqn:Ei.
  - destruct (truthy i) eqn:Et.
    + apply list_elem_of_fmap in Hin as (y & -> & Hy). left. apply list_elem_of_fmap. exists y.
      split; [|done]. destruct (streq (ag_id y) i) eqn:Ey; [|done]. apply streq_true in Ey.
      unfold candidateOf. by rewrite Ei.
    + exfalso. unfold isProfile, candidateOf in G. rewrite Ei in G. simpl in G. by rewrite Et in G.
  - apply elem_of_app in Hin as [Hin| ->%list_elem_of_singleton]; [left; apply list_elem_of_fmap; eauto|right].
    unfold newIds, candidateOf. simpl. rewrite Ei. apply list_elem_of_here.
Qed.

Lemma archiveChange_ids id d d' : archiveChange id d = Ok d' → map ag_id d' = map ag_id d.
Proof.
  unfold archiveChange. intros Hs. run_ok Hs. injection Hs as <-. rewrite map_map. apply map_ext.
  intros x. by destruct (streq (ag_id x) id).
Qed.

(** One call: nothing is written, or the stored directory makes one abstract step. *)
Lemma runCall_step o call st : readable st = true →
  (∀ id, id ∈ newIds [call] → id ∉ map ag_id (ds_agencies (readDirectory (Some o) st))) →
  readable (runCall (Some o) call st) = true ∧
  (runCall (Some o) call st = st ∨
   directoryStep (ds_agencies (readDirectory (Some o) st))
     (ds_agencies (readDirectory (Some o) (runCall (Some o) call st)))) ∧
  (∀ id, id ∈ map ag_id (ds_agencies (readDirectory (Some o) (runCall (Some o) call st))) →
     id ∈ map ag_id (ds_agencies (readDirectory (Some o) st)) ∨ id ∈ newIds [call]).
Proof.
  intros Hr Hfresh. pose proof (readDirectory_wellFormed (Some o) st) as Hw.
  set (change := match call with call_save input uuid => saveChange input uuid | call_archive id => archiveChange id end).
  assert (Hrun : runCall (Some o) call st = (mutateDirectory (Some o) change st).1.1).
  { destruct call; [|done]. simpl. unfold saveAgency. by destruct (mutateDirectory _ _ _) as [[? ?] ?]. }
  assert (Hstep : ∀ d', change (ds_agencies (readDirectory (Some o) st)) = Ok d' →
    directoryStep (ds_agencies (readDirectory (Some o) st)) d' ∧
    ∀ id, id ∈ map ag_id d' → id ∈ map ag_id (ds_agencies (readDirectory (Some o) st)) ∨ id ∈ newIds [call]).
  { intros d' Hd. unfold change in Hd. destruct call as [input uuid|id].
    - split; [|by apply saveChange_ids]. eapply saveChange_step; [done| |done]. intros Hi. apply Hfresh.
      unfold newIds. simpl. rewrite Hi. apply list_elem_of_here.
    - split; [by eapply archiveChange_step|]. rewrite (archiveChange_ids _ _ _ Hd). by left. }
  pose proof (mutateDirectory_spec o change st Hr (λ d' Hd, proj1 (Hstep d' Hd))) as Hm.
  rewrite Hrun. destruct (mutateDirectory (Some o) change st) as [[st' state] [d'|]]; cbn [fst] in *.
  - destruct Hm as (H1 & H2 & _ & H3 & H4 & H5). rewrite H2, H3. split_and!; [done|by right|].
    by apply Hstep.
  - destruct Hm as [-> _]. split_and!; [done|by left|by left].
Qed.

(** C24. The stored directory refines the abstract one: whatever sequence of saves and
    archivings is run, with the identifiers the browser generates new, what the store reads
    back evolves only by abstract steps (an agency added under a new identity, one edited
    in place or archived) and is always well-formed: at most 500 valid agencies with
    distinct ids and distinct name-and-role identities, so a write never leaves a document
    that cannot be read. *)
Theorem directory_refines (o : str) (calls : list DirectoryCall) (st : Storage)
    (Hreadable : readable st = true) (Hdistinct : NoDup (newIds calls))
    (Hnew : ∀ id, id ∈ newIds calls → id ∉ map ag_id (ds_agencies (readDirectory (Some o) st))) :
  rtc directoryStep (ds_agencies (readDirectory (Some o) st))
    (ds_agencies (readDirectory (Some o) (runCalls (Some o) calls st))) ∧
  wellFormed (ds_agencies (readDirectory (Some o) (runCalls (Some o) calls st))).
Proof.
  split; [|apply readDirectory_wellFormed].
  revert st Hreadable Hnew. induction calls as [|call calls IH]; intros st Hr Hnew; [apply rtc_refl|].
  assert (Hids : newIds (call :: calls) = newIds [call] ++ newIds calls) by (apply (omap_app _ [call])).
  rewrite Hids in Hdistinct, Hnew. apply NoDup_app in Hdistinct as (_ & Hdis & Hnd).
  destruct (runCall_step o call st Hr) as (Hr' & Hs & Hids').
  { intros id Hin. apply Hnew, elem_of_app. by left. }
  specialize (IH Hnd (runCall (Some o) call st) Hr'). cbn [runCalls foldl] in *. fold (runCalls (Some o) calls) in *.
  assert (IH' := IH ltac:(intros id Hin [Hold|Hold]%Hids'; [apply (Hnew id); [apply elem_of_app; by right|done]|by apply (Hdis id)])).
  destruct Hs as [He|Hs]; [by rewrite He in *|]. by eapply rtc_l.
Qed.
End Stored.

Definition newAgency (name role : str) : AgencyInput := mkAgencyInput None name role (js "Ada") true.
Lemma directory_refines_witness :
  wellFormed (H := asciiHost) (ds_agencies (readDirectory (H := asciiHost) (Some (js "org-1"))
    (runCalls (H := asciiHost) (Some (js "org-1"))
      [call_save (newAgency (js " Customs ") (js "Agent")) (js "u1");
       call_save (newAgency (js "customs") (js "AGENT")) (js "u2"); call_archive (js "u1")] emptyStorage)))
  ∧ ds_agencies (readDirectory (H := asciiHost) (Some (js "org-1"))
      (runCalls (H := asciiHost) (Some (js "org-1"))
      [call_save (newAgency (js " Customs ") (js "Agent")) (js "u1");
       call_save (newAgency (js "customs") (js "AGENT")) (js "u2"); call_archive (js "u1")] emptyStorage))
    = [mkProfile (js "u1") (js "Customs") (js "Agent") (js "Ada") false].
Proof.
  split; [|vm_compute; reflexivity].
  apply (directory_refines (H := asciiHost)).
  - reflexivity.
  - apply (bool_decide_unpack _). vm_compute. exact I.
  - intros id _. apply not_elem_of_nil.
Defined.
