(* ===== verification/AgencyDirectory.v ===== *)
(** * The server's agency directory (frontend/src/measurements/agencyDirectory.ts)

    The hook as a machine: its rendered state, the refs that survive a render
    ([sequence], [busy], [activeOrg]) and the requests it is waiting for.  A callback
    closes over the organization of the render that made it. *)
From S2P Require Import Prelude JsString Json Codec Uri Tariffs Endpoints ApiClient.

(** [AgencyProfile] of types.ts: the server's [version] may be absent. *)
Record Agency := mkAgency {
  sa_id : str; sa_name : str; sa_role : str; sa_representative : str; sa_active : bool;
  sa_version : option Z }.
Record AgencyChange := mkAgencyChange {
  ac_id : option str; ac_name : str; ac_role : str; ac_representative : str; ac_active : bool;
  ac_version : option Z }.

(** ** What an error shows *)

Fixpoint elementText (j : json) : str :=
  match j with
  | JNull => []
  | JBool b => if b then js "true" else js "false"
  | JNum n => printZ n
  | JStr s => s
  | JArr l => join [cComma] (map elementText l)
  | JObj _ => js "[object Object]"
  end.
(** [Object.values(errors)] *)
Definition objectValues (j : json) : list json :=
  match j with
  | JStr s => map (λ c, JStr [c]) s
  | j => match objectEntries j with Some es => es.*2 | None => [] end
  end.
Definition flatOnce (l : list json) : list json :=
  flat_map (λ j, match j with JArr l => l | j => [j] end) l.
(** A rejection is an [ApiError] or another [Error] with its message. *)
Definition errorText (e : ApiError + str) : str :=
  match e with
  | inl e => match objectValues (ae_errors e) with
             | [] => ae_message e
             | vs => join [cSpace] (map elementText (flatOnce vs)) end
  | inr message => message
  end.

(** ** The hook *)

Record HookState := mkHookState {
  hs_orgId : option str; hs_agencies : list Agency; hs_loading : bool; hs_error : option str }.
(** [reloads]: the ticket and organization of each reload under way; [saves]: the
    organization of each save under way. *)
Record Hook := mkHook {
  h_activeOrg : option str; h_state : HookState; h_saving : bool; h_sequence : Z; h_busy : bool;
  h_reloads : list (Z * str); h_saves : list str }.

Definition withState (h : Hook) (s : HookState) : Hook :=
  mkHook (h_activeOrg h) s (h_saving h) (h_sequence h) (h_busy h) (h_reloads h) (h_saves h).

Definition orgTruthy (orgId : option str) : bool := truthy (default [] orgId).

(** [reload] of a render for [orgId]: its ticket is taken even without an organization. *)
Definition reload (orgId : option str) (h : Hook) : Hook :=
  let ticket := h_sequence h + 1 in
  mkHook (h_activeOrg h) (h_state h) (h_saving h) ticket (h_busy h)
    (if orgTruthy orgId then h_reloads h ++ [(ticket, default [] orgId)] else h_reloads h) (h_saves h).

(** First render and its effect. *)
Definition mountHook (orgId : option str) : Hook :=
  reload orgId (mkHook orgId (mkHookState orgId [] (orgTruthy orgId) None) false 0 false [] []).

(** A render for another organization: the old effect's cleanup, then the new effect. *)
Definition renderHook (orgId : option str) (h : Hook) : Hook :=
  if bool_decide (h_activeOrg h = orgId) then h else
  reload orgId (mkHook orgId (h_state h) (h_saving h) (h_sequence h + 1) (h_busy h)
    (h_reloads h) (h_saves h)).

Definition shownAgencies (h : Hook) : list Agency :=
  if bool_decide (hs_orgId (h_state h) = h_activeOrg h) then hs_agencies (h_state h) else [].

(** The answer to the reload [ticket] for [org] leaves the list of those waited for. *)
Definition dropReload (ticket : Z) (l : list (Z * str)) : list (Z * str) :=
  filterb (λ r, negb (r.1 =? ticket)) l.
Definition reloadAnswered (ticket : Z) (org : str) (r : result (ApiError + str) (list Agency)) (h : Hook) : Hook :=
  let h := mkHook (h_activeOrg h) (h_state h) (h_saving h) (h_sequence h) (h_busy h)
             (dropReload ticket (h_reloads h)) (h_saves h) in
  if (ticket =? h_sequence h) && bool_decide (h_activeOrg h = Some org) then
    match r with
    | Ok agencies => withState h (mkHookState (Some org) agencies false None)
    | Err e => withState h (mkHookState (Some org)
        (if bool_decide (hs_orgId (h_state h) = Some org) then hs_agencies (h_state h) else [])
        false (Some (errorText e)))
    end
  else h.

(** [window.dispatchEvent(EVENT, org)], as this hook's listener hears it. *)
Definition agenciesChanged (org : str) (h : Hook) : Hook :=
  if bool_decide (h_activeOrg h = Some org) then reload (h_activeOrg h) h else h.

Definition agencyCall (input : AgencyChange) : Call :=
  let payload := body [(js "id", JStr <$> ac_id input); fld "name" (ac_name input);
    fld "role" (ac_role input); fld "representative" (ac_representative input);
    fld "active" (ac_active input); ofld "version" (ac_version input)] in
  if orgTruthy (ac_id input)
  then send "PATCH" [Lit "api"; Lit "agencies"; Enc (default [] (ac_id input))] payload
  else send "POST" [Lit "api"; Lit "agencies"] payload.

Definition reloadFirst : str := js "Reload this agency before editing it.".
(** [saveAgency] of a render for [orgId]: the request made, if any. *)
Definition saveAgency (orgId : option str) (input : AgencyChange) (h : Hook) : Hook * option Call :=
  if negb (orgTruthy orgId) || h_busy h || negb (bool_decide (h_activeOrg h = orgId)) then (h, None)
  else if orgTruthy (ac_id input) && match ac_version input with Some v => v =? 0 | None => true end then
    (withState h (mkHookState (hs_orgId (h_state h)) (hs_agencies (h_state h)) (hs_loading (h_state h))
       (Some reloadFirst)), None)
  else (mkHook (h_activeOrg h) (h_state h) true (h_sequence h) true (h_reloads h)
          (h_saves h ++ [default [] orgId]), Some (agencyCall input)).

Definition saveAnswered (org : str) (r : result (ApiError + str) Agency) (h : Hook) : Hook :=
  let settled h := mkHook (h_activeOrg h) (h_state h) false (h_sequence h) false (h_reloads h)
                     (filterb (λ o, negb (streq o org)) (h_saves h)) in
  if negb (bool_decide (h_activeOrg h = Some org)) then settled h else
  match r with
  | Ok agency =>
    let current := if bool_decide (hs_orgId (h_state h) = Some org) then hs_agencies (h_state h) else [] in
    let h := withState h (mkHookState (Some org)
      (filterb (λ item, negb (streq (sa_id item) (sa_id agency))) current ++ [agency]) false None) in
    settled (agenciesChanged org h)
  | Err e =>
    settled (withState h (mkHookState (hs_orgId (h_state h)) (hs_agencies (h_state h))
      (hs_loading (h_state h)) (Some (errorText e))))
  end.

Definition archiveAgency (orgId : option str) (id : str) (h : Hook) : Hook * option Call :=
  match findb (λ item, streq (sa_id item) id) (shownAgencies h) with
  | Some a => saveAgency orgId (mkAgencyChange (Some (sa_id a)) (sa_name a) (sa_role a)
      (sa_representative a) false (sa_version a)) h
  | None => (h, None)
  end.

Definition hookLoading (h : Hook) : bool :=
  negb (bool_decide (hs_orgId (h_state h) = h_activeOrg h)) || hs_loading (h_state h).
Definition hookError (h : Hook) : option str :=
  if orgTruthy (h_activeOrg h)
  then (if bool_decide (hs_orgId (h_state h) = h_activeOrg h) then hs_error (h_state h) else None)
  else Some (js "Agency setup is unavailable until your organization is loaded.").

(** ** Runs *)

(** The effect's cleanup when the component leaves. *)
Definition unmountHook (h : Hook) : Hook :=
  mkHook (h_activeOrg h) (h_state h) (h_saving h) (h_sequence h + 1) (h_busy h) (h_reloads h) (h_saves h).

Section Runs.
(** [belongs o a]: what the server answers a request made for the organization [o]. *)
Context (belongs : str → Agency → Prop).

(** Renders, callbacks of the current render, events of other components, answers. *)
Inductive hookStep : Hook → Hook → Prop :=
| s_render orgId h : hookStep h (renderHook orgId h)
| s_reload h : hookStep h (reload (h_activeOrg h) h)
| s_changed org h : hookStep h (agenciesChanged org h)
| s_save orgId input h : hookStep h (saveAgency orgId input h).1
| s_archive orgId id h : hookStep h (archiveAgency orgId id h).1
| s_reloadAnswered ticket org r h : (ticket, org) ∈ h_reloads h →
    (∀ l, r = Ok l → Forall (belongs org) l) → hookStep h (reloadAnswered ticket org r h)
| s_saveAnswered org r h : org ∈ h_saves h → (∀ a, r = Ok a → belongs org a) →
    hookStep h (saveAnswered org r h).
Definition hookReachable (h : Hook) : Prop := ∃ orgId, rtc hookStep (mountHook orgId) h.

Record hookInv (h : Hook) : Prop := {
  inv_owned : ∀ a, a ∈ hs_agencies (h_state h) → ∃ o, hs_orgId (h_state h) = Some o ∧ belongs o a;
  inv_tickets : ∀ t o, (t, o) ∈ h_reloads h → t <= h_sequence h;
  inv_newest : ∀ o, (h_sequence h, o) ∈ h_reloads h → h_activeOrg h = Some o;
  inv_loading : orgTruthy (h_activeOrg h) = true → hookLoading h = true →
    ∃ o, h_activeOrg h = Some o ∧ (h_sequence h, o) ∈ h_reloads h;
  inv_saves : (length (h_saves h) ≤ 1)%nat;
  inv_busy : h_busy h = negb (Nat.eqb (length (h_saves h)) 0);
  inv_saving : h_saving h = h_busy h }.

Lemma orgTruthy_Some orgId : orgTruthy orgId = true → orgId = Some (default [] orgId).
Proof. by destruct orgId. Qed.

(** A reload for the active organization keeps the invariant of a state without its clauses
    on tickets. *)
Lemma reload_inv h :
  (∀ a, a ∈ hs_agencies (h_state h) → ∃ o, hs_orgId (h_state h) = Some o ∧ belongs o a) →
  (∀ t o, (t, o) ∈ h_reloads h → t <= h_sequence h) →
  (length (h_saves h) ≤ 1)%nat → h_busy h = negb (Nat.eqb (length (h_saves h)) 0) →
  h_saving h = h_busy h → hookInv (reload (h_activeOrg h) h).
Proof.
  intros H1 H2 H3 H4 H5. unfold reload. split; cbn [h_state h_reloads h_sequence h_activeOrg h_saves h_busy h_saving]; try done.
  - destruct (orgTruthy _); [|intros t o Hin%H2; lia].
    intros t o [Hin%H2|[= -> ->]%list_elem_of_singleton]%elem_of_app; lia.
  - destruct (orgTruthy (h_activeOrg h)) eqn:Et; [|intros o Hin%H2; lia].
    intros o [Hin%H2|[= ->]%list_elem_of_singleton]%elem_of_app; [lia|by apply orgTruthy_Some].
  - intros Et _. rewrite Et. exists (default [] (h_activeOrg h)). split; [by apply orgTruthy_Some|].
    apply elem_of_app. right. by apply list_elem_of_singleton.
Qed.

Lemma mountHook_inv orgId : hookInv (mountHook orgId).
Proof.
  unfold mountHook. match goal with |- hookInv (reload _ ?h) => apply (reload_inv h) end;
    cbn; try done; try lia; [intros a Hin|intros t o Hin]; by apply elem_of_nil in Hin.
Qed.

Lemma render_inv orgId h : hookInv h → hookInv (renderHook orgId h).
Proof.
  intros Hi. unfold renderHook. case_bool_decide; [done|].
  match goal with |- hookInv (reload _ ?h) => apply (reload_inv h) end; cbn; try apply Hi.
  intros t o Hin%(inv_tickets _ Hi). lia.
Qed.

Lemma changed_inv org h : hookInv h → hookInv (agenciesChanged org h).
Proof. intros Hi. unfold agenciesChanged. case_bool_decide; [|done]. apply reload_inv; apply Hi. Qed.

(** Replacing the rendered state by one for the active organization that has loaded. *)
Lemma withState_inv s h : hookInv h →
  (∀ a, a ∈ hs_agencies s → ∃ o, hs_orgId s = Some o ∧ belongs o a) →
  (hs_orgId s = h_activeOrg h ∧ hs_loading s = false ∨
   hs_orgId s = hs_orgId (h_state h) ∧ hs_loading s = hs_loading (h_state h)) →
  hookInv (withState h s).
Proof.
  intros [] Hs Hl. split; cbn [withState h_state h_reloads h_sequence h_activeOrg h_saves h_busy h_saving]; try done.
  intros Ht Hload. apply inv_loading0; [done|]. revert Hload. unfold hookLoading. cbn.
  destruct Hl as [[-> ->]|[-> ->]]; [|done]. by rewrite bool_decide_eq_true_2.
Qed.

Lemma save_inv orgId input h : hookInv h → hookInv (saveAgency orgId input h).1.
Proof.
  intros Hi. unfold saveAgency. destruct (negb _ || _ || _) eqn:Eg; [done|].
  apply orb_false_iff in Eg as [[_ Hb]%orb_false_iff _]. destruct (_ && _).
  - apply withState_inv; [done|apply Hi|by right].
  - pose proof (inv_busy _ Hi) as Hbusy. rewrite Hb in Hbusy.
    destruct (h_saves h) as [|? ?] eqn:Es; [|done]. destruct Hi. split; cbn; try done.
Qed.

Lemma dropReload_elem t t' o l : (t, o) ∈ dropReload t' l ↔ (t, o) ∈ l ∧ t ≠ t'.
Proof. unfold dropReload. rewrite elem_of_filterb. simpl. rewrite negb_true_iff, Z.eqb_neq. done. Qed.

Lemma reloadAnswered_inv ticket org r h : hookInv h → (ticket, org) ∈ h_reloads h →
  (∀ l, r = Ok l → Forall (belongs org) l) → hookInv (reloadAnswered ticket org r h).
Proof.
  intros Hi Hin Hr. unfold reloadAnswered. cbn [h_sequence h_activeOrg].
  destruct (Z.eqb_spec ticket (h_sequence h)) as [->|Hne]; cbn [andb].
  - pose proof (inv_newest _ Hi _ Hin) as Ha. rewrite (bool_decide_eq_true_2 _ Ha). cbn [h_state].
    destruct Hi. destruct r as [l|e]; split; cbn; try done;
      try (intros * [Hr' Hne]%dropReload_elem; solve [eauto|done]).
    + specialize (Hr l eq_refl). rewrite Forall_forall in Hr. intros a Ha'. exists org. auto.
    + intros _ Hload. exfalso. revert Hload. unfold hookLoading. cbn. rewrite Ha.
      by rewrite bool_decide_eq_true_2.
    + case_bool_decide as Ho; [|by intros a ?%elem_of_nil]. rewrite <- Ho. apply inv_owned0.
    + intros _ Hload. exfalso. revert Hload. unfold hookLoading. cbn. rewrite Ha.
      by rewrite bool_decide_eq_true_2.
  - destruct Hi. split; cbn; try done.
    + intros t o [Hr' _]%dropReload_elem. eauto.
    + intros o [Hr' _]%dropReload_elem. eauto.
    + intros Ht Hl. destruct (inv_loading0 Ht Hl) as (o & Ho & Ho'). exists o. split; [done|].
      apply dropReload_elem. split; [done|congruence].
Qed.

Lemma only_save h org : hookInv h → org ∈ h_saves h → h_saves h = [org].
Proof.
  intros Hi Hin. pose proof (inv_saves _ Hi). destruct (h_saves h) as [|o [|o' l]]; simpl in *;
    [by apply elem_of_nil in Hin| |lia]. apply list_elem_of_singleton in Hin. by subst.
Qed.

(** The [finally] of a save: nothing is saved any more. *)
Lemma settled_inv h org : hookInv h → h_saves h = [org] →
  hookInv (mkHook (h_activeOrg h) (h_state h) false (h_sequence h) false (h_reloads h)
    (filterb (λ o, negb (streq o org)) (h_saves h))).
Proof.
  intros [] ->. cbn [List.filter]. rewrite streq_refl. by split; cbn; try lia.
Qed.

Lemma changed_saves org h : h_saves (agenciesChanged org h) = h_saves h.
Proof. unfold agenciesChanged. by case_bool_decide. Qed.

Lemma saveAnswered_inv org r h : hookInv h → org ∈ h_saves h → (∀ a, r = Ok a → belongs org a) →
  hookInv (saveAnswered org r h).
Proof.
  intros Hi Hin Hr. pose proof (only_save h org Hi Hin) as Hs. unfold saveAnswered.
  case_bool_decide as Ha; [|by apply settled_inv]. cbn [negb]. destruct r as [agency|e].
  - apply settled_inv; [|by rewrite changed_saves]. apply changed_inv.
    apply withState_inv; [done| |left; by rewrite Ha]. cbn. intros a [Ha'|Ha']%elem_of_app.
    + apply elem_of_filterb in Ha' as [Ha' _]. case_bool_decide as Ho; [|by apply elem_of_nil in Ha'].
      rewrite <- Ho. by apply (inv_owned _ Hi).
    + apply list_elem_of_singleton in Ha' as ->. exists org. auto.
  - apply settled_inv; [|done]. apply withState_inv; [done|apply Hi|by right].
Qed.

Lemma hookStep_inv h h' : hookInv h → hookStep h h' → hookInv h'.
Proof.
  intros Hi Hs. destruct Hs.
  - by apply render_inv.
  - apply reload_inv; apply Hi.
  - by apply changed_inv.
  - by apply save_inv.
  - unfold archiveAgency. destruct (findb _ _); [by apply save_inv|done].
  - by apply reloadAnswered_inv.
  - by apply saveAnswered_inv.
Qed.

Lemma hookReachable_inv h : hookReachable h → hookInv h.
Proof.
  intros [orgId Hr]. revert Hr. generalize (mountHook_inv orgId). generalize (mountHook orgId).
  intros h0 Hi Hr. induction Hr as [h|h1 h2 h3 Hs _ IH]; [done|]. by eapply IH, hookStep_inv.
Qed.

(** C25. Whatever the order in which renders, saves, archivings, events and answers
    interleave, an agency that is shown was answered to a request made for the
    organization now shown, and at most one save is under way, exactly while the screen
    says so. *)
Theorem directory_isolated h (Hreach : hookReachable h) :
  (∀ a, a ∈ shownAgencies h → ∃ o, h_activeOrg h = Some o ∧ belongs o a) ∧
  (length (h_saves h) ≤ 1)%nat ∧ (h_saving h = true ↔ h_saves h ≠ []).
Proof.
  apply hookReachable_inv in Hreach as []. split_and!; [|done|].
  - unfold shownAgencies. case_bool_decide as Ho; [|by intros a ?%elem_of_nil].
    intros a Hin. rewrite <- Ho. auto.
  - rewrite inv_saving0, inv_busy0. destruct (h_saves h); simpl; naive_solver.
Qed.

(** Loading ends: while a loaded organization's directory is shown as loading, the
    newest reload is still waited for, and any answer to it, a failure included, ends the
    loading; an answer to any other reload changes nothing that is shown. *)
Theorem directory_loading_ends h (Hreach : hookReachable h) (Horg : orgTruthy (h_activeOrg h) = true)
    (Hloading : hookLoading h = true) :
  ∃ ticket o, (ticket, o) ∈ h_reloads h ∧
    (∀ r, hookLoading (reloadAnswered ticket o r h) = false) ∧
    (∀ t o' r, (t, o') ∈ h_reloads h → t ≠ ticket →
       h_state (reloadAnswered t o' r h) = h_state h).
Proof.
  apply hookReachable_inv in Hreach as Hi. destruct (inv_loading _ Hi Horg Hloading) as (o & Ho & Hin).
  exists (h_sequence h), o. split_and!; [done|..].
  - intros r. unfold reloadAnswered. cbn [h_sequence h_activeOrg]. rewrite Z.eqb_refl.
    rewrite (bool_decide_eq_true_2 _ Ho). cbn [andb]. unfold hookLoading.
    destruct r; cbn; by rewrite Ho, bool_decide_eq_true_2.
  - intros t o' r _ Hne. unfold reloadAnswered. cbn [h_sequence]. by rewrite (proj2 (Z.eqb_neq _ _) Hne).
Qed.
End Runs.

(** ** Switching organization while answers are under way *)

Definition sampleAgency (id : str) : Agency := mkAgency id (js "Customs") (js "Agent") [] true (Some 1).
Definition agencyOf (o : str) (a : Agency) : Prop := o = js "A" ∧ sa_id a = js "a1" ∨ o = js "B" ∧ sa_id a = js "b1".
Definition switched : Hook :=
  reloadAnswered 1 (js "A") (Ok [sampleAgency (js "a1")])
    (renderHook (Some (js "B")) (mountHook (Some (js "A")))).

Lemma switched_reachable : hookReachable agencyOf switched.
Proof.
  exists (Some (js "A")). eapply rtc_l; [apply (s_render agencyOf (Some (js "B")))|].
  apply rtc_once, s_reloadAnswered; [vm_compute; apply list_elem_of_here|].
  intros l [= <-]. apply Forall_singleton. by left.
Qed.

Lemma directory_isolated_witness :
  hookReachable agencyOf switched ∧
  ∀ a, a ∈ shownAgencies switched → ∃ o, h_activeOrg switched = Some o ∧ agencyOf o a.
Proof.
  split; [exact switched_reachable|]. exact (proj1 (directory_isolated agencyOf switched switched_reachable)).
Defined.
Lemma directory_loading_ends_witness :
  ∃ ticket o, (ticket, o) ∈ h_reloads switched ∧ ∀ r, hookLoading (reloadAnswered ticket o r switched) = false.
Proof.
  destruct (directory_loading_ends agencyOf switched switched_reachable) as (t & o & H1 & H2 & _);
    [reflexivity|reflexivity|].
  exists t, o. split; [exact H1|exact H2].
Defined.
