(* ===== verification/GuestPortal.v ===== *)
(** * The agency portal's client (frontend/src/measurements/guestApi.ts, guestTypes.ts)

    An agency opens a link, reads its form and submits a reading without a staff session.
    Each function of the client is a program of requests: one request at a time, going on
    with whatever the server or the network makes of it.  What the server answers is
    JSON the code has not validated, read property by property. *)
From S2P Require Import Prelude JsString Json Codec MeasurementTypes Host Samples Uri Endpoints AgencyDirectory.

(** ** Data *)

Record GuestReadingInput := mkGuestInput {
  gi_representative : str; gi_observedAt : str; gi_sourceReference : str; gi_notes : str;
  gi_lines : list SubmissionLine }.
(** What [submit] uses of the [GuestPortalContext] the form was opened with. *)
Record GuestContext := mkGuestContext {
  gc_contextId : str; gc_agencyId : str; gc_inputFingerprint : str }.

Definition guestInputFields (input : GuestReadingInput) : fields :=
  [fld "representative" (gi_representative input); fld "observedAt" (gi_observedAt input);
   fld "sourceReference" (gi_sourceReference input); fld "notes" (gi_notes input);
   fld "lines" (gi_lines input)].

(** ** JSON the code has not validated *)

Definition truthyJson (j : option json) : bool :=
  match j with
  | None | Some JNull => false
  | Some (JBool b) => b
  | Some (JNum n) => negb (n =? 0)
  | Some (JStr s) => truthy s
  | Some _ => true
  end.
Definition isString (j : option json) : bool := match j with Some (JStr _) => true | _ => false end.
Definition isArray (j : option json) : bool := match j with Some (JArr _) => true | _ => false end.
(** [value === s] for a string *)
Definition equalsStr (j : option json) (s : str) : bool :=
  match j with Some (JStr t) => streq t s | _ => false end.
(** [value?.key], absent when [value] is. *)
Definition prop (k : string) (j : option json) : option json := j ≫= jget (js k).

(** ** Requests, answers and programs *)

Record GuestRequest := mkGuestRequest {
  gr_path : str; gr_method : str; gr_accept : str; gr_csrf : option str; gr_body : option json }.
(** The request fails or times out, or is answered: [None] is a body that is not JSON. *)
Inductive GuestAnswer :=
| ga_lost
| ga_response (status : Z) (body : option json) (contentType : option str).
(** [GuestPortalError], or the [TypeError] of reading a property of [null]. *)
Inductive GuestFailure := portalError (message : str) (status : Z) | typeError.

Inductive Guest (T : Type) : Type :=
| gret (t : T)
| gfail (e : GuestFailure)
| gask (q : GuestRequest) (k : GuestAnswer → Guest T).
Arguments gret {T} t.
Arguments gfail {T} e.
Arguments gask {T} q k.

Fixpoint gbind {T U} (m : Guest T) (k : T → Guest U) : Guest U :=
  match m with
  | gret t => k t
  | gfail e => gfail e
  | gask q k' => gask q (λ a, gbind (k' a) k)
  end.
(** [try { m } catch (e) { h(e) }] *)
Fixpoint gcatch {T} (m : Guest T) (h : GuestFailure → Guest T) : Guest T :=
  match m with
  | gret t => gret t
  | gfail e => h e
  | gask q k => gask q (λ a, gcatch (k a) h)
  end.
Notation "'let*' x ':=' m 'in' k" := (gbind m (λ x, k))
  (at level 10, x pattern, m at level 100, k at level 200) : vessel_scope.
Definition gthrow {T} (message : string) (status : Z) : Guest T := gfail (portalError (js message) status).
Definition gguard (c : bool) (message : string) (status : Z) : Guest unit :=
  if c then gthrow message status else gret tt.

(** ** The client *)

Definition ROOT : str := js "/api/agency-portal".
Definition withContext (path : str) (contextId : str) : str :=
  ROOT ++ [cSlash] ++ path
  ++ (if truthy contextId then [63%N] ++ searchParams [(js "contextId", contextId)] else []).

Definition isOk (status : Z) : bool := (200 <=? status) && (status <=? 299).
Definition refusal (status : Z) (body : option json) : str :=
  if status =? 404 then js "Agency reading links are not available on this environment yet." else
  match prop "detail" body, prop "error" body with
  | Some (JStr m), _ => m
  | _, Some (JStr m) => m
  | _, _ => js "The agency request could not be completed (" ++ printZ status ++ js ")."
  end.

Record GuestResponse := mkGuestResponse { rs_body : option json; rs_contentType : option str }.
Definition sendGuest (q : GuestRequest) : Guest GuestResponse :=
  gask q (λ a, match a with
    | ga_lost => gthrow "The agency request could not be confirmed. Check your connection and try again." 0
    | ga_response status body contentType =>
        if isOk status then gret (mkGuestResponse body contentType)
        else gfail (portalError (refusal status body) status)
    end).

Definition getRequest (path : str) : GuestRequest :=
  mkGuestRequest path (js "GET") (js "application/json") None None.
Definition jsonOf (q : GuestRequest) : Guest json :=
  let* response := sendGuest q in
  match rs_body response with
  | Some j => gret j
  | None => gthrow "The agency service returned an unreadable response." 502
  end.

(** Reading a property of [null] throws; any other value has properties. *)
Definition member (k : string) (j : json) : Guest (option json) :=
  match j with JNull => gfail typeError | _ => gret (jget (js k) j) end.

Definition postGuest (path : str) (payload : json) : Guest json :=
  let* answer := jsonOf (getRequest (ROOT ++ js "/csrf")) in
  let* csrfToken := member "csrfToken" answer in
  let* _ := gguard (negb (truthyJson csrfToken))
    "Could not establish a secure agency session. Reopen your agency link." 403 in
  jsonOf (mkGuestRequest path (js "POST") (js "application/json") (elementText <$> csrfToken) (Some payload)).

(** A context that can be shown, for the session asked for. *)
Definition completeContext (context : option json) : bool :=
  truthyJson (prop "contextId" context) && truthyJson (prop "id" (prop "agency" context))
  && isArray (prop "lines" context) && isArray (prop "completedPeers" context)
  && isString (prop "inputFingerprint" context).
Definition readContext (contextId : str) : Guest (option json) :=
  let* body := jsonOf (getRequest (withContext (js "context") contextId)) in
  let context := prop "context" (Some body) in
  let* _ := gguard (negb (completeContext context))
    "The agency service returned an incomplete form. Reopen your agency link." 502 in
  let* _ := gguard (truthy contextId && negb (equalsStr (prop "contextId" context) contextId))
    "This session no longer matches your agency link. Reopen the original link." 403 in
  gret context.

Definition exchange (token : str) : Guest str :=
  let* body := postGuest (ROOT ++ js "/exchange") (mkObj [fld "token" token]) in
  let* contextId := member "contextId" body in
  match contextId with
  | Some (JStr s) => if truthy s then gret s
      else gthrow "The agency link could not be opened. Ask the voyage coordinator for a new link." 502
  | _ => gthrow "The agency link could not be opened. Ask the voyage coordinator for a new link." 502
  end.

(** The report of the agency's own reading, as the context confirms it. *)
Definition confirmedReport (context : option json) (agencyId : str) : bool :=
  equalsStr (prop "status" (prop "ownReport" context)) (js "submitted")
  && equalsStr (prop "participantId" (prop "ownReport" context)) agencyId.

Definition submissionBody (context : GuestContext) (requestId : str) (input : GuestReadingInput) : json :=
  mkObj (guestInputFields input ++ [fld "contextId" (gc_contextId context); fld "requestId" requestId;
    fld "inputFingerprint" (gc_inputFingerprint context)]).
Definition postSubmission (context : GuestContext) (requestId : str) (input : GuestReadingInput)
  : Guest (option json) :=
  let* result := postGuest (ROOT ++ js "/submission") (submissionBody context requestId input) in
  let returned := prop "context" (Some result) in
  let* _ := gguard (negb (equalsStr (prop "contextId" returned) (gc_contextId context))
                    || negb (equalsStr (prop "id" (prop "agency" returned)) (gc_agencyId context)))
    "This session no longer matches your agency link. Reopen the original link." 403 in
  let* _ := gguard (negb (confirmedReport returned (gc_agencyId context))
                    || negb (isArray (prop "lines" returned)) || negb (isArray (prop "completedPeers" returned)))
    "The agency service did not confirm your submitted report." 502 in
  gret returned.

(** A lost or failed answer may hide a submission that was stored: it is looked up once. *)
Definition uncertain (failure : GuestFailure) : bool :=
  match failure with portalError _ status => (status =? 0) || (500 <=? status) | typeError => false end.
Definition recoverSubmission (context : GuestContext) (failure : GuestFailure) : Guest (option json) :=
  if uncertain failure then
    gcatch
      (let* recovered := readContext (gc_contextId context) in
       if equalsStr (prop "id" (prop "agency" recovered)) (gc_agencyId context)
          && confirmedReport recovered (gc_agencyId context)
       then gret recovered else gfail failure)
      (λ _, gfail failure)
  else gfail failure.
Definition submit (context : GuestContext) (requestId : str) (input : GuestReadingInput)
  : Guest (option json) :=
  gcatch (postSubmission context requestId input) (recoverSubmission context).

Section Receipt.
Context `{Host}.
Definition receipt (contextId : str) : Guest GuestResponse :=
  let* response := sendGuest (mkGuestRequest (withContext (js "receipt") contextId) (js "GET")
    (js "application/pdf") None None) in
  let* _ := gguard (negb match rs_contentType response with
      | Some t => includes (js "application/pdf") (toLowerCase t) | None => false end)
    "The agency service did not return a PDF. Please try again." 502 in
  gret response.
End Receipt.

(** ** One request id per submitted content *)

Definition attemptBody (context : GuestContext) (input : GuestReadingInput) : str :=
  stringify (JArr [JStr (gc_contextId context); JStr (gc_inputFingerprint context);
    mkObj (guestInputFields input)]).
(** [createGuestSubmissionAttempt]: the previous body and its id. *)
Definition submissionAttempt (context : GuestContext) (input : GuestReadingInput) (uuid : str)
    (previous : option (str * str)) : option (str * str) * str :=
  let body := attemptBody context input in
  match previous with
  | Some (b, id) => if streq b body then (previous, id) else (Some (body, uuid), uuid)
  | None => (Some (body, uuid), uuid)
  end.

(** ** Running a program against any server and network *)

(** The answer may depend on everything sent before. *)
Definition Server := list GuestRequest → GuestRequest → GuestAnswer.
Fixpoint runGuest {T} (server : Server) (sent : list GuestRequest) (m : Guest T)
  : list GuestRequest * result GuestFailure T :=
  match m with
  | gret t => (sent, Ok t)
  | gfail e => (sent, Err e)
  | gask q k => runGuest server (sent ++ [q]) (k (server sent q))
  end.

(** ** Lemmas: running *)

Section Running.
Context (server : Server).

Lemma run_gbind {T U} (m : Guest T) (k : T → Guest U) sent :
  runGuest server sent (gbind m k) =
  match runGuest server sent m with
  | (sent', Ok t) => runGuest server sent' (k t)
  | (sent', Err e) => (sent', Err e)
  end.
Proof. revert sent. induction m as [t|e|q k' IH]; intros sent; simpl; [done|done|apply IH]. Qed.

Lemma run_catch {T} (m : Guest T) h sent :
  runGuest server sent (gcatch m h) =
  match runGuest server sent m with
  | (sent', Ok t) => (sent', Ok t)
  | (sent', Err e) => runGuest server sent' (h e)
  end.
Proof. revert sent. induction m as [t|e|q k' IH]; intros sent; simpl; [done|done|apply IH]. Qed.

Lemma run_guard c message status sent :
  runGuest server sent (gguard c message status) =
  (sent, if c then Err (portalError (js message) status) else Ok tt).
Proof. by destruct c. Qed.

Lemma run_bind_Ok {T U} (m : Guest T) (k : T → Guest U) sent sent' u :
  runGuest server sent (gbind m k) = (sent', Ok u) →
  ∃ sent1 t, runGuest server sent m = (sent1, Ok t) ∧ runGuest server sent1 (k t) = (sent', Ok u).
Proof. rewrite run_gbind. destruct (runGuest server sent m) as [s [t|e]]; [eauto|done]. Qed.

Lemma run_guard_Ok {U} c message status (k : unit → Guest U) sent sent' u :
  runGuest server sent (gbind (gguard c message status) k) = (sent', Ok u) →
  c = false ∧ runGuest server sent (k tt) = (sent', Ok u).
Proof. rewrite run_gbind, run_guard. by destruct c. Qed.

(** A request for JSON is one request. *)
Lemma run_jsonOf q sent : (runGuest server sent (jsonOf q)).1 = sent ++ [q].
Proof.
  unfold jsonOf, sendGuest. simpl. destruct (server sent q) as [|status body ct]; [done|].
  destruct (isOk status); [|done]. simpl. by destruct body.
Qed.

Lemma run_readContext id sent : (runGuest server sent (readContext id)).1
  = sent ++ [getRequest (withContext (js "context") id)].
Proof.
  unfold readContext. rewrite run_gbind. pose proof (run_jsonOf (getRequest (withContext (js "context") id)) sent) as Hs.
  destruct (runGuest server sent (jsonOf _)) as [s [j|e]]; simpl in *; [|done].
  rewrite run_gbind, run_guard. destruct (negb _); [done|].
  rewrite run_gbind, run_guard. by destruct (_ && _).
Qed.

Lemma run_readContext_Ok id sent sent' context : runGuest server sent (readContext id) = (sent', Ok context) →
  completeContext context = true ∧ (id ≠ [] → equalsStr (prop "contextId" context) id = true).
Proof.
  unfold readContext. intros (s1 & body & _ & Hr)%run_bind_Ok.
  apply run_guard_Ok in Hr as [Hc%negb_false_iff Hr]. apply run_guard_Ok in Hr as [Hm Hr].
  simpl in Hr. injection Hr as _ <-. split; [done|]. intros Hid.
  destruct id as [|c id]; [done|]. by apply negb_false_iff in Hm.
Qed.

(** A recovery makes at most one request, the read of this context. *)
Lemma run_recover_sent c e sent :
  (runGuest server sent (recoverSubmission c e)).1 = sent ∨
  (runGuest server sent (recoverSubmission c e)).1 = sent ++ [getRequest (withContext (js "context") (gc_contextId c))].
Proof.
  unfold recoverSubmission. destruct (uncertain e); [right|by left].
  rewrite run_catch, run_gbind. pose proof (run_readContext (gc_contextId c) sent) as Hs.
  destruct (runGuest server sent (readContext _)) as [s [ctx|e']]; simpl in *; [|done].
  by destruct (_ && _).
Qed.

(** A submission asks for a token, then posts once. *)
Lemma run_postSubmission_sent c rid input sent : ∃ new,
  (runGuest server sent (postSubmission c rid input)).1 = sent ++ new ∧
  (new = [getRequest (ROOT ++ js "/csrf")] ∨
   ∃ token, new = [getRequest (ROOT ++ js "/csrf");
     mkGuestRequest (ROOT ++ js "/submission") (js "POST") (js "application/json") (Some token)
       (Some (submissionBody c rid input))]).
Proof.
  unfold postSubmission, postGuest. rewrite !run_gbind.
  pose proof (run_jsonOf (getRequest (ROOT ++ js "/csrf")) sent) as Hs.
  destruct (runGuest server sent (jsonOf (getRequest (ROOT ++ js "/csrf")))) as [s [a|e]]; simpl in Hs; subst s;
    [|eexists; by split; [|left]].
  rewrite run_gbind. destruct (member "csrfToken" a) as [t|e|] eqn:Em; [| |destruct a; discriminate].
  2: { cbn [runGuest]. eexists. by split; [|left]. }
  cbn [runGuest]. rewrite run_gbind, run_guard. destruct (truthyJson t) eqn:Et; cbn [negb].
  2: { eexists. by split; [|left]. }
  destruct t as [token|]; [|done]. cbn [fmap option_fmap option_map].
  set (q := mkGuestRequest _ _ _ _ _). pose proof (run_jsonOf q (sent ++ [getRequest (ROOT ++ js "/csrf")])) as Hq.
  destruct (runGuest server _ (jsonOf q)) as [s [r|e]]; simpl in Hq; subst s.
  - rewrite run_gbind, run_guard. destruct (negb _ || negb _);
      [|rewrite run_gbind, run_guard; destruct (negb _ || negb _ || negb _)];
      (eexists; split; [cbn; by rewrite <- app_assoc|right; by exists (elementText token)]).
  - eexists; split; [cbn; by rewrite <- app_assoc|right; by exists (elementText token)].
Qed.

Lemma run_postSubmission_Ok c rid input sent sent' context :
  runGuest server sent (postSubmission c rid input) = (sent', Ok context) →
  equalsStr (prop "contextId" context) (gc_contextId c) = true ∧
  equalsStr (prop "id" (prop "agency" context)) (gc_agencyId c) = true ∧
  confirmedReport context (gc_agencyId c) = true ∧
  isArray (prop "lines" context) = true ∧ isArray (prop "completedPeers" context) = true.
Proof.
  unfold postSubmission. intros (s1 & r & _ & Hr)%run_bind_Ok.
  apply run_guard_Ok in Hr as [[H1%negb_false_iff H2%negb_false_iff]%orb_false_iff Hr].
  apply run_guard_Ok in Hr as [[[H3%negb_false_iff H4%negb_false_iff]%orb_false_iff H5%negb_false_iff]%orb_false_iff Hr].
  simpl in Hr. injection Hr as _ <-. done.
Qed.
End Running.

(** ** Properties *)

(** C26. Whatever the server and the network answer, a submission that reports success shows
    this session's context, for the agency the form was opened for, with that agency's own
    report confirmed as submitted; a lost answer is never replaced by another agency's
    form. *)
Theorem submit_confirmed (server : Server) (sent sent' : list GuestRequest) (c : GuestContext)
    (requestId : str) (input : GuestReadingInput) (context : option json)
    (Hsession : gc_contextId c ≠ [])
    (Hrun : runGuest server sent (submit c requestId input) = (sent', Ok context)) :
  equalsStr (prop "contextId" context) (gc_contextId c) = true ∧
  equalsStr (prop "id" (prop "agency" context)) (gc_agencyId c) = true ∧
  confirmedReport context (gc_agencyId c) = true ∧
  isArray (prop "lines" context) = true ∧ isArray (prop "completedPeers" context) = true.
Proof.
  unfold submit in Hrun. rewrite run_catch in Hrun.
  destruct (runGuest server sent (postSubmission _ _ _)) as [s1 [ctx|e]] eqn:Ep.
  - injection Hrun as _ <-. by eapply run_postSubmission_Ok.
  - unfold recoverSubmission in Hrun. destruct (uncertain e); [|done]. rewrite run_catch in Hrun.
    destruct (runGuest server s1 (gbind _ _)) as [s2 [ctx|e']] eqn:Er; [|done].
    injection Hrun as _ <-. apply run_bind_Ok in Er as (s3 & rec & Hrec & Hr).
    apply run_readContext_Ok in Hrec as [Hc Hid].
    destruct (equalsStr _ _ && confirmedReport _ _) eqn:Em; [|done]. simpl in Hr. injection Hr as _ <-.
    apply andb_true_iff in Em as [H1 H2]. unfold completeContext in Hc. rewrite !andb_true_iff in Hc.
    split_and!; [by apply Hid|done|done|tauto|tauto].
Qed.

(** A submission posts its reading at most once, whatever happens: it asks for a token,
    posts with that token, and when the answer leaves the outcome uncertain reads its own
    context once; nothing else is ever sent. *)
Theorem submit_posts_once (server : Server) (sent : list GuestRequest) (c : GuestContext)
    (requestId : str) (input : GuestReadingInput) :
  ∃ new, (runGuest server sent (submit c requestId input)).1 = sent ++ new ∧
  ∃ posts reads, new = getRequest (ROOT ++ js "/csrf") :: posts ++ reads ∧
    (length posts ≤ 1)%nat ∧ (length reads ≤ 1)%nat ∧
    (∀ q, q ∈ posts → gr_method q = js "POST" ∧ gr_path q = ROOT ++ js "/submission" ∧
       gr_body q = Some (submissionBody c requestId input) ∧ gr_csrf q ≠ None) ∧
    (∀ q, q ∈ reads → q = getRequest (withContext (js "context") (gc_contextId c))).
Proof.
  unfold submit. rewrite run_catch.
  destruct (run_postSubmission_sent server c requestId input sent) as (new & Hs & Hnew).
  destruct (runGuest server sent (postSubmission _ _ _)) as [s1 o]. simpl in Hs. subst s1.
  assert (Hp : ∃ posts, new = getRequest (ROOT ++ js "/csrf") :: posts ∧ (length posts ≤ 1)%nat ∧
    ∀ q, q ∈ posts → gr_method q = js "POST" ∧ gr_path q = ROOT ++ js "/submission" ∧
       gr_body q = Some (submissionBody c requestId input) ∧ gr_csrf q ≠ None).
  { destruct Hnew as [->|(token & ->)]; [exists []|eexists [_]]; (split; [done|]); (split; [simpl; lia|]).
    - by intros q ?%elem_of_nil.
    - by intros q ->%list_elem_of_singleton. }
  destruct Hp as (posts & -> & Hlen & Hposts).
  destruct o as [ctx|e].
  - exists (getRequest (ROOT ++ js "/csrf") :: posts). split; [done|]. exists posts, [].
    split_and!; [by rewrite app_nil_r|done|simpl; lia|done|by intros q ?%elem_of_nil].
  - destruct (run_recover_sent server c e (sent ++ getRequest (ROOT ++ js "/csrf") :: posts)) as [->| ->].
    + eexists. split; [done|]. exists posts, [].
      split_and!; [by rewrite app_nil_r|done|simpl; lia|done|by intros q ?%elem_of_nil].
    + eexists. split; [by rewrite <- app_assoc|]. exists posts. eexists [_].
      split_and!; [done|done|simpl; lia|done|by intros q ->%list_elem_of_singleton].
Qed.

Definition csrfRequest : GuestRequest := getRequest (ROOT ++ js "/csrf").
Definition submissionRequest (c : GuestContext) (requestId : str) (input : GuestReadingInput) (token : json)
  : GuestRequest :=
  mkGuestRequest (ROOT ++ js "/submission") (js "POST") (js "application/json") (Some (elementText token))
    (Some (submissionBody c requestId input)).
Definition lostStatus (a : GuestAnswer) : option Z :=
  match a with
  | ga_lost => Some 0
  | ga_response status _ _ => if 500 <=? status then Some status else None
  end.

Lemma run_send_lost server sent q s : lostStatus (server sent q) = Some s →
  ∃ m, runGuest server sent (jsonOf q) = (sent ++ [q], Err (portalError m s)) ∧ uncertain (portalError m s) = true.
Proof.
  unfold jsonOf, sendGuest. simpl. destruct (server sent q) as [|status body ct]; simpl.
  - intros [= <-]. eauto.
  - destruct (Z.leb_spec 500 status); [|done]. intros [= <-]. unfold isOk.
    rewrite (proj2 (Z.leb_gt status 299)) by lia. rewrite andb_false_r. eexists. split; [done|].
    apply orb_true_iff. right. by apply Z.leb_le.
Qed.

Lemma run_jsonOf_ok server sent q s j ct : server sent q = ga_response s (Some j) ct → isOk s = true →
  runGuest server sent (jsonOf q) = (sent ++ [q], Ok j).
Proof. unfold jsonOf, sendGuest. simpl. intros -> Hs. by rewrite Hs. Qed.

(** C27. A submission whose answer was lost, or failed in the server, still succeeds when the
    context read back confirms it, and otherwise fails with the original uncertainty. *)
Theorem lost_submission_recovered (server : Server) (sent : list GuestRequest) (c : GuestContext)
    (requestId : str) (input : GuestReadingInput) (s1 s2 : Z) (a b token : json) (ct1 ct2 : option str) (lost : Z)
    (Hcsrf : server sent csrfRequest = ga_response s1 (Some a) ct1) (Hok1 : isOk s1 = true)
    (Htoken : jget (js "csrfToken") a = Some token) (Htruthy : truthyJson (Some token) = true)
    (Hlost : lostStatus (server (sent ++ [csrfRequest]) (submissionRequest c requestId input token)) = Some lost)
    (Hread : server ((sent ++ [csrfRequest]) ++ [submissionRequest c requestId input token])
       (getRequest (withContext (js "context") (gc_contextId c))) = ga_response s2 (Some b) ct2)
    (Hok2 : isOk s2 = true) :
  let context := prop "context" (Some b) in
  let confirmed := completeContext context && equalsStr (prop "contextId" context) (gc_contextId c)
    && equalsStr (prop "id" (prop "agency" context)) (gc_agencyId c)
    && confirmedReport context (gc_agencyId c) in
  gc_contextId c ≠ [] →
  ∃ message, (runGuest server sent (submit c requestId input)).2
    = if confirmed then Ok context else Err (portalError message lost).
Proof.
  intros context confirmed Hsession. unfold submit. rewrite run_catch.
  destruct (run_send_lost _ _ _ _ Hlost) as (m & Hm & Hu).
  assert (Hpost : runGuest server sent (postSubmission c requestId input) =
    ((sent ++ [csrfRequest]) ++ [submissionRequest c requestId input token], Err (portalError m lost))).
  { unfold postSubmission, postGuest. rewrite !run_gbind. fold csrfRequest.
    rewrite (run_jsonOf_ok _ _ _ _ _ _ Hcsrf Hok1), run_gbind.
    assert (Hmem : member "csrfToken" a = gret (Some token)) by (destruct a; by rewrite <- ?Htoken).
    rewrite Hmem. cbn [runGuest]. rewrite run_gbind, run_guard, Htruthy. cbn [negb].
    cbn [fmap option_fmap option_map]. fold (submissionRequest c requestId input token). by rewrite Hm. }
  rewrite Hpost. exists m. unfold recoverSubmission. rewrite Hu, run_catch, run_gbind.
  unfold readContext. rewrite run_gbind, (run_jsonOf_ok _ _ _ _ _ _ Hread Hok2). fold context.
  rewrite run_gbind, run_guard. unfold confirmed.
  destruct (completeContext context); [|done]. cbn [negb andb]. rewrite run_gbind, run_guard.
  assert (Ht : truthy (gc_contextId c) = true) by (by destruct (gc_contextId c)). rewrite Ht.
  destruct (equalsStr (prop "contextId" context) (gc_contextId c)); [|done]. cbn [negb andb runGuest].
  by destruct (equalsStr _ _ && confirmedReport _ _).
Qed.

Lemma guestInput_inj i j : mkObj (guestInputFields i) = mkObj (guestInputFields j) → i = j.
Proof.
  destruct i as [r1 o1 s1 n1 l1], j as [r2 o2 s2 n2 l2]. unfold guestInputFields, fld, mkObj.
  cbn [omap list_omap fmap option_fmap option_map fst snd gi_representative gi_observedAt
    gi_sourceReference gi_notes gi_lines]. intros [= -> -> -> -> Hl].
  f_equal. apply (enc_inj (A := list SubmissionLine)). cbn. by f_equal.
Qed.

(** Retries of one content share a request id, and a changed content (another reading,
    or a form opened again with other inputs) gets the new one. *)
Theorem attempt_ids (c c' : GuestContext) (input input' : GuestReadingInput) (uuid uuid' : str)
    (previous : option (str * str)) :
  let '(kept, id) := submissionAttempt c input uuid previous in
  let '(kept', id') := submissionAttempt c' input' uuid' kept in
  (attemptBody c input = attemptBody c' input' → id' = id ∧ kept' = kept) ∧
  (attemptBody c input ≠ attemptBody c' input' → id' = uuid') ∧
  (attemptBody c input = attemptBody c' input' ↔
   gc_contextId c = gc_contextId c' ∧ gc_inputFingerprint c = gc_inputFingerprint c' ∧ input = input').
Proof.
  assert (Hk : ∃ id, submissionAttempt c input uuid previous = (Some (attemptBody c input, id), id)).
  { unfold submissionAttempt. destruct previous as [[b i]|]; [|eauto].
    destruct (streq b _) eqn:E; [apply streq_true in E as ->; eauto|eauto]. }
  destruct Hk as [id ->]. destruct (submissionAttempt c' input' uuid' _) as [kept' id'] eqn:E.
  unfold submissionAttempt in E. split_and!.
  - intros He. rewrite He, streq_refl in E. rewrite He. by simplify_eq.
  - intros Hne. rewrite (proj2 (streq_false _ _) Hne) in E. by simplify_eq.
  - split; [|intros (H1 & H2 & ->); unfold attemptBody; by rewrite H1, H2].
    unfold attemptBody. intros Hb%stringify_inj. 
    assert (Hj : ∀ a b a' b' j j', JArr [JStr a; JStr b; j] = JArr [JStr a'; JStr b'; j'] → a = a' ∧ b = b' ∧ j = j')
      by (by intros * [= -> -> ->]).
    apply Hj in Hb as (H1 & H2 & H3). split_and!; [done|done|by apply guestInput_inj].
Qed.

(** ** A connection lost while the server stored the report *)

Definition sampleGuest : GuestContext := mkGuestContext (js "ctx-1") (js "a1") (js "fp-1").
Definition sampleReading : GuestReadingInput :=
  mkGuestInput (js "Chidi") (js "2026-07-01T08:00:00Z") (js "REF") []
    [mkSubmissionLine (js "l1") reported (Some (js "1010")) []].
Definition storedContext (agency : string) : json :=
  mkObj [fld "contextId" (js "ctx-1"); fld "inputFingerprint" (js "fp-2");
    fld "agency" (mkObj [fld "id" (js agency)]); fld "lines" (JArr []); fld "completedPeers" (JArr []);
    fld "ownReport" (mkObj [fld "status" (js "submitted"); fld "participantId" (js "a1")])].
Definition sampleServer (agency : string) : Server := λ _ q,
  if streq (gr_path q) (ROOT ++ js "/csrf")
  then ga_response 200 (Some (mkObj [fld "csrfToken" (js "tok")])) None
  else if streq (gr_method q) (js "POST") then ga_lost
  else ga_response 200 (Some (mkObj [fld "context" (storedContext agency)])) None.

Lemma submit_confirmed_witness :
  ∃ sent context, runGuest (sampleServer "a1") [] (submit sampleGuest (js "r1") sampleReading) = (sent, Ok context)
  ∧ confirmedReport context (js "a1") = true ∧ length sent = 3%nat.
Proof.
  eexists _, _. split; [vm_compute; reflexivity|]. split; [|reflexivity].
  eapply (submit_confirmed (sampleServer "a1") [] _ sampleGuest (js "r1") sampleReading);
    [discriminate|vm_compute; reflexivity].
Defined.

(** Another agency's session answers: the original uncertainty is reported. *)
Lemma lost_submission_recovered_witness :
  ∃ message, (runGuest (sampleServer "a2") [] (submit sampleGuest (js "r1") sampleReading)).2
    = Err (portalError message 0).
Proof.
  refine (lost_submission_recovered (sampleServer "a2") [] sampleGuest (js "r1") sampleReading 200 200
    (mkObj [fld "csrfToken" (js "tok")]) (mkObj [fld "context" (storedContext "a2")]) (JStr (js "tok"))
    None None 0 _ _ _ _ _ _ _ _); first [discriminate | vm_compute; reflexivity].
Defined.
