(* ===== verification/Voyages.v ===== *)
(** * Vessels, voyages and sheets as the screens list them
    (frontend/src/measurements/voyages.ts, reportIdentity.ts)

    The display index of a vessel's calls and the text that tells two sheets of one voyage
    apart.  Letters and numbers of other scripts, and the locale's date labels, are the
    host's. *)
From S2P Require Import Prelude JsString Json Host MeasurementTypes Samples Uri AppTypes ReadingsModel.

(** ** Vessels *)

Record VesselVoyages := mkVesselVoyages {
  vv_key : str; vv_name : str; vv_flag : str; vv_type : str; vv_calls : list VesselCall }.

(** [value || other] on strings *)
Definition orElse (value other : str) : str := if truthy value then value else other.

Section Slugs.
Context `{Host}.
(** [\p{L}] or [\p{N}] of a code point *)
Context (isLetterOrNumber : N → bool).

(** Runs of other code points become one hyphen. *)
Fixpoint hyphenate (prev : bool) (ps : list N) : list N :=
  match ps with
  | [] => []
  | p :: ps => if isLetterOrNumber p then p :: hyphenate false ps
               else if prev then hyphenate true ps else cMinus :: hyphenate true ps
  end.
Fixpoint dropHyphens (ps : list N) : list N :=
  match ps with p :: r => if N.eqb p cMinus then dropHyphens r else ps | [] => [] end.
Definition slugPart (value : str) : str :=
  let ps := hyphenate false (codePoints (toLocaleLowerCase (trim value))) in
  flat_map utf16 (rev (dropHyphens (rev (dropHyphens ps)))).
Definition vesselSlug (name : str) (flag : option str) : str :=
  join (js "--") (filterb truthy [slugPart name; slugPart (default [] flag)]).
Definition vesselPath (name : str) (flag : option str) : str :=
  js "/app/vessels/" ++ encodeURIComponent (vesselSlug name flag).
End Slugs.

Section Groups.
Context `{Host}.

Definition vesselKey (call : VesselCall) : str :=
  stringify (JArr [JStr (toLocaleLowerCase (trim (vc_vesselName call)));
                   JStr (toLocaleLowerCase (trim (vc_flag call)))]).
Definition addCall (groups : list (str * VesselVoyages)) (call : VesselCall) : list (str * VesselVoyages) :=
  let key := vesselKey call in
  let group := default (mkVesselVoyages key (vc_vesselName call) (vc_flag call) (vc_type call) []) (mget key groups) in
  mset key (mkVesselVoyages (vv_key group) (vv_name group) (vv_flag group) (vv_type group)
              (vv_calls group ++ [call])) groups.

(** [Date.parse(call.eta || call.registered) || 0] *)
Definition arrivalTime (call : VesselCall) : Z :=
  default 0 (dateParse (orElse (vc_eta call) (vc_registered call))).
Definition newestFirst (a b : VesselCall) : Z :=
  let d := arrivalTime b - arrivalTime a in
  if d =? 0 then localeCompare (vc_reference b) (vc_reference a) else d.
Definition byNameThenFlag (a b : VesselVoyages) : Z :=
  let d := localeCompare (vv_name a) (vv_name b) in
  if d =? 0 then localeCompare (vv_flag a) (vv_flag b) else d.
Definition sortedCalls (group : VesselVoyages) : VesselVoyages :=
  mkVesselVoyages (vv_key group) (vv_name group) (vv_flag group) (vv_type group)
    (sort_by newestFirst (vv_calls group)).
Definition groupVesselCalls (calls : list VesselCall) : list VesselVoyages :=
  sort_by byNameThenFlag (map sortedCalls (foldl addCall [] calls).*2).

(** ** The groups partition the calls *)

Record groupsOf (m : list (str * VesselVoyages)) (calls : list VesselCall) : Prop := {
  groups_keys : NoDup m.*1;
  groups_own : ∀ k g, (k, g) ∈ m → vv_key g = k ∧ vv_calls g ≠ [] ∧ ∀ c, c ∈ vv_calls g → vesselKey c = k;
  groups_all : flat_map vv_calls m.*2 ≡ₚ calls }.

Lemma mset_replace {A} k (v v' : A) (m : list (str * A)) : mget k m = Some v →
  ∃ m1 m2, m = m1 ++ (k, v) :: m2 ∧ mset k v' m = m1 ++ (k, v') :: m2.
Proof.
  induction m as [|[k1 v1] m IH]; simpl; [done|]. case_decide as Hk.
  - intros [= ->]. subst. by exists [], m.
  - intros (m1 & m2 & -> & ->)%IH. by exists ((k1, v1) :: m1), m2.
Qed.

Lemma addCall_groups m calls call : groupsOf m calls → groupsOf (addCall m call) (calls ++ [call]).
Proof.
  intros [Hn Ho Ha]. unfold addCall. set (k := vesselKey call).
  destruct (mget k m) as [g|] eqn:Eg; cbn [from_option id default].
  - set (g' := mkVesselVoyages _ _ _ _ _).
    destruct (mset_replace k g g' m Eg) as (m1 & m2 & -> & Hset). split.
    + by apply mset_NoDup.
    + rewrite Hset. destruct (Ho k g) as (H1 & H2 & H3); [apply elem_of_app; right; apply list_elem_of_here|].
      intros k' g0 [Hin|[[= -> ->]|Hin]%elem_of_cons]%elem_of_app.
      * by apply Ho, elem_of_app; left.
      * cbn [vv_key vv_calls]. split_and!; [done|by destruct (vv_calls g)|].
        intros c [Hc|Hc]%elem_of_app; [by apply H3|by apply list_elem_of_singleton in Hc as ->].
      * apply Ho, elem_of_app. right. by apply list_elem_of_further.
    + rewrite Hset, <- Ha, !fmap_app, !flat_map_app. cbn. rewrite <- !app_assoc. apply Permutation_app_head.
      apply Permutation_app_head. apply Permutation_app_comm.
  - assert (Hk : k ∉ m.*1).
    { intros ([k' g] & -> & Hin)%list_elem_of_fmap. apply elem_of_mget in Hin; [|done]. simpl in Eg. congruence. }
    rewrite mset_fresh by done. split.
    + rewrite fmap_app. apply NoDup_app. split; [done|]. split; [|apply NoDup_singleton].
      by intros x Hx ->%list_elem_of_singleton.
    + intros k' g0 [Hin|[= -> ->]%list_elem_of_singleton]%elem_of_app; [by apply Ho|].
      cbn [vv_key vv_calls]. split_and!; [done|done|]. by intros c ->%list_elem_of_singleton.
    + rewrite fmap_app, flat_map_app. cbn. by rewrite Ha.
Qed.

Lemma foldl_addCall_groups calls : groupsOf (foldl addCall [] calls) calls.
Proof.
  induction calls as [|c calls IH] using rev_ind.
  - split; [constructor|by intros k g ?%elem_of_nil|done].
  - rewrite foldl_app. by apply addCall_groups.
Qed.

Lemma flat_map_sorted groups : flat_map vv_calls (map sortedCalls groups) ≡ₚ flat_map vv_calls groups.
Proof. induction groups as [|g gs IH]; [done|]. cbn. by rewrite sort_by_perm, IH. Qed.

Lemma flat_map_perm {A B} (f : A → list B) l1 l2 : l1 ≡ₚ l2 → flat_map f l1 ≡ₚ flat_map f l2.
Proof.
  induction 1 as [|x l1 l2 _ IH|x y l|l1 l2 l3 _ IH1 _ IH2]; cbn; [done|by rewrite IH| |by rewrite IH1].
  rewrite !app_assoc. by rewrite (Permutation_app_comm (f x)).
Qed.

Lemma newestFirst_flip a b : 0 < newestFirst a b → newestFirst b a <= 0.
Proof.
  unfold newestFirst. intros Hab. destruct (Z.eqb_spec (arrivalTime b - arrivalTime a) 0),
    (Z.eqb_spec (arrivalTime a - arrivalTime b) 0); try lia.
  apply localeCompare_flip in Hab. lia.
Qed.

(** The index of a vessel's voyages lists every call exactly once, under one group per
    vessel (name and flag, whatever their case and surrounding blanks), no group being
    empty, and each group's calls newest first. *)
Theorem groupVesselCalls_partition calls :
  flat_map vv_calls (groupVesselCalls calls) ≡ₚ calls ∧
  NoDup (map vv_key (groupVesselCalls calls)) ∧
  ∀ g, g ∈ groupVesselCalls calls →
    vv_calls g ≠ [] ∧ (∀ c, c ∈ calls ∧ vesselKey c = vv_key g ↔ c ∈ vv_calls g) ∧
    Sorted (λ a b, newestFirst a b <= 0) (vv_calls g).
Proof.
  destruct (foldl_addCall_groups calls) as [Hn Ho Ha]. unfold groupVesselCalls.
  set (m := foldl addCall [] calls) in *.
  assert (Hall : flat_map vv_calls (sort_by byNameThenFlag (map sortedCalls m.*2)) ≡ₚ calls).
  { rewrite (flat_map_perm _ _ _ (sort_by_perm _ _)), flat_map_sorted. done. }
  assert (Hkeys : map vv_key (map sortedCalls m.*2) = m.*1).
  { clear -Ho. induction m as [|[k g] m IH]; [done|]. cbn. f_equal; [apply (Ho k g), list_elem_of_here|].
    apply IH. intros k' g' Hin. by apply Ho, list_elem_of_further. }
  split_and!; [done|by rewrite sort_by_perm, Hkeys|].
  intros g Hg. rewrite elem_of_sort_by in Hg. apply list_elem_of_fmap in Hg as (g0 & -> & Hg).
  apply list_elem_of_fmap in Hg as ([k g1] & -> & Hin). destruct (Ho k g1 Hin) as (H1 & H2 & H3).
  cbn [sortedCalls vv_key vv_calls snd].
  split_and!.
  - intros Hnil. apply H2. apply (f_equal length) in Hnil. rewrite length_sort_by in Hnil.
    by apply length_zero_iff_nil in Hnil.
  - intros c. rewrite elem_of_sort_by. split; [|intros Hc; split; [|rewrite H1; by apply H3]].
    + intros [Hc Hk]. rewrite <- Ha in Hc. apply list_elem_of_In, in_flat_map in Hc as (g2 & Hg2 & Hc).
      apply list_elem_of_In in Hg2, Hc. apply list_elem_of_fmap in Hg2 as ([k2 g2'] & -> & Hin2).
      destruct (Ho k2 g2' Hin2) as (_ & _ & H5). specialize (H5 c Hc). cbn [snd] in Hc.
      rewrite H1, H5 in Hk. subst k2. apply elem_of_mget in Hin, Hin2; [|done..].
      by rewrite Hin in Hin2; simplify_eq.
    + rewrite <- Ha. apply list_elem_of_In, in_flat_map. exists g1. split; apply list_elem_of_In; [|done].
      apply list_elem_of_fmap. by exists (k, g1).
  - apply sort_by_sorted, newestFirst_flip.
Qed.
End Groups.

(** ** Telling sheets apart (reportIdentity.ts) *)

Record SheetIdentity := mkSheet {
  sh_id : str; sh_callId : str; sh_title : str; sh_scope : str; sh_scheduledAt : str; sh_location : str }.

Section Sheets.
Context `{Host}.
Definition repeats (plan : SheetIdentity) (sheets : list SheetIdentity) : list SheetIdentity :=
  filterb (λ other, negb (streq (sh_id other) (sh_id plan)) && streq (sh_callId other) (sh_callId plan)
    && streq (normalized (sh_title other)) (normalized (sh_title plan))
    && streq (normalized (sh_scope other)) (normalized (sh_scope plan))) sheets.

(** The loop's condition, and the loop: each turn adds a character of the id. *)
Definition ambiguous (plan : SheetIdentity) (repeated : list SheetIdentity) (n : nat) : bool :=
  (n <? length (sh_id plan))%nat
  && existsb (λ other, startsWith (take n (sh_id plan)) (sh_id other)) repeated.
Fixpoint lengthen (fuel : nat) (plan : SheetIdentity) (repeated : list SheetIdentity) (n : nat) : nat :=
  match fuel with
  | O => n
  | S fuel => if ambiguous plan repeated n then lengthen fuel plan repeated (n + 1) else n
  end.
Definition referenceLength (plan : SheetIdentity) (repeated : list SheetIdentity) : nat :=
  lengthen (length (sh_id plan)) plan repeated (Nat.min 8 (length (sh_id plan))).
Definition sheetReference (plan : SheetIdentity) (sheets : list SheetIdentity) : str :=
  let repeated := repeats plan sheets in
  if Nat.eqb (length repeated) 0 then []
  else js "Sheet " ++ take (referenceLength plan repeated) (sh_id plan).
(** [dateLabel] is the browser's locale. *)
Definition reportIdentity (dateLabel : str → str) (plan : SheetIdentity) (sheets : list SheetIdentity) : str :=
  join (js " · ") (filterb truthy
    [if truthy (sh_scheduledAt plan) then js "Scheduled " ++ dateLabel (sh_scheduledAt plan) else [];
     trim (sh_location plan); sheetReference plan sheets]).

(** The loop ends with its condition false, after as many turns as the id has characters
    at most. *)
Lemma lengthen_done fuel plan repeated n : (length (sh_id plan) ≤ n + fuel)%nat →
  (n ≤ length (sh_id plan))%nat →
  ambiguous plan repeated (lengthen fuel plan repeated n) = false ∧
  (n ≤ lengthen fuel plan repeated n ≤ length (sh_id plan))%nat.
Proof.
  revert n. induction fuel as [|fuel IH]; intros n Hf Hn; simpl.
  - split; [|lia]. unfold ambiguous. by rewrite (proj2 (Nat.ltb_ge _ _)) by lia.
  - destruct (ambiguous plan repeated n) eqn:Ea; [|split; [done|lia]].
    unfold ambiguous in Ea. apply andb_true_iff in Ea as [Hlt%Nat.ltb_lt _].
    destruct (IH (n + 1)%nat ltac:(lia) ltac:(lia)). split; [done|lia].
Qed.

Lemma startsWith_take n s t : take n s = take n t → (n ≤ length s)%nat → (n ≤ length t)%nat →
  startsWith (take n s) t = true.
Proof.
  revert s t. induction n as [|n IH]; intros [|c s] [|d t]; simpl; try done; try lia.
  intros [= -> Ht] Hs Hl. rewrite N.eqb_refl. simpl. apply IH; [done|lia|lia].
Qed.

Lemma startsWith_whole s t : startsWith s t = true → ∃ w, t = s ++ w.
Proof.
  revert t. induction s as [|c s IH]; intros t; simpl; [by exists t|].
  destruct t as [|d t]; [done|]. intros [->%N.eqb_eq [w ->]%IH]%andb_true_iff. by exists w.
Qed.

(** Two sheets of one voyage with the same title and scope are given different
    references, whatever their ids, as long as neither id extends the other; the loop that
    lengthens the reference always ends. *)
Theorem references_differ (a b : SheetIdentity) (sheets : list SheetIdentity)
    (Ha : b ∈ repeats a sheets) (Hb : a ∈ repeats b sheets)
    (Hab : ∀ w, sh_id b ≠ sh_id a ++ w) (Hba : ∀ w, sh_id a ≠ sh_id b ++ w) :
  sheetReference a sheets ≠ sheetReference b sheets ∧
  ambiguous a (repeats a sheets) (referenceLength a (repeats a sheets)) = false.
Proof.
  assert (Hdone : ∀ p l, ambiguous p l (referenceLength p l) = false ∧
    (referenceLength p l ≤ length (sh_id p))%nat).
  { intros p l. destruct (lengthen_done (length (sh_id p)) p l (Nat.min 8 (length (sh_id p)))
      ltac:(lia) ltac:(lia)) as [H1 H2]. split; [exact H1|exact (proj2 H2)]. }
  destruct (Hdone a (repeats a sheets)) as [Da La]. split; [|done]. unfold sheetReference.
  destruct (repeats a sheets) as [|x l] eqn:Era; [by apply elem_of_nil in Ha|]. rewrite <- Era in *.
  destruct (repeats b sheets) as [|y l'] eqn:Erb; [by apply elem_of_nil in Hb|]. rewrite <- Erb in *.
  rewrite (proj2 (Nat.eqb_neq _ _)) by (by rewrite Era). rewrite (proj2 (Nat.eqb_neq _ _)) by (by rewrite Erb).
  intros He%app_inv_head. set (n := referenceLength a (repeats a sheets)) in *.
  set (m := referenceLength b (repeats b sheets)) in *.
  destruct (Hdone b (repeats b sheets)) as [_ Lb]. fold m in Lb.
  assert (Hnm : n = m).
  { apply (f_equal length) in He. rewrite !length_take in He. lia. }
  rewrite <- Hnm in *. unfold ambiguous in Da.
  assert (Hex : existsb (λ other, startsWith (take n (sh_id a)) (sh_id other)) (repeats a sheets) = true).
  { apply existsb_true. exists b. split; [done|]. by apply startsWith_take. }
  rewrite Hex, andb_true_r in Da. apply Nat.ltb_ge in Da.
  rewrite (take_ge (sh_id a)) in He by lia. apply (Hab (drop n (sh_id b))).
  by rewrite He, take_drop.
Qed.
End Sheets.

Definition sheetA : SheetIdentity :=
  mkSheet (js "5f0c1a2b-aaaa") (js "c1") (js "Crude export") (js "full") (js "2026-07-01T06:00:00Z") (js "Berth 4").
Definition sheetB : SheetIdentity :=
  mkSheet (js "5f0c1a2b-bbbb") (js "c1") (js " crude  EXPORT") (js "full") (js "2026-07-01T06:00:00Z") (js "Berth 4").
Example references_ex :
  sheetReference (H := asciiHost) sheetA [sheetA; sheetB] = js "Sheet 5f0c1a2b-a" ∧
  sheetReference (H := asciiHost) sheetA [sheetA] = [].
Proof. split; vm_compute; reflexivity. Qed.

Lemma references_differ_witness :
  sheetReference (H := asciiHost) sheetA [sheetA; sheetB] ≠ sheetReference (H := asciiHost) sheetB [sheetA; sheetB].
Proof.
  apply (references_differ (H := asciiHost) sheetA sheetB [sheetA; sheetB]).
  - vm_compute. apply list_elem_of_here.
  - vm_compute. apply list_elem_of_here.
  - intros w Hw. apply (f_equal (take 11)) in Hw. vm_compute in Hw. discriminate.
  - intros w Hw. apply (f_equal (take 11)) in Hw. vm_compute in Hw. discriminate.
Defined.
