(* ===== verification/ReadingsWorkspace.v ===== *)
(** * The readings workspace (frontend/src/screens/VoyageReadings.tsx)

    The draft of the final quantities, what still stops it, and the handlers that submit,
    approve and return a version through the closeout store. *)
From S2P Require Import Prelude JsString Json Codec MeasurementTypes Host Samples Helpers Comparison Cargo CloseoutTypes Closeout Storage CloseoutStore CloseoutInvariants AppTypes VoyageStatus ReadingsModel Tariffs InvoiceDraft.

(** [FinalEntry] has the fields of one entry of an [ApprovalInput]. *)
Abbreviation FinalEntry := ApprovalLine.
Record Draft := mkDraft { dr_fingerprint : str; dr_reason : str; dr_lines : list FinalEntry }.

(** [value.replace(/\.$/, "")] *)
Definition dropFinalDot (value : str) : str :=
  match rev value with c :: r => if N.eqb c cDot then rev r else value | [] => value end.
Definition plainQuantity (value : str) : str :=
  if existsb (N.eqb cDot) value then dropFinalDot (stripZeros value) else value.

(** [/^\d{1,15}(?:\.\d{1,3})?$/] *)
Definition finalText (text : str) : bool :=
  match split cDot text with
  | [w] => boundedDigits 15 w
  | [w; f] => boundedDigits 15 w && boundedDigits 3 f
  | _ => false
  end.
(** [/\.0{1,3}$/] *)
Definition wholeFraction (text : str) : bool :=
  match rev (split cDot text) with
  | f :: _ :: _ => allZeros f && (1 <=? length f)%nat && (length f <=? 3)%nat
  | _ => false
  end.
Definition validFinalQuantity (value : str) (unit : QuantityUnit) : bool :=
  let text := trim value in
  finalText text
  && (negb (bool_decide (unit = count)) || negb (existsb (N.eqb cDot) text) || wholeFraction text).

Section Workspace.
Context `{Host}.

(** ** The draft *)

Definition isEntry (row : ReadingRow) (entry : FinalEntry) : bool :=
  streq (apl_planId entry) (plan_id (row_plan row)) && streq (apl_lineId entry) (line_id (row_line row)).
Definition initialEntry (base : option PreviewReport) (row : ReadingRow) : FinalEntry :=
  let entry := mkApprovalLine (plan_id (row_plan row)) (line_id (row_line row)) in
  match base ≫= λ report, findb (λ line, streq (prl_planId line) (plan_id (row_plan row))
                                       && streq (prl_lineId line) (line_id (row_line row))) (rep_lines report) with
  | Some previous => entry (plainQuantity (prl_quantity previous)) (prl_reason previous)
  | None =>
    if row_agree row then entry (plainQuantity (default [] (manifestQuantity (row_line row)))) AUTO_REASON
    else entry [] []
  end.
Definition initialDraft (plans : list MeasurementPlan) (rows : list ReadingRow) (base : option PreviewReport) : Draft :=
  mkDraft (voyageInputFingerprint plans) (default [] (rep_reason <$> base)) (map (initialEntry base) rows).

Definition rowIssues (draft : Draft) (row : ReadingRow) : list str :=
  match findb (isEntry row) (dr_lines draft) with
  | Some entry =>
    if negb (validFinalQuantity (apl_quantity entry) (unit_ (row_line row)))
    then [js "Choose the final quantity for " ++ cargoHeading (row_line row) ++ js "."]
    else if isEmpty (trim (apl_reason entry))
    then [js "Explain the final quantity for " ++ cargoHeading (row_line row) ++ js "."] else []
  | None => [js "Choose the final quantity for " ++ cargoHeading (row_line row) ++ js "."]
  end.
Definition draftIssues (rows : list ReadingRow) (draft : Draft) : list str :=
  flat_map (rowIssues draft) rows
  ++ (if isEmpty (trim (dr_reason draft)) then [js "Add a review note."] else []).

(** The inputs of the form. *)
Definition updateLine (planId lineId : str) (patch : FinalEntry → FinalEntry) (draft : Draft) : Draft :=
  mkDraft (dr_fingerprint draft) (dr_reason draft)
    (map (λ line, if streq (apl_planId line) planId && streq (apl_lineId line) lineId then patch line else line)
       (dr_lines draft)).
Definition setQuantity (quantity : str) (entry : FinalEntry) : FinalEntry :=
  mkApprovalLine (apl_planId entry) (apl_lineId entry) quantity (apl_reason entry).
Definition setReason (reason : str) (entry : FinalEntry) : FinalEntry :=
  mkApprovalLine (apl_planId entry) (apl_lineId entry) (apl_quantity entry) reason.
Definition setNote (reason : str) (draft : Draft) : Draft :=
  mkDraft (dr_fingerprint draft) reason (dr_lines draft).

(** ** What the table shows *)

Definition cellTone (cells : list ReadingCell) : str :=
  if existsb (λ cell, match cell_difference cell with Some d => startsWith (js "-") d | None => false end) cells
  then js "below"
  else if existsb (λ cell, match cell_difference cell with
                           | Some d => truthy d && negb (streq d (js "0")) | None => false end) cells
  then js "above" else [].

Inductive OutcomeShown :=
| out_noDeclaration | out_finalNeeded | out_matches
| out_above (amount : str) | out_below (amount : str).
(** [value.replace(/^[+-]/, "")] *)
Definition dropSign (value : str) : str :=
  match value with c :: rest => if N.eqb c cPlus || N.eqb c cMinus then rest else value | [] => [] end.
Definition Outcome (quantity declared : option str) : OutcomeShown :=
  let result := tallyResult quantity declared in
  let amount := readingQuantity (Some (dropSign (default [] (tally_difference result)))) in
  match tally_status result with
  | unknown => match declared with None => out_noDeclaration | Some _ => out_finalNeeded end
  | tallies => out_matches
  | above => out_above amount
  | below => out_below amount
  end.
Definition visibleRows (differencesOnly : bool) (rows : list ReadingRow) : list ReadingRow :=
  filterb (λ row, negb differencesOnly || negb (row_agree row)) rows.

(** [Timeline]: done, title, detail; [dateLabel] is the browser's locale. *)
Definition Timeline (dateLabel : str → str) (report : PreviewReport) (invoiceNumber : option str)
  : list (bool * str * option str) :=
  let status := reportStatus report in
  let name (a : option Actor) := default (js "undefined") (actor_name <$> a) in
  let date (at_ : option str) := t ← at_; if truthy t then Some (dateLabel t) else None in
  match rep_preparedBy report with
  | Some by_ => [(true, js "Prepared by " ++ actor_name by_, date (rep_preparedAt report));
                 (true, js "Submitted for approval", None)]
  | None => [(true, js "Approved directly", Some (js "Saved before the second-review step"))]
  end
  ++ (if bool_decide (status = rs_returned)
      then [(true, js "Returned by " ++ name (rep_returnedBy report),
             Some (default [] (date (rep_returnedAt report))
                   ++ js " · “" ++ default (js "undefined") (rep_returnComment report) ++ js "”"))] else [])
  ++ (match rep_approvedBy report with
      | Some by_ => if bool_decide (status = rs_approved)
          then [(true, js "Approved by " ++ actor_name by_ ++ js " · version "
                 ++ printZ (rep_revision report) ++ js " locked", date (rep_approvedAt report))] else []
      | None => [] end)
  ++ (match invoiceNumber with
      | Some number => if bool_decide (status = rs_approved) && truthy number
          then [(true, js "Variation invoice " ++ number ++ js " drafted", None)] else []
      | None => [] end)
  ++ (if bool_decide (status = rs_submitted)
      then [(false, js "Waiting for a second reviewer to approve or return it", None)] else []).

(** ** The workspace *)

(** What the screen reads: the voyage, its record, the user and the tariff. *)
Record VoyageData := mkVoyage {
  vd_orgId : option str; vd_callId : str; vd_call : option VesselCall; vd_plans : list MeasurementPlan;
  vd_record : CloseoutRecord; vd_user : option Actor; vd_manage : bool; vd_approve : bool;
  vd_tariff : option VariationTariff }.

Record ReadingsState := mkReadings {
  rw_revising : bool; rw_draft : Draft; rw_differencesOnly : bool; rw_returnComment : str;
  rw_notice : option str }.

Definition summaryOf (v : VoyageData) : VoyageSummary :=
  summarizeVoyage (vd_callId v) (vd_call v) (vd_plans v) (Some (vd_record v)).
Definition sheetsOf (v : VoyageData) : list MeasurementPlan := openPlans (vd_plans v).
Definition columnsOf (v : VoyageData) : list AgencyColumn := agencyColumns (sheetsOf v).
Definition rowsOf (v : VoyageData) : list ReadingRow := readingRows (sheetsOf v) (columnsOf v).
Definition fingerprintOf (v : VoyageData) : str := voyageInputFingerprint (sheetsOf v).
Definition canEdit (v : VoyageData) : bool :=
  vd_manage v && negb (bool_decide (vs_stage (summaryOf v) = g_cancelled)).
Definition canApprove (v : VoyageData) : bool :=
  vd_approve v && negb (bool_decide (vs_stage (summaryOf v) = g_cancelled)).
Definition returnedOf (v : VoyageData) : option PreviewReport :=
  report ← vs_returned (summaryOf v);
  if streq (rep_sourceFingerprint report) (fingerprintOf v) then Some report else None.
Definition staleApproval (v : VoyageData) : bool :=
  bool_decide (vs_report (summaryOf v) = None) && bool_decide (vs_pending (summaryOf v) = None)
  && existsb (λ report, bool_decide (reportStatus report = rs_approved)) (cr_reports (vd_record v)).

Definition openReadings (v : VoyageData) : ReadingsState :=
  mkReadings false (initialDraft (sheetsOf v) (rowsOf v) (returnedOf v)) false [] None.
Definition editing (v : VoyageData) (s : ReadingsState) : bool :=
  canEdit v && bool_decide (vs_pending (summaryOf v) = None)
  && (bool_decide (vs_report (summaryOf v) = None) || rw_revising s).
Definition staleDraft (v : VoyageData) (s : ReadingsState) : bool :=
  negb (streq (dr_fingerprint (rw_draft s)) (fingerprintOf v)).

Definition withDraft (draft : Draft) (s : ReadingsState) : ReadingsState :=
  mkReadings (rw_revising s) draft (rw_differencesOnly s) (rw_returnComment s) (rw_notice s).
Definition editLine (planId lineId : str) (patch : FinalEntry → FinalEntry) (s : ReadingsState) : ReadingsState :=
  withDraft (updateLine planId lineId patch (rw_draft s)) s.
Definition editNote (reason : str) (s : ReadingsState) : ReadingsState :=
  withDraft (setNote reason (rw_draft s)) s.
Definition loadLatest (v : VoyageData) (s : ReadingsState) : ReadingsState :=
  mkReadings (rw_revising s) (initialDraft (sheetsOf v) (rowsOf v) (returnedOf v)) (rw_differencesOnly s)
    (rw_returnComment s) (Some (js "Latest readings loaded. Check each differing line again.")).
Definition startRevision (v : VoyageData) (s : ReadingsState) : ReadingsState :=
  mkReadings true (initialDraft (sheetsOf v) (rowsOf v) (vs_report (summaryOf v))) (rw_differencesOnly s)
    (rw_returnComment s) None.

Definition cancelRevision (s : ReadingsState) : ReadingsState :=
  mkReadings false (rw_draft s) (rw_differencesOnly s) (rw_returnComment s) (rw_notice s).
Definition toggleDifferences (s : ReadingsState) : ReadingsState :=
  mkReadings (rw_revising s) (rw_draft s) (negb (rw_differencesOnly s)) (rw_returnComment s) (rw_notice s).
Definition setReturnComment (comment : str) (s : ReadingsState) : ReadingsState :=
  mkReadings (rw_revising s) (rw_draft s) (rw_differencesOnly s) comment (rw_notice s).

Definition trimEntry (entry : FinalEntry) : FinalEntry :=
  mkApprovalLine (apl_planId entry) (apl_lineId entry) (trim (apl_quantity entry)) (trim (apl_reason entry)).
Definition approvalOf (draft : Draft) : ApprovalInput :=
  mkApprovalInput (trim (dr_reason draft)) (map trimEntry (dr_lines draft)).

(** The handlers; [None] when the button does nothing.  A save that fails leaves the form as
    it is. *)
Definition mayReview (v : VoyageData) (s : ReadingsState) : bool :=
  editing v s && negb (staleDraft v s)
  && match reconciliationIssues (sheetsOf v) with [] => true | _ => false end
  && match draftIssues (rowsOf v) (rw_draft s) with [] => true | _ => false end.
Definition submit (v : VoyageData) (uuid uuid' now : str) (s : ReadingsState) (st : Storage)
  : option (Storage * result str PreviewReport * ReadingsState) :=
  actor ← vd_user v;
  if mayReview v s then
    let '(st', saved) := mutate (vd_orgId v) (vd_callId v)
      (submitReport (vd_callId v) (sheetsOf v) (approvalOf (rw_draft s)) actor uuid uuid' now) st in
    Some (st', saved, match saved with
      | Ok report => mkReadings false (rw_draft s) (rw_differencesOnly s) (rw_returnComment s)
          (Some (js "Version " ++ printZ (rep_revision report) ++ js " sent for approval."))
      | Err _ => s end)
  else None.
Definition approve (v : VoyageData) (uuid uuid' uuid'' now now' : str) (s : ReadingsState) (st : Storage)
  : option (Storage * result str ApprovalOutcome * ReadingsState) :=
  actor ← vd_user v; pending ← vs_pending (summaryOf v);
  let '(st', result) := mutate (vd_orgId v) (vd_callId v)
    (approveReport (vd_callId v) (sheetsOf v) (rep_id pending) actor
       (Some (invoiceInputFor pending (sheetsOf v) (vs_declaration (summaryOf v)) (vd_tariff v)))
       uuid uuid' uuid'' now now') st in
  Some (st', result, match result with
    | Ok outcome => mkReadings (rw_revising s) (rw_draft s) (rw_differencesOnly s) (rw_returnComment s)
        (Some (js "Version " ++ printZ (rep_revision (ao_report outcome)) ++ match ao_invoice outcome with
          | Some invoice => js " approved. Variation invoice " ++ inv_number invoice ++ js " has been drafted."
          | None => js " approved. Complete the invoice details to draft the variation invoice." end))
    | Err _ => s end).
Definition sendBack (v : VoyageData) (uuid now : str) (s : ReadingsState) (st : Storage)
  : option (Storage * result str PreviewReport * ReadingsState) :=
  actor ← vd_user v; pending ← vs_pending (summaryOf v);
  if isEmpty (trim (rw_returnComment s)) then None else
  let '(st', result) := mutate (vd_orgId v) (vd_callId v)
    (returnReport (vd_callId v) (rep_id pending) actor (rw_returnComment s) uuid now) st in
  Some (st', result, match result with
    | Ok report => mkReadings (rw_revising s) (initialDraft (sheetsOf v) (rowsOf v) (Some report))
        (rw_differencesOnly s) []
        (Some (js "Version " ++ printZ (rep_revision report) ++ js " returned to "
           ++ default (js "the preparer") (actor_name <$> rep_preparedBy report) ++ js "."))
    | Err _ => s end).
(** The review buttons are shown to a second reviewer only. *)
Definition reviewShown (v : VoyageData) : bool :=
  match vs_pending (summaryOf v), vd_user v with
  | Some pending, Some actor => canApprove v
      && negb (bool_decide (actor_id <$> rep_preparedBy pending = Some (actor_id actor)))
  | _, _ => false
  end.
End Workspace.

(** ** Lemmas: final quantities *)

Lemma finalText_decimal text : finalText text = true →
  ∃ w f, text = withFraction w f ∧ matchDecimal text = Some (w, f) ∧
    (length w ≤ 15)%nat ∧ (length f ≤ 3)%nat ∧ (f ≠ [] → split cDot text = [w; f]).
Proof.
  unfold finalText, boundedDigits, matchDecimal. pose proof (join_split cDot text) as Hj.
  destruct (split cDot text) as [|w [|f [|]]]; try done; simpl in Hj.
  - intros [Hw Hl%Nat.leb_le]%andb_true_iff. exists w, []. rewrite Hw. unfold withFraction. simpl.
    rewrite app_nil_r. by split_and!; [|done|done|lia|].
  - intros [[Hw Lw%Nat.leb_le]%andb_true_iff [Hf Lf%Nat.leb_le]%andb_true_iff]%andb_true_iff.
    exists w, f. rewrite Hw, Hf. unfold withFraction. apply digits1_split in Hf as [Hne _].
    destruct f; [done|]. by split_and!.
Qed.

Lemma dot_in s : existsb (N.eqb cDot) s = true ↔ cDot ∈ s.
Proof.
  rewrite existsb_true. split; [by intros (c & Hc & <-%N.eqb_eq)|intros Hc; exists cDot; split; [done|reflexivity]].
Qed.
Lemma dot_withFraction w f : allDigits w = true → existsb (N.eqb cDot) (withFraction w f) = truthy f.
Proof.
  intros Hw. unfold withFraction. destruct f as [|c f]; simpl.
  - rewrite app_nil_r. apply not_true_iff_false. rewrite dot_in. by apply allDigits_not_in.
  - apply dot_in. rewrite elem_of_app. right. apply list_elem_of_here.
Qed.

(** A final quantity is one [submitReport] can read, whole for counted cargo. *)
Lemma validFinalQuantity_decimal q unit : validFinalQuantity q unit = true →
  ∃ v, Closeout.decimal (Some q) 3 15 = Some v ∧ (unit = count → v mod 1000 = 0).
Proof.
  unfold validFinalQuantity. intros [Ht Hu]%andb_true_iff.
  destruct (finalText_decimal _ Ht) as (w & f & Htext & Hm & Lw & Lf & Hsplit).
  pose proof (matchDecimal_digits _ _ _ Hm) as (Hne & Hw & Hf).
  unfold Closeout.decimal. cbn [mbind option_bind]. rewrite Hm. cbn [mbind option_bind].
  rewrite (proj2 (Nat.ltb_ge _ _) Lw), (proj2 (Nat.ltb_ge _ _) Lf). cbn [orb].
  eexists. split; [done|]. intros ->.
  rewrite bigOfDigits_padEnd. change (pow10 3) with 1000. rewrite Z.add_comm, Z.mod_add by done.
  rewrite Htext, dot_withFraction in Hu by done. destruct f as [|c f]; [done|]. cbn in Hu.
  assert (Hz : allZeros (c :: f) = true).
  { rewrite <- Htext in Hu. unfold wholeFraction in Hu. rewrite Hsplit in Hu by done. simpl rev in Hu.
    by apply andb_true_iff in Hu as [[Hz _]%andb_true_iff _]. }
  apply allZeros_replicate in Hz. rewrite Hz, bigOfDigits_zeros. reflexivity.
Qed.

Lemma dropFinalDot_snoc w : dropFinalDot (w ++ [cDot]) = w.
Proof. unfold dropFinalDot. rewrite rev_app_distr. simpl. by rewrite rev_involutive. Qed.
Lemma dropFinalDot_id w c : c ≠ cDot → dropFinalDot (w ++ [c]) = w ++ [c].
Proof.
  intros Hc. unfold dropFinalDot. rewrite rev_app_distr. simpl. by rewrite (proj2 (N.eqb_neq c cDot) Hc).
Qed.
Lemma allDigits_last s c : allDigits (s ++ [c]) = true → c ≠ cDot.
Proof. rewrite allDigits_app, andb_true_iff. by intros [_ Hc] ->. Qed.

Lemma plainQuantity_withFraction w f : allDigits w = true → allDigits f = true →
  plainQuantity (withFraction w f) = withFraction w (stripZeros f).
Proof.
  intros Hw Hf. unfold plainQuantity. rewrite dot_withFraction by done.
  destruct f as [|c f]; [done|]. cbn [truthy isEmpty negb]. unfold withFraction at 1. cbn [truthy isEmpty negb].
  rewrite (stripZeros_app w (cDot :: c :: f) cDot) by (done || apply list_elem_of_here).
  destruct (strip_decompose (c :: f)) as (t & k & Hcf & [->|(t' & d & -> & Hd)]); rewrite Hcf.
  - cbn [app]. rewrite stripZeros_zeros. assert (E := stripZeros_snoc [] cDot k ltac:(done)). cbn [app] in E.
    rewrite E, dropFinalDot_snoc. unfold withFraction. simpl. by rewrite app_nil_r.
  - assert (E := stripZeros_snoc t' d k Hd). assert (E' := stripZeros_snoc (cDot :: t') d k Hd).
    rewrite <- app_assoc. cbn [app] in *. rewrite E, E'.
    change (cDot :: t' ++ [d]) with ((cDot :: t') ++ [d]). rewrite app_assoc, dropFinalDot_id.
    + unfold withFraction. destruct (t' ++ [d]) eqn:Et; [by destruct t'|]. cbn [truthy isEmpty negb].
      rewrite <- Et, <- !app_assoc. done.
    + rewrite Hcf, allDigits_app in Hf. apply andb_true_iff in Hf as [Hf _]. by eapply allDigits_last.
Qed.

Lemma stripZeros_last s : stripZeros s = [] ∨ ∃ t c, stripZeros s = t ++ [c] ∧ c ≠ cZero.
Proof.
  destruct (strip_decompose s) as (t & k & -> & [->|(t' & c & -> & Hc)]).
  - left. apply stripZeros_zeros.
  - right. exists t', c. split; [|done]. rewrite <- app_assoc. by apply stripZeros_snoc.
Qed.

(** Dropping the zeros of a fraction keeps the quantity and makes it a valid entry. *)
Lemma plainQuantity_valid q unit v : trim q = q → Closeout.decimal (Some q) 3 15 = Some v →
  (unit = count → v mod 1000 = 0) →
  validFinalQuantity (plainQuantity q) unit = true ∧
  Closeout.decimal (Some (plainQuantity q)) 3 15 = Some v.
Proof.
  intros Htrim Hv Hu. unfold Closeout.decimal in Hv. cbn [mbind option_bind] in Hv. rewrite Htrim in Hv.
  destruct (matchDecimal q) as [[w f]|] eqn:Em; [|done]. cbn [mbind option_bind] in Hv.
  destruct (_ || _) eqn:G; [done|]. apply orb_false_iff in G as [Lw%Nat.ltb_ge Lf%Nat.ltb_ge].
  assert (Hv' : bigOfDigits w * pow10 3 + bigOfDigits (padEnd 3 cZero f) = v) by congruence. clear Hv.
  pose proof (matchDecimal_digits _ _ _ Em) as (Hne & Hw & Hf).
  assert (Hq : q = withFraction w f).
  { unfold matchDecimal in Em. pose proof (join_split cDot q) as Hj.
    destruct (split cDot q) as [|w' [|f' [|]]]; try done; simpl in Hj.
    - destruct (digits1 w'); [|done]. injection Em as <- <-. unfold withFraction. simpl. by rewrite app_nil_r.
    - destruct (digits1 w' && digits1 f') eqn:E; [|done]. injection Em as <- <-.
      apply andb_true_iff in E as [_ [Hne' _]%digits1_split]. unfold withFraction. by destruct f'. }
  subst q. rewrite plainQuantity_withFraction by done.
  destruct (stripZeros_spec f) as [k Hk]. pose proof (stripZeros_digits f Hf) as Hs.
  assert (Lk : (length f = length (stripZeros f) + k)%nat) by (rewrite Hk at 1; by rewrite length_app, length_replicate).
  assert (Hval : bigOfDigits (padEnd 3 cZero f) = bigOfDigits (stripZeros f) * pow10 (3 - length (stripZeros f))).
  { rewrite bigOfDigits_padEnd, Hk at 1. rewrite bigOfDigits_strip, <- Z.mul_assoc, <- pow10_add.
    do 2 f_equal. lia. }
  assert (Hdec : Closeout.decimal (Some (withFraction w (stripZeros f))) 3 15 = Some v).
  { rewrite decimal_text by (done || lia). by rewrite <- Hval, Hv'. }
  split; [|done]. unfold validFinalQuantity. rewrite trim_noWs by (by apply withFraction_noWs).
  apply andb_true_iff. split.
  - unfold finalText, withFraction. assert (Hd : cDot ∉ w) by (by apply allDigits_not_in).
    destruct (stripZeros f) as [|c s] eqn:Ef; cbn [truthy isEmpty negb].
    + rewrite app_nil_r, split_none by done. unfold boundedDigits. apply andb_true_iff.
      split; [by apply digits1_split|by apply Nat.leb_le].
    + rewrite split_app, split_none by (done || by apply allDigits_not_in). unfold boundedDigits.
      rewrite !andb_true_iff. split_and!; [by apply digits1_split|by apply Nat.leb_le|by apply digits1_split|].
      apply Nat.leb_le. lia.
  - destruct (bool_decide (unit = count)) eqn:Ec; [|done]. apply bool_decide_eq_true in Ec.
    rewrite dot_withFraction by done. specialize (Hu Ec). rewrite <- Hv', Hval in Hu.
    change (pow10 3) with 1000 in Hu. rewrite Z.add_comm, Z.mod_add in Hu by done.
    destruct (decide (stripZeros f = [])) as [->|Hne']; [done|]. exfalso.
    destruct (stripZeros_last f) as [|(t & c & Ht & Hc)]; [done|].
    pose proof (bigOfDigits_bound _ Hs) as Hb. pose proof (pow10_pos (3 - length (stripZeros f))) as Hpos.
    assert (Hlt : bigOfDigits (stripZeros f) * pow10 (3 - length (stripZeros f)) < 1000).
    { change 1000 with (pow10 3). replace 3%nat with (length (stripZeros f) + (3 - length (stripZeros f)))%nat at 2 by lia.
      rewrite pow10_add. nia. }
    assert (Hz : bigOfDigits (stripZeros f) = bigOfDigits (replicate (length (stripZeros f)) cZero)).
    { rewrite bigOfDigits_zeros. rewrite Z.mod_small in Hu by nia. nia. }
    apply bigOfDigits_inj in Hz; [|done|apply allDigits_zeros|by rewrite length_replicate].
    assert (Hin : c ∈ stripZeros f) by (rewrite Ht, elem_of_app; right; apply list_elem_of_here).
    rewrite Hz in Hin. apply elem_of_replicate in Hin as [Hin _]. done.
Qed.

(** ** Lemmas: rows, drafts and the lines of a report *)

Section Drafts.
Context `{Host}.

Definition sourceKey (source : MeasurementPlan * CargoLine) : str :=
  itemKey (plan_id source.1) (line_id source.2).
Definition entryKey (entry : FinalEntry) : str := itemKey (apl_planId entry) (apl_lineId entry).

Lemma readingRow_source plan returns columns line :
  (row_plan (readingRow plan returns columns line), row_line (readingRow plan returns columns line)) = (plan, line).
Proof. unfold readingRow. by destruct (foldl _ _ _) as [cells [options complete]]. Qed.
Lemma rows_sources plans columns :
  map (λ row, (row_plan row, row_line row)) (readingRows plans columns) = sourceLinesOf plans.
Proof.
  unfold readingRows, sourceLinesOf. induction plans as [|plan plans IH]; [done|]. simpl.
  rewrite map_app, IH. f_equal. rewrite map_map. apply map_ext. intros line. apply readingRow_source.
Qed.
Lemma source_row plans columns source : source ∈ sourceLinesOf plans →
  ∃ row, row ∈ readingRows plans columns ∧ (row_plan row, row_line row) = source.
Proof.
  rewrite <- (rows_sources plans columns). intros Hin.
  apply list_elem_of_fmap in Hin as (row & -> & Hin). by exists row.
Qed.

(** What the user may do to a draft. *)
Inductive draftStep : Draft → Draft → Prop :=
| ds_quantity planId lineId quantity d : draftStep d (updateLine planId lineId (setQuantity quantity) d)
| ds_reason planId lineId reason d : draftStep d (updateLine planId lineId (setReason reason) d)
| ds_note reason d : draftStep d (setNote reason d).

Lemma initialDraft_keys plans rows base :
  map entryKey (dr_lines (initialDraft plans rows base)) = map sourceKey (map (λ row, (row_plan row, row_line row)) rows).
Proof.
  unfold initialDraft. cbn [dr_lines]. rewrite !map_map. apply map_ext. intros row.
  unfold initialEntry. by destruct (base ≫= _), (row_agree row).
Qed.
Lemma draftStep_keys d d' : draftStep d d' → map entryKey (dr_lines d') = map entryKey (dr_lines d).
Proof.
  intros [p l q e|p l q e|q e]; [..|done]; cbn [updateLine dr_lines]; rewrite map_map;
    apply map_ext; intros a; by destruct (_ && _).
Qed.
Lemma draft_keys plans columns base d :
  rtc draftStep (initialDraft plans (readingRows plans columns) base) d →
  map entryKey (dr_lines d) = map sourceKey (sourceLinesOf plans).
Proof.
  intros Hd. rewrite <- (rows_sources plans columns), <- (initialDraft_keys plans _ base).
  induction Hd as [d|d e f Hs _ IH]; [done|]. by rewrite IH, (draftStep_keys _ _ Hs).
Qed.

Lemma rmapM_total {A B E} (f : A → result E B) l : (∀ x, x ∈ l → ∃ y, f x = Ok y) → ∃ ys, rmapM f l = Ok ys.
Proof.
  induction l as [|x l IH]; intros Hf; simpl; [by exists []|].
  destruct (Hf x (list_elem_of_here _ _)) as [y ->].
  destruct IH as [ys ->]; [by intros; apply Hf, list_elem_of_further|]. simpl. by eexists.
Qed.

(** An entry a draft has no issue with becomes a line of the report. *)
Lemma entry_line d plans columns source : draftIssues (readingRows plans columns) d = [] →
  source ∈ sourceLinesOf plans →
  ∃ line, finalLine (map trimEntry (dr_lines d)) source = Ok line.
Proof.
  intros Hi Hin. destruct (source_row plans columns source Hin) as (row & Hrow & <-).
  unfold draftIssues in Hi. apply app_eq_nil in Hi as [Hi _]. rewrite flat_map_nil in Hi.
  specialize (Hi row Hrow). unfold rowIssues in Hi. unfold finalLine. rewrite findb_map.
  change (findb _ (dr_lines d)) with (findb (isEntry row) (dr_lines d)).
  destruct (findb (isEntry row) (dr_lines d)) as [entry|]; [|done]. simpl fmap. cbn iota.
  destruct (validFinalQuantity (apl_quantity entry) (unit_ (row_line row))) eqn:Hv; [|done]. simpl in Hi.
  destruct (validFinalQuantity_decimal _ _ Hv) as (v & Hd & Hu).
  assert (Hd' : Closeout.decimal (Some (apl_quantity (trimEntry entry))) 3 15 = Some v).
  { unfold Closeout.decimal in Hd |- *. cbn [mbind option_bind trimEntry apl_quantity] in *. by rewrite trim_trim. }
  rewrite Hd'. assert (Hc : bool_decide (unit_ (row_line row) = count) && negb (v mod 1000 =? 0) = false).
  { case_bool_decide as Hunit; [|done]. rewrite (Hu Hunit). reflexivity. }
  rewrite Hc. cbn [throw_if rbind trimEntry apl_reason]. rewrite trim_trim.
  destruct (isEmpty (trim (apl_reason entry))); [done|]. by eexists.
Qed.

(** The report line of an entry, when the keys of the draft are distinct. *)
Lemma line_of_entry d (plans : list MeasurementPlan) lines entry :
  NoDup (map entryKey (dr_lines d)) → map entryKey (dr_lines d) ≡ₚ map sourceKey (sourceLinesOf plans) →
  rmapM (finalLine (map trimEntry (dr_lines d))) (sourceLinesOf plans) = Ok lines →
  entry ∈ dr_lines d →
  ∃ line, line ∈ lines ∧ entryKey entry = lineKey line ∧
    prl_quantity line = trim (apl_quantity entry) ∧ prl_reason line = trim (apl_reason entry).
Proof.
  intros Hnd Hperm Hl%rmapM_Ok Hin.
  assert (Hk : entryKey entry ∈ map sourceKey (sourceLinesOf plans)) by (rewrite <- Hperm; by apply list_elem_of_fmap_2).
  apply list_elem_of_fmap in Hk as (source & Hk & [i Hi]%list_elem_of_lookup).
  destruct (Forall2_lookup_l _ _ _ _ _ Hl Hi) as (line & Hline & Hf). exists line.
  split; [by eapply list_elem_of_lookup_2|]. clear Hl Hi. destruct source as [plan l]. unfold finalLine in Hf.
  rewrite findb_map in Hf. destruct (findb _ (dr_lines d)) as [e|] eqn:Ef; [|done]. cbn [fmap option_fmap option_map] in Hf.
  apply findb_Some in Ef as [He Hkey].
  apply andb_true_iff in Hkey as [Hp%streq_true Hl%streq_true]. cbn [trimEntry apl_planId apl_lineId] in Hp, Hl.
  assert (e = entry) as ->.
  { apply (NoDup_map_inj entryKey _ _ _ Hnd He Hin). rewrite Hk. unfold entryKey, sourceKey. by rewrite Hp, Hl. }
  destruct (Closeout.decimal _ 3 15) as [v|]; [|done]. run_ok Hf. injection Hf as <-.
  cbn [trimEntry apl_planId apl_lineId apl_quantity apl_reason]. by rewrite trim_trim.
Qed.

(** What submitting figures leaves: one more version, the next of the voyage, waiting for
    review, by this preparer and from the sheets as they are, with its event, and everything
    else as it was. *)
Definition addsVersion (callId : str) (plans : list MeasurementPlan) (actor : Actor)
    (uuid uuid' now : str) (record record' : CloseoutRecord) (report : PreviewReport) : Prop :=
  cr_reports record' = cr_reports record ++ [report] ∧
  cr_events record' = cr_events record
    ++ [mkEvent uuid' callId now actor report_submitted (versionText (rep_revision report))] ∧
  cr_callId record' = cr_callId record ∧ cr_invoices record' = cr_invoices record ∧
  cr_declaration record' = cr_declaration record ∧
  rep_id report = uuid ∧ rep_callId report = callId ∧
  rep_revision report = match last (cr_reports record) with Some p => rep_revision p + 1 | None => 1 end ∧
  rep_status report = Some rs_submitted ∧ rep_preparedBy report = Some actor ∧
  rep_preparedAt report = Some now ∧ rep_approvedBy report = None ∧ rep_returnedBy report = None ∧
  rep_sourceFingerprint report = voyageInputFingerprint plans ∧ rep_sourcePlans report = activePlans plans.
(** The latest version waits for review with these very figures. *)
Definition alreadyWaiting (plans : list MeasurementPlan) (note : str) (lines : list PreviewReportLine)
    (record : CloseoutRecord) (report : PreviewReport) : Prop :=
  last (cr_reports record) = Some report ∧ reportStatus report = rs_submitted ∧
  rep_sourceFingerprint report = voyageInputFingerprint plans ∧ rep_reason report = note ∧
  rep_lines report = lines.

Lemma lines_keys entries plans lines :
  rmapM (finalLine entries) (sourceLinesOf plans) = Ok lines →
  map lineKey lines ≡ₚ map sourceKey (sourceLinesOf plans).
Proof.
  intros Hl%rmapM_Ok. induction Hl as [|[plan l] line sources lines Hf _ IH]; [done|].
  cbn [map]. rewrite IH. assert (He : lineKey line = sourceKey (plan, l)); [|by rewrite He].
  unfold finalLine in Hf. destruct (findb _ entries) as [e|] eqn:Ef; [|done].
  apply findb_Some in Ef as [_ [Hp%streq_true Hlid%streq_true]%andb_true_iff].
  destruct (Closeout.decimal _ 3 15) as [v|]; [|done]. run_ok Hf. injection Hf as <-.
  unfold lineKey, sourceKey. cbn. by rewrite Hp, Hlid.
Qed.

(** A version, new or already waiting, has the lines and the note that were submitted. *)
Lemma submitReport_total callId plans input actor u u' now r :
  reconciliationIssues plans = [] → (∀ plan, plan ∈ activePlans plans → plan_callId plan = callId) →
  trim (api_reason input) ≠ [] →
  length (api_lines input) = length (sourceLinesOf (activePlans plans)) →
  NoDup (map entryKey (api_lines input)) →
  (∀ source, source ∈ sourceLinesOf (activePlans plans) → ∃ line, finalLine (api_lines input) source = Ok line) →
  ∃ r' rep lines, submitReport callId plans input actor u u' now r = Ok (r', rep) ∧
    rmapM (finalLine (api_lines input)) (sourceLinesOf (activePlans plans)) = Ok lines ∧
    rep_lines rep = lines ∧ rep_reason rep = trim (api_reason input) ∧
    ((r' = r ∧ alreadyWaiting plans (trim (api_reason input)) lines r rep) ∨
     ((∀ waiting, ¬ alreadyWaiting plans (trim (api_reason input)) lines r waiting) ∧
      addsVersion callId plans actor u u' now r r' rep)).
Proof.
  intros Hready Hcall Hnote Hlen Hnd Hlines. unfold submitReport.
  assert (Hi : reconciliationIssues (activePlans plans) = []).
  { unfold reconciliationIssues in Hready |- *. by rewrite activePlans_idem. }
  rewrite Hi. assert (He : existsb (λ plan, negb (streq (plan_callId plan) callId)) (activePlans plans) = false).
  { apply existsb_false. intros plan Hp. rewrite (Hcall plan Hp), streq_refl. done. }
  rewrite He. cbn [app firstIssue rbind]. destruct (trim (api_reason input)) as [|c note] eqn:En; [done|].
  cbn [isEmpty throw_if rbind]. change (map (λ line, itemKey (apl_planId line) (apl_lineId line)) (api_lines input))
    with (map entryKey (api_lines input)).
  unfold uniq. rewrite uniq_from_id by (done || set_solver). rewrite length_map, Hlen, Nat.eqb_refl.
  cbn [negb orb throw_if rbind]. destruct (rmapM_total _ _ Hlines) as [lines Hl]. rewrite Hl. cbn [rbind].
  rewrite fingerprint_active. unfold alreadyWaiting, addsVersion.
  assert (Hclone : jsonClone (activePlans plans) = activePlans plans) by apply jsonClone_id. rewrite Hclone.
  destruct (last (cr_reports r)) as [p|].
  - destruct (_ && _ && _ && _) eqn:Es.
    + rewrite !andb_true_iff, bool_decide_eq_true, !streq_true in Es. destruct Es as [[[Est Ef] Er] El].
      apply stringify_enc_inj in El. exists r, p, lines. split_and!; [done|done|done|done|]. left. by split_and!.
    + do 3 eexists. split_and!; [reflexivity|done|done|done|]. right. split; [|by split_and!].
      intros waiting ([= <-] & Hst & Hf & Hr & Hls). revert Es.
      rewrite Hst, Hf, Hr, Hls, !streq_refl, bool_decide_eq_true_2 by done. done.
  - do 3 eexists. split_and!; [reflexivity|done|done|done|]. right. split; [by intros waiting [? _]|by split_and!].
Qed.
End Drafts.

(** ** Properties *)

Section Properties.
Context `{Host}.

Lemma openPlans_active plans : activePlans (openPlans plans) = activePlans plans.
Proof. unfold activePlans, openPlans. f_equal. apply filterb_all. by intros p [_ Hp]%elem_of_filterb. Qed.
Lemma active_open plans : activePlans plans ≡ₚ openPlans plans.
Proof. apply sort_by_perm. Qed.
Lemma sources_perm plans plans' : plans ≡ₚ plans' → sourceLinesOf plans ≡ₚ sourceLinesOf plans'.
Proof. apply Permutation_flat_map. Qed.

(** What identifies a cargo line among the sheets: its sheet's id and the line. *)
Definition lineSources (plans : list MeasurementPlan) : list (str * CargoLine) :=
  map (λ source, (plan_id source.1, source.2)) (sourceLinesOf plans).
Lemma lineSources_flat plans :
  lineSources plans = flat_map (λ i : PlanInputs, map (pair (pin_id i)) (pin_lines i)) (map planInputs plans).
Proof.
  unfold lineSources, sourceLinesOf. induction plans as [|plan plans IH]; [done|]. simpl.
  rewrite map_app, IH. f_equal. by rewrite map_map.
Qed.
Lemma lineSources_perm plans plans' : plans ≡ₚ plans' → lineSources plans ≡ₚ lineSources plans'.
Proof. intros Hp. unfold lineSources. by rewrite (sources_perm _ _ Hp). Qed.
Lemma sourceKey_lineSources plans :
  map sourceKey (sourceLinesOf plans) = map (λ s : str * CargoLine, itemKey s.1 (line_id s.2)) (lineSources plans).
Proof. unfold lineSources. by rewrite map_map. Qed.

(** The lines of a version of these sheets, found by key. *)
Definition trimmedReport (report : PreviewReport) : Prop :=
  trim (rep_reason report) = rep_reason report ∧
  ∀ line, line ∈ rep_lines report →
    trim (prl_quantity line) = prl_quantity line ∧ trim (prl_reason line) = prl_reason line.

Lemma report_line callId (report : PreviewReport) (sheets : list MeasurementPlan) source :
  reportOk callId report → rep_sourceFingerprint report = voyageInputFingerprint sheets →
  activePlans sheets ≡ₚ sheets → NoDup (map sourceKey (sourceLinesOf sheets)) →
  source ∈ sourceLinesOf sheets →
  ∃ line, findb (λ line, streq (prl_planId line) (plan_id source.1) && streq (prl_lineId line) (line_id source.2))
      (rep_lines report) = Some line ∧ line ∈ rep_lines report ∧ lineFor source line.
Proof.
  intros Hok Hfp Hact Hnd Hin. rewrite (ro_fingerprint _ _ Hok) in Hfp.
  apply fingerprint_inputs in Hfp. rewrite (ro_active _ _ Hok) in Hfp.
  assert (Hsrc : lineSources (rep_sourcePlans report) ≡ₚ lineSources sheets).
  { rewrite lineSources_flat, Hfp, <- lineSources_flat. by apply lineSources_perm. }
  assert (Hnd' : NoDup (map (λ s : str * CargoLine, itemKey s.1 (line_id s.2)) (lineSources (rep_sourcePlans report)))).
  { rewrite Hsrc, <- sourceKey_lineSources. done. }
  assert (Hin' : (plan_id source.1, source.2) ∈ lineSources (rep_sourcePlans report)).
  { rewrite Hsrc. unfold lineSources. by apply (list_elem_of_fmap_2 (λ s, (plan_id s.1, s.2))). }
  pose proof (ro_lines _ _ Hok) as Hl.
  assert (Hex : ∃ line, line ∈ rep_lines report ∧
    prl_planId line = plan_id source.1 ∧ prl_lineId line = line_id source.2).
  { apply list_elem_of_fmap in Hin' as (src & Heq & [i Hi]%list_elem_of_lookup).
    destruct (Forall2_lookup_l _ _ _ _ _ Hl Hi) as (line & Hline & Hf). exists line.
    split; [by eapply list_elem_of_lookup_2|]. destruct src as [p l], Hf as (Hp & Hlid & _).
    injection Heq as Hpid Hlin. simpl in *. by rewrite Hp, Hlid, Hpid, Hlin. }
  destruct (findb _ (rep_lines report)) as [line|] eqn:Ef.
  2: { destruct Hex as (line & Hline & Hp & Hlid). rewrite findb_None in Ef.
       specialize (Ef line Hline). rewrite Hp, Hlid, !streq_refl in Ef. done. }
  apply findb_Some in Ef as [Hline [Hp%streq_true Hlid%streq_true]%andb_true_iff].
  exists line. split_and!; [done|done|].
  pose proof Hline as [i Hi]%list_elem_of_lookup.
  destruct (Forall2_lookup_r _ _ _ _ _ Hl Hi) as ([p l] & Hs & Hf). pose proof Hf as (Hp' & Hl' & _).
  assert (Heq : (plan_id p, l) = (plan_id source.1, source.2)).
  { apply (NoDup_map_inj _ _ _ _ Hnd'); [|done|simpl; congruence].
    apply list_elem_of_lookup_2 in Hs. by apply (list_elem_of_fmap_2 (λ s, (plan_id s.1, s.2)) _ (p, l)). }
  injection Heq as Hpid ->. destruct source as [plan line']. unfold lineFor in *. simpl in *. by rewrite <- Hpid.
Qed.

(** C17. What the screen lets the preparer submit is accepted: when every sheet is of this
    voyage, no reading is missing and the draft, however it was edited, has no open issue, the
    closeout store returns a version whose note and lines are exactly the draft's, a line for
    each entry and no other. The record gains that version and its event and nothing else: it
    is the next of the voyage, waiting for review, by this preparer and from the sheets as
    they are - unless the latest version already waits with these very figures, which is then
    the one returned, and the record stays as it was. *)
Theorem complete_draft_submits (callId : str) (plans : list MeasurementPlan) (base : option PreviewReport)
    (d : Draft) (actor : Actor) (uuid uuid' now : str) (record : CloseoutRecord)
    (Hcall : ∀ plan, plan ∈ plans → plan_callId plan = callId)
    (Hids : NoDup (map sourceKey (sourceLinesOf (openPlans plans))))
    (Hready : reconciliationIssues (openPlans plans) = [])
    (Hdraft : rtc draftStep (initialDraft (openPlans plans)
       (readingRows (openPlans plans) (agencyColumns (openPlans plans))) base) d)
    (Hissues : draftIssues (readingRows (openPlans plans) (agencyColumns (openPlans plans))) d = []) :
  ∃ record' report,
    submitReport callId (openPlans plans) (approvalOf d) actor uuid uuid' now record = Ok (record', report) ∧
    ((record' = record ∧ alreadyWaiting (openPlans plans) (rep_reason report) (rep_lines report) record report) ∨
     ((∀ waiting, ¬ alreadyWaiting (openPlans plans) (rep_reason report) (rep_lines report) record waiting) ∧
      addsVersion callId (openPlans plans) actor uuid uuid' now record record' report)) ∧
    rep_reason report = trim (dr_reason d) ∧ map lineKey (rep_lines report) ≡ₚ map entryKey (dr_lines d) ∧
    ∀ entry, entry ∈ dr_lines d → ∃ line, line ∈ rep_lines report ∧ entryKey entry = lineKey line ∧
      prl_quantity line = trim (apl_quantity entry) ∧ prl_reason line = trim (apl_reason entry).
Proof.
  pose proof (draft_keys _ _ _ _ Hdraft) as Hkeys. set (sheets := openPlans plans) in *.
  assert (Hperm : sourceLinesOf (activePlans sheets) ≡ₚ sourceLinesOf sheets).
  { apply sources_perm. unfold sheets. rewrite openPlans_active. apply active_open. }
  assert (Htrim : map entryKey (map trimEntry (dr_lines d)) = map entryKey (dr_lines d)) by (by rewrite map_map).
  destruct (submitReport_total callId sheets (approvalOf d) actor uuid uuid' now record)
    as (record' & report & lines & Hsubmit & Hlines & Hrep & Hreason & Hrecord).
  - done.
  - intros plan Hp. apply Hcall. unfold sheets in Hp. rewrite openPlans_active in Hp.
    by apply activePlans_elem in Hp as [Hp _].
  - cbn [approvalOf api_reason]. rewrite trim_trim. unfold draftIssues in Hissues.
    apply app_eq_nil in Hissues as [_ Hn]. by destruct (trim (dr_reason d)).
  - cbn [approvalOf api_lines]. rewrite length_map, Hperm. 
    rewrite <- (length_map entryKey), Hkeys, length_map. done.
  - cbn [approvalOf api_lines]. by rewrite Htrim, Hkeys.
  - cbn [approvalOf api_lines]. intros source Hs. rewrite Hperm in Hs. by eapply entry_line.
  - exists record', report. split; [exact Hsubmit|]. rewrite Hrep, Hreason. split; [exact Hrecord|]. split.
    { cbn [approvalOf api_reason]. apply trim_trim. }
    split; [rewrite Hkeys, <- Hperm; by eapply lines_keys|].
    intros entry Hin. cbn [approvalOf api_lines] in Hlines.
    eapply (line_of_entry d (activePlans sheets)); [by rewrite Hkeys| |exact Hlines|done].
    rewrite Hkeys, Hperm. done.
Qed.

Lemma returnedOf_spec v report : returnedOf v = Some report →
  report ∈ cr_reports (vd_record v) ∧ rep_sourceFingerprint report = fingerprintOf v.
Proof.
  unfold returnedOf, summaryOf, summarizeVoyage, returnedReport. cbn [vs_returned mbind option_bind].
  destruct (last (cr_reports (vd_record v))) as [r|] eqn:El; [|done]. cbn [mbind option_bind].
  destruct (bool_decide _); [|done]. cbn [mbind option_bind].
  destruct (streq _ _) eqn:E; [|done]. intros [= <-]. apply streq_true in E. split; [|done].
  apply last_Some in El as [l ->]. apply elem_of_app. right. apply list_elem_of_here.
Qed.

(** The entry a report's line gives is complete and denotes the same quantity. *)
Lemma reloaded_entry report row line : trimmedReport report → line ∈ rep_lines report →
  findb (λ l, streq (prl_planId l) (plan_id (row_plan row)) && streq (prl_lineId l) (line_id (row_line row)))
    (rep_lines report) = Some line →
  lineFor (row_plan row, row_line row) line →
  let entry := initialEntry (Some report) row in
  isEntry row entry = true ∧ validFinalQuantity (apl_quantity entry) (unit_ (row_line row)) = true ∧
  apl_reason entry = prl_reason line ∧ isEmpty (trim (apl_reason entry)) = false ∧
  entryKey entry = lineKey line ∧
  ∃ n, Closeout.decimal (Some (apl_quantity entry)) 3 15 = Some n ∧
    Closeout.decimal (Some (prl_quantity line)) 3 15 = Some n.
Proof.
  intros [_ Htrim] Hin Hf (Hp & Hl & _ & Hunit & _ & Hne & n & Hn & Hcount). cbv zeta.
  destruct (Htrim line Hin) as [Hq Hr]. unfold initialEntry. cbn [mbind option_bind]. rewrite Hf.
  cbn [apl_quantity apl_reason apl_planId apl_lineId].
  destruct (plainQuantity_valid _ (unit_ (row_line row)) n Hq Hn Hcount) as [Hv Hd].
  split_and!; [|done|done|by rewrite Hr; apply truthy_false| |by exists n].
  - unfold isEntry. cbn [apl_planId apl_lineId]. by rewrite !streq_refl.
  - unfold entryKey, lineKey. cbn [apl_planId apl_lineId]. by rewrite Hp, Hl.
Qed.

Lemma findb_initial plans columns base row : NoDup (map sourceKey (sourceLinesOf plans)) →
  row ∈ readingRows plans columns →
  findb (isEntry row) (dr_lines (initialDraft plans (readingRows plans columns) base)) = Some (initialEntry base row).
Proof.
  intros Hnd Hin. cbn [initialDraft dr_lines].
  assert (Hself : isEntry row (initialEntry base row) = true).
  { unfold isEntry, initialEntry. destruct (base ≫= _); [|destruct (row_agree row)]; cbn; by rewrite !streq_refl. }
  destruct (findb _ _) as [e|] eqn:Ef.
  - apply findb_Some in Ef as [He Hkey]. f_equal.
    apply list_elem_of_fmap in He as He'. destruct He' as (row' & -> & Hin').
    eapply (NoDup_map_inj entryKey (map (initialEntry base) (readingRows plans columns)));
      [|by apply list_elem_of_fmap_2|by apply list_elem_of_fmap_2|].
    + pose proof (initialDraft_keys plans (readingRows plans columns) base) as Hk. cbn [initialDraft dr_lines] in Hk.
      rewrite Hk, rows_sources. done.
    + unfold isEntry in Hself, Hkey. unfold entryKey.
      apply andb_true_iff in Hself as [Hp1%streq_true Hl1%streq_true].
      apply andb_true_iff in Hkey as [Hp2%streq_true Hl2%streq_true]. congruence.
  - rewrite findb_None in Ef. rewrite (Ef (initialEntry base row)) in Hself; [done|by apply list_elem_of_fmap_2].
Qed.

(** C18. A returned version loads back as it was submitted: when the inputs have not changed
    since, the screen opens on a draft that is up to date and complete, each line with the
    returned quantity, to the thousandth, and its reason, so it can be corrected and sent again. *)
Theorem returned_version_reloads (v : VoyageData) (report : PreviewReport)
    (Hreach : reachable (vd_callId v) (vd_record v)) (Hreturned : returnedOf v = Some report)
    (Htrimmed : trimmedReport report)
    (Hids : NoDup (map sourceKey (sourceLinesOf (sheetsOf v)))) :
  draftIssues (rowsOf v) (rw_draft (openReadings v)) = [] ∧ staleDraft v (openReadings v) = false ∧
  dr_reason (rw_draft (openReadings v)) = rep_reason report ∧
  ∀ entry, entry ∈ dr_lines (rw_draft (openReadings v)) → ∃ line, line ∈ rep_lines report ∧
    entryKey entry = lineKey line ∧ apl_reason entry = prl_reason line ∧
    ∃ n, Closeout.decimal (Some (apl_quantity entry)) 3 15 = Some n ∧
      Closeout.decimal (Some (prl_quantity line)) 3 15 = Some n.
Proof.
  destruct (returnedOf_spec v report Hreturned) as [Hin Hfp].
  pose proof (ri_reports _ _ (reachable_invariant _ _ Hreach)) as Hall. rewrite Forall_forall in Hall.
  pose proof (Hall report Hin) as Hok. unfold openReadings. cbn [rw_draft]. rewrite Hreturned.
  assert (Hrow : ∀ row, row ∈ rowsOf v → ∃ line, line ∈ rep_lines report ∧
    findb (λ l, streq (prl_planId l) (plan_id (row_plan row)) && streq (prl_lineId l) (line_id (row_line row)))
      (rep_lines report) = Some line ∧ lineFor (row_plan row, row_line row) line).
  { intros row Hr. destruct (report_line (vd_callId v) report (sheetsOf v) (row_plan row, row_line row))
      as (line & Hf & Hline & Hfor); [done|done| |done| |by exists line].
    - unfold sheetsOf. rewrite openPlans_active. apply active_open.
    - rewrite <- (rows_sources (sheetsOf v) (columnsOf v)).
      by apply (list_elem_of_fmap_2 (λ row, (row_plan row, row_line row))). }
  split_and!.
  - unfold draftIssues. apply app_nil. split.
    + apply flat_map_nil. intros row Hr. destruct (Hrow row Hr) as (line & Hline & Hf & Hfor).
      unfold rowIssues. rewrite (findb_initial (sheetsOf v) (columnsOf v) _ _ Hids Hr).
      destruct (reloaded_entry report row line Htrimmed Hline Hf Hfor) as (_ & Hv & _ & Hne & _).
      by rewrite Hv, Hne.
    + cbn [initialDraft dr_reason fmap option_fmap option_map from_option]. unfold id. destruct Htrimmed as [Ht _].
      rewrite Ht. pose proof (ro_reason _ _ Hok) as Hne. by destruct (rep_reason report).
  - unfold staleDraft. cbn [rw_draft initialDraft dr_fingerprint]. unfold fingerprintOf. by rewrite streq_refl.
  - done.
  - intros entry He. cbn [initialDraft dr_lines] in He. apply list_elem_of_fmap in He as (row & -> & Hr).
    destruct (Hrow row Hr) as (line & Hline & Hf & Hfor). exists line.
    destruct (reloaded_entry report row line Htrimmed Hline Hf Hfor) as (_ & _ & Hreason & _ & Hkey & Hn).
    by split_and!.
Qed.
End Properties.

(** ** Witnesses *)

#[local] Existing Instance asciiHost.
Definition sampleRows : list ReadingRow :=
  readingRows (openPlans [measuredPlan]) (agencyColumns (openPlans [measuredPlan])).
Definition sampleOpened : Draft := initialDraft (openPlans [measuredPlan]) sampleRows None.
Definition sampleDraft : Draft :=
  setNote (js " Checked at the berth ") (updateLine (js "p1") (js "l1") (setReason (js "terminal and surveyor agreed"))
    (updateLine (js "p1") (js "l1") (setQuantity (js "1012.400")) sampleOpened)).

Example sample_opened_issues : draftIssues sampleRows sampleOpened =
  [js "Choose the final quantity for Crude oil."; js "Add a review note."].
Proof. vm_compute. reflexivity. Qed.

Lemma complete_draft_submits_witness : ∃ record' report,
  submitReport sampleCall (openPlans [measuredPlan]) (approvalOf sampleDraft) surveyor (js "r1") (js "e1")
    (js "t1") (emptyCloseout sampleCall) = Ok (record', report) ∧ rep_reason report = js "Checked at the berth" ∧
  cr_reports record' = [report].
Proof.
  destruct (complete_draft_submits sampleCall [measuredPlan] None sampleDraft surveyor (js "r1") (js "e1")
    (js "t1") (emptyCloseout sampleCall)) as (record' & report & Hsubmit & Hrecord & Hreason & _).
  - intros plan Hp. apply list_elem_of_singleton in Hp as ->. vm_compute. reflexivity.
  - vm_compute. apply NoDup_cons; split; [apply not_elem_of_nil|apply NoDup_nil_2].
  - vm_compute. reflexivity.
  - eapply rtc_l; [apply ds_quantity|]. eapply rtc_l; [apply ds_reason|].
    eapply rtc_l; [apply ds_note|]. apply rtc_refl.
  - vm_compute. reflexivity.
  - exists record', report. split; [exact Hsubmit|]. rewrite Hreason. split; [vm_compute; reflexivity|].
    destruct Hrecord as [[_ [Hl _]]|[_ [Hr _]]]; [discriminate Hl|exact Hr].
Defined.

Definition sampleReturn (r : CloseoutRecord) :=
  returnReport sampleCall (js "r1") reviewer (js "The tanks were not gauged.") (js "e2") (js "t2") r.
Definition sampleSent : CloseoutRecord := okRecord (sampleReturn sampleR1).
Definition sampleVoyageData : VoyageData :=
  mkVoyage (Some (js "org")) sampleCall None [measuredPlan] sampleSent (Some surveyor) true false None.
Lemma sample_sent : sampleReturn sampleR1 = Ok (sampleSent, lastReport sampleSent).
Proof. vm_compute. reflexivity. Qed.
Lemma sampleSent_reachable : reachable sampleCall sampleSent.
Proof.
  eapply rtc_l; [eapply step_submit, sample_submitted|].
  eapply rtc_l; [eapply step_return, sample_sent|]. apply rtc_refl.
Qed.

Lemma returned_version_reloads_witness :
  draftIssues (rowsOf sampleVoyageData) (rw_draft (openReadings sampleVoyageData)) = [].
Proof.
  destruct (returned_version_reloads sampleVoyageData (lastReport sampleSent)) as [Hissues _].
  - exact sampleSent_reachable.
  - vm_compute. reflexivity.
  - split; [vm_compute; reflexivity|]. intros line Hline.
    assert (Hl : rep_lines (lastReport sampleSent) = [default (mkReportLine [] [] [] [] [] count None)
      (head (rep_lines (lastReport sampleSent)))]) by (vm_compute; reflexivity).
    rewrite Hl in Hline. apply list_elem_of_singleton in Hline as ->. split; vm_compute; reflexivity.
  - vm_compute. apply NoDup_cons; split; [apply not_elem_of_nil|apply NoDup_nil_2].
  - exact Hissues.
Defined.
