(* ===== verification/PlanForm.v ===== *)
(** * Voyage setup (frontend/src/measurements/PlanForm.tsx, PaidDeclarationFields.tsx)

    The form as a machine: choose the voyage, copy the owner's declaration, choose the
    agencies; and the entry page of screens/Measurements.tsx that saves what it submits. *)
From S2P Require Import Prelude JsString Json Codec MeasurementTypes Host Samples Cargo CloseoutTypes Closeout Storage CloseoutStore CloseoutInvariants AppTypes Tariffs Endpoints ApiClient AgencyDirectory Voyages ReadingsWorkspace.

Inductive CargoKind := containers | tanker | bulk | general | vehicles.
#[export] Instance CargoKind_eq : EqDecision CargoKind. Proof. solve_decision. Defined.
(** [KINDS]: the template each kind stands for. *)
Definition kindTemplate (kind : CargoKind) : CargoTemplateType :=
  match kind with
  | containers => Containers | tanker => Tanker | bulk => Bulk | general => GeneralCargo | vehicles => Vehicles
  end.
Definition TANKER_PRODUCTS : list str :=
  [js "PMS — Premium Motor Spirit"; js "AGO — Automotive Gas Oil"; js "DPK — Dual Purpose Kerosene";
   js "ATK — Aviation Turbine Kerosene"; js "LPG — Liquefied Petroleum Gas"; js "Crude oil"].
Definition VEHICLE_TYPES : list str :=
  [js "Cars"; js "Buses"; js "Trucks"; js "Mafi trailer / HDV"; js "Motorcycles"; js "Other vehicles"].
Definition OTHER : str := js "__other".

Record ItemRow := mkRow {
  ir_id : Z; ir_product : str; ir_description : str; ir_quantity : str; ir_unit : QuantityUnit }.
Record Details := mkDetails {
  dt_location : str; dt_leadSurveyor : str; dt_scheduledAt : str; dt_endsAt : str; dt_notes : str }.
Record ParticipantInput := mkParticipantInput {
  pi_agencyId : option (option str); pi_name : str; pi_role : str; pi_representative : str;
  pi_requiredSubmission : bool; pi_requiredApproval : bool }.
Record PlanInput := mkPlanInput {
  in_callId : str; in_title : str; in_scheduledAt : str; in_endsAt : option str; in_location : str;
  in_method : str; in_stage : str; in_scope : str; in_leadSurveyor : str; in_notes : str;
  in_participants : list ParticipantInput; in_lines : list CargoLineInput }.

Definition blankRow (id : Z) (unit : QuantityUnit) : ItemRow := mkRow id [] [] [] unit.
Definition filled (value : str) : bool := truthy (trim value).
(** [/^\d{1,15}$/] for a count, [/^\d{1,15}(?:\.\d{1,3})?$/] otherwise *)
Definition validQuantity (value : str) (unit : QuantityUnit) : bool :=
  if bool_decide (unit = count) then boundedDigits 15 (trim value) else finalText (trim value).

(** [/\bcars?\b/.test(s)] *)
Definition wordEnds (s : str) : bool := match s with c :: _ => negb (isWord c) | [] => true end.
Definition carHere (s : str) : bool :=
  (startsWith (js "cars") s && wordEnds (drop 4 s)) || (startsWith (js "car") s && wordEnds (drop 3 s)).
Fixpoint hasCarWord (afterWord : bool) (s : str) : bool :=
  (negb afterWord && carHere s) || match s with c :: rest => hasCarWord (isWord c) rest | [] => false end.

Section Form.
Context `{Host}.

Definition kindsForCall (call : option VesselCall) : list CargoKind :=
  let type := default [] ((λ c, toLowerCase (vc_type c)) <$> call) in
  if includes (js "tanker") type then [tanker]
  else if includes (js "container") type then [containers]
  else if includes (js "bulk") type then [bulk]
  else if includes (js "ro-ro") type || includes (js "vehicle") type || hasCarWord false type then [vehicles]
  else if includes (js "general") type || includes (js "cargo") type then [general]
  else [containers].

Definition emptyPaidDeclaration : PaidDeclarationInput :=
  mkDeclarationInput [] [] [] [] USD [] unconfirmed.
Definition paidDeclarationInput (value : option PaidDeclarationInput) : PaidDeclarationInput :=
  match value with
  | Some v => mkDeclarationInput (pd_payer v) (pd_agent v) (pd_invoiceReference v) (pd_amountPaid v)
                (pd_currency v) (pd_paidOn v) (pd_paymentStatus v)
  | None => emptyPaidDeclaration
  end.
(** [value.replaceAll(",", "")] *)
Definition withoutCommas (value : str) : str := filterb (λ c, negb (N.eqb c cComma)) value.
(** [/^\d{1,15}(?:\.\d{1,2})?$/] *)
Definition amountText (text : str) : bool :=
  match split cDot text with
  | [w] => boundedDigits 15 w
  | [w; f] => boundedDigits 15 w && boundedDigits 2 f
  | _ => false
  end.
Definition validAmount (value : str) : bool := isEmpty (trim value) || amountText (withoutCommas (trim value)).

(** ** The declaration *)

(** What is typed on the declaration step; [grid] keeps the laden and the empty cell of a size. *)
Record Declared := mkDeclared {
  dc_reference : str; dc_kinds : list CargoKind; dc_sizes : list str; dc_grid : list (str * (str * str));
  dc_tanker : list ItemRow; dc_bulk : list ItemRow; dc_general : list ItemRow;
  dc_vehicles : list (str * str); dc_paid : PaidDeclarationInput }.

(** One call of [add]: its problems and its line. *)
Definition Entry : Type := list str * list CargoLineInput.
Definition add (d : Declared) (category description : str) (unit : QuantityUnit) (quantity size load : str) : Entry :=
  ((if validQuantity quantity unit then []
    else [description ++ js ": enter " ++ (if bool_decide (unit = count) then js "a whole number"
            else js "a number with up to three decimals") ++ js "."]),
   [mkCargoLineInput description category (js "import") size load unit (basisFor category unit)
      (Some (trim quantity)) (trim (dc_reference d))]).
Definition hasKind (d : Declared) (kind : CargoKind) : bool := bool_decide (kind ∈ dc_kinds d).

Definition gridCell (d : Declared) (size load : str) : str :=
  let row := default ([], []) (mget size (dc_grid d)) in
  if streq load (js "laden") then row.1 else row.2.
Definition containerEntry (d : Declared) (size load : str) : list Entry :=
  let value := gridCell d size load in
  if filled value
  then [add d (js "Container") (size ++ js " ft " ++ load ++ js " containers") count value size load] else [].
Definition containerEntries (d : Declared) : list Entry :=
  if hasKind d containers
  then flat_map (λ size, flat_map (containerEntry d size) [js "laden"; js "empty"]) (dc_sizes d) else [].

Definition rowName (row : ItemRow) : str :=
  trim (if truthy (ir_product row) && negb (streq (ir_product row) OTHER) then ir_product row
        else ir_description row).
Definition itemEntry (d : Declared) (category noun : str) (row : ItemRow) : list Entry :=
  let description := rowName row in
  if negb (filled (ir_quantity row)) && isEmpty description then []
  else if isEmpty description
  then [([js "Name the " ++ noun ++ js " declared as " ++ ir_quantity row ++ js "."], [])]
  else if negb (filled (ir_quantity row))
  then [([description ++ js ": enter the declared quantity or remove the row."], [])]
  else [add d category description (ir_unit row) (ir_quantity row) [] []].
Definition itemRows (d : Declared) (kind : CargoKind) (rows : list ItemRow) (category noun : str) : list Entry :=
  if hasKind d kind then flat_map (itemEntry d category noun) rows else [].

Definition vehicleCell (d : Declared) (type : str) : str := default [] (mget type (dc_vehicles d)).
Definition vehicleEntries (d : Declared) : list Entry :=
  if hasKind d vehicles
  then flat_map (λ type, if filled (vehicleCell d type)
         then [add d (js "Vehicle") type count (vehicleCell d type) [] []] else []) VEHICLE_TYPES
  else [].

Definition entries (d : Declared) : list Entry :=
  containerEntries d
  ++ itemRows d tanker (dc_tanker d) (js "Liquid") (js "product")
  ++ itemRows d bulk (dc_bulk d) (js "Bulk") (js "commodity")
  ++ itemRows d general (dc_general d) (js "General cargo") (js "item")
  ++ vehicleEntries d.
Definition lines (d : Declared) : list CargoLineInput := flat_map snd (entries d).
Definition problems (d : Declared) : list str :=
  flat_map fst (entries d)
  ++ (match dc_kinds d with
      | [] => [js "Choose at least one cargo type."]
      | _ => match lines d with [] => [js "Enter at least one declared quantity."] | _ => [] end end)
  ++ (match lines d with
      | [] => []
      | _ => if filled (dc_reference d) then [] else [js "Enter the manifest or bill of lading reference."] end)
  ++ (if validAmount (pd_amountPaid (dc_paid d)) then [] else [js "Enter the amount paid as a number."]).

(** ** The handlers of the declaration *)

Definition setReference (v : str) (d : Declared) : Declared :=
  mkDeclared v (dc_kinds d) (dc_sizes d) (dc_grid d) (dc_tanker d) (dc_bulk d) (dc_general d) (dc_vehicles d) (dc_paid d).
Definition toggleKind (kind : CargoKind) (d : Declared) : Declared :=
  mkDeclared (dc_reference d)
    (if hasKind d kind then filterb (λ item, negb (bool_decide (item = kind))) (dc_kinds d) else dc_kinds d ++ [kind])
    (dc_sizes d) (dc_grid d) (dc_tanker d) (dc_bulk d) (dc_general d) (dc_vehicles d) (dc_paid d).
Definition setCell (size : str) (laden : bool) (value : str) (d : Declared) : Declared :=
  let row := default ([], []) (mget size (dc_grid d)) in
  mkDeclared (dc_reference d) (dc_kinds d) (dc_sizes d)
    (mset size (if laden then (value, row.2) else (row.1, value)) (dc_grid d))
    (dc_tanker d) (dc_bulk d) (dc_general d) (dc_vehicles d) (dc_paid d).
(** The size field keeps three digits; the button needs a size that is not listed yet. *)
Definition newSizeText (value : str) : str := take 3 (filterb isDigit value).
Definition addSize (newSize : str) (d : Declared) : option Declared :=
  if isEmpty newSize || bool_decide (newSize ∈ dc_sizes d) then None
  else Some (mkDeclared (dc_reference d) (dc_kinds d) (dc_sizes d ++ [newSize]) (dc_grid d) (dc_tanker d)
               (dc_bulk d) (dc_general d) (dc_vehicles d) (dc_paid d)).
Definition setVehicle (type value : str) (d : Declared) : Declared :=
  mkDeclared (dc_reference d) (dc_kinds d) (dc_sizes d) (dc_grid d) (dc_tanker d) (dc_bulk d) (dc_general d)
    (mset type value (dc_vehicles d)) (dc_paid d).
Definition setPaid (paid : PaidDeclarationInput) (d : Declared) : Declared :=
  mkDeclared (dc_reference d) (dc_kinds d) (dc_sizes d) (dc_grid d) (dc_tanker d) (dc_bulk d) (dc_general d)
    (dc_vehicles d) paid.

(** The three tables of items, their units and their handlers. *)
Inductive ItemTable := tankerTable | bulkTable | generalTable.
Definition tableUnits (table : ItemTable) : list QuantityUnit :=
  match table with generalTable => [tonnes; count; m3] | _ => [tonnes; m3] end.
Definition tableRows (table : ItemTable) (d : Declared) : list ItemRow :=
  match table with tankerTable => dc_tanker d | bulkTable => dc_bulk d | generalTable => dc_general d end.
Definition setTable (table : ItemTable) (rows : list ItemRow) (d : Declared) : Declared :=
  mkDeclared (dc_reference d) (dc_kinds d) (dc_sizes d) (dc_grid d)
    (match table with tankerTable => rows | _ => dc_tanker d end)
    (match table with bulkTable => rows | _ => dc_bulk d end)
    (match table with generalTable => rows | _ => dc_general d end) (dc_vehicles d) (dc_paid d).
Definition updateRows (id : Z) (patch : ItemRow → ItemRow) (rows : list ItemRow) : list ItemRow :=
  map (λ row, if ir_id row =? id then patch row else row) rows.
Definition setProduct (v : str) (row : ItemRow) : ItemRow :=
  mkRow (ir_id row) v (ir_description row) (ir_quantity row) (ir_unit row).
Definition setDescription (v : str) (row : ItemRow) : ItemRow :=
  mkRow (ir_id row) (ir_product row) v (ir_quantity row) (ir_unit row).
Definition setRowQuantity (v : str) (row : ItemRow) : ItemRow :=
  mkRow (ir_id row) (ir_product row) (ir_description row) v (ir_unit row).
Definition setRowUnit (u : QuantityUnit) (row : ItemRow) : ItemRow :=
  mkRow (ir_id row) (ir_product row) (ir_description row) (ir_quantity row) u.
Definition removeRow (id : Z) (rows : list ItemRow) : option (list ItemRow) :=
  match rows with [_] => None | _ => Some (filterb (λ item, negb (ir_id item =? id)) rows) end.
Definition addRow (nextId : Z) (table : ItemTable) (rows : list ItemRow) : list ItemRow :=
  rows ++ [blankRow nextId (hd tonnes (tableUnits table))].

(** ** The form *)

(** What the page passes in; the calls and the catalog change as they are refreshed. *)
Record Props := mkProps {
  pr_calls : list VesselCall; pr_fixedCallId : option str; pr_catalog : list Agency;
  pr_canCreate : bool; pr_paid : option PaidDeclarationInput; pr_suggested : list str }.

Record NewAgency := mkNewAgency { na_name : str; na_role : str; na_representative : str }.
Record AgencyStep := mkAgencyStep {
  pa_selected : list str; pa_drafts : list (str * ParticipantInput); pa_creating : bool; pa_pending : bool;
  pa_error : option str; pa_new : NewAgency; pa_customRole : bool; pa_created : list Agency;
  pa_suggested : bool }.
Record FormState := mkForm {
  fs_vesselKey : str; fs_callId : str; fs_step : nat; fs_details : Details; fs_declared : Declared;
  fs_newSize : str; fs_nextId : Z; fs_notice : option str; fs_agencies : AgencyStep; fs_pending : bool;
  fs_error : option str; fs_showProblems : bool }.

Inductive StepName := vesselStep | declarationStep | agenciesStep.
#[local] Instance StepName_eq : EqDecision StepName. Proof. solve_decision. Defined.
Definition fixed (p : Props) : bool := truthy (default [] (pr_fixedCallId p)).
Definition steps (p : Props) : list StepName :=
  if fixed p then [declarationStep; agenciesStep] else [vesselStep; declarationStep; agenciesStep].
Definition stepName (p : Props) (s : FormState) : option StepName := steps p !! fs_step s.

Definition vesselsOf (p : Props) : list VesselVoyages :=
  groupVesselCalls (filterb (λ call, negb (bool_decide (vc_status call = vc_cancelled))) (pr_calls p)).
Definition callOf (p : Props) (id : str) : option VesselCall := findb (λ call, streq (vc_id call) id) (pr_calls p).
Definition selectedCall (p : Props) (s : FormState) : option VesselCall := callOf p (fs_callId s).

Definition NEW_AGENCY : NewAgency := mkNewAgency [] (js "Agent") [].
(** [now] is [localDateTime()]. *)
Definition openForm (p : Props) (now : str) : FormState :=
  let callId := default [] (pr_fixedCallId p) in
  let call := callOf p callId in
  mkForm
    (default [] (vv_key <$> findb (λ vessel, existsb (λ call, bool_decide (Some (vc_id call) = pr_fixedCallId p))
                                    (vv_calls vessel)) (vesselsOf p)))
    callId 0 (mkDetails (default [] (vc_berth <$> call)) (js "To be assigned") now [] [])
    (mkDeclared [] (kindsForCall call) [js "20"; js "40"; js "45"] [] [blankRow 1 tonnes] [blankRow 2 tonnes]
       [blankRow 3 tonnes] [] (default emptyPaidDeclaration (pr_paid p)))
    [] 4 None (mkAgencyStep [] [] false false None NEW_AGENCY false [] false) false None false.

Definition withAgencies (a : AgencyStep) (s : FormState) : FormState :=
  mkForm (fs_vesselKey s) (fs_callId s) (fs_step s) (fs_details s) (fs_declared s) (fs_newSize s) (fs_nextId s)
    (fs_notice s) a (fs_pending s) (fs_error s) (fs_showProblems s).
Definition withDeclared (d : Declared) (newSize : str) (nextId : Z) (s : FormState) : FormState :=
  mkForm (fs_vesselKey s) (fs_callId s) (fs_step s) (fs_details s) d newSize nextId
    (fs_notice s) (fs_agencies s) (fs_pending s) (fs_error s) (fs_showProblems s).
Definition withDetails (d : Details) (s : FormState) : FormState :=
  mkForm (fs_vesselKey s) (fs_callId s) (fs_step s) d (fs_declared s) (fs_newSize s) (fs_nextId s)
    (fs_notice s) (fs_agencies s) (fs_pending s) (fs_error s) (fs_showProblems s).
(** Where the form stands: its step, the save under way, its error, the problems shown. *)
Definition withProgress (step : nat) (pending : bool) (error : option str) (showProblems : bool) (s : FormState)
  : FormState :=
  mkForm (fs_vesselKey s) (fs_callId s) step (fs_details s) (fs_declared s) (fs_newSize s) (fs_nextId s)
    (fs_notice s) (fs_agencies s) pending error showProblems.

(** *** The voyage *)

Definition hadValues (d : Declared) : bool :=
  existsb (λ row : str * (str * str), filled row.2.1 || filled row.2.2) (dc_grid d)
  || existsb (λ row, filled (ir_quantity row)) (dc_tanker d ++ dc_bulk d ++ dc_general d)
  || existsb (λ cell : str * str, filled cell.2) (dc_vehicles d) || filled (dc_reference d).
(** A changed voyage starts from an empty declaration; the answer says whether the page is
    told of the new call. *)
Definition changeVoyage (p : Props) (vesselKey callId : str) (s : FormState) : FormState * option str :=
  if streq callId (fs_callId s) && streq vesselKey (fs_vesselKey s) then (s, None) else
  if streq callId (fs_callId s)
  then (mkForm vesselKey callId (fs_step s) (fs_details s) (fs_declared s) (fs_newSize s) (fs_nextId s)
          (fs_notice s) (fs_agencies s) (fs_pending s) (fs_error s) (fs_showProblems s), None)
  else
    let call := callOf p callId in
    let n := fs_nextId s in
    (mkForm vesselKey callId (fs_step s)
       (mkDetails (default [] (vc_berth <$> call)) (dt_leadSurveyor (fs_details s)) (dt_scheduledAt (fs_details s))
          (dt_endsAt (fs_details s)) (dt_notes (fs_details s)))
       (mkDeclared [] (kindsForCall call) (dc_sizes (fs_declared s)) [] [blankRow n tonnes]
          [blankRow (n + 1) tonnes] [blankRow (n + 2) tonnes] [] emptyPaidDeclaration)
       (fs_newSize s) (n + 3)
       (if hadValues (fs_declared s)
        then Some (js "You changed voyage, so the declaration was cleared. Each voyage keeps its own declaration.")
        else None)
       (fs_agencies s) (fs_pending s) (fs_error s) (fs_showProblems s),
     if truthy callId then Some callId else None).
(** The selects of the vessel and of its voyage. *)
Definition chooseVessel (p : Props) (key : str) (s : FormState) : FormState * option str :=
  changeVoyage p key
    (match findb (λ vessel, streq (vv_key vessel) key) (vesselsOf p) with
     | Some vessel => match vv_calls vessel with [call] => vc_id call | _ => [] end
     | None => [] end) s.
Definition chooseVoyage (p : Props) (callId : str) (s : FormState) : FormState * option str :=
  changeVoyage p (fs_vesselKey s) callId s.

(** *** The agencies *)

Definition catalogOf (p : Props) (a : AgencyStep) : list Agency :=
  pr_catalog p ++ filterb (λ agency, negb (existsb (λ profile, streq (sa_id profile) (sa_id agency)) (pr_catalog p)))
                    (pa_created a).
Definition activeOf (p : Props) (a : AgencyStep) : list Agency := filterb sa_active (catalogOf p a).
Definition draftFor (agency : Agency) : ParticipantInput :=
  mkParticipantInput (Some (Some (sa_id agency))) (sa_name agency) (sa_role agency) (sa_representative agency)
    true true.
(** [{ ...Object.fromEntries(suggested), ...current }] *)
Definition mergeDrafts (suggested : list Agency) (current : list (str * ParticipantInput)) : list (str * ParticipantInput) :=
  foldl (λ m (e : str * ParticipantInput), mset e.1 e.2 m)
    (foldl (λ m agency, mset (sa_id agency) (draftFor agency) m) [] suggested) current.
Definition applySuggestions (p : Props) (a : AgencyStep) : AgencyStep :=
  if pa_suggested a || match pa_selected a with [] => false | _ => true end then a else
  let suggested := omap (λ id, findb (λ agency, streq (sa_id agency) id) (activeOf p a)) (pr_suggested p) in
  match suggested with
  | [] => a
  | _ => mkAgencyStep (map sa_id suggested) (mergeDrafts suggested (pa_drafts a)) (pa_creating a) (pa_pending a)
           (pa_error a) (pa_new a) (pa_customRole a) (pa_created a) true
  end.
Definition participantsOf (a : AgencyStep) : list ParticipantInput := omap (λ id, mget id (pa_drafts a)) (pa_selected a).

(** The checkbox of an agency: ticked when it was not selected. *)
Definition tickAgency (agency : Agency) (a : AgencyStep) : AgencyStep :=
  let id := sa_id agency in
  if bool_decide (id ∈ pa_selected a)
  then mkAgencyStep (filterb (λ item, negb (streq item id)) (pa_selected a)) (pa_drafts a) (pa_creating a)
         (pa_pending a) (pa_error a) (pa_new a) (pa_customRole a) (pa_created a) (pa_suggested a)
  else mkAgencyStep (pa_selected a ++ [id])
         (match mget id (pa_drafts a) with Some _ => pa_drafts a | None => mset id (draftFor agency) (pa_drafts a) end)
         (pa_creating a) (pa_pending a) (pa_error a) (pa_new a) (pa_customRole a) (pa_created a) (pa_suggested a).
Definition setRepresentative (id value : str) (a : AgencyStep) : AgencyStep :=
  match mget id (pa_drafts a) with
  | Some d => mkAgencyStep (pa_selected a)
      (mset id (mkParticipantInput (pi_agencyId d) (pi_name d) (pi_role d) value (pi_requiredSubmission d)
                  (pi_requiredApproval d)) (pa_drafts a))
      (pa_creating a) (pa_pending a) (pa_error a) (pa_new a) (pa_customRole a) (pa_created a) (pa_suggested a)
  | None => a
  end.
Definition setCreating (creating : bool) (a : AgencyStep) : AgencyStep :=
  mkAgencyStep (pa_selected a) (pa_drafts a) creating (pa_pending a) None (pa_new a) (pa_customRole a)
    (pa_created a) (pa_suggested a).
Definition setNewAgency (agency : NewAgency) (customRole : bool) (a : AgencyStep) : AgencyStep :=
  mkAgencyStep (pa_selected a) (pa_drafts a) (pa_creating a) (pa_pending a) (pa_error a) agency customRole
    (pa_created a) (pa_suggested a).
(** The select of the role: "custom" empties it for the text field. *)
Definition chooseRole (value : str) (a : AgencyStep) : AgencyStep :=
  let custom := streq value (js "custom") in
  setNewAgency (mkNewAgency (na_name (pa_new a)) (if custom then [] else value) (na_representative (pa_new a))) custom a.

Definition createAgency (p : Props) (a : AgencyStep) : option (AgencyStep * NewAgency) :=
  if negb (pr_canCreate p) || pa_pending a || isEmpty (trim (na_name (pa_new a))) || isEmpty (trim (na_role (pa_new a)))
  then None
  else Some (mkAgencyStep (pa_selected a) (pa_drafts a) (pa_creating a) true None (pa_new a) (pa_customRole a)
               (pa_created a) (pa_suggested a),
             mkNewAgency (trim (na_name (pa_new a))) (trim (na_role (pa_new a))) (trim (na_representative (pa_new a)))).
Definition agencyCreated (answer : result str Agency) (a : AgencyStep) : AgencyStep :=
  match answer with
  | Ok agency =>
    let id := sa_id agency in
    mkAgencyStep (if bool_decide (id ∈ pa_selected a) then pa_selected a else pa_selected a ++ [id])
      (mset id (draftFor agency) (pa_drafts a)) false false (pa_error a) NEW_AGENCY false
      (filterb (λ profile, negb (streq (sa_id profile) id)) (pa_created a) ++ [agency]) (pa_suggested a)
  | Err failure => mkAgencyStep (pa_selected a) (pa_drafts a) (pa_creating a) false (Some failure) (pa_new a)
      (pa_customRole a) (pa_created a) (pa_suggested a)
  end.

(** *** Continuing and saving *)

Definition primary (d : Declared) : option CargoKind := match dc_kinds d with [kind] => Some kind | _ => None end.
Definition titleOf (p : Props) (s : FormState) : str :=
  match primary (fs_declared s) with Some kind => cargoType_lit (kindTemplate kind) | None => js "Mixed cargo" end
  ++ js " discharge tally"
  ++ match selectedCall p s with
     | Some call => js " · " ++ vc_vesselName call ++ js " · " ++ vc_reference call | None => [] end.
Definition none {A} (l : list A) : bool := match l with [] => true | _ => false end.
Definition blocked (p : Props) (s : FormState) : bool :=
  fs_pending s || pa_creating (fs_agencies s)
  || match stepName p s with
     | Some vesselStep => negb (bool_decide (is_Some (selectedCall p s)))
     | Some declarationStep => negb (none (problems (fs_declared s)))
     | Some agenciesStep => none (participantsOf (fs_agencies s))
     | None => false
     end.

(** [isoOf] is [new Date(value).toISOString()]: [None] when it throws. *)
Definition planInput (isoOf : str → option str) (p : Props) (s : FormState) (call : VesselCall) : option PlanInput :=
  let d := fs_declared s in
  scheduledAt ← isoOf (dt_scheduledAt (fs_details s));
  endsAt ← (if truthy (dt_endsAt (fs_details s)) then Some <$> isoOf (dt_endsAt (fs_details s)) else Some None);
  Some (mkPlanInput (vc_id call) (titleOf p s) scheduledAt endsAt (trim (dt_location (fs_details s)))
    (defaultMethod (default Mixed (kindTemplate <$> primary d))) (js "Discharge")
    (join (js "; ") (map description (lines d))) (orElse (trim (dt_leadSurveyor (fs_details s))) (js "To be assigned"))
    (dt_notes (fs_details s)) (participantsOf (fs_agencies s)) (lines d)).
Definition paidInput (d : Declared) : PaidDeclarationInput :=
  let paid := dc_paid d in
  mkDeclarationInput (pd_payer paid) (pd_agent paid) (pd_invoiceReference paid) (withoutCommas (pd_amountPaid paid))
    (pd_currency paid) (pd_paidOn paid) (pd_paymentStatus paid).
(** The submit button; the second component is the call of [onSave]. *)
Definition submit (isoOf : str → option str) (p : Props) (s : FormState)
  : FormState * option (PlanInput * PaidDeclarationInput) :=
  if bool_decide (stepName p s = Some declarationStep) && negb (none (problems (fs_declared s)))
  then (withProgress (fs_step s) (fs_pending s) (fs_error s) true s, None)
  else if blocked p s then (s, None)
  else if (fs_step s <? length (steps p) - 1)%nat then
    let s' := withProgress (S (fs_step s)) (fs_pending s) None (fs_showProblems s) s in
    (if bool_decide (steps p !! S (fs_step s) = Some agenciesStep)
     then withAgencies (applySuggestions p (fs_agencies s)) s' else s', None)
  else match selectedCall p s with
  | None => (withProgress (fs_step s) (fs_pending s) None (fs_showProblems s) s, None)
  | Some call =>
    match planInput isoOf p s call with
    | Some plan => (withProgress (fs_step s) true None (fs_showProblems s) s, Some (plan, paidInput (fs_declared s)))
    | None => (withProgress (fs_step s) false (Some (js "Invalid time value")) (fs_showProblems s) s, None)
    end
  end.
Definition saveSettled (failure : option str) (s : FormState) : FormState :=
  withProgress (fs_step s) false (match failure with Some e => Some e | None => fs_error s end) (fs_showProblems s) s.
Definition back (s : FormState) : FormState := withProgress (Nat.pred (fs_step s)) (fs_pending s) None false s.

(** What can happen to the form: each handler with the condition under which its control is
    shown and enabled, and the answers of the two requests. *)
Inductive formStep (isoOf : str → option str) (p : Props) : FormState → FormState → Prop :=
| f_vessel key s : stepName p s = Some vesselStep → fs_pending s = false →
    formStep isoOf p s (chooseVessel p key s).1
| f_voyage callId s : stepName p s = Some vesselStep → fs_pending s = false →
    formStep isoOf p s (chooseVoyage p callId s).1
| f_details d s : stepName p s = Some vesselStep → fs_pending s = false → formStep isoOf p s (withDetails d s)
| f_reference v s : stepName p s = Some declarationStep → fs_pending s = false →
    formStep isoOf p s (withDeclared (setReference v (fs_declared s)) (fs_newSize s) (fs_nextId s) s)
| f_kind kind s : stepName p s = Some declarationStep → fs_pending s = false →
    formStep isoOf p s (withDeclared (toggleKind kind (fs_declared s)) (fs_newSize s) (fs_nextId s) s)
| f_cell size laden v s : stepName p s = Some declarationStep → fs_pending s = false →
    formStep isoOf p s (withDeclared (setCell size laden v (fs_declared s)) (fs_newSize s) (fs_nextId s) s)
| f_newSize v s : stepName p s = Some declarationStep → fs_pending s = false →
    formStep isoOf p s (withDeclared (fs_declared s) (newSizeText v) (fs_nextId s) s)
| f_addSize d s : stepName p s = Some declarationStep → fs_pending s = false →
    addSize (fs_newSize s) (fs_declared s) = Some d →
    formStep isoOf p s (withDeclared d [] (fs_nextId s) s)
| f_vehicle type v s : stepName p s = Some declarationStep → fs_pending s = false →
    formStep isoOf p s (withDeclared (setVehicle type v (fs_declared s)) (fs_newSize s) (fs_nextId s) s)
| f_paid v s : stepName p s = Some declarationStep → fs_pending s = false →
    formStep isoOf p s (withDeclared (setPaid v (fs_declared s)) (fs_newSize s) (fs_nextId s) s)
| f_row table id patch s : stepName p s = Some declarationStep → fs_pending s = false →
    patch ∈ [setProduct; setDescription; setRowQuantity] → ∀ v,
    formStep isoOf p s (withDeclared (setTable table (updateRows id (patch v) (tableRows table (fs_declared s)))
                                (fs_declared s)) (fs_newSize s) (fs_nextId s) s)
| f_rowUnit table id unit s : stepName p s = Some declarationStep → fs_pending s = false →
    unit ∈ tableUnits table →
    formStep isoOf p s (withDeclared (setTable table (updateRows id (setRowUnit unit) (tableRows table (fs_declared s)))
                                (fs_declared s)) (fs_newSize s) (fs_nextId s) s)
| f_removeRow table id rows s : stepName p s = Some declarationStep → fs_pending s = false →
    removeRow id (tableRows table (fs_declared s)) = Some rows →
    formStep isoOf p s (withDeclared (setTable table rows (fs_declared s)) (fs_newSize s) (fs_nextId s) s)
| f_addRow table s : stepName p s = Some declarationStep → fs_pending s = false →
    formStep isoOf p s (withDeclared (setTable table (addRow (fs_nextId s) table (tableRows table (fs_declared s)))
                                (fs_declared s)) (fs_newSize s) (fs_nextId s + 1) s)
| f_tick agency s : stepName p s = Some agenciesStep → fs_pending s = false →
    agency ∈ activeOf p (fs_agencies s) →
    formStep isoOf p s (withAgencies (tickAgency agency (fs_agencies s)) s)
| f_representative id v s : stepName p s = Some agenciesStep → fs_pending s = false →
    id ∈ pa_selected (fs_agencies s) →
    formStep isoOf p s (withAgencies (setRepresentative id v (fs_agencies s)) s)
| f_openPanel s : stepName p s = Some agenciesStep → fs_pending s = false → pr_canCreate p = true →
    pa_creating (fs_agencies s) = false →
    formStep isoOf p s (withAgencies (setCreating true (fs_agencies s)) s)
| f_closePanel s : stepName p s = Some agenciesStep → fs_pending s = false →
    pa_creating (fs_agencies s) = true → pa_pending (fs_agencies s) = false →
    formStep isoOf p s (withAgencies (setCreating false (fs_agencies s)) s)
| f_newAgency agency s : stepName p s = Some agenciesStep → fs_pending s = false →
    pa_creating (fs_agencies s) = true → pa_pending (fs_agencies s) = false →
    formStep isoOf p s (withAgencies (setNewAgency agency (pa_customRole (fs_agencies s)) (fs_agencies s)) s)
| f_role v s : stepName p s = Some agenciesStep → fs_pending s = false →
    pa_creating (fs_agencies s) = true → pa_pending (fs_agencies s) = false →
    formStep isoOf p s (withAgencies (chooseRole v (fs_agencies s)) s)
| f_create s a request : stepName p s = Some agenciesStep → fs_pending s = false →
    pa_creating (fs_agencies s) = true → createAgency p (fs_agencies s) = Some (a, request) →
    formStep isoOf p s (withAgencies a s)
| f_created answer s : pa_pending (fs_agencies s) = true →
    formStep isoOf p s (withAgencies (agencyCreated answer (fs_agencies s)) s)
| f_submit s : formStep isoOf p s (submit isoOf p s).1
| f_saved failure s : fs_pending s = true → formStep isoOf p s (saveSettled failure s)
| f_back s : (0 < fs_step s)%nat → fs_pending s = false → formStep isoOf p s (back s).

End Form.

(** ** The entry page (screens/Measurements.tsx) *)

Section Page.
Context `{Host} (isLetterOrNumber : N → bool).

(** [suggestedAgencies]: the agencies of the same vessel's most recent other voyage. *)
Definition suggestedAgencies (callId : str) (calls : list VesselCall) (plans : list MeasurementPlan) : list str :=
  match findb (λ item, streq (vc_id item) callId) calls with
  | None => []
  | Some call =>
    let slug := vesselSlug isLetterOrNumber (vc_vesselName call) (Some (vc_flag call)) in
    let siblings := map vc_id (filterb (λ item, negb (streq (vc_id item) callId)
      && streq (vesselSlug isLetterOrNumber (vc_vesselName item) (Some (vc_flag item))) slug) calls) in
    match sort_by (λ left right, localeCompare (plan_scheduledAt right) (plan_scheduledAt left))
            (filterb (λ plan, bool_decide (plan_callId plan ∈ siblings)
                              && negb (bool_decide (plan_status plan = plan_cancelled))) plans) with
    | previous :: _ =>
        uniq (filterb truthy (omap (λ party, default None (party_agencyId party)) (plan_participants previous)))
    | [] => []
    end
  end.
End Page.

Section Entry.
Context `{Host} (isoOf : str → option str).

(** The page keeps the call the form last told it of; the closeout record it saves the paid
    declaration in is that call's. *)
Inductive entryStep (p : Props) : FormState * str → FormState * str → Prop :=
| e_vessel key s chosen : stepName p s = Some vesselStep → fs_pending s = false →
    entryStep p (s, chosen) ((chooseVessel p key s).1, default chosen (chooseVessel p key s).2)
| e_voyage callId s chosen : stepName p s = Some vesselStep → fs_pending s = false →
    entryStep p (s, chosen) ((chooseVoyage p callId s).1, default chosen (chooseVoyage p callId s).2)
| e_form s s' chosen : formStep isoOf p s s' → fs_callId s' = fs_callId s → entryStep p (s, chosen) (s', chosen).
Definition openEntry (p : Props) (now : str) : FormState * str := (openForm p now, default [] (pr_fixedCallId p)).

(** [onSave] after the server created the sheet. *)
Definition entrySaved (orgId : option str) (chosen : str) (user : option Actor) (plan : PlanInput)
    (paid : PaidDeclarationInput) (now : str) (st : Storage) : Storage * option (result str PaidDeclaration) :=
  match user with
  | Some actor =>
    if streq (in_callId plan) chosen
    then let '(st, saved) := mutate orgId chosen (saveDeclaration paid actor now) st in (st, Some saved)
    else (st, None)
  | None => (st, None)
  end.

(** The states the page can reach: the calls, the catalog and the suggestions may be others at
    every step, the call of the address stays. *)
Inductive entryReachable (callId : option str) : FormState * str → Prop :=
| er_open p now : pr_fixedCallId p = callId → NoDup (pr_suggested p) → entryReachable callId (openEntry p now)
| er_step p e e' : pr_fixedCallId p = callId → NoDup (pr_suggested p) → entryReachable callId e →
    entryStep p e e' → entryReachable callId e'.
End Entry.

(** ** Lemmas: quantities and amounts *)

Lemma validQuantity_final q unit : validQuantity q unit = true → validFinalQuantity q unit = true.
Proof.
  unfold validQuantity, validFinalQuantity. case_bool_decide as Hu; cbn [negb orb]; [|by intros ->].
  unfold boundedDigits, finalText. intros [Hd Hl]%andb_true_iff. pose proof (digits1_split (trim q)) as [Hs _].
  destruct (Hs Hd) as [_ Ha]. rewrite split_none by (by apply allDigits_not_in). unfold boundedDigits.
  rewrite Hd, Hl. cbn [andb].
  assert (He : existsb (N.eqb cDot) (trim q) = false).
  { apply not_true_iff_false. rewrite dot_in. by apply allDigits_not_in. }
  by rewrite He.
Qed.

(** A quantity the form accepts is one the closeout reads, whole for counted cargo. *)
Lemma validQuantity_decimal q unit : validQuantity q unit = true →
  ∃ v, Closeout.decimal (Some (trim q)) 3 15 = Some v ∧ (unit = count → v mod 1000 = 0).
Proof.
  intros (v & Hv & Hu)%validQuantity_final%validFinalQuantity_decimal. exists v. split; [|done].
  unfold Closeout.decimal in *. cbn [mbind option_bind] in *. by rewrite trim_trim.
Qed.

Definition blank (s : str) : bool := forallb isWs s.
Lemma trimStart_blank w s : blank w = true → trimStart (w ++ s) = trimStart s.
Proof. induction w as [|c w IH]; [done|]. simpl. intros [-> Hw]%andb_true_iff. by apply IH. Qed.
Lemma trimStart_split s : ∃ w, blank w = true ∧ s = w ++ trimStart s.
Proof.
  induction s as [|c s (w & Hw & IH)]; [by exists []|]. simpl. destruct (isWs c) eqn:Hc.
  - exists (c :: w). simpl. rewrite Hc. split; [done|]. by rewrite <- IH.
  - by exists [].
Qed.
Lemma blank_rev s : blank (rev s) = blank s.
Proof.
  unfold blank. induction s as [|c s IH]; [done|]. simpl. rewrite forallb_app, IH. simpl. rewrite andb_true_r.
  apply andb_comm.
Qed.
Lemma trimEnd_blank s w : blank w = true → trimEnd (s ++ w) = trimEnd s.
Proof. intros Hw. unfold trimEnd. rewrite rev_app_distr, trimStart_blank; [done|]. by rewrite blank_rev. Qed.
Lemma trim_split s : ∃ w w', blank w = true ∧ blank w' = true ∧ s = w ++ trim s ++ w'.
Proof.
  destruct (trimStart_split s) as (w & Hw & Hs). destruct (trimStart_split (rev (trimStart s))) as (w' & Hw' & Hs').
  exists w, (rev w'). rewrite blank_rev. split_and!; [done|done|]. rewrite Hs at 1. f_equal. unfold trim, trimEnd.
  rewrite <- rev_app_distr, <- Hs'. by rewrite rev_involutive.
Qed.
Lemma trim_around w s w' : blank w = true → blank w' = true → trim s = s → trim (w ++ s ++ w') = s.
Proof.
  intros Hw Hw' Hs. unfold trim. rewrite trimStart_blank by done.
  destruct s as [|c s].
  - simpl. rewrite <- (app_nil_r w'), trimStart_blank by done. done.
  - assert (Hc : isWs c = false).
    { destruct (isWs c) eqn:Hc; [|done]. exfalso. unfold trim in Hs. simpl in Hs. rewrite Hc in Hs.
      apply (f_equal length) in Hs. destruct (trimStart_split s) as (u & _ & Hu).
      destruct (trimStart_split (rev (trimStart s))) as (u' & _ & Hu').
      unfold trimEnd in Hs. rewrite length_rev in Hs. apply (f_equal length) in Hu, Hu'.
      rewrite length_app in Hu, Hu'. rewrite length_rev in Hu'. simpl in Hs. lia. }
    simpl. rewrite Hc. change (c :: s ++ w') with ((c :: s) ++ w'). rewrite trimEnd_blank by done.
    unfold trim in Hs. simpl in Hs. by rewrite Hc in Hs.
Qed.

Lemma commas_app s t : withoutCommas (s ++ t) = withoutCommas s ++ withoutCommas t.
Proof. apply List.filter_app. Qed.
Lemma commas_blank w : blank w = true → withoutCommas w = w.
Proof.
  intros Hw. apply filterb_all. intros c Hc. unfold blank in Hw. rewrite forallb_true in Hw. specialize (Hw c Hc).
  destruct (N.eqb_spec c cComma) as [->|]; [|done]. vm_compute in Hw. done.
Qed.

Lemma amountText_decimal s : amountText s = true → trim s = s ∧ validDecimal (Some s) 2 32 = true.
Proof.
  unfold amountText, boundedDigits. intros Hs.
  assert (∃ w f, s = withFraction w f ∧ w ≠ [] ∧ allDigits w = true ∧ allDigits f = true ∧
    (length w ≤ 15)%nat ∧ (length f ≤ 2)%nat) as (w & f & -> & Hne & Hw & Hf & Lw & Lf).
  { pose proof (join_split cDot s) as Hj. destruct (split cDot s) as [|w [|f [|]]]; try done; simpl in Hj.
    - apply andb_true_iff in Hs as [[Hne Hd]%digits1_split Hl%Nat.leb_le]. exists w, [].
      split_and!; try done; [|simpl; lia]. unfold withFraction. simpl. by rewrite app_nil_r.
    - apply andb_true_iff in Hs as [[[Hne Hd]%digits1_split Hl%Nat.leb_le]%andb_true_iff
        [[Hfn Hfd]%digits1_split Hfl%Nat.leb_le]%andb_true_iff].
      exists w, f. split_and!; try done. unfold withFraction. by destruct f. }
  split; [by apply trim_noWs, withFraction_noWs|].
  assert (Hd : Closeout.decimal (Some (withFraction w f)) 2 32 ≠ None) by (rewrite decimal_text; done || lia).
  by apply (decimal_widen _ 2).
Qed.

(** The amount the form submits is blank or one the declaration's record takes. *)
Lemma validAmount_saved amount : validAmount amount = true →
  truthy (trim (withoutCommas amount)) && negb (validDecimal (Some (trim (withoutCommas amount))) 2 32) = false.
Proof.
  unfold validAmount. destruct (trim_split amount) as (w & w' & Hw & Hw' & He). intros Hv.
  assert (trim (withoutCommas amount) = withoutCommas (trim amount) ∧
    (trim amount = [] ∨ validDecimal (Some (withoutCommas (trim amount))) 2 32 = true)) as [Ht Hd].
  { rewrite He at 1. rewrite !commas_app, (commas_blank w), (commas_blank w') by done.
    destruct (trim amount) as [|c s]; [split; [|by left]; by apply trim_around|]. cbn [isEmpty orb] in Hv.
    apply amountText_decimal in Hv as [Hn Hd]. split; [|by right]. by apply trim_around. }
  rewrite Ht. destruct Hd as [-> | ->]; [done|]. by rewrite andb_false_r.
Qed.

(** ** Lemmas: the declared lines *)

(** The container sizes the tariff has rows for; the form also takes others. *)
Definition ratedSizes : list str := map js ["20"; "40"; "45"]%string.

(** What a line of a declaration needs for its readings, its final quantity and its price:
    a line of containers of another size than these has a key and no row of the tariff. *)
Record completeLine (line : CargoLineInput) : Prop := {
  cl_description : description line ≠ [];
  cl_reference : baselineReference line ≠ [];
  cl_unit : unit_ line ∈ unitsFor (category line);
  cl_basis : basis line = basisFor (category line) (unit_ line);
  cl_quantity : ∃ q v, manifestQuantity line = Some q ∧ Closeout.decimal (Some q) 3 15 = Some v ∧
    (unit_ line = count → v mod 1000 = 0);
  cl_tariff : ∃ key, tariffKeyFor line = Some key ∧
    (category line ≠ js "Container" ∨ containerSize line ∈ ratedSizes → ∃ rate, rate ∈ TARIFF_RATES ∧ rate_key rate = key ∧ rate_unit rate = unit_ line) }.

(** What every handler keeps of the declaration. *)
Record declaredOk (d : Declared) : Prop := {
  do_sizes : NoDup (dc_sizes d);
  do_named : ∀ size, size ∈ dc_sizes d → size ≠ [];
  do_kinds : NoDup (dc_kinds d);
  do_units : ∀ table row, row ∈ tableRows table d → ir_unit row ∈ tableUnits table }.

Definition tableCategory (table : ItemTable) : str :=
  match table with tankerTable => js "Liquid" | bulkTable => js "Bulk" | generalTable => js "General cargo" end.

Lemma isEmpty_true s : isEmpty s = true ↔ s = [].
Proof. by destruct s. Qed.
Lemma isEmpty_false s : isEmpty s = false ↔ s ≠ [].
Proof. by destruct s. Qed.

Lemma tariff_row key unit :
  existsb (λ rate, streq (rate_key rate) key && bool_decide (rate_unit rate = unit)) TARIFF_RATES = true →
  ∃ rate, rate ∈ TARIFF_RATES ∧ rate_key rate = key ∧ rate_unit rate = unit.
Proof.
  intros (rate & Hin & [Hk%streq_true Hu%bool_decide_eq_true]%andb_true_iff)%existsb_true. by exists rate.
Qed.
(** The tariff has a row for every category and unit but a container's, which depends on its size. *)
Lemma tariffKey_row (line : CargoLineInput) : category line ∈ CARGO_CATEGORIES →
  unit_ line ∈ unitsFor (category line) → category line ≠ js "Container" →
  ∃ key, tariffKeyFor line = Some key ∧ ∃ rate, rate ∈ TARIFF_RATES ∧ rate_key rate = key ∧ rate_unit rate = unit_ line.
Proof.
  unfold tariffKeyFor. generalize (category line) (unit_ line). intros c u Hc Hu Hne.
  unfold CARGO_CATEGORIES in Hc. rewrite !elem_of_cons, elem_of_nil in Hc.
  destruct Hc as [->|[->|[->|[->|[->|[]]]]]]; [done|..].
  all: match goal with |- context [if ?c then _ else _] => change c with false end; cbn iota.
  all: assert (Hu' := proj2 (existsb_true (λ u', bool_decide (u' = u)) _)
         (ex_intro _ u (conj Hu (bool_decide_eq_true_2 _ eq_refl)))).
  all: destruct u; vm_compute in Hu'; try discriminate Hu'.
  all: eexists; split; [reflexivity|]; apply tariff_row; vm_compute; reflexivity.
Qed.

(** A container's key, and its row for the sizes that have one. *)
Lemma container_tariff (line : CargoLineInput) : category line = js "Container" → unit_ line ∈ unitsFor (js "Container") →
  containerSize line ≠ [] → loadStatus line ∈ [js "laden"; js "empty"] →
  ∃ key, tariffKeyFor line = Some key ∧
    (category line ≠ js "Container" ∨ containerSize line ∈ ratedSizes →
     ∃ rate, rate ∈ TARIFF_RATES ∧ rate_key rate = key ∧ rate_unit rate = unit_ line).
Proof.
  unfold tariffKeyFor. intros ->. rewrite streq_refl. generalize (containerSize line) (loadStatus line) (unit_ line).
  intros size load u Hu Hs Hl.
  assert (Hu' : u = count) by (destruct u; [by vm_compute in Hu; set_unfold in Hu; destruct_or?|done|by vm_compute in Hu; set_unfold in Hu; destruct_or?]).
  assert (Hload : truthy load = true) by (apply elem_of_cons in Hl as [->|Hl]; [done|by apply list_elem_of_singleton in Hl as ->]).
  assert (Hsize : truthy size = true) by (by destruct size).
  rewrite Hload, Hsize. cbn [andb]. eexists. split; [reflexivity|]. intros [?|Hr]; [done|]. subst u.
  unfold ratedSizes in Hr. cbn [map] in Hr.
  repeat (apply elem_of_cons in Hr as [->|Hr]); try (by apply elem_of_nil in Hr).
  all: apply elem_of_cons in Hl as [->|Hl]; [|apply list_elem_of_singleton in Hl as ->].
  all: apply tariff_row; vm_compute; reflexivity.
Qed.

Lemma add_complete d category description unit quantity size load line :
  (add d category description unit quantity size load).1 = [] →
  line ∈ (add d category description unit quantity size load).2 →
  filled (dc_reference d) = true → description ≠ [] → unit ∈ unitsFor category →
  category ∈ CARGO_CATEGORIES →
  (category = js "Container" → size ≠ [] ∧ load ∈ [js "laden"; js "empty"]) → completeLine line.
Proof.
  unfold add. cbn [fst snd]. intros Hq ->%list_elem_of_singleton Hr Hd Hu Hc Hs.
  destruct (validQuantity quantity unit) eqn:Hv; [|by destruct description].
  apply validQuantity_decimal in Hv as (v & Hv & Hw). split; cbn -[tariffKeyFor]; try done.
  - unfold filled, truthy in Hr. by apply negb_true_iff, isEmpty_false in Hr.
  - by exists (trim quantity), v.
  - destruct (decide (category = js "Container")) as [->|Hne].
    + destruct (Hs eq_refl) as [Hs1 Hs2]. by apply container_tariff.
    + match goal with |- ∃ key, tariffKeyFor ?l = _ ∧ _ => destruct (tariffKey_row l) as (key & Hk & Hrow) end; [done..|].
      exists key. split; [done|]. by intros _.
Qed.

(** Where an entry comes from. *)
Lemma entries_cases d e : e ∈ entries d →
  (∃ size load, size ∈ dc_sizes d ∧ load ∈ [js "laden"; js "empty"] ∧ filled (gridCell d size load) = true ∧
     e = add d (js "Container") (size ++ js " ft " ++ load ++ js " containers") count (gridCell d size load) size load) ∨
  (∃ table noun row, row ∈ tableRows table d ∧ e ∈ itemEntry d (tableCategory table) noun row) ∨
  (∃ type, type ∈ VEHICLE_TYPES ∧ filled (vehicleCell d type) = true ∧
     e = add d (js "Vehicle") type count (vehicleCell d type) [] []).
Proof.
  unfold entries, itemRows. rewrite !elem_of_app.
  assert (Hitems : ∀ table noun kind, e ∈ (if hasKind d kind
      then flat_map (itemEntry d (tableCategory table) noun) (tableRows table d) else []) →
    ∃ table noun row, row ∈ tableRows table d ∧ e ∈ itemEntry d (tableCategory table) noun row).
  { intros table noun kind He. destruct (hasKind d kind); [|by apply elem_of_nil in He].
    rewrite list_elem_of_In, in_flat_map in He. destruct He as (row & Hr & He). exists table, noun, row.
    by rewrite !list_elem_of_In. }
  intros [Hc|[Ht|[Hb|[Hg|Hv]]]].
  - left. unfold containerEntries in Hc. destruct (hasKind d containers); [|by apply elem_of_nil in Hc].
    rewrite list_elem_of_In, in_flat_map in Hc. destruct Hc as (size & Hs & Hc).
    rewrite in_flat_map in Hc. destruct Hc as (load & Hl & Hc). exists size, load. unfold containerEntry in Hc.
    rewrite !list_elem_of_In. destruct (filled _) eqn:Hf; [|done]. destruct Hc as [<-|[]]. done.
  - right. left. by apply (Hitems tankerTable (js "product") tanker).
  - right. left. by apply (Hitems bulkTable (js "commodity") bulk).
  - right. left. by apply (Hitems generalTable (js "item") general).
  - right. right. unfold vehicleEntries in Hv. destruct (hasKind d vehicles); [|by apply elem_of_nil in Hv].
    rewrite list_elem_of_In, in_flat_map in Hv. destruct Hv as (type & Ht & Hv). exists type.
    rewrite list_elem_of_In. destruct (filled _) eqn:Hf; [|done]. by destruct Hv as [<-|[]].
Qed.

Lemma itemEntry_cases d category noun row e : e ∈ itemEntry d category noun row → e.1 = [] →
  rowName row ≠ [] ∧ filled (ir_quantity row) = true ∧
  e = add d category (rowName row) (ir_unit row) (ir_quantity row) [] [].
Proof.
  unfold itemEntry. destruct (isEmpty (rowName row)) eqn:Hn.
  - destruct (filled (ir_quantity row)) eqn:Hq; cbn [negb andb]; [|by intros ?%elem_of_nil].
    by intros ->%list_elem_of_singleton.
  - rewrite andb_false_r. destruct (filled (ir_quantity row)) eqn:Hq; cbn [negb];
      intros ->%list_elem_of_singleton; [|by destruct (rowName row)].
    intros _. by apply isEmpty_false in Hn.
Qed.

Lemma problems_nil d : problems d = [] →
  (∀ e, e ∈ entries d → e.1 = []) ∧ lines d ≠ [] ∧ filled (dc_reference d) = true ∧
  validAmount (pd_amountPaid (dc_paid d)) = true.
Proof.
  unfold problems. intros [He [Hk [Hr Ha]%app_eq_nil]%app_eq_nil]%app_eq_nil.
  rewrite flat_map_nil in He. split; [done|].
  destruct (dc_kinds d); [done|]. destruct (lines d); [done|]. split; [done|].
  destruct (filled _); [|done]. by destruct (validAmount _).
Qed.

(** Without problems the lines are complete. *)
Lemma lines_complete d : declaredOk d → problems d = [] →
  lines d ≠ [] ∧ ∀ line, line ∈ lines d → completeLine line.
Proof.
  intros Hok (He & Hl & Hr & _)%problems_nil. split; [done|]. intros line Hin. unfold lines in Hin.
  rewrite list_elem_of_In, in_flat_map in Hin. destruct Hin as (e & Hin & Hline). apply list_elem_of_In in Hin, Hline.
  specialize (He e Hin).
  destruct (entries_cases d e Hin) as [(size & load & Hs & Hld & _ & ->)|[(table & noun & row & Hrow & Hitem)|(type & Ht & _ & ->)]].
  - eapply add_complete; [exact He|exact Hline|done| | |apply list_elem_of_here|].
    + by destruct size; [destruct (do_named d Hok _ Hs)|].
    + apply list_elem_of_here.
    + intros _. split; [by apply (do_named d Hok)|done].
  - destruct (itemEntry_cases _ _ _ _ _ Hitem He) as (Hn & _ & ->).
    eapply add_complete; [exact He|exact Hline|done|done| | |].
    + pose proof (do_units d Hok table row Hrow) as Hu. by destruct table.
    + unfold CARGO_CATEGORIES. rewrite !elem_of_cons. destruct table; cbn [tableCategory]; auto 8.
    + by destruct table.
  - eapply add_complete; [exact He|exact Hline|done| | | |done].
    + unfold VEHICLE_TYPES in Ht. rewrite !elem_of_cons, elem_of_nil in Ht.
      by destruct Ht as [->|[->|[->|[->|[->|[->|[]]]]]]].
    + apply list_elem_of_here.
    + unfold CARGO_CATEGORIES. rewrite !elem_of_cons. auto 8.
Qed.

(** ** Lemmas: what every handler keeps *)

Section Invariant.
Context `{Host} (isoOf : str → option str).

(** Every draft is kept under its own agency's id. *)
Definition keyed (m : list (str * ParticipantInput)) : Prop :=
  ∀ id draft, (id, draft) ∈ m → pi_agencyId draft = Some (Some id).
Record agenciesOk (a : AgencyStep) : Prop := {
  ao_selected : NoDup (pa_selected a);
  ao_drafts : ∀ id, id ∈ pa_selected a → is_Some (mget id (pa_drafts a));
  ao_ids : keyed (pa_drafts a) }.

Record formOk (p : Props) (s : FormState) : Prop := {
  fo_step : (fs_step s < length (steps p))%nat;
  fo_declared : declaredOk (fs_declared s);
  fo_agencies : agenciesOk (fs_agencies s);
  fo_past : stepName p s = Some agenciesStep → problems (fs_declared s) = [] }.

Lemma steps_fixed p p' : pr_fixedCallId p = pr_fixedCallId p' → steps p = steps p'.
Proof. unfold steps, fixed. by intros ->. Qed.
Lemma formOk_props p p' s : pr_fixedCallId p = pr_fixedCallId p' → formOk p s → formOk p' s.
Proof. intros He%steps_fixed [H1 H2 H3 H4]. unfold stepName in *. rewrite He in *. done. Qed.

Lemma blankTables_ok reference kinds sizes grid cells paid a b c :
  NoDup sizes → (∀ size, size ∈ sizes → size ≠ []) → NoDup kinds →
  declaredOk (mkDeclared reference kinds sizes grid [blankRow a tonnes] [blankRow b tonnes] [blankRow c tonnes] cells paid).
Proof.
  intros Hs Hn Hk. split; [done..|]. intros table row Hrow.
  destruct table; apply list_elem_of_singleton in Hrow as ->; apply list_elem_of_here.
Qed.
Lemma kindsForCall_NoDup call : NoDup (kindsForCall call).
Proof. unfold kindsForCall. repeat case_match; apply NoDup_singleton. Qed.

Lemma openForm_ok p now : formOk p (openForm p now).
Proof.
  split.
  - unfold steps. simpl. destruct (fixed p); simpl; lia.
  - apply blankTables_ok; [| |apply kindsForCall_NoDup].
    + apply hasRepeats_false. reflexivity.
    + intros size. rewrite !elem_of_cons, elem_of_nil. by intros [->|[->|[->|[]]]].
  - split; simpl; [constructor|by intros id ?%elem_of_nil|by intros id d ?%elem_of_nil].
  - unfold stepName, steps. simpl. by destruct (fixed p).
Qed.

(** A handler of the declaration keeps the form when it keeps the declaration. *)
Lemma withDeclared_ok p d newSize n s : formOk p s → stepName p s = Some declarationStep → declaredOk d →
  formOk p (withDeclared d newSize n s).
Proof.
  intros [H1 H2 H3 H4] Hstep Hd. split; [done..|]. unfold stepName in *. cbn [fs_step withDeclared]. by rewrite Hstep.
Qed.
Lemma withAgencies_ok p a s : formOk p s → agenciesOk a → formOk p (withAgencies a s).
Proof. intros [H1 H2 H3 H4] Ha. by split. Qed.

Lemma setTable_ok table rows d : declaredOk d → (∀ row, row ∈ rows → ir_unit row ∈ tableUnits table) →
  declaredOk (setTable table rows d).
Proof. intros [H1 H2 H3 H4] Hr. split; [done..|]. intros table' row. specialize (H4 table' row). by destruct table, table'; cbn in *; auto. Qed.
Lemma removeRow_incl id rows rows' row : removeRow id rows = Some rows' → row ∈ rows' → row ∈ rows.
Proof.
  assert (Hf : row ∈ filterb (λ item, negb (ir_id item =? id)) rows → row ∈ rows) by (by intros [Hin _]%elem_of_filterb).
  unfold removeRow. destruct rows as [|r0 [|r1 rest]]; intros [= <-]; done.
Qed.
Lemma updateRows_units table id patch rows :
  (∀ row, row ∈ rows → ir_unit row ∈ tableUnits table) →
  (∀ row, ir_unit row ∈ tableUnits table → ir_unit (patch row) ∈ tableUnits table) →
  ∀ row, row ∈ updateRows id patch rows → ir_unit row ∈ tableUnits table.
Proof.
  intros Hrows Hpatch row Hin. unfold updateRows in Hin. apply list_elem_of_fmap in Hin as (row' & -> & Hin).
  destruct (ir_id row' =? id); auto.
Qed.

Lemma changeVoyage_declared p key callId s : fs_callId s ≠ callId →
  fs_declared (changeVoyage p key callId s).1 =
  mkDeclared [] (kindsForCall (callOf p callId)) (dc_sizes (fs_declared s)) [] [blankRow (fs_nextId s) tonnes]
    [blankRow (fs_nextId s + 1) tonnes] [blankRow (fs_nextId s + 2) tonnes] [] emptyPaidDeclaration.
Proof. intros Hne. unfold changeVoyage. rewrite (proj2 (streq_false callId (fs_callId s))) by done. done. Qed.
Lemma changeVoyage_ok p key callId s : formOk p s → stepName p s = Some vesselStep →
  formOk p (changeVoyage p key callId s).1.
Proof.
  intros [H1 H2 H3 H4] Hstep. unfold changeVoyage. destruct (streq callId (fs_callId s)) eqn:He; cbn [andb].
  - destruct (streq key (fs_vesselKey s)); by split.
  - split; try done.
    + destruct H2 as [S1 S2 S3 S4]. apply blankTables_ok; [done|done|apply kindsForCall_NoDup].
    + unfold stepName in *. cbn. by rewrite Hstep.
Qed.

Lemma keyed_mset id draft m : keyed m → pi_agencyId draft = Some (Some id) → keyed (mset id draft m).
Proof. intros Hm Hd id' draft' [[= -> ->]|Hin]%elem_of_mset; [done|by apply Hm]. Qed.
Lemma mset_keeps id id' draft (m : list (str * ParticipantInput)) : is_Some (mget id m) → is_Some (mget id (mset id' draft m)).
Proof.
  destruct (decide (id = id')) as [->|Hne]; [by rewrite mget_mset_eq|]. by rewrite mget_mset_ne.
Qed.
Lemma foldl_mset_keyed {A} (f : A → str) (g : A → ParticipantInput) l m :
  keyed m → (∀ x, x ∈ l → pi_agencyId (g x) = Some (Some (f x))) → keyed (foldl (λ m x, mset (f x) (g x) m) m l).
Proof.
  revert m. induction l as [|x l IH]; intros m Hm Hl; [done|]. apply IH.
  - apply keyed_mset; [done|]. apply Hl. apply list_elem_of_here.
  - intros y Hy. apply Hl. by apply list_elem_of_further.
Qed.
Lemma foldl_mset_has {A} (f : A → str) (g : A → ParticipantInput) l m id :
  is_Some (mget id m) ∨ id ∈ map f l → is_Some (mget id (foldl (λ m x, mset (f x) (g x) m) m l)).
Proof.
  revert m. induction l as [|x l IH]; intros m; simpl; [intros [Hm|Hm%elem_of_nil]; done|].
  intros [Hm|[->|Hin]%elem_of_cons]; apply IH; [left; by apply mset_keeps|left; by rewrite mget_mset_eq|by right].
Qed.

(** Selecting one more agency with its draft. *)
Lemma select_more (id : str) (draft : ParticipantInput) (sel : list str) drafts : NoDup sel → (∀ id', id' ∈ sel → is_Some (mget id' drafts)) →
  NoDup (if bool_decide (id ∈ sel) then sel else sel ++ [id]) ∧
  ∀ id', id' ∈ (if bool_decide (id ∈ sel) then sel else sel ++ [id]) → is_Some (mget id' (mset id draft drafts)).
Proof.
  intros Hn Hd. split.
  - case_bool_decide as Hsel; [done|]. apply NoDup_app.
    split_and!; [done|intros x Hx ->%list_elem_of_singleton; done|apply NoDup_singleton].
  - intros id' Hin. destruct (decide (id' = id)) as [->|Hne]; [by rewrite mget_mset_eq|].
    apply mset_keeps, Hd. case_bool_decide; [done|]. by apply elem_of_app in Hin as [Hin| ?%list_elem_of_singleton].
Qed.
Lemma tickAgency_ok agency a : agenciesOk a → agenciesOk (tickAgency agency a).
Proof.
  intros [Hn Hd Hi]. unfold tickAgency.
  destruct (select_more (sa_id agency) (draftFor agency) _ _ Hn Hd) as [Hn' Hd'].
  case_bool_decide as Hsel; split; cbn [pa_selected pa_drafts]; [| | |done| |].
  - by apply NoDup_filterb.
  - intros id [Hin _]%elem_of_filterb. by apply Hd.
  - done.
  - intros id Hin. destruct (mget (sa_id agency) (pa_drafts a)) eqn:Hm; [|by apply Hd'].
    apply elem_of_app in Hin as [Hin| ->%list_elem_of_singleton]; [by apply Hd|by rewrite Hm].
  - destruct (mget (sa_id agency) (pa_drafts a)); [done|]. by apply keyed_mset.
Qed.
Lemma agencyCreated_ok answer a : agenciesOk a → agenciesOk (agencyCreated answer a).
Proof.
  intros [Hn Hd Hi]. destruct answer as [agency|failure]; [|by split].
  destruct (select_more (sa_id agency) (draftFor agency) _ _ Hn Hd) as [Hn' Hd'].
  split; [done|done|by apply keyed_mset].
Qed.
Lemma setRepresentative_ok id value a : agenciesOk a → agenciesOk (setRepresentative id value a).
Proof.
  intros [Hn Hd Hi]. unfold setRepresentative. destruct (mget id (pa_drafts a)) as [draft|] eqn:Hm; [|by split].
  split; cbn [pa_selected pa_drafts]; [done| |].
  - intros id' Hin. by apply mset_keeps, Hd.
  - apply keyed_mset; [done|]. exact (Hi id draft (mget_Some_elem _ _ _ Hm)).
Qed.

Lemma suggested_ids (l : list Agency) ids :
  map sa_id (omap (λ id, findb (λ agency, streq (sa_id agency) id) l) ids) =
  filterb (λ id, match findb (λ agency, streq (sa_id agency) id) l with Some _ => true | None => false end) ids.
Proof.
  induction ids as [|id ids IH]; [done|]. cbn. destruct (findb _ l) as [agency|] eqn:Hf; [|done].
  apply findb_Some in Hf as [_ Hid%streq_true]. cbn. by rewrite IH, Hid.
Qed.
Lemma applySuggestions_ok p a : NoDup (pr_suggested p) → agenciesOk a → agenciesOk (applySuggestions p a).
Proof.
  intros Hs Ha. unfold applySuggestions. destruct (_ || _); [done|].
  pose proof (suggested_ids (activeOf p a) (pr_suggested p)) as Hids.
  destruct (omap _ (pr_suggested p)) as [|agency rest]; [done|]. destruct Ha as [_ _ Hi].
  set (l := agency :: rest) in *. split; cbn [pa_selected pa_drafts].
  - rewrite Hids. by apply NoDup_filterb.
  - intros id Hid. unfold mergeDrafts. apply foldl_mset_has. left. apply foldl_mset_has. by right.
  - unfold mergeDrafts. apply foldl_mset_keyed.
    + by apply (foldl_mset_keyed sa_id draftFor); [intros ?? ?%elem_of_nil|].
    + intros [id draft] Hin. by apply Hi.
Qed.

Lemma agencies_before p n : steps p !! S n = Some agenciesStep → steps p !! n = Some declarationStep.
Proof. unfold steps. destruct (fixed p), n as [|[|[|n]]]; done. Qed.

(** *** Submitting *)

Lemma unblocked_declaration p s : blocked p s = false → stepName p s = Some declarationStep →
  problems (fs_declared s) = [].
Proof.
  unfold blocked. intros Hb Hs. rewrite Hs in Hb. rewrite !orb_false_iff, negb_false_iff in Hb.
  destruct Hb as [_ Hb]. by destruct (problems _).
Qed.
Lemma submit_ok p s : NoDup (pr_suggested p) → formOk p s → formOk p (submit isoOf p s).1.
Proof.
  intros Hs Hok. pose proof Hok as [H1 H2 H3 H4]. unfold submit.
  destruct (_ && _); [by split|]. destruct (blocked p s) eqn:Hb; [done|].
  destruct (_ <? _)%nat eqn:Hlt; [|by repeat case_match; split].
  apply Nat.ltb_lt in Hlt. set (s' := withProgress _ _ _ _ _).
  assert (Hok' : formOk p s').
  { split; [cbn; lia|done|done|]. intros Hstep. apply (unblocked_declaration p s); [done|]. by apply agencies_before. }
  cbn [fst]. case_bool_decide; [|done]. apply withAgencies_ok; [done|]. by apply applySuggestions_ok.
Qed.

Lemma formStep_ok p s s' : NoDup (pr_suggested p) → formOk p s → formStep isoOf p s s' → formOk p s'.
Proof.
  intros Hs Hok Hstep. pose proof Hok as [H1 H2 H3 H4]. destruct H2 as [D1 D2 D3 D4].
  destruct Hstep; try (apply withDeclared_ok; [done|done|]); try (apply withAgencies_ok; [done|]).
  - by apply changeVoyage_ok.
  - by apply changeVoyage_ok.
  - by split.
  - by split.
  - split; [done..| |done]. cbn. unfold hasKind. case_bool_decide as Hk; [by apply NoDup_filterb|].
    apply NoDup_app. split_and!; [done|intros x Hx ->%list_elem_of_singleton; done|apply NoDup_singleton].
  - by split.
  - by split.
  - match goal with Hadd : addSize _ _ = Some _ |- _ => unfold addSize in Hadd;
      destruct (isEmpty _) eqn:He; [done|]; cbn [orb] in Hadd; case_bool_decide as Hin; [done|];
      injection Hadd as <- end.
    split; cbn [dc_sizes dc_kinds]; [| |done|done].
    + apply NoDup_app. split_and!; [done|intros x Hx ->%list_elem_of_singleton; done|apply NoDup_singleton].
    + intros size [Hsz| ->%list_elem_of_singleton]%elem_of_app; [by apply D2|]. by apply isEmpty_false.
  - by split.
  - by split.
  - apply setTable_ok; [by split|]. apply updateRows_units; [by apply D4|].
    match goal with Hp : patch ∈ _ |- _ => rewrite !elem_of_cons, elem_of_nil in Hp;
      destruct Hp as [->|[->|[->|[]]]]; done end.
  - apply setTable_ok; [by split|]. by apply updateRows_units; [by apply D4|].
  - apply setTable_ok; [by split|]. intros row Hrow. apply (D4 table).
    by eapply removeRow_incl.
  - apply setTable_ok; [by split|]. unfold addRow. intros row [Hrow| ->%list_elem_of_singleton]%elem_of_app; [by apply D4|].
    destruct table; apply list_elem_of_here.
  - by apply tickAgency_ok.
  - by apply setRepresentative_ok.
  - by destruct H3.
  - by destruct H3.
  - by destruct H3.
  - by destruct H3.
  - match goal with Hc : createAgency _ _ = Some _ |- _ => unfold createAgency in Hc;
      destruct (_ || _) in Hc; [done|]; injection Hc as <- <- end. by destruct H3.
  - by apply agencyCreated_ok.
  - by apply submit_ok.
  - by split.
  - split; [cbn; lia|by split|done|]. unfold stepName. cbn. intros Hstep. exfalso.
    unfold steps in *. destruct (fixed p), (fs_step s) as [|[|[|]]]; simpl in *; try done; lia.
Qed.

(** *** The page *)

Record entryOk (callId : option str) (e : FormState * str) : Prop := {
  eo_form : ∀ p, pr_fixedCallId p = callId → formOk p e.1;
  eo_chosen : fs_callId e.1 ≠ [] → e.2 = fs_callId e.1 }.

Lemma changeVoyage_chosen p key callId s chosen : (fs_callId s ≠ [] → chosen = fs_callId s) →
  let r := changeVoyage p key callId s in fs_callId r.1 ≠ [] → default chosen r.2 = fs_callId r.1.
Proof.
  intros Hc. unfold changeVoyage. destruct (streq callId (fs_callId s)) eqn:He; cbn [andb].
  - apply streq_true in He as ->. by destruct (streq key _).
  - cbn. intros Hne. destruct callId; [done|]. done.
Qed.
Lemma entryReachable_ok callId e : entryReachable isoOf callId e → entryOk callId e.
Proof.
  induction 1 as [p now Hp Hs|p e e' Hp Hs _ [IHf IHc] Hstep].
  - split; [|done]. intros p' Hp'. apply (formOk_props p); [congruence|]. apply openForm_ok.
  - pose proof (IHf p Hp) as Hok.
    assert (Hform : formOk p e'.1) by (destruct Hstep; cbn [fst] in *; [by apply changeVoyage_ok..|by eapply formStep_ok]).
    split; [intros p' Hp'; by apply (formOk_props p); [congruence|]|].
    destruct Hstep as [key s chosen _ _|id s chosen _ _|s s' chosen _ Hid]; cbn [fst snd] in *.
    + by apply changeVoyage_chosen.
    + by apply changeVoyage_chosen.
    + by rewrite Hid.
Qed.

Lemma participants_selected a : agenciesOk a →
  map pi_agencyId (participantsOf a) = map (λ id, Some (Some id)) (pa_selected a).
Proof.
  intros [_ Hd Hi]. unfold participantsOf. induction (pa_selected a) as [|id sel IH]; [done|].
  destruct (Hd id (list_elem_of_here _ _)) as [draft Hm]. cbn. rewrite Hm. cbn. f_equal.
  - apply Hi. by apply mget_Some_elem.
  - apply IH. intros id' Hin. apply Hd. by apply list_elem_of_further.
Qed.

(** A call of [onSave] comes from the last step, with everything before it in order. *)
Lemma submit_saves p s s' plan paid : formOk p s → submit isoOf p s = (s', Some (plan, paid)) →
  problems (fs_declared s) = [] ∧ (∃ call, selectedCall p s = Some call ∧ in_callId plan = vc_id call) ∧
  in_lines plan = lines (fs_declared s) ∧ in_participants plan = participantsOf (fs_agencies s) ∧
  in_participants plan ≠ [] ∧ paid = paidInput (fs_declared s).
Proof.
  intros [H1 H2 H3 H4]. unfold submit. destruct (_ && _); [done|]. destruct (blocked p s) eqn:Hb; [done|].
  destruct (Nat.ltb_spec (fs_step s) (length (steps p) - 1)); [done|].
  assert (Hlast : stepName p s = Some agenciesStep).
  { unfold stepName, steps in *. destruct (fixed p), (fs_step s) as [|[|[|]]]; simpl in *; done || lia. }
  unfold blocked in Hb. rewrite Hlast in Hb. apply orb_false_iff in Hb as [_ Hb].
  destruct (selectedCall p s) as [call|] eqn:Hcall; [|done].
  unfold planInput. destruct (isoOf (dt_scheduledAt _)) as [at_|]; cbn [mbind option_bind]; [|done].
  destruct (if truthy _ then _ else _) as [ends|]; cbn [mbind option_bind]; [|done].
  intros [= _ <- <-]. cbn. split_and!; [by apply H4|by exists call|done|done| |done]. by destruct (participantsOf _).
Qed.

(** C21. What voyage setup submits is complete: whatever was typed, chosen and changed on the
    way, a sheet is only sent for a known call, with at least one line and one agency, every
    line with a description, a reference, a quantity the closeout can read and a key of the
    tariff, whose row is priced in the line's unit (containers of a size other than 20, 40 and
    45 feet have a key and no row), each agency once; and the paid declaration sent with it is
    accepted, unless its date is neither blank nor a date. *)
Theorem submitted_plan_complete (callId : option str) (s s' : FormState) (chosen : str) (p : Props)
    (plan : PlanInput) (paid : PaidDeclarationInput) (actor : Actor) (now : str) (saved : CloseoutRecord)
    (Hreach : entryReachable isoOf callId (s, chosen)) (Hp : pr_fixedCallId p = callId)
    (Hids : ∀ call, call ∈ pr_calls p → vc_id call ≠ [])
    (Hsubmit : submit isoOf p s = (s', Some (plan, paid))) :
  in_callId plan = chosen ∧ (∃ call, call ∈ pr_calls p ∧ vc_id call = in_callId plan) ∧
  in_lines plan ≠ [] ∧ (∀ line, line ∈ in_lines plan → completeLine line) ∧
  in_participants plan ≠ [] ∧ NoDup (map pi_agencyId (in_participants plan)) ∧
  map pi_agencyId (in_participants plan) = map (λ id, Some (Some id)) (pa_selected (fs_agencies s)) ∧
  (pd_paidOn paid = [] ∨ isDateText (pd_paidOn paid) = true →
   ∃ saved' d, saveDeclaration paid actor now saved = Ok (saved', d) ∧
    pd_payer d = trim (pd_payer (dc_paid (fs_declared s)))).
Proof.
  destruct (entryReachable_ok _ _ Hreach) as [Hform Hchosen]. pose proof (Hform p Hp) as Hok. cbn [fst snd] in *.
  destruct (submit_saves p s s' plan paid Hok Hsubmit) as (Hprob & (call & Hcall & Hid) & Hl & Hpart & Hne & ->).
  apply findb_Some in Hcall as [Hin Hcid%streq_true].
  destruct (lines_complete _ (fo_declared p s Hok) Hprob) as [Hlne Hlines].
  destruct (problems_nil _ Hprob) as (_ & _ & _ & Hamount%validAmount_saved).
  pose proof (fo_agencies p s Hok) as Ha. rewrite Hl, Hpart, participants_selected by done. split_and!; try done.
  - rewrite Hid, Hcid. symmetry. apply Hchosen. rewrite <- Hcid. by apply Hids.
  - by exists call.
  - by rewrite <- Hpart.
  - apply (NoDup_fmap_2 (λ id : str, Some (Some id))), Ha.
  - intros Hdate. unfold saveDeclaration. cbn [paidInput pd_amountPaid pd_paidOn] in *. rewrite Hamount. cbn [throw_if rbind].
    assert (Hpaid : truthy (pd_paidOn (dc_paid (fs_declared s)))
      && negb (isDateText (pd_paidOn (dc_paid (fs_declared s)))) = false)
      by (destruct Hdate as [-> | ->]; [done|by rewrite andb_false_r]).
    rewrite Hpaid. eexists _, _. split; reflexivity.
Qed.

(** Another voyage starts from nothing: no quantity, no reference and no payment of the one
    before. *)
Lemma voyage_change_clears p key callId s : fs_callId s ≠ callId →
  let d := fs_declared (changeVoyage p key callId s).1 in
  lines d = [] ∧ hadValues d = false ∧ dc_paid d = emptyPaidDeclaration.
Proof.
  intros Hne. cbn zeta. rewrite changeVoyage_declared by done. split; [|done].
  apply flat_map_nil. intros e He. exfalso.
  apply entries_cases in He as [(size & load & _ & _ & Hf & _)|[(table & noun & row & Hrow & He)|(type & _ & Hf & _)]].
  - unfold gridCell in Hf. cbn in Hf. by destruct (streq load _).
  - assert (∃ n, row = blankRow n tonnes) as [n ->]
      by (destruct table; apply list_elem_of_singleton in Hrow as ->; by eexists).
    by apply elem_of_nil in He.
  - done.
Qed.

(** An open panel for a new agency, left with Back, ends the form: nothing but abandoning it
    reaches the agencies again. *)
Definition stuck (p : Props) (s : FormState) : Prop :=
  pa_creating (fs_agencies s) = true ∧ pa_pending (fs_agencies s) = false ∧
  (S (fs_step s) < length (steps p))%nat.
Lemma stuck_step p s s' : stuck p s → formStep isoOf p s s' → stuck p s'.
Proof.
  intros (Hc & Hp & Hlt) Hstep.
  assert (Hs : stepName p s ≠ Some agenciesStep).
  { unfold stepName, steps in *. destruct (fixed p), (fs_step s) as [|[|[|]]]; simpl in *; done || lia. }
  assert (Hb : blocked p s = true) by (unfold blocked; rewrite Hc; by destruct (fs_pending s)).
  destruct Hstep; try (exfalso; congruence); try (split_and!; assumption).
  - unfold chooseVessel, changeVoyage. repeat case_match; by split_and!.
  - unfold chooseVoyage, changeVoyage. repeat case_match; by split_and!.
  - unfold submit. rewrite Hb. destruct (_ && _); by split_and!.
  - split_and!; [done|done|]. cbn. lia.
Qed.
(** Back on the agencies step leads there. *)
Lemma back_stuck p s : stepName p s = Some agenciesStep → pa_creating (fs_agencies s) = true →
  pa_pending (fs_agencies s) = false → stuck p (back s).
Proof.
  intros Hs Hc Hp. split_and!; [done|done|]. unfold stepName, steps in *. cbn.
  destruct (fixed p), (fs_step s) as [|[|[|]]]; simpl in *; done || lia.
Qed.
End Invariant.

(** ** Witnesses *)

#[local] Existing Instance asciiHost.

Definition isoSample (s : str) : option str := Some (s ++ js ":00.000Z").
Definition sampleCall : VesselCall :=
  mkVesselCall (js "c1") (js "MV Calabar") (js "VC-1") (js "Container ship") (js "NG") (JsNumber.numOfZ 900)
    (js "2026-07-01") [] (js "B2") None vc_pending [] None None 1 [].
Definition sampleAgency : Agency := mkAgency (js "a1") (js "Port ops") (js "Terminal operator") (js "Bola") true (Some 1).
Definition sampleProps (callId : option str) (paid : option PaidDeclarationInput) : Props :=
  mkProps [sampleCall] callId [sampleAgency] true paid [].
Definition referenced (p : Props) : FormState :=
  let s := openForm p (js "2026-07-02T08:00") in
  withDeclared (setReference (js "MAN-7") (fs_declared s)) (fs_newSize s) (fs_nextId s) s.
Definition typedDeclaration (p : Props) : FormState :=
  let s := referenced p in
  withDeclared (setCell (js "20") true (js " 5 ") (fs_declared s)) (fs_newSize s) (fs_nextId s) s.
Definition typedForm (p : Props) : FormState :=
  (submit isoSample p (typedDeclaration p)).1.
Definition readyForm (p : Props) : FormState :=
  withAgencies (tickAgency sampleAgency (fs_agencies (typedForm p))) (typedForm p).
Definition sampleFixed : Props := sampleProps (Some (js "c1")) None.
Definition samplePlanInput : PlanInput * PaidDeclarationInput :=
  default (mkPlanInput [] [] [] None [] [] [] [] [] [] [] [], emptyPaidDeclaration)
    (submit isoSample sampleFixed (readyForm sampleFixed)).2.

Lemma submitted_plan_complete_witness :
  in_callId samplePlanInput.1 = js "c1" ∧
  (∃ call, call ∈ pr_calls sampleFixed ∧ vc_id call = in_callId samplePlanInput.1) ∧
  in_lines samplePlanInput.1 ≠ [] ∧ (∀ line, line ∈ in_lines samplePlanInput.1 → completeLine line) ∧
  in_participants samplePlanInput.1 ≠ [] ∧ NoDup (map pi_agencyId (in_participants samplePlanInput.1)) ∧
  map pi_agencyId (in_participants samplePlanInput.1)
    = map (λ id, Some (Some id)) (pa_selected (fs_agencies (readyForm sampleFixed))) ∧
  ∃ saved' d, saveDeclaration samplePlanInput.2 reviewer (js "t1") (mkCloseout (js "c1") [] [] [] None) = Ok (saved', d) ∧
    pd_payer d = trim (pd_payer (dc_paid (fs_declared (readyForm sampleFixed)))).
Proof.
  assert (Hnd : NoDup (pr_suggested sampleFixed)) by constructor.
  destruct (submitted_plan_complete isoSample (Some (js "c1")) (readyForm sampleFixed)
    (submit isoSample sampleFixed (readyForm sampleFixed)).1 (js "c1") sampleFixed samplePlanInput.1
    samplePlanInput.2 reviewer (js "t1") (mkCloseout (js "c1") [] [] [] None))
    as (H1 & H2 & H3 & H4 & H5 & H6 & H7 & H8).
  - assert (H0 : entryReachable isoSample (Some (js "c1")) (openEntry sampleFixed (js "2026-07-02T08:00")))
      by (apply er_open; [reflexivity|exact Hnd]).
    assert (Hnext : ∀ s s' : FormState, entryReachable isoSample (Some (js "c1")) (s, js "c1") →
        formStep isoSample sampleFixed s s' → fs_callId s' = fs_callId s →
        entryReachable isoSample (Some (js "c1")) (s', js "c1")).
    { intros s s' Hs Hstep Hid. apply (er_step _ _ sampleFixed (s, js "c1")); [reflexivity|exact Hnd|exact Hs|].
      apply e_form; [exact Hstep|exact Hid]. }
    apply (Hnext (typedForm sampleFixed)); [|apply f_tick; [vm_compute; reflexivity..|vm_compute; apply list_elem_of_here]|reflexivity].
    apply (Hnext (typedDeclaration sampleFixed)); [|apply f_submit|vm_compute; reflexivity].
    apply (Hnext (referenced sampleFixed)); [|apply f_cell; reflexivity|reflexivity].
    apply (Hnext (openForm sampleFixed (js "2026-07-02T08:00"))); [exact H0|apply f_reference; reflexivity|reflexivity].
  - reflexivity.
  - intros call Hcall. apply list_elem_of_singleton in Hcall as ->. discriminate.
  - vm_compute. reflexivity.
  - refine (conj H1 (conj H2 (conj H3 (conj H4 (conj H5 (conj H6 (conj H7 (H8 _)))))))).
    left. vm_compute. reflexivity.
Defined.

(** Setting up a sheet for a voyage chosen on the page, whose payment is already recorded,
    replaces that record by blanks: the form reads the recorded payment only when it opens. *)
Definition chosenForm (paid : option PaidDeclarationInput) : FormState :=
  let p := sampleProps None paid in
  (submit isoSample p (chooseVessel p (vesselKey sampleCall) (openForm p (js "2026-07-02T08:00"))).1).1.
Definition recordedPayment : PaidDeclaration :=
  mkDeclaration (mkDeclarationInput (js "Owner Ltd") [] (js "INV-1") (js "100.00") USD [] paid) (js "t0") reviewer.
Definition chosenSubmission : option PaidDeclarationInput :=
  let p := sampleProps None (Some (paidDeclarationInput (Some (pd_input recordedPayment)))) in
  let s := chosenForm (Some (paidDeclarationInput (Some (pd_input recordedPayment)))) in
  let s1 := withDeclared (setReference (js "MAN-7") (fs_declared s)) (fs_newSize s) (fs_nextId s) s in
  let s2 := withDeclared (setCell (js "20") true (js "5") (fs_declared s1)) (fs_newSize s1) (fs_nextId s1) s1 in
  let s3 := (submit isoSample p s2).1 in
  snd <$> (submit isoSample p (withAgencies (tickAgency sampleAgency (fs_agencies s3)) s3)).2.
Example recorded_payment_blanked :
  ∃ input d, chosenSubmission = Some input ∧
    saveDeclaration input reviewer (js "t1") (mkCloseout (js "c1") [] [] [] (Some recordedPayment)) =
      Ok (mkCloseout (js "c1") [] [] [] (Some d), d) ∧
    pd_payer d = [] ∧ pd_amountPaid d = [] ∧ pd_paymentStatus d = unconfirmed.
Proof. eexists _, _. split; [vm_compute; reflexivity|]. split; [vm_compute; reflexivity|]. split_and!; reflexivity. Qed.
