(* ===== verification/GuestForm.v ===== *)
(** * The agency's own form (frontend/src/measurements/GuestAgencyReading.tsx, AgencyReadingPage.tsx)

    Opening a secure link, the form of one reading, and the receipt with the other agencies'
    completed readings. *)
From S2P Require Import Prelude JsString Json Codec MeasurementTypes Host Samples Helpers Comparison Uri Endpoints AgencyDirectory GuestPortal.

(** ** Data (guestTypes.ts) *)

(** [Omit<CargoLine, "manifestQuantity" | "baselineReference">] *)
Record GuestCargoLine := mkGuestLine {
  gl_id : str; gl_description : str; gl_category : str; gl_direction : str; gl_containerSize : str;
  gl_loadStatus : str; gl_unit : QuantityUnit; gl_basis : str }.
Record PeerReading := mkPeerReading { pl_lineId : str; pl_status : LineStatus; pl_quantity : option str }.
(** [submitted] is [status === "submitted"]; the server's answer is not validated further. *)
Record GuestSubmittedReport := mkOwnReport {
  or_id : str; or_participantId : str; or_submittedAt : str; or_submitted : bool; or_input : GuestReadingInput }.
Record GuestPeerReport := mkPeerReport {
  pr_id : str; pr_participantId : str; pr_agencyName : str; pr_agencyRole : str; pr_submittedAt : str;
  pr_submitted : bool; pr_lines : list PeerReading }.
Record GuestReadingContext := mkReadingContext {
  cx_contextId : str; cx_agencyId : str; cx_agencyName : str; cx_agencyRole : str; cx_representative : str;
  cx_lines : list GuestCargoLine; cx_ownReport : option GuestSubmittedReport;
  cx_completedPeers : list GuestPeerReport; cx_inputFingerprint : str }.

Definition scopeLabel (line : GuestCargoLine) : str :=
  cargoScopeLabel (Some (gl_direction line)) (Some (gl_containerSize line)) (Some (gl_loadStatus line)).
Definition cargoLabel (line : GuestCargoLine) (lines : list GuestCargoLine) : str :=
  let scope := scopeLabel line in
  let label := join (js " · ") (filterb truthy [gl_description line; scope]) in
  if (1 <? length (filterb (λ item, streq (gl_description item) (gl_description line)
                                    && streq (scopeLabel item) scope) lines))%nat
  then label ++ js " · item " ++ printZ (findIndex (λ item, streq (gl_id item) (gl_id line)) lines + 1)
  else label.
Definition unitWord (line : GuestCargoLine) : str :=
  match gl_unit line with
  | tonnes => js "tonnes"
  | m3 => js "m³"
  | count => if streq (gl_category line) (js "Container") then js "containers"
             else if streq (gl_category line) (js "Vehicle") then js "vehicles" else js "items"
  end.

(** ** The form *)

Record GuestFormState := mkGuestForm {
  gf_representative : str; gf_observedAt : str; gf_sourceReference : str; gf_notes : str;
  gf_lines : list SubmissionLine; gf_openNotes : list str; gf_pending : bool; gf_error : option str }.
(** [now] is [localDateTime()]. *)
Definition openGuestForm (context : GuestReadingContext) (now : str) : GuestFormState :=
  mkGuestForm (cx_representative context) now [] []
    (map (λ line, mkSubmissionLine (gl_id line) reported None []) (cx_lines context)) [] false None.

Definition withLines (lines : list SubmissionLine) (s : GuestFormState) : GuestFormState :=
  mkGuestForm (gf_representative s) (gf_observedAt s) (gf_sourceReference s) (gf_notes s) lines (gf_openNotes s)
    (gf_pending s) (gf_error s).
Definition update (id : str) (patch : SubmissionLine → SubmissionLine) (s : GuestFormState) : GuestFormState :=
  withLines (map (λ line, if streq (sl_lineId line) id then patch line else line) (gf_lines s)) s.
(** The inputs of a line: its quantity, [null] when emptied; its note; and the switch between
    a figure and "not applicable". *)
Definition typeQuantity (value : str) (line : SubmissionLine) : SubmissionLine :=
  mkSubmissionLine (sl_lineId line) (sl_status line) (if isEmpty value then None else Some value) (sl_note line).
Definition typeNote (value : str) (line : SubmissionLine) : SubmissionLine :=
  mkSubmissionLine (sl_lineId line) (sl_status line) (sl_quantity line) value.
Definition notApplicable (line : SubmissionLine) : bool := bool_decide (sl_status line = not_applicable).
Definition toggleApplicable (line : SubmissionLine) : SubmissionLine :=
  if notApplicable line then mkSubmissionLine (sl_lineId line) reported None []
  else mkSubmissionLine (sl_lineId line) not_applicable None (sl_note line).
Definition openNote (id : str) (s : GuestFormState) : GuestFormState :=
  mkGuestForm (gf_representative s) (gf_observedAt s) (gf_sourceReference s) (gf_notes s) (gf_lines s)
    (gf_openNotes s ++ [id]) (gf_pending s) (gf_error s).
Definition typeDetails (representative observedAt sourceReference notes : str) (s : GuestFormState) : GuestFormState :=
  mkGuestForm representative observedAt sourceReference notes (gf_lines s) (gf_openNotes s) (gf_pending s) (gf_error s).

Definition hasQuantity (line : SubmissionLine) : bool :=
  match sl_quantity line with Some q => truthy q | None => false end.
Definition isEntered (line : SubmissionLine) : bool :=
  if notApplicable line then truthy (trim (sl_note line)) else hasQuantity line.
Definition entered (s : GuestFormState) : nat := length (filterb isEntered (gf_lines s)).
Definition isNil (line : SubmissionLine) : bool :=
  hasQuantity line && streq (readingQuantity (sl_quantity line)) (js "NIL (0)").
Definition noteOpen (s : GuestFormState) (cargoId : str) (line : SubmissionLine) : bool :=
  bool_decide (cargoId ∈ gf_openNotes s) || (truthy (trim (sl_note line)) && negb (notApplicable line)).

Section Submit.
(** [form.reportValidity()] and [new Date(value).toISOString()] ([None] when it throws). *)
Context (reportValidity : GuestFormState → bool) (isoOf : str → option str).

Definition withOutcome (pending : bool) (error : option str) (s : GuestFormState) : GuestFormState :=
  mkGuestForm (gf_representative s) (gf_observedAt s) (gf_sourceReference s) (gf_notes s) (gf_lines s)
    (gf_openNotes s) pending error.
Definition trimmedLine (line : SubmissionLine) : SubmissionLine :=
  mkSubmissionLine (sl_lineId line) (sl_status line) (sl_quantity line) (trim (sl_note line)).
(** The second component is the call of [onSubmit]. *)
Definition submitGuest (context : GuestReadingContext) (s : GuestFormState) : GuestFormState * option GuestReadingInput :=
  if gf_pending s || match cx_lines context with [] => true | _ => false end then (s, None)
  else if negb (reportValidity s) then (s, None)
  else if isEmpty (trim (gf_representative s)) || isEmpty (trim (gf_sourceReference s))
          || existsb (λ line, notApplicable line && isEmpty (trim (sl_note line))) (gf_lines s)
  then (withOutcome (gf_pending s)
          (Some (js "Enter a representative, a source document reference, and a reason for each line that does not apply.")) s, None)
  else match isoOf (gf_observedAt s) with
  | Some observedAt =>
      (withOutcome true None s,
       Some (mkGuestInput (trim (gf_representative s)) observedAt (trim (gf_sourceReference s)) (trim (gf_notes s))
               (map trimmedLine (gf_lines s))))
  | None => (withOutcome false (Some (js "Invalid time value")) s, None)
  end.
(** The promise settles; [failure] is the message of its rejection. *)
Definition guestSettled (failure : option str) (s : GuestFormState) : GuestFormState :=
  withOutcome false (match failure with Some m => Some m | None => gf_error s end) s.

(** What can happen to the form of one context; the fields are disabled while it is sent. *)
Inductive guestStep (context : GuestReadingContext) : GuestFormState → GuestFormState → Prop :=
| g_quantity id value s line : gf_pending s = false → line ∈ gf_lines s → sl_lineId line = id →
    notApplicable line = false → guestStep context s (update id (typeQuantity value) s)
| g_note id value s : gf_pending s = false → guestStep context s (update id (typeNote value) s)
| g_toggle id s : gf_pending s = false → guestStep context s (update id toggleApplicable s)
| g_openNote id s : gf_pending s = false → guestStep context s (openNote id s)
| g_details r o sr n s : gf_pending s = false → guestStep context s (typeDetails r o sr n s)
| g_submit s : guestStep context s (submitGuest context s).1
| g_settled failure s : gf_pending s = true → guestStep context s (guestSettled failure s).
End Submit.

(** ** The workspace *)

(** The component is mounted anew when the context, the agency or the lines change; a mounted
    one keeps the confirmed context and its form. *)
Definition guestLineJson (line : GuestCargoLine) : json :=
  mkObj [fld "description" (gl_description line); fld "category" (gl_category line);
    fld "direction" (gl_direction line); fld "containerSize" (gl_containerSize line);
    fld "loadStatus" (gl_loadStatus line); fld "unit" (gl_unit line); fld "basis" (gl_basis line);
    fld "id" (gl_id line)].
Definition workspaceKey (context : GuestReadingContext) : str :=
  stringify (JArr [JStr (cx_contextId context); JStr (cx_agencyId context); JArr (map guestLineJson (cx_lines context))]).
Record Workspace := mkWorkspace { ws_key : str; ws_completed : option GuestReadingContext; ws_form : GuestFormState }.
Definition mountWorkspace (context : GuestReadingContext) (now : str) : Workspace :=
  mkWorkspace (workspaceKey context) None (openGuestForm context now).
Definition renderWorkspace (context : GuestReadingContext) (now : str) (w : Workspace) : Workspace :=
  if streq (ws_key w) (workspaceKey context) then w else mountWorkspace context now.

Definition currentContext (context : GuestReadingContext) (w : Workspace) : GuestReadingContext :=
  match cx_ownReport context with
  | Some _ => context
  | None => default context (ws_completed w)
  end.
Definition ownReportOf (context : GuestReadingContext) (w : Workspace) : option GuestSubmittedReport :=
  report ← cx_ownReport (currentContext context w);
  if or_submitted report && streq (or_participantId report) (cx_agencyId context) then Some report else None.
Definition peersOf (context : GuestReadingContext) (w : Workspace) : list GuestPeerReport :=
  match ownReportOf context w with
  | Some _ => filterb (λ report, pr_submitted report && negb (streq (pr_participantId report) (cx_agencyId context)))
                (cx_completedPeers (currentContext context w))
  | None => []
  end.
(** The answer of [onSubmit] is taken only when it confirms this agency's report. *)
Definition confirms (context result : GuestReadingContext) : bool :=
  streq (cx_contextId result) (cx_contextId context) && streq (cx_agencyId result) (cx_agencyId context)
  && match cx_ownReport result with
     | Some report => streq (or_participantId report) (cx_agencyId context) && or_submitted report
     | None => false
     end.
Definition submissionAnswered (context : GuestReadingContext) (answer : result str GuestReadingContext)
    (w : Workspace) : Workspace :=
  match answer with
  | Ok result =>
    if confirms context result then mkWorkspace (ws_key w) (Some result) (guestSettled None (ws_form w))
    else mkWorkspace (ws_key w) (ws_completed w)
      (guestSettled (Some (js "The submitted report could not be confirmed for this agency. Your entries are still shown below.")) (ws_form w))
  | Err message => mkWorkspace (ws_key w) (ws_completed w) (guestSettled (Some message) (ws_form w))
  end.

(** The cell of another agency's reading beside one's own. *)
Inductive PeerCell := pc_missing | pc_na | pc_same (text : str) | pc_differs (text : str).
Definition peerCell (own : list SubmissionLine) (peer : GuestPeerReport) (lineId : str) : PeerCell :=
  let mine := findb (λ r, streq (sl_lineId r) lineId) (rev own) in
  match findb (λ item, streq (pl_lineId item) lineId) (pr_lines peer) with
  | None => pc_missing
  | Some reading =>
    if bool_decide (pl_status reading = not_applicable) then pc_na else
    let differs := match mine with
      | Some m => bool_decide (sl_status m = reported)
          && negb (bool_decide (quantityDifference (pl_quantity reading) (sl_quantity m) = Some (js "0")))
      | None => false end in
    if differs then pc_differs (readingQuantity (pl_quantity reading)) else pc_same (readingQuantity (pl_quantity reading))
  end.

(** ** The page (AgencyReadingPage.tsx) *)

(** An address as the browser parses it: the pairs of its query and of its fragment. *)
Record Address := mkAddress { ad_path : str; ad_params : list (str * str); ad_hash : list (str * str) }.
(** [URLSearchParams.get] and [.set] *)
Definition getParam (k : str) (ps : list (str * str)) : option str := snd <$> findb (λ p, streq p.1 k) ps.
Fixpoint setParam (k v : str) (ps : list (str * str)) : list (str * str) :=
  match ps with
  | [] => [(k, v)]
  | p :: ps => if streq p.1 k then (k, v) :: filterb (λ p, negb (streq p.1 k)) ps else p :: setParam k v ps
  end.
Definition withContextId (contextId : str) (a : Address) : Address :=
  mkAddress (ad_path a) (setParam (js "contextId") contextId (ad_params a)) (ad_hash a).

(** What opening a link does, in order: addresses written to the history, and requests. *)
Inductive Effect := replaced (address : Address) | asked (q : GuestRequest).
Section Open.
Context (server : Server).
Definition runEffects {T} (sent : list Effect) (m : Guest T) : list Effect * result GuestFailure T :=
  let requests := omap (λ e, match e with asked q => Some q | replaced _ => None end) sent in
  let '(requests', r) := runGuest server requests m in
  (sent ++ map asked (drop (length requests) requests'), r).

(** The token of the fragment is exchanged for a context id; without one the id is that of the
    query. *)
Definition withToken (token : str) (address : Address) : list Effect * result GuestFailure (str * Address) :=
  let effects := [replaced address] in
  if truthy token then
    let '(effects, r) := runEffects effects (exchange token) in
    match r with
    | Ok contextId => (effects ++ [replaced (withContextId contextId address)],
                       Ok (contextId, withContextId contextId address))
    | Err e => (effects, Err e)
    end
  else (effects, Ok (default [] (getParam (js "contextId") (ad_params address)), address)).
Definition openAgencyContext (address : Address) : list Effect * result GuestFailure (option json) :=
  let token := default [] (getParam (js "token") (ad_hash address)) in
  match withToken token (mkAddress (ad_path address) (ad_params address) []) with
  | (effects, Err e) => (effects, Err e)
  | (effects, Ok (contextId, address)) =>
    let '(effects, r) := runEffects effects (readContext contextId) in
    match r with
    | Err e => (effects, Err e)
    | Ok context =>
      if isEmpty contextId
      then (effects ++ [replaced (withContextId (elementText (default JNull (prop "contextId" context))) address)], Ok context)
      else (effects, Ok context)
    end
  end.
End Open.

(** The page keeps the context shown and the id of its last submission. *)
Record PageState := mkPage {
  pg_context : option GuestReadingContext; pg_error : option str; pg_attempt : option (str * str) }.
Definition portalContext (context : GuestReadingContext) : GuestContext :=
  mkGuestContext (cx_contextId context) (cx_agencyId context) (cx_inputFingerprint context).
Definition pageSubmit (input : GuestReadingInput) (uuid : str) (pg : PageState)
  : PageState * result GuestFailure (Guest (option json)) :=
  match pg_context pg with
  | None => (pg, Err (portalError (js "Reopen your agency link before submitting.") 403))
  | Some context =>
    let '(attempt, requestId) := submissionAttempt (portalContext context) input uuid (pg_attempt pg) in
    (mkPage (pg_context pg) (pg_error pg) attempt, Ok (GuestPortal.submit (portalContext context) requestId input))
  end.
Definition pageSubmitted (next : GuestReadingContext) (pg : PageState) : PageState :=
  mkPage (Some next) (pg_error pg) (pg_attempt pg).
(** Only the report this context confirms can be downloaded. *)
Definition pageDownload `{Host} (reportId : str) (pg : PageState) : result GuestFailure (Guest GuestResponse) :=
  match pg_context pg ≫= λ context, report ← cx_ownReport context;
      if streq (or_id report) reportId && streq (or_participantId report) (cx_agencyId context)
      then Some context else None with
  | Some context => Ok (receipt (cx_contextId context))
  | None => Err (portalError (js "Only your own submitted report can be downloaded from this link.") 403)
  end.
(** [agency-report-${reportId.replace(/[^a-zA-Z0-9_-]/g, "")}.pdf] *)
Definition fileNameChar (c : N) : bool := isWord c || N.eqb c cMinus.
Definition downloadName (reportId : str) : str :=
  js "agency-report-" ++ filterb fileNameChar reportId ++ js ".pdf".

(** ** Lemmas *)

Section Form.
Context (reportValidity : GuestFormState → bool) (isoOf : str → option str) (context : GuestReadingContext).

(** One line per cargo line, in its order; a line that does not apply has no quantity. *)
Record guestFormOk (s : GuestFormState) : Prop := {
  go_lines : map sl_lineId (gf_lines s) = map gl_id (cx_lines context);
  go_na : ∀ line, line ∈ gf_lines s → notApplicable line = true → sl_quantity line = None }.

Lemma update_ok id patch s : guestFormOk s → (∀ line, sl_lineId (patch line) = sl_lineId line) →
  (∀ line, line ∈ gf_lines s → sl_lineId line = id → notApplicable (patch line) = true → sl_quantity (patch line) = None) →
  guestFormOk (update id patch s).
Proof.
  intros [Hl Hn] Hid Hp. split; cbn [update withLines gf_lines].
  - rewrite <- Hl, map_map. apply map_ext. intros line. by destruct (streq _ _).
  - intros line Hin. apply list_elem_of_fmap in Hin as (line' & -> & Hin).
    destruct (streq (sl_lineId line') id) eqn:E; [|by apply Hn]. apply streq_true in E. by apply Hp.
Qed.

Lemma submitGuest_lines s : gf_lines (submitGuest reportValidity isoOf context s).1 = gf_lines s.
Proof. unfold submitGuest. by repeat case_match. Qed.
Lemma guestStep_ok s s' : NoDup (map gl_id (cx_lines context)) → guestFormOk s →
  guestStep reportValidity isoOf context s s' → guestFormOk s'.
Proof.
  intros Hnd Hok Hstep. pose proof Hok as [Hl Hn]. destruct Hstep as
    [id value s line Hp Hline Hid Hna|id value s Hp|id s Hp|id s Hp|r o sr n s Hp|s|failure s Hp]; try by split.
  - apply update_ok; [done|done|]. intros line' Hin' Hid' Hna'. exfalso.
    assert (line' = line) as -> by (eapply (NoDup_map_inj sl_lineId (gf_lines s)); [by rewrite Hl|done|done|congruence]).
    unfold notApplicable in *. cbn in Hna'. congruence.
  - apply update_ok; [done|done|]. intros line' Hin' _. apply (Hn line' Hin').
  - apply update_ok; [done|intros line; unfold toggleApplicable; by destruct (notApplicable line)|].
    intros line _ _. unfold toggleApplicable. destruct (notApplicable line); done.
  - split; by rewrite submitGuest_lines.
Qed.
Lemma openGuestForm_ok now : guestFormOk (openGuestForm context now).
Proof.
  split; [cbn; by rewrite map_map|]. intros line Hin. cbn in Hin. apply list_elem_of_fmap in Hin as (l & -> & _). done.
Qed.
Lemma guestForm_reachable now s : NoDup (map gl_id (cx_lines context)) →
  rtc (guestStep reportValidity isoOf context) (openGuestForm context now) s → guestFormOk s.
Proof.
  intros Hnd Hr. assert (Ho := openGuestForm_ok now). revert Ho. generalize dependent (openGuestForm context now).
  intros s0 Hr. induction Hr as [|s0 s1 s2 Hs _ IH]; [done|]. intros Ho. apply IH. by eapply guestStep_ok.
Qed.
End Form.

(** [required] fields of a form that reports itself valid are filled: the quantity of every
    line but those marked not applicable. *)
Definition requiredFilled (reportValidity : GuestFormState → bool) : Prop :=
  ∀ s, reportValidity s = true → ∀ line, line ∈ gf_lines s → notApplicable line = false → hasQuantity line = true.

(** A reading an agency sends is complete: however it was filled in, it has exactly one
    entry for every cargo line of the form, in its order, each with a quantity, or marked not
    applicable with a reason and without one, and names who counted and from which document. *)
Theorem guest_reading_complete (reportValidity : GuestFormState → bool) (isoOf : str → option str)
    (context : GuestReadingContext) (now : str) (s s' : GuestFormState) (input : GuestReadingInput)
    (Hrequired : requiredFilled reportValidity) (Hids : NoDup (map gl_id (cx_lines context)))
    (Hreach : rtc (guestStep reportValidity isoOf context) (openGuestForm context now) s)
    (Hsubmit : submitGuest reportValidity isoOf context s = (s', Some input)) :
  map sl_lineId (gi_lines input) = map gl_id (cx_lines context) ∧ gi_lines input ≠ [] ∧
  (∀ line, line ∈ gi_lines input →
     (sl_status line = reported ∧ ∃ q, sl_quantity line = Some q ∧ q ≠ []) ∨
     (sl_status line = not_applicable ∧ sl_quantity line = None ∧ sl_note line ≠ [])) ∧
  gi_representative input ≠ [] ∧ gi_sourceReference input ≠ [] ∧ gf_pending s' = true ∧
  submitGuest reportValidity isoOf context s' = (s', None).
Proof.
  pose proof (guestForm_reachable _ _ _ _ _ Hids Hreach) as [Hl Hn]. unfold submitGuest in Hsubmit.
  destruct (gf_pending s || _) eqn:Hp; [done|]. apply orb_false_iff in Hp as [Hp Hne].
  destruct (reportValidity s) eqn:Hv; [|done]. cbn [negb] in Hsubmit.
  destruct (isEmpty _ || _ || _) eqn:Hc; [done|]. rewrite !orb_false_iff in Hc. destruct Hc as [[Hr Hs] Hnote].
  destruct (isoOf _) as [at_|]; [|done]. injection Hsubmit as <- <-. cbn [gi_lines gi_representative gi_sourceReference].
  assert (Hmap : map sl_lineId (map trimmedLine (gf_lines s)) = map gl_id (cx_lines context)) by (by rewrite map_map).
  split_and!; [done| | |by destruct (trim _)|by destruct (trim (gf_sourceReference s))|done|done].
  - destruct (map trimmedLine (gf_lines s)); [|done]. cbn in Hmap. by destruct (cx_lines context).
  - intros line Hin. apply list_elem_of_fmap in Hin as (l & -> & Hin). rewrite existsb_false in Hnote.
    specialize (Hnote l Hin). destruct (notApplicable l) eqn:Ha; cbn [andb] in Hnote.
    + right. unfold notApplicable in Ha. apply bool_decide_eq_true in Ha. cbn. split_and!; [done|by apply Hn; [|apply bool_decide_eq_true_2]|].
      by destruct (trim (sl_note l)).
    + left. pose proof (Hrequired s Hv l Hin Ha) as Hq. unfold hasQuantity in Hq. cbn.
      destruct (sl_quantity l) as [q|] eqn:Eq; [|done]. split; [|exists q; split; [done|by destruct q]].
      unfold notApplicable in Ha. apply bool_decide_eq_false in Ha. by destruct (sl_status l).
Qed.

(** ** Lemmas: the workspace *)

Lemma workspaceKey_inj c c' : workspaceKey c = workspaceKey c' →
  cx_contextId c = cx_contextId c' ∧ cx_agencyId c = cx_agencyId c'.
Proof. unfold workspaceKey. by intros [= -> -> _]%stringify_inj. Qed.

(** What can happen to the workspace: the page renders it with another context, the form is
    used, or the submission of a render with the same key is answered. *)
Inductive workspaceStep (reportValidity : GuestFormState → bool) (isoOf : str → option str) :
  GuestReadingContext * Workspace → GuestReadingContext * Workspace → Prop :=
| w_render context context' now w :
    workspaceStep reportValidity isoOf (context, w) (context', renderWorkspace context' now w)
| w_form context w s' : guestStep reportValidity isoOf context (ws_form w) s' →
    workspaceStep reportValidity isoOf (context, w) (context, mkWorkspace (ws_key w) (ws_completed w) s')
| w_answer context context0 answer w : ws_key w = workspaceKey context0 →
    workspaceStep reportValidity isoOf (context, w) (context, submissionAnswered context0 answer w).

Definition workspaceOk (e : GuestReadingContext * Workspace) : Prop :=
  ws_key e.2 = workspaceKey e.1 ∧
  ∀ c, ws_completed e.2 = Some c → cx_contextId c = cx_contextId e.1 ∧ cx_agencyId c = cx_agencyId e.1.
Lemma workspaceStep_ok reportValidity isoOf e e' :
  workspaceStep reportValidity isoOf e e' → workspaceOk e → workspaceOk e'.
Proof.
  intros [context context' now w|context w s' _|context context0 answer w Hkey] [Hk Hc]; cbn [fst snd] in *.
  - unfold renderWorkspace. destruct (streq _ _) eqn:E; [|by split].
    apply streq_true in E. split; [done|]. intros c (H1 & H2)%Hc. cbn [fst snd].
    destruct (workspaceKey_inj context context') as [H3 H4]; [congruence|split; congruence].
  - by split.
  - destruct (workspaceKey_inj context context0) as [Hid Hag]; [congruence|].
    unfold submissionAnswered. destruct answer as [result|message]; [|by split].
    destruct (confirms context0 result) eqn:Hconf; [|by split]. split; [done|]. intros c [= <-]. cbn [fst snd].
    unfold confirms in Hconf. apply andb_true_iff in Hconf as [[H1%streq_true H2%streq_true]%andb_true_iff _].
    split; congruence.
Qed.

(** What the agency's page shows is its own session: whatever contexts and answers arrive,
    in any order, a shown report is the submitted one of the agency the form is for, and
    another agency's reading is shown only beside it, from the context of the same link. *)
Theorem peers_only_with_own (reportValidity : GuestFormState → bool) (isoOf : str → option str)
    (context0 context : GuestReadingContext) (now : str) (w : Workspace)
    (Hreach : rtc (workspaceStep reportValidity isoOf) (context0, mountWorkspace context0 now) (context, w)) :
  (∀ report, ownReportOf context w = Some report →
     or_submitted report = true ∧ or_participantId report = cx_agencyId context) ∧
  (∀ peer, peer ∈ peersOf context w →
     is_Some (ownReportOf context w) ∧ pr_submitted peer = true ∧ pr_participantId peer ≠ cx_agencyId context ∧
     ∃ c, peer ∈ cx_completedPeers c ∧ cx_contextId c = cx_contextId context ∧ cx_agencyId c = cx_agencyId context).
Proof.
  assert (Hok : workspaceOk (context, w)).
  { assert (H0 : workspaceOk (context0, mountWorkspace context0 now)) by done. revert H0.
    generalize dependent (context0, mountWorkspace context0 now). intros e Hr.
    induction Hr as [|e e' e'' Hs _ IH]; [done|]. intros Ho. apply IH. by eapply workspaceStep_ok. }
  destruct Hok as [_ Hc]. cbn [fst snd] in Hc. split.
  - intros report. unfold ownReportOf. destruct (cx_ownReport _) as [r|]; [|done]. cbn [mbind option_bind].
    destruct (_ && _) eqn:E; [|done]. intros [= <-]. by apply andb_true_iff in E as [? ?%streq_true].
  - intros peer. unfold peersOf. destruct (ownReportOf context w) as [own|]; [|by intros ?%elem_of_nil].
    intros [Hin [Hs Hne%negb_true_iff%streq_false]%andb_true_iff]%elem_of_filterb. split_and!; [done|done|done|].
    exists (currentContext context w). split; [done|]. unfold currentContext.
    destruct (cx_ownReport context); [done|]. destruct (ws_completed w) as [c|] eqn:E; [|done]. by apply Hc.
Qed.

(** ** Lemmas: opening a link *)

Lemma getParam_setParam k v ps : getParam k (setParam k v ps) = Some v.
Proof.
  unfold getParam. induction ps as [|[k' v'] ps IH]; simpl; [by rewrite streq_refl|].
  destruct (streq k' k) eqn:E; simpl; [by rewrite streq_refl|]. by rewrite E.
Qed.

Lemma runGuest_extends {T} server (m : Guest T) sent : ∃ new, (runGuest server sent m).1 = sent ++ new.
Proof.
  revert sent. induction m as [t|e|q k IH]; intros sent; simpl; [exists []; by rewrite app_nil_r|exists []; by rewrite app_nil_r|].
  destruct (IH (server sent q) (sent ++ [q])) as [new ->]. exists (q :: new). by rewrite <- app_assoc.
Qed.
Lemma runEffects_extends {T} server (m : Guest T) sent effects r : runEffects server sent m = (effects, r) →
  ∃ new, effects = sent ++ map asked new ∧
    runGuest server (omap (λ e, match e with asked q => Some q | replaced _ => None end) sent) m =
      (omap (λ e, match e with asked q => Some q | replaced _ => None end) sent ++ new, r).
Proof.
  unfold runEffects. set (requests := omap _ sent). destruct (runGuest_extends server m requests) as [new Hn].
  destruct (runGuest server requests m) as [requests' o]. cbn [fst] in Hn. subst requests'. intros [= <- <-].
  exists new. by rewrite drop_app_length.
Qed.

Definition addressesOf (effects : list Effect) : list Address :=
  omap (λ e, match e with replaced a => Some a | asked _ => None end) effects.
Lemma addresses_asked new : addressesOf (map asked new) = [].
Proof. induction new as [|q new IH]; [done|]. apply IH. Qed.

Lemma addressesOf_app l k : addressesOf (l ++ k) = addressesOf l ++ addressesOf k.
Proof. apply omap_app. Qed.

(** The addresses written keep the path and never the fragment; the last one names the context
    id that was found, if any. *)
Record addressed (path : str) (effects : list Effect) (a : Address) (contextId : str) : Prop := {
  ad_clean : ∀ a, a ∈ addressesOf effects → ad_hash a = [] ∧ ad_path a = path;
  ad_last : last (addressesOf effects) = Some a;
  ad_named : contextId ≠ [] → getParam (js "contextId") (ad_params a) = Some contextId }.
Lemma addressed_asked path effects a contextId new : addressed path effects a contextId →
  addressed path (effects ++ map asked new) a contextId.
Proof. intros [H1 H2 H3]. split; rewrite ?addressesOf_app, ?addresses_asked, ?app_nil_r; done. Qed.
Lemma addressed_replaced path effects a contextId id : addressed path effects a contextId →
  addressed path (effects ++ [replaced (withContextId id a)]) (withContextId id a) id.
Proof.
  intros [H1 H2 H3]. assert (Ha : ad_hash a = [] ∧ ad_path a = path).
  { apply H1. apply last_Some in H2 as [l ->]. apply elem_of_app. right. by apply list_elem_of_singleton. }
  split; rewrite ?addressesOf_app; cbn.
  - intros a' [Hin| ->%list_elem_of_singleton]%elem_of_app; [by apply H1|done].
  - apply last_snoc.
  - intros _. apply getParam_setParam.
Qed.

Lemma withToken_addressed server token address effects r : ad_hash address = [] →
  withToken server token address = (effects, r) →
  (∃ rest, effects = replaced address :: rest) ∧
  match r with
  | Ok (contextId, a) => addressed (ad_path address) effects a contextId
  | Err _ => ∀ a, a ∈ addressesOf effects → ad_hash a = [] ∧ ad_path a = ad_path address
  end.
Proof.
  intros Hhash. unfold withToken.
  assert (H0 : ∀ id, (id ≠ [] → getParam (js "contextId") (ad_params address) = Some id) →
    addressed (ad_path address) [replaced address] address id).
  { intros id Hid. split; [by intros a ->%list_elem_of_singleton|done|done]. }
  destruct (truthy token).
  - destruct (runEffects server _ (exchange token)) as [eff r1] eqn:E. apply runEffects_extends in E as (new & -> & _).
    destruct r1 as [contextId|e]; intros [= <- <-].
    + split; [by eexists|]. assert (Hn : addressed (ad_path address) ([replaced address] ++ map asked new) address [])
        by (apply addressed_asked; by apply H0).
      exact (addressed_replaced _ _ _ _ contextId Hn).
    + split; [by eexists|]. assert (Hn : addressed (ad_path address) ([replaced address] ++ map asked new) address [])
        by (apply addressed_asked; by apply H0).
      apply Hn.
  - intros [= <- <-]. split; [by eexists|]. apply H0. by destruct (getParam _ _).
Qed.

(** Opening a secure link: the address is written without the link's secret before anything
    is sent, and never with it again; and when the form opens, the address names the context
    that is shown, so that loading the page again cannot open another agency's form. *)
Theorem link_secret_removed (server : Server) (address : Address) (effects : list Effect)
    (r : result GuestFailure (option json)) (Hopen : openAgencyContext server address = (effects, r)) :
  (∃ rest, effects = replaced (mkAddress (ad_path address) (ad_params address) []) :: rest) ∧
  (∀ a, a ∈ addressesOf effects → ad_hash a = [] ∧ ad_path a = ad_path address) ∧
  (∀ context id, r = Ok context → prop "contextId" context = Some (JStr id) →
     ∃ a, last (addressesOf effects) = Some a ∧ getParam (js "contextId") (ad_params a) = Some id).
Proof.
  unfold openAgencyContext in Hopen. set (a0 := mkAddress _ _ []) in *.
  destruct (withToken server _ a0) as [eff1 r1] eqn:Et. apply withToken_addressed in Et as [[rest ->] Hr1]; [|done].
  destruct r1 as [[contextId a]|e].
  2: { injection Hopen as <- <-. split_and!; [by exists rest|done|done]. }
  destruct (runEffects server _ (readContext contextId)) as [eff2 r2] eqn:Er.
  apply runEffects_extends in Er as (new & -> & Hrun).
  assert (Ha : addressed (ad_path address) ((replaced a0 :: rest) ++ map asked new) a contextId)
    by (by apply addressed_asked).
  destruct r2 as [context|e].
  2: { injection Hopen as <- <-. split_and!; [by eexists|by apply Ha|done]. }
  apply run_readContext_Ok in Hrun as [_ Hid].
  destruct contextId as [|c contextId]; cbn [isEmpty] in Hopen; injection Hopen as <- <-.
  - split_and!; [by eexists| |].
    + by apply (addressed_replaced (ad_path address) _ a [] _ Ha).
    + intros context' id [= <-] Hprop. rewrite Hprop. cbn [default elementText].
      destruct (addressed_replaced (ad_path address) _ a [] id Ha) as [_ Hl _]. eexists. split; [exact Hl|]. apply getParam_setParam.
  - split_and!; [by eexists|by apply Ha|]. intros context' id [= <-] Hprop. exists a. split; [by apply Ha|].
    specialize (Hid ltac:(done)). unfold equalsStr in Hid. rewrite Hprop in Hid. apply streq_true in Hid as ->.
    by apply Ha.
Qed.

(** ** Witnesses *)

Definition sampleContext : GuestReadingContext :=
  mkReadingContext (js "ctx-1") (js "a1") (js "Port ops") (js "Terminal operator") (js "Bola")
    [mkGuestLine (js "l1") (js "Cars") (js "Vehicle") (js "import") [] [] count []] None [] (js "fp-1").
Definition filledForm (s : GuestFormState) : bool :=
  forallb (λ line, notApplicable line || hasQuantity line) (gf_lines s).
Lemma filledForm_required : requiredFilled filledForm.
Proof.
  intros s Hs line Hin Hna. unfold filledForm in Hs. rewrite forallb_true in Hs. specialize (Hs line Hin). by rewrite Hna in Hs.
Qed.
Definition typedReading : GuestFormState :=
  typeDetails (js "Bola") (js "2026-07-02T08:00") (js "T-9") []
    (update (js "l1") (typeQuantity (js "12")) (openGuestForm sampleContext (js "2026-07-02T08:00"))).
Lemma guest_reading_complete_witness :
  ∃ input, (submitGuest filledForm (λ s, Some s) sampleContext typedReading).2 = Some input ∧
    map sl_lineId (gi_lines input) = [js "l1"] ∧ gi_sourceReference input ≠ [].
Proof.
  eexists. split; [vm_compute; reflexivity|].
  destruct (guest_reading_complete filledForm (λ s, Some s) sampleContext (js "2026-07-02T08:00") typedReading
    (submitGuest filledForm (λ s, Some s) sampleContext typedReading).1
    (mkGuestInput (js "Bola") (js "2026-07-02T08:00") (js "T-9") [] [mkSubmissionLine (js "l1") reported (Some (js "12")) []]))
    as (H1 & _ & _ & _ & H5 & _).
  - exact filledForm_required.
  - apply NoDup_singleton.
  - eapply rtc_l; [|apply rtc_once; apply g_details; reflexivity].
    eapply (g_quantity _ _ _ (js "l1") (js "12") _ (mkSubmissionLine (js "l1") reported None [])); [reflexivity| |reflexivity..].
    apply list_elem_of_here.
  - vm_compute. reflexivity.
  - split; [exact H1|exact H5].
Defined.

Definition submittedContext : GuestReadingContext :=
  mkReadingContext (js "ctx-1") (js "a1") (js "Port ops") (js "Terminal operator") (js "Bola") (cx_lines sampleContext)
    (Some (mkOwnReport (js "r1") (js "a1") (js "t") true (mkGuestInput (js "Bola") (js "t") (js "T-9") [] [])))
    [mkPeerReport (js "r2") (js "a2") (js "Surveyor") (js "Surveyor") (js "t") true []] (js "fp-2").
Lemma peers_only_with_own_witness :
  length (peersOf sampleContext (submissionAnswered sampleContext (Ok submittedContext) (mountWorkspace sampleContext (js "t")))) = 1%nat ∧
  ∀ peer, peer ∈ peersOf sampleContext (submissionAnswered sampleContext (Ok submittedContext) (mountWorkspace sampleContext (js "t"))) →
    pr_participantId peer ≠ js "a1".
Proof.
  split; [vm_compute; reflexivity|]. intros peer Hpeer.
  destruct (peers_only_with_own filledForm (λ s, Some s) sampleContext sampleContext (js "t")
    (submissionAnswered sampleContext (Ok submittedContext) (mountWorkspace sampleContext (js "t")))) as [_ Hp].
  - apply rtc_once. apply w_answer. reflexivity.
  - apply (Hp peer Hpeer).
Defined.

Definition linkAddress : Address :=
  mkAddress (js "/agency-reading") [(js "contextId", js "ctx-0")] [(js "token", js "secret")].
Definition linkServer : Server := λ _ q,
  if streq (gr_path q) (ROOT ++ js "/csrf")
  then ga_response 200 (Some (mkObj [fld "csrfToken" (js "tok")])) None
  else if streq (gr_method q) (js "POST") then ga_response 200 (Some (mkObj [fld "contextId" (js "ctx-1")])) None
  else ga_response 200 (Some (mkObj [fld "context" (storedContext "a1")])) None.
Lemma link_secret_removed_witness : ∃ context a,
  (openAgencyContext linkServer linkAddress).2 = Ok context ∧
  last (addressesOf (openAgencyContext linkServer linkAddress).1) = Some a ∧
  getParam (js "contextId") (ad_params a) = Some (js "ctx-1").
Proof.
  destruct (openAgencyContext linkServer linkAddress) as [effects r] eqn:E.
  destruct (link_secret_removed linkServer linkAddress effects r E) as (_ & _ & H3).
  assert (Hr : r = Ok (Some (storedContext "a1"))) by (vm_compute in E; injection E as _ <-; vm_compute; reflexivity).
  destruct (H3 (Some (storedContext "a1")) (js "ctx-1") Hr) as (a & Ha & Hp); [vm_compute; reflexivity|].
  exists (Some (storedContext "a1")), a. split; [exact Hr|]. split; [exact Ha|exact Hp].
Defined.
