(* ===== verification/AgencyTracker.v ===== *)
(** * The agency readings tracker (frontend/src/measurements/AgencyCollection.tsx, AgencyLinkPanel.tsx)

    One row per agency: its reading, where its secure link stands, and the panel that creates,
    copies, e-mails and revokes links. *)
From S2P Require Import Prelude JsString Json Codec MeasurementTypes Host Samples Helpers Uri.

Record AgencyLinkInfo := mkLinkInfo {
  lk_id : str; lk_participantId : str; lk_expiresAt : str; lk_revokedAt : option str; lk_submittedAt : option str }.
Record CreatedAgencyLink := mkCreatedLink { cl_link : AgencyLinkInfo; cl_url : str }.

Inductive LinkState :=
| st_submitted | st_active (link : AgencyLinkInfo) | st_expired (link : AgencyLinkInfo) | st_revoked | st_none.
Definition DAY : Z := 86400000.
(** A text that is neither [null] nor empty. *)
Definition given (value : option str) : bool := match value with Some v => truthy v | None => false end.

Section Tracker.
Context `{Host}.

(** [Date.parse(link.expiresAt) > now]: never for a text that is not a date. *)
Definition unexpired (now : Z) (link : AgencyLinkInfo) : bool :=
  match dateParse (lk_expiresAt link) with Some t => now <? t | None => false end.
Definition unusedLinks (links : list AgencyLinkInfo) : list AgencyLinkInfo :=
  sort_by (λ left right, localeCompare (lk_expiresAt right) (lk_expiresAt left))
    (filterb (λ link, negb (given (lk_submittedAt link))) links).
Definition linkState (submission : option Submission) (links : list AgencyLinkInfo) (now : Z) : LinkState :=
  match submission with
  | Some _ => st_submitted
  | None =>
    let unused := unusedLinks links in
    match findb (λ link, negb (given (lk_revokedAt link)) && unexpired now link) unused with
    | Some active => st_active active
    | None =>
      match findb (λ link, negb (given (lk_revokedAt link))) unused with
      | Some expired => st_expired expired
      | None => match unused with [] => st_none | _ => st_revoked end
      end
    end
  end.

(** The chip of a state; a link that ends within two days is shown in red. *)
Definition chipLabel (dayLabel : str → str) (state : LinkState) : str :=
  match state with
  | st_submitted => js "Submitted"
  | st_active link => js "Link sent · expires " ++ dayLabel (lk_expiresAt link)
  | st_expired _ => js "Link expired"
  | st_revoked => js "Link revoked"
  | st_none => js "Not invited"
  end.
Definition chipTone (now : Z) (state : LinkState) : str :=
  match state with
  | st_submitted => js "green"
  | st_active link => if match dateParse (lk_expiresAt link) with Some t => t - now <? 2 * DAY | None => false end
                      then js "red" else []
  | st_expired _ => js "red"
  | st_revoked => []
  | st_none => js "outline"
  end.

Definition mailtoFor (dateLabel : str → str) (email : str) (plan : MeasurementPlan) (agency : Participant)
    (created : CreatedAgencyLink) : str :=
  let subject := js "Reading request: " ++ plan_vesselName plan ++ js " · " ++ plan_callReference plan in
  let nl := [10%N] in
  let body := js "Hello " ++ (if truthy (party_representative agency) then party_representative agency else party_name agency)
    ++ js "," ++ nl ++ nl ++ js "Please record " ++ party_name agency ++ js "’s independent reading for "
    ++ plan_vesselName plan ++ js " (voyage " ++ plan_callReference plan ++ js "). No sign-in is needed:" ++ nl ++ nl
    ++ cl_url created ++ nl ++ nl
    ++ js "The link works for your agency only and expires on " ++ dateLabel (lk_expiresAt (cl_link created))
    ++ js ". Photos or a PDF of your tally sheet can be shared with the NPA coordinator." ++ nl ++ nl ++ js "Thank you." in
  js "mailto:" ++ encodeURIComponent (trim email) ++ js "?subject=" ++ encodeURIComponent subject
  ++ js "&body=" ++ encodeURIComponent body.

(** ** The tracker *)

Definition closed (plan : MeasurementPlan) : bool :=
  bool_decide (plan_status plan = plan_cancelled)
  || (bool_decide (is_Some (latestReconciliation plan (Some recon_final)))
      && bool_decide (latestReconciliation plan (Some recon_draft) = None)).
Definition editable (canManage : bool) (plan : MeasurementPlan) : bool := canManage && negb (closed plan).
Definition submissionOf (plan : MeasurementPlan) (partyId : str) : option Submission := mget partyId (latestReturns plan).
Definition received (plan : MeasurementPlan) : nat :=
  length (filterb (λ party, bool_decide (is_Some (submissionOf plan (party_id party)))) (plan_participants plan)).

Record TrackerState := mkTracker {
  tk_reporting : option (str * Z); tk_panel : option str; tk_expanded : option str;
  tk_created : list (str * CreatedAgencyLink); tk_revoked : list str; tk_rowError : option (str * str); tk_now : Z }.
Definition openTracker (now : Z) : TrackerState := mkTracker None None None [] [] None now.

(** [isoTime] is [new Date(now).toISOString()]. *)
Context (isoTime : Z → str).
Definition withRevocation (revoked : list str) (now : Z) (link : AgencyLinkInfo) : AgencyLinkInfo :=
  if bool_decide (lk_id link ∈ revoked)
  then mkLinkInfo (lk_id link) (lk_participantId link) (lk_expiresAt link)
         (Some (default (isoTime now) (lk_revokedAt link))) (lk_submittedAt link)
  else link.
(** The links of an agency: the server's, then those created here that it does not list yet. *)
Definition knownLinks (links : list AgencyLinkInfo) (s : TrackerState) (participantId : str) : list AgencyLinkInfo :=
  map (withRevocation (tk_revoked s) (tk_now s))
    (filterb (λ link, streq (lk_participantId link) participantId)
       (links ++ filterb (λ link, negb (existsb (λ known, streq (lk_id known) (lk_id link)) links))
                   (map (λ e : str * CreatedAgencyLink, cl_link e.2) (tk_created s)))).
Definition stateOf (plan : MeasurementPlan) (links : list AgencyLinkInfo) (s : TrackerState) (partyId : str) : LinkState :=
  linkState (submissionOf plan partyId) (knownLinks links s partyId) (tk_now s).

Definition withLinks (created : list (str * CreatedAgencyLink)) (revoked : list str) (s : TrackerState) : TrackerState :=
  mkTracker (tk_reporting s) (tk_panel s) (tk_expanded s) created revoked (tk_rowError s) (tk_now s).
(** A link was created: [links0] and [s0] are those of the render the request was made in. *)
Definition linkCreated (links0 : list AgencyLinkInfo) (s0 : TrackerState) (participantId : str)
    (next : CreatedAgencyLink) (s : TrackerState) : TrackerState :=
  withLinks (mset participantId next (tk_created s))
    (tk_revoked s ++ map lk_id (filterb (λ link, negb (streq (lk_id link) (lk_id (cl_link next)))
                                              && negb (given (lk_submittedAt link))) (knownLinks links0 s0 participantId))) s.
(** A link was revoked: its address is forgotten. *)
Definition linkRevoked (participantId id : str) (s : TrackerState) : TrackerState :=
  withLinks (match mget participantId (tk_created s) with
             | Some c => if streq (lk_id (cl_link c)) id
                 then mset participantId (mkCreatedLink (cl_link c) []) (tk_created s) else tk_created s
             | None => tk_created s end)
    (tk_revoked s ++ [id]) s.

Definition openReporting (plan : MeasurementPlan) (partyId : str) (s : TrackerState) : TrackerState :=
  mkTracker (Some (partyId, plan_version plan)) None (tk_expanded s) (tk_created s) (tk_revoked s) (tk_rowError s) (tk_now s).
Definition closeReporting (s : TrackerState) : TrackerState :=
  mkTracker None (tk_panel s) (tk_expanded s) (tk_created s) (tk_revoked s) (tk_rowError s) (tk_now s).
Definition openPanel (partyId : str) (s : TrackerState) : TrackerState :=
  mkTracker None (Some partyId) (tk_expanded s) (tk_created s) (tk_revoked s) (tk_rowError s) (tk_now s).
Definition closePanel (s : TrackerState) : TrackerState :=
  mkTracker (tk_reporting s) None (tk_expanded s) (tk_created s) (tk_revoked s) (tk_rowError s) (tk_now s).
Definition toggleExpanded (partyId : str) (s : TrackerState) : TrackerState :=
  mkTracker (tk_reporting s) (tk_panel s) (if bool_decide (tk_expanded s = Some partyId) then None else Some partyId)
    (tk_created s) (tk_revoked s) (tk_rowError s) (tk_now s).
Definition tick (now : Z) (s : TrackerState) : TrackerState :=
  mkTracker (tk_reporting s) (tk_panel s) (tk_expanded s) (tk_created s) (tk_revoked s) (tk_rowError s) now.
Definition downloaded (submissionId : str) (failure : option str) (s : TrackerState) : TrackerState :=
  mkTracker (tk_reporting s) (tk_panel s) (tk_expanded s) (tk_created s) (tk_revoked s)
    ((λ e, (submissionId, e)) <$> failure) (tk_now s).
(** Saving the reading that is being entered: the version is that of the sheet when the form
    was opened. *)
Definition saveReading {A} (canManage : bool) (plan : MeasurementPlan) (input : A) (s : TrackerState)
  : result str (A * Z) :=
  if negb (editable canManage plan) then Err (js "This voyage sheet is no longer available for reporting.")
  else match tk_reporting s with Some (_, version) => Ok (input, version) | None => Err [] end.

(** The panel of an agency: the address it offers to copy and e-mail. *)
Definition panelCreated (partyId : str) (s : TrackerState) : option CreatedAgencyLink :=
  c ← mget partyId (tk_created s); if truthy (cl_url c) then Some c else None.
Definition offeredLink (plan : MeasurementPlan) (links : list AgencyLinkInfo) (s : TrackerState) (partyId : str)
  : option CreatedAgencyLink :=
  c ← panelCreated partyId s;
  match stateOf plan links s partyId with
  | st_active link =>
      if negb (given (lk_revokedAt (cl_link c))) && streq (lk_id link) (lk_id (cl_link c)) then Some c else None
  | _ => None
  end.
Definition panelTitle (plan : MeasurementPlan) (links : list AgencyLinkInfo) (s : TrackerState) (partyId : str) : str :=
  match offeredLink plan links s partyId with
  | Some _ => js "Share the secure link"
  | None => match stateOf plan links s partyId with
            | st_active _ => js "Link sent" | _ => js "Send a secure link" end
  end.

(** ** The buttons of a panel *)

(** [busy] is a ref: a second press does nothing until the action settled. *)
Record PanelState := mkPanel { pn_busy : bool; pn_error : option str }.
Definition runAction (p : PanelState) : option PanelState :=
  if pn_busy p then None else Some (mkPanel true None).
Definition actionSettled (failure : option str) (p : PanelState) : PanelState :=
  mkPanel false (match failure with Some e => Some e | None => pn_error p end).
(** The days a new link lasts: those chosen, seven for a replacement. *)
Definition EXPIRY_DAYS : list Z := [3; 7; 14].

(** What can happen to the tracker: its buttons, the clock, and the answers to requests made
    in an earlier render [s0] with the links [links0]. *)
Inductive trackerStep : TrackerState → TrackerState → Prop :=
| t_created links0 s0 participantId next s : trackerStep s (linkCreated links0 s0 participantId next s)
| t_revoked participantId id s : trackerStep s (linkRevoked participantId id s)
| t_report plan partyId s : trackerStep s (openReporting plan partyId s)
| t_closeReport s : trackerStep s (closeReporting s)
| t_panel partyId s : trackerStep s (openPanel partyId s)
| t_closePanel s : trackerStep s (closePanel s)
| t_expand partyId s : trackerStep s (toggleExpanded partyId s)
| t_tick now s : trackerStep s (tick now s)
| t_downloaded id failure s : trackerStep s (downloaded id failure s).
End Tracker.

(** ** Lemmas *)

Section Links.
Context `{Host} (isoTime : Z → str).

Lemma elem_of_unused links link : link ∈ unusedLinks links ↔ link ∈ links ∧ given (lk_submittedAt link) = false.
Proof. unfold unusedLinks. by rewrite elem_of_sort_by, elem_of_filterb, negb_true_iff. Qed.

(** An active link is one that can be used: of an agency that has not reported, neither used,
    nor revoked, nor expired. *)
Lemma linkState_active submission links now link : linkState submission links now = st_active link →
  submission = None ∧ link ∈ links ∧ given (lk_submittedAt link) = false ∧ given (lk_revokedAt link) = false ∧
  unexpired now link = true.
Proof.
  unfold linkState. destruct submission; [done|]. destruct (findb _ _) as [active|] eqn:E.
  - intros [= <-]. apply findb_Some in E as [[Hin Hs]%elem_of_unused [Hr%negb_true_iff Hu]%andb_true_iff]. done.
  - by repeat case_match.
Qed.

Lemma elem_of_knownLinks links s p link : link ∈ knownLinks isoTime links s p →
  ∃ link0, link = withRevocation isoTime (tk_revoked s) (tk_now s) link0 ∧ lk_participantId link0 = p ∧
    (link0 ∈ links ∨ ∃ id c, (id, c) ∈ tk_created s ∧ link0 = cl_link c).
Proof.
  unfold knownLinks. intros (link0 & -> & Hin)%list_elem_of_fmap. exists link0. split; [done|].
  apply elem_of_filterb in Hin as [Hin Hp%streq_true]. split; [done|].
  apply elem_of_app in Hin as [Hin|[Hin _]%elem_of_filterb]; [by left|right].
  apply list_elem_of_fmap in Hin as ([id c] & -> & Hin). by exists id, c.
Qed.
Lemma withRevocation_fields revoked now link :
  let l := withRevocation isoTime revoked now link in
  lk_id l = lk_id link ∧ lk_participantId l = lk_participantId link ∧ lk_expiresAt l = lk_expiresAt link ∧
  lk_submittedAt l = lk_submittedAt link.
Proof. unfold withRevocation. by case_bool_decide. Qed.

(** The server sends [null] or a time for a revocation. *)
Definition dated (links : list AgencyLinkInfo) (s : TrackerState) : Prop :=
  ∀ link, link ∈ links ∨ (∃ id c, (id, c) ∈ tk_created s ∧ link = cl_link c) → lk_revokedAt link ≠ Some [].

(** A link revoked or replaced in this tab is not active in it. *)
Lemma revoked_inactive plan links s p link : (∀ now, isoTime now ≠ []) → dated links s →
  stateOf isoTime plan links s p = st_active link → lk_id link ∉ tk_revoked s.
Proof.
  intros Hiso Hdated Hs Hin. apply linkState_active in Hs as (_ & Hk & _ & Hr & _).
  apply elem_of_knownLinks in Hk as (link0 & -> & _ & Hl).
  destruct (withRevocation_fields (tk_revoked s) (tk_now s) link0) as (Hid & _). rewrite Hid in Hin.
  unfold withRevocation in Hr. rewrite bool_decide_eq_true_2 in Hr by done. cbn in Hr.
  specialize (Hdated link0 Hl). destruct (lk_revokedAt link0) as [[|c t]|]; try done.
  cbn in Hr. by destruct (isoTime (tk_now s)) eqn:E; [destruct (Hiso (tk_now s))|].
Qed.

Lemma trackerStep_revoked s s' id : trackerStep isoTime s s' → id ∈ tk_revoked s → id ∈ tk_revoked s'.
Proof. intros Hstep Hid. destruct Hstep; try done; cbn; apply elem_of_app; by left. Qed.
Lemma trackerSteps_revoked s s' id : rtc (trackerStep isoTime) s s' → id ∈ tk_revoked s → id ∈ tk_revoked s'.
Proof. induction 1 as [|s s1 s2 Hs _ IH]; [done|]. intros Hid. apply IH. by eapply trackerStep_revoked. Qed.

Lemma offeredLink_spec plan links s p c : offeredLink isoTime plan links s p = Some c →
  mget p (tk_created s) = Some c ∧ cl_url c ≠ [] ∧
  ∃ link, stateOf isoTime plan links s p = st_active link ∧ lk_id link = lk_id (cl_link c).
Proof.
  unfold offeredLink, panelCreated. destruct (mget p (tk_created s)) as [c'|]; [|done]. cbn [mbind option_bind].
  destruct (truthy (cl_url c')) eqn:Hu; [|done]. cbn [mbind option_bind].
  destruct (stateOf _ _ _ _ _) as [|link| | |]; try done. destruct (_ && _) eqn:E; [|done]. intros [= <-].
  apply andb_true_iff in E as [_ Hid%streq_true]. split; [done|]. split; [by destruct (cl_url c')|]. by exists link.
Qed.

(** An address the panel offers can be used, and by the right agency: it is the last one
    created here for that agency, which has not reported yet, its link is not used, revoked or
    expired by what the server lists; and a link revoked here, or replaced by a newer one, is
    never offered again nor shown as active, whatever is clicked, answered or listed later. *)
Theorem offered_link_usable (plan : MeasurementPlan) (links : list AgencyLinkInfo) (s0 s : TrackerState)
    (partyId : str) (c : CreatedAgencyLink)
    (Hiso : ∀ now, isoTime now ≠ []) (Hdated : dated links s)
    (Hreach : rtc (trackerStep isoTime) s0 s)
    (Hoffered : offeredLink isoTime plan links s partyId = Some c) :
  mget partyId (tk_created s) = Some c ∧ cl_url c ≠ [] ∧ submissionOf plan partyId = None ∧
  (∃ link, link ∈ knownLinks isoTime links s partyId ∧ lk_id link = lk_id (cl_link c) ∧
     lk_participantId link = partyId ∧ given (lk_submittedAt link) = false ∧
     given (lk_revokedAt link) = false ∧ unexpired (tk_now s) link = true) ∧
  (∀ p id s1, s0 = linkRevoked p id s1 → lk_id (cl_link c) ≠ id) ∧
  (∀ p links1 s1 next s2 old, s0 = linkCreated isoTime links1 s1 p next s2 →
     old ∈ knownLinks isoTime links1 s1 p → lk_id old ≠ lk_id (cl_link next) →
     given (lk_submittedAt old) = false → lk_id (cl_link c) ≠ lk_id old).
Proof.
  destruct (offeredLink_spec _ _ _ _ _ Hoffered) as (Hc & Hu & link & Hs & Hid).
  assert (Hnot : ∀ id, id ∈ tk_revoked s0 → lk_id (cl_link c) ≠ id).
  { intros id Hin He. eapply revoked_inactive; [exact Hiso|exact Hdated|exact Hs|].
    rewrite Hid, He. by eapply trackerSteps_revoked. }
  pose proof (linkState_active _ _ _ _ Hs) as (Hsub & Hk & Hused & Hrev & Hexp). split_and!; try done.
  - exists link. split_and!; try done. apply elem_of_knownLinks in Hk as (link0 & -> & Hp & _).
    by destruct (withRevocation_fields (tk_revoked s) (tk_now s) link0) as (_ & -> & _).
  - intros p id s1 ->. apply Hnot. cbn. apply elem_of_app. right. apply list_elem_of_here.
  - intros p links1 s1 next s2 old -> Hold Hne Hsubm. apply Hnot. cbn. apply elem_of_app. right.
    apply list_elem_of_fmap_2. apply elem_of_filterb. split; [done|]. apply andb_true_iff.
    split; [by apply negb_true_iff, streq_false|by rewrite Hsubm].
Qed.

(** The composed e-mail has exactly its own two fields: nothing typed for the address or taken
    from the records adds a recipient or a header. *)
Lemma encode_no_separator s c : c = 38%N ∨ c = 63%N → c ∉ encodeURIComponent s.
Proof.
  intros [->| ->] [Hu|[Hu|[Hd|Hd]]]%encode_safe; try lia; vm_compute in Hu; discriminate.
Qed.
Lemma mailto_fields dateLabel email plan agency created : ∃ to subject body,
  split 38 (mailtoFor dateLabel email plan agency created) =
    [js "mailto:" ++ to ++ js "?subject=" ++ subject; js "body=" ++ body] ∧ 63%N ∉ to ∧ 38%N ∉ body.
Proof.
  unfold mailtoFor. set (body := encodeURIComponent (js "Hello " ++ _)).
  set (to := encodeURIComponent (trim email)). set (subject := encodeURIComponent _). exists to, subject, body.
  assert (Hto := encode_no_separator (trim email)). fold to in Hto.
  split; [|split; [by apply Hto; right|by apply encode_no_separator; left]].
  replace (js "mailto:" ++ to ++ js "?subject=" ++ subject ++ js "&body=" ++ body)
    with ((js "mailto:" ++ to ++ js "?subject=" ++ subject) ++ 38%N :: js "body=" ++ body)
    by (by rewrite <- !app_assoc).
  rewrite split_app.
  - f_equal. apply split_none. rewrite elem_of_app. intros [Hin|Hin].
    + apply (proj1 (existsb_false (N.eqb 38) (js "body=")) eq_refl) in Hin. done.
    + by apply encode_no_separator in Hin; [|left].
  - rewrite !elem_of_app. intros [Hin|[Hin|[Hin|Hin]]].
    + apply (proj1 (existsb_false (N.eqb 38) (js "mailto:")) eq_refl) in Hin. done.
    + by apply Hto in Hin; [|left].
    + apply (proj1 (existsb_false (N.eqb 38) (js "?subject=")) eq_refl) in Hin. done.
    + by apply encode_no_separator in Hin; [|left].
Qed.
End Links.

(** ** Witness *)

#[local] Existing Instance asciiHost.
Definition isoDay (now : Z) : str := js "2026-07-03T00:00:00.000Z".
Definition linkA (id : string) : AgencyLinkInfo := mkLinkInfo (js id) (js "p1") (js "2026-07-10T00:00:00Z") None None.
Definition replacedTracker : TrackerState :=
  linkCreated isoDay [linkA "l0"] (openTracker 1783036800000) (js "p1") (mkCreatedLink (linkA "l1") (js "https://x/#token=t"))
    (openTracker 1783036800000).
Definition unreported : MeasurementPlan := samplePlan [] [].
Lemma offered_link_usable_witness :
  ∃ c, offeredLink isoDay unreported [linkA "l0"] replacedTracker (js "p1") = Some c ∧ cl_url c ≠ [] ∧
    lk_id (cl_link c) ≠ js "l0".
Proof.
  eexists. split; [vm_compute; reflexivity|].
  destruct (offered_link_usable isoDay unreported [linkA "l0"] replacedTracker replacedTracker (js "p1")
    (mkCreatedLink (linkA "l1") (js "https://x/#token=t"))) as (_ & Hu & _ & _ & _ & Hreplaced).
  - discriminate.
  - intros link [Hin|(id & c & Hin & ->)]; [by apply list_elem_of_singleton in Hin as ->|].
    apply list_elem_of_singleton in Hin as [= -> ->]. discriminate.
  - apply rtc_refl.
  - vm_compute. reflexivity.
  - split; [exact Hu|]. apply (Hreplaced (js "p1") [linkA "l0"] (openTracker 1783036800000)
      (mkCreatedLink (linkA "l1") (js "https://x/#token=t")) (openTracker 1783036800000) (linkA "l0")); [reflexivity|vm_compute; apply list_elem_of_here|discriminate|reflexivity].
Defined.
