(* ===== verification/WorkflowForms.v ===== *)
(** * The server workflow's forms (frontend/src/measurements/WorkflowForms.tsx, shared.tsx, screens/Measurements.tsx)

    Recording an agency's return, proposing a reconciliation, acknowledging it, assessing and
    issuing the disparity; and the workspace that opens one of these actions on a plan and
    sends it with the version of the plan it was opened on. *)
From S2P Require Import Prelude JsString Json Codec MeasurementTypes Host Samples Helpers Comparison Uri Endpoints.

(** ** Payloads (types.ts) *)

Record SubmissionInput := mkSubmissionInput {
  si_participantId : str; si_observedAt : str; si_sourceReference : str; si_notes : str; si_reason : str;
  si_lines : list SubmissionLine; si_evidenceIds : list str }.
Record ProposalLine := mkProposalLine { ppl_lineId : str; ppl_quantity : str; ppl_reason : str }.
Record ReconciliationInput := mkReconciliationInput {
  ri_reason : str; ri_lines : list ProposalLine; ri_evidenceIds : list str }.
Record AcknowledgementInput := mkAcknowledgement {
  ak_participantId : str; ak_decision : Decision_; ak_representative : str; ak_reference : str; ak_evidenceIds : list str }.
Record AssessmentLineInput := mkAssessmentLineInput {
  ai_lineId : str; ai_rate : str; ai_tolerance : str; ai_toleranceMode : ToleranceMode;
  ai_previouslyBilledQuantity : option str; ai_openingBilledAmount : str }.
Record AssessmentInput := mkAssessmentInput {
  an_reconciliationId : str; an_payer : str; an_policy : BillingPolicy; an_tariffReference : str; an_reason : str;
  an_openingChargesReference : str; an_lines : list AssessmentLineInput }.

Definition submissionJson (i : SubmissionInput) : json :=
  mkObj [fld "observedAt" (si_observedAt i); fld "sourceReference" (si_sourceReference i); fld "reason" (si_reason i);
    fld "notes" (si_notes i); fld "evidenceIds" (si_evidenceIds i); fld "lines" (si_lines i);
    fld "participantId" (si_participantId i)].
Definition proposalJson (i : ReconciliationInput) : json :=
  mkObj [fld "reason" (ri_reason i); fld "evidenceIds" (ri_evidenceIds i);
    fld "lines" (JArr (map (λ l, mkObj [fld "lineId" (ppl_lineId l); fld "quantity" (ppl_quantity l);
                                        fld "reason" (ppl_reason l)]) (ri_lines i)))].
Definition acknowledgementJson (i : AcknowledgementInput) : json :=
  mkObj [fld "participantId" (ak_participantId i); fld "decision" (ak_decision i);
    fld "representative" (ak_representative i); fld "reference" (ak_reference i); fld "evidenceIds" (ak_evidenceIds i)].
Definition assessmentLineJson (l : AssessmentLineInput) : json :=
  mkObj [fld "lineId" (ai_lineId l); fld "rate" (ai_rate l); fld "tolerance" (ai_tolerance l);
    fld "toleranceMode" (ai_toleranceMode l); fld "previouslyBilledQuantity" (ai_previouslyBilledQuantity l);
    fld "openingBilledAmount" (ai_openingBilledAmount l)].
Definition assessmentJson (i : AssessmentInput) : json :=
  mkObj [fld "reconciliationId" (an_reconciliationId i); fld "policy" (an_policy i); fld "payer" (an_payer i);
    fld "currency" (js "USD"); fld "tariffReference" (an_tariffReference i); fld "reason" (an_reason i);
    fld "openingChargesReference" (an_openingChargesReference i); fld "lines" (JArr (map assessmentLineJson (an_lines i)))].

(** ** The shared parts *)

(** [ActionForm]: one submission at a time, none while it is disabled. *)
Record ActionState := mkAction { ac_pending : bool; ac_error : option str }.
Definition submitAction (disabled : bool) (a : ActionState) : option ActionState :=
  if ac_pending a || disabled then None else Some (mkAction true None).
Definition actionDone (failure : option str) (a : ActionState) : ActionState :=
  mkAction false (match failure with Some e => Some e | None => ac_error a end).

(** [EvidencePicker]: the documents to choose from, the boxes, and an upload, which adds one
    document at a time and stops at the first that fails. *)
Definition evidenceOptions (plan : MeasurementPlan) (added : list Evidence) : list Evidence :=
  (foldl (λ m item, mset (ev_id item) item m) [] (plan_evidence plan ++ added)).*2.
Definition toggleEvidence (id : str) (checked : bool) (value : list str) : list str :=
  if checked then value ++ [id] else filterb (λ item, negb (streq item id)) value.
Fixpoint uploadEvidence (selected : list str) (value : list str) (added : list Evidence)
    (answers : list (result str Evidence)) : list str * list Evidence * option str :=
  match answers with
  | [] => (value, added, None)
  | Ok item :: rest =>
      let selected := selected ++ [ev_id item] in
      uploadEvidence selected (uniq selected) (added ++ [item]) rest
  | Err failure :: _ => (value, added, Some failure)
  end.

(** ** A stakeholder's return *)

Record ReturnDraft := mkReturnDraft {
  rd_observedAt : str; rd_sourceReference : str; rd_reason : str; rd_notes : str; rd_evidenceIds : list str;
  rd_lines : list SubmissionLine }.
Section Return.
(** [localTime] is [localDateTime], [isoOf] is [new Date(value).toISOString()]. *)
Context (localTime : option str → str) (isoOf : str → option str).

Definition returnDraft (plan : MeasurementPlan) (participantId : str) : ReturnDraft :=
  let previous := mget participantId (latestReturns plan) in
  mkReturnDraft (localTime (sub_observedAt <$> previous)) (default [] (sub_sourceReference <$> previous)) []
    (default [] (sub_notes <$> previous)) (default [] (sub_evidenceIds <$> previous))
    (map (λ line : CargoLine,
        match previous ≫= λ p, findb (λ item, streq (sl_lineId item) (line_id line)) (sub_lines p) with
        | Some entry => entry
        | None => mkSubmissionLine (line_id line) reported None []
        end) (plan_lines plan)).

Record ReturnState := mkReturn {
  rf_participantId : str; rf_drafts : list (str * ReturnDraft); rf_uploading : bool }.
Definition openReturn (plan : MeasurementPlan) (initialParticipantId : option str) (fixedAgency : bool) : ReturnState :=
  let returns := latestReturns plan in
  mkReturn
    (match findb (λ party, bool_decide (Some (party_id party) = initialParticipantId)) (plan_participants plan) with
     | Some party => party_id party
     | None =>
       if fixedAgency then [] else
       match findb (λ party, negb (bool_decide (is_Some (mget (party_id party) returns)))) (plan_participants plan) with
       | Some party => party_id party
       | None => default [] (party_id <$> head (plan_participants plan))
       end
     end)
    (foldl (λ m party, mset (party_id party) (returnDraft plan (party_id party)) m) [] (plan_participants plan)) false.

Definition currentDraft (plan : MeasurementPlan) (s : ReturnState) : ReturnDraft :=
  default (returnDraft plan (rf_participantId s)) (mget (rf_participantId s) (rf_drafts s)).
Definition selectedAgency (plan : MeasurementPlan) (s : ReturnState) : option Participant :=
  findb (λ party, streq (party_id party) (rf_participantId s)) (plan_participants plan).
Definition scopeChanged (plan : MeasurementPlan) (draft : ReturnDraft) : bool :=
  negb (length (rd_lines draft) =? length (plan_lines plan))%nat
  || existsb (λ entry, negb (existsb (λ line : CargoLine, streq (line_id line) (sl_lineId entry)) (plan_lines plan)))
       (rd_lines draft).
Definition returnDisabled (plan : MeasurementPlan) (s : ReturnState) : bool :=
  bool_decide (selectedAgency plan s = None) || scopeChanged plan (currentDraft plan s) || rf_uploading s.

Definition updateDraft (plan : MeasurementPlan) (patch : ReturnDraft → ReturnDraft) (s : ReturnState) : ReturnState :=
  mkReturn (rf_participantId s) (mset (rf_participantId s) (patch (currentDraft plan s)) (rf_drafts s)) (rf_uploading s).
Definition withReturnLines (lines : list SubmissionLine) (d : ReturnDraft) : ReturnDraft :=
  mkReturnDraft (rd_observedAt d) (rd_sourceReference d) (rd_reason d) (rd_notes d) (rd_evidenceIds d) lines.
Definition updateReturnLine (plan : MeasurementPlan) (lineId : str) (patch : SubmissionLine → SubmissionLine) (s : ReturnState)
  : ReturnState :=
  updateDraft plan (λ d, withReturnLines (map (λ line, if streq (sl_lineId line) lineId then patch line else line)
                                            (rd_lines d)) d) s.
Definition isNA (line : SubmissionLine) : bool := bool_decide (sl_status line = not_applicable).
Definition typeReading (value : str) (line : SubmissionLine) : SubmissionLine :=
  mkSubmissionLine (sl_lineId line) (sl_status line) (if isEmpty value then None else Some value) (sl_note line).
Definition chooseStatus (status : LineStatus) (line : SubmissionLine) : SubmissionLine :=
  mkSubmissionLine (sl_lineId line) status None (sl_note line).
Definition typeLineNote (value : str) (line : SubmissionLine) : SubmissionLine :=
  mkSubmissionLine (sl_lineId line) (sl_status line) (sl_quantity line) value.
Definition typeReturn (observedAt sourceReference reason notes : str) (d : ReturnDraft) : ReturnDraft :=
  mkReturnDraft observedAt sourceReference reason notes (rd_evidenceIds d) (rd_lines d).
Definition chooseReturnEvidence (ids : list str) (d : ReturnDraft) : ReturnDraft :=
  mkReturnDraft (rd_observedAt d) (rd_sourceReference d) (rd_reason d) (rd_notes d) ids (rd_lines d).
Definition chooseAgency (participantId : str) (s : ReturnState) : ReturnState :=
  mkReturn participantId (rf_drafts s) (rf_uploading s).
Definition setUploading (busy : bool) (s : ReturnState) : ReturnState :=
  mkReturn (rf_participantId s) (rf_drafts s) busy.

(** What is sent; [None] when the observation time is not a date. *)
Definition returnInput (plan : MeasurementPlan) (s : ReturnState) : option SubmissionInput :=
  let d := currentDraft plan s in
  observedAt ← isoOf (rd_observedAt d);
  Some (mkSubmissionInput (rf_participantId s) observedAt (rd_sourceReference d) (rd_notes d) (rd_reason d)
          (rd_lines d) (rd_evidenceIds d)).

(** What the user does to the form, each time on the plan of the current render. *)
Inductive returnStep (fixedAgency : bool) (plan : MeasurementPlan) : ReturnState → ReturnState → Prop :=
| r_agency participantId s : fixedAgency = false → rf_uploading s = false →
    returnStep fixedAgency plan s (chooseAgency participantId s)
| r_reading lineId value s line : line ∈ rd_lines (currentDraft plan s) → sl_lineId line = lineId → isNA line = false →
    returnStep fixedAgency plan s (updateReturnLine plan lineId (typeReading value) s)
| r_status lineId status s : returnStep fixedAgency plan s (updateReturnLine plan lineId (chooseStatus status) s)
| r_note lineId value s : returnStep fixedAgency plan s (updateReturnLine plan lineId (typeLineNote value) s)
| r_typed o sr r n s : returnStep fixedAgency plan s (updateDraft plan (typeReturn o sr r n) s)
| r_evidence ids s : returnStep fixedAgency plan s (updateDraft plan (chooseReturnEvidence ids) s)
| r_uploading busy s : returnStep fixedAgency plan s (setUploading busy s).
End Return.

Definition readingDifference (value : option str) (declaration : option str) (notApplicable : bool) : str :=
  if notApplicable then js "Not comparable" else
  match value with
  | None => js "Awaiting reading"
  | Some v => if isEmpty v then js "Awaiting reading" else
    match declaration with
    | None => js "Owner declaration not provided"
    | Some _ => default (js "Awaiting reading") (quantityDifference value declaration)
    end
  end.
Definition readingLabel (value : option str) : str :=
  match value with
  | None => js "Unknown" | Some v => if isEmpty v then js "Unknown" else readingQuantity value end.

(** ** Proposing and acknowledging *)

Definition openProposal (plan : MeasurementPlan) : list ProposalLine :=
  let previous := latestReconciliation plan None in
  map (λ line : CargoLine, mkProposalLine (line_id line)
        (default [] (previous ≫= λ r, rl_quantity <$> findb (λ entry, streq (rl_lineId entry) (line_id line)) (rec_lines r)))
        []) (plan_lines plan).
Definition setProposal (index : nat) (patch : ProposalLine → ProposalLine) (lines : list ProposalLine) : list ProposalLine :=
  imap (λ i line, if (i =? index)%nat then patch line else line) lines.
Definition proposalInput (reason : str) (evidenceIds : list str) (lines : list ProposalLine) : ReconciliationInput :=
  mkReconciliationInput reason lines evidenceIds.

Definition representativeOf (plan : MeasurementPlan) (participantId : str) : str :=
  default [] (party_representative <$> findb (λ p, streq (party_id p) participantId) (plan_participants plan)).
Definition openAcknowledgement (plan : MeasurementPlan) (reconciliation : Reconciliation) : AcknowledgementInput :=
  let participantId :=
    match findb (λ party, negb (existsb (λ approval, streq (ap_participantId approval) (party_id party))
                                (rec_approvals reconciliation))) (plan_participants plan) with
    | Some party => party_id party
    | None => default [] (party_id <$> head (plan_participants plan))
    end in
  mkAcknowledgement participantId agreed (representativeOf plan participantId) [] [].
Definition chooseStakeholder (plan : MeasurementPlan) (participantId : str) (a : AcknowledgementInput) : AcknowledgementInput :=
  mkAcknowledgement participantId (ak_decision a) (representativeOf plan participantId) (ak_reference a) (ak_evidenceIds a).
Definition acknowledgementDisabled (a : AcknowledgementInput) (uploading : bool) : bool :=
  match ak_evidenceIds a with [] => true | _ => uploading end.

(** ** Assessing the disparity *)

Record AssessmentState := mkAssessmentForm {
  af_policy : option BillingPolicy; af_payer : str; af_tariffReference : str; af_openingChargesReference : str;
  af_reason : str; af_confirmed : bool; af_lines : list AssessmentLineInput }.
Definition issuedAssessment (plan : MeasurementPlan) : option Assessment :=
  findb (λ a, match as_status a with as_issued => true | _ => false end) (rev (plan_assessments plan)).
Definition priorLine (issued : option Assessment) (line : CargoLine) : option AssessmentLine :=
  a ← issued; findb (λ entry, streq (al_lineId entry) (line_id line)) (as_lines a).
Definition initialAssessmentLine (issued : option Assessment) (line : CargoLine) : AssessmentLineInput :=
  let prior := priorLine issued line in
  mkAssessmentLineInput (line_id line) (default [] (al_rate <$> prior)) (default [] (al_tolerance <$> prior))
    (default threshold (al_toleranceMode <$> prior))
    (match prior ≫= al_previouslyBilledQuantity with
     | Some q => Some q
     | None => match issued with
               | Some a => match as_policy a with
                           | quantity_adjustment => al_baselineQuantity <$> prior | manifest_disparity => None end
               | None => None end
     end)
    (default [] (al_openingBilledAmount <$> prior)).
Definition openAssessment (plan : MeasurementPlan) : AssessmentState :=
  let issued := issuedAssessment plan in
  mkAssessmentForm (as_policy <$> issued) (default [] (as_payer <$> issued)) (default [] (as_tariffReference <$> issued))
    (default [] (as_openingChargesReference <$> issued)) [] false (map (initialAssessmentLine issued) (plan_lines plan)).
Definition missingManifest (plan : MeasurementPlan) (s : AssessmentState) : bool :=
  match af_policy s with
  | Some manifest_disparity => existsb (λ line : CargoLine, bool_decide (manifestQuantity line = None)) (plan_lines plan)
  | _ => false
  end.
(** The call of [onSave] of an enabled form. *)
Definition assessmentInput (plan : MeasurementPlan) (reconciliation : Reconciliation) (s : AssessmentState)
  : option AssessmentInput :=
  policy ← af_policy s;
  if negb (af_confirmed s) || missingManifest plan s then None
  else Some (mkAssessmentInput (rec_id reconciliation) (af_payer s) policy (af_tariffReference s) (af_reason s)
               (af_openingChargesReference s) (af_lines s)).
Definition updateAssessmentLine (index : nat) (patch : AssessmentLineInput → AssessmentLineInput) (s : AssessmentState)
  : AssessmentState :=
  mkAssessmentForm (af_policy s) (af_payer s) (af_tariffReference s) (af_openingChargesReference s) (af_reason s)
    (af_confirmed s) (imap (λ i line, if (i =? index)%nat then patch line else line) (af_lines s)).
(** The fields of an amendment are those of the invoice issued before and cannot be changed. *)
Inductive assessmentStep (plan : MeasurementPlan) : AssessmentState → AssessmentState → Prop :=
| a_configured policy payer tariffReference openingChargesReference s : issuedAssessment plan = None →
    assessmentStep plan s (mkAssessmentForm policy payer tariffReference openingChargesReference (af_reason s)
                             (af_confirmed s) (af_lines s))
| a_line index patch s : issuedAssessment plan = None → (∀ l, ai_lineId (patch l) = ai_lineId l) →
    assessmentStep plan s (updateAssessmentLine index patch s)
| a_explained reason confirmed s :
    assessmentStep plan s (mkAssessmentForm (af_policy s) (af_payer s) (af_tariffReference s)
                             (af_openingChargesReference s) reason confirmed (af_lines s)).

(** ** The workspace (screens/Measurements.tsx) *)

Inductive WorkspaceTab := tab_overview | tab_returns | tab_reconciliation | tab_billing | tab_history.
Inductive ActiveAction :=
| act_return | act_proposal | act_approval | act_assess | act_finalize | act_issue | act_schedule | act_cancel.
Record WorkState := mkWork { wk_tab : WorkspaceTab; wk_action : option ActiveAction; wk_version : Z }.
(** The signed-in user: [can] and the id. *)
Record Viewer := mkViewer { vw_can : str → bool; vw_userId : option str }.

Definition openWork (plan : MeasurementPlan) : WorkState := mkWork tab_overview None (plan_version plan).
Definition openAction (plan : MeasurementPlan) (next : ActiveAction) (s : WorkState) : WorkState :=
  mkWork (wk_tab s) (Some next) (plan_version plan).
Definition closeAction (s : WorkState) : WorkState := mkWork (wk_tab s) None (wk_version s).
Definition chooseTab (tab : WorkspaceTab) (s : WorkState) : WorkState := mkWork tab None (wk_version s).

Definition finalOf (plan : MeasurementPlan) : option Reconciliation := latestReconciliation plan (Some recon_final).
Definition draftOf (plan : MeasurementPlan) : option Reconciliation := latestReconciliation plan (Some recon_draft).
Definition isCancelled (plan : MeasurementPlan) : bool := bool_decide (plan_status plan = plan_cancelled).
Definition present {A} (o : option A) : bool := match o with Some _ => true | None => false end.
Definition missingReturns (plan : MeasurementPlan) : list Participant :=
  filterb (λ party, party_requiredSubmission party && negb (present (mget (party_id party) (latestReturns plan))))
    (plan_participants plan).
Definition mayManage (viewer : Viewer) (plan : MeasurementPlan) : bool :=
  vw_can viewer (js "measurements.manage") && negb (isCancelled plan).
Definition billingReady (plan : MeasurementPlan) : bool :=
  present (finalOf plan) && negb (present (draftOf plan)) && negb (isCancelled plan).
Definition finalizeIssues (viewer : Viewer) (plan : MeasurementPlan) : list str :=
  match draftOf plan with Some draft => finalizationIssues plan draft (vw_userId viewer) | None => [] end.
Definition latestAssessment (plan : MeasurementPlan) : option Assessment := last (plan_assessments plan).
Definition assessmentReady (a : Assessment) : bool :=
  match as_status a with as_ready => true | _ => false end && negb (default false (as_superseded_ a)).
Definition progress (plan : MeasurementPlan) : Z :=
  if present (draftOf plan) then 2 else if present (finalOf plan) then 3
  else match latestReturns plan with [] => 0 | _ => 1 end.

(** The buttons that open an action: shown and enabled. *)
Definition mayOpen (viewer : Viewer) (plan : MeasurementPlan) (action : ActiveAction) : bool :=
  match action with
  | act_schedule => mayManage viewer plan
  | act_return => mayManage viewer plan && (negb (present (finalOf plan)) || present (draftOf plan))
  | act_cancel => mayManage viewer plan && negb (present (finalOf plan))
  | act_proposal => mayManage viewer plan
      && negb match latestReturns plan with [] => true | _ => false end
      && match missingReturns plan with [] => true | _ => false end
  | act_approval => mayManage viewer plan
      && match draftOf plan with Some draft => negb (reconciliationStale plan draft) | None => false end
  | act_finalize => vw_can viewer (js "measurements.approve") && present (draftOf plan)
      && match finalizeIssues viewer plan with [] => true | _ => false end && negb (isCancelled plan)
  | act_assess => vw_can viewer (js "measurements.bill") && billingReady plan
  | act_issue => vw_can viewer (js "measurements.bill") && billingReady plan
      && match latestAssessment plan with
         | Some a => assessmentReady a && negb match as_invoiceId a with Some id => truthy id | None => false end
         | None => false end
  end.

(** [ScheduleForm]'s fields. *)
Definition scheduleFields (title location leadSurveyor notes scheduledAt : str) (endsAt : option str) : json :=
  mkObj [fld "title" title; fld "scheduledAt" scheduledAt; fld "endsAt" endsAt; fld "location" location;
    fld "leadSurveyor" leadSurveyor; fld "notes" notes].
Definition cancelFields (reason : str) : json := mkObj [fld "status" (js "cancelled"); fld "reason" reason].

(** What the form of an action hands over. *)
Inductive Payload :=
| pay_return (input : SubmissionInput) | pay_proposal (input : ReconciliationInput)
| pay_acknowledgement (input : AcknowledgementInput) | pay_assessment (input : AssessmentInput)
| pay_schedule (title location leadSurveyor notes scheduledAt : str) (endsAt : option str) | pay_cancel (reason : str)
| pay_confirm.
(** The request of the open action: the plan is that of the render, the version the one the
    action was opened with. *)
Definition actionRequest (viewer : Viewer) (plan : MeasurementPlan) (s : WorkState) (payload : Payload)
  : option MeasurementEndpoint :=
  match wk_action s, payload with
  | Some act_return, pay_return input => Some (mp_submit (plan_id plan) (wk_version s) (submissionJson input))
  | Some act_proposal, pay_proposal input => Some (mp_propose (plan_id plan) (wk_version s) (proposalJson input))
  | Some act_approval, pay_acknowledgement input =>
      draft ← draftOf plan; Some (mp_acknowledge (plan_id plan) (rec_id draft) (wk_version s) (acknowledgementJson input))
  | Some act_assess, pay_assessment input =>
      _ ← finalOf plan; Some (mp_assess (plan_id plan) (wk_version s) (assessmentJson input))
  | Some act_finalize, pay_confirm =>
      draft ← draftOf plan;
      match finalizeIssues viewer plan with
      | [] => Some (mp_finalize (plan_id plan) (rec_id draft) (wk_version s)) | _ => None end
  | Some act_issue, pay_confirm =>
      a ← latestAssessment plan;
      if billingReady plan && assessmentReady a then Some (mp_issue (plan_id plan) (as_id a) (wk_version s)) else None
  | Some act_schedule, pay_schedule title location leadSurveyor notes scheduledAt endsAt =>
      Some (mp_update (plan_id plan)
              (withVersion (scheduleFields title location leadSurveyor notes scheduledAt endsAt) (wk_version s)))
  | Some act_cancel, pay_cancel reason => Some (mp_update (plan_id plan) (withVersion (cancelFields reason) (wk_version s)))
  | _, _ => None
  end.
(** The version a request carries. *)
Definition requestVersion (e : MeasurementEndpoint) : option Z :=
  match e with
  | mp_submit _ v _ | mp_propose _ v _ | mp_acknowledge _ _ v _ | mp_finalize _ _ v | mp_assess _ v _ | mp_issue _ _ v => Some v
  | mp_update _ data => match jget (js "version") data with Some (JNum v) => Some v | _ => None end
  | _ => None
  end.

(** What can happen: the record is read again, an enabled button opens an action, the action is
    closed, another tab is chosen, or a save is answered with the changed record. *)
Inductive workStep (history : Z → MeasurementPlan) (viewer : Viewer) :
  MeasurementPlan * WorkState → MeasurementPlan * WorkState → Prop :=
| wk_read plan v s : workStep history viewer (plan, s) (history v, s)
| wk_open plan action s : mayOpen viewer plan action = true →
    workStep history viewer (plan, s) (plan, openAction plan action s)
| wk_close plan s : workStep history viewer (plan, s) (plan, closeAction s)
| wk_choose plan tab s : workStep history viewer (plan, s) (plan, chooseTab tab s)
| wk_saved plan v s : workStep history viewer (plan, s) (history v, closeAction s).

(** ** Lemmas: returns *)

Section Returns.
Context (localTime : option str → str) (isoOf : str → option str).

(** Every draft has one entry per cargo line of the plan it was made from; an entry that does
    not apply has no reading. *)
Record draftOk (d : ReturnDraft) : Prop := {
  dk_ids : NoDup (map sl_lineId (rd_lines d));
  dk_na : ∀ line, line ∈ rd_lines d → isNA line = true → sl_quantity line = None }.
Record planOk (plan : MeasurementPlan) : Prop := {
  po_ids : NoDup (map line_id (plan_lines plan));
  po_na : ∀ sub line, sub ∈ plan_submissions plan → line ∈ sub_lines sub → isNA line = true → sl_quantity line = None }.

Lemma latestReturns_elem plan id sub : mget id (latestReturns plan) = Some sub → sub ∈ plan_submissions plan.
Proof.
  unfold latestReturns. assert (Hf : ∀ subs m, (∀ id sub, (id, sub) ∈ m → sub ∈ plan_submissions plan) →
    (∀ sub, sub ∈ subs → sub ∈ plan_submissions plan) →
    ∀ id sub, (id, sub) ∈ foldl latestReturns_step m subs → sub ∈ plan_submissions plan).
  { induction subs as [|x subs IH]; intros m Hm Hs; [done|]. apply IH.
    - intros id' sub'. unfold latestReturns_step. destruct (_ <? _); [|apply Hm].
      intros [[= _ ->]|Hin]%elem_of_mset; [apply Hs, list_elem_of_here|by eapply Hm].
    - intros sub' Hin. by apply Hs, list_elem_of_further. }
  intros Hg%mget_Some_elem. eapply Hf; [|done|exact Hg]. by intros ? ? ?%elem_of_nil.
Qed.

Lemma returnDraft_ok plan id : planOk plan → draftOk (returnDraft localTime plan id) ∧
  map sl_lineId (rd_lines (returnDraft localTime plan id)) = map line_id (plan_lines plan).
Proof.
  intros [Hids Hna]. unfold returnDraft. cbn [rd_lines]. set (previous := mget id (latestReturns plan)).
  assert (Hmap : map sl_lineId (map (λ line : CargoLine,
     match previous ≫= λ p, findb (λ item, streq (sl_lineId item) (line_id line)) (sub_lines p) with
     | Some entry => entry | None => mkSubmissionLine (line_id line) reported None [] end) (plan_lines plan))
     = map line_id (plan_lines plan)).
  { rewrite map_map. apply map_ext. intros line. destruct (previous ≫= _) as [entry|] eqn:E; [|done].
    destruct previous as [sub|]; [|done]. by apply findb_Some in E as [_ ?%streq_true]. }
  split; [|done]. split; cbn [rd_lines]; [by rewrite Hmap|].
  intros line Hin. apply list_elem_of_fmap in Hin as (l & -> & _). destruct (previous ≫= _) as [entry|] eqn:E; [|done].
  destruct previous as [sub|] eqn:Hp; [|done]. apply findb_Some in E as [Hin _]. eapply Hna; [|exact Hin].
  by eapply latestReturns_elem.
Qed.

Definition returnOk (s : ReturnState) : Prop := ∀ id d, (id, d) ∈ rf_drafts s → draftOk d.
Lemma currentDraft_ok plan s : planOk plan → returnOk s → draftOk (currentDraft localTime plan s).
Proof.
  intros Hp Hs. unfold currentDraft. destruct (mget _ (rf_drafts s)) as [d|] eqn:E; [|by apply returnDraft_ok].
  eapply Hs. by apply mget_Some_elem.
Qed.
Lemma updateDraft_ok plan patch s : planOk plan → returnOk s → (∀ d, draftOk d → draftOk (patch d)) →
  returnOk (updateDraft localTime plan patch s).
Proof.
  intros Hp Hs Hpatch id d [[= -> ->]|Hin]%elem_of_mset; [|by eapply Hs]. apply Hpatch. by apply currentDraft_ok.
Qed.
Lemma updateLine_ok lineId patch d : draftOk d → (∀ line, sl_lineId (patch line) = sl_lineId line) →
  (∀ line, line ∈ rd_lines d → sl_lineId line = lineId → isNA (patch line) = true → sl_quantity (patch line) = None) →
  draftOk (withReturnLines (map (λ line, if streq (sl_lineId line) lineId then patch line else line) (rd_lines d)) d).
Proof.
  intros [Hi Hn] Hid Hp. split; cbn [withReturnLines rd_lines].
  - rewrite map_map. erewrite map_ext; [exact Hi|]. intros line. by destruct (streq _ _).
  - intros line Hin. apply list_elem_of_fmap in Hin as (l & -> & Hin).
    destruct (streq (sl_lineId l) lineId) eqn:E; [|by apply Hn]. apply streq_true in E. by apply Hp.
Qed.

Lemma returnStep_ok fixedAgency plan s s' : planOk plan → returnOk s →
  returnStep localTime fixedAgency plan s s' → returnOk s'.
Proof.
  intros Hp Hs Hstep. destruct Hstep as [participantId s _ _|lineId value s line Hline Hid Hna|lineId status s|lineId value s|
    o sr r n s|ids s|busy s]; try done.
  - intros id d [[= -> ->]|Hin]%elem_of_mset; [|by eapply Hs]. pose proof (currentDraft_ok plan s Hp Hs) as Hd.
    apply updateLine_ok; [done|done|]. intros l Hl Hidl Hl'. exfalso.
    assert (l = line) as -> by (eapply (NoDup_map_inj sl_lineId); [apply Hd|done|done|congruence]).
    unfold isNA in *. cbn in Hl'. congruence.
  - apply updateDraft_ok; [done|done|]. intros d Hd. by apply updateLine_ok.
  - apply updateDraft_ok; [done|done|]. intros d Hd. apply updateLine_ok; [done|done|].
    intros l Hl _ Hn. by apply (dk_na d Hd l Hl).
  - apply updateDraft_ok; [done|done|]. by intros d [].
  - apply updateDraft_ok; [done|done|]. by intros d [].
Qed.
Lemma openReturn_ok plan initial fixedAgency : planOk plan → returnOk (openReturn localTime plan initial fixedAgency).
Proof.
  intros Hp. unfold returnOk, openReturn. cbn [rf_drafts].
  assert (Hf : ∀ parties m, (∀ id d, (id, d) ∈ m → draftOk d) → ∀ id d,
    (id, d) ∈ foldl (λ m party, mset (party_id party) (returnDraft localTime plan (party_id party)) m) m parties → draftOk d).
  { induction parties as [|party parties IH]; intros m Hm; [done|]. apply IH.
    intros id d [[= -> ->]|Hin]%elem_of_mset; [by apply returnDraft_ok|by eapply Hm]. }
  apply Hf. by intros ? ? ?%elem_of_nil.
Qed.

(** The form over the plans of its renders. *)
Inductive returnReachable (fixedAgency : bool) : ReturnState → Prop :=
| rr_open plan initial : planOk plan → returnReachable fixedAgency (openReturn localTime plan initial fixedAgency)
| rr_step plan s s' : planOk plan → returnReachable fixedAgency s → returnStep localTime fixedAgency plan s s' →
    returnReachable fixedAgency s'.
Lemma returnReachable_ok fixedAgency s : returnReachable fixedAgency s → returnOk s.
Proof. induction 1; [by apply openReturn_ok|by eapply returnStep_ok]. Qed.

(** The browser submits a form only when its [required] fields are filled: the reading of a
    line that applies, the note of one that does not. *)
Definition validReturn (plan : MeasurementPlan) (d : ReturnDraft) : Prop :=
  ∀ entry, entry ∈ rd_lines d → (∃ line, line ∈ plan_lines plan ∧ line_id line = sl_lineId entry) →
    if isNA entry then sl_note entry ≠ [] else ∃ q, sl_quantity entry = Some q ∧ q ≠ [].

(** A return that can be recorded covers the sheet as it now is: whatever was typed, for
    whichever agencies, and however the sheet changed while the form was open, it has exactly
    one entry for every cargo line, each with a reading, or without one and with a note. *)
Theorem return_complete (fixedAgency : bool) (plan : MeasurementPlan) (s : ReturnState) (input : SubmissionInput)
    (Hplan : planOk plan) (Hreach : returnReachable fixedAgency s)
    (Henabled : returnDisabled localTime plan s = false)
    (Hvalid : validReturn plan (currentDraft localTime plan s))
    (Hinput : returnInput localTime isoOf plan s = Some input) :
  (∃ party, party ∈ plan_participants plan ∧ party_id party = si_participantId input) ∧
  map sl_lineId (si_lines input) ≡ₚ map line_id (plan_lines plan) ∧
  ∀ entry, entry ∈ si_lines input →
    (sl_status entry = reported ∧ ∃ q, sl_quantity entry = Some q ∧ q ≠ []) ∨
    (sl_status entry = not_applicable ∧ sl_quantity entry = None ∧ sl_note entry ≠ []).
Proof.
  pose proof (currentDraft_ok plan s Hplan (returnReachable_ok _ _ Hreach)) as [Hids Hna].
  unfold returnDisabled in Henabled. rewrite !orb_false_iff in Henabled. destruct Henabled as [[Hagency Hscope] _].
  unfold returnInput in Hinput. destruct (isoOf _) as [at_|]; [|done]. injection Hinput as <-. cbn [si_lines si_participantId].
  unfold scopeChanged in Hscope. apply orb_false_iff in Hscope as [Hlen%negb_false_iff%Nat.eqb_eq Hall].
  rewrite existsb_false in Hall.
  assert (Hknown : ∀ entry, entry ∈ rd_lines (currentDraft localTime plan s) →
    ∃ line, line ∈ plan_lines plan ∧ line_id line = sl_lineId entry).
  { intros entry Hin. specialize (Hall entry Hin). apply negb_false_iff in Hall.
    apply existsb_true in Hall as (line & Hl & He%streq_true). by exists line. }
  split_and!.
  - unfold selectedAgency in Hagency. destruct (findb _ _) as [party|] eqn:E; [|done].
    apply findb_Some in E as [Hin He%streq_true]. by exists party.
  - apply submseteq_length_Permutation; [|by rewrite !length_map, Hlen].
    apply NoDup_submseteq; [done|]. intros id Hin. apply list_elem_of_fmap in Hin as (entry & -> & Hin).
    destruct (Hknown entry Hin) as (line & Hl & <-). by apply list_elem_of_fmap_2.
  - intros entry Hin. specialize (Hvalid entry Hin (Hknown entry Hin)). destruct (isNA entry) eqn:E.
    + right. split; [by apply bool_decide_eq_true in E|]. split; [by apply Hna|done].
    + left. apply bool_decide_eq_false in E. split; [by destruct (sl_status entry)|done].
Qed.
End Returns.

(** A sheet that lost a line while the form was open, for the agency that had reported it. *)
Definition localZ (t : option str) : str := default [] t.
Definition typedReturn : ReturnState :=
  updateReturnLine localZ (samplePlan [] []) (js "l1") (typeReading (js "1008.5"))
    (openReturn localZ (samplePlan [] []) (Some (js "a1")) true).
Lemma return_complete_witness : ∃ input, returnInput localZ Some (samplePlan [] []) typedReturn = Some input ∧
  map sl_quantity (si_lines input) = [Some (js "1008.5")] ∧ map sl_lineId (si_lines input) ≡ₚ [js "l1"].
Proof.
  assert (Hok : planOk (samplePlan [] [])) by (split; [apply NoDup_singleton|intros sub line H; inversion H]).
  eexists. split; [vm_compute; reflexivity|]. split; [reflexivity|].
  apply (return_complete localZ Some true (samplePlan [] []) typedReturn _ Hok).
  - eapply rr_step; [exact Hok|by apply rr_open|].
    eapply (r_reading _ _ _ _ _ _ (mkSubmissionLine (js "l1") reported None [])); [vm_compute; apply list_elem_of_here| |]; reflexivity.
  - vm_compute. reflexivity.
  - intros entry Hin _. vm_compute in Hin. apply list_elem_of_singleton in Hin as ->. eexists. split; [reflexivity|discriminate].
  - vm_compute. reflexivity.
Defined.

(** ** Lemmas: amendments *)

Definition amendmentStep (s s' : AssessmentState) : Prop :=
  ∃ plan, issuedAssessment plan ≠ None ∧ assessmentStep plan s s'.
Lemma amendment_frame s s' : rtc amendmentStep s s' →
  af_policy s' = af_policy s ∧ af_payer s' = af_payer s ∧ af_tariffReference s' = af_tariffReference s ∧
  af_openingChargesReference s' = af_openingChargesReference s ∧ af_lines s' = af_lines s.
Proof.
  induction 1 as [|s s1 s2 (plan & Hissued & Hstep) _ IH]; [done|].
  destruct Hstep; [done|done|]. exact IH.
Qed.

(** C22. An amendment is assessed on the terms of the invoice issued before it: whatever is done
    to the form while that invoice stands, and whichever reconciliation it is saved against, the
    assessment that is sent carries the invoice's policy, payer and references, and for every
    cargo line the invoice priced its rate, tolerance, treatment and opening charge. *)
Theorem amendment_keeps_billing (plan now : MeasurementPlan) (a : Assessment) (reconciliation : Reconciliation)
    (s : AssessmentState) (input : AssessmentInput)
    (Hissued : issuedAssessment plan = Some a)
    (Hsteps : rtc amendmentStep (openAssessment plan) s)
    (Hinput : assessmentInput now reconciliation s = Some input) :
  an_reconciliationId input = rec_id reconciliation ∧
  an_policy input = as_policy a ∧ an_payer input = as_payer a ∧ an_tariffReference input = as_tariffReference a ∧
  an_openingChargesReference input = as_openingChargesReference a ∧
  map ai_lineId (an_lines input) = map line_id (plan_lines plan) ∧
  ∀ line prior, line ∈ plan_lines plan → priorLine (Some a) line = Some prior →
    ∃ l, l ∈ an_lines input ∧ ai_lineId l = line_id line ∧ ai_rate l = al_rate prior ∧
      ai_tolerance l = al_tolerance prior ∧ ai_toleranceMode l = al_toleranceMode prior ∧
      ai_openingBilledAmount l = al_openingBilledAmount prior ∧
      (∀ q, al_previouslyBilledQuantity prior = Some q → ai_previouslyBilledQuantity l = Some q) ∧
      (al_previouslyBilledQuantity prior = None → as_policy a = quantity_adjustment →
         ai_previouslyBilledQuantity l = Some (al_baselineQuantity prior)).
Proof.
  apply amendment_frame in Hsteps as (Hpolicy & Hpayer & Htariff & Hopening & Hlines).
  unfold assessmentInput in Hinput. rewrite Hpolicy, Hpayer, Htariff, Hopening, Hlines in Hinput.
  unfold openAssessment in Hinput. rewrite Hissued in Hinput. cbn [fmap option_fmap option_map af_policy af_payer af_tariffReference
    af_openingChargesReference af_lines default mbind option_bind] in Hinput.
  destruct (_ || _); [done|]. injection Hinput as <-. cbn [an_reconciliationId an_policy an_payer an_tariffReference
    an_openingChargesReference an_lines].
  split_and!; try done; [by rewrite map_map|]. intros line prior Hline Hprior.
  exists (initialAssessmentLine (Some a) line). split; [by apply list_elem_of_fmap_2|].
  unfold initialAssessmentLine. rewrite Hprior. cbn. split_and!; try done.
  - by intros q ->.
  - by intros -> ->.
Qed.

(** An amendment of a sheet the first invoice has priced. *)
Definition pricedLine : AssessmentLine :=
  mkAssessmentLine (js "l1") (js "0.25") (js "5") threshold None (js "0") None None None None None (js "Crude oil")
    tonnes (js "1000") (js "1012.4") (js "12.4") (js "12.4") (js "3.10") (js "0") (js "3.10").
Definition firstInvoice : Assessment :=
  mkAssessment (js "rc1") (js "MV Calabar Ltd") (js "USD") quantity_adjustment (js "TARIFF-1") (js "first") (js "NONE") (js "as1")
    None as_issued (js "3.10") [pricedLine] (Some (js "inv1")) (js "2026-07-03T08:00:00Z").
Definition invoicedPlan : MeasurementPlan :=
  mkPlan (js "call-0001") (js "Crude export") (js "2026-07-01T06:00:00Z") None (js "Berth 4")
    (js "Shore tank") (js "loading") (js "full") (js "Ada") [] (js "p1") (js "MV Calabar")
    (js "VC-1") 5 in_progress surveyor [sampleParty] [sampleCargo] [] [] [firstInvoice] [].
Definition explainedAmendment : AssessmentState :=
  let o := openAssessment invoicedPlan in
  mkAssessmentForm (af_policy o) (af_payer o) (af_tariffReference o) (af_openingChargesReference o) (js "recount") true (af_lines o).
Lemma amendment_keeps_billing_witness : ∃ input,
  assessmentInput invoicedPlan (sampleRecon agreed) explainedAmendment = Some input ∧ an_policy input = quantity_adjustment ∧
  ∃ l, l ∈ an_lines input ∧ ai_rate l = js "0.25" ∧ ai_previouslyBilledQuantity l = Some (js "1000").
Proof.
  eexists. split; [vm_compute; reflexivity|].
  destruct (amendment_keeps_billing invoicedPlan invoicedPlan firstInvoice (sampleRecon agreed) explainedAmendment _
    eq_refl ltac:(apply rtc_once; exists invoicedPlan; split; [vm_compute; discriminate|apply a_explained]) eq_refl)
    as (_ & Hp & _ & _ & _ & _ & Hl).
  split; [exact Hp|].
  destruct (Hl sampleCargo pricedLine) as (l & Hin & _ & Hrate & _ & _ & _ & _ & Hprev);
    [apply list_elem_of_here|reflexivity|].
  exists l. split; [exact Hin|]. split; [exact Hrate|]. by apply Hprev.
Defined.

(** ** Lemmas: the workspace *)

Lemma schedule_version title location leadSurveyor notes scheduledAt endsAt v :
  jget (js "version") (withVersion (scheduleFields title location leadSurveyor notes scheduledAt endsAt) v) = Some (JNum v).
Proof. by destruct endsAt. Qed.
Lemma cancel_version reason v : jget (js "version") (withVersion (cancelFields reason) v) = Some (JNum v).
Proof. done. Qed.

Definition workOk (history : Z → MeasurementPlan) (viewer : Viewer) (st : MeasurementPlan * WorkState) : Prop :=
  (∃ v, st.1 = history v) ∧
  ∀ action, wk_action st.2 = Some action → mayOpen viewer (history (wk_version st.2)) action = true.
Lemma workStep_ok history viewer st st' : (∀ v, plan_version (history v) = v) → workOk history viewer st →
  workStep history viewer st st' → workOk history viewer st'.
Proof.
  intros Hver [[v Hv] Hact] Hstep. destruct Hstep; cbn in *; split; cbn; try (by eexists); try done.
  intros action' [= <-]. subst plan. by rewrite Hver.
Qed.
Lemma actionRequest_version viewer plan s payload e : actionRequest viewer plan s payload = Some e →
  ∃ action, wk_action s = Some action ∧ requestVersion e = Some (wk_version s).
Proof.
  unfold actionRequest. destruct (wk_action s) as [[]|] eqn:Ha; [..|by destruct payload]; destruct payload;
    try discriminate; intros He; eexists; (split; [reflexivity|]).
  all: try (injection He as <-; cbn [requestVersion]; by rewrite ?schedule_version, ?cancel_version).
  - destruct (draftOf plan); [|done]. by injection He as <-.
  - destruct (finalOf plan); [|done]. by injection He as <-.
  - destruct (draftOf plan); [|done]. cbn in He. destruct (finalizeIssues _ _); [|done]. by injection He as <-.
  - destruct (latestAssessment plan); [|done]. cbn in He. destruct (_ && _); [|done]. by injection He as <-.
Qed.

(** C23. An action that the server accepts was one the user could take on the record it changes.
    [history] is the record at each version; while an action is open the workspace may re-read
    newer records, but the request it sends carries the version it was opened on, and in that
    version's record the button of that action was shown and enabled: a server that only takes
    a request for the current version never applies one to a record the user had not reviewed. *)
Theorem accepted_action_allowed (history : Z → MeasurementPlan) (viewer : Viewer) (v0 current : Z)
    (plan : MeasurementPlan) (s : WorkState) (payload : Payload) (e : MeasurementEndpoint)
    (Hversion : ∀ v, plan_version (history v) = v)
    (Hsteps : rtc (workStep history viewer) (history v0, openWork (history v0)) (plan, s))
    (Hrequest : actionRequest viewer plan s payload = Some e)
    (Haccepted : requestVersion e = Some current) :
  ∃ action, wk_action s = Some action ∧ mayOpen viewer (history current) action = true.
Proof.
  assert (Hok : workOk history viewer (plan, s)).
  { eapply (rtc_ind_r (workOk history viewer)); [|intros st st' _ Hstep Hok; by eapply workStep_ok|exact Hsteps].
    split; [by eexists|done]. }
  apply actionRequest_version in Hrequest as (action & Haction & Hv). exists action. split; [done|].
  rewrite Hv in Haccepted. injection Haccepted as <-. by apply Hok.
Qed.

(** A manager opens a proposal, the record is read again with a newer version, the proposal is
    still sent for the version it was made on. *)
Definition versionedPlan (v : Z) : MeasurementPlan :=
  mkPlan (js "call-0001") (js "Crude export") (js "2026-07-01T06:00:00Z") None (js "Berth 4")
    (js "Shore tank") (js "loading") (js "full") (js "Ada") [] (js "p1") (js "MV Calabar")
    (js "VC-1") v in_progress surveyor [sampleParty] [sampleCargo] [sampleSubmission (js "s1") 1 (js "1010")] [] [] [].
Definition manager : Viewer := mkViewer (λ p, streq p (js "measurements.manage")) (Some (js "u1")).
Lemma accepted_action_allowed_witness :
  let s := openAction (versionedPlan 3) act_proposal (openWork (versionedPlan 3)) in
  ∃ e, actionRequest manager (versionedPlan 4) s (pay_proposal (proposalInput (js "agreed") [] [])) = Some e ∧
    requestVersion e = Some 3 ∧
    ∃ action, wk_action s = Some action ∧ mayOpen manager (versionedPlan 3) action = true.
Proof.
  intros s. eexists. split; [reflexivity|]. split; [reflexivity|].
  eapply (accepted_action_allowed versionedPlan manager 3 3 (versionedPlan 4) s
    (pay_proposal (proposalInput (js "agreed") [] []))).
  - reflexivity.
  - eapply rtc_l; [apply (wk_open _ _ _ act_proposal); vm_compute; reflexivity|]. apply rtc_once, (wk_read _ _ _ 4).
  - reflexivity.
  - reflexivity.
Defined.
