(* ===== verification/InvoiceEditor.v ===== *)
(** * The variation invoice screen (frontend/src/screens/VariationInvoice.tsx)

    What the editor of an invoice lets Finance save, which invoice the workspace shows, and
    the list of invoices. *)
From Stdlib Require Import SpecFloat.
From S2P Require Import Prelude JsString JsNumber Json Codec MeasurementTypes Host Samples Helpers Comparison Cargo CloseoutTypes Closeout Storage CloseoutJson CloseoutStore CloseoutInvariants CloseoutSaved AppTypes VoyageStatus ReadingsModel Tariffs InvoiceDraft.

Definition STATUS_LABELS (status : PreviewInvoiceStatus) : str :=
  match status with
  | is_draft => js "Draft invoice" | is_no_charge => js "No additional charge"
  | is_overpayment => js "On hold · overpayment review" | is_held => js "On hold"
  end.
Definition STATUS_TONES (status : PreviewInvoiceStatus) : Tone :=
  match status with is_draft | is_held => amber | is_no_charge => green | is_overpayment => blue end.

Definition decimalLabel (value : str) : str :=
  let parts := split cDot value in
  groupThousands (default [] (parts !! 0%nat)) ++ cDot :: padEnd 2 cZero (default [] (parts !! 1%nat)).
Definition money (value currency : str) : str := currency ++ cSpace :: decimalLabel value.
(** [value.replace(/^[+-]/, "")] *)
Definition unsigned (value : str) : str :=
  match value with c :: rest => if N.eqb c cPlus || N.eqb c cMinus then rest else value | [] => [] end.
(** [/^[+-]?0(\.0+)?$/] *)
Definition zeroText (value : str) : bool :=
  match split cDot (unsigned value) with
  | [w] => streq w [cZero]
  | [w; f] => streq w [cZero] && negb (isEmpty f) && allZeros f
  | _ => false
  end.
Definition signed (value : option str) : str :=
  match value with
  | None => js "Unknown"
  | Some v =>
    if streq v (js "0") || zeroText v then js "0"
    else (if startsWith (js "-") v then js "−" else js "+") ++ readingQuantity (Some (unsigned v))
  end.
Definition charged (variance : option str) : bool :=
  match variance with
  | Some v => negb (streq v (js "0")) && negb (startsWith (js "-") v) | None => false
  end.

Section Editor.
Context `{Host}.

(** ** The editor *)

Definition ratesValid (input : PreviewInvoiceInput) : bool :=
  forallb (λ line, validRate (ili_rate line) && validMoney (ili_previousVariationAmount line) 2) (ii_lines input).
(** [Number(amount) > 0] of an amount [validMoney] accepts: one of its digits is not zero. *)
Definition positiveAmount (amount : str) : bool := existsb (λ c, isDigit c && negb (N.eqb c cZero)) amount.
Definition hasPrevious (input : PreviewInvoiceInput) : bool :=
  existsb (λ line, positiveAmount (ili_previousVariationAmount line)) (ii_lines input).
Definition outcome (report : PreviewReport) (input : PreviewInvoiceInput) : PreviewInvoiceStatus :=
  if ratesValid input then calc_status (calculateVariation report (ii_lines input)) else is_held.
Definition canSave (canEdit : bool) (report : PreviewReport) (input : PreviewInvoiceInput) : bool :=
  canEdit
  && match missingInvoiceDetails input report with [] => true | _ => false end
  && ratesValid input
  && match calc_issues (calculateVariation report (ii_lines input)) with [] => true | _ => false end
  && (negb (hasPrevious input) || negb (isEmpty (trim (ii_previousVariationReference input))))
  && (isEmpty (ii_originalPaidAmount input) || validMoney (ii_originalPaidAmount input) 2).

Definition editorLine (key : str) (patch : PreviewInvoiceLineInput → PreviewInvoiceLineInput)
    (input : PreviewInvoiceInput) : PreviewInvoiceInput :=
  mkInvoiceInput (ii_payer input) (ii_currency input) (ii_tariffReference input)
    (ii_originalInvoiceReference input) (ii_paymentStatus input) (ii_originalPaidAmount input)
    (ii_previousVariationReference input)
    (map (λ line, if streq (itemKey (ili_planId line) (ili_lineId line)) key then patch line else line) (ii_lines input)).

(** The declaration the editor saves with the invoice. *)
Definition editedDeclaration (declaration : option PaidDeclaration) (input : PreviewInvoiceInput)
  : PaidDeclarationInput :=
  mkDeclarationInput (ii_payer input) (default [] ((λ d : PaidDeclaration, pd_agent d) <$> declaration))
    (ii_originalInvoiceReference input) (ii_originalPaidAmount input) (ii_currency input)
    (default [] ((λ d : PaidDeclaration, pd_paidOn d) <$> declaration)) (ii_paymentStatus input).
(** The declaration first, whatever comes of it, then the invoice. *)
Definition saveInvoice (orgId : option str) (callId : str) (plans : list MeasurementPlan)
    (declaration : option PaidDeclaration) (report : PreviewReport) (canEdit : bool) (user : option Actor)
    (uuid uuid' now now' : str) (input : PreviewInvoiceInput) (st : Storage)
  : option (Storage * result str PreviewInvoice) :=
  actor ← user;
  if canSave canEdit report input then
    let '(st, _) := mutate orgId callId (saveDeclaration (editedDeclaration declaration input) actor now) st in
    let '(st, invoice) := mutate orgId callId (createInvoice plans (rep_id report) input actor uuid uuid' now') st in
    Some (st, match invoice with
      | Ok invoice => Ok invoice
      | Err _ => Err (js "The invoice could not be drafted. Check the approved quantities are still current.")
      end)
  else None.
Definition savedText (invoice : PreviewInvoice) : str :=
  if bool_decide (inv_status invoice = is_draft)
  then js "Variation invoice " ++ inv_number invoice ++ js " drafted"
  else STATUS_LABELS (inv_status invoice) ++ js " recorded".

(** ** The workspace *)

Inductive InvoiceView :=
| earlierDraft (invoice : PreviewInvoice) (report : PreviewReport)
| noReport
| currentInvoice (invoice : PreviewInvoice) (report : PreviewReport)
| editor (report : PreviewReport) (initial : PreviewInvoiceInput).

Definition editedInput (invoice : PreviewInvoice) : PreviewInvoiceInput :=
  mkInvoiceInput (inv_payer invoice) (inv_currency invoice) (inv_tariffReference invoice)
    (inv_originalInvoiceReference invoice) (inv_paymentStatus invoice) (inv_originalPaidAmount invoice)
    (inv_previousVariationReference invoice)
    (map (λ line : PreviewInvoiceLine, mkInvoiceLineInput (ili_planId line) (ili_lineId line) (ili_rate line)
       (ili_previousVariationAmount line)) (inv_lines invoice)).
Definition InvoiceWorkspace (plans : list MeasurementPlan) (record : CloseoutRecord) (summary : VoyageSummary)
    (tariff : option VariationTariff) (viewedId : option str) (editing : bool) : InvoiceView :=
  let report := vs_report summary in
  let current := r ← report; last (filterb (λ item, streq (inv_reportId item) (rep_id r)) (cr_invoices record)) in
  let viewed := id ← viewedId; if truthy id then findb (λ item, streq (inv_id item) id) (cr_invoices record) else None in
  let viewedReport := i ← viewed; findb (λ item, streq (rep_id item) (inv_reportId i)) (cr_reports record) in
  let earlier := i ← viewed; r ← viewedReport;
    if bool_decide (Some (inv_id i) = (inv_id <$> current)) then None else Some (i, r) in
  match earlier, report, current with
  | Some (i, r), _, _ => earlierDraft i r
  | None, None, _ => noReport
  | None, Some r, Some c => if editing then editor r (editedInput c) else currentInvoice c r
  | None, Some r, None => editor r (invoiceInputFor r plans (vs_declaration summary) tariff)
  end.

(** ** The list *)

Definition INVOICE_STAGES : list VoyageStage := [g_invoice; g_draft; g_review; g_held; g_no_charge].
Definition invoiceVoyages (voyages : list VoyageSummary) : list VoyageSummary :=
  filterb (λ voyage, bool_decide (vs_stage voyage ∈ INVOICE_STAGES)) voyages.
Definition invoiceText (voyage : VoyageSummary) : str :=
  join (js " ") [vs_vesselName voyage; vs_reference voyage; default [] (inv_number <$> vs_invoice voyage);
    match vs_invoice voyage with
    | Some invoice => inv_payer invoice
    | None => default [] ((λ d : PaidDeclaration, pd_payer d) <$> vs_declaration voyage) end].
Definition stageIndex (stage : VoyageStage) : Z :=
  findIndex (λ s, bool_decide (s = stage)) INVOICE_STAGES.
Definition byStageThenActivity (left right : VoyageSummary) : Z :=
  let d := stageIndex (vs_stage left) - stageIndex (vs_stage right) in
  if d =? 0 then localeCompare (default [] (vs_lastActivityAt right)) (default [] (vs_lastActivityAt left)) else d.
Definition visibleInvoices (stage : option VoyageStage) (search : str) (voyages : list VoyageSummary)
  : list VoyageSummary :=
  let query := toLocaleLowerCase (trim search) in
  sort_by byStageThenActivity
    (filterb (λ voyage,
       match stage with None => true | Some s => bool_decide (vs_stage voyage = s) end
       && (isEmpty query || includes query (toLocaleLowerCase (invoiceText voyage)))) (invoiceVoyages voyages)).
Definition draftedTotals (voyages : list VoyageSummary) : list (str * num) :=
  foldl (λ totals voyage,
    match vs_invoice voyage with
    | Some invoice =>
      if bool_decide (vs_stage voyage = g_draft) then
        let key := currency_lit (inv_currency invoice) in
        mset key (numAdd (default (numOfZ 0) (mget key totals))
          (mathRound (numMul (numberOfText (inv_total invoice)) (numOfZ 100)))) totals
      else totals
    | None => totals
    end) [] (invoiceVoyages voyages).
End Editor.

(** ** Lemmas: what the editor has checked *)

Lemma elem_of_trimStart c s : c ∈ trimStart s → c ∈ s.
Proof. destruct (trimStart_suffix s) as [w Hw]. intros Hc. rewrite Hw, elem_of_app. by right. Qed.
Lemma elem_of_trim c s : c ∈ trim s → c ∈ s.
Proof.
  unfold trim, trimEnd. rewrite list_elem_of_In, <- in_rev, <- list_elem_of_In.
  intros Hc%elem_of_trimStart. revert Hc. rewrite list_elem_of_In, <- in_rev, <- list_elem_of_In.
  apply elem_of_trimStart.
Qed.

Lemma matchDecimal_elem s w f c : matchDecimal s = Some (w, f) → c ∈ w ∨ c ∈ f → c ∈ s.
Proof.
  unfold matchDecimal. pose proof (join_split cDot s) as Hj.
  destruct (split cDot s) as [|w' [|f' [|]]]; try done; simpl in Hj.
  - destruct (digits1 w'); [|done]. intros [= <- <-] [Hc|Hc]; [by subst|by apply elem_of_nil in Hc].
  - destruct (digits1 w' && digits1 f'); [|done]. intros [= <- <-] Hc. rewrite <- Hj, elem_of_app, elem_of_cons.
    destruct Hc; auto.
Qed.

(** An amount without a digit other than zero is zero. *)
Lemma zero_digits s : allDigits s = true → (∀ c, c ∈ s → c = cZero) → bigOfDigits s = 0.
Proof.
  intros _ Hc. assert (s = replicate (length s) cZero) as ->; [|apply bigOfDigits_zeros].
  induction s as [|c s IH]; [done|]. simpl. rewrite (Hc c (list_elem_of_here _ _)). f_equal.
  apply IH. intros; apply Hc. by apply list_elem_of_further.
Qed.
Lemma positiveAmount_false t p m n : positiveAmount t = false → Closeout.decimal (Some t) p m = Some n → n = 0.
Proof.
  intros Hpos. unfold Closeout.decimal. cbn [mbind option_bind].
  destruct (matchDecimal (trim t)) as [[w f]|] eqn:Em; [|done]. cbn [mbind option_bind].
  pose proof (matchDecimal_digits _ _ _ Em) as (_ & Hw & Hf). destruct (_ || _); [done|].
  assert (Hz : ∀ c, c ∈ w ∨ c ∈ f → isDigit c = true → c = cZero).
  { intros c Hc Hd. pose proof (elem_of_trim _ _ (matchDecimal_elem _ _ _ _ Em Hc)) as Hin.
    unfold positiveAmount in Hpos. pose proof (proj1 (existsb_false _ _) Hpos c Hin) as Hc'. cbv beta in Hc'.
    rewrite Hd in Hc'. by apply negb_false_iff, N.eqb_eq in Hc'. }
  assert (bigOfDigits w = 0) as -> by (apply zero_digits; [done|]; intros c Hc; apply Hz; [by left|by apply (allDigits_elem w)]).
  assert (Hf0 : bigOfDigits f = 0) by (apply zero_digits; [done|]; intros c Hc; apply Hz; [by right|by apply (allDigits_elem f)]).
  rewrite bigOfDigits_padEnd, Hf0. intros [= <-]. lia.
Qed.

(** Cargo that is not above its declaration is charged nothing. *)
Lemma not_above_free inputs line res a : readableLine line →
  aboveDeclaration (prl_quantity line) (prl_declaredQuantity line) = false →
  variationLine inputs line = Ok (res, a) → a = 0.
Proof.
  intros (Lq & _ & d & Hd & Ld & _) Habove. unfold variationLine.
  destruct (findb _ inputs) as [input|]; [|done]. rewrite Hd.
  destruct (Closeout.decimal (Some d) 6 15) as [baseline|] eqn:Eb; [|done].
  destruct (Closeout.decimal (Some (prl_quantity line)) 6 15) as [final|] eqn:Ef; [|done].
  destruct (Closeout.decimal (Some (ili_rate input)) 4 15) as [rate|]; [|done].
  destruct (Closeout.decimal (Some (ili_previousVariationAmount input)) 2 15) as [previous|] eqn:Ep; [|done].
  apply decimal_bound in Ep. intros [= _ <-].
  assert (Hle : ¬ baseline < final).
  { intros Hlt. apply (aboveDeclaration_iff _ _ _ _ Ef Eb Lq Ld) in Hlt. rewrite Hd in Habove. congruence. }
  rewrite (proj2 (Z.ltb_ge 0 (final - baseline))) by lia.
  by rewrite (proj2 (Z.ltb_ge previous 0)) by lia.
Qed.

Lemma currentReport_reports `{Host} plans a b : cr_reports a = cr_reports b →
  currentReport plans (Some a) = currentReport plans (Some b).
Proof. intros Hr. unfold currentReport. by rewrite Hr. Qed.

(** A drafted invoice, new or the same again, is the last of the record, whose declaration
    stays. *)
Lemma drafted_last `{Host} r rep input actor u u' now r' inv :
  draftInvoice r rep input actor u u' now = Ok (r', inv) →
  last (cr_invoices r') = Some inv ∧ cr_declaration r' = cr_declaration r ∧ cr_callId r' = cr_callId r.
Proof.
  unfold draftInvoice. intros Hr. run_ok Hr. destruct (last (cr_invoices r)) as [p|] eqn:El.
  1: destruct (sameInput _ _ _ _).
  - injection Hr as <- <-. by rewrite El.
  - injection Hr as <- <-. simpl. by rewrite last_snoc.
  - injection Hr as <- <-. simpl. by rewrite last_snoc.
Qed.

(** The declaration the editor's amount and dates give is one the store accepts. *)
Lemma saveDeclaration_edited (saved : CloseoutRecord) report (declaration : option PaidDeclaration) input actor now :
  canSave true report input = true →
  (∀ d, declaration = Some d → pd_paidOn d = [] ∨ isDateText (pd_paidOn d) = true) →
  ∃ d, saveDeclaration (editedDeclaration declaration input) actor now saved =
      Ok (mkCloseout (cr_callId saved) (cr_reports saved) (cr_invoices saved) (cr_events saved) (Some d), d) ∧
    pd_payer d = trim (ii_payer input) ∧ pd_amountPaid d = trim (ii_originalPaidAmount input) ∧
    validDeclaration (Some d) = true.
Proof.
  intros Hcan Hdate. unfold canSave in Hcan. rewrite !andb_true_iff in Hcan. destruct Hcan as (_ & Ha).
  set (d := editedDeclaration declaration input).
  exists (mkDeclaration (mkDeclarationInput (trim (pd_payer d)) (trim (pd_agent d))
    (trim (pd_invoiceReference d)) (trim (pd_amountPaid d)) (pd_currency d) (pd_paidOn d) (pd_paymentStatus d))
    now actor).
  assert (Hamount : truthy (trim (pd_amountPaid d)) && negb (validDecimal (Some (trim (pd_amountPaid d))) 2 32) = false).
  { unfold d, editedDeclaration. cbn [pd_amountPaid].
    destruct (ii_originalPaidAmount input) as [|c amount]; [done|]. cbn [isEmpty orb] in Ha.
    unfold validMoney, validDecimal, Closeout.decimal in Ha |- *. cbn [mbind option_bind] in *.
    rewrite trim_trim. by destruct (match _ with Some _ => true | None => false end); [rewrite andb_false_r|]. }
  assert (Hpaid : truthy (pd_paidOn d) && negb (isDateText (pd_paidOn d)) = false).
  { unfold d, editedDeclaration. cbn [pd_paidOn]. destruct declaration as [d0|]; [|done]. simpl.
    destruct (Hdate d0 eq_refl) as [->| ->]; [done|]. by rewrite andb_false_r. }
  split_and!.
  - unfold saveDeclaration. rewrite Hamount, Hpaid. reflexivity.
  - reflexivity.
  - reflexivity.
  - unfold validDeclaration. cbn [pd_amountPaid pd_input]. unfold truthy in Hamount.
    by destruct (isEmpty (trim (pd_amountPaid d))); [|cbn in Hamount; apply negb_false_iff in Hamount].
Qed.

(** With the button enabled, the draft for the current report succeeds. *)
Lemma createInvoice_edited `{Host} (plans : list MeasurementPlan) (saved : CloseoutRecord) (report : PreviewReport)
    (input : PreviewInvoiceInput) (actor : Actor) (uuid uuid' now' : str) :
  canSave true report input = true →
  currentReport plans (Some saved) = Some report →
  (∀ line, line ∈ rep_lines report → readableLine line) →
  (validMoney (ii_originalPaidAmount input) 2 = true → validDecimal (Some (ii_originalPaidAmount input)) 2 15 = true) →
  ∃ saved' invoice, createInvoice plans (rep_id report) input actor uuid uuid' now' saved = Ok (saved', invoice) ∧
    inv_reportId invoice = rep_id report ∧ inv_payer invoice = trim (ii_payer input) ∧
    last (cr_invoices saved') = Some invoice ∧ cr_declaration saved' = cr_declaration saved ∧
    cr_callId saved' = cr_callId saved.
Proof.
  intros Hcan Hcurrent Hlines Hwhole.
  unfold canSave in Hcan. rewrite !andb_true_iff in Hcan. destruct Hcan as (((((_ & Hm) & Hr) & Hi) & Hp) & Ha).
  destruct (missingInvoiceDetails input report) as [|] eqn:Em; [|done]. clear Hm.
  apply missing_nil in Em as (M1 & M2 & M3 & M4 & _).
  destruct (calc_issues _) as [|] eqn:Ei; [|done]. clear Hi.
  destruct (draftInvoice_total saved report input actor uuid uuid' now')
    as (saved2 & invoice & Hd & Hid & Hpayer); [done|done|done|..].
  - destruct (ii_originalPaidAmount input) eqn:Ea; [by left|]. right. apply Hwhole. done.
  - done.
  - intros Hs. apply andb_false_iff in M3 as [M3|M3]; [by apply negb_false_iff, bool_decide_eq_true in M3|].
    exfalso. revert Hs. apply calculation_no_draft. intros line res a Hin.
    apply not_above_free; [by apply Hlines|]. by apply (proj1 (existsb_false _ _) M3).
  - intros line n Hin Hn Hpos. apply orb_true_iff in Hp as [Hp|Hp]; [|by apply negb_true_iff in Hp].
    apply negb_true_iff in Hp. apply (proj1 (existsb_false _ _)) with (x := line) in Hp; [|done].
    apply positiveAmount_false in Hn; [lia|done].
  - destruct (drafted_last _ _ _ _ _ _ _ _ _ Hd) as (Hl & Hdecl & Hc). exists saved2, invoice.
    split; [|by split_and!]. unfold createInvoice. rewrite Hcurrent, streq_refl. exact Hd.
Qed.

(** C20. What the editor lets Finance save is saved. With the button enabled for the current
    report, whose quantities are well-formed texts of at most two hundred characters, a valid
    record of the voyage, no declaration yet or one whose date is blank or a date, a browser
    that can be written and an amount paid, if any, of at most fifteen whole digits (a longer
    one enables the button and is then refused), saving writes the declaration and then the
    invoice: the editor is given the draft for that report and payer, new or the same again,
    and the stored document holds it as the voyage's last invoice, with the declaration,
    beside the other voyages' records. *)
Theorem editor_saves `{Host} (o key callId : str) (plans : list MeasurementPlan) (report : PreviewReport)
    (declaration : option PaidDeclaration) (input : PreviewInvoiceInput) (actor : Actor)
    (uuid uuid' now now' : str) (st : Storage)
    (Hkey : closeoutStorageKey (Some o) = Some key) (Hcall : callId ≠ [])
    (Hread : readable st = true) (Hwrite : writeError st = None)
    (Hdocument : ps_error (readPreviews (Some o) st) = None) :
  let saved := recordFor callId (ps_records (readPreviews (Some o) st)) in
  ∀ (Hvalid : validRecord saved = true)
    (Hcan : canSave true report input = true)
    (Hcurrent : currentReport plans (Some saved) = Some report)
    (Hlines : ∀ line, line ∈ rep_lines report → readableLine line)
    (Hwhole : validMoney (ii_originalPaidAmount input) 2 = true →
       validDecimal (Some (ii_originalPaidAmount input)) 2 15 = true)
    (Hdate : ∀ d, declaration = Some d → pd_paidOn d = [] ∨ isDateText (pd_paidOn d) = true),
  ∃ st' invoice saved' d,
    saveInvoice (Some o) callId plans declaration report true (Some actor) uuid uuid' now now' input st
      = Some (st', Ok invoice) ∧
    inv_reportId invoice = rep_id report ∧ inv_payer invoice = trim (ii_payer input) ∧
    items st' !! key = Some (stringify (savedDocument o
      (otherRecords callId (ps_records (readPreviews (Some o) st)) ++ [enc saved']))) ∧
    last (cr_invoices saved') = Some invoice ∧ cr_callId saved' = callId ∧
    cr_declaration saved' = Some d ∧ pd_payer d = trim (ii_payer input) ∧
    pd_amountPaid d = trim (ii_originalPaidAmount input).
Proof.
  intros saved Hvalid Hcan Hcurrent Hlines Hwhole Hdate.
  assert (Hsc : cr_callId saved = callId) by apply recordFor_callId.
  destruct (saveDeclaration_edited saved report declaration input actor now Hcan Hdate) as (d & Hd & Hpayer & Hpaid & Hdv).
  destruct (mutate_runs o key callId _ st _ _ Hkey Hdocument Hcall Hwrite Hd) as (st1 & Hm1 & Hs1).
  set (saved1 := mkCloseout (cr_callId saved) (cr_reports saved) (cr_invoices saved) (cr_events saved) (Some d)) in *.
  assert (Hv1 : validRecord saved1 = true).
  { unfold validRecord in Hvalid |- *. rewrite !andb_true_iff in Hvalid |- *. destruct Hvalid as [[[[? ?] ?] ?] _].
    unfold saved1. cbn [cr_callId cr_reports cr_invoices cr_events cr_declaration]. split_and!; try done. }
  destruct (read_after o key callId st st1 saved1 Hkey Hread Hv1 Hsc Hs1) as (He1 & Hr1 & Ho1).
  destruct (createInvoice_edited plans saved1 report input actor uuid uuid' now' Hcan) as
    (saved2 & invoice & Hc & Hid & Hip & Hlast & Hdecl & Hcid); [|done|done|].
  { rewrite <- Hcurrent. by apply currentReport_reports. }
  assert (Hw1 : writeError st1 = None) by (by apply setItem_Ok in Hs1 as (_ & _ & _ & ?)).
  rewrite <- Hr1 in Hc.
  destruct (mutate_runs o key callId _ st1 _ _ Hkey He1 Hcall Hw1 Hc) as (st2 & Hm2 & Hs2).
  rewrite Ho1 in Hs2. exists st2, invoice, saved2, d. split_and!; try done.
  - unfold saveInvoice. cbn [mbind option_bind]. rewrite Hcan, Hm1, Hm2. reflexivity.
  - apply setItem_Ok in Hs2 as (_ & -> & _). apply lookup_insert_eq.
  - by rewrite Hcid.
Qed.

(** ** Witnesses *)

#[local] Existing Instance asciiHost.

Definition approvedStore : Storage := fst (mutate (Some (js "org-1")) sampleCall sampleApprove sampleStore).
Lemma approvedStore_record :
  recordFor sampleCall (ps_records (readPreviews (Some (js "org-1")) approvedStore)) = sampleR2.
Proof. vm_compute. reflexivity. Qed.

Lemma editor_saves_witness : ∃ st' invoice,
  saveInvoice (Some (js "org-1")) sampleCall [measuredPlan] None (lastReport sampleR2) true (Some reviewer)
    (js "i2") (js "e4") (js "t4") (js "t5") sampleBilling approvedStore = Some (st', Ok invoice) ∧
  inv_reportId invoice = rep_id (lastReport sampleR2).
Proof.
  destruct (editor_saves (js "org-1") (js "vessel-caller:closeout-preview:v1:org-1") sampleCall [measuredPlan]
    (lastReport sampleR2) None sampleBilling reviewer (js "i2") (js "e4") (js "t4") (js "t5") approvedStore)
    as (st' & invoice & saved' & d & Hs & Hid & _).
  - vm_compute. reflexivity.
  - discriminate.
  - vm_compute. reflexivity.
  - vm_compute. reflexivity.
  - vm_compute. reflexivity.
  - rewrite approvedStore_record. vm_compute. reflexivity.
  - vm_compute. reflexivity.
  - rewrite approvedStore_record. exact sample_current.
  - intros line Hline.
    assert (Hl : rep_lines (lastReport sampleR2) = [default (mkReportLine [] [] [] [] [] count None)
      (head (rep_lines (lastReport sampleR2)))]) by (vm_compute; reflexivity).
    rewrite Hl in Hline. apply list_elem_of_singleton in Hline as ->.
    split; [vm_compute; lia|]. split; [vm_compute; reflexivity|].
    exists (js "1000"). split; [vm_compute; reflexivity|]. split; [vm_compute; lia|vm_compute; reflexivity].
  - intros Hmoney. vm_compute in Hmoney. discriminate Hmoney.
  - intros d Hd. discriminate Hd.
  - exists st', invoice. split; [exact Hs|exact Hid].
Defined.

(** An amount paid of sixteen whole digits enables the button, and the draft is refused. *)
Definition longAmount : PreviewInvoiceInput :=
  mkInvoiceInput (ii_payer sampleBilling) (ii_currency sampleBilling) (ii_tariffReference sampleBilling)
    (ii_originalInvoiceReference sampleBilling) (ii_paymentStatus sampleBilling) (js "1000000000000000.00")
    (ii_previousVariationReference sampleBilling) (ii_lines sampleBilling).
Example long_amount_refused :
  canSave true (lastReport sampleR2) longAmount = true ∧
  createInvoice [measuredPlan] (rep_id (lastReport sampleR2)) longAmount reviewer (js "i2") (js "e4") (js "t5")
    sampleR2 = Err (js "Enter a valid original paid amount, or leave it blank if not recorded.").
Proof. split; vm_compute; reflexivity. Qed.
