(* ===== verification/Routing.v ===== *)
(** * Who sees which page (frontend/src/App.tsx, components/ProtectedRoute.tsx,
    system/SystemShell.tsx, app/AppLoader.tsx, app/Shell.tsx, lib/navigation.tsx)

    The tree of routes and guards as a function from the session and a path to what is
    shown: a page, a redirection or a notice.  The router's pattern matching is the
    library's: a [Router] gives it, with its behaviour on the patterns and paths the
    application writes. *)
From Stdlib Require Import SpecFloat.
From S2P Require Import Prelude JsString Json Host AppTypes AuthContext AuthInvariants.

(** ** The router *)

(** Segments of a path, and a match segment by segment: [:name] is any segment, a final
    [*] whatever follows. *)
Fixpoint segmentsMatch (pattern path : list str) : bool :=
  match pattern, path with
  | [], [] => true
  | p :: pattern', s :: path' =>
      if streq p (js "*") then true
      else (match p with c :: _ => N.eqb c 58 && truthy s | [] => false end || streq p s)
           && segmentsMatch pattern' path'
  | _, _ => false
  end.
Definition patternMatches (pattern path : str) : bool :=
  segmentsMatch (split cSlash pattern) (split cSlash path).

(** ** Pages *)

Inductive Page :=
| Landing | AuthPageLogin | AuthPageRegister | TemporaryPasswordChange | EmailVerification
| ForgotPassword | ResetPassword | InvitationAccept | OrganizationJoinVerification
| OrganizationJoin | AgencyReadingPage
| Dashboard | ActivityDashboard | VariationInvoices | VesselProfile | Vessels | VesselCallDetail
| VesselCalls | NewMeasurement | VoyageDeclaration | VoyageAgencies | VoyageReadings
| VoyageReconciliation | VariationInvoice | MeasurementDetail | Measurements | NewInspection
| Inspections | Invoices | Analytics | UserManagement | TariffSettings | AgencyDirectory | Settings
| MobileApp | CustomerAccount
| SystemOverview | SystemOrganizationDetail | SystemOrganizations | SystemAudit | SystemAccount.
#[export] Instance Page_eq : EqDecision Page. Proof. solve_decision. Defined.

(** What is on the screen: a page, a [Navigate], or the notices of the guards and loader. *)
Inductive Screen :=
| shows (page : Page)
| redirects (to : str)
| loadingWorkspace                  (** the session is being read *)
| signInUnavailable (message : str)
| loadingData | workspaceUnavailable (message : str).

(** [AppLoader]: the organization's state is loaded once. *)
Inductive LoaderState := ld_loading | ld_failed (message : str) | ld_ready.
Definition AppLoader (loader : LoaderState) (children : Screen) : Screen :=
  match loader with
  | ld_failed e => workspaceUnavailable e | ld_loading => loadingData | ld_ready => children
  end.

Definition SHOW_SECONDARY_WORKFLOW_UI : bool := false.

(** ** Guards *)

Definition ProtectedRoute (v : View) (permission : option str) (deniedTo : str) (children : Screen) : Screen :=
  match v_status v with
  | loading => loadingWorkspace
  | unavailable => signInUnavailable (default (js "Check your connection and try again.") (v_authError v))
  | status =>
    if bool_decide (v_challenge v ≠ None) then redirects (js "/change-temporary-password")
    else if bool_decide (status = anonymous) then redirects (js "/login")
    else match permission with
         | Some p => if can p v then children else redirects deniedTo
         | None => children
         end
  end.
Definition SecureScreen (v : View) (permission : string) (page : Page) : Screen :=
  ProtectedRoute v (Some (js permission)) (js "/app") (shows page).
Definition PublicAuthRoute (v : View) (children : Screen) : Screen :=
  if bool_decide (v_challenge v ≠ None) then redirects (js "/change-temporary-password")
  else if bool_decide (v_status v = authenticated) then redirects (homePath v) else children.

Definition enrollmentRequired (p : PlatformAccess) : bool := default false (pa_mfaEnrollmentRequired p).
Definition userEnrollmentRequired (v : View) : bool :=
  match v_user v with Some u => default false (usr_mfaEnrollmentRequired u) | None => false end.

Definition PlatformAuthorization (v : View) (permission : option str) (allowDuringEnrollment : bool)
    (children : Screen) : Screen :=
  match v_platformAccess v with
  | None => redirects (js "/app")
  | Some p =>
    if enrollmentRequired p && negb allowDuringEnrollment then redirects (js "/system/account") else
    match permission with
    | Some perm => if can perm v then children else redirects (js "/system")
    | None => children
    end
  end.
Definition PlatformRoute (v : View) (permission : option str) (allowDuringEnrollment : bool)
    (children : Screen) : Screen :=
  ProtectedRoute v None (js "/app") (PlatformAuthorization v permission allowDuringEnrollment children).

Definition CustomerRoute (v : View) (children : Screen) : Screen :=
  ProtectedRoute v None (js "/app")
    (match v_platformAccess v with
     | Some _ => redirects (homePath v)
     | None => if userEnrollmentRequired v then redirects (js "/app/account") else children
     end).

(** ** Routes *)

Definition WorkspaceHome (v : View) : Screen :=
  if negb SHOW_SECONDARY_WORKFLOW_UI then
    if can (js "measurements.view") v then redirects (js "/app/dashboard")
    else if can (js "calls.view") v then redirects (js "/app/vessel-calls")
    else if can (js "settings.view") v then redirects (js "/app/settings/agencies")
    else shows Dashboard
  else shows Dashboard.

Definition Route : Type := str * (View → Screen).
Definition secure (path permission : string) (page : Page) : Route :=
  (js path, λ v, SecureScreen v permission page).
Definition open_ (path : string) (page : Page) : Route := (js path, λ _, shows page).

Definition workspaceRoutes : list Route := [
  (js "/app", WorkspaceHome);
  secure "/app/dashboard" "measurements.view" ActivityDashboard;
  secure "/app/variation-invoices" "measurements.view" VariationInvoices;
  secure "/app/vessels/:slug" "calls.view" VesselProfile;
  secure "/app/vessels" "calls.view" Vessels;
  open_ "/app/vessel-calls/:id" VesselCallDetail;
  open_ "/app/vessel-calls" VesselCalls;
  secure "/app/measurements/new" "measurements.manage" NewMeasurement;
  secure "/app/measurements/voyages/:callId/declaration" "measurements.view" VoyageDeclaration;
  secure "/app/measurements/voyages/:callId/agencies" "measurements.view" VoyageAgencies;
  secure "/app/measurements/voyages/:callId/readings" "measurements.view" VoyageReadings;
  secure "/app/measurements/voyages/:callId/reconciliation" "measurements.view" VoyageReconciliation;
  secure "/app/measurements/voyages/:callId/variation-invoice" "measurements.view" VariationInvoice;
  secure "/app/measurements/:id" "measurements.view" MeasurementDetail;
  secure "/app/measurements" "measurements.view" Measurements;
  secure "/app/inspections/new" "inspections.manage" NewInspection;
  open_ "/app/inspections" Inspections;
  open_ "/app/invoices" Invoices;
  secure "/app/analytics" "analytics.view" Analytics;
  secure "/app/users" "users.view" UserManagement;
  secure "/app/settings/tariffs" "settings.view" TariffSettings;
  secure "/app/settings/agencies" "settings.view" AgencyDirectory;
  secure "/app/settings" "settings.view" Settings].

Definition platform (path : string) (permission : option str) (allow : bool) (page : Page) : Route :=
  (js path, λ v, PlatformRoute v permission allow (shows page)).
Definition systemRoutes : list Route := [
  platform "/system" (Some (js "platform.organizations.view")) false SystemOverview;
  platform "/system/organizations/:id" (Some (js "platform.organizations.view")) false SystemOrganizationDetail;
  platform "/system/organizations" (Some (js "platform.organizations.view")) false SystemOrganizations;
  platform "/system/audit" (Some (js "platform.audit.view")) false SystemAudit;
  platform "/system/account" None true SystemAccount].

Section Routes.
(** [matches pattern path], the library's matcher *)
Context (matches : str → str → bool).

(** [Switch]: the first route that matches. *)
Definition switch (routes : list Route) (fallback : Screen) (v : View) (path : str) : Screen :=
  match findb (λ r : Route, matches r.1 path) routes with Some r => r.2 v | None => fallback end.

Definition WorkspaceRoutes (v : View) (path : str) : Screen :=
  switch workspaceRoutes (redirects (js "/app")) v path.
Definition Workspace (loader : LoaderState) (path : str) (v : View) : Screen :=
  CustomerRoute v (AppLoader loader (WorkspaceRoutes v path)).
Definition AccountWorkspace (v : View) : Screen :=
  ProtectedRoute v None (js "/app")
    (match v_platformAccess v with Some _ => redirects (homePath v) | None => shows CustomerAccount end).
Definition SystemRoutes (v : View) (path : str) : Screen :=
  switch systemRoutes (redirects (js "/system")) v path.
Definition SystemWorkspace (path : str) (v : View) : Screen := PlatformRoute v None true (SystemRoutes v path).
Definition Capture (loader : LoaderState) (v : View) : Screen :=
  CustomerRoute v (ProtectedRoute v (Some (js "inspections.manage")) (js "/app") (AppLoader loader (shows MobileApp))).

Definition appRoutes (loader : LoaderState) (path : str) : list Route := [
  open_ "/" Landing;
  (js "/login", λ v, PublicAuthRoute v (shows AuthPageLogin));
  open_ "/change-temporary-password" TemporaryPasswordChange;
  (js "/register", λ v, PublicAuthRoute v (shows AuthPageRegister));
  open_ "/verify-email" EmailVerification;
  open_ "/forgot-password" ForgotPassword;
  open_ "/reset-password" ResetPassword;
  open_ "/accept-invitation" InvitationAccept;
  open_ "/join-organization/verify" OrganizationJoinVerification;
  open_ "/join-organization" OrganizationJoin;
  open_ "/agency-reading" AgencyReadingPage;
  (js "/capture", Capture loader);
  (js "/system", SystemWorkspace path);
  (js "/system/*", SystemWorkspace path);
  (js "/app/account", AccountWorkspace);
  (js "/app", Workspace loader path);
  (js "/app/*", Workspace loader path)].
Definition App (loader : LoaderState) (v : View) (path : str) : Screen :=
  switch (appRoutes loader path) (redirects (js "/")) v path.

(** Following [Navigate]s, at most [fuel] of them. *)
Fixpoint follow (fuel : nat) (loader : LoaderState) (v : View) (path : str) : Screen :=
  match App loader v path, fuel with
  | redirects to, S fuel => follow fuel loader v to
  | screen, _ => screen
  end.
End Routes.

(** ** Navigation *)

(** [NavLink]'s test that it is the current section. *)
Definition isActive (end_ : bool) (to location : str) : bool :=
  let pathname := match split 63%N location with p :: _ => p | [] => [] end in
  if end_ then streq pathname to else streq pathname to || startsWith (to ++ [cSlash]) pathname.

Inductive NavGroup := nav_work | nav_directory | nav_admin.
#[export] Instance NavGroup_eq : EqDecision NavGroup. Proof. solve_decision. Defined.
Record NavItem := mkNavItem {
  nav_key : str; nav_label : str; nav_to : str; nav_group : NavGroup; nav_end : bool;
  nav_permission : option str; nav_secondary : bool }.
#[export] Instance NavItem_eq : EqDecision NavItem. Proof. solve_decision. Defined.
Definition navItem (key label to : string) (group : NavGroup) (end_ : bool) (permission : string)
    (secondary : bool) : NavItem :=
  mkNavItem (js key) (js label) (js to) group end_ (Some (js permission)) secondary.
Definition NAV_ITEMS : list NavItem := [
  navItem "dashboard" "Dashboard" "/app/dashboard" nav_work true "measurements.view" false;
  navItem "voyages" "Voyages" "/app/measurements" nav_work false "measurements.view" false;
  navItem "vessels" "Vessels" "/app/vessels" nav_work false "calls.view" false;
  navItem "variation-invoices" "Invoices" "/app/variation-invoices" nav_work false "measurements.view" false;
  navItem "vessel-calls" "Vessel Calls" "/app/vessel-calls" nav_work false "calls.view" true;
  navItem "inspections" "Inspections" "/app/inspections" nav_work false "inspections.view" true;
  navItem "invoices" "Harbour dues" "/app/invoices" nav_work false "invoices.view" true;
  navItem "agencies" "Agencies" "/app/settings/agencies" nav_directory false "settings.view" false;
  navItem "users" "Users" "/app/users" nav_admin false "users.view" false;
  navItem "tariffs" "Variation tariff" "/app/settings/tariffs" nav_admin false "measurements.bill" false;
  navItem "analytics" "Analytics" "/app/analytics" nav_admin false "analytics.view" true;
  navItem "settings" "Settings" "/app/settings" nav_admin true "settings.view" true].

Definition visibleItem (v : View) (item : NavItem) : bool :=
  (negb (nav_secondary item) || SHOW_SECONDARY_WORKFLOW_UI
   || (streq (nav_key item) (js "vessel-calls") && negb (can (js "measurements.view") v)))
  && match nav_permission item with Some p => can p v | None => true end.
Definition sidebarItems (v : View) : list NavItem := filterb (visibleItem v) NAV_ITEMS.

(** The platform's own navigation; locked while an authenticator must be enrolled. *)
Definition NAVIGATION : list (str * str) :=
  [(js "/system", js "platform.organizations.view");
   (js "/system/organizations", js "platform.organizations.view");
   (js "/system/audit", js "platform.audit.view")].
Definition systemItems (v : View) : list str :=
  match v_platformAccess v with
  | Some p => if enrollmentRequired p then [] else
      map fst (filterb (λ item : str * str, can item.2 v) NAVIGATION)
  | None => map fst (filterb (λ item : str * str, can item.2 v) NAVIGATION)
  end ++ [js "/system/account"].

(** Section names of the top bars. *)
Definition titles : list (string * string) :=
  [("/variation-invoices", "Invoices"); ("/vessel-calls", "Vessel Calls"); ("/vessels", "Vessels");
   ("/measurements", "Voyages"); ("/inspections/new", "New Inspection"); ("/inspections", "Inspections");
   ("/invoices", "Harbour dues"); ("/analytics", "Analytics"); ("/users", "Users");
   ("/account", "Account & Security"); ("/settings/agencies", "Agencies");
   ("/settings/tariffs", "Variation tariff"); ("/settings", "Settings")]%string.
(** [pathname.replace(/\/+$/, "")] *)
Fixpoint dropSlashes (s : str) : str :=
  match s with c :: r => if N.eqb c cSlash then dropSlashes r else s | [] => [] end.
Definition titleFor (pathname : str) : str :=
  let p := rev (dropSlashes (rev pathname)) in
  if streq p (js "/app") || isEmpty p then js "Dashboard" else
  match findb (λ t : string * string, includes (js t.1) p) titles with
  | Some t => js t.2 | None => js "Dashboard"
  end.
Definition pageTitle (pathname : str) : str :=
  if streq pathname (js "/system") then js "Platform overview"
  else if startsWith (js "/system/organizations/") pathname then js "Organization details"
  else if startsWith (js "/system/organizations") pathname then js "Organizations"
  else if startsWith (js "/system/audit") pathname then js "Platform audit"
  else if startsWith (js "/system/account") pathname then js "Account & Security"
  else js "Platform administration".

(** ** Where a sign-in goes (AuthPage.tsx, TemporaryPasswordChange.tsx, CustomerAccount.tsx) *)

Definition safeRequestedDestination (requested : option str) : option str :=
  match requested with
  | Some d => if truthy d && startsWith [cSlash] d && negb (startsWith (js "//") d) then Some d else None
  | None => None
  end.
Definition isWithin (path prefix : str) : bool :=
  streq path prefix || startsWith (prefix ++ [cSlash]) path || startsWith (prefix ++ [63%N]) path.
Definition sessionEnrollment (session : AuthSession) : bool :=
  default false (usr_mfaEnrollmentRequired (sess_user session)).
Definition destinationFor (session : AuthSession) (requested : option str) : str :=
  match sess_platformAccess session with
  | None =>
    if sessionEnrollment session then js "/app/account" else
    match safeRequestedDestination requested with
    | Some d => if isWithin d (js "/app") || isWithin d (js "/capture") then d else js "/app"
    | None => js "/app"
    end
  | Some p =>
    let home := if enrollmentRequired p then js "/system/account" else js "/system" in
    match safeRequestedDestination requested with
    | Some d => if isWithin d (js "/system") then d else home
    | None => home
    end
  end.

(** [/^\/app(?:\/|\?|$)/] *)
Definition isAppPath (path : str) : bool :=
  startsWith (js "/app/") path || startsWith (js "/app?") path || streq path (js "/app").
(** After a temporary password was changed. *)
Definition passwordDestination (session : AuthSession) (requested : option str) : str :=
  match sess_platformAccess session with
  | Some p => if enrollmentRequired p then js "/system/account" else js "/system"
  | None =>
    if negb (usr_mfaEnabled (sess_user session)) then js "/app/account?setup=authenticator"
    else if sessionEnrollment session then js "/app/account"
    else match requested with Some d => if isAppPath d then d else js "/app" | None => js "/app" end
  end.
(** After the guided authenticator setup. *)
Definition finishSetup (requested : option str) : str :=
  match requested with
  | Some d => if isAppPath d && negb (startsWith (js "/app/account") d) then d else js "/app"
  | None => js "/app"
  end.

(** ** Lemmas: what each guard lets through *)

Definition signedIn (v : View) : Prop := v_status v = authenticated ∧ v_challenge v = None.
#[export] Instance signedIn_dec v : Decision (signedIn v).
Proof. unfold signedIn. destruct (v_challenge v); [right; naive_solver|]. solve_decision. Defined.

Lemma protected_shows v permission denied children page :
  ProtectedRoute v permission denied children = shows page →
  signedIn v ∧ children = shows page ∧ (∀ p, permission = Some p → can p v = true).
Proof.
  unfold ProtectedRoute, signedIn. destruct (v_status v) eqn:Es; try done;
    case_bool_decide as Hc; try done; case_bool_decide as Ha; try done.
  assert (v_challenge v = None) by (destruct (v_challenge v); [by destruct Hc|done]).
  destruct permission as [p|]; [|by intros ->].
  destruct (can p v) eqn:Ep; [|done]. intros ->. split_and!; try done. by intros ? [= <-].
Qed.

Lemma secure_shows v p page page' : SecureScreen v p page = shows page' →
  page' = page ∧ can (js p) v = true.
Proof. intros (_ & [= ->] & Hp)%protected_shows. split; [done|by apply Hp]. Qed.

Lemma customer_shows v children page : CustomerRoute v children = shows page →
  signedIn v ∧ v_platformAccess v = None ∧ userEnrollmentRequired v = false ∧ children = shows page.
Proof.
  intros (Hs & Hc & _)%protected_shows. destruct (v_platformAccess v); [done|].
  destruct (userEnrollmentRequired v); [done|]. done.
Qed.

Lemma platform_shows v permission allow children page :
  PlatformRoute v permission allow children = shows page →
  signedIn v ∧ (∃ p, v_platformAccess v = Some p ∧ (enrollmentRequired p = true → allow = true)) ∧
  (∀ perm, permission = Some perm → can perm v = true) ∧ children = shows page.
Proof.
  intros (Hs & Hc & _)%protected_shows. unfold PlatformAuthorization in Hc.
  destruct (v_platformAccess v) as [p|]; [|done].
  destruct (enrollmentRequired p && negb allow) eqn:Ee; [done|].
  assert (He : enrollmentRequired p = true → allow = true).
  { intros Hp. rewrite Hp in Ee. by destruct allow. }
  split; [done|]. destruct permission as [perm|].
  - destruct (can perm v) eqn:Ec; [|done]. split_and!; [eauto|by intros ? [= <-]|done].
  - split_and!; [eauto|done|done].
Qed.

Lemma loader_shows loader children page : AppLoader loader children = shows page → children = shows page.
Proof. by destruct loader. Qed.

Lemma switch_shows matches routes fallback v path page : (∀ p, fallback ≠ shows p) →
  switch matches routes fallback v path = shows page → ∃ r, r ∈ routes ∧ r.2 v = shows page.
Proof.
  intros Hf. unfold switch. destruct (findb _ routes) as [r|] eqn:E; [|intros H; by apply Hf in H].
  apply findb_Some in E as [Hin _]. eauto.
Qed.

(** ** Who may see a page *)

(** The access each page is meant to have, stated apart from the routes. *)
Inductive Access :=
| a_public                       (** anyone *)
| a_signIn                       (** nobody signed in *)
| a_member (permission : option string)  (** a customer's member, with a permission *)
| a_account                      (** a customer's member, an authenticator still to be set up *)
| a_platform (permission : option string) (enrolling : bool). (** a platform administrator *)
Definition pageAccess (page : Page) : Access :=
  match page with
  | Landing | TemporaryPasswordChange | EmailVerification | ForgotPassword | ResetPassword
  | InvitationAccept | OrganizationJoinVerification | OrganizationJoin | AgencyReadingPage => a_public
  | AuthPageLogin | AuthPageRegister => a_signIn
  | ActivityDashboard | VariationInvoices | VoyageDeclaration | VoyageAgencies | VoyageReadings
  | VoyageReconciliation | VariationInvoice | MeasurementDetail | Measurements =>
      a_member (Some "measurements.view"%string)
  | VesselProfile | Vessels => a_member (Some "calls.view"%string)
  | NewMeasurement => a_member (Some "measurements.manage"%string)
  | NewInspection | MobileApp => a_member (Some "inspections.manage"%string)
  | Analytics => a_member (Some "analytics.view"%string)
  | UserManagement => a_member (Some "users.view"%string)
  | TariffSettings | AgencyDirectory | Settings => a_member (Some "settings.view"%string)
  | Dashboard | VesselCallDetail | VesselCalls | Inspections | Invoices => a_member None
  | CustomerAccount => a_account
  | SystemOverview | SystemOrganizationDetail | SystemOrganizations =>
      a_platform (Some "platform.organizations.view"%string) false
  | SystemAudit => a_platform (Some "platform.audit.view"%string) false
  | SystemAccount => a_platform None true
  end.
Definition permitted (permission : option string) (v : View) : Prop :=
  match permission with Some p => can (js p) v = true | None => True end.
Definition allowed (access : Access) (v : View) : Prop :=
  match access with
  | a_public => True
  | a_signIn => v_status v ≠ authenticated ∧ v_challenge v = None
  | a_member permission => signedIn v ∧ v_platformAccess v = None ∧ userEnrollmentRequired v = false
      ∧ permitted permission v
  | a_account => signedIn v ∧ v_platformAccess v = None
  | a_platform permission enrolling => signedIn v ∧ permitted permission v ∧
      ∃ p, v_platformAccess v = Some p ∧ (enrollmentRequired p = true → enrolling = true)
  end.

Ltac each_route H :=
  repeat (apply elem_of_cons in H as [->|H]); [..|by apply elem_of_nil in H].

Lemma workspace_allowed v r page : r ∈ workspaceRoutes → r.2 v = shows page →
  ∃ permission, pageAccess page = a_member permission ∧ permitted permission v.
Proof.
  intros Hin. unfold workspaceRoutes in Hin. each_route Hin; cbn [snd secure open_].
  1: { unfold WorkspaceHome. cbn [negb SHOW_SECONDARY_WORKFLOW_UI].
       destruct (can _ v); [done|]. destruct (can _ v); [done|]. destruct (can _ v); [done|].
       intros [= <-]. by exists None. }
  all: first [intros (-> & Hp)%secure_shows; by eexists (Some _) | intros [= <-]; by exists None].
Qed.

Lemma system_allowed v r page : r ∈ systemRoutes → r.2 v = shows page → allowed (pageAccess page) v.
Proof.
  intros Hin. unfold systemRoutes in Hin. each_route Hin; cbn [snd platform];
    intros (Hs & (p & Hp & He) & Hperm & [= <-])%platform_shows; (split; [done|]);
    (split; [first [done|by apply Hperm]|eauto]).
Qed.

(** C28. Whatever the path, the router and the loading of the workspace, a page is only shown
    to someone it is meant for: a member's page to a signed-in member who holds its
    permission and has no authenticator still to enrol, a platform page to a platform
    administrator, the sign-in pages to nobody already signed in; and no member's or
    platform page while a temporary password must be changed. *)
Theorem shown_page_allowed (matches : str → str → bool) (loader : LoaderState) (v : View)
    (path : str) (page : Page) (Hshown : App matches loader v path = shows page) :
  allowed (pageAccess page) v.
Proof.
  unfold App in Hshown. apply switch_shows in Hshown as (r & Hin & Hr); [|done].
  unfold appRoutes in Hin. each_route Hin; cbn [snd open_] in Hr; try (by injection Hr as <-).
  all: match type of Hr with
  | PublicAuthRoute _ _ = _ =>
      unfold PublicAuthRoute in Hr; case_bool_decide as Hc; [done|]; case_bool_decide as Ha; [done|];
      injection Hr as <-; (split; [done|]); destruct (v_challenge v); [by destruct Hc|done]
  | Capture _ _ = _ =>
      apply customer_shows in Hr as (H1 & H2 & H3 & Hr); apply protected_shows in Hr as (_ & Hr & Hp);
      apply loader_shows in Hr; injection Hr as <-; split_and!; try done; by apply Hp
  | AccountWorkspace _ = _ =>
      apply protected_shows in Hr as (H1 & Hr & _); destruct (v_platformAccess v) eqn:Ep; [done|];
      injection Hr as <-; by split
  | SystemWorkspace _ _ _ = _ =>
      apply platform_shows in Hr as (_ & _ & _ & Hr); apply switch_shows in Hr as (r & Hin' & Hr); [|done];
      by eapply system_allowed
  | Workspace _ _ _ _ = _ =>
      apply customer_shows in Hr as (H1 & H2 & H3 & Hr); apply loader_shows in Hr;
      apply switch_shows in Hr as (r & Hin' & Hr); [|done];
      destruct (workspace_allowed v r page Hin' Hr) as (perm & -> & Hp); by split_and!
  end.
Qed.

(** ** Redirections end *)

(** The paths the application navigates to by itself and lists in its navigation. *)
Definition DESTINATIONS : list str :=
  map js ["/"; "/login"; "/change-temporary-password"; "/app"; "/app/account"; "/app/dashboard";
    "/app/vessel-calls"; "/app/settings/agencies"; "/system"; "/system/account"]%string.
Definition NAMED_PATHS : list str :=
  DESTINATIONS ++ map nav_to NAV_ITEMS ++ map fst NAVIGATION.

(** The patterns it routes by. *)
Definition routePatterns : list str :=
  map fst (workspaceRoutes ++ systemRoutes ++ appRoutes (λ _ _, false) ld_loading []).

(** The library's matcher agrees with the segment-by-segment one on those patterns and paths. *)
Definition routerLaw (matches : str → str → bool) : Prop :=
  ∀ pattern path, pattern ∈ routePatterns → path ∈ NAMED_PATHS →
    matches pattern path = patternMatches pattern path.

(** Membership of a literal path in a literal list. *)
Lemma listed p paths : existsb (streq p) paths = true → p ∈ paths.
Proof.
  intros (q & Hin & Heq)%existsb_exists. apply streq_true in Heq as ->. by apply list_elem_of_In.
Qed.
Ltac destination := apply listed; vm_compute; reflexivity.

(** The library's matcher takes [q] as the segment-by-segment one takes [path]. *)
Definition answeredAs (matches : str → str → bool) (q path : str) : Prop :=
  ∀ pattern, pattern ∈ routePatterns → matches pattern q = patternMatches pattern path.
(** The library's matcher is the segment-by-segment one at [path]. *)
Definition agreesAt (matches : str → str → bool) (path : str) : Prop := answeredAs matches path path.
Lemma routerLaw_at matches path : routerLaw matches → path ∈ NAMED_PATHS → agreesAt matches path.
Proof. intros Hl Hp pattern Hin. by apply Hl. Qed.

Section Redirections.
Context (matches : str → str → bool) (law : routerLaw matches) (loader : LoaderState) (v : View).

Definition sameRoute (r r' : Route) : Prop := r.1 = r'.1 ∧ r.2 v = r'.2 v ∧ r.1 ∈ routePatterns.
Lemma switch_law routes routes' fallback q path : answeredAs matches q path → Forall2 sameRoute routes routes' →
  switch matches routes fallback v q = switch patternMatches routes' fallback v path.
Proof.
  intros Hp Hr. unfold switch. induction Hr as [|r r' routes routes' (H1 & H2 & H3) _ IH]; [done|].
  simpl. rewrite (Hp _ H3), H1. by destruct (patternMatches _ _).
Qed.

Lemma same_routes (routes : list Route) : (∀ r, r ∈ routes → r.1 ∈ routePatterns) →
  Forall2 sameRoute routes routes.
Proof.
  intros Hin. apply Forall_Forall2_diag, Forall_forall. intros r Hr. split_and!; [done|done|by apply Hin].
Qed.

(** A path the router answers like another. *)
Lemma App_as q path : answeredAs matches q path → App matches loader v q = App patternMatches loader v path.
Proof.
  intros Hp. apply switch_law; [done|].
  assert (Hin : ∀ routes, routes = workspaceRoutes ∨ routes = systemRoutes →
    ∀ r, r ∈ routes → r.1 ∈ routePatterns).
  { intros routes Hr r Hin. unfold routePatterns. apply list_elem_of_fmap_2.
    rewrite !elem_of_app. destruct Hr as [-> | ->]; auto. }
  assert (Hw : Workspace matches loader q v = Workspace patternMatches loader path v).
  { unfold Workspace, WorkspaceRoutes. by rewrite (switch_law _ _ _ _ _ Hp (same_routes _ (Hin _ (or_introl eq_refl)))). }
  assert (Hs : SystemWorkspace matches q v = SystemWorkspace patternMatches path v).
  { unfold SystemWorkspace, SystemRoutes. by rewrite (switch_law _ _ _ _ _ Hp (same_routes _ (Hin _ (or_intror eq_refl)))). }
  assert (Hpat : ∀ r, r ∈ appRoutes matches loader q → r.1 ∈ routePatterns).
  { intros r Hr. unfold routePatterns. rewrite !map_app, !elem_of_app. do 2 right.
    apply (list_elem_of_fmap_2 fst) in Hr. exact Hr. }
  apply Forall2_same_length_lookup_2; [done|]. intros i r r' Hr Hr'.
  pose proof (Hpat r (list_elem_of_lookup_2 _ _ _ Hr)) as Hin'. unfold sameRoute.
  do 17 (destruct i as [|i]; [injection Hr as <-; injection Hr' as <-; split_and!; [done|auto|exact Hin']|]).
  done.
Qed.
Lemma App_at path : agreesAt matches path → App matches loader v path = App patternMatches loader v path.
Proof. apply App_as. Qed.
Lemma App_law path : path ∈ NAMED_PATHS → App matches loader v path = App patternMatches loader v path.
Proof. intros Hp. by apply App_at, routerLaw_at. Qed.

(** Where any screen may redirect to. *)
Lemma homePath_destination : homePath v ∈ DESTINATIONS.
Proof.
  unfold homePath. destruct (v_platformAccess v) as [p|]; [destruct (default _ _); destination|].
  destruct (v_user v) as [u|]; [destruct (default _ _)|]; destination.
Qed.

Definition lands (screen : Screen) : Prop := ∀ to, screen = redirects to → to ∈ DESTINATIONS.
Lemma lands_shows page : lands (shows page). Proof. done. Qed.
Lemma lands_to path : path ∈ DESTINATIONS → lands (redirects path).
Proof. by intros Hp to [= <-]. Qed.
Lemma lands_protected permission denied children : denied ∈ DESTINATIONS → lands children →
  lands (ProtectedRoute v permission denied children).
Proof.
  intros Hd Hc. unfold ProtectedRoute. destruct (v_status v); try done;
    (case_bool_decide; [by apply lands_to; apply (bool_decide_unpack _); vm_compute|]);
    (case_bool_decide; [by apply lands_to; apply (bool_decide_unpack _); vm_compute|]);
    (destruct permission as [p|]; [destruct (can p v); [done|by apply lands_to]|done]).
Qed.
Lemma lands_loader children : lands children → lands (AppLoader loader children).
Proof. by destruct loader. Qed.
Lemma lands_switch m routes fallback path : (∀ r, r ∈ routes → lands (r.2 v)) → lands fallback →
  lands (switch m routes fallback v path).
Proof.
  intros Hr Hf. unfold switch. destruct (findb _ routes) as [r|] eqn:E; [|done].
  apply findb_Some in E as [Hin _]. by apply Hr.
Qed.
Lemma lands_workspace m path : lands (WorkspaceRoutes m v path).
Proof.
  apply lands_switch; [|apply lands_to; destination]. intros r Hin. unfold workspaceRoutes in Hin.
  each_route Hin; cbn [snd secure open_]; try apply lands_shows;
    try (apply lands_protected; [destination|apply lands_shows]).
  unfold WorkspaceHome. cbn [negb SHOW_SECONDARY_WORKFLOW_UI].
  repeat (destruct (can _ v); [apply lands_to; destination|]). apply lands_shows.
Qed.
Lemma lands_platform permission allow children : lands children →
  lands (PlatformRoute v permission allow children).
Proof.
  intros Hc. apply lands_protected; [destination|]. unfold PlatformAuthorization.
  destruct (v_platformAccess v) as [pa|]; [|apply lands_to; destination].
  destruct (_ && _); [apply lands_to; destination|].
  destruct permission as [perm|]; [destruct (can perm v)|]; try done. apply lands_to; destination.
Qed.
Lemma lands_customer children : lands children → lands (CustomerRoute v children).
Proof.
  intros Hc. apply lands_protected; [destination|]. destruct (v_platformAccess v);
    [apply lands_to, homePath_destination|]. destruct (userEnrollmentRequired v); [|done].
  apply lands_to; destination.
Qed.
Lemma lands_system m path : lands (SystemRoutes m v path).
Proof.
  apply lands_switch; [|apply lands_to; destination]. intros r Hin. unfold systemRoutes in Hin.
  each_route Hin; cbn [snd platform]; apply lands_platform, lands_shows.
Qed.
Lemma lands_App m path : lands (App m loader v path).
Proof.
  apply lands_switch; [|apply lands_to; destination]. intros r Hin. unfold appRoutes in Hin.
  each_route Hin; cbn [snd open_]; try apply lands_shows.
  all: try (unfold PublicAuthRoute; (case_bool_decide; [apply lands_to; destination|]);
    (case_bool_decide; [apply lands_to, homePath_destination|]); apply lands_shows).
  - apply lands_customer, lands_protected; [destination|]. apply lands_loader, lands_shows.
  - apply lands_platform, lands_system.
  - apply lands_platform, lands_system.
  - apply lands_protected; [destination|]. destruct (v_platformAccess v);
      [apply lands_to, homePath_destination|apply lands_shows].
  - apply lands_customer, lands_loader, lands_workspace.
  - apply lands_customer, lands_loader, lands_workspace.
Qed.
(** What the destinations lead to. *)
Lemma App_destinations :
  App patternMatches loader v (js "/") = shows Landing ∧
  App patternMatches loader v (js "/login") = PublicAuthRoute v (shows AuthPageLogin) ∧
  App patternMatches loader v (js "/change-temporary-password") = shows TemporaryPasswordChange ∧
  App patternMatches loader v (js "/app") = CustomerRoute v (AppLoader loader (WorkspaceHome v)) ∧
  App patternMatches loader v (js "/app/account") = AccountWorkspace v ∧
  App patternMatches loader v (js "/app/dashboard") =
    CustomerRoute v (AppLoader loader (SecureScreen v "measurements.view" ActivityDashboard)) ∧
  App patternMatches loader v (js "/app/vessel-calls") = CustomerRoute v (AppLoader loader (shows VesselCalls)) ∧
  App patternMatches loader v (js "/app/settings/agencies") =
    CustomerRoute v (AppLoader loader (SecureScreen v "settings.view" AgencyDirectory)) ∧
  App patternMatches loader v (js "/system") =
    PlatformRoute v None true (PlatformRoute v (Some (js "platform.organizations.view")) false (shows SystemOverview)) ∧
  App patternMatches loader v (js "/system/account") =
    PlatformRoute v None true (PlatformRoute v None true (shows SystemAccount)).
Proof. split_and!; reflexivity. Qed.

(** [path] leads to a page or a notice after at most [n] redirections. *)
Definition halts (n : nat) (path : str) : Prop :=
  ∀ to, follow patternMatches n loader v path ≠ redirects to.
Lemma halts_step n path : 
  match App patternMatches loader v path with
  | redirects to => match n with S m => halts m to | O => False end
  | _ => True
  end → halts n path.
Proof.
  unfold halts. destruct n as [|n]; cbn [follow];
    by destruct (App patternMatches loader v path) as [| | | | |].
Qed.

Lemma protected_away permission denied children : ¬ signedIn v →
  (∃ to, ProtectedRoute v permission denied children = redirects to ∧
     (to = js "/change-temporary-password" ∨ to = js "/login")) ∨
  match ProtectedRoute v permission denied children with redirects _ => False | _ => True end.
Proof.
  unfold signedIn, ProtectedRoute. intros Hs. destruct (v_status v) eqn:Es; [by right| | |by right].
  all: case_bool_decide as Hc; [left; eauto|]; case_bool_decide as Ha; [left; eauto|].
  all: exfalso; try done. apply Hs. split; [done|]. destruct (v_challenge v); [by destruct Hc|done].
Qed.
Lemma protected_in permission denied children : signedIn v →
  ProtectedRoute v permission denied children =
    match permission with Some p => if can p v then children else redirects denied | None => children end.
Proof. intros [Hs Hc]. unfold ProtectedRoute. by rewrite Hs, Hc. Qed.

(** One step of [halts] at a destination, its screen unfolded down to its guard. *)
Ltac arrive :=
  apply halts_step;
  destruct App_destinations as (E1 & E2 & E3 & E4 & E5 & E6 & E7 & E8 & E9 & E10);
  match goal with E : App _ _ _ ?p = _ |- context [App _ _ _ ?p] => rewrite E end;
  clear E1 E2 E3 E4 E5 E6 E7 E8 E9 E10;
  unfold CustomerRoute, AccountWorkspace, PlatformRoute, SecureScreen.
Ltac guarded Hin := rewrite !(protected_in _ _ _ Hin); unfold PlatformAuthorization.

Lemma halts_open n path : path = js "/" ∨ path = js "/change-temporary-password" → halts n path.
Proof.
  intros [-> | ->]; apply halts_step; destruct App_destinations as (E1 & _ & E3 & _);
    [rewrite E1|rewrite E3]; exact I.
Qed.
Lemma halts_login_away n : ¬ signedIn v → halts (S n) (js "/login").
Proof.
  intros Hs. arrive. unfold PublicAuthRoute. case_bool_decide as Hc; [apply halts_open; by right|].
  case_bool_decide as Ha; [|done]. exfalso. apply Hs. split; [done|].
  destruct (v_challenge v); [by destruct Hc|done].
Qed.
Lemma halts_away path n : ¬ signedIn v → path ∈ DESTINATIONS → halts (S (S n)) path.
Proof.
  intros Hs Hp. unfold DESTINATIONS in Hp. cbn [map] in Hp. 
  repeat (apply elem_of_cons in Hp as [->|Hp]); [..|by apply elem_of_nil in Hp].
  1,3: apply halts_open; by auto.
  1: by apply halts_login_away.
  all: arrive; edestruct protected_away as [(to & -> & [-> | ->])|Ht]; [exact Hs|..|
    by revert Ht; case ProtectedRoute];
    [apply halts_open; by auto|by apply halts_login_away].
Qed.

(** A signed-in platform administrator. *)
Lemma halts_platform path n p : signedIn v → v_platformAccess v = Some p →
  can (js "platform.organizations.view") v = true → path ∈ DESTINATIONS → halts (S n) path.
Proof.
  intros Hs Hpa Hcan Hp.
  assert (Hacc : ∀ m, halts m (js "/system/account")).
  { intros m. arrive. guarded Hs. rewrite Hpa. cbn [negb]. by rewrite !andb_false_r. }
  assert (Hsys : enrollmentRequired p = false → ∀ m, halts m (js "/system")).
  { intros He m. arrive. guarded Hs. rewrite Hpa, He, Hcan. done. }
  assert (Hhome : ∀ m, halts m (homePath v)).
  { intros m. unfold homePath. rewrite Hpa. fold (enrollmentRequired p).
    destruct (enrollmentRequired p) eqn:He; [apply Hacc|by apply Hsys]. }
  unfold DESTINATIONS in Hp. cbn [map] in Hp.
  repeat (apply elem_of_cons in Hp as [->|Hp]); [..|by apply elem_of_nil in Hp].
  1,3: apply halts_open; by auto.
  - arrive. unfold PublicAuthRoute. destruct Hs as [-> ->]. cbn. apply Hhome.
  - arrive. guarded Hs. rewrite Hpa. apply Hhome.
  - arrive. guarded Hs. rewrite Hpa. apply Hhome.
  - arrive. guarded Hs. rewrite Hpa. apply Hhome.
  - arrive. guarded Hs. rewrite Hpa. apply Hhome.
  - arrive. guarded Hs. rewrite Hpa. apply Hhome.
  - destruct (enrollmentRequired p) eqn:He; [|by apply Hsys].
    arrive. guarded Hs. rewrite Hpa, He. apply Hacc.
  - apply Hacc.
Qed.

(** A signed-in member of an organization. *)
Lemma halts_account n : signedIn v → v_platformAccess v = None → halts n (js "/app/account").
Proof. intros Hs Hpa. arrive. guarded Hs. by rewrite Hpa. Qed.

(** [/app] and the first page it leads to. *)
Lemma halts_home n : signedIn v → v_platformAccess v = None → halts (S n) (js "/app").
Proof.
  intros Hs Hpa. arrive. guarded Hs. rewrite Hpa.
  destruct (userEnrollmentRequired v) eqn:He; [by apply halts_account|].
  destruct loader eqn:El; [done|done|]. cbn [AppLoader]. unfold WorkspaceHome. cbn [negb SHOW_SECONDARY_WORKFLOW_UI].
  destruct (can (js "measurements.view") v) eqn:C1;
    [|destruct (can (js "calls.view") v) eqn:C2;
      [|destruct (can (js "settings.view") v) eqn:C3; [|done]]].
  all: arrive; guarded Hs; rewrite Hpa, He, El; cbn [AppLoader];
    by rewrite ?(protected_in _ _ _ Hs), ?C1, ?C3.
Qed.

Lemma halts_member path n : signedIn v → v_platformAccess v = None → path ∈ DESTINATIONS →
  halts (S (S n)) path.
Proof.
  intros Hs Hpa Hp. pose proof (λ m, halts_account m Hs Hpa) as Hacc.
  pose proof (halts_home n Hs Hpa) as Hhome.
  unfold DESTINATIONS in Hp. cbn [map] in Hp.
  repeat (apply elem_of_cons in Hp as [->|Hp]); [..|by apply elem_of_nil in Hp].
  1,3: apply halts_open; by auto.
  - arrive. unfold PublicAuthRoute. destruct Hs as [-> ->]. cbn [bool_decide]. unfold homePath.
    rewrite Hpa. destruct (v_user v) as [u|]; [destruct (default _ _)|]; [apply Hacc|apply Hhome..].
  - by apply halts_home.
  - apply Hacc.
  - arrive. guarded Hs. rewrite Hpa. destruct (userEnrollmentRequired v); [apply Hacc|].
    destruct loader; [done|done|]. cbn [AppLoader]. destruct (can _ v); [done|by apply Hhome].
  - arrive. guarded Hs. rewrite Hpa. destruct (userEnrollmentRequired v); [apply Hacc|]. by destruct loader.
  - arrive. guarded Hs. rewrite Hpa. destruct (userEnrollmentRequired v); [apply Hacc|].
    destruct loader; [done|done|]. cbn [AppLoader]. destruct (can _ v); [done|by apply Hhome].
  - arrive. guarded Hs. rewrite Hpa. apply Hhome.
  - arrive. guarded Hs. rewrite Hpa. apply Hhome.
Qed.

Lemma destination_named path : path ∈ DESTINATIONS → path ∈ NAMED_PATHS.
Proof. intros Hp. unfold NAMED_PATHS. by apply elem_of_app; left. Qed.
Lemma follow_law n path : path ∈ DESTINATIONS →
  follow matches n loader v path = follow patternMatches n loader v path.
Proof.
  revert path. induction n as [|n IH]; intros path Hp; cbn [follow];
    rewrite (App_law _ (destination_named _ Hp)); [done|].
  destruct (App patternMatches loader v path) eqn:E; try done. apply IH. by eapply lands_App.
Qed.
Lemma halts_destination path :
  (∀ p, v_platformAccess v = Some p → can (js "platform.organizations.view") v = true) →
  path ∈ DESTINATIONS → halts 2 path.
Proof.
  intros Hplatform Hp. destruct (decide (signedIn v)) as [Hs|Hs]; [|by apply halts_away].
  destruct (v_platformAccess v) as [p|] eqn:Hpa; [by eapply halts_platform; [..|by apply (Hplatform p)|]|].
  by apply halts_member.
Qed.
End Redirections.

Lemma follow_S matches n loader v path : follow matches (S n) loader v path =
  match App matches loader v path with
  | redirects to => follow matches n loader v to | screen => screen
  end.
Proof. cbn [follow]. by destruct (App matches loader v path). Qed.

(** C29. Redirections end: whatever the session, the state of the workspace and the path, after
    at most three of them there is a page or a notice.  A platform administrator is granted
    [platform.organizations.view] with every role (backend/accounts/platform_access.py). *)
Theorem redirects_end (matches : str → str → bool) (loader : LoaderState) (v : View) (path : str)
    (Hrouter : routerLaw matches)
    (Hplatform : ∀ p, v_platformAccess v = Some p → can (js "platform.organizations.view") v = true) :
  ∀ to, follow matches 3 loader v path ≠ redirects to.
Proof.
  intros to. rewrite follow_S. destruct (App matches loader v path) as [|to'| | | |] eqn:E; try done.
  assert (Hto : to' ∈ DESTINATIONS) by by eapply lands_App.
  rewrite (follow_law matches Hrouter loader v 2 to' Hto). by apply halts_destination.
Qed.

(** ** The sidebar *)

(** Each entry's page, stated apart from the routes. *)
Definition itemPage (item : NavItem) : Page :=
  let k := nav_key item in
  if streq k (js "dashboard") then ActivityDashboard else if streq k (js "voyages") then Measurements
  else if streq k (js "vessels") then Vessels else if streq k (js "variation-invoices") then VariationInvoices
  else if streq k (js "vessel-calls") then VesselCalls else if streq k (js "inspections") then Inspections
  else if streq k (js "invoices") then Invoices else if streq k (js "agencies") then AgencyDirectory
  else if streq k (js "users") then UserManagement else if streq k (js "tariffs") then TariffSettings
  else if streq k (js "analytics") then Analytics else Settings.

(** A route of the workspace, from its guard. *)
Lemma member_screen matches loader v path permission page : routerLaw matches → path ∈ NAMED_PATHS →
  signedIn v → v_platformAccess v = None → userEnrollmentRequired v = false → loader = ld_ready →
  App patternMatches ld_ready v path = CustomerRoute v (match permission with
     | Some p => SecureScreen v p page | None => shows page end) →
  permitted permission v → App matches loader v path = shows page.
Proof.
  intros Hlaw Hp Hs Hpa He -> Happ Hperm. rewrite App_law by done. rewrite Happ.
  unfold CustomerRoute, SecureScreen. rewrite !(protected_in _ _ _ _ Hs), Hpa, He.
  destruct permission as [p|]; [|done]. rewrite (protected_in _ _ _ _ Hs). by rewrite Hperm.
Qed.

Lemma nav_named item : item ∈ NAV_ITEMS → nav_to item ∈ NAMED_PATHS.
Proof.
  intros Hin. unfold NAMED_PATHS. apply elem_of_app; right. apply elem_of_app; left.
  by apply list_elem_of_fmap_2.
Qed.

Lemma nav_page v item : item ∈ NAV_ITEMS →
  ∃ permission, App patternMatches ld_ready v (nav_to item) = CustomerRoute v (match permission with
     | Some p => SecureScreen v p (itemPage item) | None => shows (itemPage item) end) ∧
   match permission with
   | Some p => Some (js p) = nav_permission item ∨
       (nav_permission item = Some (js "measurements.bill") ∧ p = "settings.view"%string)
   | None => True
   end.
Proof.
  intros Hin. unfold NAV_ITEMS in Hin. each_route Hin.
  5-7: exists None; split; [reflexivity|done].
  7: exists (Some "settings.view"%string); split; [reflexivity|by right].
  all: eexists (Some _); split; [reflexivity|by left].
Qed.

Lemma nav_active item other : item ∈ NAV_ITEMS → other ∈ NAV_ITEMS →
  isActive (nav_end other) (nav_to other) (nav_to item) = bool_decide (other = item).
Proof.
  assert (Hall : forallb (λ i, forallb (λ o, Bool.eqb (isActive (nav_end o) (nav_to o) (nav_to i))
    (bool_decide (o = i))) NAV_ITEMS) NAV_ITEMS = true) by (vm_compute; reflexivity).
  rewrite !list_elem_of_In. intros Hin Hother. rewrite forallb_forall in Hall.
  specialize (Hall _ Hin). rewrite forallb_forall in Hall. by apply Bool.eqb_prop, Hall.
Qed.

(** Every entry of the sidebar leads a member to its own page, whose title in the top bar
    is the entry's label, and there that entry and no other is marked as the current one.  The
    variation tariff is listed for [measurements.bill] but opened with [settings.view]. *)
Theorem sidebar_links_open (matches : str → str → bool) (v : View) (item : NavItem)
    (Hrouter : routerLaw matches) (Hsigned : signedIn v) (Hmember : v_platformAccess v = None)
    (Henrolled : userEnrollmentRequired v = false)
    (Hbilling : can (js "measurements.bill") v = true → can (js "settings.view") v = true)
    (Hitem : item ∈ sidebarItems v) :
  App matches ld_ready v (nav_to item) = shows (itemPage item) ∧
  titleFor (nav_to item) = nav_label item ∧
  (∀ other, other ∈ NAV_ITEMS →
     isActive (nav_end other) (nav_to other) (nav_to item) = true ↔ other = item).
Proof.
  apply elem_of_filterb in Hitem as [Hin Hvisible]. split_and!.
  - destruct (nav_page v item Hin) as (permission & Happ & Hperm).
    apply (member_screen matches ld_ready v _ permission _ Hrouter (nav_named _ Hin)); try done.
    unfold visibleItem in Hvisible. apply andb_true_iff in Hvisible as [_ Hcan].
    destruct permission as [p|]; [|done]. simpl. destruct Hperm as [Heq|[Heq ->]].
    + by rewrite <- Heq in Hcan.
    + rewrite Heq in Hcan. by apply Hbilling.
  - clear Hvisible. unfold NAV_ITEMS in Hin. each_route Hin; reflexivity.
  - intros other Hother. rewrite (nav_active item other Hin Hother). apply bool_decide_eq_true.
Qed.

(** ** Where a sign-in goes *)

Lemma within_local path prefix : startsWith (js "//") prefix = false → (1 < length prefix)%nat →
  isWithin path prefix = true → startsWith (js "//") path = false.
Proof.
  intros Hp Hl. unfold isWithin. destruct prefix as [|c [|d prefix]]; simpl in Hl; try lia.
  destruct path as [|c' path]; [done|]. destruct path as [|d' path]; [intros _; apply andb_false_r|].
  cbn in Hp |- *. intros Hw. assert (c = c' ∧ d = d') as [<- <-]; [|done].
  apply orb_true_iff in Hw as [[Hw|Hw]%orb_true_iff|Hw].
  - by apply streq_true in Hw as [= <- <- <-].
  - by apply andb_true_iff in Hw as [->%N.eqb_eq [->%N.eqb_eq _]%andb_true_iff].
  - by apply andb_true_iff in Hw as [->%N.eqb_eq [->%N.eqb_eq _]%andb_true_iff].
Qed.

Lemma safe_requested requested d : safeRequestedDestination requested = Some d → requested = Some d.
Proof. destruct requested as [r|]; [|done]. cbn [safeRequestedDestination]. by destruct (_ && _). Qed.
Lemma isAppPath_within d : isAppPath d = isWithin d (js "/app").
Proof.
  unfold isAppPath, isWithin. change (js "/app" ++ [cSlash]) with (js "/app/").
  change (js "/app" ++ [63%N]) with (js "/app?"). destruct (streq d (js "/app")); [|by rewrite orb_false_r].
  by rewrite orb_true_r.
Qed.

(** The part of the application a session may ask for. *)
Definition sessionArea (session : AuthSession) (d : str) : bool :=
  match sess_platformAccess session with
  | Some _ => isWithin d (js "/system")
  | None => isWithin d (js "/app") || isWithin d (js "/capture")
  end.

Lemma area_safe session d : sessionArea session d = true →
  startsWith (js "//") d = false ∧ safeRequestedDestination (Some d) = Some d.
Proof.
  intros Ha. assert (∃ p, p ∈ [js "/system"; js "/app"; js "/capture"] ∧ isWithin d p = true) as (p & Hp & Hw).
  { unfold sessionArea in Ha. destruct (sess_platformAccess session).
    - exists (js "/system"). split; [destination|done].
    - apply orb_true_iff in Ha as [Ha|Ha]; eexists; (split; [|exact Ha]); destination. }
  assert (Hl : startsWith (js "//") d = false).
  { repeat (apply elem_of_cons in Hp as [->|Hp]); [..|by apply elem_of_nil in Hp].
    all: revert Hw; apply within_local; [reflexivity|simpl; lia]. }
  split; [done|]. cbn [safeRequestedDestination]. rewrite Hl.
  assert (∃ q, p = cSlash :: q) as [q ->].
  { repeat (apply elem_of_cons in Hp as [->|Hp]); [..|by apply elem_of_nil in Hp]; by eexists. }
  destruct d as [|c d]; [done|]. unfold isWithin in Hw. cbn in Hw |- *.
  assert (c = cSlash) as ->; [|done].
  apply orb_true_iff in Hw as [[Hw|Hw]%orb_true_iff|Hw].
  - by apply streq_true in Hw as [= <- _].
  - destruct c as [|c]; [done|]. destruct (Pos.eqb_spec 47 c) as [<-|]; [done|done].
  - destruct c as [|c]; [done|]. destruct (Pos.eqb_spec 47 c) as [<-|]; [done|done].
Qed.

Lemma destination_area session requested : sessionArea session (destinationFor session requested) = true.
Proof.
  unfold destinationFor, sessionArea. destruct (sess_platformAccess session) as [p|].
  - destruct (safeRequestedDestination requested) as [d|]; [destruct (isWithin d _) eqn:Hw; [done|]|];
      by destruct (enrollmentRequired p).
  - destruct (sessionEnrollment session); [done|].
    destruct (safeRequestedDestination requested) as [d|]; [|done].
    by destruct (isWithin d (js "/app") || isWithin d (js "/capture")) eqn:Hw.
Qed.
Lemma password_area session requested : sessionArea session (passwordDestination session requested) = true.
Proof.
  unfold passwordDestination, sessionArea. destruct (sess_platformAccess session) as [p|].
  - by destruct (enrollmentRequired p).
  - destruct (negb _); [done|]. destruct (sessionEnrollment session); [done|].
    destruct requested as [d|]; [|done]. rewrite isAppPath_within.
    destruct (isWithin d (js "/app")) eqn:Hw; [by rewrite Hw|done].
Qed.
Lemma destination_asked session d : sessionArea session d = true →
  destinationFor session (Some d) =
    if bool_decide (sess_platformAccess session = None) && sessionEnrollment session
    then js "/app/account" else d.
Proof.
  intros Ha. destruct (area_safe session d Ha) as [_ Hsafe]. unfold destinationFor. rewrite Hsafe.
  unfold sessionArea in Ha. case_bool_decide as Hp; destruct (sess_platformAccess session); try done.
  - simpl. by rewrite Ha.
  - simpl. by rewrite Ha.
Qed.

(** C30. After a sign-in or a forced change of password the user lands on a path of the
    application itself, never on another host: in the platform's area for an administrator, in
    the workspace or the capture screen for a member.  A sign-in that asked for a page of that
    area lands there, unless a member must first enrol an authenticator; one that asked for
    nothing lands on the session's own home. *)
Theorem destination_safe {File : Type} (a : AuthContext.Auth (File := File)) (session : AuthSession)
    (requested : option str) :
  (∀ d, d ∈ [destinationFor session requested; passwordDestination session requested] →
     sessionArea session d = true ∧ startsWith (js "//") d = false) ∧
  (∀ d, requested = Some d → sessionArea session d = true → destinationFor session requested =
     if bool_decide (sess_platformAccess session = None) && sessionEnrollment session
     then js "/app/account" else d) ∧
  destinationFor session None = homePath (au_view (applySession session a)).
Proof.
  split_and!.
  - intros d Hd. assert (Ha : sessionArea session d = true).
    { apply elem_of_cons in Hd as [->|Hd]; [apply destination_area|].
      apply list_elem_of_singleton in Hd as ->. apply password_area. }
    split; [done|]. by apply (area_safe session).
  - intros d -> Ha. by apply destination_asked.
  - unfold destinationFor, homePath, applySession. cbn [au_view v_platformAccess v_user].
    destruct (sess_platformAccess session); done.
Qed.

(** ** Witnesses *)

Definition memberView (permissions : list str) : View :=
  mkView authenticated (Some sampleUser) (Some sampleOrganization) None permissions None false None.
Definition platformView (permissions : list str) : View :=
  mkView authenticated (Some sampleUser) None
    (Some (mkPlatformAccess SystemAdmin permissions None None None None None None None None))
    permissions None false None.
Definition sampleRouter : routerLaw patternMatches := λ pattern path _ _, eq_refl.

Lemma shown_page_allowed_witness : can (js "measurements.view") (memberView [js "measurements.view"]) = true.
Proof.
  pose proof (shown_page_allowed patternMatches ld_ready (memberView [js "measurements.view"])
    (js "/app/measurements/m-1") MeasurementDetail ltac:(vm_compute; reflexivity)) as (_ & _ & _ & Hp).
  exact Hp.
Defined.

Lemma redirects_end_witness :
  follow patternMatches 3 ld_ready (platformView [js "platform.organizations.view"]) (js "/app/users")
    ≠ redirects (js "/system").
Proof.
  apply (redirects_end patternMatches ld_ready (platformView [js "platform.organizations.view"])
    (js "/app/users") sampleRouter). intros p _. vm_compute. reflexivity.
Defined.

(** Without the permission every role is granted, the platform's home redirects to itself. *)
Example platform_home_needs_permission :
  App patternMatches ld_ready (platformView []) (js "/system") = redirects (js "/system").
Proof. vm_compute. reflexivity. Qed.

Definition sampleItem : NavItem :=
  navItem "variation-invoices" "Invoices" "/app/variation-invoices" nav_work false "measurements.view" false.
Lemma sidebar_links_open_witness :
  App patternMatches ld_ready (memberView [js "measurements.view"]) (nav_to sampleItem)
    = shows (itemPage sampleItem).
Proof.
  destruct (sidebar_links_open patternMatches (memberView [js "measurements.view"]) sampleItem
    sampleRouter (conj eq_refl eq_refl) eq_refl eq_refl ltac:(vm_compute; congruence)
    ltac:(apply elem_of_filterb; split; [apply list_elem_of_In; simpl; tauto|vm_compute; reflexivity]))
    as [Happ _]. exact Happ.
Defined.

(** A billing permission alone lists the variation tariff, which then opens the dashboard's way. *)
Example tariff_entry_denied :
  let v := memberView [js "measurements.view"; js "measurements.bill"] in
  existsb (λ item, streq (nav_key item) (js "tariffs")) (sidebarItems v) = true ∧
  App patternMatches ld_ready v (js "/app/settings/tariffs") = redirects (js "/app").
Proof. split; vm_compute; reflexivity. Qed.

Lemma destination_safe_witness :
  let session := sampleSession in let asked := js "/app/measurements?voyage=1" in
  destinationFor session (Some asked) =
    if bool_decide (sess_platformAccess session = None) && sessionEnrollment session
    then js "/app/account" else asked.
Proof.
  intros session asked. destruct (destination_safe (File := unit) opened session (Some asked)) as (_ & Hasked & _).
  exact (Hasked asked eq_refl ltac:(vm_compute; reflexivity)).
Defined.
