(* ===== verification/VesselCalls.v ===== *)
(** * Vessel calls (frontend/src/screens/VesselCalls.tsx)

    The list of calls with its search, the drawer that registers a call - the suggested rotation
    number and the delayed check that it is free - and a call's own page with its actions and
    the drawer that edits it. *)
From Stdlib Require Import SpecFloat.
From S2P Require Import Prelude JsString JsNumber Json MeasurementTypes Host Uri Endpoints ApiClient AppTypes Store Routing.

Definition VESSEL_TYPES : list str := map js ["Tanker"; "Bulk Carrier"; "Container"; "General Cargo"; "Other"]%string.

(** ** The list *)

Section List_.
Context `{Host}.

(** [+new Date(b.registered) - +new Date(a.registered)]; [sort] takes [NaN] for zero. *)
Definition byRegistered (a b : VesselCall) : Z :=
  match dateParse (vc_registered a), dateParse (vc_registered b) with Some x, Some y => y - x | _, _ => 0 end.
Definition callShown (statusFilter : option CallStatus) (query : str) (c : VesselCall) : bool :=
  match statusFilter with Some s => bool_decide (vc_status c = s) | None => true end
  && (isEmpty query || (let q := toLowerCase query in
        includes q (toLowerCase (vc_vesselName c)) || includes q (toLowerCase (vc_reference c)))).
Definition filteredCalls (calls : list VesselCall) (statusFilter : option CallStatus) (query : str) : list VesselCall :=
  sort_by byRegistered (filterb (callShown statusFilter query) calls).
End List_.

Definition callPath (id : str) : str := js "/app/vessel-calls/" ++ id.
(** The buttons of a row: the two documents of a completed call, or the call's page. *)
Inductive RowAction := row_open (path : str) | row_pdf (invoice inspection : option str).
Definition rowAction {File} `{Host} (secondary : bool) (s : @Store File) (c : VesselCall) : RowAction :=
  if secondary && bool_decide (vc_status c = vc_completed) then
    row_pdf (ivc_id <$> invoiceForCall (vc_id c) s)
      (insp_id <$> findb (λ i, bool_decide (insp_status i = insp_completed)) (inspectionsForCall (vc_id c) s))
  else row_open (callPath (vc_id c)).

(** The address's parameters, in order: [get] takes the first, [delete] removes them all. *)
Definition registerKeys : list str := map js ["register"; "vesselName"; "flag"; "type"; "then"]%string.
Definition registerAsked (params : list (str * str)) : bool := bool_decide (is_Some (mget (js "register") params)).
Record CallsPage := mkCallsPage { cp_params : list (str * str); cp_query : str; cp_statusFilter : option CallStatus; cp_registerOpen : bool }.
Definition openCalls (params : list (str * str)) : CallsPage := mkCallsPage params [] None (registerAsked params).
(** The effect on [searchParams]. *)
Definition paramsChanged (params : list (str * str)) (p : CallsPage) : CallsPage :=
  mkCallsPage params (cp_query p) (cp_statusFilter p) (registerAsked params || cp_registerOpen p).
Definition openRegisterDrawer (canRegister : bool) (p : CallsPage) : CallsPage :=
  mkCallsPage (cp_params p) (cp_query p) (cp_statusFilter p) (canRegister || cp_registerOpen p).
Record Prefill := mkPrefill { pf_vesselName : str; pf_flag : str; pf_type : str }.
Definition prefillOf (params : list (str * str)) : Prefill :=
  mkPrefill (default [] (mget (js "vesselName") params)) (default [] (mget (js "flag") params)) (default [] (mget (js "type") params)).
(** The drawer is closed; the new parameters when there is something to remove. *)
Definition closeRegister (p : CallsPage) : CallsPage * option (list (str * str)) :=
  (mkCallsPage (cp_params p) (cp_query p) (cp_statusFilter p) false,
   if existsb (λ k, bool_decide (is_Some (mget k (cp_params p)))) registerKeys
   then Some (filterb (λ e, negb (existsb (streq e.1) registerKeys)) (cp_params p)) else None).
Definition afterRegistration (params : list (str * str)) (c : VesselCall) : option str :=
  if bool_decide (mget (js "then") params = Some (js "declaration"))
  then Some (js "/app/measurements/new?callId=" ++ encodeURIComponent (vc_id c)) else None.

(** ** Registering a call *)

(** [parseInt(s, 10)], [None] for [NaN]: blanks, a sign, and the digits that follow. *)
Fixpoint digitPrefix (s : str) : str :=
  match s with c :: r => if isDigit c then c :: digitPrefix r else [] | [] => [] end.
Definition unsignedInt (s : str) : option Z :=
  let ds := digitPrefix s in if isEmpty ds then None else Some (bigOfDigits ds).
Definition parseInt (s : str) : option Z :=
  match trimStart s with
  | [] => None
  | (c :: r) as t => if N.eqb c cMinus then Z.opp <$> unsignedInt r
                     else if N.eqb c cPlus then unsignedInt r else unsignedInt t
  end.
Definition referenceNumber (reference : str) : option Z := split cMinus reference !! 2%nat ≫= parseInt.
Definition topNumber (calls : list VesselCall) : Z :=
  foldr Z.max 0 (omap (λ c, referenceNumber (vc_reference c)) calls).
(** [(top + 1).toString()]: below [2^53] Number arithmetic is exact. *)
Definition successorText (top : Z) : str :=
  if top <? 2 ^ 53 then printNat (top + 1) else numberText (numAdd (numOfZ top) (numOfZ 1)).
Definition nextRef (calls : list VesselCall) : str :=
  js "ROT-2026-" ++ padStart 4 cZero (successorText (topNumber calls)).

Record RegisterForm := mkRegisterForm {
  rg_vesselName : str; rg_flag : str; rg_reference : str; rg_type : str; rg_nrt : str;
  rg_eta : str; rg_sailingEta : str; rg_berth : str; rg_notes : str }.
Inductive RegisterField := f_vesselName | f_flag | f_reference | f_type | f_nrt | f_eta | f_sailingEta | f_berth | f_notes.
Definition setField (k : RegisterField) (v : str) (f : RegisterForm) : RegisterForm :=
  match k, f with
  | f_vesselName, mkRegisterForm _ b c d e g h i j => mkRegisterForm v b c d e g h i j
  | f_flag, mkRegisterForm a _ c d e g h i j => mkRegisterForm a v c d e g h i j
  | f_reference, mkRegisterForm a b _ d e g h i j => mkRegisterForm a b v d e g h i j
  | f_type, mkRegisterForm a b c _ e g h i j => mkRegisterForm a b c v e g h i j
  | f_nrt, mkRegisterForm a b c d _ g h i j => mkRegisterForm a b c d v g h i j
  | f_eta, mkRegisterForm a b c d e _ h i j => mkRegisterForm a b c d e v h i j
  | f_sailingEta, mkRegisterForm a b c d e g _ i j => mkRegisterForm a b c d e g v i j
  | f_berth, mkRegisterForm a b c d e g h _ j => mkRegisterForm a b c d e g h v j
  | f_notes, mkRegisterForm a b c d e g h i _ => mkRegisterForm a b c d e g h i v
  end.

Inductive RefStatus := ref_idle | ref_checking | ref_ok | ref_taken.
#[export] Instance RefStatus_eq : EqDecision RefStatus. Proof. solve_decision. Defined.
(** [rg_timer]: the calls the pending check closed over. *)
Record Register := mkRegister {
  rg_form : RegisterForm; rg_errors : list (str * str); rg_refStatus : RefStatus;
  rg_timer : option (list VesselCall); rg_submitting : bool; rg_dirty : bool }.

(** What [addCall] is given. *)
Record NewCall := mkNewCall {
  nc_vesselName : str; nc_flag : str; nc_reference : str; nc_type : str; nc_nrt : num; nc_eta : str;
  nc_sailingEta : option str; nc_berth : str; nc_status : CallStatus; nc_notes : str }.

Section Registering.
Context `{Host}.

Definition sameReference (a b : str) : bool := streq (toLowerCase a) (toLowerCase b).
Definition taken (calls : list VesselCall) (reference : str) : bool :=
  existsb (λ c, sameReference (vc_reference c) reference) calls.

(** The effect on [form.reference]. *)
Definition checkReference (calls : list VesselCall) (s : Register) : Register :=
  if isEmpty (rg_reference (rg_form s))
  then mkRegister (rg_form s) (rg_errors s) ref_idle None (rg_submitting s) (rg_dirty s)
  else mkRegister (rg_form s) (rg_errors s) ref_checking (Some calls) (rg_submitting s) (rg_dirty s).
Definition openRegister (calls : list VesselCall) (terminals : list str) (prefill : Prefill) : Register :=
  checkReference calls (mkRegister
    (mkRegisterForm (pf_vesselName prefill) (pf_flag prefill) (nextRef calls)
       (if truthy (pf_type prefill) && existsb (streq (pf_type prefill)) VESSEL_TYPES then pf_type prefill else js "Tanker")
       [] [] [] (default [] (head terminals)) [])
    [] ref_idle None false false).
(** The rotation number is typed in capitals. *)
Definition typedValue (k : RegisterField) (v : str) : str := match k with f_reference => toUpperCase v | _ => v end.
Definition typeField (calls : list VesselCall) (k : RegisterField) (v : str) (s : Register) : Register :=
  let form := setField k (typedValue k v) (rg_form s) in
  let s' := mkRegister form (rg_errors s) (rg_refStatus s) (rg_timer s) (rg_submitting s) true in
  if streq (rg_reference form) (rg_reference (rg_form s)) then s' else checkReference calls s'.
(** The timer, 650 ms after the last change. *)
Definition checkFires (s : Register) : Register :=
  match rg_timer s with
  | Some calls => mkRegister (rg_form s) (rg_errors s)
      (if taken calls (rg_reference (rg_form s)) then ref_taken else ref_ok) None (rg_submitting s) (rg_dirty s)
  | None => s
  end.
Definition blurName (s : Register) : Register :=
  if isEmpty (trim (rg_vesselName (rg_form s))) then
    mkRegister (rg_form s) (mset (js "vesselName") (js "Vessel name is required.") (rg_errors s))
      (rg_refStatus s) (rg_timer s) (rg_submitting s) (rg_dirty s)
  else s.

Definition tonnageMissing (nrt : str) : bool := isEmpty nrt || numLeb (numberOfInput nrt) (S754_zero false).
Definition registerErrors (s : Register) : list (str * str) :=
  let f := rg_form s in
  (if isEmpty (trim (rg_vesselName f)) then [(js "vesselName", js "Vessel name is required.")] else [])
  ++ (if isEmpty (trim (rg_reference f)) then [(js "reference", js "Rotation number is required.")]
      else if bool_decide (rg_refStatus s = ref_taken)
      then [(js "reference", js "This rotation number is already in use.")] else [])
  ++ (if tonnageMissing (rg_nrt f) then [(js "nrt", js "Net tonnage is required.")] else []).
(** [now] is [new Date().toISOString().slice(0, 16)]. *)
Definition newCall (now : str) (f : RegisterForm) : NewCall :=
  mkNewCall (trim (rg_vesselName f)) (trim (rg_flag f)) (trim (rg_reference f)) (rg_type f) (numberOfInput (rg_nrt f))
    (if isEmpty (rg_eta f) then now else rg_eta f) (if isEmpty (rg_sailingEta f) then None else Some (rg_sailingEta f))
    (rg_berth f) vc_pending (trim (rg_notes f)).
(** The button is disabled while a request is pending or the number is being checked. *)
Definition canSubmit (s : Register) : bool := negb (rg_submitting s) && negb (bool_decide (rg_refStatus s = ref_checking)).
Definition submit (now : str) (s : Register) : Register * option NewCall :=
  if negb (canSubmit s) then (s, None) else
  let errors := registerErrors s in
  let busy := match errors with [] => true | _ => false end in
  (mkRegister (rg_form s) errors (rg_refStatus s) (rg_timer s) busy (rg_dirty s),
   if busy then Some (newCall now (rg_form s)) else None).
Definition submitFailed (s : Register) : Register :=
  mkRegister (rg_form s) (rg_errors s) (rg_refStatus s) (rg_timer s) false (rg_dirty s).
(** Escape and the scrim ask first. *)
Definition discardStopped (confirmed : bool) (s : Register) : bool := rg_dirty s && negb (rg_submitting s) && negb confirmed.

(** Runs of the drawer; [seen] are the calls listed when the number was last changed. *)
Inductive registerRun (terminals : list str) (prefill : Prefill) : list VesselCall → Register → Prop :=
| rr_open calls : registerRun terminals prefill calls (openRegister calls terminals prefill)
| rr_typed seen calls k v s : registerRun terminals prefill seen s →
    registerRun terminals prefill
      (if streq (rg_reference (setField k (typedValue k v) (rg_form s))) (rg_reference (rg_form s)) then seen else calls)
      (typeField calls k v s)
| rr_fires seen s : registerRun terminals prefill seen s → registerRun terminals prefill seen (checkFires s)
| rr_blur seen s : registerRun terminals prefill seen s → registerRun terminals prefill seen (blurName s)
| rr_submit seen now s : registerRun terminals prefill seen s → registerRun terminals prefill seen (fst (submit now s))
| rr_failed seen s : registerRun terminals prefill seen s → registerRun terminals prefill seen (submitFailed s).
End Registering.

(** ** A call's page *)

(** A call that is neither cancelled nor completed. *)
Definition callOpen (c : VesselCall) : bool :=
  negb (bool_decide (vc_status c = vc_cancelled)) && negb (bool_decide (vc_status c = vc_completed)).
Record CallDetail := mkCallDetail { cd_confirmDel : bool; cd_cancelReason : str; cd_editOpen : bool; cd_statusBusy : bool }.
Definition openDetail : CallDetail := mkCallDetail false [] false false.
Definition callOfPage (id : str) (calls : list VesselCall) : option VesselCall := findb (λ c, streq (vc_id c) id) calls.

Section Detail.
Context {File : Type} (can : str → bool) (c : VesselCall).
Definition mayChangeCall : bool := can (js "cancelCall") && callOpen c.
Definition mayBerth : bool := can (js "cancelCall") && bool_decide (vc_status c = vc_pending).
(** Adding an inspection: whether the button is there, and works. *)
Definition mayInspect : bool := SHOW_SECONDARY_WORKFLOW_UI && can (js "addInspection") && callOpen c.

Definition readingsPath : str := js "/app/measurements/voyages/" ++ encodeURIComponent (vc_id c) ++ js "/readings".
Definition measurementsPath : str := js "/app/measurements?callId=" ++ encodeURIComponent (vc_id c).

(** [today] is [new Date().toISOString().slice(0, 10)]. *)
Definition markBerthed (today : str) (store : @Store File) (d : CallDetail) : option (CallDetail * Call) :=
  if negb mayBerth || cd_statusBusy d then None else
  Some (mkCallDetail (cd_confirmDel d) (cd_cancelReason d) (cd_editOpen d) true,
        updateCallStatus (vc_id c) (js "in-progress") [(js "berth", JStr (vc_berth c)); (js "berthDate", JStr today)] store).
Definition berthAnswered (d : CallDetail) : CallDetail :=
  mkCallDetail (cd_confirmDel d) (cd_cancelReason d) (cd_editOpen d) false.
Definition askCancel (d : CallDetail) : CallDetail :=
  if mayChangeCall then mkCallDetail true (cd_cancelReason d) (cd_editOpen d) (cd_statusBusy d) else d.
Definition openEdit (d : CallDetail) : CallDetail :=
  if mayChangeCall then mkCallDetail (cd_confirmDel d) (cd_cancelReason d) true (cd_statusBusy d) else d.
Definition typeReason (reason : str) (d : CallDetail) : CallDetail :=
  mkCallDetail (cd_confirmDel d) reason (cd_editOpen d) (cd_statusBusy d).
Definition closeModal (d : CallDetail) : CallDetail := mkCallDetail false (cd_cancelReason d) (cd_editOpen d) (cd_statusBusy d).
(** [ConfirmModal] sends, then closes. *)
Definition confirmCancel (store : @Store File) (d : CallDetail) : option (CallDetail * Call) :=
  if negb (cd_confirmDel d) || (length (trim (cd_cancelReason d)) <? 3)%nat then None else
  Some (closeModal d, cancelCall (vc_id c) (trim (cd_cancelReason d)) store).
End Detail.
Arguments markBerthed {File}.
Arguments confirmCancel {File}.

(** ** Editing a call *)

Record EditForm := mkEditForm {
  ed_vesselName : str; ed_type : str; ed_flag : str; ed_nrt : str; ed_eta : str; ed_sailingEta : str; ed_berth : str; ed_notes : str }.
Definition editFormOf (c : VesselCall) : EditForm :=
  mkEditForm (vc_vesselName c) (vc_type c) (vc_flag c) (numberText (vc_nrt c)) (take 16 (vc_eta c)) (take 16 (vc_sailingEta c))
    (vc_berth c) (vc_notes c).
(** [Partial<VesselCall>] as the drawer fills it. *)
Record CallPatch := mkCallPatch {
  pt_vesselName : str; pt_type : str; pt_flag : str; pt_nrt : num; pt_eta : str; pt_sailingEta : str; pt_berth : str; pt_notes : str }.
Record EditCall := mkEditCall { ec_form : EditForm; ec_busy : bool; ec_error : option str }.
Definition editInvalid (f : EditForm) : bool := isEmpty (trim (ed_vesselName f)) || numLeb (numberOfInput (ed_nrt f)) (S754_zero false).
Definition editPatch (f : EditForm) : CallPatch :=
  mkCallPatch (trim (ed_vesselName f)) (ed_type f) (trim (ed_flag f)) (numberOfInput (ed_nrt f)) (ed_eta f) (ed_sailingEta f)
    (ed_berth f) (trim (ed_notes f)).
Definition saveEdit (c : VesselCall) (s : EditCall) : EditCall * option (str * CallPatch) :=
  if ec_busy s || editInvalid (ec_form s) then (s, None)
  else (mkEditCall (ec_form s) true None, Some (vc_id c, editPatch (ec_form s))).
(** The answer: [None] closes the drawer. *)
Definition editAnswered (failure : option (option str)) (s : EditCall) : option EditCall :=
  match failure with
  | None => None
  | Some message => Some (mkEditCall (ec_form s) false (Some (default (js "Could not update the vessel call.") message)))
  end.

(** ** The list *)

Section Listing.
Context `{Host}.
Lemma byRegistered_flip a b : 0 < byRegistered a b → byRegistered b a <= 0.
Proof. unfold byRegistered. destruct (dateParse _), (dateParse _); lia. Qed.

(** The list shows exactly the calls that pass the filter, each as often as the store has it,
    the latest registered first. *)
Lemma filteredCalls_spec calls status query :
  filteredCalls calls status query ≡ₚ filterb (callShown status query) calls ∧
  Sorted (λ a b, byRegistered a b <= 0) (filteredCalls calls status query) ∧
  filteredCalls calls None [] ≡ₚ calls.
Proof.
  unfold filteredCalls. split_and!; [apply sort_by_perm|apply sort_by_sorted, byRegistered_flip|].
  rewrite sort_by_perm, filterb_all; [done|]. by intros c.
Qed.
End Listing.

Lemma filterb_keys_gone {A} (keys : list str) (m : list (str * A)) k : k ∈ keys →
  mget k (filterb (λ e, negb (existsb (streq e.1) keys)) m) = None.
Proof.
  intros Hk. destruct (mget k _) as [v|] eqn:E; [|done]. apply mget_Some_elem, elem_of_filterb in E as [_ E].
  apply negb_true_iff in E. rewrite existsb_false in E. specialize (E k Hk). cbn [fst] in E. by rewrite streq_refl in E.
Qed.

(** Closing the drawer leaves nothing in the address that would open or fill it again, and
    keeps the other parameters; without such parameters the address is left alone. *)
Lemma closeRegister_stays p p' next : closeRegister p = (p', next) →
  cp_registerOpen p' = false ∧
  let params := default (cp_params p) next in
  cp_registerOpen (paramsChanged params p') = false ∧ prefillOf params = mkPrefill [] [] [] ∧
  ∀ k, k ∉ registerKeys → mget k params = mget k (cp_params p).
Proof.
  intros Hc. pose proof (f_equal fst Hc) as H1. pose proof (f_equal snd Hc) as H2. unfold closeRegister in H1, H2.
  cbn [fst snd] in H1, H2. subst p' next. clear Hc. split; [done|]. cbn [cp_registerOpen].
  set (params := default _ _).
  assert (Hnone : ∀ k, k ∈ registerKeys → mget k params = None).
  { intros k Hk. subst params. destruct (existsb (λ k, bool_decide (is_Some (mget k (cp_params p)))) registerKeys) eqn:E; [by apply (filterb_keys_gone registerKeys)|].
    rewrite existsb_false in E. specialize (E k Hk). cbn [default from_option id].
    case_bool_decide as Hs; [done|]. destruct (mget k _); [|done]. destruct Hs; eauto. }
  split_and!.
  - unfold paramsChanged, registerAsked. cbn [cp_registerOpen]. rewrite Hnone; [done|]. vm_compute. left.
  - unfold prefillOf. rewrite !Hnone; [done|vm_compute; repeat constructor..].
  - intros k Hk. subst params. destruct (existsb (λ k, bool_decide (is_Some (mget k (cp_params p)))) registerKeys) eqn:E; [|done]. cbn [default from_option id].
    clear E Hnone. induction (cp_params p) as [|[k' v] m IH]; [done|]. cbn [List.filter fst].
    destruct (existsb (streq k') registerKeys) eqn:Ek; cbn [negb].
    + rewrite IH. cbn [mget]. case_decide as Hkk; [|done]. subst k'.
      by apply existsb_true in Ek as (x & Hx & ->%streq_true).
    + cbn [mget]. by rewrite IH.
Qed.

(** ** The suggested number *)

(** What changing the case leaves alone: hyphens, and the number a text begins with. *)
Class CaseLaws `{Host} := {
  lower_split : ∀ s, split cMinus (toLowerCase s) = map toLowerCase (split cMinus s);
  lower_number : ∀ s, parseInt (toLowerCase s) = parseInt s }.

Lemma asciiLower_same c : isDigit (asciiLower c) = isDigit c ∧ isWs (asciiLower c) = isWs c
  ∧ N.eqb (asciiLower c) cMinus = N.eqb c cMinus ∧ N.eqb (asciiLower c) cPlus = N.eqb c cPlus
  ∧ (isDigit c = true → asciiLower c = c).
Proof.
  unfold asciiLower. destruct ((65 <=? c) && (c <=? 90))%N eqn:E; [|done].
  apply andb_true_iff in E as [E1%N.leb_le E2%N.leb_le].
  assert (∃ k, (k < 26)%nat ∧ c = (65 + N.of_nat k)%N) as (k & Hk & ->) by (exists (N.to_nat (c - 65)); lia).
  clear E1 E2. do 26 (destruct k as [|k]; [by vm_compute|]). lia.
Qed.
Lemma lower_prefix s : digitPrefix (map asciiLower s) = digitPrefix s.
Proof.
  induction s as [|c s IH]; [done|]. cbn [map digitPrefix].
  destruct (asciiLower_same c) as (-> & _ & _ & _ & Hd). destruct (isDigit c) eqn:E; [|done]. by rewrite Hd, IH.
Qed.
Lemma lower_trimStart s : trimStart (map asciiLower s) = map asciiLower (trimStart s).
Proof.
  induction s as [|c s IH]; [done|]. cbn [map trimStart].
  destruct (asciiLower_same c) as (_ & -> & _). by destruct (isWs c).
Qed.
#[export] Instance asciiCaseLaws : @CaseLaws asciiHost.
Proof.
  split; change (@toLowerCase asciiHost) with (map asciiLower); intros s.
  - induction s as [|c s IH]; [done|]. cbn [map split]. destruct (asciiLower_same c) as (_ & _ & -> & _).
    rewrite IH. destruct (N.eqb c cMinus); [done|]. by destruct (split cMinus s).
  - unfold parseInt. rewrite lower_trimStart. destruct (trimStart s) as [|c r]; [done|]. cbn [map].
    destruct (asciiLower_same c) as (_ & _ & -> & -> & _).
    unfold unsignedInt. rewrite <- (lower_prefix (c :: r)), <- (lower_prefix r). done.
Qed.

Lemma digitPrefix_all ds : allDigits ds = true → digitPrefix ds = ds.
Proof. induction ds as [|c ds IH]; [done|]. rewrite allDigits_cons. intros [H1 H2]%andb_true_iff. cbn. by rewrite H1, IH. Qed.
Lemma parseInt_digits ds : digits1 ds = true → parseInt ds = Some (bigOfDigits ds).
Proof.
  intros [Hne Hd]%digits1_split. unfold parseInt. rewrite trimStart_noWs by (by apply noWs_digits).
  destruct ds as [|c r]; [done|].
  assert (Hc : isDigit c = true) by (rewrite allDigits_cons in Hd; by apply andb_true_iff in Hd as [? _]).
  assert (N.eqb c cMinus = false ∧ N.eqb c cPlus = false) as [-> ->].
  { unfold isDigit in Hc. apply andb_true_iff in Hc as [H1%N.leb_le H2%N.leb_le]. unfold cMinus, cPlus.
    split; apply N.eqb_neq; lia. }
  unfold unsignedInt. by rewrite digitPrefix_all.
Qed.

Lemma topNumber_nonneg calls : 0 <= topNumber calls.
Proof. unfold topNumber. induction (omap _ calls); cbn; lia. Qed.
Lemma topNumber_above calls c n : c ∈ calls → referenceNumber (vc_reference c) = Some n → n <= topNumber calls.
Proof.
  intros Hc Hn. assert (n ∈ omap (λ c, referenceNumber (vc_reference c)) calls) as Hin
    by (apply list_elem_of_omap; eauto).
  unfold topNumber. induction Hin; cbn; lia.
Qed.

Lemma split_rotation ds : cMinus ∉ ds → split cMinus (js "ROT-2026-" ++ ds) = [js "ROT"; js "2026"; ds].
Proof.
  intros Hd. assert (js "ROT-2026-" ++ ds = js "ROT" ++ cMinus :: js "2026" ++ cMinus :: ds) as -> by reflexivity.
  assert (cMinus ∉ js "ROT") by (apply (bool_decide_unpack (cMinus ∉ js "ROT")); by vm_compute).
  assert (cMinus ∉ js "2026") by (apply (bool_decide_unpack (cMinus ∉ js "2026")); by vm_compute).
  by rewrite !split_app, split_none.
Qed.
Lemma nextRef_number calls : topNumber calls < 2 ^ 53 → referenceNumber (nextRef calls) = Some (topNumber calls + 1).
Proof.
  intros Ht. pose proof (topNumber_nonneg calls) as H0. unfold nextRef, successorText.
  destruct (Z.ltb_spec (topNumber calls) (2 ^ 53)); [|lia].
  set (ds := padStart 4 cZero (printNat (topNumber calls + 1))).
  assert (Hds : digits1 ds = true).
  { apply digits1_split. subst ds. rewrite allDigits_padStart, printNat_digits by lia. split; [|done].
    intros Hnil. apply (f_equal length) in Hnil. rewrite length_padStart in Hnil. cbn [length] in Hnil. lia. }
  unfold referenceNumber. rewrite split_rotation.
  - cbn [lookup list_lookup mbind option_bind]. rewrite parseInt_digits by done. f_equal. subst ds.
    by rewrite bigOfDigits_padStart, printNat_val by lia.
  - apply allDigits_not_in; [|done]. by apply digits1_split in Hds as [_ ?].
Qed.

(** The rotation number suggested for a new call is one more than the highest number in use,
    and no registered call has it, whatever the case of its letters: the drawer opens with
    a number its own check finds available. *)
Theorem suggestion_free `{Host} `{!CaseLaws} calls terminals prefill : topNumber calls < 2 ^ 53 →
  taken calls (nextRef calls) = false ∧ referenceNumber (nextRef calls) = Some (topNumber calls + 1) ∧
  rg_refStatus (checkFires (openRegister calls terminals prefill)) = ref_ok.
Proof.
  intros Ht. pose proof (nextRef_number calls Ht) as Hn.
  assert (Hfree : taken calls (nextRef calls) = false).
  { apply existsb_false. intros c Hc. apply streq_false. intros Heq.
    assert (Hr : referenceNumber (vc_reference c) = Some (topNumber calls + 1)).
    { rewrite <- Hn. apply (f_equal (λ s, split cMinus s !! 2%nat ≫= parseInt)) in Heq.
      unfold referenceNumber. rewrite !lower_split, !list_lookup_fmap in Heq.
      destruct (split cMinus (vc_reference c) !! 2%nat), (split cMinus (nextRef calls) !! 2%nat);
        cbn in Heq; rewrite ?lower_number in Heq; done. }
    pose proof (topNumber_above calls c _ Hc Hr). lia. }
  split_and!; [done|done|]. unfold openRegister, checkReference. cbn [rg_form rg_reference].
  destruct (nextRef calls) eqn:E; [done|]. cbn [isEmpty]. unfold checkFires. cbn [rg_timer rg_form rg_reference].
  by rewrite Hfree.
Qed.
Definition rotation (reference : string) : VesselCall :=
  mkVesselCall (js reference) (js "MV Calabar") (js reference) (js "Tanker") (js "Liberia") (numOfZ 57137)
    (js "2026-07-01T09:30:00+00:00") [] (js "Berth 4") None vc_pending [] None None 1 (js "2026-06-20T08:00:00Z").
Definition rotations : list VesselCall := map rotation ["ROT-2026-0007"; "rot-2025-0012-b"; "VC-3"]%string.
Lemma suggestion_free_witness : nextRef rotations = js "ROT-2026-0013" ∧
  @taken asciiHost rotations (nextRef rotations) = false.
Proof.
  split; [by vm_compute|]. exact (proj1 (@suggestion_free asciiHost asciiCaseLaws rotations [] (mkPrefill [] [] []) eq_refl)).
Defined.
(** The bound is sharp: past the integers a Number tells apart, the successor is the number
    itself. *)
Example suggestion_taken : @taken asciiHost [rotation "ROT-2026-9007199254740992"] (nextRef [rotation "ROT-2026-9007199254740992"]) = true.
Proof. vm_compute. reflexivity. Qed.

(** ** What is registered *)

Section Registered.
Context `{Host}.

(** The status of the check, and the calls it is about. *)
Definition checkedAgainst (seen : list VesselCall) (s : Register) : Prop :=
  let reference := rg_reference (rg_form s) in
  match rg_refStatus s with
  | ref_idle => reference = [] ∧ rg_timer s = None
  | ref_checking => reference ≠ [] ∧ rg_timer s = Some seen
  | ref_ok => taken seen reference = false ∧ rg_timer s = None
  | ref_taken => taken seen reference = true ∧ rg_timer s = None
  end.

Lemma checkReference_against calls s : checkedAgainst calls (checkReference calls s).
Proof. unfold checkReference, checkedAgainst. destruct (rg_reference (rg_form s)) eqn:E; cbn; by rewrite E. Qed.
Lemma registerRun_checked terminals prefill seen s : registerRun terminals prefill seen s → checkedAgainst seen s.
Proof.
  induction 1 as [calls|seen calls k v s _ IH|seen s _ IH|seen s _ IH|seen now s _ IH|seen s _ IH].
  - apply checkReference_against.
  - unfold typeField. destruct (streq _ _) eqn:E; [|apply checkReference_against].
    apply streq_true in E. unfold checkedAgainst in *. cbn [rg_form rg_refStatus rg_timer]. by rewrite E.
  - unfold checkFires. destruct (rg_timer s) as [calls|] eqn:Et; [|done]. unfold checkedAgainst in *.
    cbn [rg_form rg_refStatus rg_timer]. rewrite Et in IH.
    destruct (rg_refStatus s); destruct IH as [H1 H2]; simplify_eq. by destruct (taken seen _) eqn:Hk.
  - unfold blurName. by destruct (isEmpty _).
  - unfold submit. by destruct (negb (canSubmit s)).
  - done.
Qed.

Lemma registerErrors_nil s : registerErrors s = [] ↔
  trim (rg_vesselName (rg_form s)) ≠ [] ∧ trim (rg_reference (rg_form s)) ≠ [] ∧ rg_refStatus s ≠ ref_taken ∧
  tonnageMissing (rg_nrt (rg_form s)) = false.
Proof.
  unfold registerErrors. destruct (trim (rg_vesselName (rg_form s))); cbn [isEmpty app]; [naive_solver|].
  destruct (trim (rg_reference (rg_form s))); cbn [isEmpty app]; [naive_solver|].
  case_bool_decide; cbn [app]; [naive_solver|]. destruct (tonnageMissing _); naive_solver.
Qed.

(** C37. Whatever is typed, in whatever order the delayed check and the answers arrive, a call is
    only sent for registration with a vessel name, a rotation number and a tonnage that is not
    zero or less, and after the text of the rotation number, with its blanks, was checked against
    the calls listed when it was last changed and found in none of them; what is sent is the form,
    the number without the blanks around it - so that the number sent is itself free wherever
    none were typed -, the call is pending, and nothing is sent again before the answer. *)
Theorem registered_call_checked terminals prefill seen now s s' p :
  registerRun terminals prefill seen s → submit now s = (s', Some p) →
  p = newCall now (rg_form s) ∧ nc_vesselName p ≠ [] ∧ nc_reference p ≠ [] ∧ numLeb (nc_nrt p) (S754_zero false) = false ∧
  taken seen (rg_reference (rg_form s)) = false ∧ nc_reference p = trim (rg_reference (rg_form s)) ∧
  (trim (rg_reference (rg_form s)) = rg_reference (rg_form s) → taken seen (nc_reference p) = false) ∧
  nc_status p = vc_pending ∧ ∀ now', submit now' s' = (s', None).
Proof.
  intros Hr Hs. pose proof (registerRun_checked _ _ _ _ Hr) as Hc. unfold submit in Hs.
  destruct (canSubmit s) eqn:Ec; cbn [negb] in Hs; [|done].
  destruct (registerErrors s) eqn:Ee; [|done]. simplify_eq. apply registerErrors_nil in Ee as (Hv & Hf & Ht & Hn).
  apply andb_true_iff in Ec as [_ Ec]. apply negb_true_iff, bool_decide_eq_false in Ec.
  apply orb_false_iff in Hn as [_ Hn]. unfold checkedAgainst in Hc.
  destruct (rg_refStatus s); destruct Hc as [H1 H2]; try done; [by rewrite H1 in Hf|].
  split_and!; try done. cbn [newCall nc_reference]. by intros ->.
Qed.
End Registered.

Definition typedAquamarine : Register :=
  let type k v := @typeField asciiHost rotations k (js v) in
  @checkFires asciiHost (type f_nrt "57137" (type f_reference "rot-2026-0099" (type f_vesselName " MT Aquamarine "
    (openRegister rotations [js "Berth 4"] (mkPrefill [] [] [])))))%string.
Lemma typed_same `{Host} terminals prefill calls k v s :
  registerRun terminals prefill calls s → registerRun terminals prefill calls (typeField calls k v s).
Proof. intros Hr. pose proof (rr_typed terminals prefill calls calls k v s Hr) as Ht. by destruct (streq _ _) in Ht. Qed.
Lemma aquamarineRun : @registerRun asciiHost [js "Berth 4"] (mkPrefill [] [] []) rotations typedAquamarine.
Proof. unfold typedAquamarine. apply rr_fires. do 3 apply typed_same. apply rr_open. Qed.
Lemma registered_call_checked_witness :
  ∃ p, snd (submit (js "2026-07-01T09:30") typedAquamarine) = Some p ∧ nc_vesselName p = js "MT Aquamarine" ∧
  nc_reference p = js "ROT-2026-0099" ∧ @taken asciiHost rotations (rg_reference (rg_form typedAquamarine)) = false.
Proof.
  eexists. split; [vm_compute; reflexivity|]. split; [reflexivity|]. split; [reflexivity|].
  exact (proj1 (proj2 (proj2 (proj2 (proj2 (@registered_call_checked asciiHost [js "Berth 4"] (mkPrefill [] [] []) rotations
    (js "2026-07-01T09:30") typedAquamarine _ _ aquamarineRun (surjective_pairing _))))))).
Defined.

(** The check compares the number as it was typed and the request carries it trimmed: behind a
    blank, a number in use is reported as available and sent. *)
Lemma blank_reference_passes : let s := @checkFires asciiHost (@typeField asciiHost rotations f_reference (js " ROT-2026-0007")
    (@typeField asciiHost rotations f_nrt (js "100") (openRegister rotations [] (mkPrefill (js "MT Sea Eagle") [] [])))) in
  rg_refStatus s = ref_ok ∧ ∃ p, snd (submit [] s) = Some p ∧ @taken asciiHost rotations (nc_reference p) = true.
Proof. split; [by vm_compute|]. eexists. split; [vm_compute; reflexivity|]. by vm_compute. Qed.

(** The edit drawer sends a missing sailing time as empty text, where registration sends [null];
    and an untouched arrival time without the offset the server wrote it with. *)
Lemma edit_untouched c : let p := editPatch (editFormOf c) in
  (vc_sailingEta c = [] → pt_sailingEta p = []) ∧ pt_eta p = take 16 (vc_eta c) ∧
  ∀ now f, rg_sailingEta f = [] → nc_sailingEta (newCall now f) = None.
Proof. split_and!; [by cbn; intros ->|done|]. by intros now f Hf; cbn; rewrite Hf. Qed.

(** A call is only edited, berthed or cancelled while it is open, by someone who may; and it is
    cancelled with a reason of three characters at least, taken from the modal as it stands. *)
Lemma berth_sent {File} can c today (store : @Store File) d d' call : markBerthed can c today store d = Some (d', call) →
  can (js "cancelCall") = true ∧ vc_status c = vc_pending ∧ cd_statusBusy d = false ∧ markBerthed can c today store d' = None.
Proof.
  unfold markBerthed, mayBerth. destruct (can _); [|done]. case_bool_decide; [|done].
  destruct (cd_statusBusy d); [done|]. by intros [= <- <-].
Qed.
Lemma cancel_sent {File} c (store : @Store File) d d' call : confirmCancel c store d = Some (d', call) →
  (3 ≤ length (trim (cd_cancelReason d)))%nat ∧ confirmCancel c store d' = None.
Proof.
  unfold confirmCancel. destruct (cd_confirmDel d); [|done]. destruct (Nat.ltb_spec (length (trim (cd_cancelReason d))) 3); [done|].
  by intros [= <- <-].
Qed.
Lemma edit_sent c s s' id p : saveEdit c s = (s', Some (id, p)) →
  id = vc_id c ∧ pt_vesselName p ≠ [] ∧ numLeb (pt_nrt p) (S754_zero false) = false ∧ snd (saveEdit c s') = None.
Proof.
  unfold saveEdit, editInvalid. destruct (ec_busy s); [done|]. cbn [orb].
  destruct (trim (ed_vesselName (ec_form s))) eqn:En; [done|]. cbn [isEmpty orb].
  destruct (numLeb _ _) eqn:Et; [done|]. intros [= <- <- <-]. cbn [pt_vesselName pt_nrt editPatch]. by rewrite En.
Qed.
