(* ===== verification/Settings.v ===== *)
(** * Settings (frontend/src/screens/Settings.tsx)

    The organization's profile and ports, the charge rates and terminals with their one save
    bar, the order of the invoice stages, and the panel that says who is told when an invoice
    enters a stage. *)
From Stdlib Require Import SpecFloat.
From S2P Require Import Prelude JsString JsNumber Json Codec MeasurementTypes Host Endpoints AppTypes UserManagement.

(** ** Ports *)

Definition NPA_PORTS : list str := map js
  ["Port of Calabar"; "Apapa Port, Lagos"; "Tin Can Island Port, Lagos"; "Onne Port, Rivers"; "Port Harcourt Port";
   "Warri Port, Delta"]%string.
Definition uniquePorts (ports : list str) : list str := uniq (filterb truthy (map trim ports)).

Definition withPorts (ports : list str) (designatedPort primaryPort : str) (o : Organization) : Organization :=
  mkOrganization (org_id o) (org_registered o) (org_name o) (org_rcNumber o) (org_email o) (org_phone o) (org_address o)
    designatedPort primaryPort ports (org_logo o) (org_rev o) (org_members o).
(** [ports[0]] of no ports is [undefined], written as empty text here. *)
Definition currentPrimary (o : Organization) : str :=
  if truthy (org_designatedPort o) then org_designatedPort o
  else if truthy (org_primaryPort o) then org_primaryPort o else default [] (head NPA_PORTS).
Definition normalizeOrg (o : Organization) : Organization :=
  let primary := currentPrimary o in
  let ports := match uniquePorts (org_ports o) with [] => uniquePorts [primary] | ports => ports end in
  let designatedPort := if existsb (streq primary) ports then primary else default [] (head ports) in
  withPorts ports designatedPort designatedPort o.

(** [PortPicker]: the ports and the primary one it reports; [None] for the box that is locked. *)
Definition togglePort (o : Organization) (port : str) : option (list str * str) :=
  let selected := org_ports (normalizeOrg o) in
  let primaryPort := org_designatedPort (normalizeOrg o) in
  let isSelected := existsb (streq port) selected in
  if isSelected && Nat.eqb (length selected) 1 then None else
  let nextPorts := if isSelected then filterb (λ p, negb (streq p port)) selected else selected ++ [port] in
  Some (nextPorts, if existsb (streq primaryPort) nextPorts then primaryPort else default [] (head nextPorts)).
(** [set("ports", ports); set("designatedPort", primary)] *)
Definition setPorts (ports : list str) (primary : str) (o : Organization) : Organization :=
  withPorts ports primary (org_primaryPort o) o.

(** ** Charges and terminals *)

Record SettingsForm := mkSettingsForm {
  sf_commissionRate : num; sf_exchangeRate : num; sf_government : num; sf_private : num; sf_international : num;
  sf_dryDuesRate : num; sf_portName : str; sf_terminals : list str }.
Inductive SettingsFormUpdate :=
| up_commissionRate (value : num) | up_exchangeRate (value : num) | up_government (value : num) | up_private (value : num)
| up_international (value : num) | up_dryDuesRate (value : num) | up_portName (value : str) | up_terminals (value : list str).
Definition applySettingsFormUpdate (f : SettingsForm) (u : SettingsFormUpdate) : SettingsForm :=
  match u, f with
  | up_commissionRate v, mkSettingsForm _ b c d e g h i => mkSettingsForm v b c d e g h i
  | up_exchangeRate v, mkSettingsForm a _ c d e g h i => mkSettingsForm a v c d e g h i
  | up_government v, mkSettingsForm a b _ d e g h i => mkSettingsForm a b v d e g h i
  | up_private v, mkSettingsForm a b c _ e g h i => mkSettingsForm a b c v e g h i
  | up_international v, mkSettingsForm a b c d _ g h i => mkSettingsForm a b c d v g h i
  | up_dryDuesRate v, mkSettingsForm a b c d e _ h i => mkSettingsForm a b c d e v h i
  | up_portName v, mkSettingsForm a b c d e g _ i => mkSettingsForm a b c d e g v i
  | up_terminals v, mkSettingsForm a b c d e g h _ => mkSettingsForm a b c d e g h v
  end.
Definition toSettingsForm (s : AppTypes.Settings) : SettingsForm :=
  let rates := stg_liquidDuesRates s in
  mkSettingsForm (stg_commissionRate s) (stg_exchangeRate s) (dues_government rates) (dues_private rates)
    (dues_international rates) (stg_dryDuesRate s) (stg_portName s) (stg_terminals s).

(** ** The page and its save bar *)

(** The profile's fields: [set] with one of the keys the section writes. *)
Inductive OrgUpdate := o_name (v : str) | o_rcNumber (v : str) | o_phone (v : str) | o_email (v : str) | o_address (v : str)
| o_ports (ports : list str) (primary : str) | o_logo (v : option str).
Definition applyOrgUpdate (u : OrgUpdate) (o : Organization) : Organization :=
  let put name rc email phone address logo :=
    mkOrganization (org_id o) (org_registered o) name rc email phone address (org_designatedPort o) (org_primaryPort o)
      (org_ports o) logo (org_rev o) (org_members o) in
  match u with
  | o_name v => put v (org_rcNumber o) (org_email o) (org_phone o) (org_address o) (org_logo o)
  | o_rcNumber v => put (org_name o) v (org_email o) (org_phone o) (org_address o) (org_logo o)
  | o_phone v => put (org_name o) (org_rcNumber o) (org_email o) v (org_address o) (org_logo o)
  | o_email v => put (org_name o) (org_rcNumber o) v (org_phone o) (org_address o) (org_logo o)
  | o_address v => put (org_name o) (org_rcNumber o) (org_email o) (org_phone o) v (org_logo o)
  | o_ports ports primary => setPorts ports primary o
  | o_logo v => put (org_name o) (org_rcNumber o) (org_email o) (org_phone o) (org_address o) v
  end.

(** A save, by what it waits for: the rates' answer, with the profile to send afterwards when it
    was dirty too, or the profile's.  Both are those of the render the button was pressed in. *)
Inductive Saving := sv_idle | sv_settings (form : SettingsForm) (prof : option Organization) | sv_profile (prof : Organization).
Record SettingsPage := mkSettingsPage {
  sp_form : SettingsForm; sp_dirty : bool; sp_orgForm : Organization; sp_orgDirty : bool; sp_saving : Saving; sp_terminalToAdd : str }.
Definition openSettings (settings : AppTypes.Settings) (org : Organization) : SettingsPage :=
  mkSettingsPage (toSettingsForm settings) false (normalizeOrg org) false sv_idle [].
(** The two effects: a form that is not dirty follows the store. *)
Definition synced (settings : AppTypes.Settings) (org : Organization) (p : SettingsPage) : SettingsPage :=
  mkSettingsPage (if sp_dirty p then sp_form p else toSettingsForm settings) (sp_dirty p)
    (if sp_orgDirty p then sp_orgForm p else normalizeOrg org) (sp_orgDirty p) (sp_saving p) (sp_terminalToAdd p).

Definition updateForm (u : SettingsFormUpdate) (p : SettingsPage) : SettingsPage :=
  mkSettingsPage (applySettingsFormUpdate (sp_form p) u) true (sp_orgForm p) (sp_orgDirty p) (sp_saving p) (sp_terminalToAdd p).
Definition setOrgField (u : OrgUpdate) (p : SettingsPage) : SettingsPage :=
  mkSettingsPage (sp_form p) (sp_dirty p) (applyOrgUpdate u (sp_orgForm p)) true (sp_saving p) (sp_terminalToAdd p).
Definition typeTerminal (v : str) (p : SettingsPage) : SettingsPage :=
  mkSettingsPage (sp_form p) (sp_dirty p) (sp_orgForm p) (sp_orgDirty p) (sp_saving p) v.
Section Terminals.
Context `{Host}.
Definition addTerminal (p : SettingsPage) : SettingsPage :=
  let terminal := trim (sp_terminalToAdd p) in
  if isEmpty terminal then p else
  let exists_ := existsb (λ existing, streq (toLocaleLowerCase (trim existing)) (toLocaleLowerCase terminal))
                   (sf_terminals (sp_form p)) in
  typeTerminal [] (if exists_ then p else updateForm (up_terminals (sf_terminals (sp_form p) ++ [terminal])) p).
End Terminals.

Definition anyDirty (p : SettingsPage) : bool := sp_dirty p || sp_orgDirty p.
Inductive SettingsRequest := req_settings (form : SettingsForm) | req_profile (patch : Organization).
Definition withSaving (v : Saving) (p : SettingsPage) : SettingsPage :=
  mkSettingsPage (sp_form p) (sp_dirty p) (sp_orgForm p) (sp_orgDirty p) v (sp_terminalToAdd p).
Definition mayStore (canEdit : bool) (p : SettingsPage) : bool :=
  anyDirty p && match sp_saving p with sv_idle => true | _ => false end && canEdit.
Definition saveSettings (canEdit : bool) (p : SettingsPage) : option (SettingsPage * SettingsRequest) :=
  if negb (mayStore canEdit p) then None else
  let prof := if sp_orgDirty p then Some (normalizeOrg (sp_orgForm p)) else None in
  if sp_dirty p then Some (withSaving (sv_settings (sp_form p) prof) p, req_settings (sp_form p)) else
  match prof with Some n => Some (withSaving (sv_profile n) p, req_profile n) | None => None end.
(** The rates are accepted: what follows in [save]. *)
Definition settingsAccepted (p : SettingsPage) : SettingsPage * option SettingsRequest :=
  match sp_saving p with
  | sv_settings _ prof =>
      (mkSettingsPage (sp_form p) false (sp_orgForm p) (sp_orgDirty p)
         (match prof with Some n => sv_profile n | None => sv_idle end) (sp_terminalToAdd p), req_profile <$> prof)
  | _ => (p, None)
  end.
Definition profileAccepted (p : SettingsPage) : SettingsPage :=
  match sp_saving p with
  | sv_profile n => mkSettingsPage (sp_form p) (sp_dirty p) n false sv_idle (sp_terminalToAdd p)
  | _ => p
  end.
Definition saveFailed (p : SettingsPage) : SettingsPage := withSaving sv_idle p.
Definition discard (settings : AppTypes.Settings) (org : Organization) (p : SettingsPage) : SettingsPage :=
  mkSettingsPage (toSettingsForm settings) false (normalizeOrg org) false (sp_saving p) (sp_terminalToAdd p).
Definition mayDiscard (p : SettingsPage) : bool := anyDirty p && match sp_saving p with sv_idle => true | _ => false end.

(** The page and the store's two values: every handler is followed by the effects. *)
Inductive pageRun `{Host} (canEdit : bool) : AppTypes.Settings → Organization → SettingsPage → Prop :=
| pr_open settings org : pageRun canEdit settings org (openSettings settings org)
| pr_store settings org settings' org' p : pageRun canEdit settings org p → pageRun canEdit settings' org' (synced settings' org' p)
| pr_form settings org u p : canEdit = true → pageRun canEdit settings org p → pageRun canEdit settings org (updateForm u p)
| pr_org settings org u p : canEdit = true → pageRun canEdit settings org p → pageRun canEdit settings org (setOrgField u p)
| pr_terminal settings org v p : canEdit = true → pageRun canEdit settings org p → pageRun canEdit settings org (typeTerminal v p)
| pr_addTerminal settings org p : canEdit = true → pageRun canEdit settings org p → pageRun canEdit settings org (addTerminal p)
| pr_save settings org p p' r : pageRun canEdit settings org p → saveSettings canEdit p = Some (p', r) →
    pageRun canEdit settings org p'
| pr_settings settings org p form prof settings' : pageRun canEdit settings org p → sp_saving p = sv_settings form prof →
    pageRun canEdit settings' org (synced settings' org (fst (settingsAccepted p)))
| pr_profile settings org p n org' : pageRun canEdit settings org p → sp_saving p = sv_profile n →
    pageRun canEdit settings org' (synced settings org' (profileAccepted p))
| pr_failed settings org p : pageRun canEdit settings org p → pageRun canEdit settings org (saveFailed p)
| pr_discard settings org p : pageRun canEdit settings org p → mayDiscard p = true →
    pageRun canEdit settings org (discard settings org p).

(** ** Who is told when an invoice enters a stage *)

Record NotificationSettings := mkNotification { nt_notifyOnEntry : bool; nt_notificationRoles : list Role }.
Definition orderedRoles (roles : list Role) : list Role := filterb (λ role, bool_decide (role ∈ roles)) ROLES.
Definition sameNotificationSettings (l r : NotificationSettings) : bool :=
  Bool.eqb (nt_notifyOnEntry l) (nt_notifyOnEntry r)
  && bool_decide (orderedRoles (nt_notificationRoles l) = orderedRoles (nt_notificationRoles r)).
Definition notificationPolicy (s : NotificationSettings) : str :=
  if negb (nt_notifyOnEntry s) then js "Email notification is off for this status." else
  match orderedRoles (nt_notificationRoles s) with
  | [] => js "Email notification is on, but no recipient roles are configured."
  | roles => js "Email notification is on for " ++ join (js ", ") (map roleText roles) ++ js "."
  end.

Definition incomingOf (step : InvoiceWorkflowStatus) : NotificationSettings :=
  mkNotification (default false (ws_notifyOnEntry step)) (orderedRoles (default [] (ws_notificationRoles step))).
(** [incomingKey]: the id or code, the switch and the roles, joined in the code by separators
    neither the switch nor a role's name contains. *)
Definition incomingKey (step : InvoiceWorkflowStatus) : str * NotificationSettings :=
  (default (ws_code step) (ws_id step), incomingOf step).
#[export] Instance NotificationSettings_eq : EqDecision NotificationSettings. Proof. solve_decision. Defined.

Record Panel := mkPanel {
  np_saved : NotificationSettings; np_draft : NotificationSettings; np_busy : bool;
  np_feedback : option (result str str); np_serverConflict : bool; np_observed : str * NotificationSettings }.
Definition openPanel (step : InvoiceWorkflowStatus) : Panel :=
  mkPanel (incomingOf step) (incomingOf step) false None false (incomingKey step).
Definition panelDirty (p : Panel) : bool := negb (sameNotificationSettings (np_saved p) (np_draft p)).
(** The effect on the stage the panel is given. *)
Definition observe (step : InvoiceWorkflowStatus) (p : Panel) : Panel :=
  if bool_decide (np_observed p = incomingKey step) then p else
  let next := incomingOf step in
  let keep := panelDirty p && negb (sameNotificationSettings (np_draft p) next) in
  mkPanel next (if keep then np_draft p else next) (np_busy p) None keep (incomingKey step).

Definition panelInvalid (p : Panel) : bool :=
  nt_notifyOnEntry (np_draft p) && match nt_notificationRoles (np_draft p) with [] => true | _ => false end.
Definition withDraft (d : NotificationSettings) (p : Panel) : Panel :=
  mkPanel (np_saved p) d (np_busy p) None (np_serverConflict p) (np_observed p).
Definition changeEnabled (canEdit enabled : bool) (p : Panel) : Panel :=
  if negb canEdit || np_busy p then p else withDraft (mkNotification enabled (nt_notificationRoles (np_draft p))) p.
Definition changeRole (canEdit : bool) (role : Role) (selected : bool) (p : Panel) : Panel :=
  if negb canEdit || np_busy p || negb (nt_notifyOnEntry (np_draft p)) then p else
  let roles := nt_notificationRoles (np_draft p) in
  withDraft (mkNotification (nt_notifyOnEntry (np_draft p))
    (orderedRoles (if selected then roles ++ [role] else filterb (λ c, negb (bool_decide (c = role))) roles))) p.
Definition useLatest (canEdit : bool) (p : Panel) : Panel :=
  if negb canEdit || np_busy p || negb (np_serverConflict p) then p
  else mkPanel (np_saved p) (np_saved p) (np_busy p) None false (np_observed p).
Definition knownId (step : InvoiceWorkflowStatus) : option str :=
  id ← ws_id step; if isEmpty id then None else Some id.
Definition saveNotifications (canEdit : bool) (step : InvoiceWorkflowStatus) (p : Panel)
  : option (Panel * (str * NotificationSettings)) :=
  if negb canEdit || np_busy p || negb (panelDirty p) || panelInvalid p then None else
  id ← knownId step;
  Some (mkPanel (np_saved p) (np_draft p) true None (np_serverConflict p) (np_observed p),
        (id, mkNotification (nt_notifyOnEntry (np_draft p)) (orderedRoles (nt_notificationRoles (np_draft p))))).
(** The continuation after [onSave]; the stage it gives the panel is observed afterwards. *)
Definition notificationsSaved (next : NotificationSettings) (p : Panel) : Panel :=
  mkPanel next next false (Some (Ok (js "Notification settings saved."))) false (np_observed p).
Definition notificationsRefused (message : str) (p : Panel) : Panel :=
  mkPanel (np_saved p) (np_draft p) false
    (Some (Err (if isEmpty message then js "Could not save notification settings." else message))) (np_serverConflict p) (np_observed p).

(** Runs of a panel: the stage it is given, the settings its choices were made on - the saved
    ones when they last agreed with the draft - what it has sent, and the panel.  The server
    stores what it is sent. *)
Definition rebase (base : NotificationSettings) (p : Panel) : NotificationSettings := if panelDirty p then base else np_saved p.
Inductive panelRun (canEdit : bool)
  : InvoiceWorkflowStatus → NotificationSettings → option NotificationSettings → Panel → Prop :=
| np_open step : panelRun canEdit step (incomingOf step) None (openPanel step)
| np_enabled step base sent p enabled : panelRun canEdit step base sent p →
    let p' := changeEnabled canEdit enabled p in panelRun canEdit step (rebase base p') sent p'
| np_role step base sent p role selected : panelRun canEdit step base sent p →
    let p' := changeRole canEdit role selected p in panelRun canEdit step (rebase base p') sent p'
| np_latest step base sent p : panelRun canEdit step base sent p →
    let p' := useLatest canEdit p in panelRun canEdit step (rebase base p') sent p'
| np_polled step base sent p step' : panelRun canEdit step base sent p →
    let p' := observe step' p in panelRun canEdit step' (rebase base p') sent p'
| np_save step base p p' id n : panelRun canEdit step base None p → saveNotifications canEdit step p = Some (p', (id, n)) →
    panelRun canEdit step base (Some n) p'
| np_accepted step base p step' n : panelRun canEdit step base (Some n) p → sameNotificationSettings n (incomingOf step') = true →
    let p' := observe step' (notificationsSaved n p) in panelRun canEdit step' (rebase base p') None p'
| np_refused step base p n message : panelRun canEdit step base (Some n) p →
    panelRun canEdit step base None (notificationsRefused message p).

(** ** The order of the stages *)

Definition activeSteps (steps : list InvoiceWorkflowStatus) : list InvoiceWorkflowStatus := filterb ws_active steps.
Definition legacySteps (steps : list InvoiceWorkflowStatus) : list InvoiceWorkflowStatus := filterb (λ s, negb (ws_active s)) steps.
(** [[a[from], a[to]] = [a[to], a[from]]], for two positions of the list. *)
Definition exchange {A} (from to : nat) (l : list A) : list A :=
  match l !! from, l !! to with Some x, Some y => <[to := x]> (<[from := y]> l) | _, _ => l end.
Definition reorderActive (steps : list InvoiceWorkflowStatus) (from to : nat) : list (option str) :=
  map ws_id (exchange from to (activeSteps steps) ++ legacySteps steps).
Inductive StageAction := stage_up | stage_down | stage_rename (label : option str) | stage_toggle.
(** The buttons of the stage at [index]; [None] for one that is absent, disabled or declined. *)
Definition stageRequest (canEdit busy : bool) (steps : list InvoiceWorkflowStatus) (index : nat) (a : StageAction)
  : option (list (option str) + (option str * json)) :=
  step ← activeSteps steps !! index;
  if negb canEdit || ws_isProtected step || busy then None else
  match a with
  | stage_up => if Nat.eqb index 0 then None else Some (inl (reorderActive steps index (index - 1)))
  | stage_down => if (Z.of_nat (length (activeSteps steps)) - 2 <=? Z.of_nat index) then None
                  else Some (inl (reorderActive steps index (index + 1)))
  | stage_rename label =>
      match label with
      | Some next => if isEmpty (trim next) || streq (trim next) (ws_label step) then None
                     else Some (inr (ws_id step, mkObj [fld "label" (trim next)]))
      | None => None
      end
  | stage_toggle => Some (inr (ws_id step, mkObj [fld "active" (negb (ws_active step))]))
  end.
Definition newStage (canEdit busy : bool) (label : str) : option str :=
  if negb canEdit || busy || isEmpty (trim label) then None else Some (trim label).

(** ** Lemmas: ports *)

Lemma uniquePorts_in ports p : p ∈ uniquePorts ports ↔ p ≠ [] ∧ ∃ q, q ∈ ports ∧ p = trim q.
Proof.
  unfold uniquePorts. rewrite elem_of_uniq, elem_of_filterb, list_elem_of_fmap.
  destruct p; naive_solver.
Qed.
Lemma uniquePorts_NoDup ports : NoDup (uniquePorts ports).
Proof. apply NoDup_uniq. Qed.
(** What is unique, trimmed and not blank stays as it is. *)
Lemma uniquePorts_id ports : NoDup ports → (∀ p, p ∈ ports → p ≠ [] ∧ trim p = p) → uniquePorts ports = ports.
Proof.
  intros Hn Hp. unfold uniquePorts. assert (map trim ports = ports) as ->.
  { clear Hn. induction ports as [|p ports IH]; [done|]. cbn [map]. rewrite IH by (intros; apply Hp; by constructor).
    by rewrite (proj2 (Hp p ltac:(by constructor))). }
  rewrite filterb_all; [|intros p [H1 _]%Hp; by destruct p]. apply uniq_from_id; [done|].
  intros x _ ?%elem_of_nil. done.
Qed.
Lemma uniquePorts_trimmed ports p : p ∈ uniquePorts ports → p ≠ [] ∧ trim p = p.
Proof. intros (H1 & q & _ & ->)%uniquePorts_in. by rewrite trim_trim. Qed.

Lemma normal_ports o : let n := normalizeOrg o in
  NoDup (org_ports n) ∧ (∀ p, p ∈ org_ports n → p ≠ [] ∧ trim p = p) ∧ org_primaryPort n = org_designatedPort n ∧
  (org_ports n ≠ [] → org_designatedPort n ∈ org_ports n).
Proof.
  unfold normalizeOrg. cbn [withPorts org_ports org_primaryPort org_designatedPort].
  set (ports := match uniquePorts (org_ports o) with [] => _ | _ => _ end).
  assert (∃ l, ports = uniquePorts l) as [l Hl] by (subst ports; destruct (uniquePorts (org_ports o)) eqn:E; eauto).
  rewrite Hl. split_and!; [apply uniquePorts_NoDup|apply uniquePorts_trimmed|done|].
  intros Hne. destruct (existsb _ _) eqn:E.
  - by apply existsb_true in E as (x & Hx & ->%streq_true).
  - destruct (uniquePorts l); [done|]. by constructor.
Qed.
(** Setting ports that are in order, with one of them as the primary one, is kept. *)
Lemma normal_setPorts o ports primary : ports ≠ [] → NoDup ports → (∀ p, p ∈ ports → p ≠ [] ∧ trim p = p) →
  primary ∈ ports → let n := normalizeOrg (setPorts ports primary o) in
  org_ports n = ports ∧ org_designatedPort n = primary ∧ org_primaryPort n = primary.
Proof.
  intros Hne Hn Hp Hin. unfold normalizeOrg, currentPrimary. cbn [setPorts withPorts org_ports org_designatedPort org_primaryPort].
  assert (truthy primary = true) as -> by (destruct (Hp _ Hin); by destruct primary).
  rewrite uniquePorts_id by done. destruct ports as [|p ports]; [done|].
  assert (existsb (streq primary) (p :: ports) = true) as ->; [|done].
  apply existsb_true. exists primary. auto with vessel.
Qed.
Lemma NPA_trimmed p : p ∈ NPA_PORTS → p ≠ [] ∧ trim p = p.
Proof.
  intros Hp. assert (forallb (λ p, negb (isEmpty p) && streq (trim p) p) NPA_PORTS = true) as H by (vm_compute; done).
  rewrite forallb_true in H. specialize (H p Hp). apply andb_true_iff in H as [H1 H2%streq_true]. by destruct p.
Qed.

(** What the picker reports. *)
Lemma togglePort_spec o port ports primary : org_ports (normalizeOrg o) ≠ [] → togglePort o port = Some (ports, primary) →
  ports ≠ [] ∧ NoDup ports ∧ primary ∈ ports ∧
  (∀ q, q ∈ ports ↔ if decide (q = port) then port ∉ org_ports (normalizeOrg o) else q ∈ org_ports (normalizeOrg o)) ∧
  (org_designatedPort (normalizeOrg o) ∈ ports → primary = org_designatedPort (normalizeOrg o)).
Proof.
  intros Hne Ht. destruct (normal_ports o) as (Hn & _ & _ & _).
  unfold togglePort in Ht. set (sel := org_ports (normalizeOrg o)) in *. set (prim := org_designatedPort (normalizeOrg o)) in *.
  assert (Hsel : existsb (streq port) sel = true ↔ port ∈ sel).
  { rewrite existsb_true. split; [by intros (x & Hx & ->%streq_true)|]. exists port. auto with vessel. }
  destruct (existsb (streq port) sel && Nat.eqb (length sel) 1) eqn:Elock; [done|]. injection Ht as Hports Hprimary.
  assert (Hmem : ∀ q, q ∈ ports ↔ if decide (q = port) then port ∉ sel else q ∈ sel).
  { intros q. subst ports. destruct (existsb (streq port) sel) eqn:Es.
    - rewrite elem_of_filterb. destruct (decide (q = port)) as [->|Hq]; rewrite negb_true_iff, streq_false; naive_solver.
    - assert (port ∉ sel) by (rewrite <- Hsel; congruence). rewrite elem_of_app, list_elem_of_singleton.
      destruct (decide (q = port)); naive_solver. }
  assert (Hnp : ports ≠ []).
  { subst ports. destruct (existsb (streq port) sel) eqn:Es; [|by destruct sel].
    cbn [andb] in Elock. apply Nat.eqb_neq in Elock. destruct sel as [|x [|y sel]]; [done..|]. intros Hnil.
    assert (∀ z, z ∈ x :: y :: sel → z = port) as Hall.
    { intros z Hz. destruct (decide (z = port)) as [|Hzp]; [done|].
      assert (z ∈ @nil str) as []%elem_of_nil. rewrite <- Hnil. apply elem_of_filterb. split; [done|]. by apply negb_true_iff, streq_false. }
    apply NoDup_cons in Hn as [Hx _]. apply Hx. rewrite (Hall x), (Hall y) by (repeat constructor). constructor. }
  assert (Hnd : NoDup ports).
  { subst ports. destruct (existsb (streq port) sel) eqn:Es; [by apply NoDup_filterb|].
    apply NoDup_app. split_and!; [done| |apply NoDup_singleton]. intros x Hx ->%list_elem_of_singleton. apply Hsel in Hx. congruence. }
  assert (Hprim : primary ∈ ports).
  { subst primary. rewrite Hports. destruct (existsb (streq prim) ports) eqn:E.
    - by apply existsb_true in E as (x & Hx & ->%streq_true).
    - destruct ports; [done|]. by constructor. }
  split_and!; [done..|]. intros Hd. subst primary. rewrite Hports.
  assert (existsb (streq prim) ports = true) as ->; [|done]. apply existsb_true. exists prim. auto with vessel.
Qed.

(** Ticking a port in the picker adds it, unticking removes it, and nothing else changes: the
    last port cannot be removed, the primary port stays the same unless it was the one removed,
    and it is always one of the ports - in the form and in what the form then sends. *)
Theorem ports_picked o port ports primary : org_ports (normalizeOrg o) ≠ [] → port ∈ NPA_PORTS →
  togglePort o port = Some (ports, primary) →
  let n := normalizeOrg (setPorts ports primary o) in
  org_ports n = ports ∧ org_designatedPort n = primary ∧ primary ∈ ports ∧
  (∀ q, q ∈ ports ↔ if decide (q = port) then port ∉ org_ports (normalizeOrg o) else q ∈ org_ports (normalizeOrg o)) ∧
  (org_designatedPort (normalizeOrg o) ≠ port → primary = org_designatedPort (normalizeOrg o)).
Proof.
  intros Hne Hport Ht. destruct (normal_ports o) as (_ & Hp & _ & Hin). specialize (Hin Hne).
  destruct (togglePort_spec o port ports primary Hne Ht) as (Hnp & Hnd & Hprim & Hmem & Hkeep).
  destruct (normal_setPorts o ports primary Hnp Hnd) as (H1 & H2 & _); [|done|].
  { intros p Hq. apply Hmem in Hq. destruct (decide (p = port)) as [->|]; [by apply NPA_trimmed|by apply Hp]. }
  split_and!; [done..|]. intros Hd. apply Hkeep, Hmem. by destruct (decide (org_designatedPort (normalizeOrg o) = port)).
Qed.
Definition calabar : Organization :=
  mkOrganization (js "o1") true (js "Calabar Agency") [] [] [] [] (js "Onne Port, Rivers") (js "Onne Port, Rivers")
    (map js ["Onne Port, Rivers"; " Port of Calabar "]%string) None 1 None.
Lemma ports_picked_witness : ∃ ports primary, togglePort calabar (js "Onne Port, Rivers") = Some (ports, primary) ∧
  org_ports (normalizeOrg (setPorts ports primary calabar)) = [js "Port of Calabar"].
Proof.
  do 2 eexists. split; [vm_compute; reflexivity|].
  rewrite (proj1 (ports_picked calabar (js "Onne Port, Rivers") _ _ ltac:(by vm_compute)
    ltac:(apply (bool_decide_unpack _); by vm_compute) ltac:(vm_compute; reflexivity))). reflexivity.
Defined.

(** ** The save bar *)

Section Page.
Context `{Host}.

Lemma updateForm_dirty u p : sp_dirty (updateForm u p) = true.
Proof. done. Qed.

(** The page shows the store's values wherever nothing is unsaved, in every state it can reach:
    whatever is typed, polled, saved, refused or discarded. *)
Definition showsStore (settings : AppTypes.Settings) (org : Organization) (p : SettingsPage) : Prop :=
  (sp_dirty p = false → sp_form p = toSettingsForm settings) ∧ (sp_orgDirty p = false → sp_orgForm p = normalizeOrg org).
Lemma synced_shows settings org p : showsStore settings org (synced settings org p).
Proof. unfold showsStore, synced. cbn. split; by intros ->. Qed.
Lemma saveSettings_same canEdit p p' r : saveSettings canEdit p = Some (p', r) →
  mayStore canEdit p = true ∧ sp_form p' = sp_form p ∧ sp_dirty p' = sp_dirty p ∧ sp_orgForm p' = sp_orgForm p ∧
  sp_orgDirty p' = sp_orgDirty p ∧ saveSettings canEdit p' = None.
Proof.
  unfold saveSettings. destruct (mayStore canEdit p) eqn:Em; [|done]. cbn [negb].
  assert (Hbusy : ∀ v, v ≠ sv_idle → mayStore canEdit (withSaving v p) = false).
  { intros v Hv. unfold mayStore. cbn. destruct v; [done|..]; by rewrite andb_false_r. }
  destruct (sp_dirty p) eqn:Ed, (sp_orgDirty p) eqn:Eo; intros [= <- <-]; cbn; rewrite Hbusy by done; done.
Qed.
Lemma page_shows canEdit settings org p : pageRun canEdit settings org p → showsStore settings org p.
Proof.
  induction 1 as [|settings org settings' org' p _ _|settings org u p _ _ IH|settings org u p _ _ IH|settings org v p _ _ IH
    |settings org p _ _ IH|settings org p p' r _ IH Hs|settings org p form prof settings' _ IH Hs|settings org p n org' _ IH Hs
    |settings org p _ IH|settings org p _ IH _]; try apply synced_shows; try done.
  - by destruct IH as [_ IH].
  - by destruct IH as [IH _].
  - unfold addTerminal. destruct (isEmpty _); [done|]. destruct (existsb _ _); [done|]. by destruct IH as [_ IH].
  - apply saveSettings_same in Hs as (_ & H1 & H2 & H3 & H4 & _). unfold showsStore. by rewrite H1, H2, H3, H4.
Qed.

Definition saveIdle (p : SettingsPage) : Prop := sp_saving p = sv_idle ∧ anyDirty p = false.
(** Only who may edit saves; a save sends everything that is unsaved and nothing else, the
    rates as they stand and then the profile with its ports in order, and when both are
    accepted, with nothing typed meanwhile, nothing is unsaved; what is not unsaved is shown as
    the store has it. *)
Theorem settings_saved canEdit settings org p p' r : pageRun canEdit settings org p → saveSettings canEdit p = Some (p', r) →
  canEdit = true ∧ showsStore settings org p' ∧
  match r with
  | req_settings f => sp_dirty p = true ∧ f = sp_form p ∧
      let '(p2, next) := settingsAccepted p' in
      if sp_orgDirty p then next = Some (req_profile (normalizeOrg (sp_orgForm p))) ∧ saveIdle (profileAccepted p2)
      else next = None ∧ saveIdle p2
  | req_profile n => sp_dirty p = false ∧ sp_orgDirty p = true ∧ n = normalizeOrg (sp_orgForm p) ∧ saveIdle (profileAccepted p')
  end.
Proof.
  intros Hr Hs. destruct (saveSettings_same _ _ _ _ Hs) as (Hm & H1 & H2 & H3 & H4 & _). split_and!.
  - unfold mayStore in Hm. by apply andb_true_iff in Hm as [_ ?].
  - destruct (page_shows _ _ _ _ Hr) as [Hf Ho]. split; [by rewrite H2, H1|by rewrite H4, H3].
  - unfold saveSettings in Hs. rewrite Hm in Hs. cbn [negb] in Hs. unfold saveIdle, anyDirty.
    destruct (sp_dirty p) eqn:Ed, (sp_orgDirty p) eqn:Eo; simplify_eq; cbn; by rewrite ?Ed, ?Eo.
Qed.

(** What is typed while the rates are being saved is lost: the answer declares the form clean,
    and the effect then shows the store's values in its place. *)
Lemma edit_during_save_lost canEdit settings org p p' f u settings' : pageRun canEdit settings org p →
  saveSettings canEdit p = Some (p', req_settings f) →
  let after := synced settings' org (fst (settingsAccepted (updateForm u p'))) in
  sp_dirty after = false ∧ sp_form after = toSettingsForm settings'.
Proof.
  intros Hr Hs. unfold saveSettings in Hs. destruct (mayStore canEdit p); [|done]. cbn [negb] in Hs.
  destruct (sp_dirty p), (sp_orgDirty p); by simplify_eq/=.
Qed.

(** A terminal is only added when no other one reads the same, whatever case and blanks. *)
Lemma addTerminal_spec p : let p' := addTerminal p in
  sf_terminals (sp_form p') = sf_terminals (sp_form p) ∨
  (sf_terminals (sp_form p') = sf_terminals (sp_form p) ++ [trim (sp_terminalToAdd p)] ∧ sp_dirty p' = true ∧
   trim (sp_terminalToAdd p) ≠ [] ∧
   ∀ t, t ∈ sf_terminals (sp_form p) → toLocaleLowerCase (trim t) ≠ toLocaleLowerCase (trim (sp_terminalToAdd p))).
Proof.
  unfold addTerminal. destruct (trim (sp_terminalToAdd p)) as [|c t] eqn:Et; cbn [isEmpty]; [by left|].
  destruct (existsb _ _) eqn:E; [by left|]. right. rewrite existsb_false in E. split_and!; [by cbn; destruct (sp_form p)|done|done|].
  intros x Hx. by apply streq_false, (E x).
Qed.
End Page.

Definition sampleSettings : AppTypes.Settings :=
  mkSettings (numOfZ 5) (numOfZ 1500) (mkDuesRates (numOfZ 1) (numOfZ 2) (numOfZ 3)) (numOfZ 1) (js "Calabar") [js "Berth 4"].
Definition editedSettings : SettingsPage :=
  setOrgField (o_name (js "New Name")) (updateForm (up_exchangeRate (numOfZ 1600)) (openSettings sampleSettings calabar)).
Lemma settings_saved_witness : ∃ p', saveSettings true editedSettings = Some (p', req_settings (sp_form editedSettings)) ∧
  snd (settingsAccepted p') = Some (req_profile (normalizeOrg (sp_orgForm editedSettings))).
Proof.
  eexists. split; [vm_compute; reflexivity|].
  assert (Hr : @pageRun asciiHost true sampleSettings calabar editedSettings)
    by (unfold editedSettings; apply pr_org, pr_form, pr_open; reflexivity).
  exact (proj1 (proj2 (proj2 (proj2 (proj2 (@settings_saved asciiHost true sampleSettings calabar editedSettings _ _ Hr eq_refl)))))).
Defined.

(** ** Notifications *)

Lemma same_refl n : sameNotificationSettings n n = true.
Proof. unfold sameNotificationSettings. by rewrite Bool.eqb_reflx, bool_decide_eq_true_2. Qed.
Lemma same_sym l r : sameNotificationSettings l r = sameNotificationSettings r l.
Proof.
  unfold sameNotificationSettings. f_equal; [by destruct (nt_notifyOnEntry l), (nt_notifyOnEntry r)|].
  by apply bool_decide_ext; split.
Qed.
Lemma same_iff l r : sameNotificationSettings l r = true ↔
  nt_notifyOnEntry l = nt_notifyOnEntry r ∧ orderedRoles (nt_notificationRoles l) = orderedRoles (nt_notificationRoles r).
Proof. unfold sameNotificationSettings. by rewrite andb_true_iff, eqb_true_iff, bool_decide_eq_true. Qed.
Lemma same_trans a b c : sameNotificationSettings a b = true → sameNotificationSettings b c = true → sameNotificationSettings a c = true.
Proof.
  intros (H1 & H2)%same_iff (H3 & H4)%same_iff. apply same_iff. split; congruence.
Qed.
Lemma orderedRoles_in role roles : role ∈ orderedRoles roles ↔ role ∈ roles.
Proof.
  unfold orderedRoles. rewrite elem_of_filterb, bool_decide_eq_true. split; [by intros [_ ?]|].
  split; [|done]. destruct role; repeat constructor.
Qed.
Lemma orderedRoles_idem roles : orderedRoles (orderedRoles roles) = orderedRoles roles.
Proof.
  assert (∀ l, filterb (λ r, bool_decide (r ∈ orderedRoles roles)) l = filterb (λ r, bool_decide (r ∈ roles)) l) as H; [|apply H].
  intros l. apply List.filter_ext. intros r. apply bool_decide_ext, orderedRoles_in.
Qed.

(** A panel follows the stage it is given; its choices were made on the saved settings unless it
    says that those changed. *)
Record panelOk (step : InvoiceWorkflowStatus) (base : NotificationSettings) (sent : option NotificationSettings) (p : Panel)
  : Prop := {
  po_saved : sameNotificationSettings (np_saved p) (incomingOf step) = true;
  po_observed : np_observed p = incomingKey step;
  po_busy : np_busy p = bool_decide (is_Some sent);
  po_base : np_serverConflict p = false ∨ panelDirty p = false → sameNotificationSettings base (np_saved p) = true }.

Lemma rebase_ok base p : np_serverConflict p = true ∨ panelDirty p = false ∨ sameNotificationSettings base (np_saved p) = true →
  np_serverConflict p = false ∨ panelDirty p = false → sameNotificationSettings (rebase base p) (np_saved p) = true.
Proof.
  unfold rebase. destruct (panelDirty p); [|intros; apply same_refl].
  intros [Hc|[?|Hb]] [Hc'|?]; congruence.
Qed.
Lemma withDraft_ok step base sent p d : panelOk step base sent p →
  panelOk step (rebase base (withDraft d p)) sent (withDraft d p).
Proof.
  intros [H1 H2 H3 H4]. split; [done..|]. apply rebase_ok. cbn [withDraft np_serverConflict np_saved].
  destruct (np_serverConflict p); [by left|]. right; right. apply H4. by left.
Qed.
Lemma same_panel_ok step base sent p : panelOk step base sent p → panelOk step (rebase base p) sent p.
Proof.
  intros [H1 H2 H3 H4]. split; [done..|]. apply rebase_ok.
  destruct (np_serverConflict p); [by left|]. right; right. apply H4. by left.
Qed.
Lemma observe_ok step' base sent p : np_busy p = bool_decide (is_Some sent) →
  (np_serverConflict p = true ∨ panelDirty p = false ∨ sameNotificationSettings base (np_saved p) = true) →
  (np_observed p = incomingKey step' → sameNotificationSettings (np_saved p) (incomingOf step') = true) →
  panelOk step' (rebase base (observe step' p)) sent (observe step' p).
Proof.
  intros Hb Hbase Hs. unfold observe. destruct (decide (np_observed p = incomingKey step')) as [Hk|Hk];
    [rewrite bool_decide_eq_true_2 by done|rewrite bool_decide_eq_false_2 by done].
  - split; [by apply Hs|done|done|]. by apply rebase_ok.
  - set (keep := panelDirty p && _). split; [apply same_refl|done|done|]. apply rebase_ok. cbn [np_serverConflict].
    destruct keep; [by left|]. right; left. unfold panelDirty. cbn [np_saved np_draft]. by rewrite same_refl.
Qed.
Lemma panelRun_ok canEdit step base sent p : panelRun canEdit step base sent p → panelOk step base sent p.
Proof.
  induction 1 as [step|step base sent p enabled _ IH|step base sent p role selected _ IH|step base sent p _ IH
    |step base sent p step' _ IH|step base p p' id n _ IH Hs|step base p step' n _ IH Hn|step base p n message _ IH].
  - split; [apply same_refl|done|done|intros; apply same_refl].
  - subst p'. unfold changeEnabled. destruct (negb canEdit || np_busy p); [by apply same_panel_ok|by apply withDraft_ok].
  - subst p'. unfold changeRole. destruct (_ || _); [by apply same_panel_ok|by apply withDraft_ok].
  - subst p'. unfold useLatest. destruct (_ || _); [by apply same_panel_ok|]. destruct IH as [H1 H2 H3 H4].
    split; [done..|]. apply rebase_ok. right; left. unfold panelDirty. cbn [np_saved np_draft]. by rewrite same_refl.
  - destruct IH as [H1 H2 H3 H4]. apply observe_ok; [done| |].
    + destruct (np_serverConflict p); [by left|]. right; right. apply H4. by left.
    + intros Hk. rewrite H2 in Hk. apply (f_equal snd) in Hk. cbn [incomingKey snd] in Hk. by rewrite <- Hk.
  - unfold saveNotifications in Hs. destruct (_ || panelInvalid p); [done|].
    destruct (knownId step); simplify_eq/=. destruct IH as [H1 H2 H3 H4]. by split.
  - apply observe_ok; [done| |done]. right; left. unfold panelDirty. cbn [notificationsSaved np_saved np_draft]. by rewrite same_refl.
  - by destruct IH as [H1 H2 H3 H4].
Qed.

(** What a panel sends changes the stage's policy as the store has it, names its recipients
    in one order and at least one of them when the notification is on; and unless the panel says
    that the server's settings changed meanwhile, the choices were made on the settings they
    replace.  While the answer is awaited nothing more is sent. *)
Theorem notifications_informed canEdit step base sent p p' id n : panelRun canEdit step base sent p →
  saveNotifications canEdit step p = Some (p', (id, n)) →
  canEdit = true ∧ sent = None ∧ ws_id step = Some id ∧
  sameNotificationSettings n (incomingOf step) = false ∧ sameNotificationSettings n (np_draft p) = true ∧
  orderedRoles (nt_notificationRoles n) = nt_notificationRoles n ∧
  (nt_notifyOnEntry n = true → nt_notificationRoles n ≠ []) ∧
  (np_serverConflict p = false → sameNotificationSettings base (incomingOf step) = true) ∧
  saveNotifications canEdit step p' = None.
Proof.
  intros Hr Hs. destruct (panelRun_ok _ _ _ _ _ Hr) as [H1 _ H3 H4]. unfold saveNotifications in Hs.
  destruct canEdit; [|done]. destruct (np_busy p); [done|]. destruct (panelDirty p) eqn:Ed; [|done].
  destruct (panelInvalid p) eqn:Ei; [done|]. cbn [negb orb] in Hs.
  destruct (knownId step) as [id'|] eqn:Eid; [|done]. cbn [mbind option_bind] in Hs. simplify_eq.
  set (n := mkNotification _ _). assert (Hn : sameNotificationSettings n (np_draft p) = true).
  { apply same_iff. split; [done|apply orderedRoles_idem]. }
  split_and!; [done|by destruct sent| | |done|apply orderedRoles_idem| | |done].
  - unfold knownId in Eid. destruct (ws_id step) as [i|]; [|done]. cbn in Eid. by destruct (isEmpty i); simplify_eq.
  - apply not_true_is_false. intros Hsame. unfold panelDirty in Ed. apply negb_true_iff in Ed.
    assert (sameNotificationSettings (np_saved p) (np_draft p) = true) as Htrue; [|congruence].
    apply (same_trans _ (incomingOf step)); [done|]. apply (same_trans _ n); [by rewrite same_sym|done].
  - unfold panelInvalid in Ei. subst n. cbn [nt_notifyOnEntry nt_notificationRoles]. intros Hon. rewrite Hon in Ei.
    destruct (nt_notificationRoles (np_draft p)) as [|r rs]; [done|]. intros Hnil.
    assert (r ∈ @nil Role) as []%elem_of_nil. rewrite <- Hnil. apply orderedRoles_in. constructor.
  - intros Hc. apply (same_trans _ (np_saved p)); [|done]. apply H4. by left.
Qed.
Definition awaiting (notify : bool) (roles : list Role) : InvoiceWorkflowStatus :=
  mkInvoiceWorkflowStatus (Some (js "s1")) (js "awaiting") (js "Awaiting documents") (Some 1) true false false false (Some notify) (Some roles).
Definition financePanel : Panel := changeRole true Finance true (changeEnabled true true (openPanel (awaiting false []))).
Lemma financeRun : panelRun true (awaiting false []) (incomingOf (awaiting false [])) None financePanel.
Proof.
  apply (np_role true (awaiting false []) (incomingOf (awaiting false [])) None
    (changeEnabled true true (openPanel (awaiting false []))) Finance true).
  apply (np_enabled true (awaiting false []) (incomingOf (awaiting false [])) None (openPanel (awaiting false [])) true).
  apply np_open.
Qed.
Lemma notifications_informed_witness : ∃ p' n, saveNotifications true (awaiting false []) financePanel = Some (p', (js "s1", n)) ∧
  nt_notificationRoles n = [Finance] ∧ sameNotificationSettings n (incomingOf (awaiting false [])) = false.
Proof.
  do 2 eexists. split; [vm_compute; reflexivity|]. split; [reflexivity|].
  exact (proj1 (proj2 (proj2 (proj2 (notifications_informed true _ _ _ _ _ _ _ financeRun eq_refl))))).
Defined.

(** A change on the server leaves the choices alone, and says so, unless nothing was chosen or
    the server now has the same. *)
Lemma choices_kept step p : np_observed p ≠ incomingKey step → let p' := observe step p in
  np_serverConflict p' = panelDirty p' ∧
  (panelDirty p = true → sameNotificationSettings (np_draft p') (np_draft p) = true).
Proof.
  intros Hk. cbn. unfold observe. rewrite bool_decide_eq_false_2 by done.
  assert (Hd : ∀ a b c d e, panelDirty (mkPanel a b c d e (incomingKey step)) = negb (sameNotificationSettings a b)) by done.
  rewrite Hd. cbn [np_serverConflict np_draft]. destruct (panelDirty p); cbn [andb]; [|by rewrite same_refl].
  destruct (sameNotificationSettings (np_draft p) (incomingOf step)) eqn:E; cbn [negb].
  - split; [by rewrite same_refl|]. intros _. by rewrite same_sym.
  - split; [by rewrite same_sym, E|]. intros _. apply same_refl.
Qed.

(** The message that confirms a save is cleared by the effect: the stage the panel is then given
    is the one that was saved, which is another than the one before. *)
Lemma confirmation_cleared canEdit step base p p' id n step' : panelRun canEdit step base None p →
  saveNotifications canEdit step p = Some (p', (id, n)) → sameNotificationSettings n (incomingOf step') = true →
  np_feedback (observe step' (notificationsSaved n p')) = None.
Proof.
  intros Hr Hs Hn. pose proof (np_save _ _ _ _ _ _ _ Hr Hs) as Hr'. destruct (panelRun_ok _ _ _ _ _ Hr') as [_ H2 _ _].
  destruct (panelRun_ok _ _ _ _ _ Hr) as [H1 _ _ _].
  unfold observe. rewrite bool_decide_eq_false_2; [done|]. cbn [notificationsSaved np_observed]. rewrite H2. intros Hk.
  assert (Hin : sameNotificationSettings (incomingOf step) (incomingOf step') = true).
  { apply (f_equal snd) in Hk. cbn [incomingKey snd] in Hk. rewrite Hk. apply same_refl. }
  clear Hk.
  unfold saveNotifications in Hs.
  destruct (panelDirty p) eqn:Ed; [|by rewrite !orb_true_r in Hs]. destruct (_ || panelInvalid p); [done|].
  destruct (knownId step); [|done]. cbn [mbind option_bind] in Hs. simplify_eq.
  unfold panelDirty in Ed. apply negb_true_iff in Ed.
  assert (sameNotificationSettings (np_saved p) (np_draft p) = true) as Htrue; [|congruence].
  apply (same_trans _ (incomingOf step)); [done|]. apply (same_trans _ (incomingOf step')); [done|].
  rewrite same_sym. eapply same_trans; [|exact Hn]. apply same_iff. split; [done|]. symmetry. apply orderedRoles_idem.
Qed.

(** ** The order of the stages *)

Lemma exchange_perm {A} i j (l : list A) : exchange i j l ≡ₚ l.
Proof.
  unfold exchange. destruct (l !! i) as [x|] eqn:Hx; [|done]. destruct (l !! j) as [y|] eqn:Hy; [|done].
  by apply Permutation_insert_swap.
Qed.
Lemma exchange_lookup {A} i j (l : list A) x y : l !! i = Some x → l !! j = Some y →
  exchange i j l !! i = Some y ∧ exchange i j l !! j = Some x ∧ ∀ k, k ≠ i → k ≠ j → exchange i j l !! k = l !! k.
Proof.
  intros Hx Hy. unfold exchange. rewrite Hx, Hy.
  assert (Hj : (j < length (<[i:=y]> l))%nat) by (rewrite length_insert; by apply lookup_lt_Some in Hy).
  split_and!.
  - destruct (decide (i = j)) as [->|Hij]; [simplify_eq; by rewrite list_lookup_insert_eq|].
    rewrite list_lookup_insert_ne by done. apply list_lookup_insert_eq. by apply lookup_lt_Some in Hx.
  - by apply list_lookup_insert_eq.
  - intros k Hi Hj'. by rewrite !list_lookup_insert_ne.
Qed.
Lemma steps_split steps : activeSteps steps ++ legacySteps steps ≡ₚ steps.
Proof.
  unfold activeSteps, legacySteps. induction steps as [|s steps IH]; [done|]. cbn. destruct (ws_active s); cbn.
  - by rewrite IH.
  - by rewrite <- Permutation_middle, IH.
Qed.

(** [ids] is the order of the stages but for the active ones at [i] and [j]. *)
Definition exchanged (steps : list InvoiceWorkflowStatus) (i j : nat) (ids : list (option str)) : Prop :=
  ∃ s s', activeSteps steps !! i = Some s ∧ activeSteps steps !! j = Some s' ∧ ids !! i = Some (ws_id s') ∧ ids !! j = Some (ws_id s) ∧
    ∀ k, k ≠ i → k ≠ j → ids !! k = map ws_id (activeSteps steps ++ legacySteps steps) !! k.
Lemma reorderActive_spec steps i j : (i < length (activeSteps steps))%nat → (j < length (activeSteps steps))%nat → i ≠ j →
  exchanged steps i j (reorderActive steps i j) ∧ reorderActive steps i j ≡ₚ map ws_id steps.
Proof.
  intros Hi Hj Hne. split; [|unfold reorderActive; by rewrite exchange_perm, steps_split].
  apply lookup_lt_is_Some in Hi as [s Hs], Hj as [s' Hs']. exists s, s'.
  destruct (exchange_lookup _ _ _ _ _ Hs Hs') as (H1 & H2 & H3). unfold reorderActive.
  pose proof (Permutation_length (exchange_perm i j (activeSteps steps))) as Hlen.
  split_and!; [done|done|rewrite list_lookup_fmap..|].
  - by rewrite (lookup_app_l_Some _ _ _ _ H1).
  - by rewrite (lookup_app_l_Some _ _ _ _ H2).
  - intros k Hk1 Hk2. rewrite !list_lookup_fmap. f_equal. destruct (decide (k < length (activeSteps steps))%nat).
    + rewrite !lookup_app_l by lia. by apply H3.
    + rewrite !lookup_app_r by lia. by rewrite Hlen.
Qed.

(** Moving a stage asks for an order that has every stage, active or not, exactly once: the
    active ones first, as they were but for the stage and its neighbour, which exchange
    places; and only an unprotected stage moves, by someone who may edit. *)
Theorem reorder_exchanges canEdit busy steps index a ids : stageRequest canEdit busy steps index a = Some (inl ids) →
  ids ≡ₚ map ws_id steps ∧ canEdit = true ∧ busy = false ∧
  ∃ other, exchanged steps index other ids ∧ (other = index - 1 ∨ other = index + 1)%nat ∧ other ≠ index ∧
    ∀ s, activeSteps steps !! index = Some s → ws_isProtected s = false.
Proof.
  unfold stageRequest. destruct (activeSteps steps !! index) as [s|] eqn:Es; [|done]. cbn [mbind option_bind].
  destruct canEdit, (ws_isProtected s) eqn:Ep, busy; try done. cbn [negb orb].
  pose proof (lookup_lt_Some _ _ _ Es) as Hlt.
  assert (Hp : ∀ s0, Some s = Some s0 → ws_isProtected s0 = false) by (by intros ? [= <-]).
  destruct a as [| |label|]; [| |destruct label; [by destruct (_ || _)|done]|done].
  - destruct (Nat.eqb_spec index 0); [done|]. intros [= <-].
    destruct (reorderActive_spec steps index (index - 1)) as [H1 H2]; [lia..|].
    split_and!; [done..|]. exists (index - 1)%nat. split_and!; [done|by left|lia|done].
  - destruct (Z.leb_spec (Z.of_nat (length (activeSteps steps)) - 2) (Z.of_nat index)); [done|]. intros [= <-].
    destruct (reorderActive_spec steps index (index + 1)) as [H1 H2]; [lia..|].
    split_and!; [done..|]. exists (index + 1)%nat. split_and!; [done|by right|lia|done].
Qed.
Definition stage (code : string) (active protected : bool) : InvoiceWorkflowStatus :=
  mkInvoiceWorkflowStatus (Some (js code)) (js code) (js code) None active false false protected None None.
Definition stages : list InvoiceWorkflowStatus :=
  [stage "issued" true false; stage "old" false false; stage "sent" true false; stage "paid" true true].
Lemma reorder_exchanges_witness : ∃ ids, stageRequest true false stages 0 stage_down = Some (inl ids) ∧
  ids = map (λ c, Some (js c)) ["sent"; "issued"; "paid"; "old"]%string ∧ ids ≡ₚ map ws_id stages.
Proof.
  eexists. split; [vm_compute; reflexivity|]. split; [reflexivity|].
  exact (proj1 (reorder_exchanges true false stages 0 stage_down _ eq_refl)).
Defined.
