(* ===== verification/AccountSecurity.v ===== *)
(** * Account and security (frontend/src/screens/AccountSecurity.tsx)

    The profile form, the password form, and the panel that sets up an authenticator, shows the
    recovery codes once and replaces them; what its asynchronous operations may leave behind. *)
From S2P Require Import Prelude JsString Json Codec MeasurementTypes Host Endpoints ApiClient AppTypes.

(** ** Profile *)

Record ProfileForm := mkProfileForm { pf_name : str; pf_email : str; pf_password : str; pf_pending : bool; pf_notice : option str }.
Definition profileLoaded (name email : str) (f : ProfileForm) : ProfileForm :=
  mkProfileForm name email (pf_password f) (pf_pending f) (pf_notice f).
Section Profile.
Context `{Host}.
Definition emailChanged (current : str) (f : ProfileForm) : bool :=
  negb (streq (toLowerCase (trim (pf_email f))) (toLowerCase current)).
Definition profileDisabled (current : str) (f : ProfileForm) : bool :=
  pf_pending f || isEmpty (trim (pf_name f)) || isEmpty (trim (pf_email f))
  || (emailChanged current f && isEmpty (pf_password f)).
Definition profilePatch (current : str) (f : ProfileForm) : json :=
  mkObj [fld "name" (trim (pf_name f)); fld "email" (toLowerCase (trim (pf_email f)));
         (js "currentPassword", if emailChanged current f then Some (JStr (pf_password f)) else None)].
Definition saveProfile (current : str) (f : ProfileForm) : option (ProfileForm * json) :=
  if profileDisabled current f then None else
  Some (mkProfileForm (pf_name f) (pf_email f) (pf_password f) true None, profilePatch current f).
(** [onSuccess], once the session was read again. *)
Definition profileSaved (verificationRequired : bool) (f : ProfileForm) : ProfileForm :=
  mkProfileForm (pf_name f) (pf_email f) [] false
    (Some (if verificationRequired then js "Profile saved. Check your new email address to confirm the change."
           else js "Profile saved.")).
End Profile.

(** ** Password *)

Record PasswordForm := mkPasswordForm { pw_current : str; pw_next : str; pw_confirm : str; pw_pending : bool; pw_notice : option str }.
(** The current one is a required input. *)
Definition changePassword (f : PasswordForm) : option (PasswordForm * (str * str)) :=
  if pw_pending f || isEmpty (pw_current f) || (length (pw_next f) <? 12)%nat || negb (streq (pw_next f) (pw_confirm f)) then None else
  Some (mkPasswordForm (pw_current f) (pw_next f) (pw_confirm f) true None, (pw_current f, pw_next f)).
Definition passwordChanged (detail : str) (f : PasswordForm) : PasswordForm :=
  mkPasswordForm [] [] [] false
    (Some (if isEmpty detail then js "Password changed. Other sessions have been revoked." else detail)).

(** ** The authenticator *)

Inductive MfaOperation := op_setup | op_confirm | op_regenerate.
#[export] Instance MfaOperation_eq : EqDecision MfaOperation. Proof. solve_decision. Defined.
Record MfaSetup := mkMfaSetup { ms_secret : str; ms_provisioningUri : str }.
(** What a handler is suspended at: a request's answer, or a reading of the session, by the
    confirmation that started it or by the retry button. *)
Inductive Await := aw_answer (o : MfaOperation) | aw_refresh (confirming : bool) | aw_disable.
#[export] Instance Await_eq : EqDecision Await. Proof. solve_decision. Defined.

(** [mf_busy] is the ref [operationBusy]; [mf_mounted] that [lifecycle] is what the handlers
    took it for; [mf_awaits] the suspended handlers. *)
Record Mfa := mkMfa {
  mf_enabledUser : bool;      (** [user.mfaEnabled], the session's *)
  mf_setup : option MfaSetup; mf_code : str; mf_recoveryCode : str; mf_codes : list str;
  mf_setupPassword : str; mf_disablePassword : str; mf_showDisable : bool;
  mf_operation : option MfaOperation; mf_error : option str; mf_confirmed : bool; mf_codesSaved : bool;
  mf_refreshFailed : bool; mf_refreshPending : bool; mf_busy : bool; mf_mounted : bool; mf_awaits : list Await }.
Definition openMfa (enabled : bool) : Mfa :=
  mkMfa enabled None [] [] [] [] [] false None None false false false false false true [].

Definition mfaEnabled (s : Mfa) : bool := mf_enabledUser s || mf_confirmed s.
Definition hasCodes (s : Mfa) : bool := match mf_codes s with [] => false | _ => true end.
Definition currentStep (s : Mfa) : Z := if hasCodes s || mfaEnabled s then 3 else if mf_setup s is Some _ then 2 else 1.
Definition sixDigits (s : str) : bool := Nat.eqb (length s) 6 && forallb isDigit s.
(** [value.replace(/\D/g, "").slice(0, 6)] *)
Definition codeTyped (value : str) : str := take 6 (filterb isDigit value).

(** The operation's button or form is there and works. *)
Definition offered (guided : bool) (s : Mfa) (o : MfaOperation) : bool :=
  match o with
  | op_setup => negb (mfaEnabled s) && negb (bool_decide (is_Some (mf_setup s))) && negb (isEmpty (mf_setupPassword s))
  | op_confirm => bool_decide (is_Some (mf_setup s)) && sixDigits (mf_code s)
  | op_regenerate => mfaEnabled s && negb guided && negb (hasCodes s) && sixDigits (mf_recoveryCode s)
  end && match mf_operation s with None => true | _ => false end.

(** Parts of the state that one handler writes together. *)
Definition withOperation (o : option MfaOperation) (busy : bool) (error : option str) (awaits : list Await) (s : Mfa) : Mfa :=
  mkMfa (mf_enabledUser s) (mf_setup s) (mf_code s) (mf_recoveryCode s) (mf_codes s) (mf_setupPassword s) (mf_disablePassword s)
    (mf_showDisable s) o error (mf_confirmed s) (mf_codesSaved s) (mf_refreshFailed s) (mf_refreshPending s) busy (mf_mounted s) awaits.
Definition withRefresh (failed pending : bool) (s : Mfa) : Mfa :=
  mkMfa (mf_enabledUser s) (mf_setup s) (mf_code s) (mf_recoveryCode s) (mf_codes s) (mf_setupPassword s) (mf_disablePassword s)
    (mf_showDisable s) (mf_operation s) (mf_error s) (mf_confirmed s) (mf_codesSaved s) failed pending (mf_busy s) (mf_mounted s) (mf_awaits s).
Definition withSetup (setup : option MfaSetup) (code password : str) (codes : list str) (saved confirmed : bool) (s : Mfa) : Mfa :=
  mkMfa (mf_enabledUser s) setup code (mf_recoveryCode s) codes password (mf_disablePassword s)
    (mf_showDisable s) (mf_operation s) (mf_error s) confirmed saved (mf_refreshFailed s) (mf_refreshPending s) (mf_busy s) (mf_mounted s) (mf_awaits s).
Definition withRecovery (recoveryCode : str) (codes : list str) (saved : bool) (s : Mfa) : Mfa :=
  mkMfa (mf_enabledUser s) (mf_setup s) (mf_code s) recoveryCode codes (mf_setupPassword s) (mf_disablePassword s)
    (mf_showDisable s) (mf_operation s) (mf_error s) (mf_confirmed s) saved (mf_refreshFailed s) (mf_refreshPending s) (mf_busy s) (mf_mounted s) (mf_awaits s).
Definition withDisable (show : bool) (password : str) (awaits : list Await) (s : Mfa) : Mfa :=
  mkMfa (mf_enabledUser s) (mf_setup s) (mf_code s) (mf_recoveryCode s) (mf_codes s) (mf_setupPassword s) password
    show (mf_operation s) (mf_error s) (mf_confirmed s) (mf_codesSaved s) (mf_refreshFailed s) (mf_refreshPending s) (mf_busy s) (mf_mounted s) awaits.

(** [runMfaOperation], up to its request; the checks of the handler itself. *)
Definition operationRequest (s : Mfa) (o : MfaOperation) : str :=
  match o with op_setup => mf_setupPassword s | op_confirm => mf_code s | op_regenerate => mf_recoveryCode s end.
Definition runMfaOperation (o : MfaOperation) (s : Mfa) : option (Mfa * str) :=
  if mf_busy s || match o with
                  | op_setup => isEmpty (mf_setupPassword s)
                  | op_confirm => negb (sixDigits (mf_code s))
                  | op_regenerate => negb (sixDigits (mf_recoveryCode s))
                  end
  then None
  else Some (withOperation (Some o) true None (mf_awaits s ++ [aw_answer o]) s, operationRequest s o).
(** [finally] *)
Definition operationEnds (error : option str) (s : Mfa) : Mfa := withOperation None false error (mf_awaits s) s.

Definition resumed (a : Await) (s : Mfa) : Mfa :=
  withOperation (mf_operation s) (mf_busy s) (mf_error s)
    (match list_find (λ b, b = a) (mf_awaits s) with Some (i, _) => delete i (mf_awaits s) | None => mf_awaits s end) s.
Inductive MfaAnswer := mf_ready (setup : MfaSetup) | mf_handed (codes : list str) | mf_failed (message : str).
(** [refreshAfterEnrollment], up to the session's reading. *)
Definition startRefresh (confirming : bool) (s : Mfa) : Mfa :=
  withOperation (mf_operation s) (mf_busy s) (mf_error s) (mf_awaits s ++ [aw_refresh confirming])
    (withRefresh (mf_refreshFailed s) true s).
(** What follows an answer; nothing once the panel is gone. *)
Definition answered (o : MfaOperation) (r : MfaAnswer) (s : Mfa) : Mfa :=
  let s := resumed (aw_answer o) s in
  if negb (mf_mounted s) then s else
  match r, o with
  | mf_failed message, _ => operationEnds (Some message) s
  | mf_ready setup, op_setup => operationEnds (mf_error s) (withSetup (Some setup) (mf_code s) [] [] false (mf_confirmed s) s)
  | mf_handed codes, op_confirm => startRefresh true (withSetup None [] (mf_setupPassword s) codes false true s)
  | mf_handed codes, op_regenerate => operationEnds (mf_error s) (withRecovery [] codes false s)
  | _, _ => s
  end.
Definition refreshed (confirming ok : bool) (s : Mfa) : Mfa :=
  let s := resumed (aw_refresh confirming) s in
  if negb (mf_mounted s) then s else
  let s := withRefresh (negb ok) false s in
  if confirming then operationEnds (mf_error s) s else s.
Definition retryRefresh (s : Mfa) : Mfa := if mf_refreshFailed s && negb (mf_refreshPending s) then startRefresh false s else s.

Definition typeCode (value : str) (s : Mfa) : Mfa :=
  withSetup (mf_setup s) (codeTyped value) (mf_setupPassword s) (mf_codes s) (mf_codesSaved s) (mf_confirmed s) s.
Definition typeSetupPassword (value : str) (s : Mfa) : Mfa :=
  withSetup (mf_setup s) (mf_code s) value (mf_codes s) (mf_codesSaved s) (mf_confirmed s) s.
Definition typeRecoveryCode (value : str) (s : Mfa) : Mfa := withRecovery (codeTyped value) (mf_codes s) (mf_codesSaved s) s.
Definition tickSaved (checked : bool) (s : Mfa) : Mfa :=
  if hasCodes s then withRecovery (mf_recoveryCode s) (mf_codes s) checked s else s.
Definition cancelSetup (s : Mfa) : Mfa :=
  match mf_operation s with
  | Some _ => s
  | None => withOperation None (mf_busy s) None (mf_awaits s)
              (withSetup None [] (mf_setupPassword s) (mf_codes s) (mf_codesSaved s) (mf_confirmed s) s)
  end.
(** [finishEnrollment]: [true] when [onMfaSetupComplete] is called. *)
Definition finishEnrollment (s : Mfa) : Mfa * bool :=
  if (hasCodes s && negb (mf_codesSaved s)) || mf_refreshPending s || mf_refreshFailed s then (s, false)
  else (withSetup None [] [] [] (mf_codesSaved s) (mf_confirmed s) s, true).
(** The button that finishes, where there is one. *)
Definition finishOffered (guided : bool) (s : Mfa) : bool :=
  if hasCodes s then mf_codesSaved s && negb (mf_refreshPending s) && negb (mf_refreshFailed s) else guided && mfaEnabled s.

(** Disabling: the modal sends and closes; [onSuccess] before it reads the session. *)
Definition askDisable (platform guided : bool) (s : Mfa) : Mfa :=
  if mfaEnabled s && negb guided && negb (hasCodes s) && negb platform then withDisable true (mf_disablePassword s) (mf_awaits s) s else s.
Definition typeDisablePassword (v : str) (s : Mfa) : Mfa := withDisable (mf_showDisable s) v (mf_awaits s) s.
Definition disablePending (s : Mfa) : bool := existsb (λ a, bool_decide (a = aw_disable)) (mf_awaits s).
Definition confirmDisable (s : Mfa) : option (Mfa * str) :=
  if negb (mf_showDisable s) || disablePending s || isEmpty (mf_disablePassword s) then None
  else Some (withDisable false (mf_disablePassword s) (mf_awaits s ++ [aw_disable]) s, mf_disablePassword s).
Definition disabledAnswered (ok : bool) (s : Mfa) : Mfa :=
  let s := resumed aw_disable s in
  if ok then withSetup (mf_setup s) (mf_code s) (mf_setupPassword s) [] (mf_codesSaved s) false (withDisable false [] (mf_awaits s) s) else s.
Definition sessionShows (enabled : bool) (s : Mfa) : Mfa :=
  mkMfa enabled (mf_setup s) (mf_code s) (mf_recoveryCode s) (mf_codes s) (mf_setupPassword s) (mf_disablePassword s)
    (mf_showDisable s) (mf_operation s) (mf_error s) (mf_confirmed s) (mf_codesSaved s) (mf_refreshFailed s) (mf_refreshPending s)
    (mf_busy s) (mf_mounted s) (mf_awaits s).
(** Leaving the page: what the component holds goes with it, its handlers stay suspended. *)
Definition unmountMfa (s : Mfa) : Mfa :=
  mkMfa (mf_enabledUser s) None [] [] [] [] [] false None None false false false false (mf_busy s) false (mf_awaits s).

(** ** Runs of the panel *)

Inductive MfaEvent :=
| ev_request (o : MfaOperation) | ev_answer (o : MfaOperation) (r : MfaAnswer) | ev_refreshed (confirming ok : bool) | ev_retry
| ev_code (v : str) | ev_setupPassword (v : str) | ev_recoveryCode (v : str) | ev_tick (checked : bool) | ev_cancel | ev_finish
| ev_askDisable | ev_closeDisable | ev_disablePassword (v : str) | ev_confirmDisable | ev_disabled (ok : bool)
| ev_session (enabled : bool) | ev_unmount.
Definition fromUser (e : MfaEvent) : bool :=
  match e with ev_answer _ _ | ev_refreshed _ _ | ev_disabled _ | ev_session _ => false | _ => true end.
Definition fits (o : MfaOperation) (r : MfaAnswer) : bool :=
  match r, o with mf_failed _, _ | mf_ready _, op_setup | mf_handed _, op_confirm | mf_handed _, op_regenerate => true | _, _ => false end.
(** What an event does; [None] when it cannot happen: the control is not there, or nothing is
    awaited. *)
Definition mfaStep (guided platform : bool) (e : MfaEvent) (s : Mfa) : option Mfa :=
  let awaited a := existsb (λ b, bool_decide (b = a)) (mf_awaits s) in
  if fromUser e && negb (mf_mounted s) then None else
  match e with
  | ev_request o => if offered guided s o then fst <$> runMfaOperation o s else None
  | ev_answer o r => if fits o r && awaited (aw_answer o) then Some (answered o r s) else None
  | ev_refreshed c ok => if awaited (aw_refresh c) then Some (refreshed c ok s) else None
  | ev_retry => Some (retryRefresh s)
  | ev_code v => Some (typeCode v s)
  | ev_setupPassword v => Some (typeSetupPassword v s)
  | ev_recoveryCode v => Some (typeRecoveryCode v s)
  | ev_tick checked => Some (tickSaved checked s)
  | ev_cancel => Some (cancelSetup s)
  | ev_finish => if finishOffered guided s then Some (fst (finishEnrollment s)) else None
  | ev_askDisable => Some (askDisable platform guided s)
  | ev_closeDisable => Some (withDisable false (mf_disablePassword s) (mf_awaits s) s)
  | ev_disablePassword v => Some (typeDisablePassword v s)
  | ev_confirmDisable => fst <$> confirmDisable s
  | ev_disabled ok => if disablePending s then Some (disabledAnswered ok s) else None
  | ev_session enabled => Some (sessionShows enabled s)
  | ev_unmount => Some (unmountMfa s)
  end.
(** The codes on the screen when the box was last ticked. *)
Definition tickedBy (e : MfaEvent) (ticked : list str) (s : Mfa) : list str :=
  match e with ev_tick true => mf_codes s | _ => ticked end.
Inductive mfaRun (guided platform : bool) : list str → Mfa → Prop :=
| mr_open enabled : mfaRun guided platform [] (openMfa enabled)
| mr_step ticked s e s' : mfaRun guided platform ticked s → mfaStep guided platform e s = Some s' →
    mfaRun guided platform (tickedBy e ticked s) s'.

(** ** Lemmas *)

(** The handlers that hold [operationBusy]. *)
Definition holdsBusy (a : Await) : bool := match a with aw_answer _ | aw_refresh true => true | _ => false end.
Definition countA (f : Await → bool) (l : list Await) : nat := length (filterb f l).
Definition isRefresh (a : Await) : bool := match a with aw_refresh _ => true | _ => false end.
Definition holders (s : Mfa) : nat := countA holdsBusy (mf_awaits s).
Definition refreshes (s : Mfa) : nat := countA isRefresh (mf_awaits s).

Record mfaOk (ticked : list str) (s : Mfa) : Prop := {
  mk_saved : mf_codesSaved s = true → mf_codes s = [] ∨ ticked = mf_codes s;
  mk_busy : mf_mounted s = true → holders s = (if mf_busy s then 1 else 0)%nat ∧ (mf_operation s = None ↔ mf_busy s = false);
  mk_pending : mf_mounted s = true → mf_refreshPending s = true → (0 < refreshes s)%nat }.

Lemma countA_app f l k : countA f (l ++ k) = (countA f l + countA f k)%nat.
Proof. unfold countA. by rewrite List.filter_app, length_app. Qed.
Lemma countA_one f a : countA f [a] = (if f a then 1 else 0)%nat.
Proof. unfold countA. cbn. by destruct (f a). Qed.
Lemma countA_resumed f a l : existsb (λ b, bool_decide (b = a)) l = true →
  countA f l = (countA f (match list_find (λ b, b = a) l with Some (i, _) => delete i l | None => l end) + (if f a then 1 else 0))%nat.
Proof.
  intros Hin. destruct (list_find _ l) as [[i b]|] eqn:E.
  - apply list_find_Some in E as (Hl & -> & _). unfold countA.
    pose proof (delete_Permutation l i a Hl) as Hp.
    assert (Hlen : length (filterb f l) = length (filterb f (a :: delete i l))).
    { clear -Hp. induction Hp as [|x l1 l2 _ IH|x y l|l1 l2 l3 _ IH1 _ IH2]; cbn; [done| | |congruence].
      - destruct (f x); cbn; congruence.
      - destruct (f x), (f y); done. }
    rewrite Hlen. cbn [List.filter]. destruct (f a); cbn [length]; lia.
  - apply existsb_true in Hin as (b & Hb & ->%bool_decide_eq_true). exfalso. apply list_find_None in E.
    rewrite Forall_forall in E. by apply (E a).
Qed.

Lemma mfaOk_same ticked s s' : mfaOk ticked s → mf_codes s' = mf_codes s → mf_codesSaved s' = mf_codesSaved s →
  mf_awaits s' = mf_awaits s → mf_busy s' = mf_busy s → mf_operation s' = mf_operation s →
  mf_refreshPending s' = mf_refreshPending s → (mf_mounted s' = true → mf_mounted s = true) → mfaOk ticked s'.
Proof.
  intros [H1 H2 H3] Hc Hs Ha Hb Ho Hp Hm. unfold holders, refreshes in *.
  split; unfold holders, refreshes; rewrite ?Hc, ?Hs, ?Ha, ?Hb, ?Ho, ?Hp; auto.
Qed.
(** Of the handlers in flight [awaits] has those of [s] but for one that has resumed. *)
Lemma resumed_ok ticked s a : mfaOk ticked s → existsb (λ b, bool_decide (b = a)) (mf_awaits s) = true → mf_mounted s = true →
  (holders (resumed a s) + (if holdsBusy a then 1 else 0) = if mf_busy s then 1 else 0)%nat ∧
  (mf_refreshPending s = true → (0 < refreshes (resumed a s) + (if isRefresh a then 1 else 0))%nat).
Proof.
  intros [H1 H2 H3] Ha Hm. destruct (H2 Hm) as [Hh _]. unfold holders, refreshes in *. cbn [resumed withOperation mf_awaits].
  split; [by rewrite <- countA_resumed|]. intros Hp. rewrite <- countA_resumed by done. by apply H3.
Qed.

Lemma answered_ok ticked o r s : mfaOk ticked s → fits o r = true →
  existsb (λ b, bool_decide (b = aw_answer o)) (mf_awaits s) = true → mfaOk ticked (answered o r s).
Proof.
  intros Hok Hf Ha. unfold answered. destruct (mf_mounted (resumed (aw_answer o) s)) eqn:Hm; cbn [negb].
  - destruct (resumed_ok ticked s _ Hok Ha Hm) as [Hh Hp]. cbn [holdsBusy isRefresh] in Hh, Hp.
    assert (holders (resumed (aw_answer o) s) = 0%nat ∧ mf_busy s = true) as [H0 Hb] by (destruct (mf_busy s); [lia|lia]).
    destruct Hok as [H1 H2 H3].
    destruct r as [setup|codes|message], o; try done; split; try done;
      try (intros _ Hpend; specialize (Hp Hpend); rewrite Nat.add_0_r in Hp; exact Hp).
    + intros _. unfold holders, startRefresh. cbn [withOperation mf_awaits mf_busy mf_operation resumed withRefresh withSetup].
      rewrite countA_app. unfold holders in H0. cbn [resumed withOperation mf_awaits] in H0. rewrite H0, Hb. split; [done|].
      destruct (H2 Hm) as [_ Hop]. by rewrite Hb in Hop.
    + intros _ _. unfold refreshes, startRefresh. cbn [withOperation mf_awaits]. rewrite countA_app. cbn. lia.
  - destruct Hok as [H1 _ _]. split; [done|congruence..].
Qed.
Lemma refreshed_ok ticked c ok s : mfaOk ticked s →
  existsb (λ b, bool_decide (b = aw_refresh c)) (mf_awaits s) = true → mfaOk ticked (refreshed c ok s).
Proof.
  intros Hok Ha. unfold refreshed. destruct (mf_mounted (resumed (aw_refresh c) s)) eqn:Hm; cbn [negb].
  - destruct (resumed_ok ticked s _ Hok Ha Hm) as [Hh _]. destruct Hok as [H1 H2 H3]. destruct c; cbn [holdsBusy] in Hh.
    + assert (holders (resumed (aw_refresh true) s) = 0%nat) as H0 by (destruct (mf_busy s); lia).
      split; [exact H1| |done]. intros _. split; [exact H0|done].
    + rewrite Nat.add_0_r in Hh. split; [done| |done]. intros _. split; [exact Hh|]. by apply H2.
  - destruct Hok as [H1 _ _]. split; [done|congruence..].
Qed.
Lemma disabled_ok ticked ok s : mfaOk ticked s → disablePending s = true → mfaOk ticked (disabledAnswered ok s).
Proof.
  intros Hok Ha. pose proof (resumed_ok ticked s aw_disable Hok Ha) as Hr. cbn [holdsBusy isRefresh] in Hr. rewrite !Nat.add_0_r in Hr.
  destruct Hok as [H1 H2 H3]. unfold disabledAnswered.
  assert (Hbase : mfaOk ticked (resumed aw_disable s)).
  { split; [done| |]; intros Hm; destruct (Hr Hm) as [Hh Hp]; [|done]. split; [done|]. by apply H2. }
  destruct ok; [|done]. destruct Hbase as [B1 B2 B3]. split; [by left|exact B2|exact B3].
Qed.
(** A handler that begins. *)
Lemma begins_ok ticked s s' a : mfaOk ticked s → mf_awaits s' = mf_awaits s ++ [a] → holdsBusy a = false → isRefresh a = false →
  mf_codes s' = mf_codes s → mf_codesSaved s' = mf_codesSaved s → mf_busy s' = mf_busy s → mf_operation s' = mf_operation s →
  mf_refreshPending s' = mf_refreshPending s → mf_mounted s' = mf_mounted s → mfaOk ticked s'.
Proof.
  intros [H1 H2 H3] Ha Hh Hr Hc Hs Hb Ho Hp Hm. unfold holders, refreshes in *.
  split; unfold holders, refreshes; rewrite ?Hc, ?Hs, ?Ha, ?Hb, ?Ho, ?Hp, ?Hm, ?countA_app, ?countA_one, ?Hh, ?Hr, ?Nat.add_0_r;
    done.
Qed.
Lemma request_ok ticked o s s' v : mfaOk ticked s → runMfaOperation o s = Some (s', v) → mfaOk ticked s'.
Proof.
  intros [H1 H2 H3] Hs. unfold runMfaOperation in Hs. destruct (mf_busy s) eqn:Hb; [done|]. cbn [orb] in Hs.
  destruct (match o with op_setup => _ | _ => _ end); [done|]. injection Hs as <- _. unfold holders, refreshes in *.
  split; [done| |]; intros Hm; unfold holders, refreshes; cbn [withOperation mf_awaits mf_busy mf_operation mf_refreshPending];
    rewrite countA_app.
  - destruct (H2 Hm) as [-> _]. by split.
  - intros Hp. pose proof (H3 Hm Hp). lia.
Qed.
Lemma retry_ok ticked s : mfaOk ticked s → mfaOk ticked (retryRefresh s).
Proof.
  intros Hok. unfold retryRefresh. destruct (_ && _); [|done]. destruct Hok as [H1 H2 H3]. unfold holders, refreshes in *.
  split; [done| |]; intros Hm; unfold holders, refreshes, startRefresh; cbn [withOperation mf_awaits mf_busy mf_operation];
    rewrite countA_app; [|intros _; cbn; lia].
  cbn [countA List.filter holdsBusy length withRefresh mf_awaits]. rewrite Nat.add_0_r. by apply H2.
Qed.

Lemma mfaStep_ok guided platform ticked e s s' : mfaOk ticked s → mfaStep guided platform e s = Some s' →
  mfaOk (tickedBy e ticked s) s'.
Proof.
  intros Hok Hs. unfold mfaStep in Hs. destruct (fromUser e && negb (mf_mounted s)); [done|].
  destruct e as [o|o r|c ok| |v|v|v|checked| | | | |v| |ok|enabled|]; cbn [tickedBy].
  - destruct (offered guided s o); [|done]. destruct (runMfaOperation o s) as [[s1 v]|] eqn:E; [|done]. simplify_eq/=.
    by eapply request_ok.
  - destruct (fits o r) eqn:Ef; [|done]. cbn [andb] in Hs. destruct (existsb _ _) eqn:Ea; [|done]. simplify_eq. by apply answered_ok.
  - destruct (existsb _ _) eqn:Ea; [|done]. simplify_eq. by apply refreshed_ok.
  - simplify_eq. by apply retry_ok.
  - simplify_eq. by apply (mfaOk_same ticked s).
  - simplify_eq. by apply (mfaOk_same ticked s).
  - simplify_eq. by apply (mfaOk_same ticked s).
  - simplify_eq. destruct Hok as [H1 H2 H3]. unfold tickSaved, hasCodes.
    destruct (mf_codes s) eqn:Ec; [destruct checked; split; auto; intros Hsv; left; done|].
    destruct checked; split; try done. intros _. by right.
  - simplify_eq. unfold cancelSetup. destruct (mf_operation s) eqn:Eo; [done|]. by apply (mfaOk_same ticked s).
  - destruct (finishOffered guided s); [|done]. simplify_eq/=. unfold finishEnrollment. destruct (_ || _); [done|].
    destruct Hok as [H1 H2 H3]. cbn [fst]. split; [by left|done|done].
  - simplify_eq. unfold askDisable. destruct (_ && _); [|done]. by apply (mfaOk_same ticked s).
  - simplify_eq. by apply (mfaOk_same ticked s).
  - simplify_eq. by apply (mfaOk_same ticked s).
  - unfold confirmDisable in Hs. destruct (_ || _); [done|]. simplify_eq/=. by apply (begins_ok ticked s _ aw_disable).
  - destruct (disablePending s) eqn:Ed; [|done]. simplify_eq. by apply disabled_ok.
  - simplify_eq. by apply (mfaOk_same ticked s).
  - simplify_eq. by split.
Qed.
Lemma mfaRun_ok guided platform ticked s : mfaRun guided platform ticked s → mfaOk ticked s.
Proof. induction 1 as [enabled|ticked s e s' _ IH Hs]; [by split|]. by eapply mfaStep_ok. Qed.

(** ** What the user can rely on *)

(** A panel that is gone holds no codes and no seed, and no handler brings any back. *)
Lemma gone_empty guided platform ticked s : mfaRun guided platform ticked s → mf_mounted s = false →
  mf_codes s = [] ∧ mf_setup s = None.
Proof.
  induction 1 as [enabled|ticked s e s' _ IH Hs]; [done|]. unfold mfaStep in Hs. destruct (mf_mounted s) eqn:Hm.
  - rewrite andb_false_r in Hs. intros Hm'. destruct e as [o|o r|c ok| |v|v|v|checked| | | | |v| |ok|enabled|]; try (simplify_eq; simpl in *; congruence).
    + destruct (offered guided s o); [|done]. unfold runMfaOperation in Hs. destruct (_ || _); [done|]. simplify_eq/=. congruence.
    + destruct (_ && _); [|done]. simplify_eq. unfold answered in Hm'. cbn in Hm'. rewrite Hm in Hm'. cbn in Hm'.
      by destruct r, o; cbn in Hm'; rewrite Hm in Hm'.
    + destruct (existsb _ _); [|done]. simplify_eq. unfold refreshed in Hm'. cbn in Hm'. rewrite Hm in Hm'. cbn in Hm'.
      by destruct c; cbn in Hm'; rewrite Hm in Hm'.
    + simplify_eq. unfold retryRefresh in Hm'. destruct (_ && _); cbn in Hm'; congruence.
    + simplify_eq. unfold tickSaved in Hm'. destruct (hasCodes s); cbn in Hm'; congruence.
    + simplify_eq. unfold cancelSetup in Hm'. destruct (mf_operation s); cbn in Hm'; congruence.
    + destruct (finishOffered guided s); [|done]. simplify_eq/=. unfold finishEnrollment in Hm'. destruct (_ || _); cbn in Hm'; congruence.
    + simplify_eq. unfold askDisable in Hm'. destruct (_ && _); cbn in Hm'; congruence.
    + unfold confirmDisable in Hs. destruct (_ || _); [done|]. simplify_eq/=. congruence.
    + destruct (disablePending s); [|done]. simplify_eq. destruct ok; cbn in Hm'; congruence.
    + simplify_eq. done.
  - destruct (IH eq_refl) as [Hc Hu]. intros _. destruct e as [o|o r|c ok| |v|v|v|checked| | | | |v| |ok|enabled|]; try done; cbn [fromUser andb] in Hs.
    + destruct (_ && _); [|done]. simplify_eq. unfold answered. cbn. rewrite Hm. by split.
    + destruct (existsb _ _); [|done]. simplify_eq. unfold refreshed. cbn. rewrite Hm. by split.
    + destruct (disablePending s); [|done]. simplify_eq. by destruct ok.
    + simplify_eq. by split.
Qed.

(** C35. Recovery codes that are on the screen, which the server will not show again, stay there
    whatever else is typed, ticked, answered, retried or refused, in any order, until one of five
    things happens: the user finishes - having ticked the box while these very codes were shown,
    with the session read again -, a request to disable the authenticator that was under way
    succeeds, the user leaves the panel, or an operation that was under way answers: with other
    codes, which take their place with the box unticked, or with a new authenticator to set up,
    which clears them. *)
Theorem recovery_codes_kept guided platform ticked s e s' : mfaRun guided platform ticked s → mf_codes s ≠ [] →
  mfaStep guided platform e s = Some s' →
  mf_mounted s = true ∧
  (mf_codes s' = mf_codes s ∨
   (e = ev_finish ∧ ticked = mf_codes s ∧ mf_refreshFailed s = false ∧ mf_refreshPending s = false ∧ mf_codes s' = []) ∨
   (e = ev_disabled true ∧ disablePending s = true ∧ mf_codes s' = []) ∨
   (e = ev_unmount ∧ mf_mounted s' = false ∧ mf_codes s' = []) ∨
   (∃ o codes, e = ev_answer o (mf_handed codes) ∧ o ≠ op_setup ∧ aw_answer o ∈ mf_awaits s ∧
      mf_codes s' = codes ∧ mf_codesSaved s' = false) ∨
   (∃ setup, e = ev_answer op_setup (mf_ready setup) ∧ aw_answer op_setup ∈ mf_awaits s ∧
      mf_codes s' = [] ∧ mf_setup s' = Some setup)).
Proof.
  intros Hr Hne Hs. destruct (mfaRun_ok _ _ _ _ Hr) as [H1 _ _]. destruct (mf_mounted s) eqn:Hmt; [|by destruct (gone_empty _ _ _ _ Hr Hmt)].
  split; [done|]. unfold mfaStep in Hs. rewrite Hmt, andb_false_r in Hs.
  destruct e as [o|o r|c ok| |v|v|v|checked| | | | |v| |ok|enabled|].
  - destruct (offered guided s o); [|done]. unfold runMfaOperation in Hs. destruct (_ || _); [done|]. simplify_eq/=. by left.
  - destruct (fits o r) eqn:Ef; [|done]. cbn [andb] in Hs. destruct (existsb _ _) eqn:Ea; [|done]. simplify_eq.
    apply existsb_true in Ea as (a & Ha & ->%bool_decide_eq_true).
    unfold answered. cbn [resumed withOperation mf_mounted]. rewrite Hmt. cbn [negb].
    destruct r as [setup|codes|message].
    + destruct o; try done. do 5 right. exists setup. by split_and!.
    + do 4 right. left. exists o, codes. destruct o; by split_and!.
    + left. by destruct o.
  - destruct (existsb _ _); [|done]. simplify_eq. left. unfold refreshed. destruct (mf_mounted _); [|done]. by destruct c.
  - simplify_eq. left. unfold retryRefresh. destruct (_ && _); reflexivity.
  - simplify_eq. by left.
  - simplify_eq. by left.
  - simplify_eq. by left.
  - simplify_eq. left. unfold tickSaved. by destruct (hasCodes s).
  - simplify_eq. left. unfold cancelSetup. by destruct (mf_operation s).
  - destruct (finishOffered guided s); [|done]. simplify_eq/=. unfold finishEnrollment, hasCodes.
    destruct (mf_codes s) as [|c cs] eqn:Ec; [done|]. cbn [andb]. destruct (mf_codesSaved s) eqn:Es; cbn [negb orb]; [|by left].
    destruct (mf_refreshPending s), (mf_refreshFailed s); try by left. right; left. by destruct (H1 eq_refl).
  - simplify_eq. left. unfold askDisable. destruct (_ && _); reflexivity.
  - simplify_eq. by left.
  - simplify_eq. by left.
  - unfold confirmDisable in Hs. destruct (_ || _); [done|]. simplify_eq/=. by left.
  - destruct (disablePending s) eqn:Ed; [|done]. simplify_eq. destruct ok; [|by left]. do 2 right; left. by split_and!.
  - simplify_eq. by left.
  - simplify_eq. do 3 right; left. by split_and!.
Qed.

Definition mfaTrace (es : list MfaEvent) (enabled : bool) : option (list str * Mfa) :=
  foldl (λ o e, ts ← o; s' ← mfaStep false false e ts.2; Some (tickedBy e ts.1 ts.2, s')) (Some ([], openMfa enabled)) es.
Lemma mfaTrace_run es enabled ticked s : mfaTrace es enabled = Some (ticked, s) → mfaRun false false ticked s.
Proof.
  revert ticked s. induction es as [|e es IH] using rev_ind; intros ticked s.
  { unfold mfaTrace. cbn [foldl]. intros H0. injection H0 as <- <-. constructor. }
  unfold mfaTrace. rewrite foldl_app. cbn [foldl]. fold (mfaTrace es enabled).
  destruct (mfaTrace es enabled) as [[t s0]|] eqn:Et; [|done]. cbn [mbind option_bind fst snd].
  destruct (mfaStep false false e s0) as [s1|] eqn:E; [|done]. intros [= <- <-]. apply (mr_step _ _ t s0 e s1); [by apply IH|done].
Qed.
Definition enrollment : list MfaEvent :=
  [ev_setupPassword (js "secret"); ev_request op_setup; ev_answer op_setup (mf_ready (mkMfaSetup (js "SEED") (js "otpauth://x")));
   ev_code (js "123 456"); ev_request op_confirm; ev_answer op_confirm (mf_handed [js "code-1"; js "code-2"]);
   ev_refreshed true true; ev_tick true].
Lemma recovery_codes_kept_witness : ∃ ticked s s', mfaTrace enrollment false = Some (ticked, s) ∧
  mf_codes s = [js "code-1"; js "code-2"] ∧ mfaStep false false ev_finish s = Some s' ∧ mf_codes s' = [] ∧
  ticked = mf_codes s.
Proof.
  destruct (mfaTrace enrollment false) as [[ticked s]|] eqn:Et; [|vm_compute in Et; discriminate].
  destruct (mfaStep false false ev_finish s) as [s'|] eqn:Es; [|vm_compute in Et; injection Et as <- <-; vm_compute in Es; discriminate].
  assert (Hc : mf_codes s = [js "code-1"; js "code-2"]) by (vm_compute in Et; by injection Et as <- <-).
  exists ticked, s, s'. destruct (recovery_codes_kept false false ticked s ev_finish s') as
    (_ & [Hk|[(_ & Ht & _ & _ & Hn)|[(Hd & _)|[(Hd & _)|[(o & codes & Hd & _)|(setup & Hd & _)]]]]]); try discriminate Hd.
  - exact (mfaTrace_run enrollment false ticked s Et).
  - by rewrite Hc.
  - exact Es.
  - exfalso. vm_compute in Et. injection Et as <- <-. vm_compute in Es. injection Es as <-. vm_compute in Hk. discriminate Hk.
  - by split_and!.
Defined.

(** New codes are on the screen when the session shows the authenticator as switched off
    elsewhere: the form that sets one up is offered beside them, and its answer clears them. *)
Example setup_clears_codes :
  let shown := mfaTrace [ev_recoveryCode (js "123456"); ev_request op_regenerate; ev_answer op_regenerate (mf_handed [js "code-1"]);
                         ev_session false; ev_setupPassword (js "secret"); ev_request op_setup] true in
  (mf_codes ∘ snd) <$> shown = Some [js "code-1"] ∧
  mf_codes <$> (shown ≫= λ ts, mfaStep false false (ev_answer op_setup (mf_ready (mkMfaSetup (js "SEED") (js "otpauth://x")))) ts.2) = Some [].
Proof. vm_compute. split; reflexivity. Qed.

(** One authenticator operation is under way at a time, and the panel never hangs: as long as
    it is busy, or shows that it reads the session, a handler is suspended at an answer, and any
    answer to it can arrive; once all have, every button works again. *)
Theorem operations_end guided platform ticked s : mfaRun guided platform ticked s → mf_mounted s = true →
  (holders s ≤ 1)%nat ∧
  (mf_operation s ≠ None ∨ mf_busy s = true → ∃ a, a ∈ mf_awaits s ∧ holdsBusy a = true) ∧
  (mf_refreshPending s = true → ∃ c, aw_refresh c ∈ mf_awaits s) ∧
  (∀ o r, aw_answer o ∈ mf_awaits s → fits o r = true → is_Some (mfaStep guided platform (ev_answer o r) s)) ∧
  (mf_awaits s = [] → mf_busy s = false ∧ mf_operation s = None ∧ mf_refreshPending s = false).
Proof.
  intros Hr Hm. destruct (mfaRun_ok _ _ _ _ Hr) as [_ H2 H3]. destruct (H2 Hm) as [Hh Ho]. specialize (H3 Hm).
  assert (Hcount : ∀ f, (0 < countA f (mf_awaits s))%nat → ∃ a, a ∈ mf_awaits s ∧ f a = true).
  { intros f. unfold countA. destruct (filterb f (mf_awaits s)) as [|a l] eqn:E; [cbn; lia|]. intros _. exists a.
    apply elem_of_filterb. rewrite E. constructor. }
  split_and!.
  - rewrite Hh. destruct (mf_busy s); lia.
  - intros Hb. apply Hcount. fold (holders s). rewrite Hh. destruct (mf_busy s); [lia|]. exfalso.
    destruct Hb as [Hb|Hb]; [|done]. by apply Hb, Ho.
  - intros Hp. destruct (Hcount isRefresh (H3 Hp)) as (a & Ha & Hi). destruct a; try done. eauto.
  - intros o r Ha Hf. unfold mfaStep. cbn [fromUser andb]. rewrite Hf.
    assert (existsb (λ b, bool_decide (b = aw_answer o)) (mf_awaits s) = true) as ->; [|eauto].
    apply existsb_true. exists (aw_answer o). by rewrite bool_decide_eq_true.
  - intros Hnil. unfold holders, refreshes in *. rewrite Hnil in Hh, H3. cbn in Hh, H3.
    destruct (mf_busy s); [done|]. split_and!; [done|by apply Ho|]. destruct (mf_refreshPending s); [|done].
    specialize (H3 eq_refl). lia.
Qed.

(** Once finished, no secret is left in the panel; and after it is gone no answer changes what it
    holds. *)
Lemma finish_forgets s s' : finishEnrollment s = (s', true) →
  mf_setup s' = None ∧ mf_code s' = [] ∧ mf_setupPassword s' = [] ∧ mf_codes s' = [].
Proof. unfold finishEnrollment. destruct (_ || _); [done|]. by intros [= <-]. Qed.
Lemma gone_ignores o r s : mf_mounted s = false →
  mf_codes (answered o r s) = mf_codes s ∧ mf_setup (answered o r s) = mf_setup s ∧ mf_error (answered o r s) = mf_error s.
Proof. intros Hm. unfold answered. cbn [resumed withOperation mf_mounted]. by rewrite Hm. Qed.
(** An accepted request carries six digits, or the password. *)
Lemma code_digits v : (length (codeTyped v) ≤ 6)%nat ∧ forallb isDigit (codeTyped v) = true.
Proof.
  unfold codeTyped. split; [rewrite length_take; lia|]. apply forallb_true. intros c Hc.
  apply (subseteq_take 6) in Hc. by apply elem_of_filterb in Hc as [_ ?].
Qed.
Lemma password_long f f' r : changePassword f = Some (f', r) →
  (12 ≤ length r.2)%nat ∧ r.2 = pw_confirm f ∧ r.1 ≠ [] ∧ changePassword f' = None.
Proof.
  unfold changePassword. destruct (pw_pending f); [done|]. destruct (pw_current f) eqn:Ec; [done|].
  destruct (Nat.ltb_spec (length (pw_next f)) 12); [done|]. destruct (streq _ _) eqn:E; [|done]. apply streq_true in E.
  by intros [= <- <-].
Qed.
