(* ===== verification/Capture.v ===== *)
(** * Inspections: the wizard and the quayside capture
    (frontend/src/screens/Inspections.tsx, mobile/MobileApp.tsx)

    The tonnage both compute, the three steps of both with what each lets through, what they
    send, and the lists around them. *)
From Stdlib Require Import SpecFloat.
From S2P Require Import Prelude JsString JsNumber Json MeasurementTypes Host ApiClient AppTypes Dues Uploads Store VesselCalls.

(** ** Measurements *)

Record LiquidMeasure := mkLiquid {
  lq_ullage : str; lq_observedVol : str; lq_temp : str; lq_blQty : str; lq_surveyorTonnage : str;
  lq_jettyType : str; lq_jettyCategory : str; lq_jettyName : str }.
Record DryMeasure := mkDry { dy_displBefore : str; dy_displAfter : str; dy_deductibles : str; dy_constant : str }.
Record Measures := mkMeasures { ms_cargo : option CargoType; ms_liquid : LiquidMeasure; ms_dry : DryMeasure }.

(** [Number(value) || 0] *)
Definition numberOrZero (s : str) : num := let n := numberOfInput s in if numTruthy n then n else S754_zero false.
Definition numSub (x y : num) : num := SFsub 53 1024 x y.
Definition numLtb (x y : num) : bool := SFltb x y.
Definition isLiquid (m : Measures) : bool := bool_decide (ms_cargo m = Some Liquid).
(** [computeReconciled], [reconcile] *)
Definition computeReconciled (m : Measures) : num :=
  if isLiquid m then toCents (numberOrZero (lq_surveyorTonnage (ms_liquid m))) else
  let d := ms_dry m in
  toCents (numAdd (numSub (numSub (numberOrZero (dy_displBefore d)) (numberOrZero (dy_displAfter d)))
                     (numberOrZero (dy_deductibles d))) (numberOrZero (dy_constant d))).
Definition jettyOk (m : Measures) : bool :=
  negb (isLiquid m) || streq (lq_jettyType (ms_liquid m)) (js "International")
  || (streq (lq_jettyType (ms_liquid m)) (js "Local") && truthy (lq_jettyCategory (ms_liquid m))).
(** The category of a local jetty, as it is sent and priced. *)
Definition jettyCategory (l : LiquidMeasure) : option str :=
  if streq (lq_jettyType l) (js "Local") then Some (lq_jettyCategory l) else None.
(** An inspection of which only the cargo and the jetty are read. *)
Definition ratedInspection (cargo : CargoType) (jetty : Jetty) : Inspection :=
  mkInspection [] [] [] [] cargo None (S754_zero false) (Some jetty) None None [] insp_draft 0 None None.
Definition previewRate (m : Measures) (settings : Settings) : option num :=
  let l := ms_liquid m in
  rateForInspection (Some (ratedInspection (match ms_cargo m with Some Dry => Dry | _ => Liquid end)
                             (mkJetty (lq_jettyType l) (jettyCategory l) None))) settings.

(** The inputs of the measurement step. *)
Inductive MeasureEdit :=
| me_ullage (v : str) | me_observedVol (v : str) | me_temp (v : str) | me_blQty (v : str) | me_surveyorTonnage (v : str)
| me_jettyType (v : str) | me_jettyCategory (v : str) | me_jettyName (v : str)
| me_displBefore (v : str) | me_displAfter (v : str) | me_deductibles (v : str) | me_constant (v : str).
Definition editLiquid (e : MeasureEdit) (l : LiquidMeasure) : LiquidMeasure :=
  match e, l with
  | me_ullage v, mkLiquid _ b c d e f g h => mkLiquid v b c d e f g h
  | me_observedVol v, mkLiquid a _ c d e f g h => mkLiquid a v c d e f g h
  | me_temp v, mkLiquid a b _ d e f g h => mkLiquid a b v d e f g h
  | me_blQty v, mkLiquid a b c _ e f g h => mkLiquid a b c v e f g h
  | me_surveyorTonnage v, mkLiquid a b c d _ f g h => mkLiquid a b c d v f g h
  | me_jettyType v, mkLiquid a b c d e _ g h => mkLiquid a b c d e v (if streq v (js "Local") then g else []) h
  | me_jettyCategory v, mkLiquid a b c d e f _ h => mkLiquid a b c d e f v h
  | me_jettyName v, mkLiquid a b c d e f g _ => mkLiquid a b c d e f g v
  | _, _ => l
  end.
Definition editDry (e : MeasureEdit) (d : DryMeasure) : DryMeasure :=
  match e, d with
  | me_displBefore v, mkDry _ b c x => mkDry v b c x
  | me_displAfter v, mkDry a _ c x => mkDry a v c x
  | me_deductibles v, mkDry a b _ x => mkDry a b v x
  | me_constant v, mkDry a b c _ => mkDry a b c v
  | _, _ => d
  end.
(** The input is there for the cargo, and a list only gives its options. *)
Definition offeredEdit (m : Measures) (e : MeasureEdit) : bool :=
  match e with
  | me_displBefore _ | me_displAfter _ | me_deductibles _ | me_constant _ => negb (isLiquid m)
  | me_jettyType v => isLiquid m && existsb (streq v) (map js [""; "Local"; "International"]%string)
  | me_jettyCategory v => isLiquid m && streq (lq_jettyType (ms_liquid m)) (js "Local")
      && existsb (streq v) (map js [""; "Government"; "Private"]%string)
  | _ => isLiquid m
  end.
Definition editMeasures (e : MeasureEdit) (m : Measures) : Measures :=
  mkMeasures (ms_cargo m) (editLiquid e (ms_liquid m)) (editDry e (ms_dry m)).
Definition chooseCargo (c : CargoType) (m : Measures) : Measures := mkMeasures (Some c) (ms_liquid m) (ms_dry m).

(** What [addInspection] is given. *)
Record InspectionPayload := mkInspectionPayload {
  ip_callId : str; ip_cargoType : option CargoType; ip_reconciledTonnage : num; ip_status : InspectionStatus;
  ip_liquid : option LiquidMeasure; ip_dry : option DryMeasure; ip_jetty : option Jetty; ip_version : option Z }.
Definition measuresPayload (callId : str) (m : Measures) (tonnage : num) (status : InspectionStatus) (version : option Z)
  : InspectionPayload :=
  let l := ms_liquid m in
  mkInspectionPayload callId (ms_cargo m) tonnage status
    (if isLiquid m then Some l else None) (if bool_decide (ms_cargo m = Some Dry) then Some (ms_dry m) else None)
    (if isLiquid m then Some (mkJetty (lq_jettyType l) (jettyCategory l) (Some (trim (lq_jettyName l)))) else None) version.

(** ** The wizard *)

Record Snapshot := mkSnapshot {
  sn_invoice : option Invoice; sn_inspectionId : option str; sn_queued : bool; sn_call : VesselCall; sn_reconciled : num;
  sn_dues : num; sn_commissionUsd : num; sn_commissionNgn : num }.
Record Wizard := mkWizard {
  wz_step : nat; wz_callId : str; wz_measures : Measures; wz_submitted : option Snapshot;
  wz_submitting : option (VesselCall * Settings)   (** what the save under way closed over *) }.
Definition emptyLiquid : LiquidMeasure := mkLiquid [] [] [] [] [] [] [] [].
Definition emptyMeasures : Measures := mkMeasures None emptyLiquid (mkDry [] [] [] (js "0")).
(** A member of a draft's recorded measurement, as text. *)
Definition textMember (record : option (list (str * json))) (k : string) (fallback : str) : str :=
  match record ≫= mget (js k) with Some (JStr s) => s | Some (JNum n) => printZ n | _ => fallback end.
Definition draftMeasures (d : Inspection) : Measures :=
  mkMeasures (Some (insp_cargoType d))
    (mkLiquid (textMember (insp_liquid d) "ullage" []) (textMember (insp_liquid d) "observedVol" [])
       (textMember (insp_liquid d) "temp" []) (textMember (insp_liquid d) "blQty" [])
       (textMember (insp_liquid d) "surveyorTonnage"
          (if numTruthy (insp_reconciledTonnage d) then numberText (insp_reconciledTonnage d) else []))
       (default [] (jet_type <$> insp_jetty d)) (default [] (insp_jetty d ≫= jet_category)) (default [] (insp_jetty d ≫= jet_name)))
    (mkDry (textMember (insp_dry d) "displBefore" []) (textMember (insp_dry d) "displAfter" [])
       (textMember (insp_dry d) "deductibles" []) (textMember (insp_dry d) "constant" (js "0"))).
Definition lockedCall (callParam : option str) (draft : option Inspection) : str :=
  match callParam with
  | Some c => if truthy c then c else default [] (insp_callId <$> draft)
  | None => default [] (insp_callId <$> draft)
  end.
Definition openWizard (callParam : option str) (draft : option Inspection) : Wizard :=
  mkWizard (match draft with Some _ => 1%nat | None => 0%nat end) (lockedCall callParam draft)
    (match draft with Some d => draftMeasures d | None => emptyMeasures end) None None.

Definition canNext0 (w : Wizard) : bool := truthy (wz_callId w) && bool_decide (is_Some (ms_cargo (wz_measures w))).
Definition canNext1 (m : Measures) : bool := numLtb (S754_zero false) (computeReconciled m) && jettyOk m.
Definition atStep (n : nat) (w : Wizard) : bool := Nat.eqb (wz_step w) n && match wz_submitted w with None => true | _ => false end.
Definition idle (w : Wizard) : bool := match wz_submitting w with None => true | _ => false end.
Definition toStep (n : nat) (w : Wizard) : Wizard := mkWizard n (wz_callId w) (wz_measures w) (wz_submitted w) (wz_submitting w).
Definition withMeasures (m : Measures) (w : Wizard) : Wizard := mkWizard (wz_step w) (wz_callId w) m (wz_submitted w) (wz_submitting w).
(** The calls the combobox offers. *)
Definition openCallOptions `{Host} (calls : list VesselCall) (q : str) : list VesselCall :=
  filterb (λ c, callOpen c && (isEmpty q || includes (toLowerCase q) (toLowerCase (vc_vesselName c))
                               || includes (toLowerCase q) (toLowerCase (vc_reference c)))) calls.

Inductive WizardEvent :=
| wz_call (id : str) | wz_cargo (c : CargoType) | wz_next | wz_back | wz_edit (e : MeasureEdit)
| wz_submit (asDraft : bool) | wz_accepted (asDraft : bool) (r : InspectionSubmission) | wz_refused.
(** [doSubmit] *)
Definition wizardPayload (draft : option Inspection) (asDraft : bool) (w : Wizard) : InspectionPayload :=
  measuresPayload (wz_callId w) (wz_measures w) (if asDraft then S754_zero false else computeReconciled (wz_measures w))
    (if asDraft then insp_draft else insp_completed) (insp_version <$> draft).
Definition snapshotOf (settings : Settings) (c : VesselCall) (r : InspectionSubmission) (w : Wizard) : Snapshot :=
  let p := calcPreview (vc_nrt c) (previewRate (wz_measures w) settings) settings in
  mkSnapshot (sub_invoice r) (sub_inspectionId r) (sub_queued r) c (computeReconciled (wz_measures w))
    (default (prev_dues p) (ivc_dues <$> sub_invoice r)) (default (prev_commissionUsd p) (ivc_commissionUsd <$> sub_invoice r))
    (default (prev_commissionNgn p) (ivc_commissionNgn <$> sub_invoice r)).
(** What an event does on the calls of the current render; [None] when it cannot happen. *)
Definition wizardStep (locked : str) (calls : list VesselCall) (settings : Settings) (e : WizardEvent) (w : Wizard) : option Wizard :=
  let call := callOfPage (wz_callId w) calls in
  match e with
  | wz_call id =>
      if atStep 0 w && negb (truthy locked && bool_decide (is_Some call))
         && existsb (λ c, streq (vc_id c) id && callOpen c) calls
      then Some (mkWizard (wz_step w) id (wz_measures w) None (wz_submitting w)) else None
  | wz_cargo c => if atStep 0 w then Some (withMeasures (chooseCargo c (wz_measures w)) w) else None
  | wz_next =>
      if atStep 0 w && canNext0 w then Some (toStep 1 w)
      else if atStep 1 w && canNext1 (wz_measures w) then Some (toStep 2 w) else None
  | wz_back =>
      if atStep 1 w then Some (toStep 0 w)
      else if atStep 2 w && bool_decide (is_Some call) && idle w then Some (toStep 1 w) else None
  | wz_edit ed => if atStep 1 w && offeredEdit (wz_measures w) ed then Some (withMeasures (editMeasures ed (wz_measures w)) w) else None
  | wz_submit _ =>
      match call with
      | Some c => if atStep 2 w && idle w then Some (mkWizard 2 (wz_callId w) (wz_measures w) None (Some (c, settings))) else None
      | None => None
      end
  | wz_accepted asDraft r =>
      '(c, settings) ← wz_submitting w;
      Some (mkWizard (wz_step w) (wz_callId w) (wz_measures w)
              (if asDraft then wz_submitted w else Some (snapshotOf settings c r w)) None)
  | wz_refused => if idle w then None else Some (mkWizard (wz_step w) (wz_callId w) (wz_measures w) (wz_submitted w) None)
  end.

(** ** The quayside capture *)

Section Quayside.
Context {File : Type} (fileType : File → str) (fileSize : File → Z).

(** [EvidencePicker] *)
Definition badPhoto (f : File) : bool :=
  negb (existsb (streq (fileType f)) (map js ["image/jpeg"; "image/png"]%string)) || (10 * 1024 * 1024 <? fileSize f).
Definition pickPhotos (selected files : list File) : list File * option str :=
  if (4 <=? length files)%nat then (files, None) else
  if existsb badPhoto selected then (files, Some (js "Use PNG or JPEG images no larger than 10 MB each."))
  else (take 4 (files ++ selected), None).
Definition removePhoto (i : nat) (files : list File) : list File := delete i files.

Record CaptureFlow := mkCapture {
  cf_step : nat; cf_measures : Measures; cf_files : list File; cf_submitting : bool;
  cf_done : bool; cf_doneInspId : option str; cf_queued : bool; cf_savedAsDraft : bool }.
Definition openCapture : CaptureFlow := mkCapture 0 emptyMeasures [] false false None false false.

Inductive CaptureEvent :=
| cf_cargo (c : CargoType) | cf_next | cf_back | cf_edit (e : MeasureEdit) | cf_pick (selected : list File) | cf_remove (i : nat)
| cf_submit (status : InspectionStatus).
Definition capturePayload (callId : str) (status : InspectionStatus) (c : CaptureFlow) : InspectionPayload :=
  measuresPayload callId (cf_measures c) (computeReconciled (cf_measures c)) status None.
Definition captureTo (n : nat) (m : Measures) (files : list File) (submitting : bool) (c : CaptureFlow) : CaptureFlow :=
  mkCapture n m files submitting (cf_done c) (cf_doneInspId c) (cf_queued c) (cf_savedAsDraft c).
Definition mayReview (m : Measures) : bool := negb (numLeb (computeReconciled m) (S754_zero false)) && jettyOk m.
(** [result.inspectionId || result.invoice?.inspectionId || null] *)
Definition submittedId (r : InspectionSubmission) : option str :=
  match sub_inspectionId r with
  | Some i => if truthy i then Some i else sub_invoice r ≫= ivc_inspectionId
  | None => sub_invoice r ≫= ivc_inspectionId
  end.
Definition captureStep (e : CaptureEvent) (c : CaptureFlow) : option CaptureFlow :=
  let at_ n := Nat.eqb (cf_step c) n && negb (cf_done c) in
  let m := cf_measures c in
  match e with
  | cf_cargo cargo => if at_ 0%nat then Some (captureTo 0 (chooseCargo cargo m) (cf_files c) (cf_submitting c) c) else None
  | cf_next => if at_ 0%nat && bool_decide (is_Some (ms_cargo m)) then Some (captureTo 1 m (cf_files c) (cf_submitting c) c)
               else if at_ 1%nat && mayReview m then Some (captureTo 2 m (cf_files c) (cf_submitting c) c) else None
  | cf_back => if negb (cf_done c) && negb (Nat.eqb (cf_step c) 0)
               then Some (captureTo (cf_step c - 1) m (cf_files c) (cf_submitting c) c) else None
  | cf_edit ed => if at_ 1%nat && offeredEdit m ed then Some (captureTo 1 (editMeasures ed m) (cf_files c) (cf_submitting c) c) else None
  | cf_pick selected => if at_ 2%nat then Some (captureTo 2 m (fst (pickPhotos selected (cf_files c))) (cf_submitting c) c) else None
  | cf_remove i => if at_ 2%nat then Some (captureTo 2 m (removePhoto i (cf_files c)) (cf_submitting c) c) else None
  | cf_submit _ => if at_ 2%nat && negb (cf_submitting c) then Some (captureTo 2 m (cf_files c) true c) else None
  end.
(** What follows the answer of [addInspection]. *)
Definition captureAccepted (status : InspectionStatus) (r : InspectionSubmission) (c : CaptureFlow) : CaptureFlow :=
  mkCapture (cf_step c) (cf_measures c) (cf_files c) false true (submittedId r) (sub_queued r) (bool_decide (status = insp_draft)).
Definition captureRefused (c : CaptureFlow) : CaptureFlow := captureTo (cf_step c) (cf_measures c) (cf_files c) false c.

(** ** The page of the quay *)

(** The capture on the page: each time one is started it is a component of its own. *)
Record OpenCapture := mkOpenCapture { oc_mount : nat; oc_callId : str; oc_flow : CaptureFlow }.
(** A submission under way, and the component it was sent from. *)
Record SentCapture := mkSubmission { su_mount : nat; su_payload : InspectionPayload; su_files : list File }.
Record Quay := mkQuay { qy_capture : option OpenCapture; qy_mounts : nat; qy_sent : list SentCapture }.
Definition openQuay : Quay := mkQuay None 0 [].

Inductive QuayEvent :=
| qe_start (id : str) | qe_close | qe_flow (e : CaptureEvent) | qe_calls
| qe_accepted (mount : nat) (r : InspectionSubmission) | qe_refused (mount : nat).
Definition callListed (calls : list VesselCall) (id : str) : bool := existsb (λ c, streq (vc_id c) id) calls.
(** The way out: [x] at the first step, [Done], and [Back to tasks] where the call is gone. *)
Definition closeOffered (calls : list VesselCall) (o : OpenCapture) : bool :=
  negb (callListed calls (oc_callId o)) || cf_done (oc_flow o) || Nat.eqb (cf_step (oc_flow o)) 0.
Definition sentBy (mount : nat) (sent : list SentCapture) : option SentCapture := findb (λ u, Nat.eqb (su_mount u) mount) sent.
(** The answer to a submission; a component that is gone takes no notice. *)
Definition answerQuay (mount : nat) (f : InspectionPayload → CaptureFlow → CaptureFlow) (q : Quay) : option Quay :=
  u ← sentBy mount (qy_sent q);
  Some (mkQuay ((λ o, if Nat.eqb (oc_mount o) mount then mkOpenCapture (oc_mount o) (oc_callId o) (f (su_payload u) (oc_flow o)) else o) <$> qy_capture q)
          (qy_mounts q) (filterb (λ u, negb (Nat.eqb (su_mount u) mount)) (qy_sent q))).
(** What an event does on the calls of the current render; [None] when it cannot happen. *)
Definition quayStep (calls : list VesselCall) (e : QuayEvent) (q : Quay) : option Quay :=
  match e with
  | qe_start id =>
      match qy_capture q with
      | None => if callListed (filterb callOpen calls) id
                then Some (mkQuay (Some (mkOpenCapture (qy_mounts q) id openCapture)) (S (qy_mounts q)) (qy_sent q)) else None
      | Some _ => None
      end
  | qe_close => o ← qy_capture q; if closeOffered calls o then Some (mkQuay None (qy_mounts q) (qy_sent q)) else None
  | qe_flow ev =>
      o ← qy_capture q;
      if negb (callListed calls (oc_callId o)) then None else
      c ← captureStep ev (oc_flow o);
      Some (mkQuay (Some (mkOpenCapture (oc_mount o) (oc_callId o) c)) (qy_mounts q)
              (match ev with
               | cf_submit status => qy_sent q ++ [mkSubmission (oc_mount o) (capturePayload (oc_callId o) status (oc_flow o)) (cf_files (oc_flow o))]
               | _ => qy_sent q
               end))
  | qe_calls => (** the effect that leaves a capture whose call is gone *)
      Some (match qy_capture q with
            | Some o => if callListed calls (oc_callId o) then q else mkQuay None (qy_mounts q) (qy_sent q)
            | None => q
            end)
  | qe_accepted mount r => answerQuay mount (λ p, captureAccepted (ip_status p) r) q
  | qe_refused mount => answerQuay mount (λ _, captureRefused) q
  end.
(** The calls are those of each render. *)
Inductive quayRun : Quay → Prop :=
| qr_open : quayRun openQuay
| qr_step calls e q q' : quayRun q → quayStep calls e q = Some q' → quayRun q'.
End Quayside.

(** The task lists. *)
Definition awaitingCalls (calls : list VesselCall) : list VesselCall := filterb callOpen calls.
Definition readyCalls (calls : list VesselCall) : list VesselCall :=
  filterb (λ c, bool_decide (vc_status c = vc_in_progress)) (awaitingCalls calls).
Definition upcomingCalls (calls : list VesselCall) : list VesselCall :=
  filterb (λ c, bool_decide (vc_status c = vc_pending)) (awaitingCalls calls).
(** The inspection the last screen shows. *)
Definition capturedInspection {File} `{Host} (s : @Store File) (callId : str) (doneInspId : option str) : option Inspection :=
  match findb (λ i, bool_decide (Some (insp_id i) = doneInspId)) (st_inspections (so_state s)) with
  | Some i => Some i
  | None => findb (λ i, bool_decide (insp_status i = insp_completed)) (inspectionsForCall callId s)
  end.

(** ** The list of inspections *)

Section Inspections.
Context `{Host}.
Definition inspectionShown (cargoFilter : option CargoType) (query : str) (i : Inspection) : bool :=
  match cargoFilter with Some c => bool_decide (insp_cargoType i = c) | None => true end
  && (isEmpty query || (let q := toLowerCase query in
        includes q (toLowerCase (insp_reference i)) || includes q (toLowerCase (insp_vesselName i)))).
Definition inspectionRows (inspections : list Inspection) (cargoFilter : option CargoType) (query : str) : list Inspection :=
  sort_by byDateDescending (filterb (inspectionShown cargoFilter query) inspections).
End Inspections.
Definition resumePath (i : Inspection) : option str :=
  match insp_status i with insp_draft => Some (js "/app/inspections/new?inspectionId=" ++ insp_id i) | _ => None end.

(** ** What is sent *)

(** A payload has the measurements of its cargo and of no other, a jetty exactly when it is
    liquid, and is priced. *)
Definition pricedPayload (settings : Settings) (p : InspectionPayload) : Prop :=
  match ip_cargoType p with
  | Some Liquid => is_Some (ip_liquid p) ∧ ip_dry p = None ∧ ∃ j, ip_jetty p = Some j ∧
      (jet_type j = js "International" ∧ jet_category j = None ∨
       jet_type j = js "Local" ∧ (jet_category j = Some (js "Government") ∨ jet_category j = Some (js "Private"))) ∧
      is_Some (rateForInspection (Some (ratedInspection Liquid j)) settings)
  | Some Dry => ip_liquid p = None ∧ is_Some (ip_dry p) ∧ ip_jetty p = None
  | None => False
  end.
Definition knownJetty (l : LiquidMeasure) : Prop :=
  existsb (streq (lq_jettyType l)) (map js [""; "Local"; "International"]%string) = true ∧
  existsb (streq (lq_jettyCategory l)) (map js [""; "Government"; "Private"]%string) = true.

Lemma js_distinct : js "Local" ≠ js "International" ∧ js "Private" ≠ js "Government" ∧ js "" = [].
Proof. by vm_compute. Qed.
Lemma option_of s a b : existsb (streq s) (map js [""%string; a; b]) = true → s = [] ∨ s = js a ∨ s = js b.
Proof.
  rewrite existsb_true. intros (x & Hx & ->%streq_true).
  apply elem_of_cons in Hx as [->|[->|[->|[]%elem_of_nil]%elem_of_cons]%elem_of_cons]; auto.
Qed.
Lemma measures_priced callId m tonnage status version settings : is_Some (ms_cargo m) → knownJetty (ms_liquid m) → jettyOk m = true →
  pricedPayload settings (measuresPayload callId m tonnage status version).
Proof.
  intros [c Hc] [Ht Hcat] Hok. destruct js_distinct as (Hli & Hpg & Hnil). unfold pricedPayload, measuresPayload, jettyOk, isLiquid in *.
  cbn [ip_cargoType ip_liquid ip_dry ip_jetty]. rewrite Hc in *. destruct c; [|by repeat split].
  rewrite bool_decide_eq_true_2 in * by done. rewrite bool_decide_eq_false_2 by done. cbn [negb orb] in Hok.
  split; [done|]. split; [done|]. eexists. split; [done|]. cbn [jet_type jet_category ratedInspection insp_cargoType insp_jetty rateForInspection].
  unfold jettyCategory. apply orb_true_iff in Hok as [Hi%streq_true|[Hl%streq_true Hne]%andb_true_iff].
  - rewrite Hi. assert (streq (js "International") (js "Local") = false) as -> by by apply streq_false. rewrite streq_refl. eauto.
  - rewrite Hl. assert (streq (js "Local") (js "International") = false) as -> by by apply streq_false. rewrite streq_refl.
    apply option_of in Hcat as [Hcat|[Hcat|Hcat]]; rewrite Hcat in *; [done| |].
    + rewrite streq_refl. eauto 6.
    + assert (streq (js "Private") (js "Government") = false) as -> by by apply streq_false. rewrite streq_refl. eauto 6.
Qed.
Lemma edit_known e m : knownJetty (ms_liquid m) → offeredEdit m e = true → knownJetty (ms_liquid (editMeasures e m)).
Proof.
  intros [H1 H2] Ho. unfold editMeasures. cbn [ms_liquid]. destruct (ms_liquid m) as [a b c d x f g h]. unfold knownJetty in *.
  cbn [lq_jettyType lq_jettyCategory] in *. destruct e as [v|v|v|v|v|v|v|v|v|v|v|v]; cbn [editLiquid lq_jettyType lq_jettyCategory]; try done.
  - apply andb_true_iff in Ho as [_ Ho]. split; [done|]. by destruct (streq v (js "Local")).
  - apply andb_true_iff in Ho as [_ Ho]. done.
Qed.

Lemma emptyMeasures_known : knownJetty (ms_liquid emptyMeasures).
Proof. by vm_compute. Qed.

Section Captured.
Context {File : Type} (fileType : File → str) (fileSize : File → Z).

Definition goodPhotos (files : list File) : Prop := (length files ≤ 4)%nat ∧ ∀ f, f ∈ files → badPhoto fileType fileSize f = false.
Lemma pickPhotos_good selected files : goodPhotos files → goodPhotos (fst (pickPhotos fileType fileSize selected files)).
Proof.
  intros [Hl Hf]. unfold pickPhotos. destruct (_ <=? _)%nat; [done|]. destruct (existsb _ selected) eqn:E; [done|]. cbn [fst].
  rewrite existsb_false in E. split; [rewrite length_take; lia|]. intros f Hin. apply (subseteq_take 4) in Hin.
  apply elem_of_app in Hin as [?|?]; [by apply Hf|by apply E].
Qed.
Lemma removePhoto_good i files : goodPhotos files → goodPhotos (removePhoto i files).
Proof.
  intros [Hl Hf]. unfold removePhoto. split.
  - pose proof (sublist_length _ _ (sublist_delete files i)). lia.
  - intros f Hin. by apply Hf, (list_elem_of_delete_inv f i).
Qed.

(** What the flow has let through. *)
Record captureOk (c : CaptureFlow) : Prop := {
  ca_photos : goodPhotos (cf_files c);
  ca_jetty : knownJetty (ms_liquid (cf_measures c));
  ca_cargo : (1 ≤ cf_step c)%nat → is_Some (ms_cargo (cf_measures c));
  ca_review : (2 ≤ cf_step c)%nat → mayReview (cf_measures c) = true;
  ca_steps : (cf_step c ≤ 2)%nat }.
Lemma captureStep_ok e c c' : captureOk c → captureStep fileType fileSize e c = Some c' → captureOk c'.
Proof.
  intros [H1 H2 H3 H4 H5] Hs. unfold captureStep in Hs.
  destruct e as [cargo| | |ed|selected|i|status].
  - destruct (Nat.eqb_spec (cf_step c) 0), (cf_done c); simplify_eq/=. split; cbn; eauto; lia.
  - destruct (Nat.eqb (cf_step c) 0 && negb (cf_done c) && bool_decide _) eqn:E0.
    + apply andb_true_iff in E0 as [_ E0%bool_decide_eq_true]. simplify_eq. split; cbn; try done; lia.
    + destruct (Nat.eqb_spec (cf_step c) 1) as [E1|]; [|done]. destruct (negb (cf_done c)), (mayReview _) eqn:Er; simplify_eq/=.
      split; cbn; try done. intros _. apply H3. lia.
  - destruct (cf_done c); [done|]. destruct (Nat.eqb_spec (cf_step c) 0); simplify_eq/=. split; cbn; try done; intros; try lia.
    apply H3. lia.
  - destruct (Nat.eqb_spec (cf_step c) 1), (cf_done c), (offeredEdit _ _) eqn:Eo; simplify_eq/=.
    split; cbn; try done; try lia; [by apply edit_known|intros _; apply H3; lia].
  - destruct (Nat.eqb_spec (cf_step c) 2) as [E2|], (cf_done c); simplify_eq/=. rewrite E2 in *.
    split; cbn [captureTo cf_files cf_measures cf_step]; try done. by apply pickPhotos_good.
  - destruct (Nat.eqb_spec (cf_step c) 2) as [E2|], (cf_done c); simplify_eq/=. rewrite E2 in *.
    split; cbn [captureTo cf_files cf_measures cf_step]; try done. by apply removePhoto_good.
  - destruct (Nat.eqb_spec (cf_step c) 2) as [E2|], (cf_done c), (cf_submitting c); simplify_eq/=. rewrite E2 in *. by split.
Qed.
Lemma openCapture_ok : captureOk openCapture.
Proof.
  split; cbn; try lia; [|apply emptyMeasures_known]. split; [cbn; lia|by intros f ?%elem_of_nil].
Qed.
(** Only [submit] starts a submission, and only where none is under way. *)
Lemma captureStep_submitting e c c' : captureStep fileType fileSize e c = Some c' →
  match e with cf_submit _ => cf_submitting c = false ∧ cf_submitting c' = true | _ => cf_submitting c' = cf_submitting c end.
Proof.
  intros Hs. unfold captureStep in Hs. destruct e; repeat (case_match; try discriminate); simplify_eq; try done.
  split; [|done]. by destruct (cf_submitting c); rewrite ?andb_false_r in *.
Qed.

(** The submissions under way are of different components, and the capture on the page knows
    of its own. *)
Record quayOk (q : Quay (File := File)) : Prop := {
  qo_sent : NoDup (map su_mount (qy_sent q));
  qo_mounts : ∀ u, u ∈ qy_sent q → (su_mount u < qy_mounts q)%nat;
  qo_capture : ∀ o, qy_capture q = Some o → captureOk (oc_flow o) ∧ (oc_mount o < qy_mounts q)%nat ∧
    (oc_mount o ∈ map su_mount (qy_sent q) ↔ cf_submitting (oc_flow o) = true) }.
Lemma elem_of_mounts m (sent : list (SentCapture (File := File))) : m ∈ map su_mount sent ↔ ∃ u, u ∈ sent ∧ su_mount u = m.
Proof. rewrite list_elem_of_fmap. naive_solver. Qed.
Lemma answerQuay_ok mount f q q' : (∀ p c, captureOk c → captureOk (f p c) ∧ cf_submitting (f p c) = false) →
  quayOk q → answerQuay mount f q = Some q' → quayOk q'.
Proof.
  intros Hf [H1 H2 H3] Ha. unfold answerQuay in Ha. destruct (sentBy mount (qy_sent q)) as [u|] eqn:Eu; [|done]. simplify_eq/=.
  split; cbn [qy_sent qy_mounts qy_capture].
  - by apply NoDup_map_filterb.
  - intros v [Hv _]%elem_of_filterb. by apply H2.
  - intros o Ho. destruct (qy_capture q) as [o0|] eqn:Eq; [|done]. cbn in Ho. destruct (H3 o0 eq_refl) as (Hok & Hm & Hi).
    destruct (Nat.eqb_spec (oc_mount o0) mount) as [<-|Hne]; simplify_eq.
    + cbn [oc_flow oc_mount]. destruct (Hf (su_payload u) _ Hok) as [Hok' ->]. split_and!; [done|done|]. split; [|done].
      intros (v & Hv & Hvm)%elem_of_mounts. apply elem_of_filterb in Hv as [_ Hv]. by rewrite Hvm, Nat.eqb_refl in Hv.
    + split_and!; [done|done|]. rewrite <- Hi, !elem_of_mounts. setoid_rewrite elem_of_filterb. split; [naive_solver|].
      intros (v & Hv & Hvm). exists v. split; [split; [done|]|done]. by rewrite Hvm, (proj2 (Nat.eqb_neq _ _) Hne).
Qed.
Lemma quayStep_ok calls e q q' : quayOk q → quayStep fileType fileSize calls e q = Some q' → quayOk q'.
Proof.
  intros Hok Hs. pose proof Hok as [H1 H2 H3]. destruct e as [id| |ev| |mount r|mount]; cbn [quayStep] in Hs.
  - destruct (qy_capture q) eqn:Eq; [done|]. destruct (callListed _ _); [|done]. simplify_eq.
    split; cbn [qy_sent qy_mounts qy_capture]; [done|intros u Hu; specialize (H2 u Hu); lia|].
    intros o [= <-]. cbn [oc_flow oc_mount]. split_and!; [apply openCapture_ok|lia|]. split; [|done].
    intros (u & Hu & Hm)%elem_of_mounts. specialize (H2 u Hu). lia.
  - destruct (qy_capture q) as [o|]; [|done]. cbn in Hs. destruct (closeOffered calls o); [|done]. by simplify_eq.
  - destruct (qy_capture q) as [o|] eqn:Eq; [|done]. cbn in Hs. destruct (callListed _ _); [|done]. cbn in Hs.
    destruct (captureStep _ _ ev (oc_flow o)) as [c|] eqn:Ec; [|done]. cbn in Hs. simplify_eq.
    destruct (H3 o eq_refl) as (Hc & Hm & Hi). pose proof (captureStep_ok _ _ _ Hc Ec) as Hc'. apply captureStep_submitting in Ec.
    destruct ev; try (split; cbn [qy_sent qy_mounts qy_capture]; [done|done|]; intros o' [= <-]; cbn [oc_flow oc_mount]; by rewrite Ec).
    destruct Ec as [Es Es']. assert (Hn : oc_mount o ∉ map su_mount (qy_sent q)) by (rewrite Hi; congruence).
    split; cbn [qy_sent qy_mounts qy_capture]; rewrite ?map_app.
    + apply NoDup_app. split; [done|]. split; [|apply NoDup_singleton]. by intros x Hx ->%list_elem_of_singleton.
    + intros u [Hu| ->%list_elem_of_singleton]%elem_of_app; [by apply H2|done].
    + intros o' [= <-]. cbn [oc_flow oc_mount]. split_and!; [done|done|]. split; [done|]. intros _. apply elem_of_app. right. by left.
  - injection Hs as <-. destruct (qy_capture q) as [o|] eqn:Eq; [|done]. destruct (callListed _ _); [done|]. by split.
  - eapply answerQuay_ok; [|done|exact Hs]. intros p c [? ? ? ? ?]. by split.
  - eapply answerQuay_ok; [|done|exact Hs]. intros p c [? ? ? ? ?]. by split.
Qed.
Lemma quayRun_ok q : quayRun fileType fileSize q → quayOk q.
Proof. induction 1 as [|calls e q q' _ IH Hs]; [split; cbn; [constructor|by intros u ?%elem_of_nil|done]|by eapply quayStep_ok]. Qed.

(** C36. However captures are started, filled in, left and taken up again, with any number of
    answers outstanding, what the quay submits is for a call on the list, has the measurements
    of the chosen cargo only, the tonnage those measurements give, which is not zero or less,
    for a liquid the kind of jetty the dues depend on, so that there is a rate for it, and at
    most four photos, each of an accepted type and size; and no capture has two submissions
    under way: none was when it is submitted, and going back or changing it starts no other. *)
Theorem capture_priced calls q q' status settings : quayRun fileType fileSize q →
  quayStep fileType fileSize calls (qe_flow (cf_submit status)) q = Some q' →
  ∃ o, qy_capture q = Some o ∧ let p := capturePayload (oc_callId o) status (oc_flow o) in
    qy_sent q' = qy_sent q ++ [mkSubmission (oc_mount o) p (cf_files (oc_flow o))] ∧ NoDup (map su_mount (qy_sent q')) ∧
    callListed calls (ip_callId p) = true ∧ pricedPayload settings p ∧
    ip_reconciledTonnage p = computeReconciled (cf_measures (oc_flow o)) ∧
    numLeb (ip_reconciledTonnage p) (S754_zero false) = false ∧ goodPhotos (cf_files (oc_flow o)).
Proof.
  intros Hr Hs. pose proof (quayRun_ok q Hr) as Hok. pose proof (qo_sent _ (quayStep_ok _ _ _ _ Hok Hs)) as Hn. destruct Hok as [_ _ H3].
  cbn [quayStep] in Hs. destruct (qy_capture q) as [o|] eqn:Eq; [|done]. cbn [mbind option_bind] in Hs. destruct (callListed _ _) eqn:El; [|done]. cbn [negb] in Hs.
  destruct (captureStep fileType fileSize _ (oc_flow o)) as [c|] eqn:Ec; [|done]. cbn [mbind option_bind] in Hs. simplify_eq. exists o. split; [done|]. cbv zeta.
  destruct (H3 o eq_refl) as ([P1 P2 P3 P4 _] & _ & _). unfold captureStep in Ec.
  destruct (Nat.eqb_spec (cf_step (oc_flow o)) 2) as [E2|]; [|done]. specialize (P3 ltac:(lia)). specialize (P4 ltac:(lia)). unfold mayReview in P4.
  apply andb_true_iff in P4 as [Ht%negb_true_iff Hj]. split_and!; [done|exact Hn|done|by apply measures_priced|done|done|done].
Qed.
End Captured.

Abbreviation QuayFile := (str * Z)%type.
Definition quayCall : VesselCall :=
  mkVesselCall (js "call-0001") (js "MV Bonny") (js "VC-1") (js "Tanker") (js "NG") (numOfZ 900) (js "2026-07-01") [] [] None
    vc_in_progress [] None None 1 (js "2026-06-01").
Definition quayEvents : list (QuayEvent (File := QuayFile)) :=
  qe_start (js "call-0001") :: map qe_flow
    [cf_cargo Liquid; cf_next; cf_edit (me_surveyorTonnage (js "12450.5")); cf_edit (me_jettyType (js "Local"));
     cf_edit (me_jettyCategory (js "Private")); cf_next; cf_pick [(js "image/png", 2048)]].
Definition quayTrace (es : list QuayEvent) (q : Quay) : option Quay := foldl (λ o e, q ← o; quayStep fst snd [quayCall] e q) (Some q) es.
Definition quayCapture : Quay (File := QuayFile) := default openQuay (quayTrace quayEvents openQuay).
Lemma quayTrace_run es q q' : quayRun fst snd q → quayTrace es q = Some q' → quayRun fst snd q'.
Proof.
  revert q. induction es as [|e es IH]; intros q Hq; unfold quayTrace; cbn [foldl]; [by intros [= <-]|]. cbn [mbind option_bind].
  destruct (quayStep fst snd [quayCall] e q) as [q1|] eqn:E; [|clear; induction es; [done|]; by cbn].
  apply IH. by apply (qr_step _ _ [quayCall] e q).
Qed.
Lemma capture_priced_witness : ∃ q' o, quayStep fst snd [quayCall] (qe_flow (cf_submit insp_completed)) quayCapture = Some q' ∧
  qy_capture quayCapture = Some o ∧ su_mount <$> qy_sent q' = [0%nat] ∧
  computeReconciled (cf_measures (oc_flow o)) = numberOfInput (js "12450.5") ∧
  pricedPayload Dues.sampleSettings (capturePayload (oc_callId o) insp_completed (oc_flow o)).
Proof.
  destruct (quayStep fst snd [quayCall] (qe_flow (cf_submit insp_completed)) quayCapture) as [q'|] eqn:Hs;
    [|exfalso; revert Hs; vm_compute; discriminate].
  assert (Hr : quayRun fst snd quayCapture).
  { apply (quayTrace_run quayEvents openQuay); [constructor|]. vm_compute. reflexivity. }
  destruct (capture_priced fst snd [quayCall] quayCapture q' insp_completed Dues.sampleSettings Hr Hs)
    as (o & Ho & Hq & _ & _ & Hp & _). exists q', o. split; [reflexivity|]. split; [exact Ho|]. rewrite Hq.
  split; [vm_compute in Ho; injection Ho as <-; vm_compute; reflexivity|].
  split; [vm_compute in Ho; injection Ho as <-; vm_compute; reflexivity|exact Hp].
Defined.
(** Another capture of the same call can be submitted meanwhile: the first is left at its first
    step, by the way back, and the call is started again. *)
Example two_of_one_call :
  map (λ u, ip_callId (su_payload u)) <$> (qy_sent <$> quayTrace (qe_flow (cf_submit insp_completed)
    :: [qe_flow cf_back; qe_flow cf_back; qe_close] ++ quayEvents ++ [qe_flow (cf_submit insp_completed)]) quayCapture)
  = Some [js "call-0001"; js "call-0001"].
Proof. vm_compute. reflexivity. Qed.

(** ** The wizard *)

Section WizardRuns.
Context (locked : str) (draft : option Inspection).
(** The calls and settings of each render are the store's. *)
Inductive wizardRun : Wizard → Prop :=
| wr_open : wizardRun (mkWizard (match draft with Some _ => 1%nat | None => 0%nat end) locked
    (match draft with Some d => draftMeasures d | None => emptyMeasures end) None None)
| wr_step calls settings e w w' : wizardRun w → wizardStep locked calls settings e w = Some w' → wizardRun w'.

Definition draftKnown : Prop := match draft with Some d => knownJetty (ms_liquid (draftMeasures d)) | None => True end.
Record wizardOk (w : Wizard) : Prop := {
  wo_jetty : knownJetty (ms_liquid (wz_measures w));
  wo_cargo : (1 ≤ wz_step w)%nat → is_Some (ms_cargo (wz_measures w));
  wo_review : (2 ≤ wz_step w)%nat → canNext1 (wz_measures w) = true;
  wo_submitting : wz_submitting w ≠ None → wz_step w = 2%nat }.
Lemma wizardStep_ok calls settings e w w' : wizardOk w → wizardStep locked calls settings e w = Some w' → wizardOk w'.
Proof.
  intros [H1 H2 H3 H4] Hs. unfold wizardStep, atStep in Hs.
  destruct e as [id|c| | |ed|asDraft|asDraft r|].
  - destruct (Nat.eqb (wz_step w) 0 && _ && _ && _); [|done]. by simplify_eq.
  - destruct (Nat.eqb_spec (wz_step w) 0) as [E0|]; [|done]. destruct (wz_submitted w); [done|]. simplify_eq/=.
    split; cbn; try done; try lia.
  - destruct (Nat.eqb (wz_step w) 0 && _ && canNext0 w) eqn:E0.
    + apply andb_true_iff in E0 as [E0 Ec]. unfold canNext0 in Ec. apply andb_true_iff in Ec as [_ Ec%bool_decide_eq_true].
      apply andb_true_iff in E0 as [E0%Nat.eqb_eq _]. simplify_eq. split; cbn; try done; [lia|]. intros Hn. apply H4 in Hn. lia.
    + destruct (Nat.eqb_spec (wz_step w) 1) as [E1|]; [|done]. destruct (wz_submitted w); [done|].
      destruct (canNext1 (wz_measures w)) eqn:En; simplify_eq/=. split; cbn; try done. intros _. apply H2. lia.
  - destruct (Nat.eqb_spec (wz_step w) 1) as [E1|E1]; cbn [andb] in Hs.
    + destruct (wz_submitted w); cbn [andb] in Hs.
      * destruct (Nat.eqb_spec (wz_step w) 2); [lia|done].
      * simplify_eq. split; cbn; try done; try lia; intros Hn; apply H4 in Hn; lia.
    + destruct (Nat.eqb_spec (wz_step w) 2) as [E2|]; [|done]. destruct (_ && _ && idle w) eqn:Ei; [|done].
      apply andb_true_iff in Ei as [_ Ei]. unfold idle in Ei. simplify_eq.
      split; cbn; try done; try lia; intros; try (apply H2; lia); by destruct (wz_submitting w).
  - destruct (Nat.eqb_spec (wz_step w) 1) as [E1|]; [|done]. destruct (wz_submitted w); [done|].
    destruct (offeredEdit _ _) eqn:Eo; simplify_eq/=. split; cbn [withMeasures wz_measures wz_step wz_submitting]; try done; try lia.
    by apply edit_known.
  - destruct (callOfPage _ _); [|done]. destruct (Nat.eqb_spec (wz_step w) 2) as [E2|]; [|done]. destruct (_ && _); [|done].
    simplify_eq/=. rewrite E2 in *. by split.
  - destruct (wz_submitting w) as [[c st]|] eqn:Es; simplify_eq/=. by split.
  - unfold idle in Hs. destruct (wz_submitting w) eqn:Es; simplify_eq/=. by split.
Qed.
Lemma wizardRun_ok w : draftKnown → wizardRun w → wizardOk w.
Proof.
  intros Hd. induction 1 as [|calls settings e w w' _ IH Hs]; [|by eapply wizardStep_ok]. unfold draftKnown in Hd.
  destruct draft; split; cbn [wz_measures wz_step wz_submitting]; try done; try lia; try (intros; by eauto).
Qed.

(** A submission of the wizard is for a call on the list, is priced, and - unless it is a draft,
    which carries no tonnage - has the tonnage its measurements give, above zero; and one is
    under way at a time. *)
Lemma wizard_priced calls settings asDraft w w' : draftKnown → wizardRun w →
  wizardStep locked calls settings (wz_submit asDraft) w = Some w' →
  let p := wizardPayload draft asDraft w in
  pricedPayload settings p ∧ (∃ c, c ∈ calls ∧ vc_id c = ip_callId p) ∧
  (ip_status p = insp_completed → ip_reconciledTonnage p = computeReconciled (wz_measures w) ∧
     numLtb (S754_zero false) (ip_reconciledTonnage p) = true) ∧
  wizardStep locked calls settings (wz_submit asDraft) w' = None.
Proof.
  intros Hd Hr Hs. destruct (wizardRun_ok w Hd Hr) as [H1 H2 H3 _]. unfold wizardStep, atStep in Hs.
  destruct (callOfPage _ _) as [c|] eqn:Ec; [|done]. destruct (Nat.eqb_spec (wz_step w) 2) as [E2|]; [|done].
  destruct (_ && _); [|done]. simplify_eq. rewrite E2 in *.
  specialize (H3 ltac:(lia)). unfold canNext1 in H3. apply andb_true_iff in H3 as [Ht Hj].
  split_and!.
  - apply measures_priced; [by apply H2; lia|done|done].
  - unfold callOfPage in Ec. apply findb_Some in Ec as [Hc Hid%streq_true]. by exists c.
  - destruct asDraft; [done|]. by cbn.
  - unfold wizardStep. destruct (callOfPage _ _); [|done]. by rewrite andb_false_r.
Qed.
End WizardRuns.
Lemma openWizard_run callParam draft : wizardRun (lockedCall callParam draft) draft (openWizard callParam draft).
Proof. apply wr_open. Qed.

(** ** The call that goes away *)

(** A capture is left when its call disappears - but a cancelled call stays in the store, as any
    other change of it: the capture goes on. *)
Lemma cancelled_capture_stays {File} (fileType : File → str) (fileSize : File → Z) calls cancelled (q : Quay) o : qy_capture q = Some o →
  callListed calls (oc_callId o) = true → quayStep fileType fileSize (replaceCall cancelled calls) qe_calls q = Some q.
Proof.
  intros Ho Hl. cbn [quayStep]. rewrite Ho.
  assert (callListed (replaceCall cancelled calls) (oc_callId o) = true) as ->; [|done].
  unfold callListed in *. apply existsb_true in Hl as (c & Hc & Hid). apply existsb_true. unfold replaceCall.
  exists (if streq (vc_id c) (vc_id cancelled) then cancelled else c). split; [by apply list_elem_of_fmap; eauto|].
  destruct (streq (vc_id c) (vc_id cancelled)) eqn:Es; [|done]. apply streq_true in Es. by rewrite <- Es.
Qed.
(** Every open call is on the task list under exactly one heading. *)
Lemma tasks_split calls c : c ∈ awaitingCalls calls ↔ c ∈ readyCalls calls ∨ c ∈ upcomingCalls calls.
Proof.
  unfold readyCalls, upcomingCalls, awaitingCalls. rewrite !elem_of_filterb, !bool_decide_eq_true. unfold callOpen.
  destruct (vc_status c) eqn:E; cbn; naive_solver.
Qed.
