(* ===== verification/Invoices.v ===== *)
(** * Invoices and the formatters (frontend/src/screens/Invoices.tsx, lib/format.ts, lib/queryClient.ts)

    The state an invoice is shown in, the list with its totals, and the drawer that moves an
    invoice, records and reverses its payment and lists its files.  The locale's digits and
    dates are the host's and not modelled. *)
From Stdlib Require Import SpecFloat.
From S2P Require Import Prelude JsString JsNumber Json Codec MeasurementTypes Host Endpoints ApiClient AppTypes ReadingsModel Capture.

(** ** lib/format.ts, lib/queryClient.ts *)

Definition portOfCalabar : str := js "Port of Calabar".
Definition orgPorts (org : option Organization) (fallback : str) : list str :=
  let designated := default [] (org_designatedPort <$> org) in
  let ports := match default [] (org_ports <$> org) with
               | [] => [if truthy designated then designated else fallback] | ports => ports end in
  filterb truthy ports.
Definition orgPortsLabel (org : option Organization) (fallback : str) : str :=
  match orgPorts org fallback with
  | [] => fallback
  | [p] => if truthy p then p else fallback
  | p :: rest => p ++ js " +" ++ printZ (Z.of_nat (length rest)) ++ js " more"
  end.
(** [String(name || "?").trim().split(/\s+/)], the first code units of the first two words *)
Definition userInitials `{Host} (name : str) : str :=
  let words := split cSpace (clean (if truthy name then name else js "?")) in
  let initials := toUpperCase (concat (map (take 1) (take 2 words))) in
  if truthy initials then initials else js "?".
(** Queries are tried three times, but never after an answer below 500. *)
Definition queryRetry (failureCount : Z) (status : option Z) : bool :=
  negb (match status with Some s => s <? 500 | None => false end) && (failureCount <? 2).

Section Effective.
Context `{Host}.
(** [now] is the clock; the day of the due date is over at its last second. *)
Definition effectiveInvoiceStatus (now : Z) (inv : option Invoice) : EffectiveInvoiceStatus :=
  match inv with
  | None => eff_unpaid
  | Some i =>
    match ivc_status i with
    | ivc_void => eff_void
    | ivc_paid => eff_paid
    | ivc_unpaid =>
      if truthy (ivc_due i) && match dateParse (ivc_due i ++ js "T23:59:59") with Some t => t <? now | None => false end
      then eff_overdue else eff_unpaid
    end
  end.

(** ** The list *)

Record InvoiceRow := mkInvoiceRow {
  iro_invoice : Invoice; iro_call : option VesselCall; iro_effective : EffectiveInvoiceStatus; iro_cargoType : option str;
  iro_vesselName : str; iro_callRef : str; iro_rate : num; iro_commissionUsd : num; iro_commissionNgn : num }.
Definition isDisparity (i : Invoice) : bool := bool_decide (ivc_purpose i = Some disparity).
Definition cargoText (c : CargoType) : str := match c with Liquid => js "Liquid" | Dry => js "Dry" end.
Definition nonBlank (s : str) : option str := if truthy s then Some s else None.
(** An absent number is zero; a zero, of either sign, too. *)
Definition orZero (x : num) : num := if numTruthy x then x else S754_zero false.
(** The amounts are those of the invoice: the declared type has them on every invoice. *)
Definition invoiceRow (now : Z) (calls : list VesselCall) (inspections : list Inspection) (i : Invoice) : InvoiceRow :=
  let call := findb (λ c, streq (vc_id c) (ivc_callId i)) calls in
  let insp := findb (λ x, bool_decide (Some (insp_id x) = ivc_inspectionId i)) inspections in
  mkInvoiceRow i call (effectiveInvoiceStatus now (Some i))
    (if isDisparity i then None else
     match nonBlank (ivc_cargoType i) with Some c => Some c | None => cargoText ∘ insp_cargoType <$> insp end)
    (default (js "—") (call ≫= λ c, nonBlank (vc_vesselName c))) (default (js "—") (call ≫= λ c, nonBlank (vc_reference c)))
    (orZero (ivc_rate i)) (orZero (ivc_commissionUsd i)) (orZero (ivc_commissionNgn i)).
Definition byIssued (a b : InvoiceRow) : Z :=
  match dateParse (ivc_issued (iro_invoice a)), dateParse (ivc_issued (iro_invoice b)) with Some x, Some y => y - x | _, _ => 0 end.
Definition allRows (now : Z) (invoices : list Invoice) (calls : list VesselCall) (inspections : list Inspection) : list InvoiceRow :=
  sort_by byIssued (map (invoiceRow now calls inspections) invoices).
Definition rowShown (statusFilter : option EffectiveInvoiceStatus) (query : str) (r : InvoiceRow) : bool :=
  match statusFilter with Some s => bool_decide (iro_effective r = s) | None => true end
  && (isEmpty query || (let q := toLowerCase query in
        includes q (toLowerCase (ivc_invoiceNo (iro_invoice r))) || includes q (toLowerCase (iro_vesselName r)))).
Definition shownRows (rows : list InvoiceRow) (statusFilter : option EffectiveInvoiceStatus) (query : str) : list InvoiceRow :=
  filterb (rowShown statusFilter query) rows.
End Effective.

(** [Math.max(0, x)] *)
Definition numMax0 (x : num) : num :=
  match x with S754_nan => S754_nan | _ => if numLtb (S754_zero false) x then x else S754_zero false end.
Definition paidAmount (r : InvoiceRow) : num :=
  match ivc_paidAmount (iro_invoice r) with
  | Some p => p
  | None => if bool_decide (iro_effective r = eff_paid) then ivc_dues (iro_invoice r) else S754_zero false
  end.
Definition outstandingAmount (r : InvoiceRow) : num :=
  match ivc_outstandingAmount (iro_invoice r) with
  | Some o => o
  | None => numMax0 (numSub (ivc_dues (iro_invoice r)) (paidAmount r))
  end.
Record Tracking := mkTracking { tr_invoiced : num; tr_collected : num; tr_outstanding : num; tr_overdue : num; tr_overdueCount : Z }.
Definition track (t : Tracking) (r : InvoiceRow) : Tracking :=
  if bool_decide (iro_effective r = eff_void) then t else
  let overdue := bool_decide (iro_effective r = eff_overdue) in
  mkTracking (numAdd (tr_invoiced t) (ivc_dues (iro_invoice r))) (numAdd (tr_collected t) (paidAmount r))
    (numAdd (tr_outstanding t) (outstandingAmount r))
    (if overdue then numAdd (tr_overdue t) (outstandingAmount r) else tr_overdue t)
    (if overdue then tr_overdueCount t + 1 else tr_overdueCount t).
Definition tracking (rows : list InvoiceRow) : Tracking :=
  foldl track (mkTracking (S754_zero false) (S754_zero false) (S754_zero false) (S754_zero false) 0) rows.

(** ** The drawer of an invoice *)

Record InvoiceDrawer := mkInvoiceDrawer {
  dr_paidOn : str; dr_method : str; dr_reference : str; dr_reversalReason : str; dr_reversing : bool; dr_busy : bool;
  dr_nextStatusId : str; dr_statusFeedback : str; dr_attachments : list InvoiceAttachment; dr_uploading : bool; dr_attachmentError : str }.
Definition openInvoice (today : str) : InvoiceDrawer :=
  mkInvoiceDrawer today (js "Bank transfer") [] [] false false [] [] [] false [].
Definition withBusy (busy : bool) (feedback nextStatusId : str) (d : InvoiceDrawer) : InvoiceDrawer :=
  mkInvoiceDrawer (dr_paidOn d) (dr_method d) (dr_reference d) (dr_reversalReason d) (dr_reversing d) busy nextStatusId feedback
    (dr_attachments d) (dr_uploading d) (dr_attachmentError d).
Definition withFiles (attachments : list InvoiceAttachment) (uploading : bool) (error : str) (d : InvoiceDrawer) : InvoiceDrawer :=
  mkInvoiceDrawer (dr_paidOn d) (dr_method d) (dr_reference d) (dr_reversalReason d) (dr_reversing d) (dr_busy d) (dr_nextStatusId d)
    (dr_statusFeedback d) attachments uploading error.

Section Drawer.
(** Whether the session may record payments, the invoice as the store has it now, its row. *)
Context (canRecord : bool) (row : InvoiceRow) (effective : EffectiveInvoiceStatus).
Definition canPay : bool := canRecord && negb (bool_decide (effective = eff_void)).
Definition statusOptions (steps : list InvoiceWorkflowStatus) : list InvoiceWorkflowStatus :=
  filterb (λ s, ws_active s && negb (ws_isPaid s)) steps.
Definition chooseStatus (steps : list InvoiceWorkflowStatus) (id : str) (d : InvoiceDrawer) : InvoiceDrawer :=
  if canPay && (isEmpty id || existsb (λ s, bool_decide (default [] (ws_id s) = id)) (statusOptions steps))
  then withBusy (dr_busy d) [] id d else d.
Definition moveInvoice (d : InvoiceDrawer) : option (InvoiceDrawer * OperationEndpoint) :=
  if negb canPay || dr_busy d || isEmpty (dr_nextStatusId d) then None else
  Some (withBusy true [] (dr_nextStatusId d) d,
        transitionInvoice (ivc_id (iro_invoice row)) (mkObj [fld "statusId" (dr_nextStatusId d)])).
Definition invoiceMoved (label : str) (d : InvoiceDrawer) : InvoiceDrawer :=
  withBusy false (js "Status saved: " ++ label ++ js ". The audit history has been updated.") [] d.
Definition moveRefused (message : str) (d : InvoiceDrawer) : InvoiceDrawer := withBusy false message (dr_nextStatusId d) d.

Definition paymentForm : bool :=
  canPay && negb (bool_decide (effective = eff_paid) && bool_decide (is_Some (ivc_payment (iro_invoice row)))).
Definition recordPayment (d : InvoiceDrawer) : option (InvoiceDrawer * OperationEndpoint) :=
  if negb paymentForm || dr_busy d || isEmpty (dr_paidOn d) || isEmpty (trim (dr_reference d)) then None else
  Some (withBusy true (dr_statusFeedback d) (dr_nextStatusId d) d,
        Endpoints.recordPayment (ivc_id (iro_invoice row))
          (mkObj [fld "paidOn" (dr_paidOn d); fld "method" (dr_method d); fld "reference" (trim (dr_reference d))])).
Definition askReversal (d : InvoiceDrawer) : InvoiceDrawer :=
  if canPay && bool_decide (effective = eff_paid) && bool_decide (is_Some (ivc_payment (iro_invoice row))) && negb (dr_busy d)
  then mkInvoiceDrawer (dr_paidOn d) (dr_method d) (dr_reference d) (dr_reversalReason d) true (dr_busy d) (dr_nextStatusId d)
         (dr_statusFeedback d) (dr_attachments d) (dr_uploading d) (dr_attachmentError d)
  else d.
Definition reversePayment (d : InvoiceDrawer) : option (InvoiceDrawer * OperationEndpoint) :=
  p ← ivc_payment (iro_invoice row);
  if negb canPay || negb (bool_decide (effective = eff_paid)) || negb (dr_reversing d) || dr_busy d
     || (length (trim (dr_reversalReason d)) <? 3)%nat then None else
  Some (withBusy true (dr_statusFeedback d) (dr_nextStatusId d) d, Endpoints.reversePayment (paym_id p) (trim (dr_reversalReason d))).
End Drawer.
(** The files: the listing asked for when the drawer opens, and the one after an upload. *)
Definition filesListed (results : list InvoiceAttachment) (d : InvoiceDrawer) : InvoiceDrawer :=
  withFiles results (dr_uploading d) (dr_attachmentError d) d.
Definition listingFailed (d : InvoiceDrawer) : InvoiceDrawer :=
  withFiles (dr_attachments d) (dr_uploading d) (js "Could not load uploaded invoice files.") d.
Definition startUpload (d : InvoiceDrawer) : option InvoiceDrawer :=
  if dr_uploading d then None else Some (withFiles (dr_attachments d) true [] d).
Definition uploadListed (results : list InvoiceAttachment) (d : InvoiceDrawer) : InvoiceDrawer := withFiles results false (dr_attachmentError d) d.
Definition uploadFailed (message : str) (d : InvoiceDrawer) : InvoiceDrawer := withFiles (dr_attachments d) false message d.

(** ** Lemmas *)

Section Rows.
Context `{Host}.
(** An invoice is overdue exactly when it is neither paid nor void and its due day is over. *)
Lemma overdue_iff now i : effectiveInvoiceStatus now (Some i) = eff_overdue ↔
  ivc_status i = ivc_unpaid ∧ ivc_due i ≠ [] ∧ ∃ t, dateParse (ivc_due i ++ js "T23:59:59") = Some t ∧ t < now.
Proof.
  unfold effectiveInvoiceStatus. destruct (ivc_status i); [naive_solver| |naive_solver].
  destruct (ivc_due i) as [|c l]; [naive_solver|]. cbn [truthy isEmpty negb andb].
  destruct (dateParse _) as [t|]; [|naive_solver]. destruct (Z.ltb_spec t now).
  - split; [|done]. intros _. split_and!; eauto.
  - split; [done|]. intros (_ & _ & t' & [= <-] & Ht). lia.
Qed.
Lemma byIssued_flip a b : 0 < byIssued a b → byIssued b a <= 0.
Proof. unfold byIssued. destruct (dateParse _), (dateParse _); lia. Qed.
(** Every invoice has one row, the latest first; and the four filters divide them. *)
Lemma allRows_spec now invoices calls inspections :
  map iro_invoice (allRows now invoices calls inspections) ≡ₚ invoices ∧
  Sorted (λ a b, byIssued a b <= 0) (allRows now invoices calls inspections).
Proof.
  unfold allRows. split; [|apply sort_by_sorted, byIssued_flip]. rewrite (fmap_Permutation iro_invoice _ _ (sort_by_perm _ _)).
  assert (iro_invoice <$> map (invoiceRow now calls inspections) invoices = invoices) as ->; [|done].
  induction invoices as [|i l IH]; [done|]. cbn. by f_equal.
Qed.
Lemma filters_divide (rows : list InvoiceRow) query :
  shownRows rows None query ≡ₚ shownRows rows (Some eff_paid) query ++ shownRows rows (Some eff_unpaid) query
    ++ shownRows rows (Some eff_overdue) query ++ shownRows rows (Some eff_void) query.
Proof.
  assert (Hr : ∀ s r, rowShown (Some s) query r = bool_decide (iro_effective r = s) && rowShown None query r) by done.
  unfold shownRows. induction rows as [|r rows IH]; [done|]. cbn [List.filter]. rewrite !Hr.
  destruct (rowShown None query r); rewrite ?andb_false_r, ?andb_true_r; [|exact IH].
  destruct (iro_effective r); repeat case_bool_decide; try done; rewrite IH.
  - done.
  - apply Permutation_middle.
  - cbn [app]. by rewrite <- !Permutation_middle.
  - by rewrite <- !Permutation_middle.
Qed.
End Rows.

(** ** What the drawer sends *)

(** Money only moves where it may: a payment is recorded by who may, on an invoice that is neither
    void nor paid already, with a date and a reference; reversed where one is recorded, with a
    reason; and one request of the drawer is under way at a time. *)
Lemma payment_guarded canRecord row effective d d' e : recordPayment canRecord row effective d = Some (d', e) →
  canRecord = true ∧ effective ≠ eff_void ∧ (effective = eff_paid → ivc_payment (iro_invoice row) = None) ∧
  dr_paidOn d ≠ [] ∧ trim (dr_reference d) ≠ [] ∧ dr_busy d = false ∧
  recordPayment canRecord row effective d' = None ∧ moveInvoice canRecord row effective d' = None ∧
  reversePayment canRecord row effective d' = None.
Proof.
  unfold recordPayment, moveInvoice, reversePayment, paymentForm, canPay. intros Hs.
  destruct canRecord; [|done]. destruct (decide (effective = eff_void)) as [->|Hv]; [done|].
  rewrite bool_decide_eq_false_2 in * by done. cbn [andb negb] in *.
  destruct (bool_decide (effective = eff_paid) && _) eqn:Ep; [done|]. destruct (dr_busy d) eqn:Eb; [done|].
  destruct (dr_paidOn d) eqn:Eo; [done|]. destruct (trim (dr_reference d)) eqn:Er; [done|]. cbn [negb orb isEmpty] in Hs.
  simplify_eq. split_and!; try done.
  - intros ->. apply andb_false_iff in Ep as [Ep|Ep%bool_decide_eq_false]; [done|].
    destruct (ivc_payment _); [|done]. by destruct Ep.
  - destruct (ivc_payment (iro_invoice row)); [|done]. cbn. by rewrite !orb_true_r.
Qed.
Lemma reversal_guarded canRecord row effective d d' e : reversePayment canRecord row effective d = Some (d', e) →
  canRecord = true ∧ effective = eff_paid ∧ (3 ≤ length (trim (dr_reversalReason d)))%nat ∧
  (∃ p, ivc_payment (iro_invoice row) = Some p ∧ e = Endpoints.reversePayment (paym_id p) (trim (dr_reversalReason d))) ∧
  reversePayment canRecord row effective d' = None.
Proof.
  unfold reversePayment. destruct (ivc_payment (iro_invoice row)) as [p|]; [|done]. cbn [mbind option_bind].
  unfold canPay. destruct canRecord; [|done]. destruct (decide (effective = eff_paid)) as [->|Hp]; [|by rewrite (bool_decide_eq_false_2 (effective = eff_paid)), orb_true_r].
  destruct (dr_reversing d) eqn:Er, (dr_busy d) eqn:Eb;
    rewrite ?orb_true_r; try done. rewrite (bool_decide_eq_false_2 (eff_paid = eff_void)), bool_decide_eq_true_2 by done. cbn [andb negb orb].
  destruct (Nat.ltb_spec (length (trim (dr_reversalReason d))) 3); [done|]. intros [= <- <-].
  split_and!; [done|done|done|by exists p|]. cbn. by rewrite !orb_true_r.
Qed.
(** A void invoice counts for nothing in the totals. *)
Lemma tracking_void rows r : iro_effective r = eff_void → tracking (rows ++ [r]) = tracking rows.
Proof. intros Hv. unfold tracking. rewrite foldl_app. cbn [foldl]. set (t := foldl _ _ rows). unfold track. by rewrite bool_decide_eq_true_2. Qed.
(** The listing that was asked for when the drawer opened is taken whenever it arrives: after an
    upload's, it takes the uploaded file off the list again. *)
Lemma late_listing early late d : dr_attachments (filesListed early (uploadListed late d)) = early.
Proof. done. Qed.
