(* ===== verification/OrganizationAccess.v ===== *)
(** * Access to an organization (frontend/src/screens/OrganizationAccess.tsx, lib/organizationJoin.ts)

    The panel that creates, replaces and revokes the organization's sign-up link, whose address
    is shown once, and the panel where an Admin approves or rejects the people who asked to
    join. *)
From S2P Require Import Prelude JsString Json MeasurementTypes Host Endpoints ApiClient AppTypes UserManagement.

(** ** Data *)

Inductive LinkStatus := lnk_active | lnk_expired | lnk_revoked.
#[export] Instance LinkStatus_eq : EqDecision LinkStatus. Proof. solve_decision. Defined.
Record OrganizationSignupLink := mkSignupLink {
  lnk_id : str; lnk_organizationId : str; lnk_createdAt : str; lnk_expiresAt : str; lnk_revokedAt : option str;
  lnk_status : LinkStatus; lnk_createdBy : str * str }.
Inductive JoinRequestStatus := jrs_unverified | jrs_pending | jrs_approved | jrs_rejected | jrs_expired.
#[export] Instance JoinRequestStatus_eq : EqDecision JoinRequestStatus. Proof. solve_decision. Defined.
Record OrganizationJoinRequest := mkJoinRequest {
  jrq_id : str; jrq_name : str; jrq_email : str; jrq_status : JoinRequestStatus; jrq_createdAt : str;
  jrq_emailVerifiedAt : option str; jrq_reviewedAt : option str; jrq_role : option Role }.

(** ** The sign-up link *)

Section ActiveLink.
Context `{Host}.
Definition linkIsActive (now : Z) (link : OrganizationSignupLink) : bool :=
  bool_decide (lnk_status link = lnk_active)
  && match dateParse (lnk_expiresAt link) with Some t => now <? t | None => false end.
(** The first of the listed links that is; [None] too while there is no list. *)
Definition activeLink (now : Z) (links : list OrganizationSignupLink) : option OrganizationSignupLink :=
  findb (linkIsActive now) links.
End ActiveLink.

Inductive LinkIntent := int_replace | int_revoke.
#[export] Instance LinkIntent_eq : EqDecision LinkIntent. Proof. solve_decision. Defined.
Inductive CopyState := copy_idle | copy_copied | copy_failed.
Record GeneratedLink := mkGenerated { gl_url : str; gl_id : str; gl_expiresAt : str }.
Inductive LinkRequest := rl_create (days : Z) | rl_revoke (id : str).
#[export] Instance LinkRequest_eq : EqDecision LinkRequest. Proof. solve_decision. Defined.
Definition linkCall (r : LinkRequest) : JoinEndpoint :=
  match r with rl_create days => join_createLink days | rl_revoke id => join_revokeLink id end.

(** [lp_inFlight] is the ref; [lp_mounted] says that [generation] is what it was, so that
    the answers still count; [lp_requests] are sent and not answered. *)
Record LinkPanel := mkLinkPanel {
  lp_days : Z; lp_intent : option LinkIntent; lp_generated : option GeneratedLink; lp_copyState : CopyState;
  lp_pending : bool; lp_operationError : option (option ApiError); lp_inFlight : bool; lp_mounted : bool;
  lp_requests : list LinkRequest }.
Definition openLinkPanel : LinkPanel := mkLinkPanel 7 None None copy_idle false None false true [].
Definition withIntent (i : option LinkIntent) (p : LinkPanel) : LinkPanel :=
  mkLinkPanel (lp_days p) i (lp_generated p) (lp_copyState p) (lp_pending p) (lp_operationError p) (lp_inFlight p) (lp_mounted p) (lp_requests p).
Definition withCopyState (c : CopyState) (p : LinkPanel) : LinkPanel :=
  mkLinkPanel (lp_days p) (lp_intent p) (lp_generated p) c (lp_pending p) (lp_operationError p) (lp_inFlight p) (lp_mounted p) (lp_requests p).
(** [perform], up to its request; nothing is sent when there is no link left to revoke. *)
Definition performed (generated : option GeneratedLink) (p : LinkPanel) : LinkPanel :=
  if lp_mounted p then mkLinkPanel (lp_days p) None generated copy_idle false (lp_operationError p) false true (lp_requests p) else p.
Definition performFailed (error : option ApiError) (p : LinkPanel) : LinkPanel :=
  if lp_mounted p then mkLinkPanel (lp_days p) (lp_intent p) (lp_generated p) (lp_copyState p) false (Some error) false true (lp_requests p) else p.
Definition perform (active : option OrganizationSignupLink) (revoking : bool) (p : LinkPanel) : LinkPanel * option LinkRequest :=
  if lp_inFlight p then (p, None) else
  let sent requests := mkLinkPanel (lp_days p) (lp_intent p) (lp_generated p) (lp_copyState p) true None true (lp_mounted p) requests in
  if negb revoking then (sent (lp_requests p ++ [rl_create (lp_days p)]), Some (rl_create (lp_days p))) else
  match active with
  | Some link => (sent (lp_requests p ++ [rl_revoke (lnk_id link)]), Some (rl_revoke (lnk_id link)))
  | None => (performed None (sent (lp_requests p)), None)
  end.
(** The answer to a request: the address of the link that was created, nothing for a revocation. *)
Definition linkAnswered (r : LinkRequest) (answer : result (option ApiError) (option GeneratedLink)) (p : LinkPanel) : LinkPanel :=
  let p := mkLinkPanel (lp_days p) (lp_intent p) (lp_generated p) (lp_copyState p) (lp_pending p) (lp_operationError p)
             (lp_inFlight p) (lp_mounted p) (match list_find (λ q, q = r) (lp_requests p) with Some (i, _) => delete i (lp_requests p) | None => lp_requests p end) in
  match answer with Ok generated => performed generated p | Err e => performFailed e p end.
Definition visibleGenerated (active : option OrganizationSignupLink) (p : LinkPanel) : option GeneratedLink :=
  match lp_generated p, active with
  | Some g, Some link => if streq (lnk_id link) (gl_id g) then Some g else None
  | _, _ => None
  end.
(** The text that goes to the clipboard. *)
Definition copyLink (active : option OrganizationSignupLink) (p : LinkPanel) : option str :=
  if lp_pending p then None else gl_url <$> visibleGenerated active p.
Definition DAYS : list Z := [1; 7; 14; 30].

Inductive LinkEvent :=
| le_days (days : Z) | le_create | le_revoke | le_cancel | le_confirm | le_copied (ok : bool) | le_leave
| le_answer (r : LinkRequest) (answer : result (option ApiError) (option GeneratedLink)).
(** An answer has an address exactly when a link was asked for. *)
Definition answers (r : LinkRequest) (answer : result (option ApiError) (option GeneratedLink)) : bool :=
  match r, answer with rl_create _, Ok None | rl_revoke _, Ok (Some _) => false | _, _ => true end.
(** What the controls do, [active] being the link of the list that is shown at the time. *)
Definition linkStep (active : option OrganizationSignupLink) (e : LinkEvent) (p : LinkPanel) : option (LinkPanel * option LinkRequest) :=
  let idle := lp_mounted p && negb (lp_pending p) in
  match e with
  | le_days days => if idle && bool_decide (days ∈ DAYS)
                    then Some (mkLinkPanel days (lp_intent p) (lp_generated p) (lp_copyState p) (lp_pending p) (lp_operationError p)
                                 (lp_inFlight p) (lp_mounted p) (lp_requests p), None) else None
  | le_create => if negb idle then None else
                 match active with Some _ => Some (withIntent (Some int_replace) p, None) | None => Some (perform active false p) end
  | le_revoke => if idle && bool_decide (is_Some active) then Some (withIntent (Some int_revoke) p, None) else None
  | le_cancel => if idle && bool_decide (is_Some (lp_intent p)) then Some (withIntent None p, None) else None
  | le_confirm => if negb idle then None else
                  match lp_intent p with Some i => Some (perform active (bool_decide (i = int_revoke)) p) | None => None end
  | le_copied ok => Some (withCopyState (if ok then copy_copied else copy_failed) p, None)
  | le_leave => if lp_mounted p
                then Some (mkLinkPanel (lp_days p) (lp_intent p) (lp_generated p) (lp_copyState p) (lp_pending p) (lp_operationError p)
                             (lp_inFlight p) false (lp_requests p), None) else None
  | le_answer r answer => if bool_decide (r ∈ lp_requests p) && answers r answer then Some (linkAnswered r answer p, None) else None
  end.
(** The link this panel was last given the address of, unless it was revoked since; the panel
    as its events leave it. *)
Definition givenBy (p : LinkPanel) (e : LinkEvent) (given : option GeneratedLink) : option GeneratedLink :=
  match e with le_answer _ (Ok g) => if lp_mounted p then g else given | _ => given end.
Inductive linkRun : option GeneratedLink → LinkPanel → Prop :=
| lr_open : linkRun None openLinkPanel
| lr_step given active e p p' r : linkRun given p → linkStep active e p = Some (p', r) → linkRun (givenBy p e given) p'.

(** ** The requests to join *)

#[export] Instance OrganizationJoinRequest_eq : EqDecision OrganizationJoinRequest. Proof. solve_decision. Defined.
Inductive ReviewAction := rev_approved | rev_rejected.
#[export] Instance ReviewAction_eq : EqDecision ReviewAction. Proof. solve_decision. Defined.
(** [rv_sent]: the mutation under way, which is also what [inFlight] says. *)
Record Review := mkReview {
  rv_request : OrganizationJoinRequest; rv_role : Role; rv_adminConfirmed : bool; rv_rejecting : bool;
  rv_sent : option ReviewAction; rv_error : option (option ApiError) }.
Definition openReview (request : OrganizationJoinRequest) : Review := mkReview request Operations false false None None.
Definition reviewIdle (s : Review) : bool := match rv_sent s with None => true | Some _ => false end.
Inductive ReviewRequest := rr_approve (id : str) (role : Role) | rr_reject (id : str).
Definition reviewCall (r : ReviewRequest) : JoinEndpoint :=
  match r with rr_approve id role => join_approve id (roleText role) | rr_reject id => join_reject id end.
Definition performReview (a : ReviewAction) (s : Review) : option (Review * ReviewRequest) :=
  if negb (reviewIdle s) || (bool_decide (a = rev_approved) && bool_decide (rv_role s = Admin) && negb (rv_adminConfirmed s)) then None else
  Some (mkReview (rv_request s) (rv_role s) (rv_adminConfirmed s) (rv_rejecting s) (Some a) None,
        match a with rev_approved => rr_approve (jrq_id (rv_request s)) (rv_role s) | rev_rejected => rr_reject (jrq_id (rv_request s)) end).
Definition chooseRole (role : Role) (s : Review) : option Review :=
  if reviewIdle s && negb (rv_rejecting s) then Some (mkReview (rv_request s) role false (rv_rejecting s) (rv_sent s) (rv_error s)) else None.
(** The box is there for an Admin only. *)
Definition confirmAdmin (checked : bool) (s : Review) : option Review :=
  if reviewIdle s && negb (rv_rejecting s) && bool_decide (rv_role s = Admin)
  then Some (mkReview (rv_request s) (rv_role s) checked (rv_rejecting s) (rv_sent s) (rv_error s)) else None.
Definition setRejecting (rejecting : bool) (s : Review) : option Review :=
  if reviewIdle s then Some (mkReview (rv_request s) (rv_role s) (rv_adminConfirmed s) rejecting (rv_sent s) (rv_error s)) else None.
Definition reviewFailed (error : option ApiError) (s : Review) : Review :=
  mkReview (rv_request s) (rv_role s) (rv_adminConfirmed s) (rv_rejecting s) None (Some error).

(** The panel; the review's drawer covers the list. *)
Record RequestsPanel := mkRequestsPanel { jp_all : bool; jp_page : Z; jp_selected : option Review; jp_feedback : option str }.
Definition openRequests : RequestsPanel := mkRequestsPanel false 1 None None.
Definition requestsCall (p : RequestsPanel) : JoinEndpoint := join_requests (jp_page p) (if jp_all p then js "all" else js "pending").
Definition chooseRequests (all : bool) (p : RequestsPanel) : RequestsPanel := mkRequestsPanel all 1 (jp_selected p) (jp_feedback p).
Definition mayReviewRequest (r : OrganizationJoinRequest) : bool :=
  bool_decide (jrq_status r = jrs_pending) && match jrq_emailVerifiedAt r with Some t => truthy t | None => false end.
(** The pages are under the list, which a page without rows does not have. *)
Definition pagesShown (listed : list OrganizationJoinRequest) : bool := match listed with [] => false | _ => true end.
Definition turnPage (listed : list OrganizationJoinRequest) (count : Z) (forward : bool) (p : RequestsPanel) : RequestsPanel :=
  if negb (pagesShown listed) then p else
  match (if forward then nextPage (jp_page p) count 20 else previousPage (jp_page p)) with
  | Some page => mkRequestsPanel (jp_all p) page (jp_selected p) (jp_feedback p)
  | None => p
  end.
Definition withReview (r : option Review) (p : RequestsPanel) : RequestsPanel := mkRequestsPanel (jp_all p) (jp_page p) r (jp_feedback p).
Definition reviewed (a : ReviewAction) (name : str) (p : RequestsPanel) : RequestsPanel :=
  mkRequestsPanel (jp_all p) (jp_page p) None
    (Some (match a with
           | rev_approved => name ++ js " has been approved and can sign in with their assigned role."
           | rev_rejected => name ++ js "’s request has been rejected. Workspace access was not granted."
           end)).

Inductive RequestEvent :=
| re_filter (all : bool) | re_page (forward : bool) | re_select (r : OrganizationJoinRequest) | re_role (role : Role) | re_confirm (checked : bool)
| re_rejecting (rejecting : bool) | re_approve | re_reject | re_close | re_answer (r : result (option ApiError) unit).
Definition requestStep (listed : list OrganizationJoinRequest) (count : Z) (e : RequestEvent) (p : RequestsPanel)
    : option (RequestsPanel * option ReviewRequest) :=
  let review f := match jp_selected p ≫= f with Some s => Some (withReview (Some s) p, None) | None => None end in
  let send a rejecting :=
    match jp_selected p with
    | Some s => if Bool.eqb (rv_rejecting s) rejecting
                then match performReview a s with Some (s', r) => Some (withReview (Some s') p, Some r) | None => None end else None
    | None => None
    end in
  match e with
  | re_filter all => match jp_selected p with None => Some (chooseRequests all p, None) | Some _ => None end
  | re_page forward => match jp_selected p with None => Some (turnPage listed count forward p, None) | Some _ => None end
  | re_select r => match jp_selected p with
                   | None => if bool_decide (r ∈ listed) && mayReviewRequest r then Some (withReview (Some (openReview r)) p, None) else None
                   | Some _ => None
                   end
  | re_role role => review (chooseRole role)
  | re_confirm checked => review (confirmAdmin checked)
  | re_rejecting rejecting => review (setRejecting rejecting)
  | re_approve => send rev_approved false
  | re_reject => send rev_rejected true
  | re_close => match jp_selected p with Some s => if reviewIdle s then Some (withReview None p, None) else None | None => None end
  | re_answer r => match jp_selected p with
                   | Some s => match rv_sent s, r with
                               | Some a, Ok _ => Some (reviewed a (jrq_name (rv_request s)) p, None)
                               | Some _, Err error => Some (withReview (Some (reviewFailed error s)) p, None)
                               | None, _ => None
                               end
                   | None => None
                   end
  end.
Inductive requestRun : list RequestEvent → RequestsPanel → Prop :=
| rr_open : requestRun [] openRequests
| rr_step evs listed count e p p' r : requestRun evs p → requestStep listed count e p = Some (p', r) → requestRun (evs ++ [e]) p'.

(** ** Lemmas: the link panel *)

Record panelOk (given : option GeneratedLink) (p : LinkPanel) : Prop := {
  po_days : lp_days p ∈ DAYS;
  po_generated : ∀ g, lp_generated p = Some g → given = Some g;
  po_one : (length (lp_requests p) ≤ 1)%nat;
  po_busy : lp_mounted p = true → lp_pending p = lp_inFlight p ∧ lp_inFlight p = bool_decide (lp_requests p ≠ []) }.
Lemma perform_cases active revoking p : lp_mounted p = true → lp_inFlight p = false → lp_requests p = [] →
  let '(p', r) := perform active revoking p in
  (∃ r', r = Some r' ∧ lp_requests p' = [r'] ∧ lp_pending p' = true ∧ lp_inFlight p' = true ∧ lp_generated p' = lp_generated p ∧
     match r' with
     | rl_create days => revoking = false ∧ days = lp_days p
     | rl_revoke id => revoking = true ∧ lnk_id <$> active = Some id
     end)
  ∨ (r = None ∧ revoking = true ∧ active = None ∧ lp_requests p' = [] ∧ lp_pending p' = false ∧ lp_inFlight p' = false ∧ lp_generated p' = None).
Proof.
  intros Hm Hf Hr. unfold perform, performed. rewrite Hf, Hm, Hr. destruct revoking, active as [l|]; cbn; eauto 10.
Qed.
Lemma perform_days active revoking p : lp_days (perform active revoking p).1 = lp_days p.
Proof. unfold perform, performed. destruct (lp_inFlight p); [done|]. destruct revoking, active; cbn; try done. by destruct (lp_mounted p). Qed.
Lemma perform_mounted active revoking p : lp_mounted (perform active revoking p).1 = lp_mounted p.
Proof. unfold perform, performed. destruct (lp_inFlight p); [done|]. destruct revoking, active; cbn; try done. by destruct (lp_mounted p) eqn:E; cbn; rewrite ?E. Qed.
Lemma idle_panel given p : panelOk given p → lp_mounted p && negb (lp_pending p) = true →
  lp_mounted p = true ∧ lp_inFlight p = false ∧ lp_requests p = [].
Proof.
  intros [_ _ _ Hb] [Hm Hp%negb_true_iff]%andb_true_iff. destruct (Hb Hm) as [H1 H2]. rewrite <- H1, Hp in H2. split_and!; [done|congruence|].
  symmetry in H2. apply bool_decide_eq_false in H2. by destruct (lp_requests p); [|exfalso; apply H2].
Qed.
Lemma perform_ok given active revoking p : panelOk given p → lp_mounted p && negb (lp_pending p) = true →
  panelOk given (perform active revoking p).1.
Proof.
  intros Hok Hi. destruct (idle_panel _ _ Hok Hi) as (Hm & Hf & Hr). pose proof (perform_cases active revoking p Hm Hf Hr) as Hc.
  pose proof (perform_days active revoking p) as Hd. destruct (perform active revoking p) as [p' r]. destruct Hok as [H1 H2 _ _]. cbn in *.
  destruct Hc as [(r' & _ & Hq & Hp & Hf' & Hg & _)|(_ & _ & _ & Hq & Hp & Hf' & Hg)]; split; rewrite ?Hd, ?Hg, ?Hq, ?Hp, ?Hf'; auto with lia; done.
Qed.
Lemma linkAnswered_ok given r answer p : panelOk given p → r ∈ lp_requests p →
  panelOk (givenBy p (le_answer r answer) given) (linkAnswered r answer p).
Proof.
  intros [H1 H2 H3 H4] Hr. assert (Hl : lp_requests p = [r]).
  { destruct (lp_requests p) as [|q [|]]; cbn in H3; try lia; [by apply elem_of_nil in Hr|]. by apply list_elem_of_singleton in Hr as ->. }
  unfold linkAnswered. rewrite Hl. cbn [list_find]. rewrite decide_True by done. cbn.
  unfold performed, performFailed. cbn. destruct (lp_mounted p) eqn:Em; destruct answer as [g|e]; split; cbn; try rewrite Em; auto with lia; try done.
Qed.
Lemma linkStep_ok given active e p p' r : panelOk given p → linkStep active e p = Some (p', r) → panelOk (givenBy p e given) p'.
Proof.
  intros Hok He. destruct e as [days| | | | |ok| |q answer]; cbn [linkStep] in He; cbn [givenBy].
  - destruct (_ && _) eqn:Ei; [|done]. apply andb_true_iff in Ei as [Ei Hd%bool_decide_eq_true]. simplify_eq. destruct Hok. by split.
  - destruct (_ && _) eqn:Ei; [|done]. cbn [negb] in He. destruct active; simplify_eq; [destruct Hok; by split|].
    pose proof (perform_ok given None false p Hok Ei) as Hq. by rewrite He in Hq.
  - destruct (_ && _); simplify_eq. destruct Hok; by split.
  - destruct (_ && _); simplify_eq. destruct Hok; by split.
  - destruct (_ && _) eqn:Ei; [|done]. cbn [negb] in He. destruct (lp_intent p) as [i|]; [|done].
    injection He as Hp. pose proof (perform_ok given active (bool_decide (i = int_revoke)) p Hok Ei) as Hq. by rewrite Hp in Hq.
  - simplify_eq. destruct Hok; by split.
  - destruct (lp_mounted p); simplify_eq. destruct Hok; by split.
  - destruct (_ && _) eqn:Ei; [|done]. apply andb_true_iff in Ei as [Hq%bool_decide_eq_true _]. simplify_eq. by apply linkAnswered_ok.
Qed.
Lemma linkRun_ok given p : linkRun given p → panelOk given p.
Proof.
  induction 1; [|by eapply linkStep_ok]. split; cbn; auto. unfold DAYS. set_solver.
Qed.

(** ** What the office can rely on *)

(** The sign-up link is only changed as the user confirmed: one request is sent at a time; while
    the list shows an active link, another is only created after "replace" was confirmed, and
    only the link shown is revoked, after "revoke" was; a link is created for one of the
    offered numbers of days. *)
Theorem link_changes_confirmed given active e p p' r : linkRun given p → linkStep active e p = Some (p', Some r) →
  lp_requests p = [] ∧ lp_requests p' = [r] ∧
  match r with
  | rl_create days => days ∈ DAYS ∧ (active = None ∨ (e = le_confirm ∧ lp_intent p = Some int_replace))
  | rl_revoke id => e = le_confirm ∧ lp_intent p = Some int_revoke ∧ lnk_id <$> active = Some id
  end.
Proof.
  intros Hok%linkRun_ok He. pose proof (po_days _ _ Hok) as Hd.
  assert (Hsend : ∀ revoking, lp_mounted p && negb (lp_pending p) = true → perform active revoking p = (p', Some r) →
    lp_requests p = [] ∧ lp_requests p' = [r] ∧
    match r with rl_create days => days ∈ DAYS ∧ revoking = false | rl_revoke id => revoking = true ∧ lnk_id <$> active = Some id end).
  { intros revoking Hi Hp. destruct (idle_panel _ _ Hok Hi) as (Hm & Hf & Hr). pose proof (perform_cases active revoking p Hm Hf Hr) as Hc.
    rewrite Hp in Hc. destruct Hc as [(r' & [= <-] & Hq & _ & _ & _ & Hc)|(? & _)]; [|done]. destruct r; naive_solver. }
  destruct e as [days| | | | |ok| |q answer]; cbn [linkStep] in He; try by repeat (case_match; simplify_eq).
  - destruct (_ && _) eqn:Ei; [|done]. cbn [negb] in He. destruct active; [done|]. simplify_eq.
    destruct (Hsend false eq_refl He) as (? & ? & Hc). destruct r; naive_solver.
  - destruct (_ && _) eqn:Ei; [|done]. cbn [negb] in He. destruct (lp_intent p) as [i|] eqn:Eint; [|done]. injection He as He.
    destruct (Hsend _ eq_refl He) as (? & ? & Hc). split_and!; try done. destruct i, r; naive_solver.
Qed.

(** The link that can be copied works: it is on the list, active and not expired, its address is
    the last one the panel was given, and no change of it is under way. *)
Lemma copied_link_active `{Host} given now links p url : linkRun given p → lp_mounted p = true →
  copyLink (activeLink now links) p = Some url →
  ∃ g link, given = Some g ∧ gl_url g = url ∧ link ∈ links ∧ lnk_id link = gl_id g ∧ linkIsActive now link = true ∧ lp_requests p = [].
Proof.
  intros Hok%linkRun_ok Hm Hc. unfold copyLink, visibleGenerated in Hc. destruct (lp_pending p) eqn:Ep; [done|].
  destruct (lp_generated p) as [g|] eqn:Eg; [|done]. destruct (activeLink now links) as [link|] eqn:Ea; [|done].
  destruct (streq (lnk_id link) (gl_id g)) eqn:Es; [|done]. injection Hc as <-. apply findb_Some in Ea as [Hin Ha]. apply streq_true in Es.
  destruct (idle_panel given p Hok) as (_ & _ & Hr); [by rewrite Hm, Ep|]. exists g, link. split_and!; try done. by apply (po_generated _ _ Hok).
Qed.

(** ** Lemmas: reviewing a request *)

Definition choosesRole (role : Role) (e : RequestEvent) : Prop := e = re_role role.
Definition keepsRole (e : RequestEvent) : Prop := match e with re_role _ | re_select _ => False | _ => True end.
Definition keepsTick (e : RequestEvent) : Prop := match e with re_confirm _ => False | _ => keepsRole e end.
(** Since the review was opened, Admin was chosen, the box was ticked, and neither was changed. *)
Definition adminConfirmed (evs : list RequestEvent) : Prop :=
  since (choosesRole Admin) keepsRole evs ∧ since (λ e, e = re_confirm true) keepsTick evs.
(** The role the review shows: the last one chosen in it, [Operations] until one is. *)
Definition roleShown (evs : list RequestEvent) (q : OrganizationJoinRequest) (role : Role) : Prop :=
  since (choosesRole role) keepsRole evs ∨ role = Operations ∧ since (λ e, e = re_select q) keepsRole evs.
Definition reviewOk (evs : list RequestEvent) (p : RequestsPanel) : Prop :=
  ∀ s, jp_selected p = Some s →
    mayReviewRequest (rv_request s) = true ∧ since (λ e, e = re_select (rv_request s)) (λ e, ∀ r, e ≠ re_select r) evs ∧
    roleShown evs (rv_request s) (rv_role s) ∧
    (rv_adminConfirmed s = true → rv_role s = Admin ∧ since (λ e, e = re_confirm true) keepsTick evs).
Lemma roleShown_keep evs e q role : keepsRole e → roleShown evs q role → roleShown (evs ++ [e]) q role.
Proof. intros He [Hs|[Hr Hs]]; [left|right; split; [done|]]; by apply since_keep. Qed.
(** An event that leaves the choices of the review alone. *)
Lemma reviewOk_keep evs e p p' : reviewOk evs p → keepsTick e →
  (∀ s', jp_selected p' = Some s' → ∃ s, jp_selected p = Some s ∧ rv_request s' = rv_request s ∧ rv_role s' = rv_role s ∧
     rv_adminConfirmed s' = rv_adminConfirmed s) → reviewOk (evs ++ [e]) p'.
Proof.
  intros Hok He Hs s' Hs'. destruct (Hs _ Hs') as (s & Hsel & -> & -> & ->). destruct (Hok s Hsel) as (H1 & H2 & H3 & H4).
  assert (keepsRole e) by (by destruct e). split_and!; [done|apply since_keep; [by destruct e|done]|by apply roleShown_keep|].
  intros Hc. destruct (H4 Hc). auto with vessel.
Qed.
Lemma performReview_spec a s s' r : performReview a s = Some (s', r) →
  s' = mkReview (rv_request s) (rv_role s) (rv_adminConfirmed s) (rv_rejecting s) (Some a) None ∧ rv_sent s = None ∧
  r = match a with rev_approved => rr_approve (jrq_id (rv_request s)) (rv_role s) | rev_rejected => rr_reject (jrq_id (rv_request s)) end ∧
  (a = rev_approved → rv_role s = Admin → rv_adminConfirmed s = true).
Proof.
  unfold performReview. destruct (_ || _) eqn:E; [done|]. apply orb_false_iff in E as [E1 E2]. intros [= <- <-].
  unfold reviewIdle in E1. destruct (rv_sent s); [done|]. split_and!; try done. intros -> Hr.
  rewrite !bool_decide_eq_true_2 in E2 by done. by apply negb_false_iff in E2.
Qed.
Lemma requestStep_ok listed count evs e p p' r : reviewOk evs p → requestStep listed count e p = Some (p', r) → reviewOk (evs ++ [e]) p'.
Proof.
  intros Hok He. destruct e as [all|fw|q|role|checked|rej| | | |answer]; cbn [requestStep] in He.
  - destruct (jp_selected p) eqn:Es; simplify_eq. intros s Hs. cbn in Hs. congruence.
  - destruct (jp_selected p) eqn:Es; simplify_eq. intros s Hs. unfold turnPage in Hs. repeat case_match; cbn in Hs; congruence.
  - destruct (jp_selected p) eqn:Es; [done|]. destruct (_ && _) eqn:Eq; [|done]. apply andb_true_iff in Eq as [_ Hm]. simplify_eq.
    intros s [= <-]. cbn. split_and!; [done|by apply since_now| |done]. right. split; [done|]. by apply since_now.
  - destruct (jp_selected p) as [s|] eqn:Es; [|done]. cbn in He. unfold chooseRole in He. destruct (_ && _); [|done]. simplify_eq.
    intros s' [= <-]. destruct (Hok s Es) as (H1 & H2 & _). cbn. split_and!; [done|by apply since_keep| |done].
    left. by apply since_now.
  - destruct (jp_selected p) as [s|] eqn:Es; [|done]. cbn in He. unfold confirmAdmin in He. destruct (_ && _) eqn:Ea; [|done].
    apply andb_true_iff in Ea as [_ Ea%bool_decide_eq_true]. simplify_eq.
    intros s' [= <-]. destruct (Hok s Es) as (H1 & H2 & H3 & _). cbn. split_and!; [done|by apply since_keep|by apply roleShown_keep|].
    intros ->. split; [done|by apply since_now].
  - destruct (jp_selected p) as [s|] eqn:Es; [|done]. cbn in He. unfold setRejecting in He. destruct (reviewIdle s); [|done]. simplify_eq.
    apply (reviewOk_keep evs _ p); [done|done|]. intros s' [= <-]. eauto.
  - destruct (jp_selected p) as [s|] eqn:Es; [|done]. destruct (Bool.eqb _ _); [|done].
    destruct (performReview rev_approved s) as [[s1 r1]|] eqn:Er; [|done]. apply performReview_spec in Er as (-> & _). simplify_eq.
    apply (reviewOk_keep evs _ p); [done|done|]. intros s' [= <-]. eauto.
  - destruct (jp_selected p) as [s|] eqn:Es; [|done]. destruct (Bool.eqb _ _); [|done].
    destruct (performReview rev_rejected s) as [[s1 r1]|] eqn:Er; [|done]. apply performReview_spec in Er as (-> & _). simplify_eq.
    apply (reviewOk_keep evs _ p); [done|done|]. intros s' [= <-]. eauto.
  - destruct (jp_selected p) as [s|] eqn:Es; [|done]. destruct (reviewIdle s); simplify_eq. by intros s'.
  - destruct (jp_selected p) as [s|] eqn:Es; [|done]. destruct (rv_sent s); [|by destruct answer]. destruct answer; simplify_eq; [by intros s'|].
    apply (reviewOk_keep evs _ p); [done|done|]. intros s' [= <-]. eauto.
Qed.
Lemma requestRun_ok evs p : requestRun evs p → reviewOk evs p.
Proof. induction 1; [by intros s|by eapply requestStep_ok]. Qed.

(** C38. Nobody gets access by accident: what is approved or rejected is the request whose review
    is open and was opened last, pending and with a verified address; it is approved with the very
    role the review shows - the last one chosen in it, and Operations if none was -, an Admin's
    access only after the box was ticked once Admin was chosen, with neither touched since; a
    rejection only from its own confirmation; and while the answer is awaited nothing more is
    sent and the review stays open. *)
Theorem review_confirmed evs listed count e p p' r : requestRun evs p → requestStep listed count e p = Some (p', Some r) →
  ∃ s, jp_selected p = Some s ∧ let q := rv_request s in
    since (λ e, e = re_select q) (λ e, ∀ r, e ≠ re_select r) evs ∧ mayReviewRequest q = true ∧
    match r with
    | rr_approve id role => e = re_approve ∧ id = jrq_id q ∧ role = rv_role s ∧ roleShown evs q role ∧ (role = Admin → adminConfirmed evs)
    | rr_reject id => e = re_reject ∧ id = jrq_id q ∧ rv_rejecting s = true
    end ∧
    (∀ e' listed' count', requestStep listed' count' e' p' ≠ None → ∃ answer, e' = re_answer answer).
Proof.
  intros Hok%requestRun_ok He.
  assert (Hsend : ∀ a rej, requestStep listed count e p =
      (match jp_selected p with
       | Some s => if Bool.eqb (rv_rejecting s) rej then match performReview a s with Some (s', r) => Some (withReview (Some s') p, Some r) | None => None end else None
       | None => None
       end) → ∃ s s', jp_selected p = Some s ∧ rv_rejecting s = rej ∧ performReview a s = Some (s', r) ∧ p' = withReview (Some s') p).
  { intros a rej Hs. rewrite He in Hs. destruct (jp_selected p) as [s|]; [|done]. destruct (Bool.eqb _ _) eqn:Eb; [|done]. apply eqb_prop in Eb.
    destruct (performReview a s) as [[s' r']|] eqn:Er; [|done]. simplify_eq. eauto 10. }
  assert (Hstay : ∀ s' a, rv_sent s' = Some a → p' = withReview (Some s') p →
    ∀ e' listed' count', requestStep listed' count' e' p' ≠ None → ∃ answer, e' = re_answer answer).
  { intros s' a Hs -> e' l' c' Hne. destruct e'; cbn in Hne; unfold chooseRole, confirmAdmin, setRejecting, performReview, reviewIdle in Hne;
      rewrite ?Hs in Hne; cbn in Hne; try done; try (by destruct (Bool.eqb _ _)); eauto. }
  destruct e as [all|fw|q|role|checked|rej| | | |answer]; try by (cbn [requestStep] in He; repeat (case_match; simplify_eq)).
  - destruct (Hsend rev_approved false eq_refl) as (s & s' & Hsel & _ & (-> & _ & -> & Ha)%performReview_spec & Hp).
    destruct (Hok s Hsel) as (H1 & H2 & H3 & H4). exists s. cbv zeta. split_and!; try done; [|by eapply Hstay; [|exact Hp]].
    intros Hr. split; [|by apply H4, Ha]. rewrite Hr in H3. by destruct H3 as [?|[? _]].
  - destruct (Hsend rev_rejected true eq_refl) as (s & s' & Hsel & Hrej & (-> & _ & -> & Ha)%performReview_spec & Hp).
    destruct (Hok s Hsel) as (H1 & H2 & _). exists s. cbv zeta. split_and!; try done. by eapply Hstay; [|exact Hp].
Qed.

(** ** What the panels do not do *)

(** "All requests" sends no status at all; what that lists is the server's default. *)
Lemma all_requests_query p : jp_all p = true →
  call_query (joinCall (requestsCall p)) = 63%N :: searchParams [(js "page", printZ (jp_page p)); (js "pageSize", js "20")].
Proof. intros Ha. unfold requestsCall. rewrite Ha. by vm_compute (streq (js "all") (js "all")). Qed.
(** When the only request of the last page is reviewed, the panel goes on asking for that page,
    which no longer exists; and a page without rows has no buttons to leave it. *)
Lemma last_page_left p a name k : 1 <= k → jp_page p = k + 1 →
  jp_page p = pageCount (20 * k + 1) 20 ∧
  (let p' := reviewed a name p in
   jp_page p' > pageCount (20 * k + 1 - 1) 20 ∧ ∀ count forward, turnPage [] count forward p' = p').
Proof.
  intros Hk Hp. unfold pageCount. cbn [reviewed jp_page]. rewrite Hp.
  replace (20 * k + 1 + 20 - 1) with ((k + 1) * 20) by lia. replace (20 * k + 1 - 1 + 20 - 1) with (k * 20 + 19) by lia.
  rewrite Z.div_mul, Z.div_add_l, (Z.div_small 19) by lia. split_and!; [lia|lia|done].
Qed.

(** ** Witnesses *)

Definition dayLink : OrganizationSignupLink :=
  mkSignupLink (js "link-1") (js "org-1") (js "2026-01-01") (js "2026-02-01") None lnk_active (js "u1", js "Ada").
Definition afterLink (events : list (option OrganizationSignupLink * LinkEvent)) : option LinkPanel :=
  foldl (λ p e, p ← p; fst <$> linkStep e.1 e.2 p) (Some openLinkPanel) events.
Lemma afterLink_run events p : afterLink events = Some p → ∃ given, linkRun given p.
Proof.
  revert p. induction events as [|e events IH] using rev_ind; intros p He.
  - injection He as <-. eauto using lr_open.
  - unfold afterLink in He. rewrite foldl_app in He. fold (afterLink events) in He. cbn [foldl] in He.
    destruct (afterLink events) as [q|]; [|done]. cbn in He. destruct (linkStep e.1 e.2 q) as [[q' r]|] eqn:Es; [|done].
    injection He as <-. destruct (IH q eq_refl) as [given Hq]. eauto using lr_step.
Qed.
Lemma link_changes_confirmed_witness : ∃ given p p', linkRun given p ∧
  linkStep (Some dayLink) le_confirm p = Some (p', Some (rl_revoke (js "link-1"))) ∧ lp_intent p = Some int_revoke.
Proof.
  set (events := [(None, le_days 14); (None, le_create); (None, le_answer (rl_create 14) (Ok (Some (mkGenerated (js "https://x") (js "link-1") (js "2026-02-01")))));
     (Some dayLink, le_revoke)]).
  destruct (afterLink events) as [p|] eqn:Ep; [|by vm_compute in Ep]. destruct (afterLink_run _ _ Ep) as [given Hr].
  assert (Hs : ∃ p', linkStep (Some dayLink) le_confirm p = Some (p', Some (rl_revoke (js "link-1")))).
  { vm_compute in Ep. injection Ep as <-. eexists. vm_compute. reflexivity. }
  destruct Hs as [p' Hs]. exists given, p, p'. split_and!; [exact Hr|exact Hs|].
  exact (proj1 (proj2 (proj2 (proj2 (link_changes_confirmed given (Some dayLink) le_confirm p p' _ Hr Hs))))).
Defined.

Definition adaRequest : OrganizationJoinRequest :=
  mkJoinRequest (js "r-1") (js "Ada") (js "ada@npa.ng") jrs_pending (js "2026-01-01") (Some (js "2026-01-02")) None None.
Definition adminReview : list RequestEvent := [re_select adaRequest; re_role Admin; re_confirm true].
Definition afterRequests (listed : list OrganizationJoinRequest) (evs : list RequestEvent) : option RequestsPanel :=
  foldl (λ p e, p ← p; fst <$> requestStep listed 1 e p) (Some openRequests) evs.
Lemma afterRequests_run listed evs p : afterRequests listed evs = Some p → requestRun evs p.
Proof.
  revert p. induction evs as [|e evs IH] using rev_ind; intros p He.
  - injection He as <-. apply rr_open.
  - unfold afterRequests in He. rewrite foldl_app in He. fold (afterRequests listed evs) in He. cbn [foldl] in He.
    destruct (afterRequests listed evs) as [q|]; [|done]. cbn in He. destruct (requestStep listed 1 e q) as [[q' r]|] eqn:Es; [|done].
    injection He as <-. eauto using rr_step.
Qed.
Lemma adminReview_run : ∃ p, requestRun adminReview p ∧
  ∃ p', requestStep [] 1 re_approve p = Some (p', Some (rr_approve (js "r-1") Admin)).
Proof.
  destruct (afterRequests [adaRequest] adminReview) as [p|] eqn:Ep; [|by vm_compute in Ep].
  exists p. split; [by eapply afterRequests_run|]. vm_compute in Ep. injection Ep as <-. eexists. vm_compute. reflexivity.
Qed.
Lemma review_confirmed_witness : ∃ p, requestRun adminReview p ∧ adminConfirmed adminReview.
Proof.
  destruct adminReview_run as (p & Hr & p' & Hs). exists p. split; [exact Hr|].
  destruct (review_confirmed adminReview [] 1 re_approve p p' _ Hr Hs) as (s & _ & _ & _ & (_ & _ & _ & _ & Ha) & _). exact (Ha eq_refl).
Defined.
