(* ===== verification/SignIn.v ===== *)
(** * Signing in (frontend/src/screens/AuthPage.tsx, TemporaryPasswordChange.tsx)

    The page that signs in or registers - password, the choice among organizations, the second
    factor - and the page that replaces a temporary password.  Both are machines of what is
    typed, what is submitted and what is answered; [redirectAfterAuth] is followed once the
    session is there. *)
From S2P Require Import Prelude JsString Json Codec MeasurementTypes Host Endpoints ApiClient AppTypes AuthContext Routing.

(** [errorMessage] *)
Definition failureText (error : Failure) (fallback : str) : str :=
  match error with Some e => ae_message e | None => fallback end.
Definition somethingWrong : str := js "Something went wrong. Please try again.".

(** ** The sign-in page *)

Inductive SignInRequest :=
| sq_mfa (challengeId code : str)
| sq_login (email password : str) (organizationId : option str)
| sq_register (name email password orgName designatedPort : str).
#[export] Instance SignInRequest_eq : EqDecision SignInRequest. Proof. solve_decision. Defined.
Definition signInCall (r : SignInRequest) : AuthEndpoint :=
  match r with
  | sq_mfa challengeId code => verifyMfaChallenge challengeId code
  | sq_login email password org => Endpoints.login email password org
  | sq_register name email password orgName port =>
      register (mkObj [fld "name" name; fld "email" email; fld "password" password; fld "orgName" orgName; fld "designatedPort" port])
  end.
Inductive SignInAnswer :=
| sa_login (r : LoginResult) | sa_session (session : AuthSession) | sa_registered (detail : str) (approvalRequired : bool)
| sa_failed (error : Failure).

(** [ap_sent] is the request under way: [submitInFlight], and [busy], are its presence. *)
Record AuthPage := mkAuthPage {
  ap_error : option str; ap_notice : option str; ap_approvalRequired : bool; ap_challengeId : option str; ap_code : str;
  ap_redirect : option str; ap_choices : option (list (str * str)); ap_selected : str;
  ap_email : str; ap_password : str; ap_name : str; ap_orgName : str; ap_port : str; ap_sent : option SignInRequest }.
Definition openAuthPage : AuthPage := mkAuthPage None None false None [] None None [] [] [] [] [] (js "Port of Calabar") None.
Definition ap_busy (s : AuthPage) : bool := bool_decide (is_Some (ap_sent s)).
(** Parts of the state that one handler writes together. *)
Definition withFields (email password name orgName port : str) (s : AuthPage) : AuthPage :=
  mkAuthPage (ap_error s) (ap_notice s) (ap_approvalRequired s) (ap_challengeId s) (ap_code s) (ap_redirect s) (ap_choices s) (ap_selected s)
    email password name orgName port (ap_sent s).
Definition withChallenge (challengeId : option str) (code : str) (s : AuthPage) : AuthPage :=
  mkAuthPage (ap_error s) (ap_notice s) (ap_approvalRequired s) challengeId code (ap_redirect s) (ap_choices s) (ap_selected s)
    (ap_email s) (ap_password s) (ap_name s) (ap_orgName s) (ap_port s) (ap_sent s).
Definition withChoices (choices : option (list (str * str))) (selected : str) (s : AuthPage) : AuthPage :=
  mkAuthPage (ap_error s) (ap_notice s) (ap_approvalRequired s) (ap_challengeId s) (ap_code s) (ap_redirect s) choices selected
    (ap_email s) (ap_password s) (ap_name s) (ap_orgName s) (ap_port s) (ap_sent s).
Definition withOutcome (error redirect : option str) (sent : option SignInRequest) (s : AuthPage) : AuthPage :=
  mkAuthPage error (ap_notice s) (ap_approvalRequired s) (ap_challengeId s) (ap_code s) redirect (ap_choices s) (ap_selected s)
    (ap_email s) (ap_password s) (ap_name s) (ap_orgName s) (ap_port s) sent.
Definition withPassword (password : str) (s : AuthPage) : AuthPage :=
  withFields (ap_email s) password (ap_name s) (ap_orgName s) (ap_port s) s.

(** What is on the screen. *)
Inductive AuthView := av_notice | av_challenge (id : str) | av_choices (organizations : list (str * str)) | av_form.
Definition present (o : option str) : option str :=
  match o with Some v => if truthy v then Some v else None | None => None end.
Definition authView (s : AuthPage) : AuthView :=
  match present (ap_notice s), present (ap_challengeId s), ap_choices s with
  | Some _, _, _ => av_notice
  | None, Some c, _ => av_challenge c
  | None, None, Some os => av_choices os
  | None, None, None => av_form
  end.

Section AuthPage.
Context `{Host}.
(** The address's [organizationId], which only a sign-in has; the browser's syntax of an email. *)
Variable registering : bool.
Variable addressOrganization : option str.
Variable requested : option str.
Variable validEmail : str → bool.

Definition organizationId : option str := if registering then None else addressOrganization.
(** The constraints of the inputs on the screen, without which the browser submits nothing. *)
Definition fieldsValid (s : AuthPage) : bool :=
  match authView s with
  | av_notice => false
  | av_challenge _ => truthy (ap_code s)
  | av_choices _ => truthy (ap_selected s)
  | av_form => truthy (ap_email s) && validEmail (ap_email s) && truthy (ap_password s)
               && (negb registering || (truthy (ap_name s) && truthy (ap_orgName s) && (12 <=? length (ap_password s))%nat))
  end.
Definition emailSent (s : AuthPage) : str := toLowerCase (trim (ap_email s)).
Definition submitRequest (s : AuthPage) : SignInRequest :=
  match present (ap_challengeId s) with
  | Some c => sq_mfa c (trim (ap_code s))
  | None =>
      if registering then sq_register (trim (ap_name s)) (emailSent s) (ap_password s) (trim (ap_orgName s)) (ap_port s)
      else sq_login (emailSent s) (ap_password s)
             (match ap_choices s with Some _ => present (Some (ap_selected s)) | None => present organizationId end)
  end.
Definition offeredChoice (s : AuthPage) : bool :=
  match ap_choices s with Some os => existsb (λ o, streq o.1 (ap_selected s)) os | None => true end.
Definition submitSignIn (s : AuthPage) : option (AuthPage * SignInRequest) :=
  if ap_busy s || negb (fieldsValid s) || negb (offeredChoice s) then None else
  Some (withOutcome None (ap_redirect s) (Some (submitRequest s)) s, submitRequest s).

(** What follows the answer to [sent], and a navigation to the page for temporary passwords
    with its state. *)
Definition signInFailed (error : Failure) (s : AuthPage) : AuthPage :=
  let s := withOutcome (Some (failureText error somethingWrong)) (ap_redirect s) None s in
  match ap_choices s with Some _ => withPassword [] (withChoices None [] s) | None => s end.
Definition loggedIn (r : LoginResult) (s : AuthPage) : AuthPage :=
  match r with
  | lr_selectOrganization os => withChoices (Some os) [] s
  | lr_passwordChange _ => withPassword [] (withChoices None (ap_selected s) s)
  | lr_mfa c => withPassword [] (withChallenge (Some c) (ap_code s) (withChoices None (ap_selected s) s))
  | lr_session session =>
      withOutcome (ap_error s) (Some (destinationFor session requested)) (ap_sent s) (withPassword [] (withChoices None (ap_selected s) s))
  end.
Definition signInAnswered (a : SignInAnswer) (s : AuthPage) : AuthPage :=
  match a with
  | sa_failed error => signInFailed error s
  | sa_session session => withOutcome (ap_error s) (Some (destinationFor session requested)) None s
  | sa_login r => withOutcome (ap_error (loggedIn r s)) (ap_redirect (loggedIn r s)) None (loggedIn r s)
  | sa_registered detail approvalRequired =>
      mkAuthPage (ap_error s) (Some (if isEmpty detail then js "Check your email to verify your account before signing in." else detail))
        approvalRequired (ap_challengeId s) (ap_code s) (ap_redirect s) (ap_choices s) (ap_selected s)
        (ap_email s) [] (ap_name s) (ap_orgName s) (ap_port s) None
  end.
Definition temporaryPasswordState (sent : SignInRequest) (a : SignInAnswer) : option (option str * option str) :=
  match sent, a with
  | sq_login _ _ org, sa_login (lr_passwordChange _) => Some (safeRequestedDestination requested, org)
  | _, _ => None
  end.
Definition useDifferentAccount (s : AuthPage) : AuthPage :=
  withOutcome None (ap_redirect s) (ap_sent s) (withPassword [] (withChoices None [] (withChallenge None [] s))).
(** The effect on the status of the session. *)
Definition followRedirect (status : Status) (s : AuthPage) : option str :=
  if bool_decide (status = authenticated) then present (ap_redirect s) else None.

Inductive SignInEvent :=
| se_email (v : str) | se_password (v : str) | se_name (v : str) | se_orgName (v : str) | se_port (v : str) | se_code (v : str)
| se_select (v : str) | se_submit | se_answer (a : SignInAnswer) | se_different.
(** The answers the session context gives to each request. *)
Definition answersSignIn (sent : SignInRequest) (a : SignInAnswer) : bool :=
  match sent, a with
  | _, sa_failed _ => true
  | sq_mfa _ _, sa_session _ => true
  | sq_login _ _ _, sa_login _ => true
  | sq_register _ _ _ _ _, sa_registered _ _ => true
  | _, _ => false
  end.
(** The inputs are those of the view; while a request is under way only the code, and what a
    registration adds, can be typed. *)
Definition signInStep (e : SignInEvent) (s : AuthPage) : option AuthPage :=
  let form := match authView s with av_form => true | _ => false end in
  match e with
  | se_email v => if form && negb (ap_busy s) then Some (withFields v (ap_password s) (ap_name s) (ap_orgName s) (ap_port s) s) else None
  | se_password v => if form && negb (ap_busy s) then Some (withPassword v s) else None
  | se_name v => if form && registering then Some (withFields (ap_email s) (ap_password s) v (ap_orgName s) (ap_port s) s) else None
  | se_orgName v => if form && registering then Some (withFields (ap_email s) (ap_password s) (ap_name s) v (ap_port s) s) else None
  | se_port v => if form && registering then Some (withFields (ap_email s) (ap_password s) (ap_name s) (ap_orgName s) v s) else None
  | se_code v => match authView s with av_challenge _ => Some (withChallenge (ap_challengeId s) v s) | _ => None end
  | se_select v => match authView s with
                   | av_choices os => if negb (ap_busy s) && existsb (λ o, streq o.1 v) os then Some (withChoices (ap_choices s) v s) else None
                   | _ => None
                   end
  | se_submit => fst <$> submitSignIn s
  | se_answer a => match ap_sent s with Some sent => if answersSignIn sent a then Some (signInAnswered a s) else None | None => None end
  | se_different => match authView s with
                    | av_challenge _ | av_choices _ => if ap_busy s then None else Some (useDifferentAccount s)
                    | _ => None
                    end
  end.
(** The last request to sign in that was answered, with its answer. *)
Definition lastLogin (s : AuthPage) (e : SignInEvent) (last : option (SignInRequest * SignInAnswer)) : option (SignInRequest * SignInAnswer) :=
  match e, ap_sent s with se_answer a, Some (sq_login _ _ _ as sent) => Some (sent, a) | _, _ => last end.
Inductive signInRun : option (SignInRequest * SignInAnswer) → AuthPage → Prop :=
| sr_open : signInRun None openAuthPage
| sr_step last e s s' : signInRun last s → signInStep e s = Some s' → signInRun (lastLogin s e last) s'.

(** ** Lemmas: the sign-in page *)

#[local] Opaque js.

(** The request under way is the one of the fields, which stay as they are until the answer. *)
Definition sentOk (s : AuthPage) : Prop :=
  match ap_sent s with
  | Some (sq_mfa c _) => present (ap_challengeId s) = Some c
  | Some (sq_login email password _) =>
      present (ap_challengeId s) = None ∧ email = emailSent s ∧ password = ap_password s ∧ registering = false
  | Some (sq_register _ _ _ _ _) => present (ap_challengeId s) = None ∧ registering = true
  | None => True
  end.
Record signInOk (last : option (SignInRequest * SignInAnswer)) (s : AuthPage) : Prop := {
  so_sent : sentOk s;
  so_notice : registering = false → ap_notice s = None;
  so_challenge : ∀ c, present (ap_challengeId s) = Some c →
    ap_password s = [] ∧ ap_choices s = None ∧ ap_notice s = None ∧ registering = false ∧
    ∃ email password org, last = Some (sq_login email password org, sa_login (lr_mfa c));
  so_choices : ∀ os, ap_choices s = Some os →
    registering = false ∧ ∃ org, last = Some (sq_login (emailSent s) (ap_password s) org, sa_login (lr_selectOrganization os)) }.
Lemma authView_form s : authView s = av_form → present (ap_challengeId s) = None ∧ ap_choices s = None.
Proof. unfold authView. by destruct (present (ap_notice s)), (present (ap_challengeId s)), (ap_choices s). Qed.
Lemma not_busy s : ap_busy s = false → ap_sent s = None.
Proof. unfold ap_busy. by destruct (ap_sent s); [rewrite bool_decide_eq_true_2|]. Qed.
(** The fields of the form change only while it is shown, and those of a sign-in only when idle. *)
Lemma signInOk_form last s s' : signInOk last s → authView s = av_form →
  ap_challengeId s' = ap_challengeId s → ap_choices s' = ap_choices s → ap_notice s' = ap_notice s → ap_sent s' = ap_sent s →
  (ap_sent s = None ∨ (ap_email s' = ap_email s ∧ ap_password s' = ap_password s)) → signInOk last s'.
Proof.
  intros [H1 H2 H3 H4] [Hc Ho]%authView_form Ec Eo En Es Hf. split.
  - unfold sentOk in *. rewrite Es, Ec. destruct Hf as [Hs|[He Hp]]; [by rewrite Hs|]. unfold emailSent in *. by rewrite He, Hp.
  - by rewrite En.
  - intros c. rewrite Ec, Hc. done.
  - intros os. rewrite Eo, Ho. done.
Qed.
Lemma submitSignIn_ok last s s' r : signInOk last s → submitSignIn s = Some (s', r) → signInOk last s'.
Proof.
  intros [H1 H2 H3 H4] Hs. unfold submitSignIn in Hs. destruct (_ || _); [done|]. injection Hs as <- <-.
  split; try done. unfold sentOk, submitRequest. cbn [withOutcome ap_sent ap_challengeId ap_email ap_password].
  destruct (present (ap_challengeId s)) eqn:Ec; [done|]. destruct registering eqn:Er; by split_and!.
Qed.
Lemma useDifferent_ok last s : signInOk last s → signInOk last (useDifferentAccount s) ∨ ap_sent s ≠ None.
Proof.
  intros [H1 H2 H3 H4]. destruct (ap_sent s) eqn:Es; [by right|left]. split; cbn; [by unfold sentOk; cbn; rewrite Es|done|done|done].
Qed.
Lemma answer_ok last s sent a : signInOk last s → ap_sent s = Some sent → answersSignIn sent a = true →
  signInOk (lastLogin s (se_answer a) last) (signInAnswered a s).
Proof.
  intros [H1 H2 H3 H4] Hs Ha. unfold sentOk in H1. rewrite Hs in H1. cbn [lastLogin]. rewrite Hs.
  destruct sent as [c code|email password org|name email password orgName port].
  - destruct (H3 c H1) as (Hp & Ho & Hn & Hr & Hl). destruct a as [r|session|d ar|error]; try done; cbn; unfold signInFailed; cbn; rewrite ?Ho;
      split; try done; cbn; congruence.
  - destruct H1 as (Hc & -> & -> & Hr). destruct a as [r|session|d ar|error]; try done.
    + destruct r as [session|c|challenge|os]; cbn; split; try done; cbn; rewrite ?Hc; try done; auto.
      * intros c' Hc'. unfold present in Hc'. destruct (truthy c); [|done]. injection Hc' as <-. split_and!; eauto.
      * intros os' [= <-]. eauto.
    + cbn. unfold signInFailed. cbn. destruct (ap_choices s) as [os|] eqn:Eo; split; try done; cbn; rewrite ?Hc, ?Eo; auto; try done.
  - destruct H1 as (Hc & Hr). destruct a as [r|session|d ar|error]; try done; cbn; unfold signInFailed; cbn.
    + split; try done; cbn; rewrite ?Hc; try done; [congruence|]. intros os Ho. destruct (H4 os Ho). congruence.
    + destruct (ap_choices s) as [os|] eqn:Eo; split; try done; cbn; rewrite ?Hc, ?Eo; auto; try done.
Qed.
Lemma signInStep_ok last e s s' : signInOk last s → signInStep e s = Some s' → signInOk (lastLogin s e last) s'.
Proof.
  intros Hok He. destruct e as [v|v|v|v|v|v|v| |a|]; cbn [signInStep] in He; cbn [lastLogin].
  1-5: destruct (authView s) eqn:Ev; try done; destruct (_ && _) eqn:Eb; simplify_eq; eapply signInOk_form; try done; auto.
  1-2: apply andb_true_iff in Eb as [_ Eb%negb_true_iff]; left; by apply not_busy.
  - destruct (authView s) eqn:Ev; simplify_eq. destruct Hok as [H1 H2 H3 H4]. by split.
  - destruct (authView s) eqn:Ev; try done. destruct (_ && _) eqn:Eb; simplify_eq. destruct Hok as [H1 H2 H3 H4]. by split.
  - destruct (submitSignIn s) as [[s1 r]|] eqn:Es; simplify_eq/=. by eapply submitSignIn_ok.
  - destruct (ap_sent s) as [sent|] eqn:Es; [|done]. destruct (answersSignIn sent a) eqn:Ea; simplify_eq.
    pose proof (answer_ok _ _ _ _ Hok Es Ea) as Hq. unfold lastLogin in Hq. by rewrite Es in Hq.
  - destruct (authView s) eqn:Ev; try done; destruct (ap_busy s) eqn:Eb; simplify_eq; apply not_busy in Eb;
      by destruct (useDifferent_ok _ _ Hok).
Qed.
Lemma signInRun_ok last s : signInRun last s → signInOk last s.
Proof. induction 1; [by split|by eapply signInStep_ok]. Qed.

(** C39. A second factor only goes to the challenge of the sign-in it belongs to, and a sign-in
    names an organization only as the answer or the address did: whatever is typed, answered,
    abandoned and begun again, a code is sent for the challenge that answered the last sign-in,
    when the password is forgotten; after an answer that offered organizations, a sign-in goes
    with the same email and password to one of those; every other sign-in names the organization
    of the page's address, which no answer has offered, or none where the address has none; and
    nothing is sent while an answer is awaited. *)
Theorem sign_in_bound last s s' r : signInRun last s → submitSignIn s = Some (s', r) →
  submitSignIn s' = None ∧ ap_sent s = None ∧
  match r with
  | sq_mfa c code => ap_password s = [] ∧ ∃ email password org, last = Some (sq_login email password org, sa_login (lr_mfa c))
  | sq_login email password org =>
      registering = false ∧
      ((∃ os o org0, last = Some (sq_login email password org0, sa_login (lr_selectOrganization os)) ∧ o ∈ os ∧ org = Some o.1)
       ∨ (ap_choices s = None ∧ org = present organizationId))
  | sq_register name email password orgName port => registering = true ∧ (12 ≤ length password)%nat
  end.
Proof.
  intros [H1 H2 H3 H4]%signInRun_ok Hs. unfold submitSignIn in Hs. destruct (_ || _) eqn:Eb; [done|].
  apply orb_false_iff in Eb as [[Eb Ev%negb_false_iff]%orb_false_iff Eo%negb_false_iff]. apply not_busy in Eb. injection Hs as <- <-.
  split; [done|]. split; [done|]. unfold submitRequest.
  destruct (present (ap_challengeId s)) as [c|] eqn:Ec; [by destruct (H3 c eq_refl) as (? & _ & _ & _ & ?)|].
  unfold fieldsValid, authView in Ev. rewrite Ec in Ev. unfold offeredChoice in Eo.
  destruct (Bool.bool_dec registering true) as [Er|Er]; [|apply not_true_is_false in Er].
  - rewrite Er. split; [done|]. destruct (present (ap_notice s)); [done|].
    destruct (ap_choices s) as [os|] eqn:Eos; [by destruct (H4 os eq_refl); congruence|].
    rewrite Er in Ev. cbn [negb orb] in Ev. rewrite !andb_true_iff, Nat.leb_le in Ev. naive_solver.
  - rewrite Er. split; [done|]. rewrite (H2 Er) in Ev. cbn [present] in Ev. destruct (ap_choices s) as [os|] eqn:Eos; [|by right]. left.
    destruct (H4 os eq_refl) as (_ & org & ->). apply existsb_true in Eo as (o & Hin & Ho%streq_true).
    exists os, o, org. split_and!; try done. unfold present. by rewrite Ev, Ho.
Qed.
End AuthPage.

(** ** Replacing a temporary password *)

Inductive TemporaryRequest := tq_mfa (challengeId code : str) | tq_password (password : str).
(** [tp_sent] as above; [tp_now] is the clock's last tick. *)
Record TemporaryPage := mkTemporaryPage {
  tp_password : str; tp_confirmation : str; tp_mfaChallenge : option str; tp_code : str; tp_error : option str;
  tp_destination : option str; tp_now : Z; tp_sent : option TemporaryRequest; tp_mounted : bool }.
Definition openTemporary (now : Z) : TemporaryPage := mkTemporaryPage [] [] None [] None None now None true.
Definition tp_busy (s : TemporaryPage) : bool := bool_decide (is_Some (tp_sent s)).
(** [passwordError] *)
Definition joinedTexts (l : list json) : str := join [cSpace] (map (λ j, match j with JStr s => s | _ => [] end) l).
Definition passwordError (error : Failure) : str :=
  match error with
  | None => js "Could not change your password. Please try again."
  | Some e =>
      let field (k : string) := match jget (js k) (ae_errors e) with Some JNull => None | o => o end in
      match match field "password"%string with Some f => Some f | None => field "token"%string end with
      | Some (JArr messages) => joinedTexts messages
      | Some (JStr m) => if isEmpty m then ae_message e else m
      | _ => ae_message e
      end
  end.

Section Temporary.
Context `{Host}.
Variable requested : option str.
(** [passwordChangeChallenge.passwordChangeExpiresAt] *)
Definition expired (challenge : option TemporaryPasswordChallenge) (s : TemporaryPage) : bool :=
  match challenge with
  | Some c => match dateParse (tpc_expiresAt c) with Some t => t <=? tp_now s | None => true end
  | None => false
  end.
Definition temporaryError (error : option str) (s : TemporaryPage) : TemporaryPage :=
  mkTemporaryPage (tp_password s) (tp_confirmation s) (tp_mfaChallenge s) (tp_code s) error (tp_destination s) (tp_now s) (tp_sent s) (tp_mounted s).
Definition submitTemporary (challenge : option TemporaryPasswordChallenge) (s : TemporaryPage) : TemporaryPage * option TemporaryRequest :=
  let send r := (mkTemporaryPage (tp_password s) (tp_confirmation s) (tp_mfaChallenge s) (tp_code s) None (tp_destination s) (tp_now s) (Some r) (tp_mounted s), Some r) in
  if tp_busy s then (s, None) else
  match present (tp_mfaChallenge s) with
  | Some c => send (tq_mfa c (trim (tp_code s)))
  | None =>
      if negb (bool_decide (is_Some challenge)) || expired challenge s then (s, None)
      else if (length (tp_password s) <? 12)%nat then (temporaryError (Some (js "Use at least 12 characters.")) s, None)
      else if negb (streq (tp_password s) (tp_confirmation s)) then (temporaryError (Some (js "The passwords do not match.")) s, None)
      else send (tq_password (tp_password s))
  end.
(** A session, or the challenge of a second factor. *)
Definition temporaryAnswered (r : result Failure (AuthSession + str)) (s : TemporaryPage) : TemporaryPage :=
  if negb (tp_mounted s) then
    mkTemporaryPage (tp_password s) (tp_confirmation s) (tp_mfaChallenge s) (tp_code s) (tp_error s) (tp_destination s) (tp_now s) None false
  else match r with
  | Ok (inl session) => mkTemporaryPage [] [] (tp_mfaChallenge s) (tp_code s) (tp_error s) (Some (passwordDestination session requested)) (tp_now s) None true
  | Ok (inr c) => mkTemporaryPage [] [] (Some c) (tp_code s) (tp_error s) (tp_destination s) (tp_now s) None true
  | Err e => mkTemporaryPage (tp_password s) (tp_confirmation s) (tp_mfaChallenge s) (tp_code s) (Some (passwordError e)) (tp_destination s) (tp_now s) None true
  end.
(** The form, or the notice that there is nothing to replace. *)
Definition temporaryForm (challenge : option TemporaryPasswordChallenge) (s : TemporaryPage) : bool :=
  bool_decide (is_Some challenge) || bool_decide (is_Some (present (tp_mfaChallenge s))) || bool_decide (is_Some (present (tp_destination s))) || tp_busy s.
Definition cancelTemporary (s : TemporaryPage) : TemporaryPage :=
  mkTemporaryPage [] [] (tp_mfaChallenge s) [] (tp_error s) (tp_destination s) (tp_now s) (tp_sent s) false.

Inductive TemporaryEvent :=
| te_password (v : str) | te_confirmation (v : str) | te_code (v : str) | te_tick (now : Z) | te_submit | te_cancel
| te_answer (r : result Failure (AuthSession + str)).
(** [challenge] is the session's at the time; the second factor is answered with a session. *)
Definition temporaryStep (challenge : option TemporaryPasswordChallenge) (e : TemporaryEvent) (s : TemporaryPage)
    : option (TemporaryPage * option TemporaryRequest) :=
  let typing := tp_mounted s && temporaryForm challenge s && negb (tp_busy s) in
  let choosing := typing && negb (bool_decide (is_Some (present (tp_mfaChallenge s)))) && negb (expired challenge s) in
  match e with
  | te_password v => if choosing then Some (mkTemporaryPage v (tp_confirmation s) (tp_mfaChallenge s) (tp_code s) (tp_error s) (tp_destination s) (tp_now s) (tp_sent s) true, None) else None
  | te_confirmation v => if choosing then Some (mkTemporaryPage (tp_password s) v (tp_mfaChallenge s) (tp_code s) (tp_error s) (tp_destination s) (tp_now s) (tp_sent s) true, None) else None
  | te_code v => if typing && bool_decide (is_Some (present (tp_mfaChallenge s)))
                 then Some (mkTemporaryPage (tp_password s) (tp_confirmation s) (tp_mfaChallenge s) v (tp_error s) (tp_destination s) (tp_now s) (tp_sent s) true, None) else None
  | te_tick now => if tp_mounted s && bool_decide (is_Some challenge)
                   then Some (mkTemporaryPage (tp_password s) (tp_confirmation s) (tp_mfaChallenge s) (tp_code s) (tp_error s) (tp_destination s) now (tp_sent s) true, None) else None
  | te_submit => if tp_mounted s && temporaryForm challenge s && match present (tp_mfaChallenge s) with Some _ => truthy (tp_code s) | None => true end then Some (submitTemporary challenge s) else None
  | te_cancel => if tp_mounted s && temporaryForm challenge s then Some (cancelTemporary s, None) else None
  | te_answer r => match tp_sent s, r with
                   | Some (tq_mfa _ _), Ok (inr _) => None
                   | Some _, _ => Some (temporaryAnswered r s, None)
                   | None, _ => None
                   end
  end.
Inductive temporaryRun : TemporaryPage → Prop :=
| tr_open now : temporaryRun (openTemporary now)
| tr_step challenge e s s' r : temporaryRun s → temporaryStep challenge e s = Some (s', r) → temporaryRun s'.

(** ** Lemmas: the temporary password *)

Definition temporaryOk (s : TemporaryPage) : Prop :=
  ∀ c, present (tp_mfaChallenge s) = Some c → tp_password s = [] ∧ tp_confirmation s = [].
Lemma submitTemporary_ok challenge s : temporaryOk s → temporaryOk (submitTemporary challenge s).1.
Proof.
  intros Hok. unfold submitTemporary. destruct (tp_busy s); [done|]. destruct (present (tp_mfaChallenge s)); [done|].
  destruct (_ || _); [done|]. destruct (_ <? _)%nat; [done|]. by destruct (negb _).
Qed.
Lemma temporaryAnswered_ok r s : temporaryOk s → temporaryOk (temporaryAnswered r s).
Proof. intros Hok. unfold temporaryAnswered. destruct (tp_mounted s); [|done]. by destruct r as [[session|c]|e]. Qed.
Lemma temporaryStep_ok challenge e s s' r : temporaryOk s → temporaryStep challenge e s = Some (s', r) → temporaryOk s'.
Proof.
  intros Hok He. destruct e as [v|v|v|now| | |a]; cbn [temporaryStep] in He.
  1-2: destruct (_ && _) eqn:E; simplify_eq; apply andb_true_iff in E as [[_ E%negb_true_iff]%andb_true_iff _];
    intros c Hc; cbn in Hc; rewrite Hc, bool_decide_eq_true_2 in E by done; done.
  1-2: destruct (_ && _); by simplify_eq.
  - destruct (_ && _); [|done]. injection He as Hs. pose proof (submitTemporary_ok challenge s Hok) as Hq. by rewrite Hs in Hq.
  - destruct (_ && _); simplify_eq. by intros c.
  - destruct (tp_sent s) as [[]|]; [destruct a as [[]|]| |]; simplify_eq; by apply temporaryAnswered_ok.
Qed.
Lemma temporaryRun_ok s : temporaryRun s → temporaryOk s.
Proof. induction 1; [done|by eapply temporaryStep_ok]. Qed.

(** A temporary password is only replaced by one of twelve characters at least that was typed
    twice, while its sign-in is still valid by the page's clock; the second factor that may
    follow is sent when both passwords are forgotten; and while an answer is awaited nothing
    more is sent. *)
Theorem temporary_password_replaced challenge s s' r : temporaryRun s → temporaryStep challenge te_submit s = Some (s', Some r) →
  match r with
  | tq_password password => (12 ≤ length password)%nat ∧ password = tp_password s ∧ password = tp_confirmation s ∧
      ∃ c t, challenge = Some c ∧ dateParse (tpc_expiresAt c) = Some t ∧ tp_now s < t
  | tq_mfa c code => tp_mfaChallenge s = Some c ∧ tp_password s = [] ∧ tp_confirmation s = []
  end ∧ tp_sent s = None ∧ ∀ challenge', (submitTemporary challenge' s').2 = None.
Proof.
  intros Hok%temporaryRun_ok He. cbn [temporaryStep] in He. destruct (_ && _); [|done]. unfold submitTemporary in He.
  destruct (tp_busy s) eqn:Eb; [done|].
  assert (Hn : tp_sent s = None) by (unfold tp_busy in Eb; by destruct (tp_sent s); [rewrite bool_decide_eq_true_2 in Eb|]).
  assert (Hbusy : ∀ a b c d e f g h i challenge', (submitTemporary challenge' (mkTemporaryPage a b c d e f g (Some h) i)).2 = None) by done.
  destruct (present (tp_mfaChallenge s)) as [c|] eqn:Ec.
  - destruct (Hok c Ec) as [Hp Hc]. injection He as <- <-. split_and!; try done.
    unfold present in Ec. destruct (tp_mfaChallenge s) as [c'|]; [|done]. by destruct (truthy c'); simplify_eq.
  - destruct (_ || _) eqn:Ex; [done|]. apply orb_false_iff in Ex as [Ex%negb_false_iff%bool_decide_eq_true Ey]. destruct challenge as [c|]; [|by destruct Ex].
    destruct (Nat.ltb_spec (length (tp_password s)) 12); [done|]. destruct (streq (tp_password s) (tp_confirmation s)) eqn:Es; [|done].
    apply streq_true in Es. injection He as <- <-. cbn [expired] in Ey. destruct (dateParse (tpc_expiresAt c)) as [t|] eqn:Et; [|done].
    apply Z.leb_gt in Ey. split_and!; try done. by exists c, t.
Qed.
End Temporary.

(** ** Witnesses *)

Definition twoOrganizations : list (str * str) := [(js "org-1", js "Agency"); (js "org-2", js "Port")].
Definition chosenEvents : list SignInEvent :=
  [se_email (js "Ada@npa.ng"); se_password (js "secret"); se_submit; se_answer (sa_login (lr_selectOrganization twoOrganizations)); se_select (js "org-2")].
Definition afterSignIn (events : list SignInEvent) : option AuthPage :=
  foldl (λ s e, s ← s; @signInStep asciiHost false None None (λ _, true) e s) (Some openAuthPage) events.
Lemma afterSignIn_run events s : afterSignIn events = Some s → ∃ last, @signInRun asciiHost false None None (λ _, true) last s.
Proof.
  revert s. induction events as [|e events IH] using rev_ind; intros s He.
  - injection He as <-. eexists. apply sr_open.
  - unfold afterSignIn in He. rewrite foldl_app in He. fold (afterSignIn events) in He. cbn [foldl] in He.
    destruct (afterSignIn events) as [q|]; [|done]. cbn in He. destruct (IH q eq_refl) as [last Hq]. eexists. by eapply sr_step.
Qed.
Lemma sign_in_bound_witness : ∃ s, afterSignIn chosenEvents = Some s ∧ ∃ s' email password,
  @submitSignIn asciiHost false None (λ _, true) s = Some (s', sq_login email password (Some (js "org-2"))) ∧
  @submitSignIn asciiHost false None (λ _, true) s' = None.
Proof.
  destruct (afterSignIn chosenEvents) as [s|] eqn:Es; [|by vm_compute in Es]. exists s. split; [done|].
  destruct (afterSignIn_run _ _ Es) as [last Hr].
  assert (Hs : ∃ s' email password, @submitSignIn asciiHost false None (λ _, true) s = Some (s', sq_login email password (Some (js "org-2")))).
  { vm_compute in Es. injection Es as <-. do 3 eexists. vm_compute. reflexivity. }
  destruct Hs as (s' & email & password & Hs). exists s', email, password. split; [exact Hs|].
  exact (proj1 (@sign_in_bound asciiHost false None None (λ _, true) last s s' _ Hr Hs)).
Defined.

Definition monthChallenge : TemporaryPasswordChallenge := mkChallenge (js "token") (js "2026-02-01").
Definition newPasswordEvents : list TemporaryEvent := [te_password (js "correct horse"); te_confirmation (js "correct horse")].
Definition afterTemporary (events : list TemporaryEvent) : option TemporaryPage :=
  foldl (λ s e, s ← s; fst <$> @temporaryStep asciiHost None (Some monthChallenge) e s) (Some (openTemporary 0)) events.
Lemma afterTemporary_run events s : afterTemporary events = Some s → @temporaryRun asciiHost None s.
Proof.
  revert s. induction events as [|e events IH] using rev_ind; intros s He.
  - injection He as <-. apply tr_open.
  - unfold afterTemporary in He. rewrite foldl_app in He. fold (afterTemporary events) in He. cbn [foldl] in He.
    destruct (afterTemporary events) as [q|]; [|done]. cbn in He.
    destruct (temporaryStep None (Some monthChallenge) e q) as [[q' r]|] eqn:Eq; [|done]. injection He as <-. eauto using tr_step.
Qed.
Lemma temporary_password_replaced_witness : ∃ s s', afterTemporary newPasswordEvents = Some s ∧
  @temporaryStep asciiHost None (Some monthChallenge) te_submit s = Some (s', Some (tq_password (js "correct horse"))) ∧ tp_sent s = None.
Proof.
  destruct (afterTemporary newPasswordEvents) as [s|] eqn:Es; [|by vm_compute in Es].
  assert (Hs : ∃ s', @temporaryStep asciiHost None (Some monthChallenge) te_submit s = Some (s', Some (tq_password (js "correct horse")))).
  { vm_compute in Es. injection Es as <-. eexists. vm_compute. reflexivity. }
  destruct Hs as [s' Hs]. exists s, s'. split_and!; [done|exact Hs|].
  exact (proj1 (proj2 (@temporary_password_replaced asciiHost None (Some monthChallenge) s s' _ (afterTemporary_run _ _ Es) Hs))).
Defined.
