(* ===== verification/Recovery.v ===== *)
(** * Links that were sent by email (frontend/src/screens/PasswordRecovery.tsx,
    EmailVerification.tsx, InvitationAccept.tsx, OrganizationJoin.tsx)

    The public forms behind a secure token: asking for a new password and choosing it,
    confirming an address, accepting an invitation, asking to join an organization and
    confirming that.  Each is the state of its page and its handlers; the link's parameters
    are arguments. *)
From S2P Require Import Prelude JsString Json Codec MeasurementTypes Host Endpoints ApiClient AppTypes AuthContext SignIn.

(** [detail || fallback] *)
Definition detailOr (detail fallback : str) : str := if isEmpty detail then fallback else detail.
(** [if (result.organizationId) setOrganizationId(result.organizationId)] *)
Definition laterOrganization (answered current : option str) : option str :=
  match present answered with Some o => Some o | None => current end.
(** Where the pages send the user to sign in. *)
Definition signInPath (organizationId : option str) : str := organizationAuthPath (js "/login") organizationId.

(** ** Asking for a new password *)

Record ForgotForm := mkForgotForm { ff_email : str; ff_busy : bool; ff_message : option str; ff_error : option str }.
Definition openForgot : ForgotForm := mkForgotForm [] false None None.
Section Forgot.
Context `{Host}.
(** The form is there until there is a message; [valid] is the browser's check of the input. *)
Definition submitForgot (valid : bool) (organizationId : option str) (f : ForgotForm) : option (ForgotForm * AuthEndpoint) :=
  if ff_busy f || bool_decide (is_Some (present (ff_message f))) || negb valid then None else
  Some (mkForgotForm (ff_email f) true (ff_message f) None,
        forgotPassword (toLowerCase (trim (ff_email f))) (present organizationId)).
End Forgot.
Definition forgotAnswered (r : result Failure str) (f : ForgotForm) : ForgotForm :=
  match r with
  | Ok detail => mkForgotForm (ff_email f) false
      (Some (detailOr detail (js "If an account exists, password reset instructions have been sent."))) (ff_error f)
  | Err e => mkForgotForm (ff_email f) false (ff_message f) (Some (failureText e somethingWrong))
  end.

(** ** Choosing a password: after a reset, and with an invitation *)

(** The checks of the two handlers. *)
Definition passwordProblem (short password confirmation : str) : option str :=
  if (length password <? 12)%nat then Some short
  else if negb (streq password confirmation) then Some (js "The passwords do not match.") else None.
(** [lf_done]: the message of a reset, the [complete] of an invitation. *)
Record LinkForm := mkLinkForm {
  lf_organizationId : option str; lf_name : str; lf_password : str; lf_confirmation : str;
  lf_busy : bool; lf_done : option str; lf_error : option str }.
Definition openLinkForm (missing token : str) (organizationId : option str) : LinkForm :=
  mkLinkForm (present organizationId) [] [] [] false None (if truthy token then None else Some missing).
Definition openReset (token : str) (organizationId : option str) : LinkForm :=
  openLinkForm (js "This reset link is missing its secure token.") token organizationId.
Definition openInvitation (token : str) (organizationId : option str) : LinkForm :=
  openLinkForm (js "This invitation link is missing its secure token.") token organizationId.
Definition typeLink (name password confirmation : str) (f : LinkForm) : LinkForm :=
  mkLinkForm (lf_organizationId f) name password confirmation (lf_busy f) (lf_done f) (lf_error f).
Definition linkError (error : option str) (busy : bool) (f : LinkForm) : LinkForm :=
  mkLinkForm (lf_organizationId f) (lf_name f) (lf_password f) (lf_confirmation f) busy (lf_done f) error.
(** The button is disabled without a token or while busy; the form gives way to [lf_done]. *)
Definition mayChoose (token : str) (f : LinkForm) : bool :=
  negb (lf_busy f) && truthy token && negb (bool_decide (is_Some (present (lf_done f)))).
Definition submitLink {E : Type} (token : str) (request : E) (f : LinkForm) : LinkForm * option E :=
  if negb (mayChoose token f) then (f, None) else
  match passwordProblem (js "Use at least 12 characters.") (lf_password f) (lf_confirmation f) with
  | Some problem => (linkError (Some problem) (lf_busy f) f, None)
  | None => (linkError None true f, Some request)
  end.
Definition submitReset (token : str) (f : LinkForm) : LinkForm * option AuthEndpoint :=
  submitLink token (resetPassword token (lf_password f)) f.
Definition submitInvitation (token : str) (f : LinkForm) : LinkForm * option UserEndpoint :=
  submitLink token (acceptInvitation (mkObj [fld "token" token; fld "name" (trim (lf_name f)); fld "password" (lf_password f)])) f.
Definition linkDone (message : str) (organizationId : option str) (f : LinkForm) : LinkForm :=
  mkLinkForm (laterOrganization organizationId (lf_organizationId f)) (lf_name f) [] [] false (Some message) (lf_error f).
Definition resetAnswered (r : result Failure (str * option str)) (f : LinkForm) : LinkForm :=
  match r with
  | Ok (detail, org) => linkDone (detailOr detail (js "Your password has been changed. Sign in with your new password.")) org f
  | Err e => linkError (Some (failureText e somethingWrong)) false f
  end.
Definition invitationAnswered (r : result Failure (option str)) (f : LinkForm) : LinkForm :=
  match r with
  | Ok org => linkDone (js "Invitation accepted") org f
  | Err e => linkError (Some (failureText e (js "This invitation could not be accepted."))) false f
  end.

(** ** Confirming an address *)

Inductive VerificationState := vs_idle | vs_verifying | vs_verified | vs_error.
#[export] Instance VerificationState_eq : EqDecision VerificationState. Proof. solve_decision. Defined.
(** [ev_active]: the effect of this token has not been cleaned up. *)
Record Verification := mkVerification {
  ev_organizationId : option str; ev_email : str; ev_state : VerificationState; ev_message : option str;
  ev_approvalPending : bool; ev_sending : bool; ev_active : bool }.
(** The page opens, and its effect asks at once when there is a token. *)
Definition openVerification (token email : str) (organizationId : option str) : Verification * option AuthEndpoint :=
  (mkVerification (present organizationId) email (if truthy token then vs_verifying else vs_idle) None false false true,
   if truthy token then Some (verifyEmail token) else None).
Definition verified (r : result Failure (str * bool * option str)) (v : Verification) : Verification :=
  if negb (ev_active v) then v else
  match r with
  | Ok (detail, pending, org) =>
      mkVerification (laterOrganization org (ev_organizationId v)) (ev_email v) vs_verified
        (Some (detailOr detail (js "Your email is verified. You can now sign in."))) pending (ev_sending v) true
  | Err e => mkVerification (ev_organizationId v) (ev_email v) vs_error
      (Some (failureText e (js "This verification link is invalid or has expired."))) (ev_approvalPending v) (ev_sending v) true
  end.
Definition leaveVerification (v : Verification) : Verification :=
  mkVerification (ev_organizationId v) (ev_email v) (ev_state v) (ev_message v) (ev_approvalPending v) (ev_sending v) false.
Definition typeVerificationEmail (email : str) (v : Verification) : Verification :=
  mkVerification (ev_organizationId v) email (ev_state v) (ev_message v) (ev_approvalPending v) (ev_sending v) (ev_active v).
Definition resendFormShown (v : Verification) : bool := match ev_state v with vs_idle | vs_error => true | _ => false end.
Section Resend.
Context `{Host}.
Definition resendVerificationEmail (valid : bool) (v : Verification) : option (Verification * AuthEndpoint) :=
  if negb (resendFormShown v) || ev_sending v || negb valid then None else
  Some (mkVerification (ev_organizationId v) (ev_email v) (ev_state v) None (ev_approvalPending v) true (ev_active v),
        resendVerification (toLowerCase (trim (ev_email v))) (ev_organizationId v)).
End Resend.
Definition resendAnswered (r : result Failure str) (v : Verification) : Verification :=
  mkVerification (ev_organizationId v) (ev_email v) (ev_state v)
    (Some (match r with
           | Ok detail => detailOr detail (js "If the account is pending, a new verification email has been sent.")
           | Err e => failureText e (js "Could not send a verification email.")
           end)) (ev_approvalPending v) false (ev_active v).
(** What the page offers once it is done: the sign-in, or the way home while a review is pending. *)
Definition verificationLink (v : Verification) : option str :=
  match ev_state v with
  | vs_verified => Some (if ev_approvalPending v then js "/" else signInPath (ev_organizationId v))
  | vs_verifying => None
  | _ => Some (signInPath (ev_organizationId v))
  end.

(** ** Asking to join an organization *)

(** [secureToken]: from the address's fragment, which is read once. *)
Definition secureToken (fragment : list (str * str)) : str := default [] (mget (js "token") fragment).
Definition elements (j : json) : list json := match j with JArr l => l | j => [j] end.
(** [failureMessage]: the fields' messages, joined; only texts are printed here. *)
Definition failureMessage (error : Failure) (fallback : str) : str :=
  match error with
  | None => fallback
  | Some e =>
      match flat_map elements (match ae_errors e with JObj fields => map snd fields | JArr l => l | _ => [] end) with
      | [] => ae_message e
      | messages => joinedTexts messages
      end
  end.
Inductive LinkState := ls_loading | ls_error | ls_ready (organization expiresAt : str).
#[export] Instance LinkState_eq : EqDecision LinkState. Proof. solve_decision. Defined.
(** [jn_inFlight] is the ref, [jn_busy] the state. *)
Record JoinPage := mkJoinPage {
  jn_link : LinkState; jn_name : str; jn_email : str; jn_busy : bool; jn_complete : bool; jn_error : option str; jn_inFlight : bool;
  jn_active : bool }.
Definition openJoin (token : str) : JoinPage * option JoinEndpoint :=
  (mkJoinPage ls_loading [] [] false false None false true, if truthy token then Some (join_inspect token) else None).
Definition linkInspected (r : option (str * str)) (s : JoinPage) : JoinPage :=
  if negb (jn_active s) then s else
  mkJoinPage (match r with Some (organization, expiresAt) => ls_ready organization expiresAt | None => ls_error end)
    (jn_name s) (jn_email s) (jn_busy s) (jn_complete s) (jn_error s) (jn_inFlight s) true.
Definition leaveJoin (s : JoinPage) : JoinPage :=
  mkJoinPage (jn_link s) (jn_name s) (jn_email s) (jn_busy s) (jn_complete s) (jn_error s) (jn_inFlight s) false.
Inductive JoinView := jv_unavailable | jv_loading | jv_complete | jv_form.
#[export] Instance JoinView_eq : EqDecision JoinView. Proof. solve_decision. Defined.
Definition joinView (token : str) (s : JoinPage) : JoinView :=
  if isEmpty token then jv_unavailable else
  match jn_link s with
  | ls_error => jv_unavailable
  | ls_loading => jv_loading
  | ls_ready _ _ => if jn_complete s then jv_complete else jv_form
  end.
Definition typeJoin (name email : str) (s : JoinPage) : JoinPage :=
  if jn_busy s then s else mkJoinPage (jn_link s) name email (jn_busy s) (jn_complete s) (jn_error s) (jn_inFlight s) (jn_active s).
Section Join.
Context `{Host}.
Definition submitJoin (valid : bool) (token : str) (s : JoinPage) : JoinPage * option JoinEndpoint :=
  if jn_inFlight s || negb (bool_decide (joinView token s = jv_form)) || negb valid then (s, None) else
  if isEmpty (trim (jn_name s)) then
    (mkJoinPage (jn_link s) (jn_name s) (jn_email s) (jn_busy s) (jn_complete s) (Some (js "Enter your full name.")) false (jn_active s), None)
  else
    (mkJoinPage (jn_link s) (jn_name s) (jn_email s) true (jn_complete s) None true (jn_active s),
     Some (join_submit (mkObj [fld "token" token; fld "name" (trim (jn_name s)); fld "email" (toLowerCase (trim (jn_email s)))]))).
End Join.
Definition joinAnswered (r : result Failure unit) (s : JoinPage) : JoinPage :=
  match r with
  | Ok _ => mkJoinPage (jn_link s) (jn_name s) (jn_email s) false true (jn_error s) false (jn_active s)
  | Err e => mkJoinPage (jn_link s) (jn_name s) (jn_email s) false (jn_complete s)
      (Some (failureMessage e (js "Your request could not be submitted. Please try again."))) false (jn_active s)
  end.

(** ** Confirming the request to join *)

Inductive JoinVerificationState := jvs_ready | jvs_verifying | jvs_pending | jvs_error.
#[export] Instance JoinVerificationState_eq : EqDecision JoinVerificationState. Proof. solve_decision. Defined.
Record JoinVerification := mkJoinVerification {
  jw_password : str; jw_confirmation : str; jw_state : JoinVerificationState; jw_error : option str; jw_inFlight : bool }.
Definition openJoinVerification (token : str) : JoinVerification :=
  mkJoinVerification [] [] (if truthy token then jvs_ready else jvs_error) None false.
Definition typeJoinPassword (password confirmation : str) (s : JoinVerification) : JoinVerification :=
  if bool_decide (jw_state s = jvs_verifying) then s else mkJoinVerification password confirmation (jw_state s) (jw_error s) (jw_inFlight s).
Definition joinPasswordError (error : option str) (s : JoinVerification) : JoinVerification :=
  mkJoinVerification (jw_password s) (jw_confirmation s) (jw_state s) error (jw_inFlight s).
(** The form is there until the request waits for its approval. *)
Definition verifyJoin (valid : bool) (token : str) (s : JoinVerification) : JoinVerification * option JoinEndpoint :=
  if isEmpty token || jw_inFlight s || negb valid || bool_decide (jw_state s = jvs_pending) then (s, None) else
  match passwordProblem (js "Use at least 12 characters for your password.") (jw_password s) (jw_confirmation s) with
  | Some problem => (joinPasswordError (Some problem) s, None)
  | None => (mkJoinVerification (jw_password s) (jw_confirmation s) jvs_verifying None true, Some (join_verify token (jw_password s)))
  end.
Definition joinVerified (r : result Failure unit) (s : JoinVerification) : JoinVerification :=
  match r with
  | Ok _ => mkJoinVerification [] [] jvs_pending (jw_error s) false
  | Err e => mkJoinVerification (jw_password s) (jw_confirmation s) jvs_error
      (Some (failureMessage e (js "This verification link is invalid or has expired."))) false
  end.

(** ** What the pages that choose a password have in common *)

(** The operations of a page, and what each of them promises: [pp_opens] and [pp_types] say how
    it opens and what typing makes of it; a request [pp_sends] the password it names. *)
Class PasswordPage (St Rq An : Type) := {
  pp_password : St → str; pp_confirmation : St → str; pp_waiting : St → bool; pp_done : St → bool;
  pp_opens : str → St → Prop;
  pp_types : St → St → Prop;
  pp_submit : bool → str → St → St * option Rq;
  pp_sends : str → str → Rq → Prop;
  pp_accepted : An → bool;
  pp_answer : An → St → St;
  pp_open_idle : ∀ token s, pp_opens token s → pp_waiting s = false ∧ pp_done s = false;
  pp_type_keeps : ∀ s s', pp_types s s' → pp_waiting s' = pp_waiting s ∧ pp_done s' = pp_done s;
  pp_submit_spec : ∀ valid token s,
    let '(s', r) := pp_submit valid token s in
    pp_done s' = pp_done s ∧
    match r with
    | Some r => valid = true ∧ token ≠ [] ∧ pp_waiting s = false ∧ pp_done s = false ∧ pp_waiting s' = true ∧
        (12 ≤ length (pp_password s))%nat ∧ pp_password s = pp_confirmation s ∧ pp_sends token (pp_password s) r
    | None => pp_waiting s' = pp_waiting s ∧ pp_password s' = pp_password s ∧ pp_confirmation s' = pp_confirmation s
    end;
  pp_answer_spec : ∀ a s, pp_waiting (pp_answer a s) = false ∧
    if pp_accepted a then pp_done (pp_answer a s) = true ∧ pp_password (pp_answer a s) = [] ∧ pp_confirmation (pp_answer a s) = []
    else pp_done s = false → pp_done (pp_answer a s) = false }.

Section PasswordPages.
Context {St Rq An : Type} `{!PasswordPage St Rq An}.
(** The page and the requests it has sent, each with its answer once there is one. *)
Inductive pageRun (token : str) : list (Rq * option An) → St → Prop :=
| pgr_open s : pp_opens token s → pageRun token [] s
| pgr_type log s s' : pageRun token log s → pp_done s = false → pp_types s s' → pageRun token log s'
| pgr_submit log valid s s' : pageRun token log s → pp_submit valid token s = (s', None) → pageRun token log s'
| pgr_sent log valid s s' r : pageRun token log s → pp_submit valid token s = (s', Some r) → pageRun token (log ++ [(r, None)]) s'
| pgr_answer log r a s : pageRun token (log ++ [(r, None)]) s → pageRun token (log ++ [(r, Some a)]) (pp_answer a s).

Definition refused (e : Rq * option An) : Prop := ∃ a, e.2 = Some a ∧ pp_accepted a = false.
(** All requests but the last were refused; the last is awaited, refused or accepted. *)
Definition logOk (token : str) (log : list (Rq * option An)) (s : St) : Prop :=
  Forall (λ e, token ≠ [] ∧ ∃ password, (12 ≤ length password)%nat ∧ pp_sends token password e.1) log ∧
  match reverse log with
  | (_, None) :: before => pp_waiting s = true ∧ pp_done s = false ∧ Forall refused before
  | (_, Some a) :: before => pp_waiting s = false ∧ pp_done s = pp_accepted a ∧ Forall refused before ∧
      (pp_done s = true → pp_password s = [] ∧ pp_confirmation s = [])
  | [] => pp_waiting s = false ∧ pp_done s = false
  end.
Lemma logOk_keep token log s s' : logOk token log s → pp_waiting s' = pp_waiting s → pp_done s' = pp_done s →
  (pp_done s = true → pp_password s' = pp_password s ∧ pp_confirmation s' = pp_confirmation s) → logOk token log s'.
Proof.
  intros [H1 H2] Hw Hd Hp. split; [done|]. destruct (reverse log) as [|[r [a|]] before]; rewrite Hw, ?Hd; [done| |done].
  destruct H2 as (H2 & H3 & H4 & H5). split_and!; try done. intros Ht. destruct (Hp Ht) as [-> ->]. auto.
Qed.
Lemma pageRun_ok token log s : pageRun token log s → logOk token log s.
Proof.
  induction 1 as [s Ho|log s s' Hr IH Hd Ht|log valid s s' Hr IH Hs|log valid s s' r Hr IH Hs|log r a s Hr IH].
  - split; [done|]. by apply (pp_open_idle token).
  - destruct (pp_type_keeps _ _ Ht). eapply logOk_keep; try done. congruence.
  - pose proof (pp_submit_spec valid token s) as Hp. rewrite Hs in Hp. destruct Hp as (H1 & H2 & H3 & H4). by eapply logOk_keep.
  - pose proof (pp_submit_spec valid token s) as Hp. rewrite Hs in Hp. destruct Hp as (Hd & _ & Ht & Hw & Hn & Hw' & Hl & _ & Hr').
    destruct IH as [H1 H2]. split; [apply Forall_app; split; [done|]; constructor; [|done]; split; [done|]; by exists (pp_password s)|].
    rewrite reverse_snoc. split_and!; [done|congruence|].
    destruct (reverse log) as [|[r0 [a|]] before]; [done| |destruct H2; congruence]. destruct H2 as (_ & H2 & H3 & _).
    constructor; [|done]. exists a. split; [done|congruence].
  - destruct IH as [H1 H2]. rewrite reverse_snoc in H2. destruct H2 as (Hw & Hd & Hb). apply Forall_app in H1 as [H1 H1'].
    apply Forall_cons in H1' as [H1' _]. destruct (pp_answer_spec a s) as [Hw' Ha]. split; [apply Forall_app; split; [done|by constructor]|].
    rewrite reverse_snoc. destruct (pp_accepted a) eqn:Ea; [naive_solver|]. specialize (Ha Hd). split_and!; try done; intros; congruence.
Qed.

(** A request carries the link's secret and a password of twelve characters at least, the one
    both fields show; all but the last were refused; none is sent while one is awaited or was
    accepted; and then the page has forgotten the password. *)
Definition passwordSentOnce (token : str) (log : list (Rq * option An)) (s : St) : Prop :=
  Forall (λ e, token ≠ [] ∧ ∃ password, (12 ≤ length password)%nat ∧ pp_sends token password e.1) log ∧
  (∀ before e after, log = before ++ e :: after → after ≠ [] → refused e) ∧
  (∀ valid s' r, pp_submit valid token s = (s', Some r) → Forall refused log ∧
     pp_password s = pp_confirmation s ∧ pp_sends token (pp_password s) r) ∧
  (pp_done s = true → pp_password s = [] ∧ pp_confirmation s = []).
Lemma pageRun_once token log s : pageRun token log s → passwordSentOnce token log s.
Proof.
  intros [H1 H2]%pageRun_ok. split; [done|]. split_and!.
  - intros before e after -> Ha. destruct after as [|e' after _] using rev_ind; [done|]. rewrite app_comm_cons, app_assoc, reverse_snoc in H2.
    assert (Forall refused (reverse (before ++ e :: after))) as Hf by (destruct e' as [? []]; tauto).
    rewrite Forall_forall in Hf. apply Hf. apply elem_of_reverse, elem_of_app. right. apply list_elem_of_here.
  - intros valid s' r Hs. pose proof (pp_submit_spec valid token s) as Hp. rewrite Hs in Hp. destruct Hp as (_ & _ & _ & Hw & Hn & _ & _ & He & Hr).
    split; [|done]. apply Forall_reverse. destruct (reverse log) as [|[r0 [a|]] before]; [done| |destruct H2; congruence].
    destruct H2 as (_ & H2 & H3 & _). constructor; [|done]. exists a. split; [done|congruence].
  - intros Hd. destruct (reverse log) as [|[r0 [a|]] before]; [destruct H2; congruence|tauto|]. destruct H2 as (_ & ? & _). congruence.
Qed.
End PasswordPages.

(** ** The three pages *)

#[local] Opaque js.
Lemma passwordProblem_None short p c : passwordProblem short p c = None ↔ (12 ≤ length p)%nat ∧ p = c.
Proof.
  unfold passwordProblem. destruct (Nat.ltb_spec (length p) 12); [split; [done|lia]|].
  destruct (streq p c) eqn:E; cbn [negb]; [apply streq_true in E; naive_solver|]. apply streq_false in E. naive_solver.
Qed.
Definition linkFormDone (f : LinkForm) : bool := bool_decide (is_Some (present (lf_done f))).
Lemma submitLink_spec {E} (token : str) (request : E) f :
  let '(f', r) := submitLink token request f in
  linkFormDone f' = linkFormDone f ∧
  match r with
  | Some r => token ≠ [] ∧ lf_busy f = false ∧ linkFormDone f = false ∧ lf_busy f' = true ∧
      (12 ≤ length (lf_password f))%nat ∧ lf_password f = lf_confirmation f ∧ r = request
  | None => lf_busy f' = lf_busy f ∧ lf_password f' = lf_password f ∧ lf_confirmation f' = lf_confirmation f
  end.
Proof.
  unfold submitLink. destruct (mayChoose token f) eqn:Em; [|done]. cbn [negb].
  destruct (passwordProblem _ _ _) eqn:Ep; [done|]. apply passwordProblem_None in Ep as [Hl He]. split; [done|].
  unfold mayChoose in Em. rewrite !andb_true_iff, !negb_true_iff in Em. destruct Em as [[Eb Et] Ed].
  split_and!; try done. by destruct token.
Qed.
Lemma linkDone_spec message org f : message ≠ [] → linkFormDone (linkDone message org f) = true.
Proof. intros Hm. unfold linkFormDone. by destruct message. Qed.
Lemma openLinkForm_idle missing token org : lf_busy (openLinkForm missing token org) = false ∧ linkFormDone (openLinkForm missing token org) = false.
Proof. done. Qed.
Lemma detailOr_nonempty detail fallback : fallback ≠ [] → detailOr detail fallback ≠ [].
Proof. intros Hf. unfold detailOr. by destruct detail. Qed.

#[export] Instance resetPage : PasswordPage LinkForm AuthEndpoint (result Failure (str * option str)).
Proof.
  refine {| pp_password := lf_password; pp_confirmation := lf_confirmation; pp_waiting := lf_busy; pp_done := linkFormDone;
    pp_opens := λ token f, ∃ org, f = openReset token org;
    pp_types := λ f f', ∃ p c, f' = typeLink (lf_name f) p c f;
    pp_submit := λ valid token f, if valid then submitReset token f else (f, None);
    pp_sends := λ token p r, r = resetPassword token p;
    pp_accepted := λ a, match a with Ok _ => true | Err _ => false end;
    pp_answer := resetAnswered |}.
  - by intros token f [org ->].
  - by intros f f' (p & c & ->).
  - intros [] token f; [|done]. pose proof (submitLink_spec token (resetPassword token (lf_password f)) f) as Hs.
    unfold submitReset. destruct (submitLink _ _ _) as [f' [r|]]; naive_solver.
  - intros [[detail org]|e] f; (split; [done|]); [|done]. split_and!; [|done|done].
    apply linkDone_spec, detailOr_nonempty. by vm_compute.
Defined.
Definition invitationRequest (token name password : str) : UserEndpoint :=
  acceptInvitation (mkObj [fld "token" token; fld "name" (trim name); fld "password" password]).
#[export] Instance invitationPage : PasswordPage LinkForm UserEndpoint (result Failure (option str)).
Proof.
  refine {| pp_password := lf_password; pp_confirmation := lf_confirmation; pp_waiting := lf_busy; pp_done := linkFormDone;
    pp_opens := λ token f, ∃ org, f = openInvitation token org;
    pp_types := λ f f', ∃ name p c, f' = typeLink name p c f;
    pp_submit := λ valid token f, if valid then submitInvitation token f else (f, None);
    pp_sends := λ token p r, ∃ name, r = invitationRequest token name p;
    pp_accepted := λ a, match a with Ok _ => true | Err _ => false end;
    pp_answer := invitationAnswered |}.
  - by intros token f [org ->].
  - by intros f f' (name & p & c & ->).
  - intros [] token f; [|done]. pose proof (submitLink_spec token (invitationRequest token (lf_name f) (lf_password f)) f) as Hs.
    unfold submitInvitation, invitationRequest in *. destruct (submitLink _ _ _) as [f' [r|]]; naive_solver.
  - intros [org|e] f; (split; [done|]); [|done]. split_and!; [|done|done]. apply linkDone_spec. by vm_compute.
Defined.
#[export] Instance joinPage : PasswordPage JoinVerification JoinEndpoint (result Failure unit).
Proof.
  refine {| pp_password := jw_password; pp_confirmation := jw_confirmation; pp_waiting := jw_inFlight;
    pp_done := λ s, bool_decide (jw_state s = jvs_pending);
    pp_opens := λ token s, s = openJoinVerification token;
    pp_types := λ s s', ∃ p c, s' = typeJoinPassword p c s;
    pp_submit := λ valid token s, verifyJoin valid token s;
    pp_sends := λ token p r, r = join_verify token p;
    pp_accepted := λ a, match a with Ok _ => true | Err _ => false end;
    pp_answer := joinVerified |}.
  - intros token s ->. unfold openJoinVerification. by destruct (truthy token).
  - intros s s' (p & c & ->). unfold typeJoinPassword. by destruct (bool_decide _).
  - intros valid token s. unfold verifyJoin. destruct (_ || _) eqn:E; [done|]. rewrite !orb_false_iff, negb_false_iff in E.
    destruct E as [[[Et Ef] Ev] Ep]. destruct (passwordProblem _ _ _) eqn:Eq; [done|]. apply passwordProblem_None in Eq as [Hl He].
    cbn [jw_state jw_inFlight]. rewrite Ep. split; [done|]. split_and!; try done. by destruct token.
  - intros [u|e] s; cbn; done.
Defined.

(** C40. A password chosen behind an emailed link - after a reset, with an invitation, or to confirm
    a request to join - reaches the server with the link's secret, as it was typed twice, with
    twelve characters at least; requests are sent one at a time and a link is used again only
    after it was refused; once it was accepted none follows, and the page has forgotten the
    password. *)
Theorem chosen_password_sent_once :
  (∀ token log s, pageRun (PasswordPage0:=resetPage) token log s → passwordSentOnce (PasswordPage0:=resetPage) token log s) ∧
  (∀ token log s, pageRun (PasswordPage0:=invitationPage) token log s → passwordSentOnce (PasswordPage0:=invitationPage) token log s) ∧
  (∀ token log s, pageRun (PasswordPage0:=joinPage) token log s → passwordSentOnce (PasswordPage0:=joinPage) token log s).
Proof. split_and!; intros token log s; apply pageRun_once. Qed.

(** ** The other pages *)

(** A request to join goes out once the link was found good, with a name, one at a time; the
    page that was left is not changed by a late answer about its link. *)
Lemma join_sent `{Host} valid token s s' r : submitJoin valid token s = (s', Some r) →
  token ≠ [] ∧ (∃ organization expiresAt, jn_link s = ls_ready organization expiresAt) ∧ jn_complete s = false ∧ jn_inFlight s = false ∧
  trim (jn_name s) ≠ [] ∧ ∀ valid', (submitJoin valid' token s').2 = None.
Proof.
  unfold submitJoin. destruct (_ || _) eqn:E; [done|]. rewrite !orb_false_iff, !negb_false_iff, bool_decide_eq_true in E.
  destruct E as [[Ef Ev] _]. unfold joinView in Ev. destruct (isEmpty token) eqn:Et; [done|]. destruct (jn_link s) as [| |o x] eqn:El; try done.
  destruct (jn_complete s) eqn:Ec; [done|]. destruct (isEmpty (trim (jn_name s))) eqn:En; [done|]. intros [= <- <-].
  split_and!; try done; [by destruct token|eauto|by destruct (trim (jn_name s))].
Qed.
Lemma join_left r s : linkInspected r (leaveJoin s) = leaveJoin s.
Proof. done. Qed.
(** A confirmed address leads to the sign-in, unless the organization is still under review. *)
Lemma verified_link detail pending org v : ev_active v = true →
  verificationLink (verified (Ok (detail, pending, org)) v) =
    Some (if pending then js "/" else signInPath (laterOrganization org (ev_organizationId v))).
Proof. intros Ha. unfold verified. by rewrite Ha. Qed.
(** After a link that failed, the confirmation of a new email is shown where the failure was,
    in the state that styles it as an error. *)
Lemma resent_in_error_state e detail v : ev_active v = true →
  ev_state (resendAnswered (Ok detail) (verified (Err e) v)) = vs_error.
Proof. intros Ha. unfold verified. by rewrite Ha. Qed.
