(* ===== verification/VoyageScreens.v ===== *)
(** * The screens of a voyage (frontend/src/measurements/VoyageLog.tsx, VoyageWorkspace.tsx,
    VoyageComparison.tsx, AgencyDirectoryScreen.tsx, screens/VoyageDeclaration.tsx,
    screens/TariffSettings.tsx)

    The list of voyages with its filters and actions, the stepper's links, the comparison of a
    sheet with its reconciliation, the declared sheet, and the forms for the tariff and the
    agency directory. *)
From Stdlib Require Import SpecFloat.
From S2P Require Import Prelude JsString JsNumber Json Codec MeasurementTypes Host Samples Helpers Comparison Cargo Uri CloseoutTypes Storage AppTypes VoyageStatus Voyages Endpoints Tariffs AgencyDirectory.

(** ** The list of voyages *)

Definition FILTER_STAGES (status : str) : list VoyageStage :=
  default [] (mget status
    [(js "declaration", [g_declaration]); (js "collecting", [g_collecting]); (js "reconcile", [g_ready; g_returned]);
     (js "approval", [g_approval]); (js "invoice", [g_invoice; g_draft; g_held]); (js "review", [g_review]); (js "cancelled", [g_cancelled])]).
Definition CLOSED : list VoyageStage := [g_no_charge; g_cancelled].
(** The values of the "Step" filter. *)
Definition STAGE_FILTERS : list str :=
  map js ["all"; "open"; "declaration"; "collecting"; "reconcile"; "approval"; "invoice"; "review"; "cancelled"]%string.
Definition actionFor (voyage : VoyageSummary) (canManage : bool) : str :=
  match vs_stage voyage with
  | g_declaration => if negb (Nat.eqb (length (vs_plans voyage)) 0) then js "Review declaration" else if canManage then js "Record declaration" else js "Open"
  | g_collecting => js "Agency readings"
  | g_ready | g_returned => js "Reconcile"
  | g_approval => js "Review approval"
  | g_invoice | g_draft | g_held | g_review => js "Invoice"
  | _ => js "Open"
  end.
Definition stageShown (status : str) (stage : VoyageStage) : bool :=
  if streq status (js "all") then true
  else if streq status (js "open") then negb (bool_decide (stage ∈ CLOSED))
  else bool_decide (stage ∈ FILTER_STAGES status).

Section Log.
Context `{Host} (isLetterOrNumber : N → bool).
Definition slugOf (voyage : VoyageSummary) : str := vesselSlug isLetterOrNumber (vs_vesselName voyage) (vc_flag <$> vs_call voyage).
(** [(b - a) || name || reference] *)
Definition logOrder (left right : VoyageSummary) : Z :=
  let d := timeOf (vs_arrival right) - timeOf (vs_arrival left) in
  if negb (d =? 0) then d else
  let n := localeCompare (vs_vesselName left) (vs_vesselName right) in
  if negb (n =? 0) then n else localeCompare (vs_reference left) (vs_reference right).
Definition voyageText (voyage : VoyageSummary) : str :=
  join [cSpace] (vs_vesselName voyage :: vs_reference voyage
    :: flat_map (λ plan, plan_title plan :: map party_name (plan_participants plan)) (vs_allPlans voyage)).
Definition voyageShown (vesselKey status query : str) (voyage : VoyageSummary) : bool :=
  (isEmpty vesselKey || streq (slugOf voyage) vesselKey) && stageShown status (vs_stage voyage)
  && (isEmpty query || includes query (toLocaleLowerCase (voyageText voyage))).
(** The rows, for the voyages the page summarizes. *)
Definition visibleVoyages (voyages : list VoyageSummary) (vesselKey status search : str) : list VoyageSummary :=
  filterb (voyageShown vesselKey status (toLocaleLowerCase (trim search))) (sort_by logOrder voyages).
Definition vesselLabel (voyage : VoyageSummary) : str :=
  let flag := default [] (vc_flag <$> vs_call voyage) in
  vs_vesselName voyage ++ (if truthy flag then js " · " ++ flag else []).
(** The choices of the "Vessel" filter; the last voyage of a vessel gives its label. *)
Definition vesselChoices (voyages : list VoyageSummary) : list (str * str) :=
  sort_by (λ left right, localeCompare left.2 right.2)
    (foldl (λ m v, mset (slugOf v) (vesselLabel v) m) [] (sort_by logOrder voyages)).
End Log.

(** ** The stepper *)

Definition STEPS : list VoyageStep := [p_declaration; p_agencies; p_readings; p_variation_invoice].
Definition stepHref (summary : VoyageSummary) (step : VoyageStep) : str :=
  match step with
  | p_declaration =>
      if Nat.eqb (length (vs_plans summary)) 0 && negb (bool_decide (vs_stage summary = g_cancelled))
      then js "/app/measurements/new?callId=" ++ encodeURIComponent (vs_callId summary) else voyagePath (vs_callId summary) step
  | _ => voyagePath (vs_callId summary) step
  end.

(** The declaration's page goes to the form that records one when there is none and the user
    may; the frame around it says so when the voyage is cancelled. *)
Definition declarationRedirect (loaded canManage : bool) (summary : VoyageSummary) (plans : list MeasurementPlan) : option str :=
  if loaded && Nat.eqb (length plans) 0 && canManage && negb (bool_decide (vs_stage summary = g_cancelled))
  then Some (js "/app/measurements/new?callId=" ++ encodeURIComponent (vs_callId summary)) else None.
Definition mayEditDeclaration (canManage canBill : bool) (summary : VoyageSummary) : bool :=
  (canManage || canBill) && negb (bool_decide (vs_stage summary = g_cancelled)).

(** ** The comparison of a sheet *)

Definition groupLabel (line : CargoLine) : str :=
  (if streq (category line) (js "Liquid") then js "Tanker / liquid cargo"
   else if streq (category line) (js "Container") then js "Containers" else category line)
  ++ js " · "
  ++ (if streq (direction line) (js "import") then js "Import / discharge"
      else if streq (direction line) (js "export") then js "Export / loading" else direction line).
Definition addLine (groups : list (str * list CargoLine)) (line : CargoLine) : list (str * list CargoLine) :=
  mset (groupLabel line) (default [] (mget (groupLabel line) groups) ++ [line]) groups.
Definition lineGroups (lines : list CargoLine) : list (str * list CargoLine) := foldl addLine [] lines.

(** A reading's cell: its text, the comparison under it, and the note of a line that does not
    apply. *)
Record GridCell := mkGridCell { gc_text : str; gc_state : option (TallyStatus * str); gc_note : option str }.
Record GridRow := mkGridRow {
  gr_line : CargoLine; gr_declared : str; gr_cells : list GridCell; gr_selected : str;
  gr_difference : str; gr_remark : str; gr_status : TallyStatus; gr_label : str }.
Definition snapshotPlan (reconciliation : option Reconciliation) (snapshot : bool) (plan : MeasurementPlan) : list Submission :=
  match reconciliation with
  | Some r => if snapshot then filterb (λ item, existsb (streq (sub_id item)) (rec_submissionIds r)) (plan_submissions plan) else plan_submissions plan
  | None => plan_submissions plan
  end.
Definition returnsFrom (submissions : list Submission) : list (str * Submission) := foldl latestReturns_step [] submissions.
Definition resultsOf (reconciliation : option Reconciliation) : list (str * ReconLine) :=
  match reconciliation with Some r => foldl (λ m l, mset (rl_lineId l) l m) [] (rec_lines r) | None => [] end.
Definition readingCell (declared : option str) (line : CargoLine) (submission : option Submission) : GridCell :=
  match submission ≫= λ s, findb (λ item, streq (sl_lineId item) (line_id line)) (sub_lines s) with
  | None => mkGridCell (js "Missing") None None
  | Some entry =>
      match sl_status entry with
      | not_applicable => mkGridCell (js "N/A") None (Some (sl_note entry))
      | reported =>
          let comparison := tallyResult (sl_quantity entry) declared in
          mkGridCell (readingQuantity (sl_quantity entry))
            (match tally_difference comparison with
             | Some difference => Some (tally_status comparison,
                 if bool_decide (tally_status comparison = tallies) then js "Tallies" else difference ++ js " vs owner declaration")
             | None => None
             end) None
      end
  end.
Definition gridRow (participants : list Participant) (returns : list (str * Submission)) (results : list (str * ReconLine)) (line : CargoLine) : GridRow :=
  let result := mget (line_id line) results in
  let declared := match result with Some r => rl_manifestQuantity r | None => manifestQuantity line end in
  let comparison := tallyResult (rl_quantity <$> result) declared in
  mkGridRow line (readingQuantity declared)
    (map (λ party, readingCell declared line (mget (party_id party) returns)) participants)
    (match result with Some r => readingQuantity (Some (rl_quantity r)) | None => js "Pending" end)
    (default (js "—") (tally_difference comparison))
    (match tally_difference comparison with
     | Some _ => unit_lit (unit_ line)
     | None => match declared with None => js "Owner declaration not provided" | Some _ => js "Awaiting reconciliation" end
     end)
    (tally_status comparison) (tally_label comparison).
Definition comparisonGrid (plan : MeasurementPlan) (reconciliation : option Reconciliation) (snapshot : bool) : list (str * list GridRow) :=
  let returns := returnsFrom (snapshotPlan reconciliation snapshot plan) in
  map (λ g, (g.1, map (gridRow (plan_participants plan) returns (resultsOf reconciliation)) g.2)) (lineGroups (plan_lines plan)).

(** ** What the owner declared *)

Definition containerLines (plan : MeasurementPlan) : list CargoLine :=
  filterb (λ line : CargoLine, streq (category line) (js "Container") && truthy (containerSize line)) (plan_lines plan).
(** [Number(left) - Number(right)] *)
Definition bySize (left right : str) : Z :=
  match SFcompare (numberOfText left) (numberOfText right) with Some Lt => -1 | Some Gt => 1 | _ => 0 end.
Definition sheetSizes (plan : MeasurementPlan) : list str := sort_by bySize (uniq (map (λ line : CargoLine, containerSize line) (containerLines plan))).
Definition otherLines (plan : MeasurementPlan) : list CargoLine :=
  filterb (λ line : CargoLine, negb (streq (category line) (js "Container") && truthy (containerSize line))) (plan_lines plan).
Definition sheetReferences (plan : MeasurementPlan) : list str :=
  uniq (filterb truthy (map (λ line : CargoLine, baselineReference line) (plan_lines plan))).
Definition sheetCell (plan : MeasurementPlan) (size load : str) : option CargoLine :=
  findb (λ line : CargoLine, streq (containerSize line) size && streq (loadStatus line) load) (containerLines plan).
Definition addDeclared (sum : num) (line : option CargoLine) : num :=
  numAdd sum (match line ≫= λ l : CargoLine, manifestQuantity l with Some q => if truthy q then numberOfText q else numOfZ 0 | None => numOfZ 0 end).
Definition sizeTotal (plan : MeasurementPlan) (size : str) : num :=
  addDeclared (addDeclared (numOfZ 0) (sheetCell plan size (js "laden"))) (sheetCell plan size (js "empty")).
(** The lines the sheet shows: the matrix and the table under it. *)
Definition sheetShows (plan : MeasurementPlan) : list CargoLine :=
  flat_map (λ size, omap (sheetCell plan size) [js "laden"; js "empty"]) (sheetSizes plan) ++ otherLines plan.

(** ** The tariff form *)

(** The fields start from the tariff that is shown. *)
Definition openTariffForm (tariff : option VariationTariff) : VariationTariffInput :=
  match tariff with Some t => vt_input t | None => mkTariffInput USD [] [] end.
Definition typeRate (key value : str) (input : VariationTariffInput) : VariationTariffInput :=
  mkTariffInput (ti_currency input) (ti_reference input) (mset key value (ti_rates input)).
Definition typeReference (value : str) (input : VariationTariffInput) : VariationTariffInput :=
  mkTariffInput (ti_currency input) value (ti_rates input).
Definition chooseCurrency (c : Currency) (input : VariationTariffInput) : VariationTariffInput :=
  mkTariffInput c (ti_reference input) (ti_rates input).
Definition invalidRates (input : VariationTariffInput) : list TariffRateDefinition := filterb (invalidRate input) TARIFF_RATES.
Definition maySaveTariff (canEdit : bool) (input : VariationTariffInput) : bool :=
  canEdit && truthy (trim (ti_reference input)) && match invalidRates input with [] => true | _ => false end.
Definition submitTariff `{Host} (canEdit : bool) (user : option Actor) (orgId : option str) (input : VariationTariffInput) (now : str) (st : Storage)
    : option (result str (Storage * TariffState * VariationTariff)) :=
  match user with
  | Some actor => if maySaveTariff canEdit input then Some (saveTariff orgId input actor now st) else None
  | None => None
  end.

(** ** The agency directory's form *)

Record DirectoryForm := mkDirectoryForm { df_draft : AgencyChange; df_customRole : bool; df_notice : str; df_filter : str }.
Definition emptyDraft : AgencyChange := mkAgencyChange None [] (js "Agent") [] true None.
Definition openDirectoryForm : DirectoryForm := mkDirectoryForm emptyDraft false [] (js "active").
Definition directoryRows (filter : str) (agencies : list Agency) : list Agency :=
  filterb (λ item, streq filter (js "all") || Bool.eqb (sa_active item) (streq filter (js "active"))) agencies.
Definition knownRole (role : str) : bool := existsb (λ r : str * str, streq r.1 role) AGENCY_ROLES.
Definition draftOf (agency : Agency) : AgencyChange :=
  mkAgencyChange (Some (sa_id agency)) (sa_name agency) (sa_role agency) (sa_representative agency) (sa_active agency) (sa_version agency).
Definition editAgency (editable : bool) (agency : Agency) (f : DirectoryForm) : DirectoryForm :=
  if editable then mkDirectoryForm (draftOf agency) (negb (knownRole (sa_role agency))) [] (df_filter f) else f.
Definition withRole (role : str) (d : AgencyChange) : AgencyChange :=
  mkAgencyChange (ac_id d) (ac_name d) role (ac_representative d) (ac_active d) (ac_version d).
(** The select, whose last choice opens a field for the role. *)
Definition chooseDirectoryRole (value : str) (f : DirectoryForm) : DirectoryForm :=
  let custom := streq value (js "custom") in
  mkDirectoryForm (withRole (if custom then [] else value) (df_draft f)) custom (df_notice f) (df_filter f).
Definition typeCustomRole (value : str) (f : DirectoryForm) : DirectoryForm :=
  if df_customRole f then mkDirectoryForm (withRole value (df_draft f)) true (df_notice f) (df_filter f) else f.
(** What the browser requires of the inputs. *)
Definition directoryValid (f : DirectoryForm) : bool :=
  truthy (ac_name (df_draft f)) && (negb (df_customRole f) || truthy (ac_role (df_draft f))).
Definition submitDirectory (editable : bool) (orgId : option str) (f : DirectoryForm) (h : Hook) : DirectoryForm * Hook * option Call :=
  if negb editable || h_saving h || hookLoading h || negb (directoryValid f) then (f, h, None) else
  let '(h', call) := saveAgency orgId (df_draft f) h in
  (mkDirectoryForm (df_draft f) (df_customRole f) [] (df_filter f), h', call).
Definition directorySaved (saved : option Agency) (f : DirectoryForm) : DirectoryForm :=
  match saved with
  | Some a => mkDirectoryForm emptyDraft false (sa_name a ++ js " saved.") (df_filter f)
  | None => f
  end.
Definition cancelEditing (f : DirectoryForm) : DirectoryForm := mkDirectoryForm emptyDraft false [] (df_filter f).
Definition reactivate (orgId : option str) (agency : Agency) (h : Hook) : Hook * option Call :=
  saveAgency orgId (mkAgencyChange (Some (sa_id agency)) (sa_name agency) (sa_role agency) (sa_representative agency) true (sa_version agency)) h.

(** ** Lemmas: the groups of the comparison *)

(** The groups are the lines by label, labels and lines in the plan's order. *)
Lemma lineGroups_spec lines : lineGroups lines =
  map (λ label, (label, filterb (λ line, streq (groupLabel line) label) lines)) (uniq (map groupLabel lines)).
Proof. exact (group_by_spec groupLabel lines). Qed.

(** ** The list of voyages *)

(** Without filters, and given that lower case of nothing is nothing, every voyage is listed once. *)
Lemma visible_all `{Host} isLetter voyages : toLocaleLowerCase [] = [] → visibleVoyages isLetter voyages [] (js "all") [] ≡ₚ voyages.
Proof.
  intros Hl. unfold visibleVoyages. change (trim []) with (@nil N). rewrite Hl, filterb_all; [apply sort_by_perm|].
  intros v _. unfold voyageShown, stageShown. by rewrite streq_refl.
Qed.
(** Each step filter but "all" and "open" is one of the seven groups of stages; a voyage with
    nothing to charge is in none of them, and any other in exactly one. *)
Lemma stage_filters_divide stage :
  length (filterb (λ status, stageShown status stage) (drop 2 STAGE_FILTERS)) = (if decide (stage = g_no_charge) then 0%nat else 1%nat)
  ∧ stageShown (js "all") stage = true
  ∧ stageShown (js "open") stage = negb (bool_decide (stage ∈ [g_no_charge; g_cancelled])).
Proof. by destruct stage; vm_compute. Qed.
(** The button of a row names the page it leads to: two rows of one voyage, in whatever state and
    for whatever user, whose buttons say the same lead to the same page - unless they only say
    "Open". *)
Lemma action_names_page v v' canManage canManage' : vs_callId v = vs_callId v' → actionFor v canManage ≠ js "Open" →
  actionFor v canManage = actionFor v' canManage' → nextStepPath v canManage = nextStepPath v' canManage'.
Proof.
  intros Hid. unfold nextStepPath, actionFor. rewrite Hid.
  destruct (vs_stage v), (vs_stage v'), (Nat.eqb (length (vs_plans v)) 0), (Nat.eqb (length (vs_plans v')) 0), canManage, canManage';
    cbn [negb andb]; intros Hopen Hsame; try (exfalso; apply Hopen; reflexivity); try exact eq_refl;
    exfalso; revert Hsame; apply streq_false; vm_compute; reflexivity.
Qed.
(** The stepper offers the form that records a declaration to everybody, the list only to those
    who may use it; the page behind the link then turns the others away. *)
Lemma stepper_ignores_permission voyage : vs_plans voyage = [] → vs_stage voyage = g_declaration →
  stepHref voyage p_declaration = js "/app/measurements/new?callId=" ++ encodeURIComponent (vs_callId voyage) ∧
  nextStepPath voyage false = voyagePath (vs_callId voyage) p_declaration.
Proof. intros Hp Hs. unfold stepHref, nextStepPath. rewrite Hp, Hs. split; reflexivity. Qed.

(** ** The comparison *)

Lemma map_group_lines f (groups : list (str * list CargoLine)) : (∀ l, gr_line (f l) = l) →
  map gr_line (flat_map snd (map (λ g : str * list CargoLine, (g.1, map f g.2)) groups)) = flat_map snd groups.
Proof.
  intros Hf. induction groups as [|g groups IH]; [done|]. cbn [map flat_map snd]. rewrite map_app, IH. f_equal.
  rewrite map_map. rewrite (map_ext _ id) by done. apply map_id.
Qed.
(** The comparison shows every cargo line of the sheet exactly once, whatever its cargo and
    direction: the groups have different headings, and each has the lines of its heading, in
    the sheet's order. *)
Theorem comparison_complete plan reconciliation snapshot : let grid := comparisonGrid plan reconciliation snapshot in
  map gr_line (flat_map snd grid) ≡ₚ plan_lines plan ∧ NoDup grid.*1 ∧
  ∀ label rows, (label, rows) ∈ grid → rows ≠ [] ∧
    map gr_line rows = filterb (λ line, streq (groupLabel line) label) (plan_lines plan).
Proof.
  intros grid. unfold grid, comparisonGrid. rewrite lineGroups_spec. set (row := gridRow _ _ _).
  assert (Hrow : ∀ l, gr_line (row l) = l) by done. clearbody row. split_and!.
  - rewrite map_group_lines by done. rewrite <- (lineGroups_spec (plan_lines plan)). apply (group_by_perm groupLabel).
  - assert (Hd : ∀ l : list (str * list GridRow), l.*1 = map fst l) by done. rewrite Hd, !map_map. cbn [fst]. rewrite map_id. apply NoDup_uniq.
  - intros label rows Hin. rewrite map_map in Hin. apply list_elem_of_fmap in Hin as (k & [= -> ->] & Hk). split.
    + intros He%map_eq_nil. apply elem_of_uniq, list_elem_of_fmap in Hk as (l & -> & Hl).
      assert (Hc : l ∈ filterb (λ line, streq (groupLabel line) (groupLabel l)) (plan_lines plan)) by (apply elem_of_filterb; auto with vessel).
      rewrite He in Hc. by apply elem_of_nil in Hc.
    + rewrite map_map. rewrite (map_ext _ id) by done. apply map_id.
Qed.

(** The sheet after more readings, and with other declared quantities. *)
Definition redeclared (q : str → option str) (line : CargoLine) : CargoLine :=
  mkCargoLine (mkCargoLineInput (description line) (category line) (direction line) (containerSize line) (loadStatus line)
    (unit_ line) (basis line) (q (line_id line)) (baselineReference line)) (line_id line).
Definition laterPlan (q : str → option str) (more : list Submission) (plan : MeasurementPlan) : MeasurementPlan :=
  mkPlan (plan_callId plan) (plan_title plan) (plan_scheduledAt plan) (plan_endsAt plan) (plan_location plan) (plan_method plan)
    (plan_stage plan) (plan_scope plan) (plan_leadSurveyor plan) (plan_notes plan) (plan_id plan) (plan_vesselName plan)
    (plan_callReference plan) (plan_version plan) (plan_status plan) (plan_createdBy plan) (plan_participants plan)
    (map (redeclared q) (plan_lines plan)) (plan_submissions plan ++ more) (plan_reconciliations plan) (plan_assessments plan)
    (plan_evidence plan).
(** What a row prints: all of it but the sheet's own quantity. *)
Definition printedRow (r : GridRow) : GridRow :=
  mkGridRow (redeclared (λ _, None) (gr_line r)) (gr_declared r) (gr_cells r) (gr_selected r) (gr_difference r) (gr_remark r)
    (gr_status r) (gr_label r).
Definition printedGrid (grid : list (str * list GridRow)) : list (str * list GridRow) := map (λ g, (g.1, map printedRow g.2)) grid.
Lemma snapshot_later q more plan r : (∀ s, s ∈ more → sub_id s ∉ rec_submissionIds r) →
  snapshotPlan (Some r) true (laterPlan q more plan) = snapshotPlan (Some r) true plan.
Proof.
  intros Hm. unfold snapshotPlan, laterPlan. cbn [plan_submissions]. rewrite filterb_app, (filterb_none _ more), app_nil_r; [done|].
  intros s Hs. apply existsb_false. intros x Hx. apply streq_false. intros <-. by apply (Hm s).
Qed.
Lemma gridRow_later q participants returns results line : is_Some (mget (line_id line) results) →
  printedRow (gridRow participants returns results (redeclared q line)) = printedRow (gridRow participants returns results line).
Proof. intros [res Hr]. unfold gridRow. cbn [redeclared line_id]. by rewrite Hr. Qed.
Lemma filterb_redeclared q (label : str) lines :
  filterb (λ line, streq (groupLabel line) label) (map (redeclared q) lines) =
    map (redeclared q) (filterb (λ line, streq (groupLabel line) label) lines).
Proof.
  induction lines as [|l lines IH]; [done|]. cbn [map filterb]. rewrite IH.
  change (groupLabel (redeclared q l)) with (groupLabel l). by destruct (streq (groupLabel l) label).
Qed.

(** A recorded reconciliation is compared as it was recorded: the readings that arrive later
    and the quantities the sheet is given later change nothing of what its comparison prints,
    so long as the reconciliation has a result for every line. *)
Theorem recorded_comparison_stays q more plan r (Hmore : ∀ s, s ∈ more → sub_id s ∉ rec_submissionIds r)
    (Hlines : ∀ l, l ∈ plan_lines plan → is_Some (mget (line_id l) (resultsOf (Some r)))) :
  printedGrid (comparisonGrid (laterPlan q more plan) (Some r) true) = printedGrid (comparisonGrid plan (Some r) true).
Proof.
  unfold printedGrid, comparisonGrid. rewrite (snapshot_later q more plan r Hmore), !lineGroups_spec.
  cbn [laterPlan plan_lines plan_participants]. rewrite !map_map. cbn [fst snd].
  rewrite (map_ext (λ x, groupLabel (redeclared q x)) groupLabel) by done. apply map_ext. intros label.
  f_equal. rewrite filterb_redeclared, !map_map. apply map_ext_in. intros l [Hl _]%list_elem_of_In%elem_of_filterb.
  by apply gridRow_later, Hlines.
Qed.

(** ** What the owner declared *)

Definition sheetKey (line : CargoLine) : str * str := (containerSize line, loadStatus line).
Lemma sheetCell_line plan (line : CargoLine) : NoDup (map sheetKey (containerLines plan)) → line ∈ containerLines plan →
  sheetCell plan (containerSize line) (loadStatus line) = Some line.
Proof.
  intros Hn Hl. unfold sheetCell. destruct (findb _ _) as [l|] eqn:E.
  - apply findb_Some in E as [Hin [Hs%streq_true Hd%streq_true]%andb_true_iff]. f_equal.
    apply (NoDup_map_inj sheetKey (containerLines plan)); [done..|]. unfold sheetKey. congruence.
  - exfalso. pose proof (proj1 (findb_None _ _) E line Hl) as Hf. cbn in Hf. by rewrite !streq_refl in Hf.
Qed.
(** Every line is on the sheet, when no two containers of it have one size and load and each is
    laden or empty; the voyage setup makes only such sheets. *)
Lemma sheet_complete plan (line : CargoLine) : NoDup (map sheetKey (containerLines plan)) →
  (∀ l : CargoLine, l ∈ containerLines plan → loadStatus l ∈ [js "laden"; js "empty"]) → line ∈ plan_lines plan → line ∈ sheetShows plan.
Proof.
  intros Hn Hload Hl. unfold sheetShows. apply elem_of_app.
  destruct (streq (category line) (js "Container") && truthy (containerSize line)) eqn:E; [left|right; apply elem_of_filterb; by rewrite E].
  assert (Hc : line ∈ containerLines plan) by (apply elem_of_filterb; auto).
  apply list_elem_of_In, in_flat_map. exists (containerSize line). split.
  - apply list_elem_of_In. unfold sheetSizes. rewrite elem_of_sort_by, elem_of_uniq. apply list_elem_of_fmap. eauto.
  - apply list_elem_of_In, list_elem_of_omap. exists (loadStatus line). split; [by apply Hload|by apply sheetCell_line].
Qed.

(** ** The tariff *)

(** What the form lets Finance save is saved. *)
Lemma tariff_form_saves `{Host} canEdit actor orgId input now st : maySaveTariff canEdit input = true →
  tariffStorageKey orgId ≠ None → writeError st = None →
  ∃ st' state t, submitTariff canEdit (Some actor) orgId input now st = Some (Ok (st', state, t)) ∧
    ts_tariff state = Some t ∧ ti_currency t = ti_currency input ∧ ti_reference t = trim (ti_reference input).
Proof.
  intros Hm Hk Hw. unfold submitTariff. rewrite Hm. unfold maySaveTariff in Hm.
  apply andb_true_iff in Hm as [[_ Hr]%andb_true_iff Hi]. unfold saveTariff. destruct (tariffStorageKey orgId) as [key|]; [|done].
  unfold truthy in Hr. apply negb_true_iff in Hr. rewrite Hr.
  assert (Hf : findb (invalidRate input) TARIFF_RATES = None).
  { apply findb_None. intros rate Hin. destruct (invalidRate input rate) eqn:E; [|done].
    assert (Hx : rate ∈ invalidRates input) by (by apply elem_of_filterb).
    destruct (invalidRates input); [by apply elem_of_nil in Hx|done]. }
  rewrite Hf. cbn [throw_if rbind]. unfold setItem. rewrite Hw. cbn [rbind]. eauto 8.
Qed.

(** ** Witness *)

Definition lateReading : Submission := sampleSubmission (js "s3") 3 (js "2000").
Lemma recorded_comparison_stays_witness :
  printedGrid (comparisonGrid (laterPlan (λ _, Some (js "9")) [lateReading] (samplePlan [sampleSubmission (js "s2") 2 (js "1012.4")] [])) (Some (sampleRecon agreed)) true)
  = printedGrid (comparisonGrid (samplePlan [sampleSubmission (js "s2") 2 (js "1012.4")] []) (Some (sampleRecon agreed)) true).
Proof.
  apply recorded_comparison_stays.
  - intros s Hs%list_elem_of_singleton. subst s. apply (bool_decide_eq_true_1 (sub_id lateReading ∉ rec_submissionIds (sampleRecon agreed))).
    vm_compute. reflexivity.
  - intros l Hl%list_elem_of_singleton. subst l. vm_compute. eexists. reflexivity.
Defined.
