(* ===== verification/ActivityDashboard.v ===== *)
(** * The dashboard (frontend/src/screens/ActivityDashboard.tsx)

    The work that waits for a user, in order of urgency, what each voyage needs, the tiles that
    count the voyages at each step, the links that are about to expire, the recent activity and
    the setup checklist.  Dates and amounts in the reader's locale are the browser's. *)
From Stdlib Require Import SpecFloat.
From S2P Require Import Prelude JsString Json Host AppTypes AuthContext MeasurementTypes Samples Helpers Uri CloseoutTypes VoyageStatus AgencyTracker Endpoints Routing.

Record DashboardAccess := mkAccess { da_manage : bool; da_approve : bool; da_bill : bool }.
Definition accessOf (v : View) : DashboardAccess :=
  mkAccess (can (js "measurements.manage") v) (can (js "measurements.approve") v) (can (js "measurements.bill") v).

Inductive TileKey := k_declaration | k_collecting | k_reconcile | k_approval | k_invoices | k_review.
#[export] Instance TileKey_eq : EqDecision TileKey. Proof. solve_decision. Defined.
Record Tile := mkTile { ti_key : TileKey; ti_label : str; ti_stages : list VoyageStage }.
Definition TILES : list Tile := [
  mkTile k_declaration (js "Declarations to record") [g_declaration];
  mkTile k_collecting (js "Agency readings outstanding") [g_collecting];
  mkTile k_reconcile (js "Ready to reconcile") [g_ready; g_returned];
  mkTile k_approval (js "Awaiting approval") [g_approval];
  mkTile k_invoices (js "Invoices to complete") [g_invoice; g_draft; g_held];
  mkTile k_review (js "Overpayment reviews") [g_review]].
(** Money and second-review items first, then the work that unblocks them. *)
Definition PRIORITY : list VoyageStage :=
  [g_review; g_held; g_approval; g_returned; g_ready; g_invoice; g_draft; g_collecting; g_declaration].
Definition stageIn (stages : list VoyageStage) (voyage : VoyageSummary) : bool := bool_decide (vs_stage voyage ∈ stages).
(** [PRIORITY.indexOf(stage)] *)
Fixpoint indexOf (stage : VoyageStage) (l : list VoyageStage) (i : Z) : Z :=
  match l with [] => -1 | s :: l => if bool_decide (s = stage) then i else indexOf stage l (i + 1) end.
Definition urgency (voyage : VoyageSummary) : Z := indexOf (vs_stage voyage) PRIORITY 0.

(** [list.slice(0, 2).join(", ")] and how many more. *)
Definition names (l : list str) : str :=
  join (js ", ") (take 2 l) ++ (if (2 <? length l)%nat then js " and " ++ printZ (Z.of_nat (length l) - 2) ++ js " more" else []).
Definition linesText (count : Z) : str := printZ count ++ cSpace :: (if count =? 1 then js "line" else js "lines").
Definition differ (count : Z) : str := if count =? 1 then js "differs" else js "differ".
Definition quoted (s : str) : str := js "“" ++ s ++ js "”".
Definition undefinedOr (s : option str) : str := default (js "undefined") s.

Section Dashboard.
Context `{Host}.
(** The locale: [dateLabel], a short day, an amount with two decimals. *)
Variable dateLabel : str → str.
Variable shortDay : str → str.
Variable amountText : str → str.

(** [Date.parse(value ?? "") || 0] *)
Definition timeOr0 (value : option str) : Z := timeOf (default [] value).

(** ** My work *)

Definition viewOnly (access : DashboardAccess) : bool := negb (da_manage access) && negb (da_approve access) && negb (da_bill access).
Definition actionable (access : DashboardAccess) (voyage : VoyageSummary) : bool :=
  stageIn PRIORITY voyage
  && (viewOnly access
      || (da_manage access && stageIn [g_declaration; g_collecting; g_ready; g_returned] voyage)
      || (da_approve access && stageIn [g_approval] voyage)
      || (da_bill access && stageIn [g_invoice; g_draft; g_held; g_review] voyage)).
Definition byUrgency (left right : VoyageSummary) : Z :=
  let d := urgency left - urgency right in
  if d =? 0 then timeOr0 (vs_lastActivityAt left) - timeOr0 (vs_lastActivityAt right) else d.
Definition myWork (voyages : list VoyageSummary) (access : DashboardAccess) : list VoyageSummary :=
  sort_by byUrgency (filterb (actionable access) voyages).

(** The rows of the queue: the user's work, or every voyage of the chosen tile. *)
Definition tileRows (voyages : list VoyageSummary) (tile : Tile) : list VoyageSummary :=
  sort_by (λ left right, urgency left - urgency right) (filterb (stageIn (ti_stages tile)) voyages).
Definition queueRows (voyages : list VoyageSummary) (access : DashboardAccess) (tile : option Tile) : list VoyageSummary :=
  match tile with Some t => tileRows voyages t | None => myWork voyages access end.
Definition tileCount (voyages : list VoyageSummary) (tile : Tile) : nat := length (filterb (stageIn (ti_stages tile)) voyages).
(** A tile pressed again shows one's own work. *)
Definition pressTile (key : TileKey) (current : option TileKey) : option TileKey :=
  if bool_decide (current = Some key) then None else Some key.

(** ** What a voyage needs *)

Definition arrivesLater (now : Z) (arrival : str) : bool := match dateParse arrival with Some t => now <? t | None => false end.
Record Need := mkNeed { nd_need : str; nd_action : str }.
Definition voyageNeed (now : Z) (voyage : VoyageSummary) (linkExpiry : option str) : Need :=
  let differing unit_ := linesText (vs_differingLines voyage) ++ cSpace :: differ (vs_differingLines voyage) ++ js unit_ in
  match vs_stage voyage with
  | g_declaration =>
    if negb (Nat.eqb (length (vs_plans voyage)) 0)
    then mkNeed (js "Declared quantity missing for " ++ names (vs_missingDeclarations voyage)) (js "Review declaration")
    else mkNeed (if truthy (vs_arrival voyage)
                 then (if arrivesLater now (vs_arrival voyage) then js "Arrives" else js "Arrived") ++ cSpace :: dateLabel (vs_arrival voyage)
                        ++ js " · owner declaration not recorded"
                 else js "Owner declaration not recorded") (js "Record declaration")
  | g_collecting =>
    mkNeed ((match vs_pendingAgencies voyage with [] => js "Readings incomplete" | l => js "Waiting for " ++ names l end)
              ++ js " · " ++ printZ (vs_received voyage) ++ js " of " ++ printZ (vs_expected voyage) ++ js " in"
              ++ (match linkExpiry with Some e => if truthy e then js " · a link expires " ++ dateLabel e else [] | None => [] end))
      (js "Chase readings")
  | g_ready =>
    mkNeed (js "All readings in · " ++ (if vs_differingLines voyage =? 0 then js "every line matches the declaration"
                                        else differing " from the paid declaration"%string)) (js "Reconcile")
  | g_returned =>
    mkNeed (js "Returned by " ++ default (js "the reviewer") (actor_name <$> (vs_returned voyage ≫= rep_returnedBy)) ++ js ": "
              ++ quoted (default [] (vs_returned voyage ≫= rep_returnComment))) (js "Revise")
  | g_approval =>
    mkNeed (js "Version " ++ undefinedOr ((λ r, printZ (rep_revision r)) <$> vs_pending voyage) ++ js " prepared by "
              ++ default (js "NPA") (actor_name <$> (vs_pending voyage ≫= rep_preparedBy)) ++ js " · "
              ++ (if vs_differingLines voyage =? 0 then js "all lines agree" else differing " from the declaration"%string)) (js "Review and approve")
  | g_invoice => mkNeed (js "Final quantities approved · invoice details needed") (js "Complete invoice")
  | g_draft =>
    mkNeed (undefinedOr (inv_number <$> vs_invoice voyage) ++ js " drafted · " ++ undefinedOr (currency_lit ∘ inv_currency <$> vs_invoice voyage)
              ++ cSpace :: amountText (default (js "0") (inv_total <$> vs_invoice voyage)) ++ js " for additional load") (js "Review invoice")
  | g_review =>
    mkNeed (names (match vs_invoice voyage with
                   | Some i => map il_description (filterb (λ l, bool_decide (il_status l = ls_overpayment)) (inv_lines i))
                   | None => []
                   end) ++ js " below the paid declaration · no credit created automatically") (js "Open review")
  | g_held => mkNeed (js "Billing on hold: an earlier charge exceeds what is now due") (js "Review hold")
  | stage => mkNeed (STAGE_LABELS stage) (js "Open")
  end.

(** How long it has waited, and whether that is urgent. *)
Definition waiting (now : Z) (voyage : VoyageSummary) : str * bool :=
  if bool_decide (vs_stage voyage = g_declaration) && Nat.eqb (length (vs_plans voyage)) 0 && truthy (vs_arrival voyage)
     && arrivesLater now (vs_arrival voyage)
  then (js "ETA " ++ shortDay (vs_arrival voyage), default 0 (dateParse (vs_arrival voyage)) - now <? 2 * DAY)
  else match daysSince (vs_lastActivityAt voyage) now with
       | None => (js "—", false)
       | Some days => (if days =? 0 then js "Today" else printZ days ++ cSpace :: (if days =? 1 then js "day" else js "days"), 5 <=? days)
       end.

(** ** Links that expire soon *)

(** The sheets whose links are read: those of voyages still collecting, twelve at most. *)
Definition collectingPlans (voyages : list VoyageSummary) : list MeasurementPlan :=
  take 12 (flat_map vs_plans (filterb (stageIn [g_collecting]) voyages)).
Definition openLink (now : Z) (link : AgencyLinkInfo) : bool :=
  negb (given (lk_revokedAt link)) && negb (given (lk_submittedAt link)) && arrivesLater now (lk_expiresAt link).
(** [.sort()[0]] on the texts *)
Definition soonestExpiry (now : Z) (links : list AgencyLinkInfo) : option str :=
  head (sort_by cmpUnits (map lk_expiresAt (filterb (openLink now) links))).
Definition noteExpiry (now : Z) (m : list (str * str)) (read : MeasurementPlan * option (list AgencyLinkInfo)) : list (str * str) :=
  match read.2 ≫= soonestExpiry now with
  | Some soonest =>
      match dateParse soonest with
      | Some t => if truthy soonest && (t - now <? 3 * DAY) then mset (plan_callId read.1) soonest m else m
      | None => m
      end
  | None => m
  end.
(** The sheets with what was read of their links. *)
Definition expiryByCall (now : Z) (reads : list (MeasurementPlan * option (list AgencyLinkInfo))) : list (str * str) :=
  foldl (noteExpiry now) [] reads.

(** ** Recent activity *)

Definition EVENT_TITLES (a : PreviewEventAction) : str :=
  match a with
  | report_submitted => js "Final quantities sent for approval"
  | report_returned => js "Final quantities returned for changes"
  | report_approved => js "Final quantities approved"
  | invoice_drafted => js "Variation invoice drafted"
  | no_charge_recorded => js "No additional charge recorded"
  | overpayment_flagged => js "Overpayment flagged for review"
  | billing_held => js "Variation held for review"
  end.
Record ActivityEntry := mkActivity { ac_id : str; ac_callId : str; ac_at : str; ac_title : str; ac_who : str; ac_href : str }.
Definition submissionEntry (plan : MeasurementPlan) (s : Submission) : ActivityEntry :=
  let agency := default (js "An agency") (party_name <$> findb (λ p, streq (party_id p) (sub_participantId s)) (plan_participants plan)) in
  mkActivity (js "s:" ++ sub_id s) (plan_callId plan) (sub_recordedAt s)
    (agency ++ js " submitted a reading" ++ (if 1 <? sub_revision s then js " (revision " ++ printZ (sub_revision s) ++ js ")" else []))
    (match sub_recordedBy s with Some a => js "entered by " ++ actor_name a | None => js "via secure link" end)
    (voyagePath (plan_callId plan) p_readings).
Definition eventEntry (e : PreviewEvent) : ActivityEntry :=
  mkActivity (js "e:" ++ pe_id e) (pe_callId e) (pe_at e) (EVENT_TITLES (pe_action e)) (actor_name (pe_actor e))
    (voyagePath (pe_callId e) (if startsWith (js "report") (eventAction_lit (pe_action e)) then p_readings else p_variation_invoice)).
Definition recentActivity (plans : list MeasurementPlan) (records : list CloseoutRecord) : list ActivityEntry :=
  sort_by (λ left right, timeOf (ac_at right) - timeOf (ac_at left))
    (flat_map (λ plan, map (submissionEntry plan) (plan_submissions plan)) plans
     ++ flat_map (λ r, map eventEntry (cr_events r)) records).
Definition shownActivity (plans : list MeasurementPlan) (records : list CloseoutRecord) : list ActivityEntry :=
  take 6 (recentActivity plans records).

Definition greeting (hour : Z) : str :=
  if hour <? 12 then js "Good morning" else if hour <? 17 then js "Good afternoon" else js "Good evening".

(** ** The setup checklist *)

Record SetupItem := mkSetupItem { si_done : bool; si_label : str; si_href : str; si_show : bool }.
Definition setupItems (v : View) (activeAgency : bool) (teamSize : option Z) (calls plans : nat) (tariff : bool) : list SetupItem :=
  filterb si_show [
    mkSetupItem activeAgency (js "Add the agencies that report readings") (js "/app/settings/agencies") true;
    mkSetupItem (1 <? default 0 teamSize) (js "Invite your team") (js "/app/users") (can (js "users.view") v);
    mkSetupItem (0 <? calls)%nat (js "Register a vessel voyage") (js "/app/vessel-calls?register") (can (js "registerCall") v);
    mkSetupItem (0 <? plans)%nat (js "Record the first paid declaration") (js "/app/measurements/new") (can (js "measurements.manage") v);
    mkSetupItem tariff (js "Set the variation tariff rates") (js "/app/settings/tariffs") (can (js "measurements.bill") v)].
Definition setupDone (items : list SetupItem) : nat := length (filterb si_done items).
(** The checklist, unless everything is done or the directory is still being read. *)
Definition setupChecklist (items : list SetupItem) (loading : bool) : option (list SetupItem * nat) :=
  if Nat.eqb (length items) 0 || Nat.eqb (setupDone items) (length items) || loading then None else Some (items, setupDone items).
End Dashboard.

(** ** Lemmas: urgency *)

Section Work.
Context `{Host}.

Lemma byUrgency_flip a b : 0 < byUrgency a b → byUrgency b a <= 0.
Proof. unfold byUrgency. destruct (Z.eqb_spec (urgency a - urgency b) 0), (Z.eqb_spec (urgency b - urgency a) 0); lia. Qed.
Lemma elem_of_myWork voyage voyages access : voyage ∈ myWork voyages access ↔ voyage ∈ voyages ∧ actionable access voyage = true.
Proof. unfold myWork. by rewrite elem_of_sort_by, elem_of_filterb. Qed.
Lemma stageIn_stage stages v w : vs_stage v = vs_stage w → stageIn stages v = stageIn stages w.
Proof. unfold stageIn. by intros ->. Qed.

(** ** What the queue shows *)

(** Work is shared out: a voyage that is neither cancelled nor closed without a charge waits
    for the holders of exactly one of the three permissions, and is counted by exactly one
    tile; the others are nobody's work and in no tile. *)
Definition holders : list DashboardAccess := [mkAccess true false false; mkAccess false true false; mkAccess false false true].
Lemma work_shared_out voyage :
  let open := if decide (vs_stage voyage = g_no_charge ∨ vs_stage voyage = g_cancelled) then 0%nat else 1%nat in
  length (filterb (λ access, actionable access voyage) holders) = open ∧
  length (filterb (λ tile, stageIn (ti_stages tile) voyage) TILES) = open ∧
  (∀ access, viewOnly access = false → actionable access voyage =
     existsb (λ holder, actionable holder voyage
       && ((da_manage holder && da_manage access) || (da_approve holder && da_approve access) || (da_bill holder && da_bill access))) holders).
Proof.
  assert (Hs : ∀ stages, stageIn stages voyage = bool_decide (vs_stage voyage ∈ stages)) by done.
  unfold actionable, holders, TILES. cbn [filterb existsb ti_stages da_manage da_approve da_bill viewOnly negb andb orb]. rewrite !Hs.
  destruct (vs_stage voyage); (split_and!; [by vm_compute|by vm_compute|]); intros [[] [] []] Hv; try done; vm_compute; reflexivity.
Qed.

Lemma tile_counts_length voyages tiles : foldr (λ tile n, (tileCount voyages tile + n)%nat) 0%nat tiles =
  foldr (λ voyage n, (length (filterb (λ tile, stageIn (ti_stages tile) voyage) tiles) + n)%nat) 0%nat voyages.
Proof.
  induction tiles as [|tile tiles IH]; cbn [foldr].
  - induction voyages as [|w ws IHw]; [done|]. exact IHw.
  - rewrite IH. clear IH. unfold tileCount. induction voyages as [|w ws IHw]; [done|]. cbn [foldr filterb] in IHw |- *.
    destruct (stageIn (ti_stages tile) w); cbn [length]; lia.
Qed.
(** The numbers on the tiles add up to the number of open voyages. *)
Lemma tiles_add_up voyages : foldr (λ tile n, (tileCount voyages tile + n)%nat) 0%nat TILES =
  length (filterb (λ v, negb (stageIn [g_no_charge; g_cancelled] v)) voyages).
Proof.
  rewrite tile_counts_length. induction voyages as [|w ws IH]; [done|]. cbn [foldr filterb]. rewrite IH.
  destruct (work_shared_out w) as (_ & Ht & _). cbv zeta in Ht. rewrite Ht. unfold stageIn.
  destruct (vs_stage w); reflexivity.
Qed.
End Work.

(** ** Lemmas: where the work is done *)

Lemma encode_nonempty s : s ≠ [] → encodeURIComponent s ≠ [].
Proof.
  destruct s as [|c s]; [done|]. intros _. unfold encodeURIComponent.
  assert (Hc : codePoints (c :: s) ≠ []) by (cbn; repeat case_match; done).
  destruct (codePoints (c :: s)) as [|p ps]; [done|]. cbn [flat_map].
  assert (Hu : utf8 p ≠ []) by (unfold utf8; repeat case_match; done).
  destruct (utf8 p) as [|b bs]; [done|]. cbn [app flat_map]. unfold encodeByte. by destruct (isUnreserved b).
Qed.
Lemma voyagePath_segments callId step :
  split cSlash (voyagePath callId step) = [[]; js "app"; js "measurements"; js "voyages"; encodeURIComponent callId; step_lit step].
Proof.
  assert (Hp : voyagePath callId step = pathText [Lit "app"; Lit "measurements"; Lit "voyages"; Enc callId;
    Lit match step with p_declaration => "declaration" | p_agencies => "agencies" | p_readings => "readings" | p_variation_invoice => "variation-invoice" end]).
  { by destruct step. }
  rewrite Hp, pathText_split; [by destruct step|]. repeat constructor. by destruct step.
Qed.

(** The page of each step. *)
Definition stepPage (step : VoyageStep) : Page :=
  match step with
  | p_declaration => VoyageDeclaration | p_agencies => VoyageAgencies | p_readings => VoyageReadings | p_variation_invoice => VariationInvoice
  end.
Lemma voyage_screen v callId step : callId ≠ [] →
  App patternMatches ld_ready v (voyagePath callId step) = CustomerRoute v (SecureScreen v "measurements.view" (stepPage step)).
Proof.
  intros Hc%encode_nonempty. unfold App, appRoutes, Workspace, WorkspaceRoutes, switch, patternMatches. rewrite voyagePath_segments.
  destruct (encodeURIComponent callId) as [|c e]; [done|]. by destruct step.
Qed.
Lemma new_sheet_screen v : App patternMatches ld_ready v (js "/app/measurements/new") =
  CustomerRoute v (SecureScreen v "measurements.manage" NewMeasurement).
Proof. reflexivity. Qed.

(** The path of a link, without its query. *)
Definition pathnameOf (location : str) : str := match split 63%N location with p :: _ => p | [] => [] end.
Definition nextStep (stage : VoyageStage) : VoyageStep :=
  match stage with
  | g_declaration => p_declaration | g_collecting => p_agencies
  | g_ready | g_approval | g_returned | g_cancelled => p_readings | _ => p_variation_invoice
  end.
Definition undeclared (voyage : VoyageSummary) : bool :=
  bool_decide (vs_stage voyage = g_declaration) && Nat.eqb (length (vs_plans voyage)) 0.
Lemma pathnameOf_voyage callId step : pathnameOf (voyagePath callId step) = voyagePath callId step.
Proof.
  unfold pathnameOf. rewrite split_none; [done|]. unfold voyagePath. rewrite !elem_of_app. intros [Hc|[Hc|Hc]].
  - revert Hc. apply (bool_decide_unpack (63%N ∉ js "/app/measurements/voyages/")). by vm_compute.
  - revert Hc. apply encode_no_delimiter; [|done]. apply (bool_decide_unpack (63%N ∈ js "/?#&=:% ")). by vm_compute.
  - revert Hc. apply (bool_decide_unpack (63%N ∉ cSlash :: step_lit step)). by destruct step.
Qed.
Lemma pathnameOf_next voyage canCreate : pathnameOf (nextStepPath voyage canCreate) =
  if undeclared voyage && canCreate then js "/app/measurements/new" else voyagePath (vs_callId voyage) (nextStep (vs_stage voyage)).
Proof.
  unfold nextStepPath, undeclared. destruct (vs_stage voyage); cbn [nextStep]; try apply pathnameOf_voyage.
  rewrite bool_decide_eq_true_2 by done. cbn [andb]. destruct (_ && _); [|apply pathnameOf_voyage]. reflexivity.
Qed.
(** The library's matcher agrees with the segment-by-segment one on the links of a voyage. *)
Definition voyageRouterLaw (matches : str → str → bool) : Prop :=
  agreesAt matches (js "/app/measurements/new") ∧ ∀ callId step, callId ≠ [] → agreesAt matches (voyagePath callId step).

Section Opens.
Context `{Host}.
#[local] Opaque js.

(** A secured page of the workspace, to a member. *)
Lemma member_secure v permission page : signedIn v → v_platformAccess v = None → userEnrollmentRequired v = false →
  CustomerRoute v (SecureScreen v permission page) = if can (js permission) v then shows page else redirects (js "/app").
Proof.
  intros Hs Hp He. unfold CustomerRoute, SecureScreen. by rewrite !(protected_in _ _ _ _ Hs), Hp, He.
Qed.
(** Where the link of a row leads a member who may see measurements. *)
Lemma row_leads matches v voyage : voyageRouterLaw matches → signedIn v → v_platformAccess v = None →
  userEnrollmentRequired v = false → can (js "measurements.view") v = true → vs_callId voyage ≠ [] →
  App matches ld_ready v (pathnameOf (nextStepPath voyage true)) =
    if undeclared voyage then (if can (js "measurements.manage") v then shows NewMeasurement else redirects (js "/app"))
    else shows (stepPage (nextStep (vs_stage voyage))).
Proof.
  intros [Hnew Hstep] Hs Hp He Hv Hid. rewrite pathnameOf_next, andb_true_r. destruct (undeclared voyage).
  - rewrite App_at by done. by rewrite new_sheet_screen, member_secure.
  - rewrite App_at by auto. by rewrite voyage_screen, member_secure, Hv.
Qed.

(** C16. Where the button of every voyage in a member's work leads, whoever the member is: to
    the page of its next step - the form for a declaration that is missing, otherwise the
    voyage's declaration, agencies, readings or variation invoice - for everyone who
    prepares, approves or bills, and for the rest too but for a voyage without a
    declaration: a member who may only look is given it as work, and led back to the
    dashboard. *)
Theorem work_opens (matches : str → str → bool) (v : View) voyages voyage
    (Hrouter : voyageRouterLaw matches) (Hsigned : signedIn v) (Hmember : v_platformAccess v = None)
    (Henrolled : userEnrollmentRequired v = false) (Hview : can (js "measurements.view") v = true)
    (Hwork : voyage ∈ myWork voyages (accessOf v)) (Hid : vs_callId voyage ≠ []) :
  App matches ld_ready v (pathnameOf (nextStepPath voyage true)) =
    if undeclared voyage
    then if viewOnly (accessOf v) then redirects (js "/app") else shows NewMeasurement
    else shows (stepPage (nextStep (vs_stage voyage))).
Proof.
  rewrite (row_leads matches v voyage Hrouter Hsigned Hmember Henrolled Hview Hid). destruct (undeclared voyage) eqn:Eu; [|reflexivity].
  apply andb_true_iff in Eu as [Es%bool_decide_eq_true _]. apply elem_of_myWork in Hwork as [_ Ha].
  unfold actionable in Ha. destruct (viewOnly (accessOf v)) eqn:Ev.
  - unfold viewOnly in Ev. rewrite !andb_true_iff, !negb_true_iff in Ev. destruct Ev as [[Hm _] _].
    unfold accessOf in Hm. cbn in Hm. by rewrite Hm.
  - unfold stageIn in Ha. rewrite Es in Ha. cbn in Ha.
    destruct (can (js "measurements.manage") v); [done|]. cbn in Ha. by rewrite !andb_false_r in Ha.
Qed.

(** The rows of a tile are every voyage at its step, also for those who may not act on it: the
    button of a voyage without a declaration leads them back to the dashboard. *)
Lemma tile_row_denied (v : View) voyages voyage : signedIn v → v_platformAccess v = None → userEnrollmentRequired v = false →
  can (js "measurements.view") v = true → can (js "measurements.manage") v = false →
  voyage ∈ voyages → vs_stage voyage = g_declaration → vs_plans voyage = [] → vs_callId voyage ≠ [] →
  (∀ tile, tile ∈ TILES → ti_key tile = k_declaration → voyage ∈ queueRows voyages (accessOf v) (Some tile)) ∧
  App patternMatches ld_ready v (pathnameOf (nextStepPath voyage true)) = redirects (js "/app").
Proof.
  intros Hs Hp He Hv Hm Hin Hst Hpl Hid. split.
  - intros tile Ht Hk. unfold queueRows, tileRows. apply elem_of_sort_by, elem_of_filterb. split; [done|].
    unfold TILES in Ht. repeat (apply elem_of_cons in Ht as [->|Ht]; [try done; unfold stageIn; by rewrite Hst|]). by apply elem_of_nil in Ht.
  - assert (Hr : voyageRouterLaw patternMatches) by (split; [by intros pattern _|by intros callId step _ pattern _]).
    rewrite (row_leads patternMatches v voyage Hr Hs Hp He Hv Hid), Hm. unfold undeclared. by rewrite Hst, Hpl.
Qed.

(** Of several sheets of one voyage the last whose links expire soon gives the date, whether
    or not it is the soonest. *)
Lemma last_sheet_expires now reads plan links soonest t : soonestExpiry now links = Some soonest → soonest ≠ [] →
  dateParse soonest = Some t → t < now + 3 * DAY →
  mget (plan_callId plan) (expiryByCall now (reads ++ [(plan, Some links)])) = Some soonest.
Proof.
  intros Hs Hne Ht Hlt. unfold expiryByCall. rewrite foldl_snoc. unfold noteExpiry at 1. cbn [fst snd].
  assert (Hb : (Some links ≫= soonestExpiry now) = Some soonest) by done. rewrite Hb, Ht.
  assert (Hn : truthy soonest && (t - now <? 3 * DAY) = true) by (destruct soonest; [done|]; apply Z.ltb_lt; lia).
  rewrite Hn. apply mget_mset_eq.
Qed.
(** A date that is given is a link's that can still be used. *)
Lemma expiry_open now links soonest : soonestExpiry now links = Some soonest →
  ∃ link, link ∈ links ∧ lk_expiresAt link = soonest ∧ openLink now link = true.
Proof.
  unfold soonestExpiry. intros Hh. apply head_Some_elem_of in Hh. apply elem_of_sort_by, list_elem_of_fmap in Hh as (link & -> & Hl).
  apply elem_of_filterb in Hl as [Hl Ho]. eauto.
Qed.

(** The activity list is of every reading and every event, and what is cut off is no newer
    than what is shown. *)
Lemma activity_newest plans records shown cut : shown ∈ shownActivity plans records → cut ∈ drop 6 (recentActivity plans records) →
  timeOf (ac_at cut) <= timeOf (ac_at shown).
Proof.
  assert (Hs : StronglySorted (λ a b, timeOf (ac_at b) - timeOf (ac_at a) <= 0) (recentActivity plans records)).
  { apply Sorted_StronglySorted; [intros a b c; lia|]. unfold recentActivity. apply sort_by_sorted. intros; lia. }
  unfold shownActivity. intros Hin Hcut. rewrite <- (take_drop 6 (recentActivity plans records)) in Hs.
  apply StronglySorted_app in Hs as (Hs & _ & _). specialize (Hs shown cut Hin Hcut). cbn in Hs. lia.
Qed.
End Opens.

(** ** A dashboard *)

#[local] Existing Instance asciiHost.
Definition collectingVoyage : VoyageSummary := summarizeVoyage (js "call-0001") (Some sampleVesselCall) [samplePlan [] []] None.
Definition undeclaredVoyage : VoyageSummary := summarizeVoyage (js "call-0001") (Some sampleVesselCall) [] None.
Definition preparer : View := memberView [js "measurements.view"; js "measurements.manage"].

Example need_ex :
  nd_need (voyageNeed (λ s, s) (λ s, s) 0 undeclaredVoyage None) = js "Arrives 2026-07-01 · owner declaration not recorded" ∧
  nd_action (voyageNeed (λ s, s) (λ s, s) 0 collectingVoyage None) = js "Chase readings" ∧
  names [js "a"; js "b"; js "c"] = js "a, b and 1 more".
Proof. vm_compute. repeat split. Qed.

Lemma sampleVoyageRouter : voyageRouterLaw patternMatches.
Proof. split; [by intros pattern _|by intros callId step _ pattern _]. Qed.
Lemma work_opens_witness : App patternMatches ld_ready preparer (pathnameOf (nextStepPath undeclaredVoyage true)) = shows NewMeasurement.
Proof.
  assert (Hu : undeclared undeclaredVoyage = true) by (vm_compute; reflexivity).
  pose proof (work_opens patternMatches preparer [undeclaredVoyage] undeclaredVoyage sampleVoyageRouter) as Hw.
  assert (Hv : viewOnly (accessOf preparer) = false) by (vm_compute; reflexivity).
  rewrite Hu, Hv in Hw. apply Hw.
  - split; reflexivity.
  - reflexivity.
  - reflexivity.
  - vm_compute. reflexivity.
  - vm_compute. left.
  - vm_compute. discriminate.
Defined.
