(* ===== verification/Vessels.v ===== *)
(** * Vessels and their history (frontend/src/screens/Vessels.tsx)

    The vessels of an organization's calls, a vessel being a name and a flag, with their
    voyages; the list with its search, the profile of one vessel, and where its link leads
    through the routes of App.tsx.  Lower case, letters of other scripts and collation are the
    host's, as in Voyages. *)
From Stdlib Require Import SpecFloat.
From S2P Require Import Endpoints Prelude JsString JsNumber Json Codec MeasurementTypes Host Samples Helpers Comparison Uri CloseoutTypes AppTypes AuthContext VoyageStatus Routing ActivityDashboard Voyages.

Record VesselGroup := mkVesselGroup {
  vg_slug : str; vg_name : str; vg_flag : str; vg_type : str; vg_nrt : option num;
  vg_calls : list VesselCall; vg_voyages : list VoyageSummary }.
Definition CLOSED_STAGES : list VoyageStage := [g_no_charge; g_cancelled].
Definition isOpen (voyage : VoyageSummary) : bool := negb (bool_decide (vs_stage voyage ∈ CLOSED_STAGES)).

Section Vessels.
Context `{Host} (isLetterOrNumber : N → bool).

(** [Date.parse(arrival || registered || "") || 0] *)
Definition voyageTime (voyage : VoyageSummary) : Z :=
  timeOf (orElse (vs_arrival voyage) (default [] (vc_registered <$> vs_call voyage))).
Definition callSlug (call : VesselCall) : str := vesselSlug isLetterOrNumber (vc_vesselName call) (Some (vc_flag call)).
Definition addVesselCall (o : option VesselGroup) (call : VesselCall) : VesselGroup :=
  let group := default (mkVesselGroup (callSlug call) (vc_vesselName call) (vc_flag call) (vc_type call) (Some (vc_nrt call)) [] []) o in
  mkVesselGroup (vg_slug group) (vg_name group) (vg_flag group) (vg_type group) (vg_nrt group) (vg_calls group ++ [call]) (vg_voyages group).
(** The voyages of the group's calls, newest first; the newest gives the type and tonnage. *)
Definition withVoyages (voyages : list VoyageSummary) (group : VesselGroup) : VesselGroup :=
  let own := sort_by (λ left right, voyageTime right - voyageTime left)
    (filterb (λ voyage, existsb (λ call, streq (vc_id call) (vs_callId voyage)) (vg_calls group)) voyages) in
  let latest := head own ≫= vs_call in
  mkVesselGroup (vg_slug group) (vg_name group) (vg_flag group) (match latest with Some c => vc_type c | None => vg_type group end)
    (match latest with Some c => Some (vc_nrt c) | None => vg_nrt group end) (vg_calls group) own.
Definition vesselGroups (calls : list VesselCall) (plans : list MeasurementPlan) (records : list CloseoutRecord) : list VesselGroup :=
  let voyages := summarizeVoyages calls plans records in
  sort_by (λ left right, localeCompare (vg_name left) (vg_name right))
    (map (withVoyages voyages) (group_into callSlug addVesselCall [] calls).*2).

(** ** Above and below the declaration *)

(** What [declarationTotals] reads of a line. *)
Definition totalsEntry (category_ : str) (unit : QuantityUnit) (quantity : str) : CargoLine :=
  mkCargoLine (mkCargoLineInput [] category_ [] [] [] unit [] (Some quantity) []) [].
Definition unsigned (difference : str) : str :=
  match difference with c :: r => if N.eqb c cMinus || N.eqb c cPlus then r else difference | [] => [] end.
Definition lineVariance (report : PreviewReport) (line : PreviewReportLine) : option (bool * CargoLine) :=
  difference ← quantityDifference (Some (prl_quantity line)) (prl_declaredQuantity line);
  if isEmpty difference || streq difference (js "0") then None else
  let cargo := findb (λ p, streq (plan_id p) (prl_planId line)) (rep_sourcePlans report)
                 ≫= λ p, findb (λ l : CargoLine, streq (line_id l) (prl_lineId line)) (plan_lines p) in
  Some (startsWith [cMinus] difference, totalsEntry (default [] ((λ c : CargoLine, category c) <$> cargo)) (prl_unit line) (unsigned difference)).
Definition varianceEntries (report : PreviewReport) (isBelow : bool) : list CargoLine :=
  omap (λ line, match lineVariance report line with Some (b, entry) => if Bool.eqb b isBelow then Some entry else None | None => None end) (rep_lines report).
Record Variance := mkVariance { va_above : str; va_below : str }.
Definition varianceSummary (report : option PreviewReport) : option Variance :=
  (λ r, mkVariance (declarationTotals (varianceEntries r false)) (declarationTotals (varianceEntries r true))) <$> report.

(** ** The list *)

Definition vesselText (group : VesselGroup) : str :=
  join [cSpace] (vg_name group :: vg_flag group :: vg_type group :: map vc_reference (vg_calls group)).
Definition visibleVessels (groups : list VesselGroup) (search : str) : list VesselGroup :=
  let query := toLocaleLowerCase (trim search) in
  filterb (λ group, isEmpty query || includes query (toLocaleLowerCase (vesselText group))) groups.
Definition openVoyages (group : VesselGroup) : nat := length (filterb isOpen (vg_voyages group)).
Definition vesselLink (group : VesselGroup) : str := vesselPath isLetterOrNumber (vg_name group) (Some (vg_flag group)).

(** ** The profile *)

(** The parameter the route [/app/vessels/:slug] reads of a path: its segment, as it is written
    or as the router has decoded it. *)
Definition slugParams (path : str) : list str :=
  match split cSlash path !! 3%nat with Some s => s :: option_list (decodeURIComponent s) | None => [] end.
(** The vessel of the page's parameter; [None] also where decoding throws. *)
Definition profileOf (groups : list VesselGroup) (slug : str) : option VesselGroup :=
  key ← decodeURIComponent slug; findb (λ group, streq (vg_slug group) key) groups.
(** Cents drafted per currency. *)
Definition draftedTotals (group : VesselGroup) : list (Currency * num) :=
  foldl (λ drafted voyage,
    match vs_stage voyage, vs_invoice voyage with
    | g_draft, Some invoice =>
        mset (inv_currency invoice)
          (numAdd (default (numOfZ 0) (mget (inv_currency invoice) drafted))
             (mathRound (numMul (numberOfInput (inv_total invoice)) (numOfZ 100)))) drafted
    | _, _ => drafted
    end) [] (vg_voyages group).
Definition reviewCount (group : VesselGroup) : nat := length (filterb (λ v, bool_decide (vs_stage v = g_review)) (vg_voyages group)).
(** The agencies of its voyages: name, role and the voyages they were on, most first. *)
Record VesselAgency := mkVesselAgency { va_name : str; va_role : str; va_voyages : list str }.
Definition partyKey (party : Participant) : str := party_name party ++ js "|" ++ party_role party.
Definition addParty (o : option VesselAgency) (e : Participant * str) : VesselAgency :=
  let entry := default (mkVesselAgency (party_name e.1) (party_role e.1) []) o in
  mkVesselAgency (va_name entry) (va_role entry) (if decide (e.2 ∈ va_voyages entry) then va_voyages entry else va_voyages entry ++ [e.2]).
Definition partiesOf (voyage : VoyageSummary) : list (Participant * str) :=
  map (λ party, (party, vs_callId voyage)) (flat_map plan_participants (vs_plans voyage)).
Definition vesselAgencies (group : VesselGroup) : list VesselAgency :=
  sort_by (λ left right, Z.of_nat (length (va_voyages right)) - Z.of_nat (length (va_voyages left)))
    (group_into (λ e, partyKey e.1) addParty [] (flat_map partiesOf (vg_voyages group))).*2.
(** The entries of the link that registers a further voyage. *)
Definition newVoyageParams (group : VesselGroup) : list (str * str) :=
  [(js "register", []); (js "then", js "declaration"); (js "vesselName", vg_name group); (js "flag", vg_flag group); (js "type", vg_type group)].
Definition particulars (localeNumber : num → str) (group : VesselGroup) : list (str * str) :=
  [(js "Vessel type", vg_type group); (js "Flag", vg_flag group);
   (js "Net tonnage (NRT)", match vg_nrt group with Some n => localeNumber n | None => [] end);
   (js "Gross tonnage (GRT)", []); (js "Length overall (LOA)", []); (js "IMO number", [])].
End Vessels.

(** ** Lemmas: slugs *)

Lemma codePoints_utf16 ps : Forall scalar ps → codePoints (flat_map utf16 ps) = ps.
Proof.
  induction 1 as [|p ps (Hp & Hl & Ht) _ IH]; [done|]. cbn [flat_map]. unfold utf16 at 1. destruct (N.ltb_spec p 65536) as [Hs|Hs].
  - cbn [app codePoints]. by rewrite Hl, IH.
  - assert (H1 : isLead (55296 + (p - 65536) / 1024) = true).
    { unfold isLead. rewrite andb_true_iff, ?N.leb_le, ?N.ltb_lt. lia. }
    assert (H2 : isTrail (56320 + (p - 65536) mod 1024) = true).
    { unfold isTrail. rewrite andb_true_iff, ?N.leb_le, ?N.ltb_lt. lia. }
    cbn [app codePoints]. rewrite H1, H2, IH. f_equal. lia.
Qed.
Lemma wellFormed_points ps : Forall scalar ps → wellFormedText (flat_map utf16 ps).
Proof.
  intros Hs. split; [|by rewrite codePoints_utf16]. induction Hs as [|p ps (Hp & _) _ IH]; [constructor|]. cbn [flat_map].
  apply Forall_app. split; [|done]. unfold utf16. destruct (N.ltb_spec p 65536); repeat constructor; lia.
Qed.

Section Slugs.
Context `{Host} (isLetterOrNumber : N → bool).
(** Letters and numbers are characters, and the percent sign is neither. *)
Context (Hletters : ∀ p, isLetterOrNumber p = true → scalar p) (Hpercent : isLetterOrNumber 37%N = false).

Definition slugPoint (p : N) : Prop := isLetterOrNumber p = true ∨ p = cMinus.
Lemma hyphenate_points prev ps : Forall slugPoint (hyphenate isLetterOrNumber prev ps).
Proof.
  revert prev. induction ps as [|p ps IH]; intros prev; cbn [hyphenate]; [constructor|].
  destruct (isLetterOrNumber p) eqn:E; [constructor; [by left|done]|]. destruct prev; [done|]. constructor; [by right|done].
Qed.
Lemma dropHyphens_points ps : Forall slugPoint ps → Forall slugPoint (dropHyphens ps).
Proof. induction 1 as [|p ps Hp Hs IH]; cbn [dropHyphens]; [constructor|]. destruct (N.eqb p cMinus); [done|by constructor]. Qed.
Lemma slugPart_points value : ∃ ps, Forall slugPoint ps ∧ slugPart isLetterOrNumber value = flat_map utf16 ps.
Proof.
  eexists. split; [|reflexivity]. apply Forall_rev, dropHyphens_points, Forall_rev, dropHyphens_points, hyphenate_points.
Qed.
Lemma vesselSlug_points name flag : ∃ ps, Forall slugPoint ps ∧ vesselSlug isLetterOrNumber name flag = flat_map utf16 ps.
Proof.
  unfold vesselSlug. destruct (slugPart_points name) as (ps & Hp & ->), (slugPart_points (default [] flag)) as (qs & Hq & ->).
  cbn [filterb]. destruct (truthy (flat_map utf16 ps)), (truthy (flat_map utf16 qs)); cbn [join]; [|by exists ps|by exists qs|by exists []].
  exists (ps ++ [cMinus; cMinus] ++ qs). split; [|by rewrite !flat_map_app].
  apply Forall_app. split; [done|]. constructor; [by right|]. by constructor; [right|].
Qed.
(** A slug survives the address bar, whether or not the router has decoded it already. *)
Lemma slug_decodes name flag : let slug := vesselSlug isLetterOrNumber name flag in
  decodeURIComponent (encodeURIComponent slug) = Some slug ∧ decodeURIComponent slug = Some slug.
Proof.
  cbv zeta. destruct (vesselSlug_points name flag) as (ps & Hp & ->).
  assert (Hs : Forall scalar ps).
  { eapply Forall_impl; [exact Hp|]. intros p [Hl| ->]; [by apply Hletters|]. by split_and!. }
  split; [by apply uri_round_trip, wellFormed_points|]. apply decode_plain. intros (p & Hin & Hu)%list_elem_of_In%in_flat_map.
  apply list_elem_of_In in Hin, Hu. rewrite Forall_forall in Hp. destruct (Hp p Hin) as [Hl|Hm].
  - unfold utf16 in Hu. destruct (N.ltb_spec p 65536); [apply list_elem_of_singleton in Hu; subst; congruence|].
    apply elem_of_cons in Hu as [Hu|Hu%list_elem_of_singleton]; lia.
  - subst p. vm_compute in Hu. set_unfold in Hu. destruct_or?; done.
Qed.
End Slugs.

(** A slug is empty only where neither name nor flag has a letter or a number. *)
Section Named.
Context `{Host} (isLetterOrNumber : N → bool) (Hhyphen : isLetterOrNumber cMinus = false).
Definition hasLetter (value : str) : Prop :=
  ∃ p, p ∈ codePoints (toLocaleLowerCase (trim value)) ∧ isLetterOrNumber p = true.
Lemma elem_of_dropHyphens p ps : p ≠ cMinus → p ∈ ps → p ∈ dropHyphens ps.
Proof.
  intros Hp. induction ps as [|q ps IH]; [done|]. cbn [dropHyphens]. destruct (N.eqb_spec q cMinus) as [->|]; [|done].
  intros [?|?]%elem_of_cons; [done|by apply IH].
Qed.
Lemma elem_of_hyphenate p prev ps : isLetterOrNumber p = true → p ∈ ps → p ∈ hyphenate isLetterOrNumber prev ps.
Proof.
  intros Hp. revert prev. induction ps as [|q ps IH]; intros prev; [done|]. cbn [hyphenate]. intros [<-|Hin]%elem_of_cons.
  - rewrite Hp. left.
  - destruct (isLetterOrNumber q), prev; rewrite ?elem_of_cons; auto.
Qed.
Lemma slugPart_nonempty value : hasLetter value → truthy (slugPart isLetterOrNumber value) = true.
Proof.
  intros (p & Hin & Hp). assert (Hm : p ≠ cMinus) by congruence. unfold slugPart.
  assert (Hi : p ∈ rev (dropHyphens (rev (dropHyphens (hyphenate isLetterOrNumber false (codePoints (toLocaleLowerCase (trim value)))))))).
  { do 2 (apply list_elem_of_In; rewrite <- in_rev; apply list_elem_of_In, elem_of_dropHyphens; [done|]).
    by apply elem_of_hyphenate. }
  destruct (rev _) as [|q qs]; [by apply elem_of_nil in Hi|]. cbn [flat_map]. unfold utf16. by destruct (q <? 65536)%N.
Qed.
Lemma slug_nonempty name flag : hasLetter name ∨ hasLetter flag → vesselSlug isLetterOrNumber name (Some flag) ≠ [].
Proof.
  intros Hn. unfold vesselSlug. change (default [] (Some flag)) with flag. cbn [filterb].
  assert (He : ∀ t : str, truthy t = true → t ≠ []) by (intros [|c t]; [discriminate|intros _ Ht; discriminate Ht]).
  destruct (truthy (slugPart isLetterOrNumber name)) eqn:E1, (truthy (slugPart isLetterOrNumber flag)) eqn:E2; cbn [join].
  - intros [Hx _]%app_eq_nil. exact (He _ E1 Hx).
  - exact (He _ E1).
  - exact (He _ E2).
  - destruct Hn as [Hn|Hn]; apply slugPart_nonempty in Hn; congruence.
Qed.
End Named.

(** ** Lemmas: the router *)

(** The library's matcher agrees with the segment-by-segment one on the links of a vessel. *)
Definition vesselRouterLaw (matches : str → str → bool) : Prop :=
  ∀ slug, slug ≠ [] → agreesAt matches (js "/app/vessels/" ++ encodeURIComponent slug).
Lemma vessel_segments slug : split cSlash (js "/app/vessels/" ++ encodeURIComponent slug) = [[]; js "app"; js "vessels"; encodeURIComponent slug].
Proof.
  assert (Hp : js "/app/vessels/" ++ encodeURIComponent slug = pathText [Lit "app"; Lit "vessels"; Enc slug]).
  { rewrite <- (app_nil_r (encodeURIComponent slug)). reflexivity. }
  rewrite Hp. clear Hp.
  rewrite pathText_split; [reflexivity|]. repeat constructor.
Qed.
Lemma vessel_screen v slug : slug ≠ [] →
  App patternMatches ld_ready v (js "/app/vessels/" ++ encodeURIComponent slug) = CustomerRoute v (SecureScreen v "calls.view" VesselProfile).
Proof.
  intros Hc%encode_nonempty. unfold App, appRoutes, Workspace, WorkspaceRoutes, switch, patternMatches. rewrite vessel_segments.
  by destruct (encodeURIComponent slug) as [|c e].
Qed.
Lemma slugParams_link slug : slugParams (js "/app/vessels/" ++ encodeURIComponent slug) =
  encodeURIComponent slug :: option_list (decodeURIComponent (encodeURIComponent slug)).
Proof. unfold slugParams. by rewrite vessel_segments. Qed.

(** ** Lemmas: the groups *)

Section Groups.
Context `{Host} (isLetterOrNumber : N → bool).
Abbreviation callSlug := (callSlug isLetterOrNumber).
Abbreviation addVesselCall := (addVesselCall isLetterOrNumber).

Lemma gathered_calls g l : foldl (λ o c, Some (addVesselCall o c)) (Some g) l =
  Some (mkVesselGroup (vg_slug g) (vg_name g) (vg_flag g) (vg_type g) (vg_nrt g) (vg_calls g ++ l) (vg_voyages g)).
Proof.
  revert g. induction l as [|c l IH]; intros g; cbn [foldl]; [rewrite app_nil_r; by destruct g|].
  rewrite IH. cbn. by rewrite <- app_assoc.
Qed.
(** A group is named by its first call and has the calls of its slug. *)
Record groupOf (calls : list VesselCall) (g : VesselGroup) : Prop := {
  go_calls : vg_calls g = keyed callSlug (vg_slug g) calls;
  go_nonempty : vg_calls g ≠ [];
  go_slug : vg_slug g = vesselSlug isLetterOrNumber (vg_name g) (Some (vg_flag g)) }.
Lemma gathered_group calls k g : (k, g) ∈ group_into callSlug addVesselCall [] calls → groupOf calls g ∧ vg_slug g = k.
Proof.
  rewrite elem_of_group. destruct (keyed callSlug k calls) as [|c l] eqn:Ek; [done|]. cbn [foldl]. rewrite gathered_calls. intros [= <-].
  assert (Hc : callSlug c = k) by (apply (elem_of_keyed callSlug k calls c); rewrite Ek; left).
  split; [|exact Hc]. split; [|done|reflexivity].
  transitivity (keyed callSlug k calls); [by rewrite Ek|]. f_equal. symmetry. exact Hc.
Qed.
Definition gathered (calls : list VesselCall) : list VesselGroup := (group_into callSlug addVesselCall [] calls).*2.
Lemma gathered_slugs calls : map vg_slug (gathered calls) = uniq (map callSlug calls).
Proof.
  rewrite <- (group_keys callSlug addVesselCall). unfold gathered.
  assert (Hall : ∀ k g, (k, g) ∈ group_into callSlug addVesselCall [] calls → vg_slug g = k) by (intros k g Hin; by apply gathered_group in Hin as [_ ?]).
  induction (group_into callSlug addVesselCall [] calls) as [|[k g] m IH]; [done|]. cbn. f_equal; [apply Hall; left|].
  apply IH. intros k' g' Hin. apply Hall. by right.
Qed.
Lemma elem_of_gathered calls g : g ∈ gathered calls → groupOf calls g.
Proof. intros ([k g'] & -> & Hin)%list_elem_of_fmap. by apply gathered_group in Hin as [? _]. Qed.
Lemma gathered_perm calls : flat_map vg_calls (gathered calls) ≡ₚ calls.
Proof.
  assert (He : flat_map vg_calls (gathered calls) = flat_map (λ k, keyed callSlug k calls) (map vg_slug (gathered calls))).
  { pose proof (elem_of_gathered calls) as Hall. induction (gathered calls) as [|g gs IH]; [done|]. cbn [map flat_map]. f_equal.
    - apply Hall. left.
    - apply IH. intros g' Hin. apply Hall. by right. }
  rewrite He, gathered_slugs. apply keyed_perm; [apply NoDup_uniq|]. intros c Hc. apply elem_of_uniq, list_elem_of_fmap. eauto.
Qed.
Lemma vesselGroups_perm calls plans records :
  vesselGroups isLetterOrNumber calls plans records ≡ₚ map (withVoyages (summarizeVoyages calls plans records)) (gathered calls).
Proof. apply sort_by_perm. Qed.
Lemma vesselGroups_slugs calls plans records : NoDup (map vg_slug (vesselGroups isLetterOrNumber calls plans records)).
Proof.
  rewrite (Permutation_map vg_slug (vesselGroups_perm calls plans records)), map_map. cbn [withVoyages vg_slug].
  rewrite (map_ext _ vg_slug) by done. rewrite gathered_slugs. apply NoDup_uniq.
Qed.
Lemma elem_of_vesselGroups calls plans records g : g ∈ vesselGroups isLetterOrNumber calls plans records →
  groupOf calls g ∧ ∃ g0, g = withVoyages (summarizeVoyages calls plans records) g0 ∧ vg_calls g0 = vg_calls g.
Proof.
  rewrite vesselGroups_perm. intros (g0 & -> & Hin)%list_elem_of_fmap. apply elem_of_gathered in Hin as [H1 H2 H3].
  split; [by split|]. by exists g0.
Qed.

(** ** What the pages show *)

(** C19. The history of a vessel is complete and its own: the vessels share the calls out among
    them, none without a call; a vessel's voyages are exactly those of the calls whose name and
    flag give its slug, each once, the latest arrival first; and nothing is listed under two
    slugs. *)
Theorem vessel_history calls plans records : let groups := vesselGroups isLetterOrNumber calls plans records in
  flat_map vg_calls groups ≡ₚ calls ∧ NoDup (map vg_slug groups) ∧
  ∀ g, g ∈ groups → vg_calls g ≠ [] ∧ NoDup (map vs_callId (vg_voyages g)) ∧
    Sorted (λ a b, voyageTime b - voyageTime a <= 0) (vg_voyages g) ∧
    ∀ voyage, voyage ∈ vg_voyages g ↔ voyage ∈ summarizeVoyages calls plans records ∧
      ∃ call, call ∈ calls ∧ callSlug call = vg_slug g ∧ vc_id call = vs_callId voyage.
Proof.
  cbv zeta. split_and!; [|apply vesselGroups_slugs|].
  - rewrite (flat_map_perm _ _ _ (vesselGroups_perm calls plans records)). etransitivity; [|apply gathered_perm].
    assert (He : ∀ l, flat_map vg_calls (map (withVoyages (summarizeVoyages calls plans records)) l) = flat_map vg_calls l); [|by rewrite He].
    intros l. induction l as [|g gs IH]; [done|]. cbn [map flat_map]. by rewrite IH.
  - intros g Hg. apply elem_of_vesselGroups in Hg as ([Hc Hn _] & g0 & -> & Hc0). cbn [withVoyages vg_voyages vg_slug vg_calls] in *.
    split_and!; [done| | |].
    + rewrite sort_by_perm. apply NoDup_map_filterb, summarizeVoyages_index.
    + apply sort_by_sorted. intros; lia.
    + intros voyage. rewrite elem_of_sort_by, elem_of_filterb, existsb_true. rewrite Hc. setoid_rewrite elem_of_keyed. setoid_rewrite streq_true.
      naive_solver.
Qed.

Lemma group_found calls plans records g : g ∈ vesselGroups isLetterOrNumber calls plans records →
  findb (λ group, streq (vg_slug group) (vg_slug g)) (vesselGroups isLetterOrNumber calls plans records) = Some g.
Proof.
  intros Hg. destruct (findb _ _) as [g'|] eqn:Ef.
  - apply findb_Some in Ef as [Hin Heq%streq_true]. f_equal. by eapply (NoDup_map_inj vg_slug); [apply vesselGroups_slugs|..].
  - exfalso. rewrite findb_None in Ef. specialize (Ef g Hg). by rewrite streq_refl in Ef.
Qed.

(** C32. The link of a vessel opens its own profile: where its name or its flag has a letter or a
    number, the router answers the link with the profile page for a member who may see calls
    (and leads any other member to the workspace), and the page finds that very group by the
    parameter of the path, whether the router hands it over as it is written or decoded, of the
    vessels as they are then listed. *)
Theorem vessel_link_opens (matches : str → str → bool) (v : View) calls plans records g
    (Hletters : ∀ p, isLetterOrNumber p = true → scalar p) (Hpercent : isLetterOrNumber 37%N = false)
    (Hhyphen : isLetterOrNumber cMinus = false) (Hrouter : vesselRouterLaw matches)
    (Hsigned : signedIn v) (Hmember : v_platformAccess v = None) (Henrolled : userEnrollmentRequired v = false)
    (Hlisted : g ∈ vesselGroups isLetterOrNumber calls plans records)
    (Hnamed : hasLetter isLetterOrNumber (vg_name g) ∨ hasLetter isLetterOrNumber (vg_flag g)) :
  App matches ld_ready v (vesselLink isLetterOrNumber g) =
    (if can (js "calls.view") v then shows VesselProfile else redirects (js "/app")) ∧
  slugParams (vesselLink isLetterOrNumber g) ≠ [] ∧
  ∀ param, param ∈ slugParams (vesselLink isLetterOrNumber g) →
    profileOf (vesselGroups isLetterOrNumber calls plans records) param = Some g.
Proof.
  destruct (elem_of_vesselGroups _ _ _ _ Hlisted) as ([_ _ Hs] & _).
  assert (Hne : vg_slug g ≠ []) by (rewrite Hs; by apply slug_nonempty).
  destruct (slug_decodes isLetterOrNumber Hletters Hpercent (vg_name g) (Some (vg_flag g))) as [H1 H2]. rewrite <- Hs in H1, H2.
  unfold vesselLink, vesselPath. rewrite <- Hs. split; [|rewrite slugParams_link, H1; split; [done|]].
  - rewrite App_at by auto. by rewrite vessel_screen, member_secure.
  - intros param Hp. unfold profileOf. apply elem_of_cons in Hp as [->|Hp%list_elem_of_singleton]; [rewrite H1|subst; rewrite H2];
      by apply group_found.
Qed.

(** Every line whose quantity differs from its declaration is on exactly one side. *)
Lemma variance_sides report : (length (varianceEntries report false) + length (varianceEntries report true))%nat =
  length (filterb (λ line, bool_decide (is_Some (lineVariance report line))) (rep_lines report)).
Proof.
  unfold varianceEntries. induction (rep_lines report) as [|line l IH]; [done|]. cbn [omap list_omap filterb].
  destruct (lineVariance report line) as [[[] e]|]; cbn [Bool.eqb length]; try rewrite bool_decide_eq_true_2 by eauto; cbn [length]; try lia.
  rewrite bool_decide_eq_false_2; [done|]. intros [? ?]; done.
Qed.
(** An agency of several sheets of a voyage is counted once for it. *)
Lemma agency_voyages_once group : ∀ a, a ∈ vesselAgencies group → NoDup (va_voyages a).
Proof.
  intros a Ha. unfold vesselAgencies in Ha. rewrite elem_of_sort_by in Ha. apply list_elem_of_fmap in Ha as ([k b] & -> & Hin).
  apply elem_of_group in Hin. cbn [snd].
  assert (Hg : ∀ (l : list (Participant * str)) o, (∀ c, o = Some c → NoDup (va_voyages c)) →
    ∀ c, foldl (λ o e, Some (addParty o e)) o l = Some c → NoDup (va_voyages c)); [|by eapply Hg; [|exact Hin]].
  induction l as [|e l IH]; intros o Ho c; cbn [foldl]; [apply Ho|]. apply IH. intros c' [= <-]. cbn.
  assert (Hd : NoDup (va_voyages (default (mkVesselAgency (party_name e.1) (party_role e.1) []) o))).
  { destruct o as [c0|]; [by apply Ho|constructor]. }
  case_decide; [done|]. apply NoDup_app. split; [done|]. split; [|apply NoDup_singleton]. by intros x Hx ->%list_elem_of_singleton.
Qed.
End Groups.

(** ** Two vessels *)

#[local] Existing Instance asciiHost.
Definition asciiLetterOrNumber (p : N) : bool :=
  ((48 <=? p) && (p <=? 57) || (65 <=? p) && (p <=? 90) || (97 <=? p) && (p <=? 122))%N.
Lemma ascii_scalar p : asciiLetterOrNumber p = true → scalar p.
Proof.
  unfold asciiLetterOrNumber. rewrite !orb_true_iff, !andb_true_iff, !N.leb_le. intros Hp.
  split; [lia|]. unfold isLead, isTrail. rewrite !andb_false_iff, ?N.leb_gt, ?N.ltb_ge. lia.
Qed.
Definition namedCall (id name flag : string) : VesselCall :=
  mkVesselCall (js id) (js name) (js id) [] (js flag) (numOfZ 900) (js "2026-07-01") [] [] None vc_in_progress [] None None 1 (js "2026-06-01").
Definition sampleCalls : list VesselCall := [namedCall "c1" "MV Bonny" "NG"; namedCall "c2" "mv bonny " "NG"; namedCall "c3" "MV Akwa/100%" "LR"].
Definition sampleGroups : list VesselGroup := vesselGroups asciiLetterOrNumber sampleCalls [] [].
Example vessel_ex : map vg_slug sampleGroups = [js "mv-akwa-100--lr"; js "mv-bonny--ng"] ∧
  map (λ g, map vc_id (vg_calls g)) sampleGroups = [[js "c3"]; [js "c1"; js "c2"]] ∧
  map (map vs_callId ∘ vg_voyages) sampleGroups = [[js "c3"]; [js "c1"; js "c2"]].
Proof. vm_compute. repeat split. Qed.
(** Names that differ in their punctuation only are one vessel here, and two in the display
    index of voyages.ts. *)
Example punctuation_merged : let calls := [namedCall "c1" "MV A-1" "NG"; namedCall "c2" "MV A 1" "NG"] in
  length (vesselGroups asciiLetterOrNumber calls [] []) = 1%nat ∧ length (groupVesselCalls calls) = 2%nat.
Proof. vm_compute. split; reflexivity. Qed.

(** A vessel without a letter or a number in its name and flag has an empty slug; the router,
    which takes no account of a final slash, answers its link with the list of vessels. *)
Lemma unnamed_vessel_listed (matches : str → str → bool) v g :
  answeredAs matches (js "/app/vessels/") (js "/app/vessels") →
  signedIn v → v_platformAccess v = None → userEnrollmentRequired v = false → can (js "calls.view") v = true →
  vg_name g = js "***" → vg_flag g = [] →
  App matches ld_ready v (vesselLink asciiLetterOrNumber g) = shows Vessels.
Proof.
  intros Hm Hs Hp He Hv Hn Hf.
  assert (Hl : vesselLink asciiLetterOrNumber g = js "/app/vessels/") by (unfold vesselLink; rewrite Hn, Hf; vm_compute; reflexivity).
  rewrite Hl, (App_as _ _ v _ _ Hm).
  transitivity (CustomerRoute v (SecureScreen v "calls.view" Vessels)); [reflexivity|]. by rewrite member_secure, Hv.
Qed.

Lemma vesselRouterLaw_sample : vesselRouterLaw patternMatches.
Proof. by intros slug _ pattern _. Qed.
Definition callViewer : View := memberView [js "calls.view"].
Lemma vessel_link_opens_witness : ∃ g, head sampleGroups = Some g ∧
  App patternMatches ld_ready callViewer (vesselLink asciiLetterOrNumber g) = shows VesselProfile ∧
  slugParams (vesselLink asciiLetterOrNumber g) ≠ [] ∧
  ∀ param, param ∈ slugParams (vesselLink asciiLetterOrNumber g) → profileOf sampleGroups param = Some g.
Proof.
  destruct (head sampleGroups) as [g|] eqn:Eg; [|vm_compute in Eg; discriminate].
  destruct (vessel_link_opens asciiLetterOrNumber patternMatches callViewer sampleCalls [] [] g ascii_scalar eq_refl eq_refl vesselRouterLaw_sample)
    as (Ha & Hn & Hp); [split; reflexivity|reflexivity|reflexivity|by apply head_Some_elem_of| |].
  - left. exists 109%N. vm_compute in Eg. injection Eg as <-. split; [vm_compute; left|reflexivity].
  - exists g. split; [reflexivity|]. rewrite Ha. by split_and!.
Defined.
