(* ===== verification/PortAnalytics.v ===== *)
(** * Operations dashboard, analytics and their charts (frontend/src/screens/Dashboard.tsx,
    screens/Analytics.tsx, components/charts.tsx, lib/format.ts)

    The figures at the top of the dashboard, the split of revenue and the products of a period,
    and the geometry of the charts.  All numbers are binary64; dates and grouped digits are the
    locale's. *)
From Stdlib Require Import SpecFloat.
From S2P Require Import Prelude JsString JsNumber Json Codec MeasurementTypes Host Endpoints ApiClient AppTypes Dues Uploads Store ReadingsModel Capture Invoices.

(** ** Numbers *)

Definition num0 : num := S754_zero false.
(** The sign a comparator returns; [NaN] counts as zero. *)
Definition signOf (x : num) : Z :=
  match x with
  | S754_finite s _ _ | S754_infinity s => if s then -1 else 1
  | _ => 0
  end.
Definition sumOf {A} (f : A → num) (l : list A) : num := foldl (λ s d, numAdd s (f d)) num0 l.
(** [Math.max(...l)], [Math.min(...l)] *)
Definition numMax (x y : num) : num :=
  match x, y with
  | S754_nan, _ | _, S754_nan => S754_nan
  | _, _ => if numLtb x y then y else if SFeqb x y then (match x with S754_zero true => y | _ => x end) else x
  end.
Definition maxOf (l : list num) : num := foldl numMax (S754_infinity true) l.
Definition numMin (x y : num) : num := SFopp (numMax (SFopp x) (SFopp y)).
Definition minOf (l : list num) : num := foldl numMin (S754_infinity false) l.
(** [x.toFixed(places)] for |x| below 10^21: the nearest decimal, the larger of two. *)
Definition fixedText (places : nat) (n : Z) : str :=
  let ds := padStart (S places) cZero (printNat n) in
  let whole := (length ds - places)%nat in
  if Nat.eqb places 0 then ds else take whole ds ++ cDot :: drop whole ds.
Definition toFixed (places : nat) (x : num) : str :=
  match x with
  | S754_zero _ => fixedText places 0
  | S754_finite s m e =>
    let p := if 0 <=? e then Zpos m * 2 ^ e else Zpos m in
    let q := if 0 <=? e then 1 else 2 ^ (- e) in
    (if s then [cMinus] else []) ++ fixedText places (scaledNearest p q (Z.of_nat places))
  | _ => numberText x
  end.
Definition million : num := numOfZ 1000000.
Definition thousand : num := numOfZ 1000.
Definition fmtCompactMT (n : num) : str :=
  if numLeb million n then toFixed 2 (numDiv n million) ++ js "M"
  else if numLeb thousand n then toFixed 0 (numDiv n thousand) ++ js "K"
  else numberText (mathRound n).
Definition fmtCompactUSD (n : num) : str :=
  if numLeb million n then js "$" ++ toFixed 2 (numDiv n million) ++ js "M"
  else if numLeb thousand n then js "$" ++ toFixed 0 (numDiv n thousand) ++ js "K"
  else js "$" ++ numberText (mathRound n).

(** ** Analytics *)

Record SeriesRow := mkSeriesRow { sr_row : AnalyticsSeriesRow; sr_liquidR : num; sr_dryR : num }.
Inductive CargoCategory := cat_liquid | cat_dry.
#[export] Instance CargoCategory_eq : EqDecision CargoCategory. Proof. solve_decision. Defined.
Record ChartProduct := mkChartProduct {
  cp_product : AnalyticsProduct; cp_cat : CargoCategory; cp_label : str; cp_color : str; cp_tonnage : num; cp_revenue : num }.
Definition LIQUID_KEYS : list str := map js ["PMS"; "AGO"; "DPK"]%string.
Definition PRODUCT_COLORS : list (str * str) := map (λ e : string * string, (js e.1, js e.2))
  [("PMS", "#1B5FAA"); ("AGO", "#2F84E3"); ("DPK", "#7FB4EC"); ("Wheat", "#C2871D"); ("Fertiliser", "#E0A21A"); ("Clinker", "#9AA3B0"); ("Sugar", "#EBCB7C")]%string.
Definition FALLBACK_COLORS : list str := map js ["#1B5FAA"; "#2F84E3"; "#7FB4EC"; "#C2871D"; "#E0A21A"; "#9AA3B0"; "#EBCB7C"]%string.
Definition colorFor (key : str) (i : nat) : str :=
  match mget key PRODUCT_COLORS with Some c => c | None => default [] (FALLBACK_COLORS !! (i mod length FALLBACK_COLORS)%nat) end.

Definition blendedRate (revenue tonnes : num) : num := if numTruthy tonnes then numDiv revenue tonnes else num0.
Definition splitRow (t : AnalyticsTotals) (d : AnalyticsSeriesRow) : SeriesRow :=
  let lr := numMul (asr_liquidT d) (blendedRate (ato_liquidR t) (ato_liquidT t)) in
  let dr := numMul (asr_dryT d) (blendedRate (ato_dryR t) (ato_dryT t)) in
  let denom := numAdd lr dr in
  let scale := if numLtb num0 denom then numDiv (asr_revenue d) denom else num0 in
  mkSeriesRow d (mathRound (numMul lr scale)) (mathRound (numMul dr scale)).
Record PeriodTotals := mkPeriodTotals {
  pt_liquidT : num; pt_dryT : num; pt_liquidR : num; pt_dryR : num; pt_calls : num; pt_throughput : num; pt_revenue : num }.
Definition periodTotals (series : list SeriesRow) : PeriodTotals :=
  let liquidT := sumOf (asr_liquidT ∘ sr_row) series in let dryT := sumOf (asr_dryT ∘ sr_row) series in
  let liquidR := sumOf sr_liquidR series in let dryR := sumOf sr_dryR series in
  mkPeriodTotals liquidT dryT liquidR dryR (sumOf (asr_calls ∘ sr_row) series) (numAdd liquidT dryT) (numAdd liquidR dryR).
Definition chartProduct (t : PeriodTotals) (i : nat) (p : AnalyticsProduct) : ChartProduct :=
  let liquid := bool_decide (apr_key p ∈ LIQUID_KEYS) in
  mkChartProduct p (if liquid then cat_liquid else cat_dry) (apr_name p) (colorFor (apr_key p) i)
    (mathRound (numMul (if liquid then pt_liquidT t else pt_dryT t) (apr_share p)))
    (mathRound (numMul (if liquid then pt_liquidR t else pt_dryR t) (apr_share p))).
Record AnalyticsView := mkAnalyticsView { av_series : list SeriesRow; av_totals : PeriodTotals; av_products : list ChartProduct }.
(** [series.slice(-period)] *)
Definition lastRows {A} (period : nat) (l : list A) : list A := drop (length l - period) l.
Definition analyticsView (data : Analytics) (period : nat) : AnalyticsView :=
  let series := lastRows period (map (splitRow (ana_totals data)) (ana_series data)) in
  let totals := periodTotals series in
  mkAnalyticsView series totals (imap (chartProduct totals) (ana_products data)).
Definition leaderboard (products : list ChartProduct) : list ChartProduct :=
  sort_by (λ a b, signOf (numSub (cp_tonnage b) (cp_tonnage a))) products.
Definition pmsProduct (products : list ChartProduct) : option ChartProduct :=
  match findb (λ p, streq (apr_key (cp_product p)) (js "PMS")) products with Some p => Some p | None => head products end.
(** The share of a total, in percent. *)
Definition percentOf (part whole : num) : num := if numTruthy whole then numMul (numDiv part whole) (numOfZ 100) else num0.
Definition leaderWidth (products : list ChartProduct) (p : ChartProduct) : num :=
  let maxT := default num0 (cp_tonnage <$> head (leaderboard products)) in
  if numTruthy maxT then numMul (numDiv (cp_tonnage p) maxT) (numOfZ 100) else num0.
Definition periodLabel (period : nat) : str :=
  if Nat.eqb period 12 then js "Last 12 months" else js "Last " ++ printZ (Z.of_nat period) ++ js " months".

(** ** The operations dashboard *)

Section OperationsDashboard.
Context {File : Type} `{Host}.
Implicit Types s : @Store File.

Record Kpis := mkKpis { kp_active : nat; kp_inspections : nat; kp_duesCollected : num; kp_commUsd : num; kp_commNgn : num }.
Definition addInvoice s (k : Kpis) (iv : Invoice) : Kpis :=
  match financialsForCall (findb (λ c, streq (vc_id c) (ivc_callId iv)) (st_calls (so_state s))) s with
  | None => k
  | Some f =>
    mkKpis (kp_active k) (kp_inspections k)
      (if bool_decide (ivc_status iv = ivc_paid) then numAdd (kp_duesCollected k) (fin_dues f) else kp_duesCollected k)
      (numAdd (kp_commUsd k) (fin_commissionUsd f)) (numAdd (kp_commNgn k) (fin_commissionNgn f))
  end.
(** [ym]: the current year and month, as in an ISO date. *)
Definition kpis s (ym : str) : Kpis :=
  foldl (addInvoice s)
    (mkKpis (length (filterb (λ c, bool_decide (vc_status c = vc_pending) || bool_decide (vc_status c = vc_in_progress)) (st_calls (so_state s))))
       (length (filterb (λ i, truthy (insp_date i) && startsWith ym (insp_date i)) (st_inspections (so_state s)))) num0 num0 num0)
    (st_invoices (so_state s)).
(** [+new Date(b) - +new Date(a)], zero when either cannot be read. *)
Definition registeredDescending (a b : VesselCall) : Z :=
  match dateParse (vc_registered a), dateParse (vc_registered b) with Some x, Some y => y - x | _, _ => 0 end.
Definition recentCalls (calls : list VesselCall) : list VesselCall := take 6 (sort_by registeredDescending calls).
Definition pmsPct (data : Analytics) : num :=
  match findb (λ p, streq (apr_key p) (js "PMS")) (ana_products data) with
  | Some p => if numTruthy (ato_throughput (ana_totals data))
              then mathRound (numMul (numDiv (apr_tonnage p) (ato_throughput (ana_totals data))) (numOfZ 100)) else num0
  | None => num0
  end.
Definition pmsMonthly (data : Analytics) : list num :=
  match findb (λ p, streq (apr_key p) (js "PMS")) (ana_products data) with
  | Some p => map (λ d, mathRound (numMul (asr_liquidT d) (apr_share p))) (ana_series data)
  | None => []
  end.
End OperationsDashboard.

(** ** Charts *)

Definition Point : Type := num * num.
Definition pointText (p : Point) : str := numberText p.1 ++ [44%N] ++ numberText p.2.
Definition linePath (top : list Point) : str := js "M" ++ join (js " L") (map pointText top).
(** [padT + innerH - (innerH * v) / max]: the height of a value in a chart. *)
Definition heightOf (innerH top max v : num) : num := numSub (numAdd top innerH) (numDiv (numMul innerH v) max).
Definition inTenths (n : Z) : num := numDiv (numOfZ n) (numOfZ 100).
Definition areaX (n i : nat) : num := numAdd (numOfZ 12) (numDiv (numMul (numOfZ 736) (numOfZ (Z.of_nat i))) (numOfZ (Z.of_nat n - 1))).
(** [AreaTrend]: the tops of the dry and of the liquid area, 252 units high. *)
Definition areaMax (series : list AnalyticsSeriesRow) : num :=
  numMul (maxOf (map (λ d, numAdd (asr_liquidT d) (asr_dryT d)) series)) (inTenths 112).
Definition areaY (series : list AnalyticsSeriesRow) (v : num) : num := heightOf (numOfZ 252) (numOfZ 18) (areaMax series) v.
Definition dryTop (series : list AnalyticsSeriesRow) : list Point :=
  imap (λ i d, (areaX (length series) i, areaY series (asr_dryT d))) series.
Definition liqTop (series : list AnalyticsSeriesRow) : list Point :=
  imap (λ i d, (areaX (length series) i, areaY series (numAdd (asr_dryT d) (asr_liquidT d)))) series.
Definition areaBase : num := numOfZ 270.
(** The area down to the base line, and the one between two tops. *)
Definition areaToBase (top : list Point) : str :=
  linePath top ++ js " L" ++ pointText (default num0 (fst <$> last top), areaBase) ++ js " L" ++ pointText (default num0 (fst <$> head top), areaBase) ++ js " Z".
Definition areaBetween (top bottom : list Point) : str :=
  linePath top ++ js " L" ++ join (js " L") (map pointText (rev bottom)) ++ js " Z".
(** [RevenueBars]: the heights of a month's two bars, 234 units at most. *)
Definition barMax (series : list SeriesRow) : num := numMul (maxOf (map (λ d, numAdd (sr_liquidR d) (sr_dryR d)) series)) (inTenths 110).
Definition barHeight (series : list SeriesRow) (v : num) : num := numDiv (numMul (numOfZ 234) v) (barMax series).
Definition barWidth (n : nat) : num := numMin (numOfZ 34) (numMul (numDiv (numOfZ 736) (numOfZ (Z.of_nat n))) (inTenths 56)).
Record Bar := mkBar { ba_x : num; ba_dryY : num; ba_dry : num; ba_liquidY : num; ba_liquid : num }.
Definition revenueBar (series : list SeriesRow) (i : nat) (d : SeriesRow) : Bar :=
  let n := length series in
  let cx := numAdd (numOfZ 12) (numDiv (numMul (numOfZ 736) (numAdd (numOfZ (Z.of_nat i)) (numDiv (numOfZ 1) (numOfZ 2)))) (numOfZ (Z.of_nat n))) in
  let dry := barHeight series (sr_dryR d) in let liquid := barHeight series (sr_liquidR d) in
  mkBar (numSub cx (numDiv (barWidth n) (numOfZ 2))) (numSub (numOfZ 250) dry) dry (numSub (numSub (numOfZ 250) dry) liquid) liquid.
Definition revenueBars (series : list SeriesRow) : list Bar := imap (revenueBar series) series.
(** [MixDonut]: the fraction of each product and where its arc begins. *)
Record Segment := mkSegment { sg_key : str; sg_frac : num; sg_offset : num }.
Definition fraction (total tonnage : num) : num := if numLtb num0 total then numDiv tonnage total else num0.
Fixpoint segments (total acc : num) (products : list ChartProduct) : list Segment :=
  match products with
  | [] => []
  | p :: rest => let frac := fraction total (cp_tonnage p) in
      mkSegment (apr_key (cp_product p)) frac acc :: segments total (numAdd acc frac) rest
  end.
(** [MiniSpark] *)
Definition sparkPoints (values : list num) (w h : Z) : list Point :=
  let max := maxOf values in let min := minOf values in
  let range := numSub max min in
  imap (λ i v, (if (1 <? length values)%nat then numDiv (numMul (numOfZ w) (numOfZ (Z.of_nat i))) (numOfZ (Z.of_nat (length values) - 1)) else num0,
    numSub (numOfZ (h - 3)) (numDiv (numMul (numOfZ (h - 6)) (numSub v min)) (if numTruthy range then range else numOfZ 1)))) values.

(** ** Lemmas: signs *)

Lemma binary_round_sign s m e : signOf (binary_round 53 1024 s m e) = 0 ∨ signOf (binary_round 53 1024 s m e) = if s then -1 else 1.
Proof.
  unfold binary_round. destruct (shl_align _ _ _) as [mz ez]. unfold binary_round_aux.
  destruct (shr_fexp _ _ _ _ _) as [r e1]. destruct (shr_fexp _ _ _ _ _) as [r' e2].
  destruct (shr_m r'); [by left| |by left]. destruct (e2 <=? 1024 - 53); by right.
Qed.
(** The sign of a difference and of its opposite do not agree. *)
Lemma signOf_sub_flip x y : 0 < signOf (numSub x y) → signOf (numSub y x) <= 0.
Proof.
  unfold numSub, SFsub. destruct x as [[]|[]| |sx mx ex], y as [[]|[]| |sy my ey]; cbn [signOf negb]; try lia.
  1-4: destruct sy || destruct sx; cbn; lia.
  rewrite (Z.min_comm ey ex). set (a := cond_Zopp sx _). set (b := cond_Zopp sy _).
  assert (Hb : b - a = - (a - b)) by lia. rewrite Hb. destruct (a - b) as [|p|p]; cbn [binary_normalize Z.opp].
  - cbn; lia.
  - intros _. change (- Z.pos p) with (Z.neg p). cbn [binary_normalize]. destruct (binary_round_sign true p (Z.min ex ey)) as [-> | ->]; cbn; lia.
  - destruct (binary_round_sign true p (Z.min ex ey)) as [-> | ->]; cbn; lia.
Qed.

(** ** What the screens show *)

(** Every product is ranked, by tonnage. *)
Lemma leaderboard_ranked products : leaderboard products ≡ₚ products ∧
  Sorted (λ a b, signOf (numSub (cp_tonnage b) (cp_tonnage a)) <= 0) (leaderboard products).
Proof. split; [apply sort_by_perm|]. apply sort_by_sorted. intros a b. apply signOf_sub_flip. Qed.
(** A period has its last months, all of them when there are no more. *)
Lemma lastRows_suffix {A} period (l : list A) : ∃ before, l = before ++ lastRows period l ∧
  length (lastRows period l) = Nat.min period (length l).
Proof. exists (take (length l - period) l). unfold lastRows. rewrite take_drop, length_drop. split; [done|lia]. Qed.

(** The decimal of [toFixed] is the nearest there is, the larger of two. *)
Lemma scaledNearest_nearest p q places : 0 < q → 0 <= places →
  2 * (p * pow10 (Z.to_nat places)) - q < 2 * (scaledNearest p q places * q) <= 2 * (p * pow10 (Z.to_nat places)) + q.
Proof.
  intros Hq Hp. unfold scaledNearest. rewrite (proj2 (Z.leb_le 0 places)) by done. set (P := p * _).
  pose proof (Z.div_mod (2 * P + q) (2 * q)). pose proof (Z.mod_pos_bound (2 * P + q) (2 * q)). nia.
Qed.
Example compact_ex : map fmtCompactMT [numOfZ 950; numOfZ 12340; numOfZ 2500000; numDiv (numOfZ 1) (numOfZ 3)] = map js ["950"; "12K"; "2.50M"; "0"]%string
  ∧ toFixed 2 (numberOfText (js "1.005")) = js "1.00" ∧ toFixed 2 (numberOfInput (js "-2.675")) = js "-2.67" ∧ toFixed 0 (numOfZ 5) = js "5".
Proof. vm_compute. repeat split. Qed.
(** Just below a million the thousands round up to a thousand thousands. *)
Example compact_boundary : fmtCompactMT (numOfZ 999600) = js "1000K" ∧ fmtCompactMT (numOfZ 1000000) = js "1.00M".
Proof. vm_compute. split; reflexivity. Qed.

(** A month's revenue of five, half of it from each kind of cargo, is split into three and
    three: each half is rounded by itself, and the two no longer add up to the revenue. *)
Definition evenTotals : AnalyticsTotals :=
  mkAnalyticsTotals (numOfZ 2) (numOfZ 1) (numOfZ 1) (numOfZ 5) (numOfZ 2) (numOfZ 2) num0 num0 num0 (numOfZ 1).
Definition evenMonth : AnalyticsSeriesRow := mkAnalyticsSeriesRow [] [] [] (numOfZ 1) (numOfZ 1) (numOfZ 5) (numOfZ 1).
Lemma split_not_exact : let r := splitRow evenTotals evenMonth in
  numAdd (sr_liquidR r) (sr_dryR r) = numOfZ 6 ∧ asr_revenue (sr_row r) = numOfZ 5.
Proof. vm_compute. split; reflexivity. Qed.

(** A period without cargo has no chart: every height is [NaN]. *)
Definition quiet (d : AnalyticsSeriesRow) : Prop := asr_liquidT d = num0 ∧ asr_dryT d = num0.
Lemma maxOf_zeros (l : list num) : l ≠ [] → Forall (λ x, x = num0) l → maxOf l = num0.
Proof.
  intros Hne Hl. destruct Hl as [|x l -> Hl]; [done|]. unfold maxOf. cbn [foldl].
  assert (Hx : numMax (S754_infinity true) num0 = num0) by (vm_compute; reflexivity). rewrite Hx. clear Hx Hne.
  induction Hl as [|x l -> _ IH]; [done|]. cbn [foldl]. exact IH.
Qed.
Lemma quiet_chart series : series ≠ [] → Forall quiet series → Forall (λ p : Point, p.2 = S754_nan) (dryTop series ++ liqTop series).
Proof.
  intros Hne Hq. assert (Hm : areaMax series = num0).
  { unfold areaMax. rewrite maxOf_zeros; [by vm_compute|by destruct series|]. apply Forall_map.
    eapply Forall_impl; [exact Hq|]. intros d [Hl Hd]. cbn. rewrite Hl, Hd. by vm_compute. }
  rewrite Forall_forall in Hq. unfold dryTop, liqTop, areaY. rewrite Hm. apply Forall_app. split; apply Forall_forall;
    intros p (i & d & -> & Hi)%elem_of_lookup_imap; apply list_elem_of_lookup_2, Hq in Hi as [Hl Hd]; cbn [snd]; rewrite ?Hl, Hd; by vm_compute.
Qed.

Section Kpi.
Context {File : Type} `{Host}.

(** The dashboard counts a call's dues and commission once for every invoice of the call - a
    void one and one for a disparity too. *)
Lemma counted_per_invoice (s : @Store File) k iv iv' f : ivc_callId iv' = ivc_callId iv →
  financialsForCall (findb (λ c, streq (vc_id c) (ivc_callId iv)) (st_calls (so_state s))) s = Some f →
  kp_commUsd (addInvoice s (addInvoice s k iv) iv') = numAdd (numAdd (kp_commUsd k) (fin_commissionUsd f)) (fin_commissionUsd f) ∧
  (ivc_status iv = ivc_paid → ivc_status iv' = ivc_paid →
     kp_duesCollected (addInvoice s (addInvoice s k iv) iv') = numAdd (numAdd (kp_duesCollected k) (fin_dues f)) (fin_dues f)).
Proof.
  intros Hc Hf. unfold addInvoice at 1 3. rewrite Hc, Hf. cbn [kp_commUsd kp_duesCollected]. unfold addInvoice. rewrite Hf.
  split; [done|]. intros -> ->. by rewrite !bool_decide_eq_true_2.
Qed.
(** The amounts under the name of the current month are those of all months. *)
Lemma kpis_every_month (s : @Store File) ym ym' : kp_duesCollected (kpis s ym) = kp_duesCollected (kpis s ym') ∧
  kp_commUsd (kpis s ym) = kp_commUsd (kpis s ym') ∧ kp_commNgn (kpis s ym) = kp_commNgn (kpis s ym').
Proof.
  unfold kpis. generalize (st_invoices (so_state s)) as l.
  assert (Hg : ∀ l k k', kp_duesCollected k = kp_duesCollected k' → kp_commUsd k = kp_commUsd k' → kp_commNgn k = kp_commNgn k' →
    let r := foldl (addInvoice s) k l in let r' := foldl (addInvoice s) k' l in
    kp_duesCollected r = kp_duesCollected r' ∧ kp_commUsd r = kp_commUsd r' ∧ kp_commNgn r = kp_commNgn r'); [|intros l; by apply Hg].
  induction l as [|iv l IH]; intros k k' H1 H2 H3; [done|]. cbn [foldl]. apply IH; unfold addInvoice; destruct (financialsForCall _ _) as [f|]; try done;
    cbn; try case_bool_decide; congruence.
Qed.
End Kpi.
