(* ===== verification/Ui.v ===== *)
(** * The shared controls (frontend/src/components/ui.tsx, app/breadcrumbs.tsx)

    The sortable table, the status badge, the PDF button, the drawer and the confirmation
    dialog, the note under a field, and the trail of the top bar. *)
From Stdlib Require Import SpecFloat.
From S2P Require Import Prelude JsString JsNumber Json Host Endpoints Capture PortAnalytics.

Definition STATUS_LABEL : list (str * str) := map (λ e : string * string, (js e.1, js e.2))
  [("pending", "Pending"); ("in-progress", "In progress"); ("completed", "Completed"); ("paid", "Paid"); ("unpaid", "Unpaid");
   ("overdue", "Overdue"); ("draft", "Draft"); ("active", "Active"); ("inactive", "Inactive"); ("invited", "Invited");
   ("suspended", "Suspended"); ("pending_approval", "Pending approval"); ("removed", "Removed"); ("accepted", "Accepted");
   ("expired", "Expired"); ("revoked", "Revoked"); ("cancelled", "Cancelled"); ("void", "Void")]%string.
Definition statusLabel (status : str) : str := default status (mget status STATUS_LABEL).

(** [PdfButton]: what a click opens. *)
Inductive PdfKind := pdf_invoice | pdf_report | pdf_call.
#[export] Instance PdfKind_eq : EqDecision PdfKind. Proof. solve_decision. Defined.
Definition openPdf (url : PdfKind → str → str) (kind : PdfKind) (id : option str) (disabled : bool) : option str :=
  match id with Some i => if disabled || isEmpty i then None else Some (url kind i) | None => None end.

(** ** The table *)

Inductive SortValue := sv_none | sv_number (n : num) | sv_text (s : str).
Inductive SortDir := asc | desc.
#[export] Instance SortDir_eq : EqDecision SortDir. Proof. solve_decision. Defined.

Section Table.
Context `{Host} {R : Type}.
Record Column := mkColumn { col_key : str; col_sortable : bool; col_value : R → SortValue }.
Record Sorting := mkSorting { so_key : option str; so_dir : SortDir }.
Definition openTable : Sorting := mkSorting None asc.
Definition toggleSort (col : Column) (s : Sorting) : Sorting :=
  if negb (col_sortable col) then s
  else if bool_decide (so_key s = Some (col_key col))
       then mkSorting (Some (col_key col)) (match so_dir s with asc => desc | desc => asc end)
       else mkSorting (Some (col_key col)) asc.
Definition valueText (v : SortValue) : str := match v with sv_none => [] | sv_number n => numberText n | sv_text s => s end.
Definition compareValues (va vb : SortValue) : Z :=
  match va, vb with
  | sv_number x, sv_number y => signOf (numSub x y)
  | _, _ => localeCompare (valueText va) (valueText vb)
  end.
Definition compareRows (col : Column) (dir : SortDir) (a b : R) : Z :=
  match col_value col a, col_value col b with
  | sv_none, _ => 1
  | _, sv_none => -1
  | va, vb => match dir with asc => compareValues va vb | desc => - compareValues va vb end
  end.
Definition displayRows (columns : list Column) (rows : list R) (s : Sorting) : list R :=
  match so_key s with
  | Some key => match findb (λ c, streq (col_key c) key) columns with
                | Some col => sort_by (compareRows col (so_dir s)) rows
                | None => rows
                end
  | None => rows
  end.
(** [aria-sort] of a header. *)
Definition ariaSort (col : Column) (s : Sorting) : option str :=
  if negb (col_sortable col) then None
  else if bool_decide (so_key s = Some (col_key col)) then Some (match so_dir s with asc => js "ascending" | desc => js "descending" end)
  else Some (js "none").
(** Return and the space bar on a row that can be clicked. *)
Definition rowOpens (clickable onRowItself : bool) (key : str) : bool :=
  clickable && onRowItself && (streq key (js "Enter") || streq key (js " ")).
End Table.
Arguments Column : clear implicits.

(** ** Dialogs and fields *)

(** [Drawer]: Escape, the close button and the scrim close it unless the guard objects. *)
Definition attemptClose (guard : option bool) : bool := negb (default false guard).
(** [ConfirmModal]: confirming also closes; the button may be disabled. *)
Definition confirmModal (disabled : bool) : option (bool * bool) := if disabled then None else Some (true, true).
(** The one note shown under a field. *)
Inductive FieldNote := fn_checking (s : str) | fn_error (s : str) | fn_ok (s : str) | fn_hint (s : str).
Definition present' (s : option str) : option str := match s with Some t => if isEmpty t then None else Some t | None => None end.
Definition fieldNote (checking error ok hint : option str) : option FieldNote :=
  match present' checking, present' error, present' ok, present' hint with
  | Some c, _, _, _ => Some (fn_checking c)
  | None, Some e, _, _ => Some (fn_error e)
  | None, None, Some o, _ => Some (fn_ok o)
  | None, None, None, Some h => Some (fn_hint h)
  | _, _, _, _ => None
  end.
Inductive StepShown := step_done | step_now | step_later.
Definition stepperState (current i : nat) : StepShown :=
  if (i <? current)%nat then step_done else if Nat.eqb i current then step_now else step_later.

(** ** The trail of the top bar *)

Record Crumb := mkCrumb { cb_label : str; cb_to : option str }.
Record Registered := mkRegistered { rgd_path : str; rgd_items : list Crumb }.
Definition pageCrumbs (registered : option Registered) (pathname fallback : str) : list Crumb :=
  match registered with
  | Some r => match rgd_items r with
              | [] => [mkCrumb fallback None]
              | items => if streq (rgd_path r) pathname then items else [mkCrumb fallback None]
              end
  | None => [mkCrumb fallback None]
  end.

(** ** What the table shows *)

Section Facts.
Context `{Host} {R : Type}.
Implicit Types (col : Column R) (rows : list R).

(** Sorting shows every row once, whatever the columns give. *)
Lemma displayRows_perm columns rows s : displayRows columns rows s ≡ₚ rows.
Proof. unfold displayRows. destruct (so_key s); [|done]. destruct (findb _ _); [apply sort_by_perm|done]. Qed.
Lemma compareValues_flip va vb : 0 < compareValues va vb → compareValues vb va <= 0.
Proof.
  destruct va as [|x|s], vb as [|y|t]; cbn [compareValues]; try (intros Hc%localeCompare_flip; lia). apply signOf_sub_flip.
Qed.
(** Rows that all have a value are in ascending order of it. *)
Definition complete col : Prop := ∀ r, col_value col r ≠ sv_none.
Lemma ascending_order columns rows col : findb (λ c, streq (col_key c) (col_key col)) columns = Some col → complete col →
  Sorted (λ a b, compareValues (col_value col a) (col_value col b) <= 0) (displayRows columns rows (mkSorting (Some (col_key col)) asc)).
Proof.
  intros Hf Hc. unfold displayRows. cbn [so_key so_dir]. rewrite Hf.
  assert (He : ∀ a b, compareRows col asc a b = compareValues (col_value col a) (col_value col b)).
  { intros a b. unfold compareRows. pose proof (Hc a). pose proof (Hc b). by destruct (col_value col a), (col_value col b). }
  assert (Hs : Sorted (λ a b, compareRows col asc a b <= 0) (sort_by (compareRows col asc) rows)).
  { apply sort_by_sorted. intros a b. rewrite !He. apply compareValues_flip. }
  induction Hs as [|a l _ IH Hh]; constructor; [done|]. destruct Hh; constructor. by rewrite <- He.
Qed.
(** Pressing a header sorts by it, ascending first and the other way each time after; a header
    that does not sort changes nothing. *)
Lemma toggles col s : let s1 := toggleSort col (mkSorting None (so_dir s)) in
  if col_sortable col then s1 = mkSorting (Some (col_key col)) asc ∧ so_dir (toggleSort col s1) = desc ∧ toggleSort col (toggleSort col s1) = s1
  else toggleSort col s = s.
Proof.
  cbv zeta. unfold toggleSort. destruct (col_sortable col); cbn [negb so_key so_dir]; [|done].
  rewrite bool_decide_eq_false_2 by done. cbn [so_key so_dir]. rewrite bool_decide_eq_true_2 by done. cbn [so_key so_dir].
  by rewrite bool_decide_eq_true_2.
Qed.
(** Two rows without a value are each placed after the other: the comparison is no order on
    them, and the browser is free in placing them. *)
Lemma missing_inconsistent col dir a b : col_value col a = sv_none → col_value col b = sv_none →
  compareRows col dir a b = 1 ∧ compareRows col dir b a = 1.
Proof. intros Ha Hb. unfold compareRows. by rewrite Ha, Hb. Qed.
(** A trail is shown on the page that registered it only. *)
Lemma crumbs_own registered pathname fallback : pageCrumbs registered pathname fallback = [mkCrumb fallback None] ∨
  ∃ r, registered = Some r ∧ rgd_path r = pathname ∧ pageCrumbs registered pathname fallback = rgd_items r.
Proof.
  unfold pageCrumbs. destruct registered as [[path items]|]; [|by left]. cbn. destruct items; [by left|].
  destruct (streq path pathname) eqn:E; [|by left]. right. apply streq_true in E. eauto.
Qed.
End Facts.
