(* ===== verification/PlatformPages.v ===== *)
(** * The platform's pages and the sessions of an account (frontend/src/system/SystemOverview.tsx,
    SystemAccount.tsx, SystemOrganizations.tsx, SystemAudit.tsx, SystemComponents.tsx,
    screens/AccountSecurity.tsx)

    The filters of the organization list, kept in the address, and of the audit trail; the
    verification that unlocks high-impact changes; the totals of the overview; the devices that
    are signed in.  [AppTypes.Device] is a row of that list. *)
From Stdlib Require Import SpecFloat.
From S2P Require Import Prelude JsString JsNumber Json Host Endpoints ApiClient AppTypes SystemAdmin UserManagement.

(** ** The list of organizations and its address *)

(** [URLSearchParams]: the entries in their order, keys may repeat. *)
Definition SearchParams : Type := list (str * str).
Definition paramDelete (key : str) (p : SearchParams) : SearchParams := filterb (λ e, negb (streq e.1 key)) p.
(** The first entry of the key takes the value and the others go; without one it is appended. *)
Fixpoint paramSet (key value : str) (p : SearchParams) : SearchParams :=
  match p with
  | [] => [(key, value)]
  | e :: p => if streq e.1 key then (key, value) :: paramDelete key p else e :: paramSet key value p
  end.
Inductive FilterChange := fc_text (key value : str) | fc_page (n : Z).
Definition applyChange (p : SearchParams) (c : FilterChange) : SearchParams :=
  match c with
  | fc_text key value => if isEmpty value || streq value (js "all") then paramDelete key p else paramSet key value p
  | fc_page n => if n =? 1 then paramDelete (js "page") p else paramSet (js "page") (printZ n) p
  end.
Definition updateSearchParams (changes : list FilterChange) (p : SearchParams) : SearchParams := foldl applyChange p changes.

(** [Number.isInteger(x) && x > 0] of decimal text, its value. *)
Definition positiveInteger (x : num) : option Z :=
  match x with
  | S754_finite false m e =>
    if 0 <=? e then Some (Zpos m * 2 ^ e)
    else if Zpos m mod 2 ^ (- e) =? 0 then Some (Zpos m / 2 ^ (- e)) else None
  | _ => None
  end.
Definition positivePage (value : option str) : Z :=
  match value with Some v => default 1 (positiveInteger (numberOfInput v)) | None => 1 end.

Record OrganizationFilters := mkFilters { of_page : Z; of_status : str; of_primaryPort : str }.
Definition readFilters (p : SearchParams) : OrganizationFilters :=
  mkFilters (positivePage (mget (js "page") p)) (default (js "all") (mget (js "status") p)) (default [] (mget (js "primaryPort") p)).
(** The page: what is typed in the search stays out of the address. *)
Record OrganizationsPage := mkOrganizationsPage { og_params : SearchParams; og_search : str; og_createOpen : bool }.
Definition openOrganizations (params : SearchParams) : OrganizationsPage := mkOrganizationsPage params [] false.
Inductive OrganizationsEvent := oe_search (s : str) | oe_status (s : str) | oe_port (s : str) | oe_page (n : Z) | oe_create | oe_closeCreate.
Definition withParams (f : SearchParams → SearchParams) (s : OrganizationsPage) : OrganizationsPage :=
  mkOrganizationsPage (f (og_params s)) (og_search s) (og_createOpen s).
Definition organizationsStep (mayCreate : bool) (count : Z) (e : OrganizationsEvent) (s : OrganizationsPage) : OrganizationsPage :=
  match e with
  | oe_search v => withParams (updateSearchParams [fc_page 1]) (mkOrganizationsPage (og_params s) v (og_createOpen s))
  | oe_status v => withParams (updateSearchParams [fc_text (js "status") v; fc_page 1]) s
  | oe_port v => withParams (updateSearchParams [fc_text (js "primaryPort") v; fc_page 1]) s
  | oe_page n => if bool_decide (previousPage (of_page (readFilters (og_params s))) = Some n)
                    || bool_decide (nextPage (of_page (readFilters (og_params s))) count 20 = Some n)
                 then withParams (updateSearchParams [fc_page n]) s else s
  | oe_create => if mayCreate then mkOrganizationsPage (og_params s) (og_search s) true else s
  | oe_closeCreate => mkOrganizationsPage (og_params s) (og_search s) false
  end.
(** The request for the rows; [search] is the deferred value. *)
Definition organizationsCall (search : str) (p : SearchParams) : SystemEndpoint :=
  let f := readFilters p in
  systemOrganizations (mkSystemList (Some (of_page f)) (Some 20) (Some search) (Some (of_status f)) (Some (of_primaryPort f)) None).
Definition filtered (search : str) (p : SearchParams) : bool :=
  truthy search || negb (streq (of_status (readFilters p)) (js "all")) || truthy (of_primaryPort (readFilters p)).
Definition organizationPath (id : str) : str := js "/system/organizations/" ++ Uri.encodeURIComponent id.

(** ** The audit trail *)

Record AuditPage := mkAuditPage { ad_page : Z; ad_search : str; ad_action : str }.
Definition openAudit : AuditPage := mkAuditPage 1 [] [].
Definition searchAudit (s : str) (p : AuditPage) : AuditPage := mkAuditPage 1 s (ad_action p).
Definition chooseAction (a : str) (p : AuditPage) : AuditPage := mkAuditPage 1 (ad_search p) a.
Definition auditCall (search : str) (p : AuditPage) : SystemEndpoint :=
  systemAudit (mkAuditList (Some (ad_page p)) (Some 20) (Some (ad_action p)) None (Some search)).
(** The choices: the actions of the rows shown. *)
Definition auditActions (rows : list str) : list str := sort_by cmpUnits (uniq rows).
(** What the select shows: the chosen action if it is among its options, else the first. *)
Definition selectShows (options : list str) (value : str) : str := if bool_decide (value ∈ [] :: options) then value else [].
Inductive ExportOffer := ex_none | ex_verify | ex_download.
Definition exportOffer `{Host} (mayExport : bool) (access : option PlatformAccess) (now : Z) : ExportOffer :=
  if negb mayExport then ex_none else if hasFreshPlatformAssurance access now then ex_download else ex_verify.
(** A click on the download, later: the file, or the page that verifies. *)
Definition exportClick `{Host} (access : option PlatformAccess) (now : Z) (p : AuditPage) : str :=
  if hasFreshPlatformAssurance access now then systemAuditExportPath None (Some (ad_action p)) None (Some (ad_search p))
  else js "/system/account".
(** [SystemError]: the message and the request's id. *)
Definition systemError (message requestId : option str) (fallback : str) : str * option str :=
  (match message with Some m => if isEmpty m then fallback else m | None => fallback end,
   match requestId with Some r => if isEmpty r then None else Some r | None => None end).

(** ** Verification of a platform administrator *)

(** A verification that was sent lives on when the page forgets it: [su_inFlight] has them all,
    with whether the session is already being read again; [su_observed] is the one whose state
    the page shows. *)
Record StepUp := mkStepUp {
  su_code : str; su_next : nat; su_inFlight : list (nat * bool); su_observed : option (nat * option (result str unit)) }.
Definition openStepUp : StepUp := mkStepUp [] 0 [] None.
Definition stepUpPending (s : StepUp) : bool := match su_observed s with Some (_, None) => true | _ => false end.
(** Typing resets what is shown. *)
Definition typeStepUp (code : str) (s : StepUp) : StepUp := mkStepUp code (su_next s) (su_inFlight s) None.
Definition submitStepUp (enrollmentRequired : bool) (s : StepUp) : option (StepUp * SystemEndpoint) :=
  if isEmpty (trim (su_code s)) || stepUpPending s || enrollmentRequired then None
  else Some (mkStepUp (su_code s) (S (su_next s)) (su_inFlight s ++ [(su_next s, false)]) (Some (su_next s, None)),
             systemStepUp (trim (su_code s))).
Definition settleStepUp (id : nat) (r : result str unit) (s : StepUp) : StepUp :=
  mkStepUp (su_code s) (su_next s) (filterb (λ e, negb (Nat.eqb e.1 id)) (su_inFlight s))
    match su_observed s with Some (i, None) => if Nat.eqb i id then Some (id, Some r) else su_observed s | o => o end.
(** After a success the code is cleared at once and the session is read again. *)
Definition stepUpAnswered (id : nat) (r : result str unit) (s : StepUp) : StepUp :=
  if negb (bool_decide ((id, false) ∈ su_inFlight s)) then s else
  match r with
  | Ok _ => mkStepUp [] (su_next s) (map (λ e, if Nat.eqb e.1 id then (id, true) else e) (su_inFlight s)) (su_observed s)
  | Err message => settleStepUp id (Err message) s
  end.
Definition stepUpRefreshed (id : nat) (s : StepUp) : StepUp :=
  if bool_decide ((id, true) ∈ su_inFlight s) then settleStepUp id (Ok tt) s else s.
Inductive stepUpRun (enrollmentRequired : bool) : StepUp → Prop :=
| sur_open : stepUpRun enrollmentRequired openStepUp
| sur_type code s : stepUpRun enrollmentRequired s → stepUpRun enrollmentRequired (typeStepUp code s)
| sur_submit s s' e : stepUpRun enrollmentRequired s → submitStepUp enrollmentRequired s = Some (s', e) → stepUpRun enrollmentRequired s'
| sur_answer id r s : stepUpRun enrollmentRequired s → stepUpRun enrollmentRequired (stepUpAnswered id r s)
| sur_refreshed id s : stepUpRun enrollmentRequired s → stepUpRun enrollmentRequired (stepUpRefreshed id s).
(** What the page says: verified recently or not. *)
Definition recentlyVerified (access : option PlatformAccess) : bool :=
  negb (bool_decide (access ≫= pa_stepUpRequired = Some true))
  && match access ≫= pa_assuranceExpiresAt with Some t => truthy t | None => false end.

(** ** The overview *)

Definition overviewTotals (data : option PlatformOverview) : list (str * str * str) :=
  let total f := default (js "—") (printZ ∘ f <$> data) in
  [(js "Organizations", total pov_organizationCount, js "Customer organizations");
   (js "Pending approval", total pov_pendingApprovalOrganizationCount, js "Awaiting platform review");
   (js "Active", total pov_activeOrganizationCount, js "Can access workspaces");
   (js "Suspended", total pov_suspendedOrganizationCount, js "Access blocked");
   (js "Active users", total pov_activeUserCount, printZ (default 0 (pov_pendingInvitationCount <$> data)) ++ js " pending invitations")].

(** ** The devices that are signed in *)

Record SessionsPanel := mkSessionsPanel { ss_revoking : option str; ss_signingOut : bool; ss_loggedOut : bool }.
Definition openSessions : SessionsPanel := mkSessionsPanel None false false.
Definition sessionName (d : DeviceSession) : str :=
  if dev_current d then js "This device" else match dev_userAgent d with Some a => if isEmpty a then js "Signed-in device" else a | None => js "Signed-in device" end.
Definition sessionAddress (d : DeviceSession) : str :=
  match dev_ipAddress d with Some a => if isEmpty a then js "IP unavailable" else a | None => js "IP unavailable" end.
(** The button of a row: not on this device, and one revocation at a time. *)
Definition revokeRow (d : DeviceSession) (s : SessionsPanel) : option (SessionsPanel * AuthEndpoint) :=
  if dev_current d || bool_decide (is_Some (ss_revoking s)) then None
  else Some (mkSessionsPanel (Some (dev_id d)) (ss_signingOut s) (ss_loggedOut s), revokeSession (dev_id d)).
(** Whether it succeeded; the list is then read again. *)
Definition revokeAnswered (accepted : bool) (s : SessionsPanel) : SessionsPanel * option AuthEndpoint :=
  (mkSessionsPanel None (ss_signingOut s) (ss_loggedOut s), if accepted then Some sessions else None).
Definition signOutAll (s : SessionsPanel) : option (SessionsPanel * AuthEndpoint) :=
  if ss_signingOut s then None else Some (mkSessionsPanel (ss_revoking s) true (ss_loggedOut s), signOutEverywhere).
Definition signOutAnswered (accepted : bool) (s : SessionsPanel) : SessionsPanel :=
  mkSessionsPanel (ss_revoking s) false (ss_loggedOut s || accepted).

(** ** Lemmas: parameters *)

Lemma mget_delete key k p : mget k (paramDelete key p) = if streq k key then None else mget k p.
Proof.
  unfold paramDelete. induction p as [|[k' v] p IH]; cbn [filterb mget fst]; [by destruct (streq k key)|].
  destruct (streq k' key) eqn:E; cbn [negb mget].
  - apply streq_true in E as ->. rewrite IH. destruct (streq k key) eqn:Ek; [done|]. rewrite decide_False; [done|]. by apply streq_false in Ek.
  - rewrite IH. case_decide as Hk; [|done]. subst k'. by rewrite E.
Qed.
Lemma mget_set key value k p : mget k (paramSet key value p) = if streq k key then Some value else mget k p.
Proof.
  induction p as [|[k' v] p IH]; cbn [paramSet mget fst].
  - destruct (streq k key) eqn:E; [apply streq_true in E; by rewrite decide_True|apply streq_false in E; by rewrite decide_False].
  - destruct (streq k' key) eqn:E.
    + apply streq_true in E as ->. cbn [mget]. rewrite mget_delete. destruct (streq k key) eqn:Ek.
      * apply streq_true in Ek. by rewrite decide_True.
      * apply streq_false in Ek. by rewrite !decide_False.
    + cbn [mget]. rewrite IH. case_decide as Hk; [|done]. subst k'. by rewrite E.
Qed.
Lemma mget_change c k p : mget k (applyChange p c) =
  match c with
  | fc_text key v => if streq k key then (if isEmpty v || streq v (js "all") then None else Some v) else mget k p
  | fc_page n => if streq k (js "page") then (if n =? 1 then None else Some (printZ n)) else mget k p
  end.
Proof.
  destruct c as [key v|n]; cbn [applyChange].
  - destruct (_ || _); by rewrite ?mget_delete, ?mget_set.
  - destruct (n =? 1); by rewrite ?mget_delete, ?mget_set.
Qed.
Lemma positiveInteger_exact n : 0 < n < 2 ^ 53 → positiveInteger (numOfZ n) = Some n.
Proof.
  intros [Hn Hm]. destruct n as [|m|]; [lia| |lia]. destruct (numOfZ_exact m Hm) as (mz & k & -> & Hk & Hz). cbn [positiveInteger].
  destruct (Z.leb_spec 0 (- k)).
  - assert (k = 0) as -> by lia. cbn [Z.opp]. rewrite Z.pow_0_r in *. f_equal. lia.
  - rewrite Z.opp_involutive, Hz, Z.mod_mul, Z.div_mul by lia. done.
Qed.
Lemma positivePage_print n : 1 <= n < 2 ^ 53 → positivePage (Some (printZ n)) = n.
Proof.
  intros Hn. cbn [positivePage]. unfold printZ. rewrite (proj2 (Z.ltb_ge _ _)), numberOfInput_printNat by lia.
  destruct n as [|p|]; [lia| |lia]. by rewrite positiveInteger_exact by lia.
Qed.

(** ** What the pages do *)

Lemma filter_keys : streq (js "page") (js "status") = false ∧ streq (js "page") (js "primaryPort") = false ∧
  streq (js "status") (js "page") = false ∧ streq (js "status") (js "primaryPort") = false ∧
  streq (js "primaryPort") (js "page") = false ∧ streq (js "primaryPort") (js "status") = false.
Proof. vm_compute. by split_and!. Qed.
#[local] Opaque js.
(** The address keeps the filters: choosing a status or a port is read back as it was
    chosen, starts at the first page and leaves the other filter alone; turning to a page is
    read back as that page with both filters kept - whatever else is in the address, repeated
    parameters included. *)
Theorem filters_read_back (p : SearchParams) (value : str) (n : Z) (Hpage : 1 <= n < 2 ^ 53) :
  readFilters (updateSearchParams [fc_text (js "status") value; fc_page 1] p) =
    mkFilters 1 (if isEmpty value then js "all" else value) (of_primaryPort (readFilters p)) ∧
  readFilters (updateSearchParams [fc_text (js "primaryPort") value; fc_page 1] p) =
    mkFilters 1 (of_status (readFilters p)) (if streq value (js "all") then [] else value) ∧
  readFilters (updateSearchParams [fc_page n] p) = mkFilters n (of_status (readFilters p)) (of_primaryPort (readFilters p)).
Proof.
  pose proof filter_keys as Hk.
  destruct Hk as (K1 & K2 & K3 & K4 & K5 & K6).
  unfold readFilters, updateSearchParams. cbn [foldl of_status of_primaryPort]. rewrite !mget_change, !streq_refl, ?K1, ?K2, ?K3, ?K4, ?K5, ?K6.
  cbn [Z.eqb Pos.eqb positivePage]. split_and!.
  - f_equal. destruct (isEmpty value); [done|]. cbn [orb]. destruct (streq value (js "all")) eqn:E; [|done]. by apply streq_true in E.
  - f_equal. destruct (streq value (js "all")) eqn:E; [by rewrite orb_true_r|]. by destruct value.
  - f_equal. destruct (n =? 1) eqn:E; [apply Z.eqb_eq in E; by subst|]. by apply positivePage_print.
Qed.
#[local] Transparent js.

(** What is verified is the code that is typed, once the page stopped waiting for the one
    before it, and never while an authenticator must still be set up. *)
Lemma stepUp_sends enrollmentRequired s s' e : submitStepUp enrollmentRequired s = Some (s', e) →
  e = systemStepUp (trim (su_code s)) ∧ trim (su_code s) ≠ [] ∧ enrollmentRequired = false ∧ stepUpPending s = false ∧ stepUpPending s' = true.
Proof.
  unfold submitStepUp. destruct (_ || _) eqn:E; [done|]. rewrite !orb_false_iff in E. destruct E as [[Et Ep] Ee]. intros [= <- <-].
  split_and!; try done. by destruct (trim (su_code s)).
Qed.
Lemma stepUp_pending_in_flight enrollmentRequired s id : stepUpRun enrollmentRequired s → su_observed s = Some (id, None) →
  ∃ refreshing, (id, refreshing) ∈ su_inFlight s.
Proof.
  intros Hr. revert id. induction Hr as [|code s Hr IH|s s' e Hr IH Hs|id r s Hr IH|id s Hr IH]; intros i Hi; try done.
  - unfold submitStepUp in Hs. destruct (_ || _); [done|]. injection Hs as <- <-. cbn in *. injection Hi as <-. exists false. set_solver.
  - unfold stepUpAnswered in *. destruct (negb _); [by apply IH|]. destruct r as [u|m]; cbn in *.
    + destruct (IH i Hi) as [b Hb]. exists (if Nat.eqb i id then true else b). apply list_elem_of_fmap. exists (i, b). split; [|done]. cbn.
      destruct (Nat.eqb_spec i id); [by subst|done].
    + destruct (su_observed s) as [[j [x|]]|] eqn:Eo; try done. destruct (Nat.eqb_spec j id); [done|]. injection Hi as ->.
      destruct (IH i eq_refl) as [b Hb]. exists b. apply elem_of_filterb. split; [done|]. cbn. by apply negb_true_iff, Nat.eqb_neq.
  - unfold stepUpRefreshed in *. destruct (bool_decide _); [|by apply IH]. cbn in *.
    destruct (su_observed s) as [[j [x|]]|] eqn:Eo; try done. destruct (Nat.eqb_spec j id); [done|]. injection Hi as ->.
    destruct (IH i eq_refl) as [b Hb]. exists b. apply elem_of_filterb. split; [done|]. cbn. by apply negb_true_iff, Nat.eqb_neq.
Qed.
(** A code typed while an earlier one is being verified can be sent at once, and is wiped from
    the field when the earlier one is accepted. *)
Lemma late_verification_clears s s' e code : submitStepUp false s = Some (s', e) → trim code ≠ [] →
  (∃ s2, submitStepUp false (typeStepUp code s') = Some (s2, systemStepUp (trim code))) ∧
  su_code (stepUpAnswered (su_next s) (Ok tt) (typeStepUp code s')) = [].
Proof.
  unfold submitStepUp at 1. destruct (_ || _); [done|]. intros [= <- <-] Hc. split.
  - unfold submitStepUp. cbn [typeStepUp su_code su_observed stepUpPending orb]. destruct (trim code); [done|]. cbn. eauto.
  - unfold stepUpAnswered. cbn [typeStepUp su_inFlight]. rewrite bool_decide_eq_true_2 by set_solver. done.
Qed.
(** The account's page goes on saying that the verification is recent after it has expired,
    when the audit's page already asks for a new one. *)
Lemma expired_still_recent `{Host} access now t e : pa_stepUpRequired access ≠ Some true → pa_assuranceExpiresAt access = Some t → t ≠ [] →
  dateParse t = Some e → e <= now →
  recentlyVerified (Some access) = true ∧ hasFreshPlatformAssurance (Some access) now = false ∧ exportOffer true (Some access) now = ex_verify.
Proof.
  intros Hs Ht Hne He Hn. assert (Hf : hasFreshPlatformAssurance (Some access) now = false).
  { unfold hasFreshPlatformAssurance. rewrite Ht, He, (proj2 (Z.ltb_ge _ _)) by done. by rewrite !andb_false_r. }
  unfold exportOffer. rewrite Hf. split_and!; [|done|done]. unfold recentlyVerified. cbn. rewrite Ht, bool_decide_eq_false_2 by done. by destruct t.
Qed.
(** When no shown event has the chosen action any more, the select says "All actions" while
    the request still asks for the one that was chosen. *)
Lemma audit_filter_hidden action rows p : action ≠ [] → action ∉ rows →
  selectShows (auditActions rows) (ad_action (chooseAction action p)) = [] ∧
  auditCall (ad_search p) (chooseAction action p) = systemAudit (mkAuditList (Some 1) (Some 20) (Some action) None (Some (ad_search p))).
Proof.
  intros Ha Hr. split; [|done]. unfold selectShows, auditActions. cbn. rewrite bool_decide_eq_false_2; [done|].
  intros [?|Hin]%elem_of_cons; [done|]. by rewrite elem_of_sort_by, elem_of_uniq in Hin.
Qed.
(** A row never ends the session of this device, and rows are ended one at a time. *)
Lemma revoked_elsewhere d s s' e : revokeRow d s = Some (s', e) → dev_current d = false ∧ e = revokeSession (dev_id d) ∧
  ∀ d', revokeRow d' s' = None.
Proof.
  unfold revokeRow. destruct (dev_current d); [done|]. destruct (bool_decide _); [done|]. intros [= <- <-]. split_and!; try done.
  intros d'. unfold revokeRow. cbn [ss_revoking]. by rewrite bool_decide_eq_true_2, orb_true_r by eauto.
Qed.

Example filters_ex : readFilters [(js "status", js "active"); (js "page", js "3"); (js "status", js "suspended")] = mkFilters 3 (js "active") []
  ∧ map (λ v, positivePage (Some (js v))) ["0"; "-2"; "2.5"; "1e2"; "x"; ""]%string = [1; 1; 1; 100; 1; 1].
Proof. vm_compute. split; reflexivity. Qed.
Lemma filters_read_back_witness :
  readFilters (updateSearchParams [fc_page 7] [(js "page", js "3"); (js "status", js "active")]) = mkFilters 7 (js "active") [].
Proof. apply (filters_read_back [(js "page", js "3"); (js "status", js "active")] [] 7). lia. Defined.
