(* ===== verification/ServiceWorker.v ===== *)
(** * The service worker (frontend/public/sw.js)

    The worker between the application's tabs and the network: which requests it takes, what it
    answers them with and what it keeps in the browser's caches.  The Cache API is a parameter:
    [cacheMatch q k r] is its comparison of a request with a stored entry. *)
From S2P Require Import Prelude JsString.

(** ** Requests and caches *)

Record Request := mkRequest { rq_method : str; rq_url : str; rq_mode : str }.
Definition CACHE_NAME : str := js "vessel-caller-shell-v1".
Definition SHELL_URLS : list str := [js "/"; js "/capture"].

Section Worker.
Context {Body : Type}.
Record Response := mkResponse { rs_ok : bool; rs_body : Body }.
Definition Cache : Type := list (Request * Response).
(** The caches of the origin in the order they were created. *)
Definition Caches : Type := list (str * Cache).

Context (originOf pathnameOf : str → str) (selfOrigin : str) (shellRequest : str → Request).
Context (cacheMatch : Request → Request → Response → bool) (putRejects : Request → Response → bool).

Definition intercepts (request : Request) : bool :=
  streq (rq_method request) (js "GET") && streq (originOf (rq_url request)) selfOrigin
  && negb (startsWith (js "/api/") (pathnameOf (rq_url request))).
Definition navigates (request : Request) : bool := streq (rq_mode request) (js "navigate").

(** [cache.match] and [caches.match]: the first entry that matches, cache after cache. *)
Definition matchCache (request : Request) (cache : Cache) : option Response :=
  snd <$> findb (λ e, cacheMatch request e.1 e.2) cache.
Definition matchCaches (request : Request) (caches : Caches) : option Response :=
  matchCache request (flat_map snd caches).
(** [caches.open] creates the cache it does not find; [cache.put] replaces what matches, and
    rejects some answers (partial ones, for instance), which changes nothing. *)
Definition openCache (name : str) (caches : Caches) : Cache := default [] (mget name caches).
Definition putEntry (entry : Request * Response) (cache : Cache) : Cache :=
  if putRejects entry.1 entry.2 then cache else filterb (λ e, negb (cacheMatch entry.1 e.1 e.2)) cache ++ [entry].

(** ** The worker *)

(** What a request waits for: the caches, the network - with or without an answer given from
    the cache already - or, when a navigation failed, its own entry and then the shell. *)
Inductive Job :=
| job_match (request : Request)
| job_network (request : Request) (answered : bool)
| job_navigation (request : Request)
| job_fallback (request : Request)
| job_shell (request : Request).
(** [sw_seen], [sw_network] and [sw_replies] record what happened: the requests taken, the
    network's answers, and what was answered ([None]: a network error). *)
Record Worker := mkWorker {
  sw_caches : Caches; sw_jobs : list Job; sw_puts : list (Request * Response);
  sw_seen : list Request; sw_network : list (Request * Response); sw_replies : list (Request * option Response) }.
Definition startWorker (caches : Caches) (network : list (Request * Response)) : Worker := mkWorker caches [] [] [] network [].

(** [install]: [addAll] stores the shell's answers together, or none of them. *)
Definition installShell (answers : list (option Response)) (s : Worker) : Worker :=
  let opened := mset CACHE_NAME (openCache CACHE_NAME (sw_caches s)) (sw_caches s) in
  match mapM id answers with
  | Some rs =>
    let entries := zip (map shellRequest SHELL_URLS) rs in
    let network := sw_network s ++ entries in
    if Nat.eqb (length rs) (length SHELL_URLS) && forallb (λ e, rs_ok e.2 && negb (putRejects e.1 e.2)) entries
    then mkWorker (mset CACHE_NAME (foldl (λ c e, putEntry e c) (openCache CACHE_NAME opened) entries) opened)
           (sw_jobs s) (sw_puts s) (sw_seen s) network (sw_replies s)
    else mkWorker opened (sw_jobs s) (sw_puts s) (sw_seen s) network (sw_replies s)
  | None => mkWorker opened (sw_jobs s) (sw_puts s) (sw_seen s) (sw_network s) (sw_replies s)
  end.
(** [activate]: only the cache of this version stays. *)
Definition activateWorker (s : Worker) : Worker :=
  mkWorker (filterb (λ e, streq e.1 CACHE_NAME) (sw_caches s)) (sw_jobs s) (sw_puts s) (sw_seen s) (sw_network s) (sw_replies s).
(** [fetch]: without [respondWith] the browser sends the request as usual. *)
Definition onFetch (request : Request) (s : Worker) : Worker :=
  if intercepts request
  then mkWorker (sw_caches s) (sw_jobs s ++ [if navigates request then job_navigation request else job_match request]) (sw_puts s)
         (sw_seen s ++ [request]) (sw_network s) (sw_replies s)
  else s.

(** A job goes on as [jobs]; what it stores, hears from the network and answers is added. *)
Definition goOn (i : nat) (jobs : list Job) (puts network : list (Request * Response)) (replies : list (Request * option Response))
    (s : Worker) : Worker :=
  mkWorker (sw_caches s) (delete i (sw_jobs s) ++ jobs) (sw_puts s ++ puts) (sw_seen s) (sw_network s ++ network) (sw_replies s ++ replies).
(** The caches answer job [i]. *)
Definition matched (i : nat) (s : Worker) : Worker :=
  match sw_jobs s !! i with
  | Some (job_match q) =>
    match matchCaches q (sw_caches s) with
    | Some r => goOn i [job_network q true] [] [] [(q, Some r)] s
    | None => goOn i [job_network q false] [] [] [] s
    end
  | Some (job_fallback q) =>
    match matchCaches q (sw_caches s) with
    | Some r => goOn i [] [] [] [(q, Some r)] s
    | None => goOn i [job_shell q] [] [] [] s
    end
  | Some (job_shell q) => goOn i [] [] [] [(q, matchCaches (shellRequest (js "/")) (sw_caches s))] s
  | _ => s
  end.
(** The network answers job [i], or fails. *)
Definition networkAnswered (i : nat) (answer : option Response) (s : Worker) : Worker :=
  match sw_jobs s !! i, answer with
  | Some (job_navigation q), Some r => goOn i [] [(q, r)] [(q, r)] [(q, Some r)] s
  | Some (job_navigation q), None => goOn i [job_fallback q] [] [] [] s
  | Some (job_network q answered), Some r =>
    goOn i [] (if rs_ok r then [(q, r)] else []) [(q, r)] (if answered then [] else [(q, Some r)]) s
  | Some (job_network q answered), None => goOn i [] [] [] (if answered then [] else [(q, None)]) s
  | _, _ => s
  end.
(** A copy reaches the cache; the copies are stored in any order. *)
Definition putLanded (i : nat) (s : Worker) : Worker :=
  match sw_puts s !! i with
  | Some entry => mkWorker (mset CACHE_NAME (putEntry entry (openCache CACHE_NAME (sw_caches s))) (sw_caches s))
                    (sw_jobs s) (delete i (sw_puts s)) (sw_seen s) (sw_network s) (sw_replies s)
  | None => s
  end.

Inductive WorkerEvent :=
| we_install (answers : list (option Response)) | we_activate | we_fetch (request : Request)
| we_matched (i : nat) | we_network (i : nat) (answer : option Response) | we_put (i : nat).
Definition workerStep (s : Worker) (e : WorkerEvent) : Worker :=
  match e with
  | we_install answers => installShell answers s
  | we_activate => activateWorker s
  | we_fetch request => onFetch request s
  | we_matched i => matched i s
  | we_network i answer => networkAnswered i answer s
  | we_put i => putLanded i s
  end.
Definition workerRun (events : list WorkerEvent) (s : Worker) : Worker := foldl workerStep s events.
End Worker.
Arguments Response : clear implicits.
Arguments Worker : clear implicits.
Arguments WorkerEvent : clear implicits.

(** ** What the worker keeps and answers *)

Section Facts.
Context {Body : Type} (originOf pathnameOf : str → str) (selfOrigin : str) (shellRequest : str → Request).
Context (cacheMatch : Request → Request → Response Body → bool) (putRejects : Request → Response Body → bool).
(** The shell's requests are ordinary ones to the worker's own origin. *)
Context (Hshell : ∀ path, path ∈ SHELL_URLS → intercepts originOf pathnameOf selfOrigin (shellRequest path) = true).
#[local] Abbreviation intercepts := (intercepts originOf pathnameOf selfOrigin).
#[local] Abbreviation step := (workerStep originOf pathnameOf selfOrigin shellRequest cacheMatch putRejects).
#[local] Abbreviation run := (workerRun originOf pathnameOf selfOrigin shellRequest cacheMatch putRejects).
#[local] Abbreviation Worker := (Worker Body).
#[local] Abbreviation Response := (Response Body).

Definition cacheEntries (caches : list (str * list (Request * Response))) : list (Request * Response) := flat_map snd caches.
(** An entry worth keeping: the network's answer to a request the worker takes, a good one
    unless it is a page. *)
Definition kept (network : list (Request * Response)) (e : Request * Response) : Prop :=
  e ∈ network ∧ intercepts e.1 = true ∧ (navigates e.1 = true ∨ rs_ok e.2 = true).
(** The requests that still wait for their answer. *)
Definition owes (j : Job) : list Request :=
  match j with
  | job_match q | job_network q false | job_navigation q | job_fallback q | job_shell q => [q]
  | job_network _ true => []
  end.
Definition jobOk (j : Job) : Prop :=
  match j with
  | job_match q | job_network q _ => intercepts q = true ∧ navigates q = false
  | job_navigation q | job_fallback q | job_shell q => intercepts q = true ∧ navigates q = true
  end.
Definition answeredWell (network : list (Request * Response)) (reply : Request * option Response) : Prop :=
  intercepts reply.1 = true ∧ ∀ r, reply.2 = Some r → (reply.1, r) ∈ network ∨ ∃ k, kept network (k, r) ∧
    (cacheMatch reply.1 k r = true ∨ navigates reply.1 = true ∧ cacheMatch (shellRequest (js "/")) k r = true).

Record workerOk (s : Worker) : Prop := {
  wo_entries : Forall (kept (sw_network s)) (cacheEntries (sw_caches s));
  wo_puts : Forall (kept (sw_network s)) (sw_puts s);
  wo_jobs : Forall jobOk (sw_jobs s);
  wo_replies : Forall (answeredWell (sw_network s)) (sw_replies s);
  wo_seen : sw_seen s ≡ₚ map fst (sw_replies s) ++ flat_map owes (sw_jobs s) }.

Lemma kept_more network more e : kept network e → kept (network ++ more) e.
Proof. intros [H1 H2]. split; [set_solver|done]. Qed.
Lemma answered_more network more reply : answeredWell network reply → answeredWell (network ++ more) reply.
Proof.
  intros [H1 H2]. split; [done|]. intros r Hr. destruct (H2 r Hr) as [Hn|(k & Hk & Hm)]; [left; set_solver|right].
  exists k. split; [by apply kept_more|done].
Qed.
Lemma entries_mset k v m e : e ∈ cacheEntries (mset k v m) → e ∈ v ∨ e ∈ cacheEntries m.
Proof.
  unfold cacheEntries. induction m as [|[k' v'] m IH]; cbn [mset flat_map snd]; [set_solver|].
  case_match; cbn [flat_map snd]; set_solver.
Qed.
Lemma entries_mget k v m e : mget k m = Some v → e ∈ v → e ∈ cacheEntries m.
Proof. intros Hm%mget_Some_elem He. unfold cacheEntries. apply list_elem_of_In, in_flat_map. exists (k, v). by rewrite <- !list_elem_of_In. Qed.
Lemma entries_open k m e : e ∈ openCache k m → e ∈ cacheEntries m.
Proof. unfold openCache. destruct (mget k m) eqn:E; [by eapply entries_mget|set_solver]. Qed.
Lemma elem_of_putEntry entry c e : e ∈ putEntry cacheMatch putRejects entry c → e = entry ∨ e ∈ c.
Proof. unfold putEntry. case_match; [by right|]. rewrite elem_of_app, elem_of_filterb. set_solver. Qed.
Lemma elem_of_puts news c e : e ∈ foldl (λ c e, putEntry cacheMatch putRejects e c) c news → e ∈ news ∨ e ∈ c.
Proof.
  revert c. induction news as [|n news IH]; intros c; [by right|]. cbn. intros [H|[->|H]%elem_of_putEntry]%IH; set_solver.
Qed.
(** Putting entries into a cache keeps what holds of all entries. *)
Lemma stored P k news m : Forall P news → Forall P (cacheEntries m) →
  Forall P (cacheEntries (mset k (foldl (λ c e, putEntry cacheMatch putRejects e c) (openCache k m) news) m)).
Proof.
  rewrite !Forall_forall. intros Hn Hm e [[He|He%entries_open]%elem_of_puts|He]%entries_mset; auto.
Qed.
Lemma matchCaches_kept network m q r : Forall (kept network) (cacheEntries m) → matchCaches cacheMatch q m = Some r →
  ∃ k, kept network (k, r) ∧ cacheMatch q k r = true.
Proof.
  rewrite Forall_forall. unfold matchCaches, matchCache. intros Hm Hf. apply fmap_Some in Hf as ([k r'] & [Hin Hq]%findb_Some & ->).
  exists k. auto.
Qed.

(** A job goes on: it owes its answer until it gives it. *)
Lemma goOn_ok i j jobs puts network replies s : sw_jobs s !! i = Some j → workerOk s → Forall jobOk jobs →
  Forall (kept (sw_network s ++ network)) puts → Forall (answeredWell (sw_network s ++ network)) replies →
  owes j = map fst replies ++ flat_map owes jobs → workerOk (goOn i jobs puts network replies s).
Proof.
  intros Hj [He Hp Hjobs Hr Hs] Hjs Hps Hrs Ho. split; cbn [goOn sw_caches sw_network sw_puts sw_jobs sw_replies sw_seen].
  - eapply Forall_impl; [exact He|]. intros e. apply kept_more.
  - apply Forall_app. split; [|done]. eapply Forall_impl; [exact Hp|]. intros e. apply kept_more.
  - apply Forall_app. split; [|done]. by apply Forall_delete.
  - apply Forall_app. split; [|done]. eapply Forall_impl; [exact Hr|]. intros e. apply answered_more.
  - rewrite Hs. rewrite (Permutation_flat_map owes (delete_Permutation _ _ _ Hj)). cbn [flat_map]. rewrite Ho, map_app, flat_map_app.
    rewrite <- !app_assoc. apply Permutation_app_head, Permutation_app_head. apply Permutation_app_comm.
Qed.
Lemma job_ok i j s : workerOk s → sw_jobs s !! i = Some j → jobOk j.
Proof. intros [_ _ Hj _ _] Hi. by eapply Forall_lookup_1 in Hj. Qed.
Ltac short_lists := repeat (apply Forall_nil_2 || (apply Forall_cons_2; [|apply Forall_nil_2])).
Lemma matched_ok i s : workerOk s → workerOk (matched shellRequest cacheMatch i s).
Proof.
  intros Hw. unfold matched. destruct (sw_jobs s !! i) as [j|] eqn:Ej; [|done]. pose proof (job_ok i j s Hw Ej) as Hj.
  assert (Hc : ∀ q r, matchCaches cacheMatch q (sw_caches s) = Some r → ∃ k, kept (sw_network s ++ []) (k, r) ∧ cacheMatch q k r = true).
  { intros q r. apply matchCaches_kept. rewrite app_nil_r. apply Hw. }
  destruct j as [q|q a|q|q|q]; try done; destruct Hj as [Hq Hn]; try (destruct (matchCaches _ _ _) as [r|] eqn:Em);
    (eapply goOn_ok; [exact Ej|done|..]); try done; short_lists; try done; split; try done; cbn [fst snd].
  all: intros r' [= <-]; right; destruct (Hc _ _ Em) as (k & Hk & Hm); eauto.
Qed.
Lemma networkAnswered_ok i answer s : workerOk s → workerOk (networkAnswered i answer s).
Proof.
  intros Hw. unfold networkAnswered. destruct (sw_jobs s !! i) as [j|] eqn:Ej; [|done]. pose proof (job_ok i j s Hw Ej) as Hj.
  assert (Hnew : ∀ q r, (q, r) ∈ sw_network s ++ [(q, r)]) by set_solver.
  destruct j as [q|q a|q|q|q]; try done; destruct Hj as [Hq Hn]; destruct answer as [r|]; try destruct a;
    (eapply goOn_ok; [exact Ej|done|..]); try done; try (destruct (rs_ok r) eqn:Er); short_lists; try done; split; try done; cbn [fst snd]; auto.
  all: intros r' [= <-]; auto.
Qed.
Lemma caches_ok s caches network : workerOk s → Forall (kept (sw_network s ++ network)) (cacheEntries caches) →
  workerOk (mkWorker caches (sw_jobs s) (sw_puts s) (sw_seen s) (sw_network s ++ network) (sw_replies s)).
Proof.
  intros [He Hp Hj Hr Hs] Hc. split; cbn; [done| |done| |done].
  - eapply Forall_impl; [exact Hp|]. intros e. apply kept_more.
  - eapply Forall_impl; [exact Hr|]. intros e. apply answered_more.
Qed.
Lemma opened_kept P m : Forall P (cacheEntries m) → Forall P (cacheEntries (mset CACHE_NAME (openCache CACHE_NAME m) m)).
Proof. apply (stored P CACHE_NAME [] m). by apply Forall_nil_2. Qed.
Lemma shell_entries (rs : list Response) (e : Request * Response) : length rs = length SHELL_URLS → e ∈ zip (map shellRequest SHELL_URLS) rs → intercepts e.1 = true.
Proof.
  intros Hl He. destruct e as [k r]. apply elem_of_zip_l in He. apply list_elem_of_fmap in He as (path & -> & Hp). by apply Hshell.
Qed.
Lemma installShell_ok answers s : workerOk s → workerOk (installShell shellRequest cacheMatch putRejects answers s).
Proof.
  intros Hw. pose proof (opened_kept _ _ (wo_entries s Hw)) as Ho. unfold installShell. destruct (mapM id answers) as [rs|]; cycle 1.
  { rewrite <- (app_nil_r (sw_network s)). apply caches_ok; [done|]. by rewrite app_nil_r. }
  assert (Hmore : ∀ l m, Forall (kept (sw_network s)) m → Forall (kept (sw_network s ++ l)) m).
  { intros l m Hm. eapply Forall_impl; [exact Hm|]. intros e. apply kept_more. }
  destruct (_ && _) eqn:E; apply caches_ok; try done; [|by apply Hmore].
  apply andb_true_iff in E as [Hl%Nat.eqb_eq Hok]. apply stored; [|by apply Hmore]. apply Forall_forall. intros e He.
  split_and!; [set_solver|by eapply shell_entries|]. right. rewrite forallb_forall in Hok. by apply list_elem_of_In, Hok, andb_true_iff in He as [? _].
Qed.
Lemma step_ok s e : workerOk s → workerOk (step s e).
Proof.
  intros Hw. destruct e as [answers| |q|i|i answer|i]; cbn [workerStep].
  - by apply installShell_ok.
  - unfold activateWorker. rewrite <- (app_nil_r (sw_network s)). apply caches_ok; [done|]. rewrite app_nil_r.
    pose proof (wo_entries s Hw) as He. rewrite Forall_forall in *. intros e Hin. apply He. unfold cacheEntries in *.
    apply list_elem_of_In, in_flat_map in Hin as (c & Hc%list_elem_of_In%elem_of_filterb & Hin).
    apply list_elem_of_In, in_flat_map. exists c. split; [apply list_elem_of_In, Hc|done].
  - unfold onFetch. destruct (intercepts q) eqn:Eq; [|done]. destruct Hw as [He Hp Hj Hr Hs].
    split; cbn; try done.
    + apply Forall_app. split; [done|]. apply Forall_singleton. by destruct (navigates q) eqn:En.
    + rewrite flat_map_app, app_assoc. apply Permutation_app; [exact Hs|]. by destruct (navigates q).
  - by apply matched_ok.
  - by apply networkAnswered_ok.
  - unfold putLanded. destruct (sw_puts s !! i) as [entry|] eqn:Ei; [|done]. destruct Hw as [He Hp Hj Hr Hs].
    split; cbn [sw_network sw_caches sw_puts sw_jobs sw_replies sw_seen]; [|by apply Forall_delete|done..].
    apply (stored _ CACHE_NAME [entry]); [|done].
    apply Forall_singleton. by eapply Forall_lookup_1 in Hp.
Qed.
Lemma run_ok events s : workerOk s → workerOk (run events s).
Proof. revert s. induction events as [|e events IH]; intros s Hs; [done|]. by apply IH, step_ok. Qed.

(** Every request the worker takes ends: a step on its behalf leaves less to do, and with no job
    left each has its one answer. *)
Definition workLeft (j : Job) : nat :=
  match j with job_navigation _ => 3 | job_match _ | job_fallback _ => 2 | job_network _ _ | job_shell _ => 1 end%nat.
Definition allWork (s : Worker) : nat := sum_list_with workLeft (sw_jobs s).
Lemma goOn_work i j jobs puts network replies s : sw_jobs s !! i = Some j →
  (sum_list_with workLeft jobs < workLeft j)%nat → (allWork (goOn i jobs puts network replies s) < allWork s)%nat.
Proof.
  intros Hj Hl. unfold allWork. cbn [goOn sw_jobs]. rewrite delete_take_drop, !sum_list_with_app.
  rewrite <- (take_drop_middle _ _ _ Hj) at 3. rewrite sum_list_with_app. cbn [sum_list_with]. lia.
Qed.
Lemma job_advances i j s : sw_jobs s !! i = Some j →
  match j with job_network _ _ | job_navigation _ => ∀ answer, (allWork (networkAnswered i answer s) < allWork s)%nat
             | _ => (allWork (matched shellRequest cacheMatch i s) < allWork s)%nat end.
Proof.
  intros Hj. unfold matched, networkAnswered. rewrite Hj.
  destruct j; try intros [r|]; try (destruct (matchCaches _ _ _) as [r|]); eapply goOn_work; try exact Hj; cbn; lia.
Qed.
End Facts.

(** ** What it promises *)

Section Promise.
(** [hrefOf]: an address as a whole, with its query, without its fragment. *)
Context {Body : Type} (hrefOf originOf pathnameOf : str → str) (selfOrigin : str) (shellRequest : str → Request).
Context (cacheMatch : Request → Request → Response Body → bool) (putRejects : Request → Response Body → bool).
Definition samePlace (q k : Request) : Prop :=
  hrefOf (rq_url q) = hrefOf (rq_url k) ∧ originOf (rq_url q) = originOf (rq_url k) ∧ pathnameOf (rq_url q) = pathnameOf (rq_url k).
(** Documented of the Cache API: an entry only matches a request to the same address, its query
    included and its fragment left aside; and of
    [Request]: a path given to [addAll] or [match] is resolved against the worker's origin. *)
Definition cacheLaw : Prop := ∀ q k r, cacheMatch q k r = true → samePlace q k.
Definition shellLaw : Prop := ∀ path, path ∈ SHELL_URLS →
  rq_method (shellRequest path) = js "GET" ∧ originOf (rq_url (shellRequest path)) = selfOrigin ∧ pathnameOf (rq_url (shellRequest path)) = path.
Lemma shell_taken : shellLaw → ∀ path, path ∈ SHELL_URLS → intercepts originOf pathnameOf selfOrigin (shellRequest path) = true.
Proof.
  intros Hl path Hp. destruct (Hl path Hp) as (Hmethod & Ho & Hn). unfold intercepts. rewrite Hmethod, Ho, Hn, !streq_refl.
  apply elem_of_cons in Hp as [->|Hp]; [by vm_compute|]. apply list_elem_of_singleton in Hp as ->. by vm_compute.
Qed.

(** C14. The service worker never shows what it should not have kept. Whatever is fetched, fails
    and is stored in whatever order, also over caches of earlier versions: everything in the
    caches is the network's answer to a GET request of the application's own origin outside
    /api/, and only pages are kept without being good answers; every request it takes gets one
    answer - the network's own, one kept for the same address and query, or, for a page that could
    not be loaded, the one kept for the application's start page. *)
Theorem worker_answers (caches : list (str * list (Request * Response Body))) network events s
    (Hcache : cacheLaw) (Hshell : shellLaw)
    (Hstart : Forall (kept originOf pathnameOf selfOrigin network) (cacheEntries caches))
    (Hrun : workerRun originOf pathnameOf selfOrigin shellRequest cacheMatch putRejects events (startWorker caches network) = s) :
  (∀ k r, (k, r) ∈ cacheEntries (sw_caches s) → (k, r) ∈ sw_network s ∧ rq_method k = js "GET" ∧ originOf (rq_url k) = selfOrigin ∧
     startsWith (js "/api/") (pathnameOf (rq_url k)) = false ∧ (navigates k = true ∨ rs_ok r = true)) ∧
  (∀ q r, (q, Some r) ∈ sw_replies s → (q, r) ∈ sw_network s ∨
     ∃ k, (k, r) ∈ sw_network s ∧ (samePlace q k ∨
       navigates q = true ∧ samePlace (shellRequest (js "/")) k ∧ originOf (rq_url k) = selfOrigin ∧ pathnameOf (rq_url k) = js "/")) ∧
  sw_seen s ≡ₚ map fst (sw_replies s) ++ flat_map owes (sw_jobs s).
Proof.
  pose proof (shell_taken Hshell) as Htaken.
  destruct (run_ok originOf pathnameOf selfOrigin shellRequest cacheMatch putRejects Htaken events (startWorker caches network)) as [He _ _ Hr Hs].
  { split; cbn [startWorker sw_caches sw_puts sw_jobs sw_replies sw_network sw_seen]; [done|by apply Forall_nil_2..|done]. }
  rewrite Hrun in *. split_and!; [| |done].
  - intros k r Hin. rewrite Forall_forall in He. destruct (He _ Hin) as (Hn & Hi & Hg). cbn [fst snd] in *.
    unfold intercepts in Hi. apply andb_true_iff in Hi as [[Hm Ho]%andb_true_iff Ha%negb_true_iff].
    apply streq_true in Hm, Ho. done.
  - intros q r Hin. rewrite Forall_forall in Hr. destruct (Hr _ Hin) as [_ Ha]. cbn [fst snd] in Ha.
    destruct (Ha r eq_refl) as [Hn|(k & (Hn & _) & [Hm|[Hq Hm]])]; [by left|right; exists k|right; exists k].
    + split; [done|]. left. by eapply Hcache.
    + split; [done|]. right. apply Hcache in Hm. destruct (Hshell (js "/")) as (_ & Eo & Ep); [apply elem_of_cons; by left|].
      pose proof Hm as (_ & Ho & Hp). by rewrite <- Ho, <- Hp.
Qed.
End Promise.

(** ** A run with concrete addresses *)

Definition ownRequest (mode path : str) : Request := mkRequest (js "GET") path mode.
Definition sameUrl (q k : Request) (_ : Response str) : bool := streq (rq_url q) (rq_url k).
Definition atHome : list (WorkerEvent str) → Worker str :=
  λ events, workerRun (λ _, js "https://app") id (js "https://app") (ownRequest (js "cors")) sameUrl (λ _ _, false) events (startWorker [] []).
Definition good (text : string) : Response str := mkResponse true (js text).
Definition shellInstalled : WorkerEvent str := we_install [Some (good "the application"); Some (good "the capture screen")].
Definition offlineRun : list (WorkerEvent str) :=
  [shellInstalled; we_activate; we_fetch (ownRequest (js "navigate") (js "/app/vessels")); we_network 0 None; we_matched 0; we_matched 0].

(** Offline, a page that was never loaded is answered with the start page. *)
Example offline_shell : sw_replies (atHome offlineRun) = [(ownRequest (js "navigate") (js "/app/vessels"), Some (good "the application"))].
Proof. vm_compute. reflexivity. Qed.
Lemma worker_answers_witness : ∃ r, (ownRequest (js "navigate") (js "/app/vessels"), Some r) ∈ sw_replies (atHome offlineRun) ∧
  ((ownRequest (js "navigate") (js "/app/vessels"), r) ∈ sw_network (atHome offlineRun) ∨
   ∃ k, (k, r) ∈ sw_network (atHome offlineRun) ∧ (samePlace id (λ _, js "https://app") id (ownRequest (js "navigate") (js "/app/vessels")) k ∨
     navigates (ownRequest (js "navigate") (js "/app/vessels")) = true ∧ samePlace id (λ _, js "https://app") id (ownRequest (js "cors") (js "/")) k ∧ js "https://app" = js "https://app" ∧ rq_url k = js "/")).
Proof.
  assert (Hin : (ownRequest (js "navigate") (js "/app/vessels"), Some (good "the application")) ∈ sw_replies (atHome offlineRun))
    by (rewrite offline_shell; apply elem_of_cons; by left).
  exists (good "the application"). split; [exact Hin|].
  apply (worker_answers id (λ _, js "https://app") id (js "https://app") (ownRequest (js "cors")) sameUrl (λ _ _, false) [] [] offlineRun
           (atHome offlineRun)); [| |apply Forall_nil_2|reflexivity|exact Hin].
  - intros q k r Hm%streq_true. unfold samePlace. by rewrite Hm.
  - intros path _. repeat split.
Defined.

(** A page that could not be served replaces the start page in the cache, since pages are kept
    whatever their status: offline, every page without an entry shows the error. *)
Example error_page_kept :
  sw_replies (atHome [shellInstalled; we_fetch (ownRequest (js "navigate") (js "/")); we_network 0 (Some (mkResponse false (js "maintenance")));
                      we_put 0; we_fetch (ownRequest (js "navigate") (js "/app/vessels")); we_network 0 None; we_matched 0; we_matched 0])
  = [(ownRequest (js "navigate") (js "/"), Some (mkResponse false (js "maintenance")));
     (ownRequest (js "navigate") (js "/app/vessels"), Some (mkResponse false (js "maintenance")))].
Proof. vm_compute. reflexivity. Qed.
