(* ===== verification/StagingProxy.v ===== *)
(** * The staging API proxy (deploy/vercel-staging-api-proxy.mjs)

    The function in front of the staging server: what it refuses, the request it sends on and
    the answer it gives back.  The resolution of a path against an origin is Url.v's;
    parsing whole addresses is a parameter. *)
From S2P Require Import Prelude JsString Json Host Uri Url.

(** ** [new URL("/api/" + path, origin)] *)

(** The path of [/api/<path>]: an absolute one, the rest of the address is the origin's. *)
Definition apiPath (path : str) : str := printPath (parsePath [] [] (cleanUrl (js "api/" ++ path))).

(** ** Headers and queries *)

Definition HOP_BY_HOP_HEADERS : list str := map js
  ["connection"; "content-length"; "host"; "keep-alive"; "proxy-authenticate"; "proxy-authorization"; "te"; "trailer";
   "transfer-encoding"; "upgrade"]%string.
Definition hopByHop (name : str) : bool := bool_decide (lowered name ∈ HOP_BY_HOP_HEADERS).
(** [headers.set]: names are compared without case, values lose the blanks around them; it
    throws for what HTTP cannot send. *)
Definition Headers : Type := list (str * str).
Definition isHttpBlank (c : N) : bool := isTabOrNewline c || (c =? 32)%N.
Fixpoint dropBlanks (s : str) : str := match s with c :: r => if isHttpBlank c then dropBlanks r else s | [] => [] end.
Definition headerTrim (s : str) : str := rev (dropBlanks (rev (dropBlanks s))).
Definition isTokenChar (c : N) : bool :=
  isDigit c || isAlphaAscii c || bool_decide (c ∈ map N.of_nat [33; 35; 36; 37; 38; 39; 42; 43; 45; 46; 94; 95; 96; 124; 126]%nat).
Definition isToken (s : str) : bool := truthy s && forallb isTokenChar s.
Definition headerValue (s : str) : bool := forallb (λ c, (c <? 256)%N && negb (bool_decide (c ∈ [0; 10; 13]%N))) s.
Definition setHeader (name value : str) (h : Headers) : option Headers :=
  let value := headerTrim value in
  if isToken name && headerValue value then Some (mset (lowered name) value h) else None.
(** [URLSearchParams.toString]: form encoding, a blank is a plus sign. *)
Definition formByte (b : N) : str :=
  if (b =? 32)%N then [cPlus]
  else if isDigit b || isAlphaAscii b || bool_decide (b ∈ [42; 45; 46; 95]%N) then [b] else percentByte b.
Definition formText (s : str) : str := flat_map formByte (flat_map utf8 (map scalarValue (codePoints s))).
Definition queryText (params : list (str * str)) : str := join (js "&") (map (λ e, formText e.1 ++ js "=" ++ formText e.2) params).

(** ** The handler *)

(** A parsed origin, the configuration, and a request as the platform hands it over. *)
Record Origin := mkOrigin { or_protocol : str; or_host : str }.
Record Environment := mkEnvironment { en_origin : option str; en_proxySecret : option str }.
Inductive HeaderField := hf_text (s : str) | hf_list (l : list str) | hf_undefined.
Record Incoming := mkIncoming { in_method : str; in_url : str; in_headers : list (str * HeaderField); in_chunks : list str }.
Record Forward := mkForward { fw_origin : Origin; fw_path : str; fw_query : str; fw_method : str; fw_headers : Headers; fw_body : option str }.
Inductive ProxyOutcome := oc_reply (status : Z) (text : str) | oc_throws | oc_forward (f : Forward).

Section Proxy.
(** [new URL(text)] of the configured origin, and the parameters of the request's own address. *)
Context (parseOrigin : str → option Origin) (paramsOf : str → option (list (str * str))).

Definition fieldText (field : HeaderField) : option str :=
  match field with hf_text s => Some s | hf_list l => Some (join (js ", ") l) | hf_undefined => None end.
Definition copyHeader (o : option Headers) (e : str * HeaderField) : option Headers :=
  h ← o; match fieldText e.2 with
         | Some value => if hopByHop e.1 then Some h else setHeader e.1 value h
         | None => Some h
         end.
Definition hostOf (request : Incoming) : str :=
  match mget (js "host") (in_headers request) with
  | Some (hf_text host) => if truthy host then host else js "staging.vesselcalls.com"
  | Some (hf_list hosts) => join (js ",") hosts
  | _ => js "staging.vesselcalls.com"
  end.
Definition forwardedHeaders (proxySecret : str) (request : Incoming) : option Headers :=
  h ← foldl copyHeader (Some []) (in_headers request);
  h ← setHeader (js "x-vessel-staging-proxy") proxySecret h;
  h ← setHeader (js "x-forwarded-host") (hostOf request) h;
  setHeader (js "x-forwarded-proto") (js "https") h.
Definition bodyOf (request : Incoming) (method : str) : option str :=
  if streq method (js "GET") || streq method (js "HEAD") then None
  else match in_chunks request with [] => None | chunks => Some (concat chunks) end.
Definition handler (env : Environment) (request : Incoming) : ProxyOutcome :=
  let origin := default [] (en_origin env) in
  let proxySecret := default [] (en_proxySecret env) in
  if isEmpty origin || isEmpty proxySecret then oc_reply 503 (js "Staging API proxy is not configured.")
  else match parseOrigin origin with
  | None => oc_throws
  | Some configured =>
    if negb (streq (or_protocol configured) (js "https:")) then oc_reply 503 (js "Staging API origin must use HTTPS.")
    else match paramsOf (in_url request) with
    | None => oc_throws
    | Some params =>
      let path := apiPath (default [] (mget (js "path") params)) in
      if negb (startsWith (js "/api/") path) then oc_reply 400 (js "Invalid API path.")
      else match forwardedHeaders proxySecret request with
      | None => oc_throws
      | Some headers =>
        let method := if truthy (in_method request) then in_method request else js "GET" in
        oc_forward (mkForward configured path (queryText (filterb (λ e, negb (streq e.1 (js "path"))) params))
                      method headers (bodyOf request method))
      end
    end
  end.

(** The answer of the staging server - its body as [fetch] hands it over, decoded - and what
    goes back; no answer within half a minute counts as unavailable. *)
Record Upstream := mkUpstream { up_status : Z; up_headers : list (str * str); up_cookies : list str; up_body : str }.
Record Reply := mkReply { rp_status : Z; rp_headers : list (str * str); rp_cookies : list str; rp_body : str }.
Definition relay (upstream : option Upstream) : Reply :=
  match upstream with
  | None => mkReply 502 [] [] (js "Staging API is unavailable.")
  | Some u => mkReply (up_status u)
      (filterb (λ e, negb (hopByHop e.1) && negb (streq (lowered e.1) (js "set-cookie"))) (up_headers u)) (up_cookies u) (up_body u)
  end.
End Proxy.

(** ** Paths *)

Lemma starts_segment p first t : cSlash ∉ first → cSlash ∉ p → t = [] ∨ (∃ u, t = cSlash :: u) →
  startsWith (p ++ [cSlash]) (first ++ t) = true → first = p ∧ t ≠ [].
Proof.
  revert first. induction p as [|x p IH]; intros first Hf Hp Ht Hs.
  - destruct first as [|y first]; cbn [app startsWith] in Hs; [by destruct t|]. apply andb_true_iff in Hs as [Hs%N.eqb_eq _].
    destruct Hf. apply elem_of_cons. by left.
  - destruct first as [|y first]; cbn [app startsWith] in Hs.
    + destruct Ht as [->|[u ->]]; [done|]. apply andb_true_iff in Hs as [Hs%N.eqb_eq _]. destruct Hp. apply elem_of_cons. by left.
    + apply andb_true_iff in Hs as [->%N.eqb_eq Hs]. apply not_elem_of_cons in Hf as [_ Hf], Hp as [_ Hp].
      destruct (IH first Hf Hp Ht Hs) as [-> Hne]. done.
Qed.
(** A path that starts with [/api/] has [api] for its first segment. *)
Lemma under_api path : Forall plainSegment path → startsWith (js "/api/") (printPath path) = true →
  ∃ segments, segments ≠ [] ∧ printPath path = js "/api" ++ printPath segments ∧ Forall plainSegment segments.
Proof.
  intros Hp Hs. destruct path as [|first rest]; [done|]. apply Forall_cons in Hp as [(_ & _ & Hf) Hr].
  change (js "/api/") with (cSlash :: js "api" ++ [cSlash]) in Hs. cbn [printPath flat_map app startsWith] in Hs.
  rewrite N.eqb_refl in Hs. cbn [andb] in Hs. fold (printPath rest) in Hs. apply starts_segment in Hs as [-> Hne].
  - exists rest. split; [by intros ->|]. split; [|done]. change (js "/api") with (cSlash :: js "api"). done.
  - intros Hin. rewrite Forall_forall in Hf. apply (Hf _ Hin). apply elem_of_cons. by left.
  - change (js "api") with [97; 112; 105]%N. unfold cSlash. notin.
  - destruct rest; [by left|right; by eexists].
Qed.

(** ** What reaches the staging server *)

Lemma lowered_idempotent s : lowered (lowered s) = lowered s.
Proof.
  unfold lowered. rewrite map_map. apply map_ext. intros c. unfold asciiLower.
  destruct ((65 <=? c)%N && (c <=? 90)%N) eqn:E; [|by rewrite E]. apply andb_true_iff in E as [E1%N.leb_le E2%N.leb_le].
  by rewrite (proj2 (N.leb_gt (c + 32) 90)) by lia; rewrite andb_false_r.
Qed.
(** The names of the headers sent: lower case, none of a single connection, each once. *)
Definition endToEnd (h : Headers) : Prop := NoDup h.*1 ∧ ∀ name, name ∈ h.*1 → lowered name = name ∧ hopByHop name = false.
Lemma setHeader_endToEnd name value h h' : endToEnd h → hopByHop name = false → setHeader name value h = Some h' → endToEnd h'.
Proof.
  intros [Hd Hn] Hh Hs. unfold setHeader in Hs. destruct (_ && _); [|done]. injection Hs as <-.
  split; [by apply mset_NoDup|]. intros k Hk. rewrite mset_keys in Hk. destruct (decide _); [by apply Hn|].
  apply elem_of_app in Hk as [Hk|Hk]; [by apply Hn|]. apply list_elem_of_singleton in Hk as ->.
  split; [apply lowered_idempotent|]. unfold hopByHop in *. by rewrite lowered_idempotent.
Qed.
Lemma setHeader_get name value h h' k : setHeader name value h = Some h' →
  mget k h' = if streq k (lowered name) then Some (headerTrim value) else mget k h.
Proof.
  unfold setHeader. destruct (_ && _); [|done]. intros [= <-]. destruct (streq k (lowered name)) eqn:E.
  - apply streq_true in E. subst k. apply mget_mset_eq.
  - apply mget_mset_ne. intros E'. by rewrite E', streq_refl in E.
Qed.
Lemma copied_endToEnd fields h h' : endToEnd h → foldl copyHeader (Some h) fields = Some h' → endToEnd h'.
Proof.
  revert h. induction fields as [|e fields IH]; intros h Hh; cbn [foldl]; [by intros [= <-]|].
  unfold copyHeader at 2. cbn [mbind option_bind]. destruct (fieldText e.2) as [value|]; [|by apply IH].
  destruct (hopByHop e.1) eqn:Ee; [by apply IH|]. destruct (setHeader e.1 value h) as [h1|] eqn:Es.
  - apply IH. by eapply setHeader_endToEnd.
  - assert (Hnone : ∀ l, foldl copyHeader None l = None) by (induction l; done). by rewrite Hnone.
Qed.

(** ** Ordinary paths *)

(** An ordinary path reaches the server as it was asked for. *)
Lemma apiPath_kept segments : segments ≠ [] → Forall keptSegment segments →
  apiPath (join [cSlash] segments) = js "/api" ++ printPath segments.
Proof.
  intros Hne Hs. unfold apiPath. assert (Ha : keptSegment (js "api")) by (split_and!; [by repeat constructor|done|done]).
  assert (Ej : js "api/" ++ join [cSlash] segments = join [cSlash] (js "api" :: segments)) by (by destruct segments).
  rewrite Ej, cleanUrl_kept.
  - rewrite parsePath_kept; [|done|by apply Forall_cons_2]. cbn [app]. done.
  - rewrite <- Ej. apply Forall_app. split; [by repeat constructor|]. clear Ej Hne.
    induction Hs as [|s l (Hc & _) Hl IH]; [apply Forall_nil_2|].
    assert (H32 : Forall (λ c, (32 < c)%N) s) by (eapply Forall_impl; [exact Hc|]; intros c [Hk _]; apply kept_range in Hk; lia).
    destruct l as [|t l]; [done|]. apply (Forall_app_2 _ s ([cSlash] ++ _)); [done|]. apply Forall_cons_2; [done|]. by apply IH.
Qed.

(** ** Properties *)

(** C31. The proxy only reaches the staging API. Whatever a request holds, what is sent on goes
    to the configured origin over HTTPS, to a path under /api/ whose segments cannot climb out
    of it; it carries the proxy's secret and the forwarding headers as the proxy sets them,
    whatever the request claimed, no header of the single connection and no name twice, and no
    body with GET or HEAD; and an ordinary path arrives as it was asked for. *)
Theorem proxy_confined (parseOrigin : str → option Origin) (paramsOf : str → option (list (str * str)))
    (env : Environment) (request : Incoming) (f : Forward) (Hsent : handler parseOrigin paramsOf env request = oc_forward f) :
  (∃ origin, en_origin env = Some origin ∧ parseOrigin origin = Some (fw_origin f) ∧ or_protocol (fw_origin f) = js "https:") ∧
  (∃ segments, segments ≠ [] ∧ fw_path f = js "/api" ++ printPath segments ∧ Forall plainSegment segments) ∧
  (∃ secret, en_proxySecret env = Some secret ∧ secret ≠ [] ∧ mget (js "x-vessel-staging-proxy") (fw_headers f) = Some (headerTrim secret)) ∧
  mget (js "x-forwarded-host") (fw_headers f) = Some (headerTrim (hostOf request)) ∧
  mget (js "x-forwarded-proto") (fw_headers f) = Some (js "https") ∧ endToEnd (fw_headers f) ∧
  (fw_method f ∈ [js "GET"; js "HEAD"] → fw_body f = None) ∧
  (∀ params segments, paramsOf (in_url request) = Some params → mget (js "path") params = Some (join [cSlash] segments) →
     segments ≠ [] → Forall keptSegment segments → fw_path f = js "/api" ++ printPath segments).
Proof.
  unfold handler in Hsent. destruct (_ || _) eqn:Ec; [done|]. apply orb_false_iff in Ec as [Eo Es].
  destruct (parseOrigin _) as [configured|] eqn:Ep; [|done]. destruct (streq (or_protocol configured) _) eqn:Eh; [|done].
  destruct (paramsOf _) as [params|] eqn:Eq; [|done]. destruct (startsWith _ _) eqn:Ea; [|done].
  destruct (forwardedHeaders _ _) as [headers|] eqn:Ef; [|done]. cbn [negb] in Hsent. injection Hsent as <-.
  cbn [fw_origin fw_path fw_headers fw_method fw_body]. unfold forwardedHeaders in Ef.
  apply bind_Some in Ef as (h0 & E0 & (h1 & E1 & (h2 & E2 & E3)%bind_Some)%bind_Some). split_and!.
  - destruct (en_origin env) as [origin|]; [|done]. exists origin. apply streq_true in Eh. done.
  - apply under_api in Ea as (segments & Hne & He & Hp); [by exists segments|]. apply parsePath_plain; apply Forall_nil_2.
  - destruct (en_proxySecret env) as [secret|]; [|done]. exists secret. split; [done|]. split; [by intros ->|].
    by rewrite (setHeader_get _ _ _ _ _ E3), (setHeader_get _ _ _ _ _ E2), (setHeader_get _ _ _ _ _ E1).
  - by rewrite (setHeader_get _ _ _ _ _ E3), (setHeader_get _ _ _ _ _ E2).
  - by rewrite (setHeader_get _ _ _ _ _ E3).
  - eapply setHeader_endToEnd, E3; [|done]. eapply setHeader_endToEnd, E2; [|done]. eapply setHeader_endToEnd, E1; [|done].
    eapply copied_endToEnd, E0. split; [apply NoDup_nil_2|]. by intros name Hn%elem_of_nil.
  - unfold bodyOf. intros [->|Hm]%elem_of_cons; [by rewrite streq_refl|]. apply list_elem_of_singleton in Hm as ->.
    by rewrite streq_refl, orb_true_r.
  - intros params' segments [= <-] Hg Hne Hk. rewrite Hg. cbn [default]. by apply apiPath_kept.
Qed.

(** A request for a vessel call, with headers that claim to be the proxy's, and one that tries
    to climb out of the API: the first reaches the server as asked, the second is refused. *)
Definition stagingOrigin (text : str) : option Origin :=
  if startsWith (js "https://") text then Some (mkOrigin (js "https:") (drop 8 text)) else None.
Definition staging : Environment := mkEnvironment (Some (js "https://staging.example")) (Some (js "s3cret ")).
Definition asksFor (path : string) : Incoming := mkIncoming (js "GET") (js path)
  [(js "host", hf_text (js "preview.example")); (js "connection", hf_text (js "keep-alive"));
   (js "X-Vessel-Staging-Proxy", hf_text (js "guessed")); (js "accept", hf_list [js "application/json"; js "text/html"])] [].
Definition onlyPath (url : str) : option (list (str * str)) := Some [(js "path", url); (js "page", js "2 b")].
Definition callSent : Forward := mkForward (mkOrigin (js "https:") (js "staging.example")) (js "/api/vessel-calls/c1") (js "page=2+b") (js "GET")
  [(js "x-vessel-staging-proxy", js "s3cret"); (js "accept", js "application/json, text/html"); (js "x-forwarded-host", js "preview.example");
   (js "x-forwarded-proto", js "https")] None.
Example call_forwarded : handler stagingOrigin onlyPath staging (asksFor "vessel-calls/c1") = oc_forward callSent.
Proof. vm_compute. reflexivity. Qed.
Example climbing_refused : map (λ p, handler stagingOrigin onlyPath staging (asksFor p)) ["../admin"; "%2e%2E/admin"; "x/..\../admin"; ".."]%string
  = repeat (oc_reply 400 (js "Invalid API path.")) 4.
Proof. vm_compute. reflexivity. Qed.
Lemma proxy_confined_witness : mget (js "x-vessel-staging-proxy") (fw_headers callSent) = Some (headerTrim (js "s3cret ")) ∧
  fw_path callSent = js "/api" ++ printPath (map js ["vessel-calls"; "c1"]%string) ∧ endToEnd (fw_headers callSent).
Proof.
  destruct (proxy_confined stagingOrigin onlyPath staging (asksFor "vessel-calls/c1") callSent) as (_ & _ & (s & Hs & _ & Hg) & _ & _ & He & _ & Hk).
  - vm_compute. reflexivity.
  - injection Hs as <-. split; [exact Hg|]. split; [|exact He].
    apply (Hk _ _ eq_refl); [vm_compute; reflexivity|done|].
    repeat apply Forall_cons_2; [| |apply Forall_nil_2]; (split; [vm_compute; repeat constructor|by vm_compute]).
Defined.

(** The answer keeps its cookies apart and its status; but [fetch] has decoded the body, and the
    header that says how it was encoded is sent on with it. *)
Lemma relay_kept u : rp_status (relay (Some u)) = up_status u ∧ rp_cookies (relay (Some u)) = up_cookies u ∧
  ∀ name value, (name, value) ∈ rp_headers (relay (Some u)) →
    (name, value) ∈ up_headers u ∧ hopByHop name = false ∧ lowered name ≠ js "set-cookie".
Proof.
  split; [done|]. split; [done|]. intros name value [Hin [Hh Hc]%andb_true_iff]%elem_of_filterb. cbn [fst] in *.
  apply negb_true_iff in Hh, Hc. split; [done|]. split; [done|]. intros He. by rewrite He, streq_refl in Hc.
Qed.
Lemma encoding_kept u value : (js "content-encoding", value) ∈ up_headers u →
  (js "content-encoding", value) ∈ rp_headers (relay (Some u)) ∧ rp_body (relay (Some u)) = up_body u.
Proof. intros Hin. split; [|done]. apply elem_of_filterb. split; [done|]. by vm_compute. Qed.
