(* ===== verification/Demo.v ===== *)
(** * The offline demo (calabar/data.jsx, calabar/api.jsx, calabar/app.jsx, calabar/screens-org.jsx)

    The first version of the application, still served at app.html: without a server its own
    engine numbers inspections, completes calls and issues invoices.  The dues and the
    commission are computed by the same text as in frontend/src/lib/calc.ts ([Dues]). *)
From Stdlib Require Import SpecFloat.
From S2P Require Import Prelude JsString Json JsNumber MeasurementTypes AppTypes Dues.

(** ** Roles and the team *)

Record DemoMember := mkDemoMember { dmb_id : str; dmb_name : str; dmb_email : str; dmb_role : str }.
Definition DEMO_ROLES : list str := map js ["Admin"; "Operations"; "Finance"; "Viewer"]%string.
Definition PERMS : list (str * list str) := map (λ e : string * list string, (js e.1, map js e.2))
  [("registerCall", ["Admin"; "Operations"]); ("cancelCall", ["Admin"; "Operations"]); ("addInspection", ["Admin"; "Operations"]);
   ("recordPayment", ["Admin"; "Finance"]); ("manageSettings", ["Admin"]); ("manageTeam", ["Admin"])]%string.
Definition canUser (user : option DemoMember) (action : str) : bool :=
  match user, mget action PERMS with Some u, Some allowed => existsb (streq (dmb_role u)) allowed | _, _ => false end.
(** The member picked on this device, else the first administrator, else the first member. *)
Definition isAdmin (m : DemoMember) : bool := streq (dmb_role m) (js "Admin").
Definition currentMember (members : list DemoMember) (picked : option str) : option DemoMember :=
  match findb (λ m, bool_decide (Some (dmb_id m) = picked)) members with
  | Some m => Some m
  | None => match findb isAdmin members with Some m => Some m | None => head members end
  end.

(** The team as it is edited: the last administrator is neither demoted nor removed. *)
Definition lastAdmin (members : list DemoMember) (m : DemoMember) : bool :=
  isAdmin m && Nat.eqb (length (filterb isAdmin members)) 1.
Inductive TeamEvent := te_add (now : Z) (name email role : str) | te_role (id role : str) | te_remove (id : str).
Definition teamStep (canEdit : bool) (e : TeamEvent) (members : list DemoMember) : option (list DemoMember) :=
  match e with
  | te_add now name email role =>
    if canEdit && truthy (trim name) && truthy (trim email) && bool_decide (role ∈ DEMO_ROLES)
    then Some (members ++ [mkDemoMember (js "u-" ++ printZ now) (trim name) (trim email) role]) else None
  | te_role id role =>
    row ← findb (λ m, streq (dmb_id m) id) members;
    if canEdit && negb (lastAdmin members row) && bool_decide (role ∈ DEMO_ROLES)
    then Some (map (λ m, if streq (dmb_id m) id then mkDemoMember (dmb_id m) (dmb_name m) (dmb_email m) role else m) members) else None
  | te_remove id =>
    row ← findb (λ m, streq (dmb_id m) id) members;
    if canEdit && negb (lastAdmin members row) then Some (filterb (λ m, negb (streq (dmb_id m) id)) members) else None
  end.

(** ** The store of the demo *)

Record DemoCall := mkDemoCall {
  dc_id : str; dc_vesselName : str; dc_reference : str; dc_type : str; dc_flag : option str; dc_nrt : num; dc_eta : str; dc_sailingEta : option str;
  dc_berth : str; dc_berthDate : option str; dc_status : str; dc_notes : str; dc_registered : str }.
(** A measurement as it was typed, or as the seeds have it. *)
Inductive DemoValue := dx_number (n : num) | dx_text (s : str).
Record DemoInspection := mkDemoInspection {
  di_id : str; di_reference : str; di_callId : str; di_vesselName : str; di_cargoType : str; di_reconciledTonnage : num;
  di_date : str; di_status : str; di_liquid : option (list (str * DemoValue)); di_dry : option (list (str * DemoValue)); di_jetty : option Jetty }.
Record DemoPayment := mkDemoPayment { dp_paidOn : str; dp_method : str; dp_reference : str; dp_recordedBy : str; dp_amount : option num }.
Record DemoInvoice := mkDemoInvoice {
  dv_id : str; dv_invoiceNo : str; dv_callId : str; dv_inspectionId : str; dv_vesselName : str; dv_callRef : str; dv_status : str;
  dv_issued : str; dv_due : str; dv_dues : num; dv_rate : option num; dv_commissionUsd : num; dv_commissionNgn : num; dv_fx : num;
  dv_payment : option DemoPayment }.
Record Demo := mkDemo {
  dm_calls : list DemoCall; dm_inspections : list DemoInspection; dm_invoices : list DemoInvoice; dm_settings : Settings;
  dm_members : list DemoMember; dm_user : option str }.

(** [rateForInspection] of data.jsx: any cargo but dry is priced by its jetty. *)
Definition demoRate (insp : DemoInspection) (settings : Settings) : option num :=
  if streq (di_cargoType insp) (js "Dry") then Some (stg_dryDuesRate settings) else
  match di_jetty insp with
  | None => None
  | Some j =>
    let rates := stg_liquidDuesRates settings in
    if streq (jet_type j) (js "International") then Some (dues_international rates)
    else if streq (jet_type j) (js "Local") && bool_decide (jet_category j = Some (js "Government")) then Some (dues_government rates)
    else if streq (jet_type j) (js "Local") && bool_decide (jet_category j = Some (js "Private")) then Some (dues_private rates) else None
  end.

(** [parseInt(text, 10)], and the number at the end of a reference, zero without one. *)
Definition parseInt10 (text : str) : option Z :=
  let t := trimStart text in
  let '(sign, t) := match t with
                    | c :: r => if (c =? cMinus)%N then (-1, r) else if (c =? cPlus)%N then (1, r) else (1, t)
                    | [] => (1, [])
                    end in
  match digitRun t with O => None | n => Some (sign * bigOfDigits (take n t)) end.
Definition sequenceOf (reference : str) : Z :=
  match split cMinus reference !! 2%nat with Some t => default 0 (parseInt10 t) | None => 0 end.
Definition nextSequence (references : list str) : Z := foldr Z.max 0 (map sequenceOf references) + 1.
Definition numbered (prefix : string) (n : Z) : str := js prefix ++ padStart 4 cZero (printZ n).

(** What the inspection form sends, and what changes an invoice. *)
Record DemoMeasured := mkDemoMeasured {
  nm_callId : str; nm_cargoType : str; nm_reconciledTonnage : num; nm_status : str; nm_liquid : option (list (str * DemoValue));
  nm_dry : option (list (str * DemoValue)); nm_jetty : option Jetty }.
Record InvoicePatch := mkInvoicePatch { pt_status : option str; pt_payment : option (option DemoPayment) }.

Section Engine.
(** [new Date(ms).toISOString()] *)
Context (iso : Z → str).
Definition minuteText (now : Z) : str := take 16 (iso now).
Definition dayText (now : Z) : str := take 10 (iso now).

Definition demoInspection (now : Z) (s : Demo) (data : DemoMeasured) : DemoInspection :=
  mkDemoInspection (js "in-" ++ printZ now) (numbered "INS-2026-" (nextSequence (map di_reference (dm_inspections s)))) (nm_callId data)
    (match findb (λ c, streq (dc_id c) (nm_callId data)) (dm_calls s) with
     | Some c => if truthy (dc_vesselName c) then dc_vesselName c else js "—" | None => js "—" end)
    (nm_cargoType data) (nm_reconciledTonnage data) (minuteText now) (nm_status data) (nm_liquid data) (nm_dry data) (nm_jetty data).
(** A completed inspection completes its call, berthed at the latest now. *)
Definition completeCall (now : Z) (c : DemoCall) : DemoCall :=
  mkDemoCall (dc_id c) (dc_vesselName c) (dc_reference c) (dc_type c) (dc_flag c) (dc_nrt c) (dc_eta c) (dc_sailingEta c) (dc_berth c)
    (Some (match dc_berthDate c with Some d => if truthy d then d else dayText now | None => dayText now end))
    (js "completed") (dc_notes c) (dc_registered c).
(** The invoice with its amounts as they are now. *)
Definition demoInvoice (now : Z) (s : Demo) (insp : DemoInspection) (call : option DemoCall) : DemoInvoice :=
  let rate := demoRate insp (dm_settings s) in
  let dues := calcDues (match call with Some c => dc_nrt c | None => numOfZ 0 end) rate in
  let c := calcCommission dues (dm_settings s) in
  mkDemoInvoice (js "iv-" ++ printZ now) (numbered "INV-2026-" (nextSequence (map dv_invoiceNo (dm_invoices s)))) (di_callId insp) (di_id insp)
    (match call with Some c => dc_vesselName c | None => js "—" end) (match call with Some c => dc_reference c | None => js "—" end)
    (js "unpaid") (minuteText now) (dayText (now + 7 * 86400000)) dues rate (com_usd c) (com_ngn c) (stg_exchangeRate (dm_settings s)) None.
Definition applyInspection (now : Z) (s : Demo) (data : DemoMeasured) : DemoInspection * option DemoInvoice * option DemoCall :=
  let insp := demoInspection now s data in
  let call := findb (λ c, streq (dc_id c) (nm_callId data)) (dm_calls s) in
  if streq (nm_status data) (js "completed") then
    let call := completeCall now <$> call in (insp, Some (demoInvoice now s insp call), call)
  else (insp, None, call).

(** [apiUpdateInvoice]: a payment without an amount settles the invoice's dues. *)
Definition patchInvoice (invoices : list DemoInvoice) (id : str) (patch : InvoicePatch) : result str DemoInvoice :=
  match findb (λ v, streq (dv_id v) id) invoices with
  | None => Err (js "Unknown invoice")
  | Some v =>
    let payment := match pt_payment patch with
                   | Some (Some p) => Some (mkDemoPayment (dp_paidOn p) (dp_method p) (dp_reference p) (dp_recordedBy p)
                                              (Some (default (dv_dues v) (dp_amount p))))
                   | Some None => None
                   | None => dv_payment v
                   end in
    Ok (mkDemoInvoice (dv_id v) (dv_invoiceNo v) (dv_callId v) (dv_inspectionId v) (dv_vesselName v) (dv_callRef v)
          (default (dv_status v) (pt_status patch)) (dv_issued v) (dv_due v) (dv_dues v) (dv_rate v) (dv_commissionUsd v)
          (dv_commissionNgn v) (dv_fx v) payment)
  end.

(** ** The operations of the application, each behind its permission *)

Inductive DemoEvent :=
| de_addCall (now : Z) (data : DemoCall) | de_deleteCall (id : str) | de_addInspection (now : Z) (data : DemoMeasured)
| de_settings (settings : Settings) | de_pay (id paidOn method reference : str) | de_unpay (id : str) | de_user (id : str).
Definition demoCan (s : Demo) (action : string) : bool := canUser (currentMember (dm_members s) (dm_user s)) (js action).
Definition withInvoice (id : str) (patch : InvoicePatch) (s : Demo) : result str Demo :=
  if negb (demoCan s "recordPayment") then Err (js "Your role cannot record payments")
  else rbind (patchInvoice (dm_invoices s) id patch) (λ invoice,
    Ok (mkDemo (dm_calls s) (dm_inspections s) (map (λ v, if streq (dv_id v) id then invoice else v) (dm_invoices s))
          (dm_settings s) (dm_members s) (dm_user s))).
Definition recorder (s : Demo) : str := match currentMember (dm_members s) (dm_user s) with Some m => dmb_name m | None => js "—" end.
Definition demoStep (e : DemoEvent) (s : Demo) : result str Demo :=
  match e with
  | de_addCall now data =>
    if negb (demoCan s "registerCall") then Err (js "Your role cannot register vessel calls") else
    let call := mkDemoCall (js "vc-" ++ printZ now) (dc_vesselName data) (dc_reference data) (dc_type data) (dc_flag data) (dc_nrt data) (dc_eta data)
                  (dc_sailingEta data) (dc_berth data) None (js "pending") (dc_notes data) (minuteText now) in
    Ok (mkDemo (call :: dm_calls s) (dm_inspections s) (dm_invoices s) (dm_settings s) (dm_members s) (dm_user s))
  | de_deleteCall id =>
    if negb (demoCan s "cancelCall") then Err (js "Your role cannot cancel vessel calls") else
    Ok (mkDemo (filterb (λ c, negb (streq (dc_id c) id)) (dm_calls s)) (filterb (λ i, negb (streq (di_callId i) id)) (dm_inspections s))
          (filterb (λ v, negb (streq (dv_callId v) id)) (dm_invoices s)) (dm_settings s) (dm_members s) (dm_user s))
  | de_addInspection now data =>
    if negb (demoCan s "addInspection") then Err (js "Your role cannot submit inspections") else
    let '(inspection, invoice, call) := applyInspection now s data in
    Ok (mkDemo (match call with Some res => map (λ c, if streq (dc_id c) (dc_id res) then res else c) (dm_calls s) | None => dm_calls s end)
          (inspection :: dm_inspections s) (match invoice with Some v => v :: dm_invoices s | None => dm_invoices s end)
          (dm_settings s) (dm_members s) (dm_user s))
  | de_settings settings =>
    if negb (demoCan s "manageSettings") then Err (js "Only Admins can change settings") else
    Ok (mkDemo (dm_calls s) (dm_inspections s) (dm_invoices s) settings (dm_members s) (dm_user s))
  | de_pay id paidOn method reference =>
    withInvoice id (mkInvoicePatch (Some (js "paid")) (Some (Some (mkDemoPayment paidOn method (trim reference) (recorder s) None)))) s
  | de_unpay id => withInvoice id (mkInvoicePatch (Some (js "unpaid")) (Some None)) s
  | de_user id => Ok (mkDemo (dm_calls s) (dm_inspections s) (dm_invoices s) (dm_settings s) (dm_members s) (Some id))
  end.
(** A refused operation changes nothing. *)
Definition demoRun (events : list DemoEvent) (s : Demo) : Demo :=
  foldl (λ s e, match demoStep e s with Ok s' => s' | Err _ => s end) s events.
End Engine.

(** ** The seeds *)

Definition dec (s : string) : num := numberOfInput (js s).
Definition seedValue (key value : string) : str * DemoValue := (js key, dx_number (dec value)).
Definition DEFAULT_SETTINGS : Settings :=
  mkSettings (dec "3.5") (dec "1600") (mkDuesRates (dec "1.68") (dec "2.88") (dec "4.23")) (dec "2.17") (js "Port of Calabar")
    (map js ["Calabar New Port — Berth 3"; "Calabar Old Port — Berth 1"; "Intels Calabar Terminal"; "Calabar Bulk Terminal"; "UNICEM Jetty"]%string).
Definition SEED_CALLS : list DemoCall :=
  [mkDemoCall (js "vc-001") (js "MT Sea Eagle") (js "ROT-2026-0438") (js "Tanker") (Some (js "Liberia")) (dec "57137") (js "2026-06-02T06:30") (Some (js "2026-06-04T18:00"))
     (js "UNICEM Jetty") (Some (js "2026-06-02")) (js "completed") (js "AGO cargo discharge. Pilot booked.") (js "2026-05-29T10:12");
   mkDemoCall (js "vc-002") (js "MV Calabar Pride") (js "ROT-2026-0437") (js "Bulk Carrier") (Some (js "Panama")) (dec "42180") (js "2026-06-01T14:00") (Some (js "2026-06-03T20:00"))
     (js "Calabar Bulk Terminal") (Some (js "2026-06-01")) (js "completed") (js "Wheat in bulk, draft survey required.") (js "2026-05-28T08:40");
   mkDemoCall (js "vc-003") (js "MT Qua Iboe") (js "ROT-2026-0436") (js "Tanker") (Some (js "Liberia")) (dec "49870") (js "2026-05-30T22:15") (Some (js "2026-06-01T12:00"))
     (js "UNICEM Jetty") (Some (js "2026-05-31")) (js "completed") (js "") (js "2026-05-27T16:05");
   mkDemoCall (js "vc-004") (js "MV Atlantic Dawn") (js "ROT-2026-0435") (js "Container") (Some (js "Singapore")) (dec "61340") (js "2026-05-29T09:00") (Some (js "2026-05-31T10:00"))
     (js "Calabar New Port — Berth 3") (Some (js "2026-05-29")) (js "completed") (js "") (js "2026-05-26T11:22");
   mkDemoCall (js "vc-005") (js "MT Niger Trader") (js "ROT-2026-0439") (js "Tanker") (Some (js "Marshall Islands")) (dec "38420") (js "2026-06-07T05:45") (Some (js "2026-06-09T16:00"))
     (js "UNICEM Jetty") (Some (js "2026-06-07")) (js "in-progress") (js "Ullage survey scheduled 08:00.") (js "2026-06-04T09:30");
   mkDemoCall (js "vc-006") (js "MV Cross River") (js "ROT-2026-0440") (js "Bulk Carrier") (Some (js "Nigeria")) (dec "33500") (js "2026-06-08T11:30") (Some (js "2026-06-10T22:00"))
     (js "Calabar Bulk Terminal") (Some (js "2026-06-08")) (js "in-progress") (js "Bagged fertiliser. Draft survey underway.") (js "2026-06-05T13:10");
   mkDemoCall (js "vc-007") (js "MT Bonny Spirit") (js "ROT-2026-0441") (js "Tanker") (Some (js "Nigeria")) (dec "29760") (js "2026-06-10T16:00") (Some (js "2026-06-12T18:00"))
     (js "Calabar Old Port — Berth 1") None (js "pending") (js "") (js "2026-06-06T07:48");
   mkDemoCall (js "vc-008") (js "MV Gulf Carrier") (js "ROT-2026-0442") (js "General Cargo") (Some (js "Malta")) (dec "18950") (js "2026-06-11T08:20") (Some (js "2026-06-13T14:00"))
     (js "Calabar New Port — Berth 3") None (js "pending") (js "Project cargo — heavy lift.") (js "2026-06-06T15:33")].
Definition SEED_INSPECTIONS : list DemoInspection :=
  [mkDemoInspection (js "in-001") (js "INS-2026-0312") (js "vc-001") (js "MT Sea Eagle") (js "Liquid") (dec "48920.40") (js "2026-06-02T13:40") (js "completed")
     (Some [seedValue "ullage" "1.82"; seedValue "observedVol" "49210.0"; seedValue "temp" "31.4"; seedValue "surveyorTonnage" "48920.40"; seedValue "bl" "49050.0"; seedValue "outturn" "48920.4"]) None (Some (mkJetty (js "International") None (Some (js "UNICEM Jetty"))));
   mkDemoInspection (js "in-002") (js "INS-2026-0311") (js "vc-002") (js "MV Calabar Pride") (js "Dry") (dec "38470.00") (js "2026-06-01T18:05") (js "completed")
     None (Some [seedValue "displBefore" "51230"; seedValue "displAfter" "12180"; seedValue "deductibles" "580"; seedValue "constant" "0"]) None;
   mkDemoInspection (js "in-003") (js "INS-2026-0310") (js "vc-003") (js "MT Qua Iboe") (js "Liquid") (dec "41260.75") (js "2026-05-31T09:50") (js "completed")
     (Some [seedValue "ullage" "2.10"; seedValue "observedVol" "41500.0"; seedValue "temp" "29.8"; seedValue "surveyorTonnage" "41260.75"; seedValue "bl" "41390.0"; seedValue "outturn" "41260.75"]) None (Some (mkJetty (js "Local") (Some (js "Government")) (Some (js "UNICEM Jetty"))));
   mkDemoInspection (js "in-004") (js "INS-2026-0309") (js "vc-004") (js "MV Atlantic Dawn") (js "Dry") (dec "52310.00") (js "2026-05-29T20:15") (js "completed")
     None (Some [seedValue "displBefore" "67400"; seedValue "displAfter" "14510"; seedValue "deductibles" "580"; seedValue "constant" "0"]) None;
   mkDemoInspection (js "in-005") (js "INS-2026-0313") (js "vc-005") (js "MT Niger Trader") (js "Liquid") (dec "0") (js "2026-06-07T08:30") (js "draft")
     (Some [seedValue "ullage" "1.55"; seedValue "observedVol" "0"; seedValue "temp" "30.2"; seedValue "surveyorTonnage" "0"; seedValue "bl" "33100.0"; seedValue "outturn" "0"]) None (Some (mkJetty (js "Local") (Some (js "Private")) (Some (js ""))))].
Definition SEED_INVOICES : list DemoInvoice :=
  [mkDemoInvoice (js "iv-001") (js "INV-2026-0288") (js "vc-001") (js "in-001") (js "MT Sea Eagle") (js "ROT-2026-0438") (js "paid") (js "2026-06-02T14:10") (js "2026-06-09")
     (dec "241689.51") (Some (dec "4.23")) (dec "8459.13") (dec "13534608") (dec "1600") (Some (mkDemoPayment (js "2026-06-05") (js "Bank transfer") (js "NPA-TRF-88213") (js "Bassey Effiong") (Some (dec "241689.51"))));
   mkDemoInvoice (js "iv-002") (js "INV-2026-0287") (js "vc-002") (js "in-002") (js "MV Calabar Pride") (js "ROT-2026-0437") (js "unpaid") (js "2026-06-01T18:30") (js "2026-07-15")
     (dec "91530.60") (Some (dec "2.17")) (dec "3203.57") (dec "5125712") (dec "1600") None;
   mkDemoInvoice (js "iv-003") (js "INV-2026-0286") (js "vc-003") (js "in-003") (js "MT Qua Iboe") (js "ROT-2026-0436") (js "paid") (js "2026-05-31T10:20") (js "2026-06-07")
     (dec "83781.60") (Some (dec "1.68")) (dec "2932.36") (dec "4691776") (dec "1600") (Some (mkDemoPayment (js "2026-06-02") (js "Bank transfer") (js "NPA-TRF-88102") (js "Bassey Effiong") (Some (dec "83781.60"))));
   mkDemoInvoice (js "iv-004") (js "INV-2026-0285") (js "vc-004") (js "in-004") (js "MV Atlantic Dawn") (js "ROT-2026-0435") (js "unpaid") (js "2026-05-29T20:40") (js "2026-06-05")
     (dec "133107.80") (Some (dec "2.17")) (dec "4658.77") (dec "7454032") (dec "1600") None].
Definition DEMO_MEMBERS : list DemoMember :=
  map (λ e : string * string * string * string, mkDemoMember (js e.1.1.1) (js e.1.1.2) (js e.1.2) (js e.2))
  [("u-001", "Etim Okon", "etim@vesselcaller.ng", "Admin"); ("u-002", "Adaeze Nwosu", "adaeze@vesselcaller.ng", "Operations");
   ("u-003", "Bassey Effiong", "bassey@vesselcaller.ng", "Finance"); ("u-004", "Ngozi Kalu", "ngozi@vesselcaller.ng", "Viewer")]%string.
(** The demo organization on a device where nobody was picked yet. *)
Definition demoStart : Demo := mkDemo SEED_CALLS SEED_INSPECTIONS SEED_INVOICES DEFAULT_SETTINGS DEMO_MEMBERS None.

(** ** References *)

Lemma digitRun_all s : allDigits s = true → digitRun s = length s.
Proof.
  induction s as [|c s IH]; [done|]. cbn [allDigits forallb digitRun length]. intros [Hc Hs]%andb_true_iff. by rewrite Hc, IH.
Qed.
Lemma parseInt10_digits s : s ≠ [] → allDigits s = true → parseInt10 s = Some (bigOfDigits s).
Proof.
  intros Hne Hs. destruct s as [|c s]; [done|]. pose proof Hs as Hd. cbn [allDigits forallb] in Hd. apply andb_true_iff in Hd as [Hc _].
  assert (H48 : (48 <= c <= 57)%N) by (unfold isDigit in Hc; apply andb_true_iff in Hc as [H1%N.leb_le H2%N.leb_le]; lia).
  unfold parseInt10. assert (Ht : trimStart (c :: s) = c :: s).
  { cbn [trimStart]. by rewrite (isDigit_notWs c Hc). }
  rewrite Ht. rewrite (proj2 (N.eqb_neq c cMinus)), (proj2 (N.eqb_neq c cPlus)) by (unfold cMinus, cPlus; lia).
  rewrite (digitRun_all _ Hs). cbn [length]. rewrite firstn_all2 by (cbn [length]; lia). f_equal. lia.
Qed.
(** A reference made for number [n] has that number. *)
Lemma sequenceOf_numbered prefix a b n : js prefix = js a ++ cMinus :: js b ++ [cMinus] → cMinus ∉ js a → cMinus ∉ js b → 0 <= n →
  sequenceOf (numbered prefix n) = n.
Proof.
  intros Hp Ha Hb Hn. unfold sequenceOf, numbered, printZ. rewrite (proj2 (Z.ltb_ge n 0)) by done.
  pose proof (printNat_digits1 n Hn) as [Hne Hd]%digits1_split.
  assert (Hpd : allDigits (padStart 4 cZero (printNat n)) = true) by by rewrite allDigits_padStart.
  rewrite Hp, <- app_assoc. cbn [app]. rewrite split_app by done. rewrite <- app_assoc. cbn [app]. rewrite split_app by done.
  rewrite split_none; cycle 1.
  { intros Hin. unfold allDigits in Hpd. rewrite forallb_forall in Hpd. by apply list_elem_of_In, Hpd in Hin. }
  cbn [lookup list_lookup]. rewrite parseInt10_digits; [|by intros [_ He]%app_eq_nil|done].
  cbn [default]. by rewrite bigOfDigits_padStart, printNat_val.
Qed.
Lemma below_next references r : r ∈ references → sequenceOf r < nextSequence references.
Proof.
  unfold nextSequence. induction references as [|x references IH]; [by intros ?%elem_of_nil|].
  cbn [map foldr]. intros [->|Hr]%elem_of_cons; [lia|]. specialize (IH Hr). lia.
Qed.
Lemma nextSequence_pos references : 0 <= nextSequence references.
Proof. unfold nextSequence. induction references as [|x references IH]; [done|]. cbn [map foldr]. lia. Qed.
(** The next reference differs from all there are. *)
Lemma numbered_fresh prefix a b references : js prefix = js a ++ cMinus :: js b ++ [cMinus] → cMinus ∉ js a → cMinus ∉ js b →
  numbered prefix (nextSequence references) ∉ references.
Proof.
  intros Hp Ha Hb Hin%below_next. rewrite (sequenceOf_numbered prefix a b) in Hin by (done || apply nextSequence_pos). lia.
Qed.

(** ** The team *)

(** Everyone once, and an administrator among them. *)
Definition teamOk (members : list DemoMember) : Prop := NoDup (map dmb_id members) ∧ ∃ m, m ∈ members ∧ isAdmin m = true.
Lemma same_member members m m' : NoDup (map dmb_id members) → m ∈ members → m' ∈ members → dmb_id m = dmb_id m' → m = m'.
Proof.
  induction members as [|x l IH]; [by intros _ ?%elem_of_nil|]. cbn [map]. intros [Hx Hd]%NoDup_cons.
  intros [->|Hm]%elem_of_cons [->|Hm']%elem_of_cons He; [done| | |by apply IH]; destruct Hx; apply list_elem_of_fmap; eauto.
Qed.
(** Whoever is edited, another administrator remains. *)
Lemma other_admin members row : teamOk members → row ∈ members → lastAdmin members row = false →
  ∃ m, m ∈ members ∧ isAdmin m = true ∧ dmb_id m ≠ dmb_id row.
Proof.
  intros [Hd (a & Ha & Hadmin)] Hr Hl. unfold lastAdmin in Hl. destruct (isAdmin row) eqn:Er; cycle 1.
  { exists a. split; [done|]. split; [done|]. intros He. apply (same_member _ _ _ Hd Ha Hr) in He as ->. congruence. }
  cbn [andb] in Hl. apply Nat.eqb_neq in Hl. assert (Hin : row ∈ filterb isAdmin members) by by apply elem_of_filterb.
  assert (Hnd : NoDup (filterb isAdmin members)) by (apply NoDup_filterb; by apply NoDup_fmap_1 in Hd).
  destruct (filterb isAdmin members) as [|x [|y l]] eqn:El; [by apply elem_of_nil in Hin|done|].
  assert (Hx : x ∈ members ∧ isAdmin x = true) by (apply elem_of_filterb; rewrite El; apply elem_of_cons; by left).
  assert (Hy : y ∈ members ∧ isAdmin y = true) by (apply elem_of_filterb; rewrite El; apply elem_of_cons; right; apply elem_of_cons; by left).
  destruct (decide (dmb_id x = dmb_id row)) as [He|Hne]; [|exists x; by destruct Hx].
  exists y. split; [apply Hy|]. split; [apply Hy|]. intros He'. rewrite <- He in He'.
  apply (same_member _ _ _ Hd (proj1 Hy) (proj1 Hx)) in He' as ->. apply NoDup_cons in Hnd as [Hn _]. destruct Hn. apply elem_of_cons. by left.
Qed.
Lemma teamStep_ok canEdit e members members' : (∀ now name email role, e = te_add now name email role → js "u-" ++ printZ now ∉ map dmb_id members) →
  teamOk members → teamStep canEdit e members = Some members' → teamOk members'.
Proof.
  intros Hfresh Hok Hs. pose proof Hok as [Hd (a & Ha & Hadmin)]. destruct e as [now name email role|id role|id]; cbn [teamStep] in Hs.
  - destruct (_ && _); [|done]. injection Hs as <-. split; [|exists a; split; [apply elem_of_app; by left|done]].
    rewrite map_app. apply NoDup_app. split_and!; [done| |apply NoDup_singleton].
    intros x Hx ->%list_elem_of_singleton. by eapply Hfresh.
  - apply bind_Some in Hs as (row & [Hr Hid%streq_true]%findb_Some & Hs). destruct (_ && _) eqn:E; [|done]. injection Hs as <-.
    apply andb_true_iff in E as [[_ Hl%negb_true_iff]%andb_true_iff _]. destruct (other_admin members row Hok Hr Hl) as (m & Hm & Hma & Hne). split.
    + rewrite map_map. assert (Hsame : map (λ m, dmb_id (if streq (dmb_id m) id then mkDemoMember (dmb_id m) (dmb_name m) (dmb_email m) role else m)) members
        = map dmb_id members) by (apply map_ext; intros m'; by destruct (streq _ _)). by rewrite Hsame.
    + exists m. split; [|done]. apply list_elem_of_fmap. exists m. split; [|done]. destruct (streq (dmb_id m) id) eqn:E; [|done].
      apply streq_true in E. congruence.
  - apply bind_Some in Hs as (row & [Hr Hid%streq_true]%findb_Some & Hs). destruct (_ && _) eqn:E; [|done]. injection Hs as <-.
    apply andb_true_iff in E as [_ Hl%negb_true_iff]. destruct (other_admin members row Hok Hr Hl) as (m & Hm & Hma & Hne). split.
    + by apply NoDup_map_filterb.
    + exists m. split; [|done]. apply elem_of_filterb. split; [done|]. destruct (streq (dmb_id m) id) eqn:E; [|done].
      apply streq_true in E. congruence.
Qed.
(** The teams there can be: an organization is registered with its administrator, and members
    are added at different instants. *)
Inductive teamReach : list DemoMember → Prop :=
| tr_start m : isAdmin m = true → teamReach [m]
| tr_step canEdit e members members' : teamReach members → teamStep canEdit e members = Some members' →
    (∀ now name email role, e = te_add now name email role → js "u-" ++ printZ now ∉ map dmb_id members) → teamReach members'.
(** Somebody can always manage the organization, and whoever opens the demo on a new device is
    an administrator. *)
Lemma team_governed members : teamReach members → teamOk members ∧
  ∃ m, m ∈ members ∧ currentMember members None = Some m ∧ canUser (Some m) (js "manageSettings") = true.
Proof.
  intros Hr. assert (Hok : teamOk members).
  { induction Hr as [m Hm|canEdit e members members' Hr IH Hs Hf]; [|by eapply teamStep_ok].
    split; [apply NoDup_singleton|]. exists m. split; [by apply list_elem_of_singleton|done]. }
  split; [done|]. destruct Hok as [_ (a & Ha & Hadmin)]. unfold currentMember.
  match goal with |- context [match findb ?f _ with _ => _ end] => assert (Hno : findb f members = None) end.
  { apply findb_None. intros x _. by apply bool_decide_eq_false. }
  rewrite Hno. destruct (findb isAdmin members) as [m|] eqn:Ef.
  - apply findb_Some in Ef as [Hin Hm]. exists m. split; [done|]. split; [done|]. apply streq_true in Hm. unfold canUser. rewrite Hm. by vm_compute.
  - rewrite findb_None in Ef. by rewrite (Ef a Ha) in Hadmin.
Qed.

(** ** The books *)

(** An invoice stands for a completed inspection of its call, priced under some settings; its
    amounts are a snapshot. *)
Definition backed (inspections : list DemoInspection) (v : DemoInvoice) : Prop :=
  ∃ insp settings nrt, insp ∈ inspections ∧ di_id insp = dv_inspectionId v ∧ di_callId insp = dv_callId v ∧ di_status insp = js "completed" ∧
    dv_rate v = demoRate insp settings ∧ dv_dues v = calcDues nrt (dv_rate v) ∧
    mkCommission (dv_commissionUsd v) (dv_commissionNgn v) = calcCommission (dv_dues v) settings ∧ dv_fx v = stg_exchangeRate settings.
(** Paid in full, or not at all. *)
Definition settled (v : DemoInvoice) : Prop :=
  (dv_status v = js "paid" ∧ ∃ p, dv_payment v = Some p ∧ dp_amount p = Some (dv_dues v)) ∨ (dv_status v = js "unpaid" ∧ dv_payment v = None).
Record booksOk (s : Demo) : Prop := {
  bo_references : NoDup (map di_reference (dm_inspections s));
  bo_ids : NoDup (map dv_id (dm_invoices s));
  bo_numbers : NoDup (map dv_invoiceNo (dm_invoices s));
  bo_backed : Forall (backed (dm_inspections s)) (dm_invoices s);
  bo_settled : Forall settled (dm_invoices s) }.

Lemma invoice_of_id invoices v w : NoDup (map dv_id invoices) → v ∈ invoices → w ∈ invoices → dv_id v = dv_id w → v = w.
Proof. intros Hd Hv Hw He. by apply (NoDup_map_inj dv_id _ _ _ Hd). Qed.
#[local] Opaque js.
(** What the screens do to an invoice: its payment in full, or its removal. *)
Definition plainPatch (patch : InvoicePatch) : Prop :=
  (pt_status patch = Some (js "paid") ∧ ∃ p, pt_payment patch = Some (Some p) ∧ dp_amount p = None) ∨
  (pt_status patch = Some (js "unpaid") ∧ pt_payment patch = Some None).
Lemma patched_ok s id patch s' : booksOk s → plainPatch patch → withInvoice id patch s = Ok s' → booksOk s'.
Proof.
  intros [Hr Hi Hn Hb Hs] Hp Hw. unfold withInvoice in Hw. destruct (negb _); [done|]. unfold patchInvoice, rbind in Hw.
  destruct (findb _ _) as [v|] eqn:Ef; [|done]. apply findb_Some in Ef as [Hv Hid%streq_true].
  set (w := mkDemoInvoice _ _ _ _ _ _ _ _ _ _ _ _ _ _ _) in Hw. injection Hw as <-.
  assert (Hsame : ∀ x, x ∈ dm_invoices s → (streq (dv_id x) id = true ∧ x = v) ∨ streq (dv_id x) id = false).
  { intros x Hx. destruct (streq (dv_id x) id) eqn:E; [left|by right]. apply streq_true in E. split; [done|].
    apply (invoice_of_id (dm_invoices s)); [done..|congruence]. }
  assert (Hmap : ∀ {B} (f : DemoInvoice → B), f w = f v →
    map f (map (λ x, if streq (dv_id x) id then w else x) (dm_invoices s)) = map f (dm_invoices s)).
  { intros B f Hf. rewrite map_map. apply map_ext_in. intros x Hx%list_elem_of_In. by destruct (Hsame x Hx) as [[-> ->]| ->]. }
  rewrite Forall_forall in Hb, Hs. split; cbn [dm_inspections dm_invoices]; [done|by rewrite Hmap|by rewrite Hmap| |];
    apply Forall_forall; intros x (y & -> & Hy)%list_elem_of_fmap; destruct (Hsame y Hy) as [[-> ->]| ->]; [|by apply Hb| |by apply Hs].
  - destruct (Hb v Hv) as (insp & st & nrt & H). exists insp, st, nrt. exact H.
  - unfold settled, w. cbn [dv_status dv_payment dv_dues]. destruct Hp as [[-> (p & -> & Ea)]|[-> ->]]; [left|by right].
    split; [done|]. eexists. split; [done|]. cbn [dp_amount]. by rewrite Ea.
Qed.
Section Books.
Context (iso : Z → str).
Lemma inspected_ok s now data s' : booksOk s → js "iv-" ++ printZ now ∉ map dv_id (dm_invoices s) →
  demoStep iso (de_addInspection now data) s = Ok s' → booksOk s'.
Proof.
  intros [Hr Hi Hn Hb Hs] Hfresh Hstep. cbn [demoStep] in Hstep. destruct (negb _); [done|].
  unfold applyInspection in Hstep. set (insp := demoInspection iso now s data) in *. set (call := findb _ _) in *.
  assert (Hmore : Forall (backed (insp :: dm_inspections s)) (dm_invoices s)).
  { eapply Forall_impl; [exact Hb|]. intros v (i & st & nrt & Hin & H). exists i, st, nrt. split; [apply elem_of_cons; by right|done]. }
  assert (Href : NoDup (map di_reference (insp :: dm_inspections s))).
  { cbn [map]. apply NoDup_cons. split; [|done]. apply (numbered_fresh "INS-2026-" "INS" "2026"); [reflexivity|apply (bool_decide_unpack _); by vm_compute..]. }
  destruct (streq (nm_status data) _) eqn:Ec; injection Hstep as <-; split; cbn [dm_inspections dm_invoices]; try done.
  - cbn [map]. by apply NoDup_cons.
  - cbn [map]. apply NoDup_cons. split; [|done]. apply (numbered_fresh "INV-2026-" "INV" "2026"); [reflexivity|apply (bool_decide_unpack _); by vm_compute..].
  - apply Forall_cons_2; [|done]. exists insp, (dm_settings s), (match completeCall iso now <$> call with Some c => dc_nrt c | None => numOfZ 0 end).
    apply streq_true in Ec. split; [apply elem_of_cons; by left|]. repeat split. exact Ec.
  - apply Forall_cons_2; [by right|done].
Qed.
Lemma demoStep_ok e s s' : booksOk s → (∀ now data, e = de_addInspection now data → js "iv-" ++ printZ now ∉ map dv_id (dm_invoices s)) →
  demoStep iso e s = Ok s' → booksOk s'.
Proof.
  intros Hok Hfresh Hs. destruct e as [now data|id|now data|st|id on method reference|id|id].
  - cbn [demoStep] in Hs. destruct (negb _); [done|]. injection Hs as <-. by destruct Hok.
  - cbn [demoStep] in Hs. destruct (negb _); [done|]. injection Hs as <-. destruct Hok as [Hr Hi Hn Hb Hst].
    split; cbn [dm_inspections dm_invoices]; try by apply NoDup_map_filterb.
    + rewrite Forall_forall in *. intros v [Hv Hid]%elem_of_filterb. destruct (Hb v Hv) as (i & st & nrt & Hin & E1 & E2 & H).
      exists i, st, nrt. split; [|done]. apply elem_of_filterb. split; [done|]. by rewrite E2.
    + rewrite Forall_forall in *. intros v [Hv _]%elem_of_filterb. by apply Hst.
  - eapply inspected_ok; [done|by eapply Hfresh|done].
  - cbn [demoStep] in Hs. destruct (negb _); [done|]. injection Hs as <-. by destruct Hok.
  - eapply patched_ok; [done| |exact Hs]. left. split; [done|]. by eexists.
  - eapply patched_ok; [done| |exact Hs]. by right.
  - cbn [demoStep] in Hs. injection Hs as <-. by destruct Hok.
Qed.
End Books.
#[local] Transparent js.

(** ** Properties *)

(** The states of the demo: each operation as its members may, inspections at different instants. *)
Inductive demoReach (iso : Z → str) (start : Demo) : Demo → Prop :=
| dr_start : demoReach iso start start
| dr_step e s s' : demoReach iso start s → demoStep iso e s = Ok s' →
    (∀ now data, e = de_addInspection now data → js "iv-" ++ printZ now ∉ map dv_id (dm_invoices s)) → demoReach iso start s'.

(** The demo's books stay in order. Whatever its members do - registering and cancelling
    calls, inspecting, changing rates, recording and removing payments - no two inspections and
    no two invoices share a number, every invoice stands for a completed inspection of its own
    call, with the dues and commission that some settings gave for it, and is either unpaid or
    paid in full. *)
Theorem demo_books (iso : Z → str) (start s : Demo) (Hstart : booksOk start) (Hreach : demoReach iso start s) :
  NoDup (map di_reference (dm_inspections s)) ∧ NoDup (map dv_invoiceNo (dm_invoices s)) ∧
  ∀ v, v ∈ dm_invoices s → backed (dm_inspections s) v ∧ settled v.
Proof.
  assert (Hok : booksOk s) by (induction Hreach as [|e s s' Hr IH He Hf]; [done|by eapply demoStep_ok]).
  destruct Hok as [Hr _ Hn Hb Hs]. split; [done|]. split; [done|]. rewrite Forall_forall in Hb, Hs. auto.
Qed.

Definition seedInspection (i : nat) : DemoInspection :=
  nth i SEED_INSPECTIONS (mkDemoInspection [] [] [] [] [] (numOfZ 0) [] [] None None None).
(** The seeds are in order: their amounts are those of the default settings. *)
Lemma seeds_ok : booksOk demoStart.
Proof.
  split; cbn [demoStart dm_inspections dm_invoices]; try (apply (bool_decide_unpack _); vm_compute; exact I).
  - repeat apply Forall_cons_2; [| | | |apply Forall_nil_2];
      [exists (seedInspection 0), DEFAULT_SETTINGS, (dec "57137")|exists (seedInspection 1), DEFAULT_SETTINGS, (dec "42180")
      |exists (seedInspection 2), DEFAULT_SETTINGS, (dec "49870")|exists (seedInspection 3), DEFAULT_SETTINGS, (dec "61340")].
    all: split; [unfold seedInspection; apply list_elem_of_In, nth_In; cbn; lia|]; repeat split; vm_compute; reflexivity.
  - repeat apply Forall_cons_2; try apply Forall_nil_2; try (right; split; [vm_compute; reflexivity|reflexivity]);
      left; (split; [vm_compute; reflexivity|]); eexists; (split; [reflexivity|vm_compute; reflexivity]).
Qed.

(** A completed survey of the call under way: the next numbers of both books, priced by its
    jetty; and the payment a member of Finance records for it. *)
Definition aDay (now : Z) : str := if now =? 1 then js "2026-06-07T10:00:00.000Z" else js "2026-06-14T10:00:00.000Z".
Definition surveyed : DemoMeasured := mkDemoMeasured (js "vc-005") (js "Liquid") (dec "33000") (js "completed") None None
  (Some (mkJetty (js "Local") (Some (js "Private")) None)).
Definition surveyEvents : list DemoEvent :=
  [de_addInspection 1 surveyed; de_user (js "u-003"); de_pay (js "iv-1") (js "2026-06-08") (js "Bank transfer") (js " NPA-TRF-9 ")].
Definition afterSurvey : Demo := demoRun aDay surveyEvents demoStart.
Example survey_invoiced : map (λ v, (dv_invoiceNo v, dv_dues v, dv_status v, dp_reference <$> dv_payment v)) (take 1 (dm_invoices afterSurvey))
  = [(js "INV-2026-0289", dec "110649.60", js "paid", Some (js "NPA-TRF-9"))] ∧
  map di_reference (take 1 (dm_inspections afterSurvey)) = [js "INS-2026-0314"].
Proof. vm_compute. split; reflexivity. Qed.
Lemma run_reached iso start e s : demoReach iso start s → (∀ now data, e = de_addInspection now data → js "iv-" ++ printZ now ∉ map dv_id (dm_invoices s)) →
  demoReach iso start (match demoStep iso e s with Ok s' => s' | Err _ => s end).
Proof. intros Hs He. destruct (demoStep iso e s) as [s'|] eqn:E; [by eapply dr_step|done]. Qed.
Lemma survey_reached : demoReach aDay demoStart afterSurvey.
Proof.
  unfold afterSurvey, demoRun, surveyEvents. cbn [foldl]. repeat apply run_reached; [apply dr_start| |done..].
  intros now data [= <- _]. apply (bool_decide_unpack _). vm_compute. exact I.
Qed.
Lemma demo_books_witness : NoDup (map dv_invoiceNo (dm_invoices afterSurvey)) ∧ ∀ v, v ∈ dm_invoices afterSurvey → settled v.
Proof.
  destruct (demo_books aDay demoStart afterSurvey seeds_ok survey_reached) as (_ & Hn & Hv). split; [exact Hn|]. intros v H. apply Hv, H.
Defined.

(** What an operation needs. *)
Definition demoAction (e : DemoEvent) : option string :=
  match e with
  | de_addCall _ _ => Some "registerCall" | de_deleteCall _ => Some "cancelCall" | de_addInspection _ _ => Some "addInspection"
  | de_settings _ => Some "manageSettings" | de_pay _ _ _ _ | de_unpay _ => Some "recordPayment" | de_user _ => None
  end%string.
Lemma demo_refused iso e s action : demoAction e = Some action → demoCan s action = false → ∃ message, demoStep iso e s = Err message.
Proof. intros Ha Hc. destruct e; cbn in Ha; try done; injection Ha as <-; cbn [demoStep]; unfold withInvoice; rewrite Hc; by eexists. Qed.
(** A member who may do none of it is refused everything but naming another member. *)
Example viewer_refused : map (demoCan (demoRun aDay [de_user (js "u-004")] demoStart))
  ["registerCall"; "cancelCall"; "addInspection"; "manageSettings"; "recordPayment"]%string = repeat false 5.
Proof. vm_compute. reflexivity. Qed.
(** Where the cargo is known, the rate is that of the current application. *)
Lemma demoRate_agrees insp settings cargo : di_cargoType insp = (match cargo with Dry => js "Dry" | Liquid => js "Liquid" end) →
  demoRate insp settings = rateForInspection (Some (mkInspection [] [] [] [] cargo None (numOfZ 0) (di_jetty insp) None None [] insp_draft 0 None None)) settings.
Proof.
  intros Hc. unfold demoRate, rateForInspection. cbn [insp_cargoType insp_jetty]. rewrite Hc. destruct cargo.
  - change (streq (js "Liquid") (js "Dry")) with false. cbn iota. destruct (di_jetty insp) as [j|]; [|done].
    destruct (streq (jet_type j) (js "International")); [done|]. destruct (streq (jet_type j) (js "Local")); [|done]. cbn [andb].
    destruct (jet_category j) as [c|]; [|by rewrite !bool_decide_eq_false_2].
    unfold streq. rewrite (bool_decide_ext (Some c = Some (js "Government")) (c = js "Government")), (bool_decide_ext (Some c = Some (js "Private")) (c = js "Private"))
      by (split; [by intros [= ->]|by intros ->]). done.
  - by rewrite streq_refl.
Qed.
